(* ===== verification/_CoqProject ===== *)
-Q . S2P
Prelude.v
ILMeta.v
HashTable.v
HashTableCorrect.v
MemPool.v
MemPoolSafe.v
Sha1.v
Sha1Correct.v
Values.v
ILTypes.v
Program.v
SampleProgram.v
Members.v
TypeIdentity.v
Mangle.v
MangleCorrect.v
Opcodes.v
Trees.v
CilState.v
CilDecl.v
EvalStack.v
Records.v
Calls.v
Statements.v
StaticData.v
Frame.v
Metadata.v
Instr.v
ParseInstr.v
Constants.v
Assembly.v
Reading.v
MethodCode.v
MethodHeader.v
Methods.v
Sample.v
ClassRecords.v
Fuel.v
VTable.v
VTableFindings.v
Effects.v
StackEffect.v
ParseLoop.v
MetaCompress.v
MetaHeader.v
Exceptions.v
PeCoff.v
PeCoffSafe.v
MetaIndex.v
MetaIndexSafe.v
MetaIndexRows.v
MetaIndexWriter.v
MetaTokens.v
SigParse.v
SigSafe.v
SigWriter.v
SigRoundtrip.v
Utf8.v
Utf16.v
Semantics.v
CilMachine.v
Int32Handlers.v
Int32Compile.v
Int32Correct.v
StackTypes.v
Functions.v
Strings.v
Int32Findings.v
ScilTrees.v
ScilStack.v
ScilMethod.v
ScilInstr.v
ScilParse.v
ScilSlots.v
ScilSemantics.v
ScilInt32.v
ScilCompile.v
ScilLayout.v
ScilCorrect.v
ScilMethodCorrect.v
