(* ===== verification/Prelude.v ===== *)
(** * Prelude: a model of the CIL front end of GCC (gcc-cil)

    The program under src/gcc/cil is a front end of GCC 4.1 that compiles the
    assemblies of the Common Language Infrastructure (ECMA-335) ahead of time.
    It reads an assembly with a copy of the metadata library of Portable.NET
    (src/gcc/cil/image, support, include), makes the records of its classes and
    the data structures of the Mono runtime, and translates the code of its
    methods to GENERIC trees, which it hands to the middle end of GCC.  A second,
    smaller front end for the same language, with its own copy of the library and
    with the writers, is src/gcc/scil.  This development models the first front
    end, the compilation of methods by the second, and the parts of the library
    that carry their logic, as functions that can be evaluated, and proves what
    they promise.

    ** The files

    The library, from the bytes up:
    - ILMeta: the constants of include/il_meta.h;
    - Values: the little-endian reads of include/il_values.h;
    - MetaCompress: compressed integers and tokens, image/compress.c and
      image/uncompress.c;
    - MetaHeader: the directory of the streams of the metadata,
      image/meta_header.c; MetaIndex: the tables of the metadata and the items of
      their tokens, image/meta_index.c; MetaIndexSafe, MetaIndexRows, MetaTokens:
      its theorems; MetaIndexWriter: the writer of the tables in
      src/gcc/scil/pnet/image/meta_writer.c, and that loading undoes it;
    - PeCoff: executables, libraries and object files, image/pecoff_loader.c and
      image/image.c, with the sections and ranges of addresses of an image;
      PeCoffSafe: that loading and finding sections stay inside the data;
    - HashTable, HashTableCorrect: support/hashtab.c, and that a table is a
      multiset of elements; MemPool, MemPoolSafe: support/mempool.c, and that
      items do not overlap; Sha1, Sha1Correct: support/sha1.c, and that it computes
      the digest of the standard;
    - Utf8, Utf16, Strings: the codecs of support/utf8.c and support/utf16.c, and
      the reads of string literals;
    - ILTypes: types and signatures, include/il_types.h and the construction of
      types in image/meta_types.c;
    - SigParse, SigSafe: the reader of signature blobs, image/sig_parse.c;
    - SigWriter, SigRoundtrip: the writer, src/gcc/scil/pnet/image/sig_writer.c,
      and that the reader undoes it;
    - Program, Members, TypeIdentity: classes, methods and fields as the loader
      leaves them, inheritance, overriding and accessibility, and the comparison
      of types (image/program.h, class.c, member.c, meta_types.c);
    - MethodCode, MethodHeader: the headers of method bodies, and Exceptions: the
      sections of exception handlers behind the code (image/member.c);
    - Opcodes: the instruction set and its tables (image/opcodes.c, opdef.c).

    The front end:
    - Trees, CilState: the nodes of GENERIC the front end makes, its globals and
      the monad of state and failure in which it runs;
    - CilDecl, Records, Calls, Statements, StaticData: cil-decl.c,
      mono_structs.c and build_trees.c;
    - EvalStack: the evaluation stack at compile time, stack.c;
    - Metadata: the interface between the code generator and the reader of types,
      a class of operations ([TypeReader]) and one of laws; Instr: instr.c, over
      that interface;
    - ParseInstr: parse_instr.c, the [switch] over the instructions and the loop
      over a body;
    - Constants, Assembly, Reading, Methods: parse_assembly.c; Reading ties the
      functions that call each other and implements the interface of Metadata;
    - Mangle: mangle.c.

    The second front end, src/gcc/scil:
    - ScilTrees: its types (scil-builtins.c), hooks (scil-hooks.c), nodes and
      state; ScilStack: scil-evalstack.c, where an item of the stack is a variable
      of its depth and type; ScilMethod: scil-method.c, and what scil-mono.c and
      scil-trees.c give the instructions;
    - ScilInstr: scil-instructions.c; ScilParse: scil-pnet.c as far as it reads
      methods, over the class [ScilReader] of what tokens stand for;
    - ScilSlots: the invariant of the stack variables; ScilSemantics: what the
      statements compute; ScilInt32, ScilCompile, ScilLayout, ScilCorrect,
      ScilMethodCorrect: the dispatch of the instructions on integers and what
      they append, the layout of a body, and the correctness of a method.

    What the results are compared with:
    - Semantics: what the trees compute; CilMachine: the machine of the standard;
    - Frame, Effects: what each builder leaves alone, and how it moves the stack;
    - MangleCorrect, VTable, ClassRecords, Fuel, StackEffect, StackTypes,
      ParseLoop, Functions, Int32Handlers, Int32Compile, Int32Correct: the
      theorems; VTableFindings and Int32Findings: where the code does not do what
      it should;
    - SampleProgram, Sample: an assembly and a state on which the witnesses run.

    ** State, failure and bounds

    A computation of type [comp S A] takes a state and returns a result and a
    state, or a [failure]: an assertion or internal error of the compiler, an
    access that C leaves undefined, or the end of the fuel.  The state of the
    front end is [CilState.cil_state]; that of the reader of signatures is the
    cursor of MetaCompress.  C integers are [Z], wrapped where the C types wrap;
    the width of [long] and the sign of [char] on the machine of the compiler are
    the class [Host].  Loops without a structural bound have fuel: the number of
    bytes for [parse_instructions] and for the modifiers of a type, the number of
    parameters, the steps of a seek, the sections of an image and of a method, the size of a type for its comparison, the number of entries of a
    directory, of rows of a table for a search, of entries of a hash table, the
    length of the code for [ScilParse.parse_code] (enough, by
    [ParseLoop.parse_instructions_terminates], [PeCoffSafe.image_load_safe],
    [Exceptions.exceptions_roundtrip], [ScilMethodCorrect.scil_compile_int32_correct], [SigSafe.signature_readers_safe],
    [TypeIdentity.type_identical_norm], [MetaHeader.meta_entry_safe],
    [MetaTokens.search_for_token_correct] and [HashTableCorrect.hash_table_refines]); 20 levels of nesting are the bound of
    sig_parse.c itself.  The depth of the calls between the readers of types and
    classes, and of the walks along parents, are [reader_fuel] and [max_depth] of
    [Program]; [Fuel.reading_fuel] shows that the results do not depend on the
    first, and [Fuel.self_static_never_read] that no bound is enough for the value
    types that have a static field of their own type.

    ** Theorems

    - The code of a method on [int32] values computes what the machine of the
      standard computes (Int32Correct), and the body is cut into instructions
      that way and no other (ParseLoop).
    - The second front end compiles a static method on [int32] values that
      [ScilInt32.scil_verify] accepts to statements that return what the machine
      returns, loops and stacks that branches carry included (ScilMethodCorrect);
      the verifier refuses the narrow arithmetic, the branches on integers and the
      unsigned comparisons that it gets wrong, which the last examples show.
      Whatever the code is, two items of its stack are never the same variable
      (ScilSlots).
    - An instruction moves the evaluation stack as its row of the tables says, a
      call as its signature does (StackEffect); what is pushed has the type the
      standard asks for (StackTypes); labels belong to one function (Functions).
    - A call through the method table of a class without interfaces reaches the
      last override, as long as the signatures of the methods do not make the
      compiler read other classes in between (VTable); names tell methods with
      primitive parameters apart, and not all others (MangleCorrect); a class has
      one record (ClassRecords).
    - Reading the headers of any file stays inside its buffer, and an image whose
      sections fit is loaded and searched inside its data; ranges of addresses are
      subtracted exactly (PeCoffSafe).
    - What the writers of the library write, the readers read back: compressed
      integers, characters, signatures of the types that each place can encode; method bodies laid out as the standard says
      are read with their exception handlers; the readers are safe on all bytes
      (MetaCompress, Utf8, Utf16, MethodHeader, Exceptions, SigSafe, SigRoundtrip).
    - The tables of the metadata that are written are loaded again with the same
      rows (MetaIndexWriter); on any bytes, loading them and unpacking a row stays
      inside the streams, and what a row refers to is there (MetaIndexSafe); items
      are found under the tokens they were entered with, and by searching, in
      order or by bisection (MetaTokens); streams are found by name (MetaHeader).
    - A hash table does what a multiset of its elements does, whatever the order of
      the operations, and frees every element once (HashTableCorrect); a memory
      pool whose items fit into a block gives out items that are its own and
      nobody else's, whatever is written to them (MemPoolSafe); digests are SHA-1 (Sha1Correct).
    - Two types are identical when their abstract syntax is, up to the classes that
      are compared by name while references are still to be resolved
      (TypeIdentity).
    - Where the code does otherwise, a theorem shows when
      ([MangleCorrect.mangle_collision], [Fuel.self_static_never_read],
      [MethodHeader.method_header_overrun]) or an example on a concrete input.

    ** Not modelled

    The rest of GCC is an interface where the front end calls it: [MiddleEnd] for
    folding, conversions and sizes, [Target] for the formats of the target
    ([ScilMiddleEnd] and [ScilTarget] for the second front end).  Mapping a file
    and reading the metadata of an image are parameters of PeCoff; as the loader
    does not compare the size of the metadata with the file, MetaHeader starts from
    a section that lies in the data.  The construction of a program from the tables
    (image/meta_build.c, link.c, item.c), which makes the classes and members of a program from the tables, is the class
    [Program]: the objects it leaves behind are its fields, and what the signature
    reader asks of it is [SigImage], and what the second front end asks of it is
    [ScilReader]; in MetaIndex and MetaTokens, what builds the
    structures from the tables and loads an item on demand is a parameter.  Files and
    paths (pnet.c), the wrappers of the C library (support) and the hooks of the
    compiler driver (cil1.c, scil-main.c) are input, output and glue, and so is the
    registration and naming of classes in the second front end (scil-class.c,
    scil-mangle.c), on which the statements of a method do not depend; memory does not run out.
    Floating-point constants are kept as their bits. *)
From Stdlib Require Export ZArith Lia.
From stdpp Require Export base tactics numbers list gmap strings fin_maps.

#[global] Open Scope Z_scope.

Ltac Zify.zify_post_hook ::= Z.to_euclidean_division_equations.

(** Compute the closed powers of two of the goal and the hypotheses. *)
Ltac norm_pow :=
  repeat match goal with
  | |- context [2 ^ Z.pos ?p] =>
      let v := eval vm_compute in (2 ^ Z.pos p) in change (2 ^ Z.pos p) with v
  | H : context [2 ^ Z.pos ?p] |- _ =>
      let v := eval vm_compute in (2 ^ Z.pos p) in change (2 ^ Z.pos p) with v in H
  end.

(** [lia] up to closed powers of two; it decides [/] and [mod] by constants. *)
Ltac zlia := norm_pow; lia.

(** ** Machine integers

    A C integer of width [w] is a [Z]; conversions wrap as the C conversions
    do. *)

(** Conversion to an unsigned type of [w] bits. *)
Definition to_unsigned (w x : Z) : Z := x mod 2 ^ w.

(** Conversion to a signed type of [w] bits (two's complement). *)
Definition to_signed (w x : Z) : Z :=
  (x + 2 ^ (w - 1)) mod 2 ^ w - 2 ^ (w - 1).

(** The ABI of the machine the compiler runs on: the width of [long] and the
    signedness of plain [char]. *)
Class Host := {
  long_bits : Z;
  long_bits_cases : long_bits = 32 \/ long_bits = 64;
  char_signed : bool
}.

Definition ILP32 : Host :=
  {| long_bits := 32; long_bits_cases := or_introl eq_refl; char_signed := true |}.
Definition LP64 : Host :=
  {| long_bits := 64; long_bits_cases := or_intror eq_refl; char_signed := true |}.

(** [(unsigned char)x], [(signed char)x], [(char)x], and the [ILInt32]-style
    fixed-width types. *)
Definition uchar (x : Z) : Z := to_unsigned 8 x.
Definition schar (x : Z) : Z := to_signed 8 x.
Definition uint16 (x : Z) : Z := to_unsigned 16 x.
Definition uint32 (x : Z) : Z := to_unsigned 32 x.
Definition int32 (x : Z) : Z := to_signed 32 x.
Definition ulong `{Host} (x : Z) : Z := to_unsigned long_bits x.
Definition long `{Host} (x : Z) : Z := to_signed long_bits x.
Definition plain_char `{Host} (x : Z) : Z :=
  if char_signed then to_signed 8 x else to_unsigned 8 x.

(** A byte of a buffer. *)
Definition is_byte (b : Z) : Prop := 0 <= b < 256.

Create HintDb cint.

Lemma to_unsigned_small w x : 0 <= x < 2 ^ w -> to_unsigned w x = x.
Proof. intros. unfold to_unsigned. by rewrite Z.mod_small. Qed.

Lemma uint32_small x : 0 <= x < 2 ^ 32 -> uint32 x = x.
Proof. apply to_unsigned_small. Qed.

Lemma to_unsigned_range w x : 0 <= w -> 0 <= to_unsigned w x < 2 ^ w.
Proof. intros. unfold to_unsigned. apply Z.mod_pos_bound. lia. Qed.

Lemma pow2_double w : 0 < w -> 2 ^ w = 2 * 2 ^ (w - 1).
Proof.
  intros. replace w with (1 + (w - 1)) at 1 by lia.
  rewrite Z.pow_add_r by lia. reflexivity.
Qed.

Lemma to_signed_small w x :
  0 < w -> - 2 ^ (w - 1) <= x < 2 ^ (w - 1) -> to_signed w x = x.
Proof.
  intros Hw Hx. unfold to_signed. rewrite (pow2_double w Hw), Z.mod_small; lia.
Qed.

Lemma to_signed_range w x :
  0 < w -> - 2 ^ (w - 1) <= to_signed w x < 2 ^ (w - 1).
Proof.
  intros Hw. unfold to_signed.
  pose proof (Z.mod_pos_bound (x + 2 ^ (w - 1)) (2 ^ w)).
  rewrite (pow2_double w Hw) in *. lia.
Qed.

(** Signed and unsigned readings of the same bits differ by a multiple of the
    modulus. *)
Lemma to_signed_mod w x : 0 < w -> to_signed w x mod 2 ^ w = x mod 2 ^ w.
Proof.
  intros Hw. unfold to_signed. rewrite Zminus_mod_idemp_l. f_equal. lia.
Qed.

Lemma to_signed_eqm w x y :
  x mod 2 ^ w = y mod 2 ^ w -> to_signed w x = to_signed w y.
Proof.
  intros E. unfold to_signed.
  by rewrite <- Zplus_mod_idemp_l, E, Zplus_mod_idemp_l.
Qed.

Lemma to_signed_idemp w x : 0 < w -> to_signed w (to_signed w x) = to_signed w x.
Proof. intros. by apply to_signed_eqm, to_signed_mod. Qed.

Lemma to_unsigned_signed w x :
  0 < w -> to_unsigned w (to_signed w x) = to_unsigned w x.
Proof. apply to_signed_mod. Qed.

Lemma to_signed_unsigned w x :
  0 < w -> to_signed w (to_unsigned w x) = to_signed w x.
Proof. intros. apply to_signed_eqm. unfold to_unsigned. by rewrite Zmod_mod. Qed.

Lemma long_bits_ge `{Host} : 32 <= long_bits.
Proof. destruct long_bits_cases; lia. Qed.

Lemma pow_long_ge `{Host} : 2 ^ 32 <= 2 ^ long_bits.
Proof. apply Z.pow_le_mono_r; [lia | apply long_bits_ge]. Qed.

Lemma ulong_small `{Host} x : 0 <= x < 2 ^ 32 -> ulong x = x.
Proof. intros. apply to_unsigned_small. pose proof pow_long_ge. lia. Qed.

Lemma long_small `{Host} x : - 2 ^ 31 <= x < 2 ^ 31 -> long x = x.
Proof.
  intros. pose proof long_bits_ge. apply to_signed_small; [lia |].
  pose proof (Z.pow_le_mono_r 2 31 (long_bits - 1)). lia.
Qed.

#[export] Hint Resolve to_unsigned_small to_signed_small ulong_small long_small : cint.

(** ** Bit operations as arithmetic

    The codecs combine disjoint bit fields; these lemmas turn such expressions
    into sums, quotients and remainders, which [lia] decides. *)

Lemma lor_disjoint n a b :
  0 <= n -> a mod 2 ^ n = 0 -> 0 <= b < 2 ^ n -> Z.lor a b = a + b.
Proof.
  intros Hn Ha Hb.
  assert (Z.land a b = 0) as Hab.
  { apply Z.bits_inj'. intros i Hi. rewrite Z.land_spec, Z.bits_0.
    destruct (Z.lt_ge_cases i n) as [Hlt | Hge].
    - rewrite <- (Z.mod_pow2_bits_low a n i) by lia.
      by rewrite Ha, Z.bits_0.
    - rewrite <- (Z.mod_small b (2 ^ n)) by lia.
      rewrite Z.mod_pow2_bits_high by lia. by rewrite andb_false_r. }
  rewrite <- Z.lxor_lor by done. symmetry. by apply Z.add_nocarry_lxor.
Qed.

Lemma land_low n x : 0 <= n -> Z.land x (Z.ones n) = x mod 2 ^ n.
Proof. apply Z.land_ones. Qed.

(** A mask of [m] ones starting at bit [k] keeps a middle field. *)
Lemma land_field x k m :
  0 <= k -> 0 <= m ->
  Z.land x (Z.shiftl (Z.ones m) k) = x mod 2 ^ (k + m) / 2 ^ k * 2 ^ k.
Proof.
  intros. rewrite <- Z.shiftl_mul_pow2, <- Z.shiftr_div_pow2 by lia.
  rewrite <- Z.land_ones by lia.
  apply Z.bits_inj'. intros i Hi.
  rewrite Z.land_spec, !Z.shiftl_spec by lia.
  destruct (Z.lt_ge_cases i k).
  - rewrite !(Z.testbit_neg_r _ (i - k)) by lia. by rewrite andb_false_r.
  - rewrite Z.shiftr_spec, Z.land_spec by lia.
    replace (i - k + k) with i by lia.
    f_equal. rewrite !Z.testbit_ones by lia.
    destruct (Z.ltb_spec (i - k) m), (Z.ltb_spec i (k + m)),
      (Z.leb_spec 0 (i - k)), (Z.leb_spec 0 i); simpl; lia || done.
Qed.

(** The same statements in the shapes the codecs use, with the shift and the
    mask written out; [cbits] rewrites a goal with them. *)
Lemma shiftr_div x n : 0 <= n -> Z.shiftr x n = x / 2 ^ n.
Proof. apply Z.shiftr_div_pow2. Qed.

Lemma shiftl_mul x n : 0 <= n -> Z.shiftl x n = x * 2 ^ n.
Proof. apply Z.shiftl_mul_pow2. Qed.

(** [ones_of k] computes [Some n] when [k] is [2^n - 1]. *)
Ltac ones_of k :=
  let n := eval vm_compute in (Z.log2 (k + 1)) in
  let o := eval vm_compute in (Z.ones n) in
  match o with k => n end.

(** Turn every shift, and every mask that is a run of low ones, into
    multiplications, quotients and remainders. *)
Ltac cbits_step :=
  match goal with
  | |- context [Z.shiftr ?x ?n] =>
      rewrite (shiftr_div x n) by lia
  | |- context [Z.shiftl ?x ?n] =>
      rewrite (shiftl_mul x n) by lia
  | |- context [Z.land ?x ?k] =>
      let n := ones_of k in
      change (Z.land x k) with (Z.land x (Z.ones n));
      rewrite (land_low n x) by lia
  end.

Ltac cbits := repeat cbits_step.

(** Replace [Z.lor a b] by [a + b], the fields being disjoint at bit [n]. *)
Ltac lor_at n :=
  match goal with
  | |- context [Z.lor ?a ?b] =>
      first
        [ rewrite (lor_disjoint n a b) by zlia
        | rewrite (Z.lor_comm a b);
          rewrite (lor_disjoint n b a) by zlia ]
  end.

(** ** Bytes *)

(** A boolean fact about one byte is decided by trying the 256 values. *)
Lemma byte_forall (P : Z -> bool) b :
  forallb P (map Z.of_nat (seq 0 256)) = true -> is_byte b -> P b = true.
Proof.
  intros HP Hb. rewrite forallb_forall in HP. apply HP.
  apply in_map_iff. exists (Z.to_nat b). unfold is_byte in Hb.
  split; [lia |]. apply in_seq. lia.
Qed.

(** The same for a decidable proposition. *)
Lemma byte_forall_dec (P : Z -> Prop) `{forall b, Decision (P b)} :
  forallb (fun b => bool_decide (P b)) (map Z.of_nat (seq 0 256)) = true ->
  forall b, is_byte b -> P b.
Proof.
  intros HP b Hb. eapply bool_decide_eq_true_1.
  exact (byte_forall (fun b => bool_decide (P b)) b HP Hb).
Qed.

(** [by_bytes b] proves an equation between two decidable functions of the
    byte [b] by enumeration. *)
Ltac by_bytes b :=
  match goal with
  | |- ?l = ?r =>
      let l' := eval pattern b in l in
      let r' := eval pattern b in r in
      lazymatch l' with ?f ?x1 => lazymatch r' with ?g ?x2 =>
        match type of l with
        | bool => apply (Bool.eqb_prop (f b) (g b));
                  apply (byte_forall (fun b => Bool.eqb (f b) (g b)))
        | Z => apply (proj1 (Z.eqb_eq (f b) (g b)));
               apply (byte_forall (fun b => Z.eqb (f b) (g b)))
        end;
        [vm_compute; reflexivity | assumption]
      end end
  end.

Lemma uchar_byte x : is_byte (uchar x).
Proof. apply (to_unsigned_range 8); lia. Qed.

Lemma uchar_small x : is_byte x -> uchar x = x.
Proof. apply (to_unsigned_small 8). Qed.

Lemma uchar_mod x : uchar x = x mod 256.
Proof. reflexivity. Qed.

(** Big-endian assembly of bytes by shift and or. *)
Lemma be2 a b :
  0 <= a -> is_byte b -> Z.lor (Z.shiftl a 8) b = a * 2 ^ 8 + b.
Proof.
  unfold is_byte; intros. rewrite shiftl_mul by zlia.
  apply (lor_disjoint 8); zlia.
Qed.

Lemma be4 a b c d :
  0 <= a -> is_byte b -> is_byte c -> is_byte d ->
  Z.lor (Z.lor (Z.lor (Z.shiftl a 24) (Z.shiftl b 16)) (Z.shiftl c 8)) d
  = a * 2 ^ 24 + b * 2 ^ 16 + c * 2 ^ 8 + d.
Proof.
  unfold is_byte; intros. rewrite !shiftl_mul by zlia.
  rewrite (lor_disjoint 24 (a * _)) by zlia.
  rewrite (lor_disjoint 16 (a * _ + _)) by zlia.
  apply (lor_disjoint 8); zlia.
Qed.

#[export] Hint Resolve uchar_byte : cint.

(** Equality of explicit lists of integers, element by element. *)
Ltac list_zlia :=
  repeat match goal with
  | |- _ :: _ = _ :: _ => apply (f_equal2 cons); [zlia |]
  end; reflexivity.

(** ** Buffers *)

(** [buf[i]]; [None] is an access outside the buffer. *)
Definition byte_at (buf : list Z) (i : Z) : option Z :=
  if 0 <=? i then buf !! Z.to_nat i else None.

Lemma byte_at_app_r l k i :
  0 <= i -> byte_at (l ++ k) (Z.of_nat (length l) + i) = byte_at k i.
Proof.
  intros Hi. unfold byte_at.
  rewrite (proj2 (Z.leb_le 0 i)), (proj2 (Z.leb_le 0 (_ + i))) by lia.
  rewrite lookup_app_r by lia. f_equal. lia.
Qed.

Lemma byte_at_Some buf i b :
  byte_at buf i = Some b -> 0 <= i < Z.of_nat (length buf) /\ (Forall is_byte buf -> is_byte b).
Proof.
  unfold byte_at. destruct (Z.leb_spec 0 i); [| done]. intros Hb.
  split; [apply lookup_lt_Some in Hb; lia |].
  intros Hf. by eapply Forall_lookup in Hf.
Qed.

Lemma byte_at_in_range buf i :
  0 <= i < Z.of_nat (length buf) -> exists b, byte_at buf i = Some b.
Proof.
  intros Hi. unfold byte_at. rewrite (proj2 (Z.leb_le 0 i)) by lia.
  apply lookup_lt_is_Some_2. lia.
Qed.

(** The test [lo <= x < hi] as the code's conditions compute it. *)
Definition in_range (lo hi x : Z) : bool := (lo <=? x) && (x <? hi).

Lemma in_range_spec lo hi x : in_range lo hi x = true <-> lo <= x < hi.
Proof. unfold in_range. lia. Qed.

(** ** Strings *)

Lemma string_app_assoc (a b c : string) : (a +:+ b) +:+ c = a +:+ (b +:+ c).
Proof. induction a as [| x a IH]; [done |]. exact (f_equal (String x) IH). Qed.

Lemma string_app_nil_r (a : string) : a +:+ "" = a.
Proof. induction a as [| x a IH]; [done |]. exact (f_equal (String x) IH). Qed.

Lemma string_length_app (a b : string) :
  String.length (a +:+ b) = (String.length a + String.length b)%nat.
Proof. induction a as [| x a IH]; [done |]. exact (f_equal S IH). Qed.

Lemma string_snoc_inj a b c d :
  String.length a = String.length b ->
  a +:+ String c "" = b +:+ String d "" -> a = b /\ c = d.
Proof.
  revert b. induction a as [| x a IH]; intros [| y b] Hl; cbn in *; try done.
  - by intros [= ->].
  - intros [= -> E]. destruct (IH b) as [-> ->]; [lia | done | done].
Qed.

Lemma string_app_inj p a b : p +:+ a = p +:+ b -> a = b.
Proof. induction p as [| x p IH]; [done |]. intros [= E]. by apply IH. Qed.

(** ** Outcomes and state

    The front end is C code over global state that can stop the compiler.  A
    computation takes a state and ends with a value and a state, or with the
    way it failed. *)

Inductive failure :=
| Internal_error (msg : string)      (* [internal_error], which does not return *)
| Assertion (where_ : string)        (* [gcc_assert] *)
| Undefined (what : string)          (* null dereference, array index out of bounds *)
| Out_of_fuel.                       (* the bound of a loop of the model *)

Inductive outcome (S A : Type) :=
| Done (a : A) (s : S)
| Failed (f : failure).
Arguments Done {S A}.
Arguments Failed {S A}.

Definition comp (S A : Type) : Type := S -> outcome S A.

#[export] Instance comp_ret S : MRet (comp S) := fun A a s => Done a s.
#[export] Instance comp_bind S : MBind (comp S) := fun A B f m s =>
  match m s with
  | Done a s' => f a s'
  | Failed e => Failed e
  end.

Lemma bind_ret {S A B} (a : A) (f : A -> comp S B) : mret a ≫= f = f a.
Proof. reflexivity. Qed.

Lemma bind_done {S A B} (m : comp S A) (f : A -> comp S B) s a s' :
  m s = Done a s' -> (m ≫= f) s = f a s'.
Proof. intros E. unfold mbind, comp_bind. by rewrite E. Qed.

Lemma bind_fail {S A B} (m : comp S A) (f : A -> comp S B) s e :
  m s = Failed e -> (m ≫= f) s = Failed e.
Proof. intros E. unfold mbind, comp_bind. by rewrite E. Qed.

Lemma bind_run {S A B} (m : comp S A) (f : A -> comp S B) s a s' r :
  m s = Done a s' -> f a s' = r -> (m ≫= f) s = r.
Proof. intros E <-. by apply bind_done. Qed.

Lemma bind_assoc {S A B C} (m : comp S A) (f : A -> comp S B) (g : B -> comp S C) s :
  ((m ≫= f) ≫= g) s = (m ≫= fun a => f a ≫= g) s.
Proof. unfold mbind, comp_bind. by destruct (m s). Qed.

Definition fail {S A} (f : failure) : comp S A := fun _ => Failed f.
Definition internal_error {S A} (msg : string) : comp S A := fail (Internal_error msg).
Definition get {S A} (f : S -> A) : comp S A := fun s => Done (f s) s.
Definition modify {S} (f : S -> S) : comp S unit := fun s => Done tt (f s).
Definition gcc_assert {S} (b : bool) (where_ : string) : comp S unit :=
  if b then mret tt else fail (Assertion where_).
(** [l[i]] and [l[i] = x] of a C array. *)
Definition array_get {S A} (what : string) (l : list A) (i : Z) : comp S A :=
  match (if 0 <=? i then l !! Z.to_nat i else None) with
  | Some x => mret x
  | None => fail (Undefined what)
  end.
(** A read of a buffer. *)
Definition lift {S A} (what : string) (o : option A) : comp S A :=
  match o with Some a => mret a | None => fail (Undefined what) end.

(** [for (i = 0; i < n; ++i) body i acc]. *)
Fixpoint for_loop {S A} (n : nat) (i : Z) (body : Z -> A -> comp S A) (acc : A)
    : comp S A :=
  match n with
  | O => mret acc
  | Datatypes.S n => acc ← body i acc; for_loop n (i + 1) body acc
  end.

(** [wp E m Q s]: from the state [s], [m] ends with a value and a state in
    [Q], or fails in a way that [E] allows. *)
Definition wp {S A} (E : failure -> Prop) (m : comp S A) (Q : A -> S -> Prop) (s : S) : Prop :=
  match m s with Done a s' => Q a s' | Failed f => E f end.

Section wp.
Context {S : Type} (E : failure -> Prop).

Lemma wp_ret {A} (a : A) (Q : A -> S -> Prop) s : Q a s -> wp E (mret a) Q s.
Proof. done. Qed.

Lemma wp_bind {A B} (m : comp S A) (f : A -> comp S B) Q s :
  wp E m (fun a s' => wp E (f a) Q s') s -> wp E (m ≫= f) Q s.
Proof. unfold wp, mbind, comp_bind. by destruct (m s). Qed.

Lemma wp_mono {A} (m : comp S A) (Q R : A -> S -> Prop) s :
  (forall a s', Q a s' -> R a s') -> wp E m Q s -> wp E m R s.
Proof. unfold wp. destruct (m s); auto. Qed.

Lemma wp_fail {A} f (Q : A -> S -> Prop) s : E f -> wp E (fail f) Q s.
Proof. done. Qed.

Lemma wp_get {A} (f : S -> A) (Q : A -> S -> Prop) s : Q (f s) s -> wp E (get f) Q s.
Proof. done. Qed.

Lemma wp_modify f (Q : unit -> S -> Prop) s : Q tt (f s) -> wp E (modify f) Q s.
Proof. done. Qed.

Lemma wp_if {A} (b : bool) (m n : comp S A) Q s :
  (b = true -> wp E m Q s) -> (b = false -> wp E n Q s) ->
  wp E (if b then m else n) Q s.
Proof. destruct b; auto. Qed.

Lemma wp_lift {A} w (o : option A) (Q : A -> S -> Prop) s :
  (forall a, o = Some a -> Q a s) -> (o = None -> E (Undefined w)) ->
  wp E (lift w o) Q s.
Proof. destruct o; [intros HQ _; by apply HQ | intros _ HE; by apply HE]. Qed.

Lemma wp_conj {A} (m : comp S A) (Q R : A -> S -> Prop) s :
  wp E m Q s -> wp E m R s -> wp E m (fun a s' => Q a s' /\ R a s') s.
Proof. unfold wp. by destruct (m s). Qed.

(** A loop keeps an invariant that its body keeps. *)
Lemma wp_for_loop {A} n i (body : Z -> A -> comp S A) acc (I : Z -> A -> S -> Prop) s :
  (forall j a s', i <= j < i + Z.of_nat n -> I j a s' ->
     wp E (body j a) (fun a' s'' => I (j + 1) a' s'') s') ->
  I i acc s ->
  wp E (for_loop n i body acc) (fun a s' => I (i + Z.of_nat n) a s') s.
Proof.
  revert i acc s. induction n as [| n IH]; intros i acc s Hb HI; cbn [for_loop].
  - apply wp_ret. by rewrite Z.add_0_r.
  - apply wp_bind. eapply wp_mono; [| apply Hb; [lia | done]].
    intros a s' Ha. cbn beta in Ha.
    eapply wp_mono; [| apply (IH (i + 1)); [intros j b t Hj; apply Hb; lia | done]].
    intros b t. by replace (i + 1 + Z.of_nat n) with (i + Z.of_nat (Datatypes.S n)) by lia.
Qed.
End wp.

(** A computation that leaves the state as it is. *)
Definition pure_comp {S A} (m : comp S A) : Prop :=
  forall s, match m s with Done _ s' => s' = s | Failed _ => True end.

Lemma outcome_done {S A} (m : comp S A) a s s' Q E :
  m s = Done a s' -> wp E m Q s -> Q a s'.
Proof. unfold wp. by intros ->. Qed.

(** One step of a [wp] goal along the structure of the computation. *)
Ltac wp_step :=
  lazymatch goal with
  | |- wp _ (mret _) _ _ => apply wp_ret
  | |- wp _ (_ ≫= _) _ _ => apply wp_bind
  | |- wp _ (get _) _ _ => apply wp_get
  | |- wp _ (modify _) _ _ => apply wp_modify
  | |- wp _ (internal_error _) _ _ => apply wp_fail
  | |- wp _ (fail _) _ _ => apply wp_fail
  | |- wp _ (lift _ _) _ _ => apply wp_lift; [intros ? ? | intros ?]
  | |- wp _ (gcc_assert _ _) _ _ => unfold gcc_assert
  | |- wp _ (if ?b then _ else _) _ _ => first [apply wp_if; intros ? | destruct b eqn:?]
  | |- wp _ (match ?x with _ => _ end) _ _ => destruct x eqn:?
  | |- wp _ (let _ := _ in _) _ _ => cbv zeta
  | |- wp _ ((fun _ => _) _) _ _ => cbv beta
  end; cbv beta.

(** Run a [wp] goal that may fail in any way. *)
Ltac wp_run := repeat (wp_step; try exact I).
