(* ===== verification/ILMeta.v ===== *)
(** * ILMeta: the constants of the metadata format

    The numbers of src/gcc/cil/include/il_meta.h that the code compares with:
    kinds of tokens, element types of signatures, calling conventions, and the
    bits of the attributes of classes, methods and fields. *)
From S2P Require Import Prelude.

(** ** Tokens: the kind is in the upper byte *)

Definition IL_META_TOKEN_BASE_TYPE : Z := 0x72000000.
Definition IL_META_TOKEN_MASK : Z := 0xFF000000.
Definition IL_META_TOKEN_METHOD_DEF : Z := 0x06000000.
Definition IL_META_TOKEN_STAND_ALONE_SIG : Z := 0x11000000.
Definition IL_META_TOKEN_TYPE_DEF : Z := 0x02000000.
Definition IL_META_TOKEN_TYPE_REF : Z := 0x01000000.
Definition IL_META_TOKEN_TYPE_SPEC : Z := 0x1B000000.
Definition IL_META_TOKEN_MODULE : Z := 0x00000000.
Definition IL_META_TOKEN_FIELD_DEF : Z := 0x04000000.
Definition IL_META_TOKEN_PARAM_DEF : Z := 0x08000000.
Definition IL_META_TOKEN_INTERFACE_IMPL : Z := 0x09000000.
Definition IL_META_TOKEN_MEMBER_REF : Z := 0x0A000000.
Definition IL_META_TOKEN_DECL_SECURITY : Z := 0x0E000000.
Definition IL_META_TOKEN_EVENT : Z := 0x14000000.
Definition IL_META_TOKEN_PROPERTY : Z := 0x17000000.
Definition IL_META_TOKEN_MODULE_REF : Z := 0x1A000000.
Definition IL_META_TOKEN_ASSEMBLY : Z := 0x20000000.
Definition IL_META_TOKEN_ASSEMBLY_REF : Z := 0x23000000.
Definition IL_META_TOKEN_FILE : Z := 0x26000000.
Definition IL_META_TOKEN_EXPORTED_TYPE : Z := 0x27000000.
Definition IL_META_TOKEN_MANIFEST_RESOURCE : Z := 0x28000000.
Definition IL_META_TOKEN_NESTED_CLASS : Z := 0x29000000.
Definition IL_META_TOKEN_GENERIC_PAR : Z := 0x2A000000.
Definition IL_META_TOKEN_GENERIC_CONSTRAINT : Z := 0x2C000000.
Definition IL_META_TOKEN_STRING : Z := 0x70000000.
Definition IL_META_SIZE_FLAG_STRREF : Z := 0x01.
Definition IL_META_SIZE_FLAG_GUIDREF : Z := 0x02.
Definition IL_META_SIZE_FLAG_BLOBREF : Z := 0x04.

(** ** Element types *)

Definition IL_META_ELEMTYPE_VOID : Z := 0x01.
Definition IL_META_ELEMTYPE_BOOLEAN : Z := 0x02.
Definition IL_META_ELEMTYPE_CHAR : Z := 0x03.
Definition IL_META_ELEMTYPE_I1 : Z := 0x04.
Definition IL_META_ELEMTYPE_U1 : Z := 0x05.
Definition IL_META_ELEMTYPE_I2 : Z := 0x06.
Definition IL_META_ELEMTYPE_U2 : Z := 0x07.
Definition IL_META_ELEMTYPE_I4 : Z := 0x08.
Definition IL_META_ELEMTYPE_U4 : Z := 0x09.
Definition IL_META_ELEMTYPE_I8 : Z := 0x0A.
Definition IL_META_ELEMTYPE_U8 : Z := 0x0B.
Definition IL_META_ELEMTYPE_R4 : Z := 0x0C.
Definition IL_META_ELEMTYPE_R8 : Z := 0x0D.
Definition IL_META_ELEMTYPE_STRING : Z := 0x0E.
Definition IL_META_ELEMTYPE_PTR : Z := 0x0F.
Definition IL_META_ELEMTYPE_BYREF : Z := 0x10.
Definition IL_META_ELEMTYPE_VALUETYPE : Z := 0x11.
Definition IL_META_ELEMTYPE_CLASS : Z := 0x12.
Definition IL_META_ELEMTYPE_VAR : Z := 0x13.
Definition IL_META_ELEMTYPE_ARRAY : Z := 0x14.
Definition IL_META_ELEMTYPE_WITH : Z := 0x15.
Definition IL_META_ELEMTYPE_TYPEDBYREF : Z := 0x16.
Definition IL_META_ELEMTYPE_I : Z := 0x18.
Definition IL_META_ELEMTYPE_U : Z := 0x19.
Definition IL_META_ELEMTYPE_R : Z := 0x1A.
Definition IL_META_ELEMTYPE_FNPTR : Z := 0x1B.
Definition IL_META_ELEMTYPE_OBJECT : Z := 0x1C.
Definition IL_META_ELEMTYPE_SZARRAY : Z := 0x1D.
Definition IL_META_ELEMTYPE_MVAR : Z := 0x1E.
Definition IL_META_ELEMTYPE_CMOD_REQD : Z := 0x1F.
Definition IL_META_ELEMTYPE_CMOD_OPT : Z := 0x20.
Definition IL_META_ELEMTYPE_SENTINEL : Z := 0x41.
Definition IL_META_ELEMTYPE_PINNED : Z := 0x45.

(** ** Calling conventions and kinds of signatures *)

Definition IL_META_CALLCONV_MASK : Z := 0x0F.
Definition IL_META_CALLCONV_DEFAULT : Z := 0x00.
Definition IL_META_CALLCONV_C : Z := 0x01.
Definition IL_META_CALLCONV_STDCALL : Z := 0x02.
Definition IL_META_CALLCONV_THISCALL : Z := 0x03.
Definition IL_META_CALLCONV_FASTCALL : Z := 0x04.
Definition IL_META_CALLCONV_VARARG : Z := 0x05.
Definition IL_META_CALLCONV_FIELD : Z := 0x06.
Definition IL_META_CALLCONV_LOCAL_SIG : Z := 0x07.
Definition IL_META_CALLCONV_PROPERTY : Z := 0x08.
Definition IL_META_CALLCONV_UNMGD : Z := 0x09.
Definition IL_META_CALLCONV_INSTANTIATION : Z := 0x0A.
Definition IL_META_CALLCONV_GENERIC : Z := 0x10.
Definition IL_META_CALLCONV_HASTHIS : Z := 0x20.
Definition IL_META_CALLCONV_EXPLICITTHIS : Z := 0x40.

(** ** Attributes *)

Definition IL_META_TYPEDEF_VISIBILITY_MASK : Z := 0x7.
Definition IL_META_TYPEDEF_CLASS_SEMANTICS_MASK : Z := 0x60.
Definition IL_META_METHODDEF_MEMBER_ACCESS_MASK : Z := 0x7.
Definition IL_META_METHODDEF_PUBLIC : Z := 0x6.
Definition IL_META_METHODDEF_STATIC : Z := 0x10.
Definition IL_META_METHODDEF_VIRTUAL : Z := 0x40.
Definition IL_META_METHODDEF_NEW_SLOT : Z := 0x100.
Definition IL_META_METHODDEF_RT_SPECIAL_NAME : Z := 0x1000.
Definition IL_META_METHODIMPL_CODE_TYPE_MASK : Z := 0x3.
Definition IL_META_FIELDDEF_STATIC : Z := 0x10.
Definition IL_META_FIELDDEF_RT_SPECIAL_NAME : Z := 0x400.
