(* ===== verification/HashTable.v ===== *)
(** * HashTable: the hash tables of the library

    Models src/gcc/cil/support/hashtab.c: tables of pointers whose entries are linked
    into chains.  The first entry of a chain is in the table itself; the others come from
    blocks of overflow entries that are allocated when they are needed and given
    out one after the other.

    An entry has an address, and the memory maps addresses to entries: the entry
    [hash] of the table has the address [hash], and every block of overflow entries
    has [size] addresses of its own.  Allocation succeeds.  The functions of the client
    that compute hash values, compare and free elements are parameters; freeing an
    element is recorded.  An element is a pointer that is not null. *)
From S2P Require Import Prelude.

Record ILHashEntry := mkHashEntry { elem : option Z; overflow : option Z }.

(** [block] is the block at the head of [hashtab->overflow], [fresh] the next
    address that is free, and [freed] the elements given to [freeFunc]. *)
Record ILHashTable := mkHashTable {
  size : Z;
  block : option Z;
  overflowPosn : Z;
  memory : gmap Z ILHashEntry;
  fresh : Z;
  freed : list Z
}.

Record ILHashIter := mkHashIter { index : Z; entry : option Z }.

Definition set_entry (a : Z) (e : ILHashEntry) (h : ILHashTable) : ILHashTable :=
  mkHashTable (size h) (block h) (overflowPosn h) (<[a := e]> (memory h)) (fresh h) (freed h).
Definition add_freed (e : Z) (h : ILHashTable) : ILHashTable :=
  mkHashTable (size h) (block h) (overflowPosn h) (memory h) (fresh h) (freed h ++ [e]).

Section hashtab.
Context {Key : Type} (computeFunc : Z -> Z) (keyComputeFunc : Key -> Z)
        (matchFunc : Z -> Key -> bool) (freeFunc : bool).

(** All entries are empty. *)
Definition ILHashCreate (n : Z) : ILHashTable :=
  let n := if n =? 0 then 509 else n in
  mkHashTable n None n (list_to_map ((fun hash => (hash, mkHashEntry None None)) <$> seqZ 0 n)) n [].

(** The entry at an address. *)
Definition hash_entry (a : Z) : comp ILHashTable ILHashEntry :=
  h ← get memory; lift "entry" (h !! a).

Definition hash_of (value : Z) : comp ILHashTable Z :=
  n ← get size; mret (value mod n).

(** A new overflow entry: the next of the block, or the first of a new one. *)
Definition new_entry : comp ILHashTable Z :=
  h ← get id;
  if overflowPosn h <? size h then
    match block h with
    | None => fail (Undefined "hashtab->overflow")
    | Some base =>
        _ ← modify (fun h => mkHashTable (size h) (block h) (overflowPosn h + 1) (memory h) (fresh h) (freed h));
        mret (base + overflowPosn h)
    end
  else
    _ ← modify (fun h => mkHashTable (size h) (Some (fresh h)) 1 (memory h) (fresh h + size h) (freed h));
    mret (fresh h).

Definition ILHashAdd (e : Z) : comp ILHashTable bool :=
  hash ← hash_of (computeFunc e);
  first ← hash_entry hash;
  match elem first with
  | None => _ ← modify (set_entry hash (mkHashEntry (Some e) (overflow first))); mret true
  | Some _ =>
      a ← new_entry;
      _ ← modify (set_entry a (mkHashEntry (Some e) (overflow first)));
      _ ← modify (set_entry hash (mkHashEntry (elem first) (Some a)));
      mret true
  end.

(** The number of entries bounds the length of a chain. *)
Definition chain_fuel : comp ILHashTable nat := h ← get memory; mret (Datatypes.S (base.size h)).

(** The loop of [ILHashFindAlt]. *)
Fixpoint find_in_chain (fuel : nat) (match_ : Z -> bool) (entry : option Z) : comp ILHashTable (option Z) :=
  match entry with
  | None => mret None
  | Some a =>
      match fuel with
      | O => fail Out_of_fuel
      | Datatypes.S fuel =>
          x ← hash_entry a;
          match elem x with
          | Some e => if match_ e then mret (Some e) else find_in_chain fuel match_ (overflow x)
          | None => find_in_chain fuel match_ (overflow x)
          end
      end
  end.

Definition ILHashFindAlt {K} (key : K) (keyComputeFunc : K -> Z) (matchFunc : Z -> K -> bool)
    : comp ILHashTable (option Z) :=
  hash ← hash_of (keyComputeFunc key);
  fuel ← chain_fuel;
  find_in_chain fuel (fun e => matchFunc e key) (Some hash).
Definition ILHashFind (key : Key) : comp ILHashTable (option Z) := ILHashFindAlt key keyComputeFunc matchFunc.

Definition free_elem (freeElem : bool) (e : Z) : comp ILHashTable unit :=
  if freeElem && freeFunc then modify (add_freed e) else mret tt.

Fixpoint remove_entry (fuel : nat) (e : Z) (freeElem : bool) (entry : option Z) : comp ILHashTable unit :=
  match entry with
  | None => mret tt
  | Some a =>
      match fuel with
      | O => fail Out_of_fuel
      | Datatypes.S fuel =>
          x ← hash_entry a;
          if bool_decide (elem x = Some e) then
            _ ← free_elem freeElem e;
            modify (set_entry a (mkHashEntry None (overflow x)))
          else remove_entry fuel e freeElem (overflow x)
      end
  end.

Definition ILHashRemove (e : Z) (freeElem : bool) : comp ILHashTable unit :=
  hash ← hash_of (computeFunc e);
  fuel ← chain_fuel;
  remove_entry fuel e freeElem (Some hash).

(** The elements of a chain that match, and of all chains. *)
Fixpoint remove_matching (fuel : nat) (match_ : Z -> bool) (freeElem : bool) (entry : option Z)
    : comp ILHashTable unit :=
  match entry with
  | None => mret tt
  | Some a =>
      match fuel with
      | O => fail Out_of_fuel
      | Datatypes.S fuel =>
          x ← hash_entry a;
          _ ← (match elem x with
               | Some e =>
                   if match_ e then
                     _ ← free_elem freeElem e;
                     modify (set_entry a (mkHashEntry None (overflow x)))
                   else mret tt
               | None => mret tt
               end);
          remove_matching fuel match_ freeElem (overflow x)
      end
  end.
Fixpoint remove_chains (n : nat) (hash : Z) (match_ : Z -> bool) (freeElem : bool) : comp ILHashTable unit :=
  match n with
  | O => mret tt
  | Datatypes.S n =>
      fuel ← chain_fuel;
      _ ← remove_matching fuel match_ freeElem (Some hash);
      remove_chains n (hash + 1) match_ freeElem
  end.
Definition ILHashRemoveSubset {K} (matchFunc : Z -> K -> bool) (key : K) (freeElem : bool)
    : comp ILHashTable unit :=
  n ← get size;
  remove_chains (Z.to_nat n) 0 (fun e => matchFunc e key) freeElem.

(** The elements that are freed with the table. *)
Fixpoint destroy_chain (fuel : nat) (entry : option Z) : comp ILHashTable unit :=
  match entry with
  | None => mret tt
  | Some a =>
      match fuel with
      | O => fail Out_of_fuel
      | Datatypes.S fuel =>
          x ← hash_entry a;
          _ ← (match elem x with Some e => modify (add_freed e) | None => mret tt end);
          destroy_chain fuel (overflow x)
      end
  end.
Fixpoint destroy_chains (n : nat) (hash : Z) : comp ILHashTable unit :=
  match n with
  | O => mret tt
  | Datatypes.S n => fuel ← chain_fuel; _ ← destroy_chain fuel (Some hash); destroy_chains n (hash + 1)
  end.

(** The table and all blocks are given back. *)
Definition release (h : ILHashTable) : ILHashTable :=
  mkHashTable (size h) None (overflowPosn h) ∅ (fresh h) (freed h).
Definition ILHashDestroy : comp ILHashTable unit :=
  _ ← (if freeFunc then n ← get size; destroy_chains (Z.to_nat n) 0 else mret tt);
  modify release.

(** ** Iteration *)

Definition ILHashIterInit : ILHashIter := mkHashIter (-1) None.

(** Past the empty entries of a chain. *)
Fixpoint skip_empty (fuel : nat) (entry : option Z) : comp ILHashTable (option Z) :=
  match entry with
  | None => mret None
  | Some a =>
      match fuel with
      | O => fail Out_of_fuel
      | Datatypes.S fuel =>
          x ← hash_entry a;
          match elem x with
          | Some _ => mret (Some a)
          | None => skip_empty fuel (overflow x)
          end
      end
  end.
Fixpoint iter_next (turns : nat) (iter : ILHashIter) : comp ILHashTable (option Z * ILHashIter) :=
  match turns with
  | O => fail Out_of_fuel
  | Datatypes.S turns =>
      n ← get size;
      let start := match entry iter with None => true | Some _ => false end in
      let index := if start then index iter + 1 else index iter in
      if start && (n <=? index) then mret (None, mkHashIter index None)
      else
        fuel ← chain_fuel;
        e ← skip_empty fuel (if start then Some index else entry iter);
        match e with
        | None => iter_next turns (mkHashIter index None)
        | Some a => x ← hash_entry a; mret (elem x, mkHashIter index (overflow x))
        end
  end.
Definition ILHashIterNext (iter : ILHashIter) : comp ILHashTable (option Z * ILHashIter) :=
  n ← get size; iter_next (Datatypes.S (Datatypes.S (Z.to_nat n))) iter.

(** All elements, as a client's loop gets them. *)
Fixpoint iterate (fuel : nat) (iter : ILHashIter) : comp ILHashTable (list Z) :=
  match fuel with
  | O => fail Out_of_fuel
  | Datatypes.S fuel =>
      '(e, iter) ← ILHashIterNext iter;
      match e with
      | None => mret []
      | Some e => rest ← iterate fuel iter; mret (e :: rest)
      end
  end.
End hashtab.
