(* ===== verification/HashTableCorrect.v ===== *)
(** * HashTableCorrect: a hash table is a multiset of elements

    The refinement of HashTable: any sequence of operations on a table does what it
    does on the multiset of the elements in it. *)
From S2P Require Import Prelude.
From stdpp Require Import gmultiset list.
From S2P Require Import HashTable.
#[local] Open Scope Z_scope.

(** ** Chains *)

(** The entries of a chain with their addresses. *)
Fixpoint chain (m : gmap Z ILHashEntry) (start : option Z) (l : list (Z * option Z)) : Prop :=
  match l with
  | [] => start = None
  | (a, e) :: l => start = Some a /\ exists next, m !! a = Some (mkHashEntry e next) /\ chain m next l
  end.

(** The elements of a chain. *)
Definition elems (l : list (Z * option Z)) : list Z := omap snd l.

Lemma chain_insert m a x start l : a ∉ l.*1 -> chain m start l -> chain (<[a := x]> m) start l.
Proof.
  revert start. induction l as [| [b e] l IH]; intros start Ha Hl; [done |].
  cbn in Ha. apply not_elem_of_cons in Ha as [Hab Ha]. destruct Hl as (-> & next & Hb & Hl).
  split; [done |]. exists next. rewrite lookup_insert_ne by done. auto.
Qed.

Lemma chain_agree m m' start l : chain m start l -> (forall a, a ∈ l.*1 -> m' !! a = m !! a) -> chain m' start l.
Proof.
  revert start. induction l as [| [a e] l IH]; intros start Hl Hm; [done |].
  destruct Hl as (-> & next & Ha & Hl). split; [done |]. exists next. rewrite Hm by by left. split; [done |].
  apply IH; [done |]. intros b Hb. apply Hm. by right.
Qed.

(** The element of one entry is changed. *)
Lemma chain_set m a e e' next start l1 l2 :
  NoDup (l1 ++ (a, e) :: l2).*1 -> m !! a = Some (mkHashEntry e next) -> chain m start (l1 ++ (a, e) :: l2) ->
  chain (<[a := mkHashEntry e' next]> m) start (l1 ++ (a, e') :: l2).
Proof.
  revert start. induction l1 as [| [b f] l1 IH]; intros start Hnd Ha Hl; cbn [app chain fmap list_fmap fst] in *.
  - destruct Hl as (-> & n & Ha' & Hl). rewrite Ha in Ha'. injection Ha' as <-. split; [done |].
    exists next. rewrite lookup_insert_eq. split; [done |]. apply NoDup_cons in Hnd as [Hnd _].
    by apply chain_insert.
  - destruct Hl as (-> & n & Hb & Hl). apply NoDup_cons in Hnd as [Hbn Hnd]. split; [done |].
    exists n. rewrite lookup_insert_ne by (intros <-; apply Hbn; rewrite fmap_app; apply elem_of_app; right; by left).
    split; [done |]. by apply IH.
Qed.

(** A new entry behind the first. *)
Lemma chain_push m a e next new x l :
  new ∉ ((a, e) :: l).*1 -> NoDup ((a, e) :: l).*1 -> m !! a = Some (mkHashEntry e next) -> chain m (Some a) ((a, e) :: l) ->
  chain (<[a := mkHashEntry e (Some new)]> (<[new := mkHashEntry x next]> m)) (Some a) ((a, e) :: (new, x) :: l).
Proof.
  intros Hnew Hnd Ha (_ & n & Ha' & Hl). rewrite Ha in Ha'. injection Ha' as <-.
  cbn in Hnew. apply not_elem_of_cons in Hnew as [Hna Hnl]. apply NoDup_cons in Hnd as [Hal _].
  split; [done |]. exists (Some new). rewrite lookup_insert_eq. split; [done |].
  split; [done |]. exists next. rewrite lookup_insert_ne, lookup_insert_eq by done. split; [done |].
  by apply chain_insert, chain_insert.
Qed.

Lemma chain_dom m start l a : chain m start l -> a ∈ l.*1 -> is_Some (m !! a).
Proof.
  revert start. induction l as [| [b e] l IH]; intros start Hl Ha; [by apply not_elem_of_nil in Ha |].
  destruct Hl as (_ & next & Hb & Hl). cbn in Ha. apply elem_of_cons in Ha as [-> | Ha]; [by rewrite Hb | by eapply IH].
Qed.

(** A chain has no more entries than the memory. *)
Lemma chain_length m start l : NoDup l.*1 -> chain m start l -> (length l <= base.size m)%nat.
Proof.
  intros Hnd Hl. rewrite <- size_dom. rewrite <- (length_fmap fst), <- (size_list_to_set (C := gset Z)) by done.
  apply subseteq_size. intros a Ha. apply elem_of_list_to_set in Ha. apply elem_of_dom. by eapply chain_dom.
Qed.

Lemma elems_app l1 l2 : elems (l1 ++ l2) = elems l1 ++ elems l2.
Proof. apply omap_app. Qed.

Lemma elems_cons a e l : elems ((a, Some e) :: l) = e :: elems l.
Proof. done. Qed.
Lemma elems_skip a l : elems ((a, None) :: l) = elems l.
Proof. done. Qed.

(** ** The loops over one chain *)

Section loops.
Context (freeFunc : bool).

Lemma hash_entry_run a x h : memory h !! a = Some x -> hash_entry a h = Done x h.
Proof.
  intros Ha. unfold hash_entry. rewrite (bind_done (get memory) _ h (memory h) h eq_refl). by rewrite Ha.
Qed.

Lemma find_in_chain_run p l fuel start h :
  chain (memory h) start l -> (length l <= fuel)%nat ->
  find_in_chain fuel p start h = Done (head (List.filter p (elems l))) h.
Proof.
  revert fuel start. induction l as [| [a e] l IH]; intros fuel start Hl Hf.
  { cbn in Hl. subst start. by destruct fuel. }
  destruct Hl as (-> & next & Ha & Hl). cbn in Hf. destruct fuel as [| fuel]; [lia |].
  cbn [find_in_chain]. rewrite (bind_done _ _ _ _ _ (hash_entry_run _ _ _ Ha)). cbn [elem overflow].
  unfold elems. cbn [omap list_omap snd]. destruct e as [e |]; [| by apply IH; [| lia]].
  cbn [List.filter]. destruct (p e); [done |]. by apply IH; [| lia].
Qed.

(** What freeing does to the table. *)
Definition freed_with (freeElem : bool) (l : list Z) (h : ILHashTable) : ILHashTable :=
  if freeElem && freeFunc
  then mkHashTable (size h) (block h) (overflowPosn h) (memory h) (fresh h) (freed h ++ l) else h.

Definition with_memory (m : gmap Z ILHashEntry) (h : ILHashTable) : ILHashTable :=
  mkHashTable (size h) (block h) (overflowPosn h) m (fresh h) (freed h).

Lemma free_elem_run b e h : free_elem freeFunc b e h = Done tt (freed_with b [e] h).
Proof. unfold free_elem, freed_with. by destruct (b && freeFunc). Qed.

Lemma freed_with_memory b l h : memory (freed_with b l h) = memory h.
Proof. unfold freed_with. by destruct (b && freeFunc). Qed.

(** The first entry of the element is emptied. *)
Lemma remove_entry_run e b l fuel start h :
  NoDup l.*1 -> chain (memory h) start l -> (length l <= fuel)%nat ->
  ((e ∉ elems l) /\ remove_entry freeFunc fuel e b start h = Done tt h) \/
  exists l1 a l2 next, l = l1 ++ (a, Some e) :: l2 /\ (e ∉ elems l1) /\ memory h !! a = Some (mkHashEntry (Some e) next) /\
    remove_entry freeFunc fuel e b start h
    = Done tt (with_memory (<[a := mkHashEntry None next]> (memory h)) (freed_with b [e] h)).
Proof.
  revert fuel start. induction l as [| [a x] l IH]; intros fuel start Hnd Hl Hf.
  { cbn in Hl. subst start. left. split; [apply not_elem_of_nil | by destruct fuel]. }
  destruct Hl as (-> & next & Ha & Hl). cbn in Hf, Hnd. apply NoDup_cons in Hnd as [Hal Hnd].
  destruct fuel as [| fuel]; [lia |].
  cbn [remove_entry]. rewrite (bind_done _ _ _ _ _ (hash_entry_run _ _ _ Ha)). cbn [elem overflow].
  case_bool_decide as Hx.
  - right. exists [], a, l, next. subst x. split; [done |]. split; [apply not_elem_of_nil |]. split; [done |].
    rewrite (bind_done _ _ _ _ _ (free_elem_run _ _ _)). unfold modify, set_entry, with_memory.
    by rewrite freed_with_memory.
  - assert (forall l', e ∉ elems l' -> e ∉ elems ((a, x) :: l')) as Hskip.
    { intros l' Hl'. unfold elems in *. cbn [omap list_omap snd]. destruct x as [y |]; [| done].
      apply not_elem_of_cons. split; [congruence | done]. }
    destruct (IH fuel next Hnd Hl ltac:(lia)) as [[He ->] | (l1 & a' & l2 & next' & -> & He & Ha' & ->)].
    + left. split; [by apply Hskip | done].
    + right. exists ((a, x) :: l1), a', l2, next'. split; [done |]. split; [by apply Hskip | done].
Qed.

Lemma freed_with_cons b e l m h :
  freed_with b l (with_memory m (freed_with b [e] h)) = with_memory m (freed_with b (e :: l) h).
Proof. unfold freed_with, with_memory. destruct (b && freeFunc); cbn; [by rewrite <- app_assoc | done]. Qed.
Lemma with_memory_twice m m' h : with_memory m (with_memory m' h) = with_memory m h.
Proof. done. Qed.
Lemma freed_with_nil b h : freed_with b [] h = h.
Proof. unfold freed_with. destruct (b && freeFunc); [| done]. destruct h. cbn. by rewrite app_nil_r. Qed.
Lemma with_memory_same h : with_memory (memory h) h = h.
Proof. by destruct h. Qed.
Lemma freed_with_memory_swap b l m h : freed_with b l (with_memory m h) = with_memory m (freed_with b l h).
Proof. unfold freed_with, with_memory. by destruct (b && freeFunc). Qed.

(** The matching elements of a chain are taken out of their entries. *)
Definition clear (p : Z -> bool) (l : list (Z * option Z)) : list (Z * option Z) :=
  (fun x => (x.1, match x.2 with Some e => if p e then None else Some e | None => None end)) <$> l.

Lemma clear_addresses p l : (clear p l).*1 = l.*1.
Proof. unfold clear. rewrite <- list_fmap_compose. by apply list_fmap_ext. Qed.
Lemma clear_elems p l : elems (clear p l) = List.filter (fun e => negb (p e)) (elems l).
Proof.
  induction l as [| [a [e |]] l IH]; [done | |]; unfold elems, clear in *; cbn [fmap list_fmap omap list_omap fst snd List.filter] in *.
  - destruct (p e); cbn [negb]; [done | by rewrite <- IH].
  - done.
Qed.

Lemma remove_matching_run p b l fuel start h :
  NoDup l.*1 -> chain (memory h) start l -> (length l <= fuel)%nat ->
  exists m, remove_matching freeFunc fuel p b start h
              = Done tt (with_memory m (freed_with b (List.filter p (elems l)) h)) /\
    chain m start (clear p l) /\ dom m = dom (memory h) /\ (forall a, a ∉ l.*1 -> m !! a = memory h !! a).
Proof.
  revert fuel start h. induction l as [| [a e] l IH]; intros fuel start h Hnd Hl Hf.
  { cbn in Hl. subst start. exists (memory h). split; [| done].
    cbn [elems omap list_omap List.filter]. rewrite freed_with_nil, with_memory_same. by destruct fuel. }
  destruct Hl as (-> & next & Ha & Hl). cbn in Hf, Hnd. apply NoDup_cons in Hnd as [Hal Hnd].
  destruct fuel as [| fuel]; [lia |].
  cbn [remove_matching]. rewrite (bind_done _ _ _ _ _ (hash_entry_run _ _ _ Ha)). cbn [elem overflow].
  set (hit := match e with Some x => p x | None => false end).
  set (m1 := if hit then <[a := mkHashEntry None next]> (memory h) else memory h).
  set (h1 := with_memory m1 (freed_with b (if hit then omap Some (option_list e) else []) h)).
  assert (match e with
          | Some x => if p x then _ ← free_elem freeFunc b x; modify (set_entry a (mkHashEntry None next)) else mret tt
          | None => mret tt
          end h = Done tt h1) as E1.
  { subst h1 m1 hit. destruct e as [x |].
    - destruct (p x); cbn [option_list omap list_omap].
      + rewrite (bind_done _ _ _ _ _ (free_elem_run _ _ _)). unfold modify, set_entry, with_memory.
        by rewrite freed_with_memory.
      + by rewrite freed_with_nil, with_memory_same.
    - by rewrite freed_with_nil, with_memory_same. }
  rewrite (bind_done _ _ _ _ _ E1).
  destruct (IH fuel next h1 Hnd) as (m & Em & Hm & Hdom & Hother); [| lia |].
  { subst h1 m1. cbn [memory with_memory]. destruct hit; [by apply chain_insert | done]. }
  exists m. cbn [memory with_memory h1] in Hdom, Hother. split; [| split; [| split]].
  - rewrite Em. f_equal. subst h1 hit. rewrite freed_with_memory_swap, with_memory_twice.
    unfold elems. cbn [omap list_omap snd]. destruct e as [x |]; [| by rewrite freed_with_nil].
    cbn [List.filter option_list omap list_omap]. destruct (p x); [| by rewrite freed_with_nil].
    rewrite <- (freed_with_cons b x _ m h), freed_with_memory_swap. done.
  - cbn [clear fmap list_fmap chain fst snd]. split; [done |]. exists next. split; [| exact Hm].
    rewrite Hother by done. subst m1 hit. destruct e as [x |]; [| done].
    destruct (p x); [by rewrite lookup_insert_eq | done].
  - rewrite Hdom. subst m1. destruct hit; [| done]. apply dom_insert_lookup_L. by rewrite Ha.
  - intros a' Ha'. cbn in Ha'. apply not_elem_of_cons in Ha' as [Hne Ha']. rewrite Hother by done.
    subst m1. destruct hit; [by rewrite lookup_insert_ne | done].
Qed.

Lemma destroy_chain_run l fuel start h :
  chain (memory h) start l -> (length l <= fuel)%nat ->
  destroy_chain fuel start h
  = Done tt (mkHashTable (size h) (block h) (overflowPosn h) (memory h) (fresh h) (freed h ++ elems l)).
Proof.
  revert fuel start h. induction l as [| [a e] l IH]; intros fuel start h Hl Hf.
  { cbn in Hl. subst start. cbn. rewrite app_nil_r. destruct h; by destruct fuel. }
  destruct Hl as (-> & next & Ha & Hl). cbn in Hf. destruct fuel as [| fuel]; [lia |].
  cbn [destroy_chain]. rewrite (bind_done _ _ _ _ _ (hash_entry_run _ _ _ Ha)). cbn [elem overflow].
  unfold elems. cbn [omap list_omap snd]. destruct e as [e |].
  - unfold modify at 1. rewrite (bind_done _ _ _ tt (add_freed e h)) by done.
    rewrite (IH fuel next (add_freed e h)) by (done || lia). cbn. by rewrite <- app_assoc.
  - rewrite (bind_done _ _ _ tt h) by done. by apply IH; [| lia].
Qed.

(** To the first element of a chain. *)
Lemma skip_empty_run l fuel start h :
  chain (memory h) start l -> (length l <= fuel)%nat ->
  (elems l = [] /\ skip_empty fuel start h = Done None h) \/
  exists a e next l2, elems l = e :: elems l2 /\ memory h !! a = Some (mkHashEntry (Some e) next) /\
    chain (memory h) next l2 /\ (length l2 < length l)%nat /\ skip_empty fuel start h = Done (Some a) h.
Proof.
  revert fuel start. induction l as [| [a e] l IH]; intros fuel start Hl Hf.
  { cbn in Hl. subst start. left. by destruct fuel. }
  destruct Hl as (-> & next & Ha & Hl). cbn in Hf. destruct fuel as [| fuel]; [lia |].
  cbn [skip_empty]. rewrite (bind_done _ _ _ _ _ (hash_entry_run _ _ _ Ha)). cbn [elem overflow].
  unfold elems in *. cbn [omap list_omap snd length]. destruct e as [e |].
  - right. exists a, e, next, l. split_and!; (done || lia).
  - destruct (IH fuel next Hl ltac:(lia)) as [[He ->] | (a' & e' & next' & l2 & He & Ha' & Hl2 & Hlen & ->)]; [by left |].
    right. exists a', e', next', l2. split_and!; (done || lia).
Qed.
End loops.

(** ** The table *)

Section table.
Context (computeFunc : Z -> Z) (freeFunc : bool).

(** The chains of a table. *)
Record hash_ok (h : ILHashTable) (ch : Z -> list (Z * option Z)) : Prop := {
  ok_size : 0 < size h;
  ok_chain : forall i, 0 <= i < size h -> chain (memory h) (Some i) (ch i);
  ok_nodup : forall i, 0 <= i < size h -> NoDup (ch i).*1;
  ok_disjoint : forall i j a, 0 <= i < size h -> 0 <= j < size h -> a ∈ (ch i).*1 -> a ∈ (ch j).*1 -> i = j;
  ok_hash : forall i e, 0 <= i < size h -> e ∈ elems (ch i) -> computeFunc e mod size h = i;
  ok_fresh : size h <= fresh h /\ forall i a, 0 <= i < size h -> a ∈ (ch i).*1 -> a < fresh h;
  ok_block : overflowPosn h < size h -> exists base,
    block h = Some base /\ base + size h <= fresh h /\ 0 <= overflowPosn h /\
    forall i a, 0 <= i < size h -> a ∈ (ch i).*1 -> a < base + overflowPosn h
}.

Definition upd {A} (ch : Z -> A) (i : Z) (l : A) : Z -> A := fun j => if j =? i then l else ch j.
Lemma upd_eq {A} (ch : Z -> A) i l : upd ch i l i = l.
Proof. unfold upd. by rewrite Z.eqb_refl. Qed.
Lemma upd_ne {A} (ch : Z -> A) i j l : j <> i -> upd ch i l j = ch j.
Proof. intros. unfold upd. by rewrite (proj2 (Z.eqb_neq _ _)). Qed.

(** The elements from chain [k] on, and all of them. *)
Fixpoint contents_from (ch : Z -> list (Z * option Z)) (k : Z) (n : nat) : list Z :=
  match n with O => [] | Datatypes.S n => elems (ch k) ++ contents_from ch (k + 1) n end.
Definition contents (h : ILHashTable) (ch : Z -> list (Z * option Z)) : list Z :=
  contents_from ch 0 (Z.to_nat (size h)).
Definition bag (l : list Z) : gmultiset Z := list_to_set_disj l.

Lemma bag_app l1 l2 : bag (l1 ++ l2) = bag l1 ⊎ bag l2.
Proof. apply list_to_set_disj_app. Qed.
Lemma bag_cons x l : bag (x :: l) = {[+ x +]} ⊎ bag l.
Proof. done. Qed.
Lemma elem_of_bag x l : x ∈ bag l <-> x ∈ l.
Proof. apply elem_of_list_to_set_disj. Qed.

Lemma elem_of_contents_from ch k n e :
  e ∈ contents_from ch k n <-> exists i, k <= i < k + Z.of_nat n /\ e ∈ elems (ch i).
Proof.
  revert k. induction n as [| n IH]; intros k; cbn [contents_from].
  { split; [intros H; by apply not_elem_of_nil in H | intros (i & Hi & _); lia]. }
  rewrite elem_of_app, IH. split.
  - intros [He | (i & Hi & He)]; [exists k | exists i]; (split; [lia | done]).
  - intros (i & Hi & He). destruct (decide (i = k)) as [-> |]; [by left |]. right. exists i. split; [lia | done].
Qed.

Lemma elem_of_contents h ch e :
  0 < size h -> e ∈ contents h ch <-> exists i, 0 <= i < size h /\ e ∈ elems (ch i).
Proof.
  intros Hs. unfold contents. rewrite elem_of_contents_from.
  replace (0 + Z.of_nat (Z.to_nat (size h))) with (size h) by lia. done.
Qed.

(** One chain is changed. *)
Lemma bag_update ch i l k n :
  k <= i < k + Z.of_nat n ->
  bag (contents_from (upd ch i l) k n) ⊎ bag (elems (ch i)) = bag (contents_from ch k n) ⊎ bag (elems l).
Proof.
  revert k. induction n as [| n IH]; intros k Hk; [lia |]. cbn [contents_from]. rewrite !bag_app.
  destruct (decide (k = i)) as [-> |].
  - rewrite upd_eq. assert (contents_from (upd ch i l) (i + 1) n = contents_from ch (i + 1) n) as ->.
    { assert (forall k, i < k -> contents_from (upd ch i l) k n = contents_from ch k n) as Hsame; [| apply Hsame; lia].
      clear. induction n as [| n IH]; intros k Hk; [done |]. cbn. rewrite upd_ne by lia. f_equal. apply IH. lia. }
    multiset_solver.
  - rewrite upd_ne by done. specialize (IH (k + 1) ltac:(lia)). multiset_solver.
Qed.

Lemma contents_update h h' ch i l :
  size h' = size h -> 0 <= i < size h ->
  bag (contents h' (upd ch i l)) ⊎ bag (elems (ch i)) = bag (contents h ch) ⊎ bag (elems l).
Proof. intros Hs Hi. unfold contents. rewrite Hs. apply bag_update. lia. Qed.

(** A chain starts in the table. *)
Lemma chain_head m i l : chain m (Some i) l -> exists e l', l = (i, e) :: l'.
Proof. destruct l as [| [a e] l']; [done |]. intros ([= <-] & _). eauto. Qed.

Lemma table_update h h' ch i l :
  hash_ok h ch -> 0 <= i < size h -> size h' = size h ->
  chain (memory h') (Some i) l -> NoDup l.*1 ->
  (forall a, a ∈ l.*1 -> a ∈ (ch i).*1 \/ forall j, 0 <= j < size h -> a ∉ (ch j).*1) ->
  (forall j, 0 <= j < size h -> j <> i -> chain (memory h') (Some j) (ch j)) ->
  (forall e, e ∈ elems l -> computeFunc e mod size h = i) ->
  fresh h <= fresh h' -> (forall a, a ∈ l.*1 -> a < fresh h') ->
  (overflowPosn h' < size h -> exists base,
    block h' = Some base /\ base + size h <= fresh h' /\ 0 <= overflowPosn h' /\
    (forall j a, 0 <= j < size h -> a ∈ (ch j).*1 -> a < base + overflowPosn h') /\
    (forall a, a ∈ l.*1 -> a < base + overflowPosn h')) ->
  hash_ok h' (upd ch i l).
Proof.
  intros [Hs Hc Hnd Hdis Hh [Hfs Hf] Hb] Hi Es Hl Hndl Hal Hother Hhl Hff Hfl Hbl.
  assert (forall j a, 0 <= j < size h -> j <> i -> a ∈ (ch j).*1 -> a ∉ l.*1) as Hsep.
  { intros j a Hj Hne Ha Hal'. destruct (Hal a Hal') as [Hai | Hnone]; [| by apply (Hnone j)].
    apply Hne. by apply (Hdis j i a). }
  constructor; rewrite ?Es; [done | | | | | |].
  - intros j Hj. destruct (decide (j = i)) as [-> |]; [by rewrite upd_eq | rewrite upd_ne by done; auto].
  - intros j Hj. destruct (decide (j = i)) as [-> |]; [by rewrite upd_eq | rewrite upd_ne by done; auto].
  - intros j k a Hj Hk. destruct (decide (j = i)) as [-> | Hji], (decide (k = i)) as [-> | Hki];
      rewrite ?upd_eq, ?upd_ne by done; [done | | | by apply Hdis].
    + intros Ha1 Ha2. exfalso. by apply (Hsep k a).
    + intros Ha1 Ha2. exfalso. by apply (Hsep j a).
  - intros j e Hj. destruct (decide (j = i)) as [-> |]; [rewrite upd_eq; auto | rewrite upd_ne by done; auto].
  - split; [lia |]. intros j a Hj. destruct (decide (j = i)) as [-> |]; [rewrite upd_eq; auto |].
    rewrite upd_ne by done. intros Ha. specialize (Hf j a Hj Ha). lia.
  - intros Hp. destruct (Hbl Hp) as (base & E & Hbase & H0 & Hj & Hlb). exists base. split; [done |]. split; [done |].
    split; [done |]. intros j a Hjr. destruct (decide (j = i)) as [-> |]; [rewrite upd_eq; auto | rewrite upd_ne by done; eauto].
Qed.

(** ** The operations *)

Lemma hash_of_run v h : hash_of v h = Done (v mod size h) h.
Proof. done. Qed.
Lemma chain_fuel_run h : chain_fuel h = Done (Datatypes.S (base.size (memory h))) h.
Proof. done. Qed.

Lemma find_alt_run {K} (key : K) compute match_ h ch :
  hash_ok h ch ->
  ILHashFindAlt key compute match_ h
  = Done (head (List.filter (fun e => match_ e key) (elems (ch (compute key mod size h))))) h.
Proof.
  intros [Hs Hc Hnd _ _ _ _]. unfold ILHashFindAlt.
  rewrite (bind_done _ _ _ _ _ (hash_of_run _ _)), (bind_done _ _ _ _ _ (chain_fuel_run _)).
  assert (0 <= compute key mod size h < size h) as Hr by (apply Z.mod_pos_bound; lia).
  apply find_in_chain_run; [by apply Hc |]. pose proof (chain_length _ _ _ (Hnd _ Hr) (Hc _ Hr)). lia.
Qed.

(** An element that matches, and none only if none matches. *)
Definition found_in {K} (match_ : Z -> K -> bool) (key : K) (M : gmultiset Z) (r : option Z) : Prop :=
  match r with
  | Some e => e ∈ M /\ match_ e key = true
  | None => forall e, e ∈ M -> match_ e key = false
  end.

Lemma find_correct {K} (key : K) compute match_ h ch :
  hash_ok h ch -> (forall e, match_ e key = true -> computeFunc e = compute key) ->
  exists r, ILHashFindAlt key compute match_ h = Done r h /\ found_in match_ key (bag (contents h ch)) r.
Proof.
  intros Hok Hcompat. rewrite (find_alt_run key compute match_ h ch Hok). eexists. split; [done |].
  pose proof (ok_size _ _ Hok) as Hs.
  set (i := compute key mod size h). assert (0 <= i < size h) as Hi by (apply Z.mod_pos_bound; lia).
  destruct (List.filter _ (elems (ch i))) as [| e l] eqn:El; cbn [head hd_error found_in].
  - intros e He. apply elem_of_bag, elem_of_contents in He as (j & Hj & He); [| done].
    destruct (match_ e key) eqn:Em; [| done]. exfalso.
    pose proof (ok_hash _ _ Hok j e Hj He) as Hh. rewrite (Hcompat e Em) in Hh. fold i in Hh. subst j.
    assert (In e (List.filter (fun e => match_ e key) (elems (ch i)))) as Hin
      by (apply filter_In; split; [by apply list_elem_of_In | done]). by rewrite El in Hin.
  - assert (In e (List.filter (fun e => match_ e key) (elems (ch i)))) as Hin by (rewrite El; by left).
    apply filter_In in Hin as [Hin Hm]. split; [| done].
    apply elem_of_bag, elem_of_contents; [done |]. exists i. split; [done | by apply list_elem_of_In].
Qed.

(** A new table has an empty entry for every hash value. *)
Lemma create_ok n :
  0 <= n -> hash_ok (ILHashCreate n) (fun i => [(i, None)]) /\
  bag (contents (ILHashCreate n) (fun i => [(i, None)])) = ∅ /\ freed (ILHashCreate n) = [].
Proof.
  intros Hn. unfold ILHashCreate. set (s := if n =? 0 then 509 else n).
  assert (0 < s) as Hs by (subst s; destruct (Z.eqb_spec n 0); lia).
  split; [constructor; cbn [size memory fresh block overflowPosn] | split; [| done]].
  - done.
  - intros i Hi. split; [done |]. exists None. split; [| done]. apply elem_of_list_to_map_1.
    + rewrite <- list_fmap_compose. change (NoDup ((fun x => x) <$> seqZ 0 s)). rewrite list_fmap_id. apply NoDup_seqZ.
    + apply list_elem_of_fmap. exists i. split; [done |]. apply elem_of_seqZ. lia.
  - intros i Hi. apply NoDup_singleton.
  - intros i j a Hi Hj. cbn. rewrite !list_elem_of_singleton. by intros -> ->.
  - intros i e Hi He. by apply not_elem_of_nil in He.
  - split; [done |]. intros i a Hi. cbn. rewrite list_elem_of_singleton. by intros ->; lia.
  - lia.
  - assert (forall k m, contents_from (fun i => [(i, None)]) k m = []) as E; [| unfold contents; by rewrite E].
    intros k m. revert k. induction m as [| m IH]; intros k; [done |]. cbn. by rewrite IH.
Qed.

(** The table around one chain of a state that keeps the other chains. *)
Lemma table_replace h ch i l m F :
  hash_ok h ch -> 0 <= i < size h -> l.*1 = (ch i).*1 -> chain m (Some i) l ->
  (forall a, a ∉ (ch i).*1 -> m !! a = memory h !! a) ->
  (forall e, e ∈ elems l -> computeFunc e mod size h = i) ->
  hash_ok (mkHashTable (size h) (block h) (overflowPosn h) m (fresh h) F) (upd ch i l).
Proof.
  intros Hok Hi Ha Hl Hm He. pose proof Hok as [Hs Hc Hnd Hdis Hh [Hfs Hf] Hb].
  apply (table_update h); [done | done | done | done | rewrite Ha; auto | | | | cbn; lia | |]; cbn [memory fresh block overflowPosn].
  - intros a Hal. left. by rewrite <- Ha.
  - intros j Hj Hne. apply chain_agree with (memory h); [auto |]. intros a Haj. apply Hm. intros Hai.
    apply Hne. by apply (Hdis j i a).
  - done.
  - rewrite Ha. eauto.
  - intros Hp. destruct (Hb Hp) as (base & E & Hbase & H0 & Hj). exists base. split_and!; [done | done | done | done |].
    rewrite Ha. eauto.
Qed.

(** What is freed when elements are taken out. *)
Definition freeing (b : bool) (l : list Z) : list Z := if b && freeFunc then l else [].

Lemma freed_with_eq b l h :
  freed_with freeFunc b l h
  = mkHashTable (size h) (block h) (overflowPosn h) (memory h) (fresh h) (freed h ++ freeing b l).
Proof. unfold freed_with, freeing. destruct (b && freeFunc); [done |]. destruct h. cbn. by rewrite app_nil_r. Qed.

Lemma fuel_enough h ch i :
  hash_ok h ch -> 0 <= i < size h -> (length (ch i) <= Datatypes.S (base.size (memory h)))%nat.
Proof.
  intros Hok Hi. pose proof (chain_length _ _ _ (ok_nodup _ _ Hok i Hi) (ok_chain _ _ Hok i Hi)). lia.
Qed.

Lemma hash_range h ch v : hash_ok h ch -> 0 <= v mod size h < size h.
Proof. intros Hok. apply Z.mod_pos_bound, (ok_size _ _ Hok). Qed.

(** One occurrence of the element goes, if there is one. *)
Lemma remove_ok e b h ch :
  hash_ok h ch -> exists h' ch', ILHashRemove computeFunc freeFunc e b h = Done tt h' /\ hash_ok h' ch' /\
    bag (contents h' ch') = bag (contents h ch) ∖ {[+ e +]} /\
    freed h' = freed h ++ freeing b (if decide (e ∈ bag (contents h ch)) then [e] else []).
Proof.
  intros Hok. pose proof (ok_size _ _ Hok) as Hs. set (i := computeFunc e mod size h).
  pose proof (hash_range h ch (computeFunc e) Hok) as Hi. fold i in Hi.
  assert (e ∈ bag (contents h ch) <-> e ∈ elems (ch i)) as Hin.
  { rewrite elem_of_bag, elem_of_contents by done. split; [| eauto]. intros (j & Hj & He).
    pose proof (ok_hash _ _ Hok j e Hj He) as <-. done. }
  unfold ILHashRemove. rewrite (bind_done _ _ _ _ _ (hash_of_run _ _)), (bind_done _ _ _ _ _ (chain_fuel_run _)). fold i.
  destruct (remove_entry_run freeFunc e b (ch i) _ (Some i) h (ok_nodup _ _ Hok i Hi) (ok_chain _ _ Hok i Hi)
              (fuel_enough h ch i Hok Hi)) as [[He ->] | (l1 & a & l2 & next & El & He & Ha & ->)].
  - exists h, ch. split; [done |]. split; [done |]. rewrite decide_False by tauto. rewrite <- Hin in He.
    split; [multiset_solver |]. unfold freeing. destruct (b && freeFunc); by rewrite app_nil_r.
  - rewrite freed_with_eq. unfold with_memory. cbn [size block overflowPosn fresh freed].
    pose proof (ok_chain _ _ Hok i Hi) as Hc. pose proof (ok_nodup _ _ Hok i Hi) as Hnd.
    eexists _, (upd ch i (l1 ++ (a, None) :: l2)). split; [done |]. split; [| split].
    + apply table_replace; [done | done | rewrite El, !fmap_app; done | | |].
      * rewrite El in Hc, Hnd. by apply chain_set with (Some e).
      * intros c Hc'. apply lookup_insert_ne. intros <-. apply Hc'. rewrite El, fmap_app. apply elem_of_app. right. by left.
      * intros x Hx. apply (ok_hash _ _ Hok); [done |]. rewrite El. revert Hx.
        rewrite !elems_app, !elem_of_app. unfold elems. cbn. rewrite elem_of_cons. tauto.
    + pose proof (contents_update h (mkHashTable (size h) (block h) (overflowPosn h) (<[a:=mkHashEntry None next]> (memory h)) (fresh h)
        (freed h ++ freeing b [e])) ch i (l1 ++ (a, None) :: l2) eq_refl Hi) as Hu.
      rewrite El, !elems_app, !bag_app, elems_cons, elems_skip, bag_cons in Hu. clear -Hu. multiset_solver.
    + cbn [freed]. rewrite decide_True; [done |]. apply Hin. rewrite El, elems_app, elem_of_app. right. by left.
Qed.

(** An entry that no chain has. *)
Definition unused (h : ILHashTable) (ch : Z -> list (Z * option Z)) (a : Z) : Prop :=
  forall i, 0 <= i < size h -> a ∉ (ch i).*1.

(** The state after [new_entry] gave the entry at [a]. *)
Definition room (h : ILHashTable) (ch : Z -> list (Z * option Z)) (a : Z) (h' : ILHashTable) : Prop :=
  unused h ch a /\
  size h' = size h /\ memory h' = memory h /\ freed h' = freed h /\ fresh h <= fresh h' /\ a < fresh h' /\
  (overflowPosn h' < size h -> exists base, block h' = Some base /\ base + size h <= fresh h' /\ 0 <= overflowPosn h' /\
     a < base + overflowPosn h' /\ forall i c, 0 <= i < size h -> c ∈ (ch i).*1 -> c < base + overflowPosn h').

Lemma new_entry_run h ch :
  hash_ok h ch -> exists a h', new_entry h = Done a h' /\ room h ch a h'.
Proof.
  intros [Hs _ _ _ _ [Hfs Hf] Hb]. unfold new_entry. rewrite (bind_done (get id) _ h h h eq_refl).
  destruct (Z.ltb_spec (overflowPosn h) (size h)) as [Hp | Hp].
  - destruct (Hb Hp) as (base & E & Hbase & H0 & Hj). rewrite E.
    eexists (base + overflowPosn h), _. split; [done |]. unfold room. cbn. split; [intros i Hi Ha; specialize (Hj i _ Hi Ha); lia |].
    split_and!; try done; try lia. intros _. exists base. split_and!; try done; try lia.
    intros i c Hi Hc. specialize (Hj i c Hi Hc). lia.
  - eexists (fresh h), _. split; [done |]. unfold room. cbn. split; [intros i Hi Ha; specialize (Hf i _ Hi Ha); lia |].
    split_and!; try done; try lia. intros _. exists (fresh h). split_and!; try done; try lia.
    intros i c Hi Hc. specialize (Hf i c Hi Hc). lia.
Qed.

(** An entry is linked behind the first of its chain. *)
Lemma push_ok e h ch i y l next a h1 :
  hash_ok h ch -> 0 <= i < size h -> computeFunc e mod size h = i -> ch i = (i, Some y) :: l ->
  memory h !! i = Some (mkHashEntry (Some y) next) -> room h ch a h1 ->
  hash_ok (set_entry i (mkHashEntry (Some y) (Some a)) (set_entry a (mkHashEntry (Some e) next) h1))
    (upd ch i ((i, Some y) :: (a, Some e) :: l)).
Proof.
  intros Hok Hi He El Ha (Hun & Es & Em & Efr & Hff & Haf & Hb1).
  pose proof (ok_chain _ _ Hok i Hi) as Hc. pose proof (ok_nodup _ _ Hok i Hi) as Hnd.
  assert (forall c, c ∈ ((i, Some y) :: (a, Some e) :: l).*1 -> c = a \/ c ∈ (ch i).*1) as Hnew.
  { intros c. rewrite El. cbn. rewrite !elem_of_cons. tauto. }
  assert (Hai := Hun i Hi). rewrite El in Hai, Hnd, Hc.
  apply (table_update h); cbn [set_entry size memory fresh block overflowPosn]; rewrite ?Em; try done.
  - by apply chain_push.
  - rewrite !fmap_cons. apply NoDup_cons in Hnd as [H1 H2]. cbn in Hai. apply not_elem_of_cons in Hai as [H3 H4].
    repeat apply NoDup_cons_2; cbn; rewrite ?not_elem_of_cons; auto.
  - intros c [-> | Hcc]%Hnew; [by right | by left].
  - intros j Hj Hne. assert (i ∉ (ch j).*1) as Hij.
    { intros Hij. apply Hne. apply (ok_disjoint _ _ Hok j i i); [done | done | done | rewrite El; by left]. }
    apply chain_insert; [done |]. apply chain_insert; [by apply Hun |]. by apply (ok_chain _ _ Hok).
  - intros z Hz. unfold elems in Hz. cbn in Hz. rewrite !elem_of_cons in Hz.
    destruct Hz as [-> | [-> | Hz]]; [| done |]; apply (ok_hash _ _ Hok); try done; rewrite El; [by left | by right].
  - pose proof (ok_fresh _ _ Hok) as [_ Hf]. intros c [-> | Hcc]%Hnew; [done |].
    specialize (Hf i c Hi Hcc). lia.
  - intros Hp. destruct (Hb1 Hp) as (base & E & Hbase & H0 & Hab & Hj). exists base. split_and!; try done.
    intros c [-> | Hcc]%Hnew; eauto.
Qed.

(** One more occurrence of the element. *)
Lemma add_ok e h ch :
  hash_ok h ch -> exists h' ch', ILHashAdd computeFunc e h = Done true h' /\ hash_ok h' ch' /\
    bag (contents h' ch') = bag (contents h ch) ⊎ {[+ e +]} /\ freed h' = freed h.
Proof.
  intros Hok. set (i := computeFunc e mod size h). pose proof (hash_range h ch (computeFunc e) Hok) as Hi. fold i in Hi.
  pose proof (ok_chain _ _ Hok i Hi) as Hc. pose proof (ok_nodup _ _ Hok i Hi) as Hnd.
  destruct (chain_head _ _ _ Hc) as (x & l & El). assert (Hc' := Hc). rewrite El in Hc'. destruct Hc' as (_ & next & Ha & Hl).
  unfold ILHashAdd. rewrite (bind_done _ _ _ _ _ (hash_of_run _ _)). fold i.
  rewrite (bind_done _ _ _ _ _ (hash_entry_run _ _ _ Ha)). cbn [elem overflow].
  pose proof (fun l h' => contents_update h h' ch i l) as Hu. rewrite El in Hu.
  destruct x as [y |].
  - destruct (new_entry_run h ch Hok) as (a & h1 & En & Hroom). assert (Hroom' := Hroom).
    destruct Hroom' as (_ & Es & _ & Efr & _).
    rewrite (bind_done _ _ _ _ _ En). eexists _, (upd ch i ((i, Some y) :: (a, Some e) :: l)). split; [done |].
    split; [| split; [| by cbn]].
    + apply (push_ok e h ch i y l next a h1); done.
    + specialize (Hu ((i, Some y) :: (a, Some e) :: l) (set_entry i (mkHashEntry (Some y) (Some a))
        (set_entry a (mkHashEntry (Some e) next) h1)) Es Hi). rewrite ?elems_cons, ?elems_skip, ?bag_cons in Hu. clear -Hu. multiset_solver.
  - eexists _, (upd ch i ((i, Some e) :: l)). split; [done |]. rewrite El in Hnd, Hc. split; [| split; [| done]].
    + unfold set_entry. apply table_replace; [done | done | by rewrite El | | |].
      * by apply (chain_set (memory h) i None (Some e) next (Some i) [] l).
      * intros c Hcin. apply lookup_insert_ne. intros <-. apply Hcin. rewrite El. by left.
      * intros z Hz. unfold elems in Hz. cbn in Hz. rewrite elem_of_cons in Hz.
        destruct Hz as [-> | Hz]; [done |]. apply (ok_hash _ _ Hok); [done |]. by rewrite El.
    + specialize (Hu ((i, Some e) :: l) (set_entry i (mkHashEntry (Some e) next) h) eq_refl Hi).
      rewrite ?elems_cons, ?elems_skip, ?bag_cons in Hu. clear -Hu. multiset_solver.
Qed.

(** ** The operations on all chains *)

Lemma contents_from_same ch ch' k n :
  (forall j, k <= j < k + Z.of_nat n -> ch' j = ch j) -> contents_from ch' k n = contents_from ch k n.
Proof.
  revert k. induction n as [| n IH]; intros k Hsame; [done |]. cbn [contents_from]. rewrite Hsame by lia.
  f_equal. apply IH. intros j Hj. apply Hsame. lia.
Qed.

Lemma freeing_app b l1 l2 : freeing b (l1 ++ l2) = freeing b l1 ++ freeing b l2.
Proof. unfold freeing. by destruct (b && freeFunc). Qed.

Lemma remove_chains_run p b n k h ch :
  hash_ok h ch -> 0 <= k -> k + Z.of_nat n <= size h ->
  exists h' ch', remove_chains freeFunc n k p b h = Done tt h' /\ hash_ok h' ch' /\ size h' = size h /\
    freed h' = freed h ++ freeing b (List.filter p (contents_from ch k n)) /\
    contents_from ch' k n = List.filter (fun e => negb (p e)) (contents_from ch k n) /\
    forall j, j < k -> ch' j = ch j.
Proof.
  revert k h ch. induction n as [| n IH]; intros k h ch Hok Hk Hn.
  { exists h, ch. split_and!; try done. unfold freeing. destruct (b && freeFunc); by rewrite app_nil_r. }
  assert (0 <= k < size h) as Hr by lia. cbn [remove_chains contents_from].
  rewrite (bind_done _ _ _ _ _ (chain_fuel_run _)).
  destruct (remove_matching_run freeFunc p b (ch k) _ (Some k) h (ok_nodup _ _ Hok k Hr) (ok_chain _ _ Hok k Hr)
              (fuel_enough h ch k Hok Hr)) as (m & E & Hm & _ & Hother).
  rewrite (bind_done _ _ _ _ _ E), freed_with_eq. unfold with_memory. cbn [size block overflowPosn fresh freed].
  set (h1 := mkHashTable _ _ _ _ _ _).
  assert (hash_ok h1 (upd ch k (clear p (ch k)))) as Hok1.
  { apply table_replace; try done; [apply clear_addresses |]. intros e. rewrite clear_elems. intros He.
    apply list_elem_of_In, filter_In in He as [He _]. apply (ok_hash _ _ Hok); [done | by apply list_elem_of_In]. }
  destruct (IH (k + 1) h1 _ Hok1) as (h' & ch' & E' & Hok' & Es & Ef & Ec & Hsame); [lia | cbn; lia |].
  rewrite (contents_from_same ch (upd _ _ _)) in Ef, Ec by (intros j Hj; apply upd_ne; lia).
  exists h', ch'. split_and!; [done | done | done | | |].
  - rewrite Ef, List.filter_app, freeing_app, (assoc_L (++)). done.
  - rewrite Ec, List.filter_app. f_equal. rewrite Hsame, upd_eq by lia. apply clear_elems.
  - intros j Hj. rewrite Hsame by lia. apply upd_ne. lia.
Qed.

Lemma bag_filter p l : bag l = bag (List.filter (fun e => negb (p e)) l) ⊎ bag (List.filter p l).
Proof.
  induction l as [| x l IH]; [done |]. cbn [List.filter]. rewrite bag_cons, IH.
  destruct (p x); cbn [negb]; rewrite bag_cons; multiset_solver.
Qed.

Lemma remove_subset_ok {K} (match_ : Z -> K -> bool) key b h ch :
  hash_ok h ch -> exists h' ch' l, ILHashRemoveSubset freeFunc match_ key b h = Done tt h' /\ hash_ok h' ch' /\
    bag (contents h ch) = bag (contents h' ch') ⊎ bag l /\ freed h' = freed h ++ freeing b l /\
    (forall e, e ∈ l -> match_ e key = true) /\ (forall e, e ∈ bag (contents h' ch') -> match_ e key = false).
Proof.
  intros Hok. pose proof (ok_size _ _ Hok) as Hs. unfold ILHashRemoveSubset.
  rewrite (bind_done (get size) _ h (size h) h eq_refl).
  destruct (remove_chains_run (fun e => match_ e key) b (Z.to_nat (size h)) 0 h ch Hok) as (h' & ch' & E & Hok' & Es & Ef & Ec & _);
    [lia | lia |].
  exists h', ch', (List.filter (fun e => match_ e key) (contents h ch)). split_and!; [done | done | | done | |].
  - unfold contents at 2. rewrite Es, Ec. apply bag_filter.
  - intros e He. by apply list_elem_of_In, filter_In in He as [_ He].
  - intros e He. apply elem_of_bag in He. unfold contents in He. rewrite Es, Ec in He.
    apply list_elem_of_In, filter_In in He as [_ He]. by destruct (match_ e key).
Qed.

Lemma destroy_chains_run n k h ch :
  hash_ok h ch -> 0 <= k -> k + Z.of_nat n <= size h ->
  destroy_chains n k h = Done tt (mkHashTable (size h) (block h) (overflowPosn h) (memory h) (fresh h)
                                    (freed h ++ contents_from ch k n)).
Proof.
  intros [Hs Hc Hnd Hdis Hh Hf Hb] Hk. intros Hn.
  assert (forall F, let h1 := mkHashTable (size h) (block h) (overflowPosn h) (memory h) (fresh h) F in
    destroy_chains n k h1 = Done tt (mkHashTable (size h) (block h) (overflowPosn h) (memory h) (fresh h)
                                    (F ++ contents_from ch k n))) as Hrun; [| specialize (Hrun (freed h)); by destruct h].
  revert k Hk Hn. induction n as [| n IH]; intros k Hk Hn F; cbn zeta.
  { cbn. by rewrite app_nil_r. }
  cbn [destroy_chains contents_from]. rewrite (bind_done _ _ _ _ _ (chain_fuel_run _)). cbn [memory].
  assert (0 <= k < size h) as Hr by lia.
  set (h1 := mkHashTable _ _ _ _ _ F).
  rewrite (bind_done _ _ h1 _ _ (destroy_chain_run (ch k) _ (Some k) h1 (Hc k Hr)
    (Nat.le_trans _ _ _ (chain_length _ _ _ (Hnd k Hr) (Hc k Hr)) (Nat.le_succ_diag_r _)))). cbn [size block overflowPosn memory fresh freed].
  rewrite IH by lia. by rewrite (assoc_L (++)).
Qed.

Lemma destroy_ok h ch :
  hash_ok h ch ->
  exists h', ILHashDestroy freeFunc h = Done tt h' /\ freed h' = freed h ++ (if freeFunc then contents h ch else []).
Proof.
  intros Hok. pose proof (ok_size _ _ Hok) as Hs. unfold ILHashDestroy.
  destruct freeFunc; [| eexists; split; [done |]; cbn; by rewrite app_nil_r].
  rewrite bind_assoc, (bind_done (get size) _ h (size h) h eq_refl).
  rewrite (bind_done _ _ _ _ _ (destroy_chains_run (Z.to_nat (size h)) 0 h ch Hok ltac:(lia) ltac:(lia))).
  eexists. split; [done |]. done.
Qed.

(** ** Iteration *)

(** The elements that an iteration still returns: the rest of a chain, and those of the later
    chains. *)
Definition iter_at (h : ILHashTable) (ch : Z -> list (Z * option Z)) (it : ILHashIter) (l : list Z) : Prop :=
  -1 <= index it < size h /\ exists rest,
    chain (memory h) (entry it) rest /\ (length rest <= Datatypes.S (base.size (memory h)))%nat /\
    l = elems rest ++ contents_from ch (index it + 1) (Z.to_nat (size h - index it - 1)).

Lemma iter_init_at h ch : hash_ok h ch -> iter_at h ch ILHashIterInit (contents h ch).
Proof.
  intros Hok. pose proof (ok_size _ _ Hok) as Hs. split; [cbn; lia |]. exists []. split_and!; [done | cbn; lia |].
  unfold contents. cbn. do 2 f_equal. lia.
Qed.

Lemma contents_from_step ch k n :
  0 <= k < n -> contents_from ch k (Z.to_nat (n - k)) = elems (ch k) ++ contents_from ch (k + 1) (Z.to_nat (n - (k + 1))).
Proof. intros Hk. by replace (Z.to_nat (n - k)) with (Datatypes.S (Z.to_nat (n - (k + 1)))) by lia. Qed.

(** One turn that finds an element of the chain, or leaves the chain. *)
Lemma iter_next_chain h ch turns i rest start :
  hash_ok h ch -> -1 <= i < size h -> chain (memory h) start rest -> (length rest <= Datatypes.S (base.size (memory h)))%nat ->
  let run := (e ← skip_empty (Datatypes.S (base.size (memory h))) start;
              match e with
              | None => iter_next turns (mkHashIter i None)
              | Some a => x ← hash_entry a; mret (elem x, mkHashIter i (overflow x))
              end : comp ILHashTable (option Z * ILHashIter)) h in
  (elems rest = [] /\ run = iter_next turns (mkHashIter i None) h) \/
  exists e it l, elems rest = e :: l /\ run = Done (Some e, it) h /\
    iter_at h ch it (l ++ contents_from ch (i + 1) (Z.to_nat (size h - i - 1))).
Proof.
  intros Hok Hi Hc Hlen run. subst run.
  destruct (skip_empty_run rest _ start h Hc Hlen) as [[He Es] | (a & e & next & l2 & He & Ha & Hl2 & Hll & Es)].
  - left. split; [done |]. by rewrite (bind_done _ _ _ _ _ Es).
  - right. exists e, (mkHashIter i next), (elems l2). split; [done |]. split.
    + by rewrite (bind_done _ _ _ _ _ Es), (bind_done _ _ _ _ _ (hash_entry_run _ _ _ Ha)).
    + split; [done |]. exists l2. split_and!; [done | cbn in *; lia | done].
Qed.

Lemma iter_next_run h ch turns it l :
  hash_ok h ch -> iter_at h ch it l -> (Z.to_nat (size h - index it - 1) + match entry it with None => 0 | Some _ => 1 end < turns)%nat ->
  exists it', iter_next turns it h = Done (head l, it') h /\ (l <> [] -> iter_at h ch it' (tail l)).
Proof.
  intros Hok. revert it l. induction turns as [| turns IH]; intros it l (Hi & rest & Hc & Hlen & ->) Ht; [lia |].
  cbn [iter_next]. rewrite (bind_done (get size) _ h (size h) h eq_refl). destruct it as [i start]. cbn [index entry] in *.
  assert (forall i' start' rest', -1 <= i' < size h -> (Z.to_nat (size h - i' - 1) < turns)%nat ->
    chain (memory h) start' rest' -> (length rest' <= Datatypes.S (base.size (memory h)))%nat ->
    let l := elems rest' ++ contents_from ch (i' + 1) (Z.to_nat (size h - i' - 1)) in
    exists it', (fuel ← chain_fuel; e ← skip_empty fuel start';
       match e with
       | None => iter_next turns (mkHashIter i' None)
       | Some a => x ← hash_entry a; mret (elem x, mkHashIter i' (overflow x))
       end : comp ILHashTable (option Z * ILHashIter)) h = Done (head l, it') h /\ (l <> [] -> iter_at h ch it' (tail l)))
    as Hturn.
  { intros i' start' rest' Hi' Ht' Hc' Hlen' l'. subst l'. rewrite (bind_done _ _ _ _ _ (chain_fuel_run _)).
    destruct (iter_next_chain h ch turns i' rest' start' Hok Hi' Hc' Hlen') as [[-> ->] | (e & it & l & -> & -> & Hat)]; [| by exists it].
    apply (IH (mkHashIter i' None)); [| cbn; lia]. split; [done |]. exists []. split_and!; [done | cbn; lia | done]. }
  destruct start as [a |].
  - apply Hturn; try done. lia.
  - cbn in Hc. assert (rest = []) as -> by (destruct rest as [| [] ?]; [done | by destruct Hc]).
    destruct (Z.leb_spec (size h) (i + 1)); cbn [andb].
    + exists (mkHashIter (i + 1) None). replace (Z.to_nat (size h - i - 1)) with 0%nat by lia. by cbn.
    + cbn [elems omap list_omap app]. replace (size h - i - 1) with (size h - (i + 1)) in * by lia.
      rewrite contents_from_step by lia. replace (size h - (i + 1 + 1)) with (size h - (i + 1) - 1) by lia.
      assert (0 <= i + 1 < size h) as Hr by lia.
      apply Hturn; [lia | lia | by apply (ok_chain _ _ Hok) | by apply (fuel_enough h ch)].
Qed.

Lemma iter_next_ok h ch it l :
  hash_ok h ch -> iter_at h ch it l ->
  exists it', ILHashIterNext it h = Done (head l, it') h /\ (l <> [] -> iter_at h ch it' (tail l)).
Proof.
  intros Hok Hat. unfold ILHashIterNext. rewrite (bind_done (get size) _ h (size h) h eq_refl).
  apply iter_next_run; [done | done |]. destruct Hat as [Hi _]. destruct (entry it); lia.
Qed.

Lemma iterate_run h ch fuel it l :
  hash_ok h ch -> iter_at h ch it l -> (length l < fuel)%nat -> iterate fuel it h = Done l h.
Proof.
  intros Hok. revert it l. induction fuel as [| fuel IH]; intros it l Hat Hf; [lia |].
  destruct (iter_next_ok h ch it l Hok Hat) as (it' & E & Hat'). cbn [iterate]. rewrite (bind_done _ _ _ _ _ E).
  destruct l as [| e l]; [done |]. cbn [head hd_error tail]. cbn in Hf.
  by rewrite (bind_done _ _ _ _ _ (IH it' l (Hat' ltac:(done)) ltac:(lia))).
Qed.

(** An element for every entry at most. *)
Fixpoint addresses_from (ch : Z -> list (Z * option Z)) (k : Z) (n : nat) : list Z :=
  match n with O => [] | Datatypes.S n => (ch k).*1 ++ addresses_from ch (k + 1) n end.

Lemma elem_of_addresses_from ch k n a :
  a ∈ addresses_from ch k n -> exists i, k <= i < k + Z.of_nat n /\ a ∈ (ch i).*1.
Proof.
  revert k. induction n as [| n IH]; intros k; cbn [addresses_from]; [intros H; by apply not_elem_of_nil in H |].
  intros [Ha | (i & Hi & Ha)%IH]%elem_of_app; [exists k | exists i]; (split; [lia | done]).
Qed.

Lemma addresses_length ch k n : (length (contents_from ch k n) <= length (addresses_from ch k n))%nat.
Proof.
  revert k. induction n as [| n IH]; intros k; [done |]. cbn [contents_from addresses_from]. rewrite !length_app.
  specialize (IH (k + 1)). rewrite length_fmap.
  assert (length (elems (ch k)) <= length (ch k))%nat; [| lia]. induction (ch k) as [| [a [e |]] l IHl]; [done | |].
  - rewrite elems_cons. cbn. lia.
  - rewrite elems_skip. cbn. lia.
Qed.

Lemma contents_length h ch : hash_ok h ch -> (length (contents h ch) <= base.size (memory h))%nat.
Proof.
  intros [Hs Hc Hnd Hdis _ _ _]. unfold contents. etransitivity; [apply addresses_length |].
  assert (forall n k, 0 <= k -> k + Z.of_nat n <= size h -> NoDup (addresses_from ch k n)) as Hndl.
  { induction n as [| n IH]; intros k Hk Hn; [constructor |]. cbn [addresses_from]. apply NoDup_app. split_and!.
    - apply Hnd. lia.
    - intros a Ha (i & Hi & Ha')%elem_of_addresses_from. assert (k = i); [apply (Hdis k i a); (lia || done) | lia].
    - apply IH; lia. }
  rewrite <- size_dom, <- (size_list_to_set (C := gset Z)) by (apply Hndl; lia).
  apply subseteq_size. intros a Ha. apply elem_of_list_to_set, elem_of_addresses_from in Ha as (i & Hi & Ha).
  apply elem_of_dom. apply (chain_dom _ (Some i) (ch i)); [apply Hc; lia | done].
Qed.
End table.

(** ** The refinement *)

(** What a client calls, and what it gets. *)
Inductive hash_op (Key : Type) :=
| op_add (e : Z)
| op_find (key : Key)
| op_remove (e : Z) (freeElem : bool)
| op_remove_subset (matchFunc : Z -> Key -> bool) (key : Key) (freeElem : bool)
| op_iterate.
Arguments op_add {Key}.
Arguments op_find {Key}.
Arguments op_remove {Key}.
Arguments op_remove_subset {Key}.
Arguments op_iterate {Key}.

Inductive hash_result :=
| added (ok : bool)
| found_elem (e : option Z)
| removed
| elements (l : list Z).

Section refinement.
Context {Key : Type} (computeFunc : Z -> Z) (keyComputeFunc : Key -> Z)
        (matchFunc : Z -> Key -> bool) (freeFunc : bool).

Definition run_op (op : hash_op Key) : comp ILHashTable hash_result :=
  match op with
  | op_add e => ok ← ILHashAdd computeFunc e; mret (added ok)
  | op_find key => r ← ILHashFind keyComputeFunc matchFunc key; mret (found_elem r)
  | op_remove e b => _ ← ILHashRemove computeFunc freeFunc e b; mret removed
  | op_remove_subset p key b => _ ← ILHashRemoveSubset freeFunc p key b; mret removed
  | op_iterate => fuel ← chain_fuel; l ← iterate fuel ILHashIterInit; mret (elements l)
  end.
Fixpoint run_ops (ops : list (hash_op Key)) : comp ILHashTable (list hash_result) :=
  match ops with
  | [] => mret []
  | op :: ops => r ← run_op op; rs ← run_ops ops; mret (r :: rs)
  end.

(** The same on a multiset of elements, and the list of those that were freed. *)
Inductive hash_step : gmultiset Z * list Z -> hash_op Key -> hash_result -> gmultiset Z * list Z -> Prop :=
| step_add e M F : hash_step (M, F) (op_add e) (added true) (M ⊎ {[+ e +]}, F)
| step_find key r M F : found_in matchFunc key M r -> hash_step (M, F) (op_find key) (found_elem r) (M, F)
| step_remove e b M F :
    hash_step (M, F) (op_remove e b) removed
      (M ∖ {[+ e +]}, F ++ freeing freeFunc b (if decide (e ∈ M) then [e] else []))
| step_remove_subset p key b M l F :
    (forall e, e ∈ l -> p e key = true) -> (forall e, e ∈ M -> p e key = false) ->
    hash_step (M ⊎ bag l, F) (op_remove_subset p key b) removed (M, F ++ freeing freeFunc b l)
| step_iterate l F : hash_step (bag l, F) op_iterate (elements l) (bag l, F).

Inductive hash_trace : gmultiset Z * list Z -> list (hash_op Key) -> list hash_result -> gmultiset Z * list Z -> Prop :=
| trace_nil s : hash_trace s [] [] s
| trace_cons s1 s2 s3 op ops r rs :
    hash_step s1 op r s2 -> hash_trace s2 ops rs s3 -> hash_trace s1 (op :: ops) (r :: rs) s3.

(** A table that holds the multiset. *)
Definition represents (h : ILHashTable) (s : gmultiset Z * list Z) : Prop :=
  exists ch, hash_ok computeFunc h ch /\ s = (bag (contents h ch), freed h).

Context (compat : forall e key, matchFunc e key = true -> computeFunc e = keyComputeFunc key).

Lemma run_op_step op h s :
  represents h s -> exists r h' s', run_op op h = Done r h' /\ hash_step s op r s' /\ represents h' s'.
Proof.
  intros (ch & Hok & ->). destruct op as [e | key | e b | p key b |]; cbn [run_op].
  - destruct (add_ok computeFunc e h ch Hok) as (h' & ch' & E & Hok' & Eb & Ef). rewrite (bind_done _ _ _ _ _ E).
    eexists _, h', _. split; [done |]. split; [| by exists ch']. rewrite Eb, Ef. constructor.
  - destruct (find_correct computeFunc key keyComputeFunc matchFunc h ch Hok (fun e => compat e key)) as (r & E & Hr).
    unfold ILHashFind. rewrite (bind_done _ _ _ _ _ E).
    eexists _, h, _. split; [done |]. split; [| by exists ch]. by constructor.
  - destruct (remove_ok computeFunc freeFunc e b h ch Hok) as (h' & ch' & E & Hok' & Eb & Ef). rewrite (bind_done _ _ _ _ _ E).
    eexists _, h', _. split; [done |]. split; [| by exists ch']. rewrite Eb, Ef. constructor.
  - destruct (remove_subset_ok computeFunc freeFunc p key b h ch Hok) as (h' & ch' & l & E & Hok' & Eb & Ef & Hl & Hk).
    rewrite (bind_done _ _ _ _ _ E). eexists _, h', _. split; [done |]. split; [| by exists ch'].
    rewrite Eb, Ef. by constructor.
  - rewrite (bind_done _ _ _ _ _ (chain_fuel_run h)).
    rewrite (bind_done _ _ _ _ _ (iterate_run computeFunc h ch _ _ _ Hok (iter_init_at computeFunc h ch Hok)
      (proj2 (Nat.lt_succ_r _ _) (contents_length computeFunc h ch Hok)))).
    eexists _, h, _. split; [done |]. split; [| by exists ch]. constructor.
Qed.

Lemma run_ops_trace ops h s :
  represents h s -> exists rs h' s', run_ops ops h = Done rs h' /\ hash_trace s ops rs s' /\ represents h' s'.
Proof.
  revert h s. induction ops as [| op ops IH]; intros h s Hr.
  { exists [], h, s. split; [done |]. split; [constructor | done]. }
  destruct (run_op_step op h s Hr) as (r & h1 & s1 & E1 & Hs1 & Hr1).
  destruct (IH h1 s1 Hr1) as (rs & h2 & s2 & E2 & Hs2 & Hr2). exists (r :: rs), h2, s2. cbn [run_ops].
  rewrite (bind_done _ _ _ _ _ E1), (bind_done _ _ _ _ _ E2). split; [done |]. split; [| done]. by econstructor.
Qed.

(** C23: A hash table is a multiset of elements.  Whatever a client does with a new table
    (of any size), every operation returns, no entry is read that was not written,
    and what the operations return is what they would return on a multiset: [ILHashFind] finds an
    element that matches if there is one, [ILHashRemove] takes one occurrence out, the
    iterator gives every element once for each time it was added; the elements that are freed are those
    taken out with [freeElem].  [ILHashDestroy] frees the elements that are left, once each. *)
Theorem hash_table_refines n ops :
  0 <= n ->
  exists rs h M F, run_ops ops (ILHashCreate n) = Done rs h /\
    hash_trace (∅, []) ops rs (M, F) /\
    exists h' l, ILHashDestroy freeFunc h = Done tt h' /\ freed h' = F ++ l /\ if freeFunc then bag l = M else l = [].
Proof.
  intros Hn. destruct (create_ok computeFunc n Hn) as (Hok & Eb & Ef).
  destruct (run_ops_trace ops (ILHashCreate n) (∅, [])) as (rs & h & s & E & Ht & (ch & Hok' & ->)).
  { exists (fun i => [(i, None)]). by rewrite Eb, Ef. }
  exists rs, h, (bag (contents h ch)), (freed h). split; [done |]. split; [done |].
  destruct (destroy_ok computeFunc freeFunc h ch Hok') as (h' & E' & Ef').
  exists h', (if freeFunc then contents h ch else []). split; [done |]. split; [done |]. by destruct freeFunc.
Qed.
End refinement.

(** Elements that are their own keys, in a table with two chains. *)
Definition sample_ops : list (hash_op Z) :=
  [op_add 2; op_add 4; op_add 4; op_add 3; op_find 4; op_remove 4 true; op_iterate; op_remove_subset Z.ltb 3 true;
   op_find 2; op_add 6; op_iterate].
Example sample_ops_run :
  run_ops id id Z.eqb true sample_ops (ILHashCreate 2) =
  Done [added true; added true; added true; added true; found_elem (Some 4); removed; elements [2; 4; 3]; removed;
        found_elem None; added true; elements [6; 4; 3]]
       (mkHashTable 2 (Some 2) 2
          (list_to_map [(0, mkHashEntry (Some 6) (Some 3)); (1, mkHashEntry (Some 3) None);
                        (2, mkHashEntry (Some 4) None); (3, mkHashEntry None (Some 2))]) 4 [4; 2]).
Proof. reflexivity. Qed.

Example hash_table_refines_witness :
  exists rs h M F, run_ops id id Z.eqb true sample_ops (ILHashCreate 2) = Done rs h /\
    hash_trace Z.eqb true (∅, []) sample_ops rs (M, F) /\
    exists h' l, ILHashDestroy true h = Done tt h' /\ freed h' = F ++ l /\ bag l = M.
Proof. apply (hash_table_refines id id Z.eqb true (fun e key => proj1 (Z.eqb_eq e key)) 2 sample_ops). done. Defined.
