(* ===== verification/MemPool.v ===== *)
(** * MemPool: the memory pools of the library

    Models src/gcc/cil/support/mempool.c: pools of items of one size.  Items are cut
    from blocks that the system gives; a freed item is kept in a list and given out
    again.  The lists of blocks and of free items are linked through the first word of
    their elements, which is part of the memory that the client writes to.

    [memory] maps the address of a pointer to its value, 0 for the null pointer;
    [system] has the blocks that are allocated, with their sizes.  [ILMalloc] is [malloc] of the C library and a parameter: where a block is,
    and whether there is one, is up to the system.  [IL_BEST_ALIGNMENT], which il_align.h finds for the target, is one too. *)
From S2P Require Import Prelude.

Definition IL_POOL_BLOCK_SIZE := 4080.

Record ILMemPool := mkPool {
  size : Z;
  nitems : Z;
  index : Z;
  blocks : Z;
  freeItems : Z
}.

(** A pool and the memory it works on. *)
Record pool_state := mkPoolState { pool : ILMemPool; memory : gmap Z Z; system : gmap Z Z }.

Definition set_pool (p : ILMemPool) (s : pool_state) : pool_state := mkPoolState p (memory s) (system s).
Definition set_memory (m : gmap Z Z) (s : pool_state) : pool_state := mkPoolState (pool s) m (system s).
Definition set_pool_index (i : Z) (p : ILMemPool) : ILMemPool := mkPool (size p) (nitems p) i (blocks p) (freeItems p).
Definition set_blocks (b : Z) (p : ILMemPool) : ILMemPool := mkPool (size p) (nitems p) (index p) b (freeItems p).
Definition set_freeItems (f : Z) (p : ILMemPool) : ILMemPool := mkPool (size p) (nitems p) (index p) (blocks p) f.

Section mempool.
Context (IL_BEST_ALIGNMENT : Z) (ILMalloc : gmap Z Z -> Z -> option Z).

(** The pointer at an address, read and written. *)
Definition load_pointer (a : Z) : comp pool_state Z := m ← get memory; lift "pointer" (m !! a).
Definition store_pointer (a v : Z) : comp pool_state unit := modify (fun s => set_memory (<[a := v]> (memory s)) s).

Definition with_pool (f : ILMemPool -> ILMemPool) : comp pool_state unit := modify (fun s => set_pool (f (pool s)) s).

Definition malloc (n : Z) : comp pool_state Z :=
  sys ← get system;
  match ILMalloc sys n with
  | None => mret 0
  | Some a => _ ← modify (fun s => mkPoolState (pool s) (memory s) (<[a := n]> (system s))); mret a
  end.
Definition ILFree (a : Z) : comp pool_state unit :=
  sys ← get system;
  match sys !! a with
  | None => fail (Undefined "ILFree")
  | Some _ => modify (fun s => mkPoolState (pool s) (memory s) (delete a (system s)))
  end.

(** The size of an item, rounded up. *)
Definition rounded (n : Z) : Z :=
  Z.land (uint32 (n + IL_BEST_ALIGNMENT - 1)) (uint32 (Z.lnot (IL_BEST_ALIGNMENT - 1))).

Definition ILMemPoolInit (size nitems : Z) : comp pool_state unit :=
  let size := rounded size in
  if size =? 0 then fail (Undefined "division by zero")
  else
    let maxitems := (IL_POOL_BLOCK_SIZE - IL_BEST_ALIGNMENT) / size in
    let nitems := if negb (nitems =? 0) && (nitems <? maxitems) then nitems else maxitems in
    with_pool (fun _ => mkPool size nitems nitems 0 0).

(** The loop that frees a list of blocks. *)
Fixpoint free_blocks (fuel : nat) (block : Z) : comp pool_state unit :=
  if block =? 0 then mret tt
  else
    match fuel with
    | O => fail Out_of_fuel
    | S fuel => next ← load_pointer block; _ ← ILFree block; free_blocks fuel next
    end.

(** A list has no more blocks than the system. *)
Definition block_fuel : comp pool_state nat := sys ← get system; mret (base.size sys).

Definition ILMemPoolDestroy : comp pool_state unit :=
  fuel ← block_fuel;
  p ← get pool;
  _ ← free_blocks fuel (blocks p);
  with_pool (fun p => set_freeItems 0 (set_blocks 0 (set_pool_index (nitems p) p))).

Definition ILMemPoolClear : comp pool_state unit :=
  p ← get pool;
  _ ← (if negb (blocks p =? 0) then
         fuel ← block_fuel;
         block ← load_pointer (blocks p);
         _ ← free_blocks fuel block;
         _ ← store_pointer (blocks p) 0;
         with_pool (set_pool_index 0)
       else mret tt);
  with_pool (set_freeItems 0).

Definition ILMemPoolAllocItem : comp pool_state Z :=
  p ← get pool;
  if negb (freeItems p =? 0) then
    next ← load_pointer (freeItems p);
    _ ← with_pool (set_freeItems next);
    mret (freeItems p)
  else if index p <? nitems p then
    _ ← with_pool (set_pool_index (index p + 1));
    mret (blocks p + IL_BEST_ALIGNMENT + uint32 (index p * size p))
  else
    block ← malloc (uint32 (IL_BEST_ALIGNMENT + size p * nitems p));
    if block =? 0 then mret 0
    else
      _ ← store_pointer block (blocks p);
      _ ← with_pool (set_blocks block);
      _ ← with_pool (set_pool_index 1);
      mret (block + IL_BEST_ALIGNMENT).

(** [ILMemZero]. *)
Definition zero_range (a n : Z) (m : gmap Z Z) : gmap Z Z := list_to_map ((fun x => (x, 0)) <$> seqZ a n) ∪ m.

Definition ILMemPoolCallocItem : comp pool_state Z :=
  item ← ILMemPoolAllocItem;
  p ← get pool;
  _ ← (if negb (item =? 0) then modify (fun s => set_memory (zero_range item (size p) (memory s)) s) else mret tt);
  mret item.

Definition ILMemPoolFree (item : Z) : comp pool_state unit :=
  p ← get pool;
  _ ← store_pointer item (freeItems p);
  with_pool (set_freeItems item).
End mempool.
