(* ===== verification/MemPoolSafe.v ===== *)
(** * MemPoolSafe: a pool gives out memory that is its own

    For any interleaving of what a client does with a pool. *)
From S2P Require Import Prelude MemPool.
#[local] Open Scope Z_scope.

(** ** Linked lists *)

(** The addresses of a list that is linked through the memory. *)
Fixpoint linked (m : gmap Z Z) (start : Z) (l : list Z) : Prop :=
  match l with
  | [] => start = 0
  | a :: l => start = a /\ a <> 0 /\ exists next, m !! a = Some next /\ linked m next l
  end.

Lemma linked_agree m m' start l : linked m start l -> (forall a, a ∈ l -> m' !! a = m !! a) -> linked m' start l.
Proof.
  revert start. induction l as [| a l IH]; intros start Hl Hm; [done |].
  destruct Hl as (-> & Ha & next & E & Hl). split; [done |]. split; [done |]. exists next. rewrite Hm by by left.
  split; [done |]. apply IH; [done |]. intros b Hb. apply Hm. by right.
Qed.
Lemma linked_insert m start l a v : linked m start l -> a ∉ l -> linked (<[a := v]> m) start l.
Proof. intros Hl Ha. apply (linked_agree m); [done |]. intros b Hb. apply lookup_insert_ne. by intros ->. Qed.
Lemma linked_cons m start l a : linked m start l -> a ∉ l -> a <> 0 -> linked (<[a := start]> m) a (a :: l).
Proof. intros Hl Hn Ha. split; [done |]. split; [done |]. exists start. rewrite lookup_insert_eq. split; [done |]. by apply linked_insert. Qed.
Lemma linked_nonzero m start l a : linked m start l -> a ∈ l -> a <> 0.
Proof.
  revert start. induction l as [| b l IH]; intros start Hl Ha; [by apply not_elem_of_nil in Ha |].
  destruct Hl as (-> & Hb & next & _ & Hl). apply elem_of_cons in Ha as [-> | Ha]; [done | by eapply IH].
Qed.

(** ** The invariant *)

Section safe.
Context (align : Z) (ILMalloc : gmap Z Z -> Z -> option Z).

(** The best alignment of a target is 4, 8 or 16. *)
Context (alignment_ok : exists k, 2 <= k <= 4 /\ align = 2 ^ k).

(** The system gives blocks that are aligned and apart from all others. *)
Context (malloc_ok : forall sys n a, 0 < n -> ILMalloc sys n = Some a ->
  0 < a /\ a mod align = 0 /\ sys !! a = None /\ forall b k, sys !! b = Some k -> a + n <= b \/ b + k <= a).

(** What the system had given before. *)
Context (others : gmap Z Z).

(** The size the items are made for, and the hint for the number of items in a block. *)
Context (sz hint : Z).

(** The size of a block of the pool, and the items of a block. *)
Definition block_size (p : ILMemPool) : Z := align + size p * nitems p.
Definition items_of (p : ILMemPool) (n : Z) (block : Z) : list Z := (fun i => block + align + i * size p) <$> seqZ 0 n.

(** All items that were cut from the blocks; only the first block is not used up. *)
Definition items (p : ILMemPool) (bl : list Z) : list Z :=
  match bl with
  | [] => []
  | b :: bl => items_of p (index p) b ++ (bl ≫= items_of p (nitems p))
  end.

Definition pool_fits (p : ILMemPool) : Prop :=
  0 < size p /\ size p mod align = 0 /\ 0 < nitems p /\ block_size p <= IL_POOL_BLOCK_SIZE /\ sz <= size p.

(** [bl] are the blocks of the pool, [fl] the free items, and [live] those of the client. *)
Record pool_ok (s : pool_state) (bl fl live : list Z) : Prop := {
  ok_fits : pool_fits (pool s);
  ok_index : 0 <= index (pool s) <= nitems (pool s) /\ (bl = [] -> index (pool s) = nitems (pool s));
  ok_blocks : linked (memory s) (blocks (pool s)) bl;
  ok_free : linked (memory s) (freeItems (pool s)) fl;
  ok_nodup : NoDup bl;
  ok_block : forall b, b ∈ bl -> system s !! b = Some (block_size (pool s)) /\ others !! b = None /\ 0 < b /\ b mod align = 0;
  ok_apart : forall b c, b ∈ bl -> c ∈ bl -> b <> c -> b + block_size (pool s) <= c \/ c + block_size (pool s) <= b;
  ok_others : forall a, a ∉ bl -> system s !! a = others !! a;
  ok_foreign : forall b c k, b ∈ bl -> others !! c = Some k -> b + block_size (pool s) <= c \/ c + k <= b;
  ok_items : fl ++ live ≡ₚ items (pool s) bl
}.

Lemma align_pos : 4 <= align <= 16.
Proof. destruct alignment_ok as (k & Hk & ->). assert (k = 2 \/ k = 3 \/ k = 4) as [-> | [-> | ->]] by lia; lia. Qed.

(** Where an item is. *)
Lemma items_of_in p n b a :
  pool_fits p -> n <= nitems p -> a ∈ items_of p n b ->
  b + align <= a /\ a + size p <= b + block_size p /\ (b mod align = 0 -> a mod align = 0).
Proof.
  intros (Hs & Hsa & Hn & _) Hle Ha. apply list_elem_of_fmap in Ha as (i & -> & Hi%elem_of_seqZ). unfold block_size.
  pose proof align_pos. split; [nia |]. split; [nia |]. intros Hb.
  rewrite Z.add_mod, (Z.add_mod b) by lia. rewrite Hb, Z.mod_same by lia.
  rewrite <- Z.mul_mod_idemp_r, Hsa, Z.mul_0_r by lia. rewrite !Z.mod_0_l; lia.
Qed.

Lemma items_in p bl a :
  pool_fits p -> index p <= nitems p -> a ∈ items p bl ->
  exists b, b ∈ bl /\ b + align <= a /\ a + size p <= b + block_size p /\ (b mod align = 0 -> a mod align = 0).
Proof.
  intros Hp Hi Ha. destruct bl as [| b bl]; [by apply not_elem_of_nil in Ha |]. cbn [items] in Ha.
  apply elem_of_app in Ha as [Ha | Ha].
  - exists b. split; [by left |]. by apply (items_of_in p (index p)).
  - apply list_elem_of_bind in Ha as (c & Ha & Hc). exists c. split; [by right |]. by apply (items_of_in p (nitems p)).
Qed.

(** Items of one block are apart. *)
Lemma items_of_apart p n b a c :
  pool_fits p -> a ∈ items_of p n b -> c ∈ items_of p n b -> a <> c -> a + size p <= c \/ c + size p <= a.
Proof.
  intros (Hs & _) Ha Hc Hne. apply list_elem_of_fmap in Ha as (i & -> & _). apply list_elem_of_fmap in Hc as (j & -> & _).
  assert (i < j \/ j < i) as [|] by (destruct (Z.lt_trichotomy i j) as [| [-> |]]; [lia | done | lia]); nia.
Qed.
Lemma items_of_nodup p n b : pool_fits p -> NoDup (items_of p n b).
Proof.
  intros (Hs & _). apply NoDup_fmap_2_strong; [| apply NoDup_seqZ]. intros i j _ _ E. nia.
Qed.

Lemma ok_item s bl fl live a :
  pool_ok s bl fl live -> a ∈ fl ++ live ->
  exists b, b ∈ bl /\ b + align <= a /\ a + size (pool s) <= b + block_size (pool s) /\ a mod align = 0.
Proof.
  intros Hok Ha. rewrite (ok_items _ _ _ _ Hok) in Ha.
  destruct (items_in _ _ _ (ok_fits _ _ _ _ Hok) (proj2 (proj1 (ok_index _ _ _ _ Hok))) Ha) as (b & Hb & H1 & H2 & H3).
  exists b. split_and!; [done | done | done |]. apply H3. by apply (ok_block _ _ _ _ Hok).
Qed.

(** Two items are apart. *)
Lemma items_apart s bl fl live a c :
  pool_ok s bl fl live -> a ∈ fl ++ live -> c ∈ fl ++ live -> a <> c ->
  a + size (pool s) <= c \/ c + size (pool s) <= a.
Proof.
  intros Hok Ha Hc Hne. pose proof (ok_fits _ _ _ _ Hok) as Hp. pose proof (proj1 (ok_index _ _ _ _ Hok)) as Hi.
  rewrite (ok_items _ _ _ _ Hok) in Ha, Hc. destruct bl as [| b0 bl]; [by apply not_elem_of_nil in Ha |].
  assert (forall x, x ∈ items (pool s) (b0 :: bl) ->
    exists b n, n <= nitems (pool s) /\ b ∈ b0 :: bl /\ x ∈ items_of (pool s) n b) as Hin.
  { intros x [Hx | (b & Hx & Hb)%list_elem_of_bind]%elem_of_app; [exists b0, (index (pool s)) | exists b, (nitems (pool s))];
      (split; [lia |]); (split; [by constructor | done]). }
  destruct (Hin a Ha) as (b & n & Hn & Hb & Hab), (Hin c Hc) as (b' & n' & Hn' & Hb' & Hcb).
  assert (forall n, n <= nitems (pool s) -> forall x b, x ∈ items_of (pool s) n b -> x ∈ items_of (pool s) (nitems (pool s)) b) as Hup.
  { intros m Hm x y Hx. apply list_elem_of_fmap in Hx as (i & -> & Hix%elem_of_seqZ). apply list_elem_of_fmap.
    exists i. split; [done |]. apply elem_of_seqZ. lia. }
  apply Hup in Hab, Hcb; [| done..]. destruct (decide (b = b')) as [<- | Hbb]; [by eapply items_of_apart |].
  destruct (items_of_in _ _ _ _ Hp (Z.le_refl _) Hab) as (? & ? & _), (items_of_in _ _ _ _ Hp (Z.le_refl _) Hcb) as (? & ? & _).
  pose proof align_pos. destruct (ok_apart _ _ _ _ Hok b b' Hb Hb' Hbb); lia.
Qed.

Lemma items_nodup s bl fl live : pool_ok s bl fl live -> NoDup (fl ++ live).
Proof.
  intros Hok. rewrite (ok_items _ _ _ _ Hok). pose proof (ok_fits _ _ _ _ Hok) as Hp.
  pose proof (proj1 (ok_index _ _ _ _ Hok)) as Hi. pose proof align_pos as Hal.
  pose proof (ok_apart _ _ _ _ Hok) as Hap. pose proof (ok_nodup _ _ _ _ Hok) as Hnd.
  destruct bl as [| b bl]; [constructor |]. cbn [items]. apply NoDup_cons in Hnd as [Hb Hnd].
  assert (forall c x n, n <= nitems (pool s) -> c ∈ b :: bl -> x ∈ items_of (pool s) n c -> c < x < c + block_size (pool s)) as Hrange.
  { intros c x n Hn Hc Hx. destruct (items_of_in _ _ _ _ Hp Hn Hx) as (? & ? & _). destruct Hp. lia. }
  assert (forall c d x n m, n <= nitems (pool s) -> m <= nitems (pool s) -> c ∈ b :: bl -> d ∈ b :: bl ->
    x ∈ items_of (pool s) n c -> x ∈ items_of (pool s) m d -> c = d) as Hone.
  { intros c d x n m Hn Hm Hc Hd Hx Hx'. pose proof (Hrange c x n Hn Hc Hx). pose proof (Hrange d x m Hm Hd Hx').
    destruct (decide (c = d)); [done |]. destruct (Hap c d); (done || lia). }
  apply NoDup_app. split_and!; [by apply items_of_nodup | |].
  - intros x Hx (c & Hx' & Hc)%list_elem_of_bind. apply Hb.
    rewrite (Hone b c x (index (pool s)) (nitems (pool s))); [done | lia | lia | by left | by right | done | done].
  - assert (forall l, NoDup l -> (forall c, c ∈ l -> c ∈ b :: bl) -> NoDup (l ≫= items_of (pool s) (nitems (pool s)))) as H;
      [| apply H; [done | by right]].
    intros l. induction l as [| c l IH]; intros Hl Hsub; [constructor |]. apply NoDup_cons in Hl as [Hc Hl].
    cbn [mbind list_bind]. apply NoDup_app. split_and!; [by apply items_of_nodup | | apply IH; [done |]; intros d Hd; apply Hsub; by right].
    intros x Hx (d & Hx' & Hd)%list_elem_of_bind. apply Hc.
    rewrite (Hone c d x (nitems (pool s)) (nitems (pool s))); [done | lia | lia | apply Hsub; by left | apply Hsub; by right | done | done].
Qed.

(** A word of the pool's lists is in no item of the client. *)
Lemma live_not_list s bl fl live a x :
  pool_ok s bl fl live -> a ∈ live -> a <= x < a + size (pool s) -> (x ∉ bl) /\ (x ∉ fl).
Proof.
  intros Hok Ha Hx. pose proof align_pos as Hal. split; intros Hin.
  - destruct (ok_item _ _ _ _ a Hok) as (b & Hb & H1 & H2 & _); [apply elem_of_app; by right |].
    destruct (decide (x = b)) as [-> | Hne]; [lia |]. destruct (ok_apart _ _ _ _ Hok x b Hin Hb Hne); [| lia].
    pose proof (proj1 (ok_fits _ _ _ _ Hok)). pose proof (proj1 (ok_index _ _ _ _ Hok)).
    destruct (ok_fits _ _ _ _ Hok) as (? & _ & ? & _). unfold block_size in *. nia.
  - pose proof (items_nodup _ _ _ _ Hok) as Hnd. apply NoDup_app in Hnd as (_ & Hd & _).
    assert (a <> x) as Hne by (intros <-; by apply (Hd a)). pose proof (proj1 (ok_fits _ _ _ _ Hok)).
    destruct (items_apart _ _ _ _ a x Hok) as [? | ?]; try (apply elem_of_app; auto); (done || lia).
Qed.

(** ** The operations *)

(** The memory of the items [l], and of the blocks of others, is the same. *)
Definition untouched (l : list Z) (s s' : pool_state) : Prop :=
  (forall a x, a ∈ l -> a <= x < a + sz -> memory s' !! x = memory s !! x) /\
  (forall b k x, others !! b = Some k -> b <= x < b + k -> memory s' !! x = memory s !! x).

(** An item for the client: aligned, inside a block of the pool, and apart from the items [l]. *)
Definition gives (s' : pool_state) (l : list Z) (a : Z) : Prop :=
  0 < a /\ a mod align = 0 /\
  (exists b k, system s' !! b = Some k /\ others !! b = None /\ b + align <= a /\ a + size (pool s') <= b + k) /\
  forall c, c ∈ l -> a + size (pool s') <= c \/ c + size (pool s') <= a.

Lemma ok_gives s bl fl live a : pool_ok s bl fl (a :: live) -> gives s live a.
Proof.
  intros Hok. assert (a ∈ fl ++ a :: live) as Hin by (apply elem_of_app; right; by left).
  destruct (ok_item _ _ _ _ a Hok Hin) as (b & Hb & H1 & H2 & H3). pose proof align_pos.
  destruct (ok_block _ _ _ _ Hok b Hb) as (Es & Eo & Hb0 & _).
  split; [lia |]. split; [done |]. split; [by exists b, (block_size (pool s)) |].
  intros c Hc. apply (items_apart _ _ _ _ a c Hok); [done | apply elem_of_app; right; by right |].
  intros <-. pose proof (items_nodup _ _ _ _ Hok) as Hnd. apply NoDup_app in Hnd as (_ & _ & Hnd).
  by apply NoDup_cons in Hnd as [Hnd _].
Qed.

Lemma untouched_same l s s' : memory s' = memory s -> untouched l s s'.
Proof. intros E. split; intros; by rewrite E. Qed.

Lemma load_pointer_run a v s : memory s !! a = Some v -> load_pointer a s = Done v s.
Proof. intros E. unfold load_pointer. rewrite (bind_done (get memory) _ s (memory s) s eq_refl). by rewrite E. Qed.

(** The next item of the first block. *)
Lemma items_next s b bl fl live :
  pool_ok s (b :: bl) fl live -> index (pool s) < nitems (pool s) ->
  let s' := set_pool (set_pool_index (index (pool s) + 1) (pool s)) s in
  pool_ok s' (b :: bl) fl (b + align + index (pool s) * size (pool s) :: live).
Proof.
  intros Hok Hlt. destruct Hok as [Hf [Hi _] Hb Hfr Hnd Hbk Hap Hot Hfo Hit]. constructor; try done.
  - cbn. split; [lia | done].
  - cbn [set_pool pool items]. assert (forall n c, items_of (set_pool_index (index (pool s) + 1) (pool s)) n c = items_of (pool s) n c) as E
      by done. rewrite E. cbn [index set_pool_index nitems].
    assert (items_of (pool s) (index (pool s) + 1) b =
            items_of (pool s) (index (pool s)) b ++ [b + align + index (pool s) * size (pool s)]) as ->.
    { unfold items_of. rewrite seqZ_app by lia. rewrite fmap_app. done. }
    rewrite <- (app_assoc _ [_]). cbn [app]. rewrite <- !Permutation_middle. by constructor.
Qed.

(** A new block with its first item. *)
Lemma items_block s bl live b s' :
  pool_ok s bl [] live -> freeItems (pool s) = 0 -> index (pool s) = nitems (pool s) ->
  ILMalloc (system s) (block_size (pool s)) = Some b ->
  s' = mkPoolState (set_pool_index 1 (set_blocks b (pool s))) (<[b := blocks (pool s)]> (memory s)) (<[b := block_size (pool s)]> (system s)) ->
  pool_ok s' (b :: bl) [] (b + align :: live) /\ b <> 0 /\ untouched live s s'.
Proof.
  intros Hok Hfree Ei Em ->. pose proof align_pos as Hal. pose proof (ok_fits _ _ _ _ Hok) as Hf.
  assert (0 < block_size (pool s)) as Hbs by (destruct Hf as (? & _ & ? & _); unfold block_size; nia).
  destruct (malloc_ok _ _ _ Hbs Em) as (Hb0 & Hba & Hnew & Hapart).
  assert (b ∉ bl) as Hbl by (intros Hin; destruct (ok_block _ _ _ _ Hok b Hin) as [E _]; congruence).
  assert (others !! b = None) as Hbo by (rewrite <- (ok_others _ _ _ _ Hok b Hbl); done).
  assert (forall c k, others !! c = Some k -> c ∉ bl) as Hoth.
  { intros c k Ec Hin. destruct (ok_block _ _ _ _ Hok c Hin) as (_ & E & _). congruence. }
  split; [| split; [lia |]].
  - destruct Hok as [_ [Hi _] Hb Hfr Hnd Hbk Hap Hot Hfo Hit]. constructor; cbn [pool memory system blocks freeItems set_pool_index set_blocks].
    + exact Hf.
    + split; [cbn; destruct Hf as (_ & _ & ? & _); lia | done].
    + apply linked_cons; [done | done | lia].
    + done.
    + by apply NoDup_cons.
    + intros c Hc. apply elem_of_cons in Hc as [-> | Hc]; [by rewrite lookup_insert_eq |].
      rewrite lookup_insert_ne by (intros ->; done). by apply Hbk.
    + change (block_size (set_pool_index 1 (set_blocks b (pool s)))) with (block_size (pool s)).
      assert (forall c, c ∈ bl -> b + block_size (pool s) <= c \/ c + block_size (pool s) <= b) as Hbc
        by (intros c Hc; apply Hapart, Hbk, Hc).
      intros c d [-> | Hc]%elem_of_cons [-> | Hd]%elem_of_cons Hne; [done | by apply Hbc | destruct (Hbc c Hc); auto | by apply Hap].
    + intros a Ha. apply not_elem_of_cons in Ha as [Hab Ha]. rewrite lookup_insert_ne by done. by apply Hot.
    + change (block_size (set_pool_index 1 (set_blocks b (pool s)))) with (block_size (pool s)).
      intros c d k [-> | Hc]%elem_of_cons Ed; [| by eapply Hfo]. apply Hapart. by rewrite (Hot d (Hoth d k Ed)).
    + cbn [app items]. change (items_of (set_pool_index 1 (set_blocks b (pool s)))) with (items_of (pool s)).
      cbn [index set_pool_index set_blocks nitems]. unfold items_of at 1.
      change (seqZ 0 1) with [0]. cbn [fmap list_fmap app]. rewrite Z.mul_0_l, Z.add_0_r. constructor. rewrite Hit. destruct bl as [| c bl]; [done |]. cbn [items]. by rewrite Ei.
  - split; cbn [memory]; intros; apply lookup_insert_ne.
    + intros <-. destruct (ok_item _ _ _ _ a Hok) as (c & Hc & H1 & H2 & _); [apply elem_of_app; by right |].
      destruct Hf as (? & _ & ? & _ & ?).
      destruct (Hapart c _ (proj1 (ok_block _ _ _ _ Hok c Hc))); [| lia]. unfold block_size in *. nia.
    + intros <-. destruct (Hapart b0 k); [| nia..]. by rewrite (ok_others _ _ _ _ Hok b0 (Hoth _ _ H)).
Qed.

Lemma alloc_ok s bl fl live :
  pool_ok s bl fl live ->
  exists r s', ILMemPoolAllocItem align ILMalloc s = Done r s' /\ untouched live s s' /\
    if r =? 0 then s' = s /\ fl = [] /\ index (pool s) = nitems (pool s) /\ ILMalloc (system s) (block_size (pool s)) = None
    else exists bl' fl', pool_ok s' bl' fl' (r :: live).
Proof.
  intros Hok. pose proof align_pos as Hal. pose proof (ok_fits _ _ _ _ Hok) as Hf. pose proof (ok_index _ _ _ _ Hok) as [Hi Hnil].
  pose proof (ok_free _ _ _ _ Hok) as Hfr. destruct Hf as (Hs & _ & Hn & Hbs & _). unfold block_size, IL_POOL_BLOCK_SIZE in Hbs.
  assert (0 <= index (pool s) * size (pool s) <= size (pool s) * nitems (pool s)) as Hmul by nia.
  unfold ILMemPoolAllocItem. rewrite (bind_done (get pool) _ s (pool s) s eq_refl).
  destruct fl as [| a fl].
  - cbn in Hfr. rewrite Hfr. cbn [Z.eqb negb]. destruct (Z.ltb_spec (index (pool s)) (nitems (pool s))) as [Hlt | Hge].
    + destruct bl as [| b bl]; [rewrite Hnil in Hlt by done; lia |].
      destruct (ok_blocks _ _ _ _ Hok) as (Eb & _). rewrite Eb, uint32_small by zlia.
      pose proof (items_next s b bl [] live Hok Hlt) as Hok'. eexists _, _. split; [done |]. split; [by apply untouched_same |].
      pose proof (proj1 (ok_gives _ _ _ _ _ Hok')). rewrite (proj2 (Z.eqb_neq _ _)) by lia. by eexists _, _.
    + assert (index (pool s) = nitems (pool s)) as Ei by lia. rewrite uint32_small by zlia.
      fold (block_size (pool s)). unfold malloc. rewrite bind_assoc, (bind_done (get system) _ s (system s) s eq_refl).
      destruct (ILMalloc (system s) (block_size (pool s))) as [b |] eqn:Em; [| exists 0, s; split; [done |]; split; [by apply untouched_same | done]].
      destruct (items_block s bl live b _ Hok Hfr Ei Em eq_refl) as (Hok' & Hb0 & Hu).
      eexists (b + align), _. split; [| split; [exact Hu |]].
      * rewrite bind_assoc, (bind_done (modify _) _ s tt _ eq_refl). cbn beta. rewrite (bind_done (mret b) _ _ b _ eq_refl).
        rewrite (proj2 (Z.eqb_neq b 0)) by done. reflexivity.
      * pose proof (proj1 (ok_gives _ _ _ _ _ Hok')). rewrite (proj2 (Z.eqb_neq _ _)) by lia. by eexists _, _.
  - destruct Hfr as (Ef & Ha & next & Em & Hfr). rewrite Ef, (proj2 (Z.eqb_neq a 0)) by done. cbn [negb].
    rewrite (bind_done _ _ _ _ _ (load_pointer_run _ _ _ Em)). eexists _, _. split; [done |]. split; [by apply untouched_same |].
    rewrite (proj2 (Z.eqb_neq a 0)) by done. exists bl, fl. destruct Hok as [Hf' Hi' Hb _ Hnd Hbk Hap Hot Hfo Hit].
    constructor; try done. rewrite <- Permutation_middle. exact Hit.
Qed.

(** A freed item is the first of the list. *)
Lemma free_ok s bl fl l1 a l2 :
  pool_ok s bl fl (l1 ++ a :: l2) ->
  exists s', ILMemPoolFree a s = Done tt s' /\ pool_ok s' bl (a :: fl) (l1 ++ l2) /\ untouched (l1 ++ l2) s s'.
Proof.
  intros Hok. assert (a ∈ l1 ++ a :: l2) as Hin by (apply elem_of_app; right; by left).
  destruct (live_not_list s bl fl _ a a Hok Hin) as [Hbl Hfl]; [destruct (ok_fits _ _ _ _ Hok); lia |].
  eexists. split; [reflexivity |].
  destruct (ok_item _ _ _ _ a Hok) as (b & Hb & H1 & H2 & _); [apply elem_of_app; by right |].
  pose proof (items_nodup _ _ _ _ Hok) as Hnodup. pose proof align_pos as Hal. destruct (ok_block _ _ _ _ Hok b Hb) as (_ & _ & Hb0 & _).
  pose proof (ok_fits _ _ _ _ Hok) as (_ & _ & _ & _ & Hsz).
  split; [| split; cbn [set_pool set_memory memory]; [intros c x Hc Hx | intros c k x Hc Hx]; apply lookup_insert_ne; intros <-].
  - destruct Hok as [Hf Hi Hbl' Hfr Hnd Hbk Hap Hot Hfo Hit]. constructor; try done; cbn [pool memory set_pool set_memory set_freeItems blocks freeItems].
    + by apply linked_insert.
    + apply linked_cons; [done | done | lia].
    + rewrite <- Hit. cbn [app]. by rewrite <- !Permutation_middle.
  - assert (c <> a) as Hne.
    { intros ->. apply NoDup_app in Hnodup as (_ & _ & Hnd). rewrite <- Permutation_middle in Hnd.
      by apply NoDup_cons in Hnd as [Hnd _]. }
    destruct (items_apart s bl fl _ a c Hok) as [? | ?]; [apply elem_of_app; by right | | done | lia | lia].
    apply elem_of_app. right. apply elem_of_app in Hc as [|]; apply elem_of_app; [by left | by right; right].
  - pose proof (ok_fits _ _ _ _ Hok) as (Hs & _). destruct (ok_foreign _ _ _ _ Hok b c k Hb Hc); lia.
Qed.

Lemma ILFree_run a k s :
  system s !! a = Some k -> ILFree a s = Done tt (mkPoolState (pool s) (memory s) (delete a (system s))).
Proof. intros E. unfold ILFree. rewrite (bind_done (get system) _ s (system s) s eq_refl). by rewrite E. Qed.

Definition delete_all (l : list Z) (m : gmap Z Z) : gmap Z Z := foldl (fun m b => delete b m) m l.

(** The blocks of a list go back to the system. *)
Lemma free_blocks_run bl fuel start s :
  linked (memory s) start bl -> NoDup bl -> (forall b, b ∈ bl -> is_Some (system s !! b)) -> (length bl <= fuel)%nat ->
  free_blocks fuel start s = Done tt (mkPoolState (pool s) (memory s) (delete_all bl (system s))).
Proof.
  revert fuel start s. induction bl as [| b bl IH]; intros fuel start s Hl Hnd Hs Hf.
  { cbn in Hl. subst start. destruct s. by destruct fuel. }
  destruct Hl as (-> & Hb & next & Em & Hl). cbn in Hf. destruct fuel as [| fuel]; [lia |].
  cbn [free_blocks]. rewrite (proj2 (Z.eqb_neq b 0)) by done. rewrite (bind_done _ _ _ _ _ (load_pointer_run _ _ _ Em)).
  apply NoDup_cons in Hnd as [Hbl Hnd]. destruct (Hs b ltac:(by left)) as [k Ek].
  rewrite (bind_done _ _ _ _ _ (ILFree_run _ _ _ Ek)).
  rewrite (IH fuel next (mkPoolState (pool s) (memory s) (delete b (system s)))); [| done | done | | lia].
  - done.
  - intros c Hc. cbn. rewrite lookup_delete_ne by (intros ->; done). apply Hs. by right.
Qed.

Lemma lookup_delete_all l (m : gmap Z Z) a : delete_all l m !! a = if decide (a ∈ l) then None else m !! a.
Proof.
  unfold delete_all. revert m. induction l as [| b l IH]; intros m; cbn [foldl]; [done |]. rewrite IH.
  destruct (decide (a = b)) as [-> | Hne].
  - rewrite lookup_delete_eq, (decide_True (P := b ∈ b :: l)) by (by left). by destruct (decide _).
  - rewrite lookup_delete_ne by done. apply decide_ext. rewrite elem_of_cons. tauto.
Qed.

(** There are blocks of the pool in the system beside the others. *)
Lemma system_dom s bl fl live : pool_ok s bl fl live -> dom (system s) = list_to_set bl ∪ dom others.
Proof.
  intros Hok. apply set_eq. intros a. rewrite elem_of_union, elem_of_list_to_set, !elem_of_dom.
  destruct (decide (a ∈ bl)) as [Ha | Ha].
  - destruct (ok_block _ _ _ _ Hok a Ha) as [-> _]. split; [by left | done].
  - rewrite (ok_others _ _ _ _ Hok a Ha). tauto.
Qed.
Lemma system_size s bl fl live : pool_ok s bl fl live -> base.size (system s) = (length bl + base.size others)%nat.
Proof.
  intros Hok. rewrite <- (size_dom (system s)), <- (size_dom others), (system_dom _ _ _ _ Hok).
  rewrite size_union, size_list_to_set; [done | by destruct Hok |].
  intros a Ha%elem_of_list_to_set (k & Ek)%elem_of_dom. destruct (ok_block _ _ _ _ Hok a Ha) as (_ & E & _). congruence.
Qed.

Lemma block_fuel_run s : block_fuel s = Done (base.size (system s)) s.
Proof. done. Qed.

(** All blocks go back, and nothing else. *)
Lemma pool_destroy_ok s bl fl live :
  pool_ok s bl fl live -> exists s', ILMemPoolDestroy s = Done tt s' /\ system s' = others /\ memory s' = memory s.
Proof.
  intros Hok. unfold ILMemPoolDestroy. rewrite (bind_done _ _ _ _ _ (block_fuel_run s)), (bind_done (get pool) _ s (pool s) s eq_refl).
  rewrite (bind_done _ _ _ _ _ (free_blocks_run bl (base.size (system s)) (blocks (pool s)) s (ok_blocks _ _ _ _ Hok) (ok_nodup _ _ _ _ Hok)
    (fun b Hb => mk_is_Some _ _ (proj1 (ok_block _ _ _ _ Hok b Hb))) ltac:(rewrite (system_size _ _ _ _ Hok); lia))).
  eexists. split; [reflexivity |]. split; [| done]. cbn [set_pool system]. apply map_eq. intros a. rewrite lookup_delete_all.
  destruct (decide (a ∈ bl)) as [Ha | Ha].
  - by destruct (ok_block _ _ _ _ Hok a Ha) as (_ & -> & _).
  - by apply (ok_others _ _ _ _ Hok).
Qed.

(** All items are free; the first block is kept. *)
Lemma clear_ok s bl fl live :
  pool_ok s bl fl live -> exists s' bl', ILMemPoolClear s = Done tt s' /\ pool_ok s' bl' [] [] /\ untouched [] s s'.
Proof.
  intros Hok. unfold ILMemPoolClear. rewrite (bind_done (get pool) _ s (pool s) s eq_refl).
  pose proof (ok_blocks _ _ _ _ Hok) as Hbl. destruct bl as [| b bl].
  - cbn in Hbl. rewrite Hbl. cbn [Z.eqb negb]. eexists _, []. split; [reflexivity |]. split; [| by split].
    destruct Hok as [Hf Hi Hb Hfr Hnd Hbk Hap Hot Hfo Hit]. constructor; done.
  - destruct Hbl as (Eb & Hb0 & next & Em & Hl). rewrite Eb, (proj2 (Z.eqb_neq b 0)) by done. cbn [negb].
    pose proof (ok_nodup _ _ _ _ Hok) as Hnd. apply NoDup_cons in Hnd as [Hbn Hnd].
    assert (forall c, c ∈ b :: bl -> is_Some (system s !! c)) as Hsome
      by (intros c Hc; destruct (ok_block _ _ _ _ Hok c Hc) as [-> _]; done).
    assert ((_ ← (fuel ← block_fuel; block ← load_pointer b; _ ← free_blocks fuel block; _ ← store_pointer b 0; with_pool (set_pool_index 0));
             with_pool (set_freeItems 0)) s =
            Done tt (mkPoolState (set_freeItems 0 (set_pool_index 0 (pool s))) (<[b := 0]> (memory s)) (delete_all bl (system s)))) as ->.
    { rewrite bind_assoc, (bind_done _ _ _ _ _ (block_fuel_run s)). rewrite bind_assoc, (bind_done _ _ _ _ _ (load_pointer_run _ _ _ Em)).
      rewrite bind_assoc, (bind_done _ _ _ _ _ (free_blocks_run bl (base.size (system s)) next s Hl Hnd (fun c Hc => Hsome c (list_elem_of_further _ _ _ Hc))
        ltac:(rewrite (system_size _ _ _ _ Hok); cbn; lia))). reflexivity. }
    eexists _, [b]. split; [reflexivity |]. destruct (ok_block _ _ _ _ Hok b ltac:(by left)) as (Es & Eo & Hbp & Hba).
    split; [| split; [intros a x Ha; by apply not_elem_of_nil in Ha |]].
    + destruct Hok as [Hf Hi Hb Hfr _ Hbk Hap Hot Hfo Hit].
      assert (forall c, c ∈ [b] -> c = b) as Hone by (intros c Hc; by apply list_elem_of_singleton in Hc).
      constructor; cbn [pool memory system blocks freeItems set_pool_index set_freeItems].
      * exact Hf.
      * split; [cbn; destruct Hf as (_ & _ & ? & _); lia | done].
      * split; [done |]. split; [done |]. exists 0. by rewrite lookup_insert_eq.
      * done.
      * apply NoDup_singleton.
      * intros c ->%Hone. rewrite lookup_delete_all, decide_False by done. done.
      * intros c d ->%Hone ->%Hone. done.
      * intros a Ha. rewrite lookup_delete_all. rewrite list_elem_of_singleton in Ha.
        destruct (decide (a ∈ bl)) as [Har | Har].
        -- by destruct (Hbk a ltac:(by right)) as (_ & -> & _).
        -- apply Hot. by apply not_elem_of_cons.
      * intros c d k ->%Hone. apply Hfo. by left.
      * done.
    + intros c k x Hc Hx. apply lookup_insert_ne. intros <-. pose proof align_pos.
      destruct (ok_fits _ _ _ _ Hok) as (? & _ & ? & _).
      destruct (ok_foreign _ _ _ _ Hok b c k ltac:(by left) Hc); unfold block_size in *; nia.
Qed.

(** The client, or [ILMemZero], writes inside an item. *)
Lemma write_ok s bl fl live a m :
  pool_ok s bl fl live -> a ∈ live -> (forall x, ~ (a <= x < a + size (pool s)) -> m !! x = memory s !! x) ->
  pool_ok (set_memory m s) bl fl live /\ (forall l, (forall c, c ∈ l -> c ∈ live /\ c <> a) -> untouched l s (set_memory m s)).
Proof.
  intros Hok Ha Hm. split.
  - assert (forall x, x ∈ bl \/ x ∈ fl -> m !! x = memory s !! x) as Hsame.
    { intros x Hx. apply Hm. intros Hr. destruct (live_not_list s bl fl live a x Hok Ha Hr). tauto. }
    destruct Hok as [Hf Hi Hb Hfr Hnd Hbk Hap Hot Hfo Hit]. constructor; try done; cbn [pool memory set_memory];
      (eapply linked_agree; [done |]); auto.
  - intros l Hl. split; cbn [memory set_memory].
    + pose proof (ok_fits _ _ _ _ Hok) as (_ & _ & _ & _ & Hsz). intros c x Hc Hx. apply Hm. intros Hr. destruct (Hl c Hc) as [Hcl Hne].
      destruct (items_apart s bl fl live a c Hok) as [? | ?]; try (apply elem_of_app; by right); [by intros -> | lia | lia].
    + intros c k x Hc Hx. apply Hm. intros Hr. pose proof align_pos.
      destruct (ok_item s bl fl live a Hok ltac:(apply elem_of_app; by right)) as (b & Hb & H1 & H2 & _).
      destruct (ok_foreign _ _ _ _ Hok b c k Hb Hc); lia.
Qed.

Lemma lookup_zero_range a n (m : gmap Z Z) x :
  zero_range a n m !! x = if decide (a <= x < a + n) then Some 0 else m !! x.
Proof.
  unfold zero_range. rewrite lookup_union.
  destruct (decide (a <= x < a + n)) as [Hx | Hx].
  - rewrite (elem_of_list_to_map_1 _ x 0); [by destruct (m !! x) | |].
    + rewrite <- list_fmap_compose. change (NoDup ((fun x => x) <$> seqZ a n)). rewrite list_fmap_id. apply NoDup_seqZ.
    + apply list_elem_of_fmap. exists x. split; [done |]. by apply elem_of_seqZ.
  - rewrite not_elem_of_list_to_map_1; [by destruct (m !! x) |]. rewrite <- list_fmap_compose.
    change (x ∉ (fun x => x) <$> seqZ a n). rewrite list_fmap_id, elem_of_seqZ. lia.
Qed.

(** ** The start *)

Context (size_ok : 0 < sz <= IL_POOL_BLOCK_SIZE - align) (hint_ok : 0 <= hint).

Lemma rounded_up m :
  0 < m <= IL_POOL_BLOCK_SIZE - align ->
  m <= rounded align m <= IL_POOL_BLOCK_SIZE - align /\ rounded align m mod align = 0.
Proof.
  unfold IL_POOL_BLOCK_SIZE. destruct alignment_ok as (k & Hk & Ek). rewrite Ek. intros Hm. unfold rounded.
  assert (uint32 (Z.lnot (2 ^ k - 1)) = Z.shiftl (Z.ones (32 - k)) k) as ->.
  { assert (k = 2 \/ k = 3 \/ k = 4) as [-> | [-> | ->]] by lia; reflexivity. }
  assert (m + 2 ^ k - 1 < 2 ^ 32) by (assert (k = 2 \/ k = 3 \/ k = 4) as [-> | [-> | ->]] by lia; zlia).
  assert (0 < 2 ^ k) as Hp by (apply Z.pow_pos_nonneg; lia).
  rewrite land_field by lia. replace (k + (32 - k)) with 32 by lia. rewrite uint32_small by lia.
  rewrite (Z.mod_small _ (2 ^ 32)) by lia. split; [| apply Z.mod_mul; lia].
  assert (k = 2 \/ k = 3 \/ k = 4) as [-> | [-> | ->]] by lia; norm_pow; lia.
Qed.

Lemma init_ok s :
  system s = others ->
  exists s', ILMemPoolInit align sz hint s = Done tt s' /\ pool_ok s' [] [] [] /\ memory s' = memory s.
Proof.
  intros Es. destruct (rounded_up sz size_ok) as [Hr Hra]. unfold ILMemPoolInit.
  rewrite (proj2 (Z.eqb_neq _ 0)) by lia. cbn zeta. set (size := rounded align sz) in *.
  set (max := (IL_POOL_BLOCK_SIZE - align) / size). set (k := if negb (hint =? 0) && (hint <? max) then hint else max).
  assert (0 < k /\ k * size <= IL_POOL_BLOCK_SIZE - align) as [Hk Hks].
  { assert (0 < max) as Hmax by (apply Z.div_str_pos; lia).
    assert (max * size <= IL_POOL_BLOCK_SIZE - align) as Hms by (rewrite Z.mul_comm; apply Z.mul_div_le; lia).
    subst k. destruct (Z.eqb_spec hint 0), (Z.ltb_spec hint max); cbn [negb andb]; (split; [lia | nia]). }
  eexists. split; [reflexivity |]. split; [| done]. constructor; cbn [pool memory system set_pool blocks freeItems index nitems MemPool.size].
  - unfold pool_fits, block_size. cbn [MemPool.size nitems]. split_and!; [lia | done | lia | lia | lia].
  - split; [lia | done].
  - done.
  - done.
  - constructor.
  - intros b Hb. by apply not_elem_of_nil in Hb.
  - intros b c Hb. by apply not_elem_of_nil in Hb.
  - intros a _. by rewrite Es.
  - intros b c k' Hb. by apply not_elem_of_nil in Hb.
  - done.
Qed.

Lemma calloc_ok s bl fl live :
  pool_ok s bl fl live ->
  exists r s1 s', ILMemPoolAllocItem align ILMalloc s = Done r s1 /\ ILMemPoolCallocItem align ILMalloc s = Done r s' /\
    s' = (if r =? 0 then s1 else set_memory (zero_range r (size (pool s1)) (memory s1)) s1).
Proof.
  intros Hok. destruct (alloc_ok s bl fl live Hok) as (r & s1 & E & _ & _). exists r, s1. eexists. split; [done |].
  split; [| reflexivity]. unfold ILMemPoolCallocItem. rewrite (bind_done _ _ _ _ _ E), (bind_done (get pool) _ s1 (pool s1) s1 eq_refl).
  by destruct (r =? 0).
Qed.

(** ** Any client *)

(** What a client has done with a pool for items of [sz] bytes, and the items it has. *)
Inductive client : pool_state -> list Z -> Prop :=
| client_init s s' :
    system s = others -> ILMemPoolInit align sz hint s = Done tt s' -> client s' []
| client_alloc s live r s' :
    client s live -> ILMemPoolAllocItem align ILMalloc s = Done r s' ->
    client s' (if r =? 0 then live else r :: live)
| client_calloc s live r s' :
    client s live -> ILMemPoolCallocItem align ILMalloc s = Done r s' ->
    client s' (if r =? 0 then live else r :: live)
| client_free s l1 a l2 s' :
    client s (l1 ++ a :: l2) -> ILMemPoolFree a s = Done tt s' -> client s' (l1 ++ l2)
| client_write s live a x v :
    client s live -> a ∈ live -> a <= x < a + sz -> client (set_memory (<[x := v]> (memory s)) s) live
| client_clear s live s' :
    client s live -> ILMemPoolClear s = Done tt s' -> client s' [].

(** A request fails only if the system does not give a block and no item is free. *)
Definition full (s : pool_state) (live : list Z) : Prop :=
  ILMalloc (system s) (block_size (pool s)) = None /\
  Z.of_nat (length live) = nitems (pool s) * (Z.of_nat (base.size (system s)) - Z.of_nat (base.size others)).

Definition alloc_safe (s : pool_state) (live : list Z) : Prop :=
  exists r s', ILMemPoolAllocItem align ILMalloc s = Done r s' /\ untouched live s s' /\
    if r =? 0 then full s live else gives s' live r.
Definition calloc_safe (s : pool_state) (live : list Z) : Prop :=
  exists r s', ILMemPoolCallocItem align ILMalloc s = Done r s' /\ untouched live s s' /\
    if r =? 0 then full s live else gives s' live r /\ forall x, r <= x < r + size (pool s') -> memory s' !! x = Some 0.
Definition free_safe (s : pool_state) (live : list Z) : Prop :=
  forall l1 a l2, live = l1 ++ a :: l2 -> exists s', ILMemPoolFree a s = Done tt s' /\ untouched (l1 ++ l2) s s'.
Definition clear_safe (s : pool_state) : Prop :=
  exists s', ILMemPoolClear s = Done tt s' /\ untouched [] s s'.
Definition destroy_safe (s : pool_state) : Prop :=
  exists s', ILMemPoolDestroy s = Done tt s' /\ system s' = others /\ memory s' = memory s.

Lemma length_items_of p n b : length (items_of p n b) = Z.to_nat n.
Proof. unfold items_of. by rewrite length_fmap, length_seqZ. Qed.

Lemma full_length s bl live :
  pool_ok s bl [] live -> index (pool s) = nitems (pool s) ->
  Z.of_nat (length live) = nitems (pool s) * (Z.of_nat (base.size (system s)) - Z.of_nat (base.size others)).
Proof.
  intros Hok Ei. rewrite (system_size _ _ _ _ Hok). pose proof (ok_items _ _ _ _ Hok) as Hit. cbn [app] in Hit.
  rewrite Hit. destruct (ok_fits _ _ _ _ Hok) as (_ & _ & Hn & _).
  assert (items (pool s) bl = bl ≫= items_of (pool s) (nitems (pool s))) as ->
    by (destruct bl; [done | cbn [items mbind list_bind]; by rewrite Ei]).
  clear -Hn. induction bl as [| b bl IH]; [cbn; lia |]. cbn [mbind list_bind length].
  rewrite length_app, length_items_of. lia.
Qed.

(** The items that are zeroed. *)
Lemma zero_ok s bl fl live r :
  pool_ok s bl fl (r :: live) ->
  let s' := set_memory (zero_range r (size (pool s)) (memory s)) s in
  pool_ok s' bl fl (r :: live) /\ untouched live s s'.
Proof.
  intros Hok. destruct (write_ok s bl fl (r :: live) r (zero_range r (size (pool s)) (memory s)) Hok) as [Hok' Hu].
  - by left.
  - intros x Hx. rewrite lookup_zero_range. by rewrite decide_False.
  - split; [done |]. apply Hu. intros c Hc. split; [by right |]. intros ->.
    pose proof (items_nodup _ _ _ _ Hok) as Hnd. apply NoDup_app in Hnd as (_ & _ & Hnd). by apply NoDup_cons in Hnd as [Hnd _].
Qed.

Lemma alloc_pool_ok s bl fl live r s' :
  pool_ok s bl fl live -> ILMemPoolAllocItem align ILMalloc s = Done r s' ->
  exists bl' fl', pool_ok s' bl' fl' (if r =? 0 then live else r :: live).
Proof.
  intros Hok Ea. destruct (alloc_ok s bl fl live Hok) as (r1 & s1 & E & _ & Hr). rewrite Ea in E. injection E as <- <-.
  destruct (r =? 0); [destruct Hr as (-> & _); by exists bl, fl | done].
Qed.

Lemma client_ok s live : client s live -> exists bl fl, pool_ok s bl fl live.
Proof.
  induction 1 as [s s' Es Hi | s live r s' _ (bl & fl & Hok) Ha | s live r s' _ (bl & fl & Hok) Ha
    | s l1 a l2 s' _ (bl & fl & Hok) Hf | s live a x v _ (bl & fl & Hok) Ha Hx | s live s' _ (bl & fl & Hok) Hc].
  - destruct (init_ok s Es) as (s1 & E & Hok & _). rewrite Hi in E. injection E as <-. by exists [], [].
  - by eapply alloc_pool_ok.
  - destruct (calloc_ok s bl fl live Hok) as (r1 & s1 & s2 & E1 & E2 & ->). rewrite Ha in E2. injection E2 as <- ->.
    destruct (alloc_pool_ok s bl fl live r s1 Hok E1) as (bl' & fl' & Hok').
    destruct (r =? 0); exists bl', fl'; [done | by apply zero_ok].
  - destruct (free_ok s bl fl l1 a l2 Hok) as (s1 & E & Hok' & _). rewrite Hf in E. injection E as <-. by exists bl, (a :: fl).
  - pose proof (ok_fits _ _ _ _ Hok) as (_ & _ & _ & _ & Hs).
    exists bl, fl. apply (write_ok s bl fl live a _ Hok Ha). intros y Hy. apply lookup_insert_ne. intros ->. lia.
  - destruct (clear_ok s bl fl live Hok) as (s1 & bl' & E & Hok' & _). rewrite Hc in E. injection E as <-. by exists bl', [].
Qed.

Lemma alloc_is_safe s bl fl live : pool_ok s bl fl live -> alloc_safe s live.
Proof.
  intros Hok. destruct (alloc_ok s bl fl live Hok) as (r & s' & E & Hu & Hr). exists r, s'. split; [done |]. split; [done |].
  destruct (r =? 0); [| destruct Hr as (bl' & fl' & Hok'); by apply (ok_gives s' bl' fl')].
  destruct Hr as (_ & -> & Ei & Em). split; [done | by apply (full_length s bl)].
Qed.

Lemma calloc_is_safe s bl fl live : pool_ok s bl fl live -> calloc_safe s live.
Proof.
  intros Hok. destruct (calloc_ok s bl fl live Hok) as (r & s1 & s2 & E1 & E2 & ->). exists r. eexists. split; [exact E2 |].
  destruct (alloc_ok s bl fl live Hok) as (r' & s' & E & Hu & Hr). rewrite E1 in E. injection E as <- <-.
  destruct (r =? 0).
  - split; [done |]. destruct Hr as (_ & -> & Ei & Em). split; [done | by apply (full_length s bl)].
  - destruct Hr as (bl' & fl' & Hok'). destruct (zero_ok s1 bl' fl' live r Hok') as [Hok2 [Hu1 Hu2]]. destruct Hu as [Hu3 Hu4].
    split; [split |].
    + intros a x Ha Hx. rewrite (Hu1 a x Ha Hx). by apply (Hu3 a).
    + intros b k x Hb Hx. rewrite (Hu2 b k x Hb Hx). by eapply Hu4.
    + split; [by apply (ok_gives _ bl' fl') |]. intros x Hx. cbn [memory set_memory]. rewrite lookup_zero_range. by rewrite decide_True.
Qed.

(** C24: A pool whose items fit into a block ([0 < sz <= IL_POOL_BLOCK_SIZE - align]) gives out memory that is its own;
    larger items do not, see [large_item_outside].  Whatever a client has done with such a pool (asked for items, given back
    items it had, written to its items, cleared the pool): the operations end without an access through a pointer that is
    not one; an item that is given out is aligned, large enough, inside a block that the system gave to the pool, and apart from all
    items the client has; what the client wrote to its items and the memory of others stay as they are; a request
    fails only when the system does not give a block and all items are out; and at the end all blocks
    go back to the system, and only those. *)
Theorem mem_pool_safe s live :
  client s live ->
  sz <= size (pool s) /\ alloc_safe s live /\ calloc_safe s live /\ free_safe s live /\ clear_safe s /\ destroy_safe s.
Proof.
  intros (bl & fl & Hok)%client_ok. split; [apply (ok_fits _ _ _ _ Hok) |].
  split; [by eapply alloc_is_safe |]. split; [by eapply calloc_is_safe |]. split; [| split].
  - intros l1 a l2 ->. destruct (free_ok s bl fl l1 a l2 Hok) as (s' & E & _ & Hu). by exists s'.
  - destruct (clear_ok s bl fl live Hok) as (s' & _ & E & _ & Hu). by exists s'.
  - by eapply pool_destroy_ok.
Qed.
End safe.

Lemma align_8 : exists k, 2 <= k <= 4 /\ 8 = 2 ^ k.
Proof. by exists 3. Qed.

(** A system that has one block to give. *)
Definition one_block (sys : gmap Z Z) (n : Z) : option Z := if bool_decide (sys = ∅) then Some 16 else None.
Definition no_pool (sys : gmap Z Z) : pool_state := mkPoolState (mkPool 0 0 0 0 0) ∅ sys.

Lemma one_block_ok sys n a :
  0 < n -> one_block sys n = Some a ->
  0 < a /\ a mod 8 = 0 /\ sys !! a = None /\ forall b k, sys !! b = Some k -> a + n <= b \/ b + k <= a.
Proof.
  intros _. unfold one_block. case_bool_decide as Hs; [| done]. intros [= <-]. subst sys. split_and!; [done | done | done |].
  intros b k Hb. by rewrite lookup_empty in Hb.
Qed.

(** The states of a client with a pool of two items of 16 bytes in a block: it gets both items,
    writes to the first and gives it back. *)
Definition state_of {R} (r : outcome pool_state R) : pool_state := match r with Done _ s => s | _ => no_pool ∅ end.
Definition pool_0 : pool_state := state_of (ILMemPoolInit 8 16 2 (no_pool ∅)).
Definition pool_1 : pool_state := state_of (ILMemPoolCallocItem 8 one_block pool_0).
Definition pool_2 : pool_state := state_of (ILMemPoolAllocItem 8 one_block pool_1).
Definition pool_3 : pool_state := set_memory (<[30 := 7]> (memory pool_2)) pool_2.
Definition pool_4 : pool_state := state_of (ILMemPoolFree 24 pool_3).

Example mem_pool_safe_witness :
  client 8 one_block ∅ 16 2 pool_4 [40] /\ 16 <= size (pool pool_4) /\
  alloc_safe 8 one_block ∅ 16 pool_4 [40] /\ calloc_safe 8 one_block ∅ 16 pool_4 [40] /\ free_safe ∅ 16 pool_4 [40] /\
  clear_safe ∅ 16 pool_4 /\ destroy_safe ∅ pool_4.
Proof.
  assert (client 8 one_block ∅ 16 2 pool_4 [40]) as Hc.
  { apply (client_free 8 one_block ∅ 16 2 pool_3 [40] 24 []); [| vm_compute; reflexivity].
    apply (client_write 8 one_block ∅ 16 2 pool_2 [40; 24] 24 30 7); [| by right; left | lia].
    apply (client_alloc 8 one_block ∅ 16 2 pool_1 [24] 40); [| vm_compute; reflexivity].
    apply (client_calloc 8 one_block ∅ 16 2 pool_0 [] 24); [| vm_compute; reflexivity].
    apply (client_init 8 one_block ∅ 16 2 (no_pool ∅)); vm_compute; reflexivity. }
  split; [exact Hc |].
  apply (mem_pool_safe 8 one_block align_8 one_block_ok ∅ 16 2
           ltac:(vm_compute; split; [reflexivity | discriminate]) ltac:(lia) _ _ Hc).
Defined.

(** Items that are larger than the blocks are not refused: a block has no room for any, and the first
    item is the memory behind it. *)
Definition large_1 : pool_state := state_of (ILMemPoolInit 8 5000 0 (no_pool ∅)).
Definition large_2 : pool_state := state_of (ILMemPoolAllocItem 8 one_block large_1).
Example large_item_outside :
  ILMemPoolInit 8 5000 0 (no_pool ∅) = Done tt large_1 /\ ILMemPoolAllocItem 8 one_block large_1 = Done 24 large_2 /\
  system large_2 = {[16 := 8]} /\ size (pool large_2) = 5000.
Proof. vm_compute. auto. Qed.

