(* ===== verification/Sha1.v ===== *)
(** * Sha1: message digests

    Models src/gcc/cil/support/sha1.c: the context of a digest, adding data to it piece by
    piece, and the digest at the end.  [ILUInt32] has 32 bits, so [TRUNCLONG] changes
    nothing that the type does not. *)
From S2P Require Import Prelude.

(** The registers of a context. *)
Record sha_registers := mkRegisters { A : Z; B : Z; C : Z; D : Z; E : Z }.

Record ILSHAContext := mkSHA {
  input : list Z;
  inputLen : Z;
  registers : sha_registers;
  totalLen : Z
}.

Definition set_input (l : list Z) (n : Z) (sha : ILSHAContext) : ILSHAContext :=
  mkSHA l n (registers sha) (totalLen sha).
Definition set_registers (r : sha_registers) (sha : ILSHAContext) : ILSHAContext :=
  mkSHA (input sha) (inputLen sha) r (totalLen sha).

(** ** Operations on words *)

Definition TRUNCLONG (x : Z) : Z := uint32 x.
Definition ROTATE (x n : Z) : Z := Z.lor (TRUNCLONG (Z.shiftl x n)) (Z.shiftr x (32 - n)).
Definition FROUND1 (x y z : Z) : Z := Z.lor (Z.land x y) (Z.land (TRUNCLONG (Z.lnot x)) z).
Definition FROUND2 (x y z : Z) : Z := Z.lxor (Z.lxor x y) z.
Definition FROUND3 (x y z : Z) : Z := Z.lor (Z.lor (Z.land x y) (Z.land x z)) (Z.land y z).
Definition FROUND4 (x y z : Z) : Z := Z.lxor (Z.lxor x y) z.

Definition KROUND1 := 0x5A827999.
Definition KROUND2 := 0x6ED9EBA1.
Definition KROUND3 := 0x8F1BBCDC.
Definition KROUND4 := 0xCA62C1D6.

(** The buffer of a new context keeps what was there. *)
Definition ILSHAInit (sha : ILSHAContext) : ILSHAContext :=
  mkSHA (input sha) 0 (mkRegisters 0x67452301 0xEFCDAB89 0x98BADCFE 0x10325476 0xC3D2E1F0) 0.

(** ** One block *)

(** [l[i]] of an array that is in bounds. *)
Definition at_ (l : list Z) (i : nat) : Z := nth i l 0.

Definition unpack_word (block : list Z) (t : nat) : Z :=
  Z.lor (Z.lor (Z.lor (uint32 (Z.shiftl (at_ block (t * 4)) 24)) (uint32 (Z.shiftl (at_ block (t * 4 + 1)) 16)))
               (uint32 (Z.shiftl (at_ block (t * 4 + 2)) 8))) (at_ block (t * 4 + 3)).

(** The loop that extends [W] from [t] words. *)
Definition extend_word (W : list Z) (t : nat) : list Z :=
  let temp := Z.lxor (Z.lxor (Z.lxor (at_ W (t - 3)) (at_ W (t - 8))) (at_ W (t - 14))) (at_ W (t - 16)) in
  W ++ [ROTATE temp 1].
Definition words (block : list Z) : list Z := foldl extend_word (unpack_word block <$> seq 0 16) (seq 16 64).

(** A turn of the loop of a round, and the loop. *)
Definition round_step (F : Z -> Z -> Z -> Z) (K : Z) (W : list Z) (first : nat) (r : sha_registers) (t : nat)
    : sha_registers :=
  let temp := TRUNCLONG (ROTATE (A r) 5 + F (B r) (C r) (D r) + E r + at_ W (t + first) + K) in
  mkRegisters temp (A r) (ROTATE (B r) 30) (C r) (D r).
Definition round (F : Z -> Z -> Z -> Z) (K : Z) (W : list Z) (first : nat) (r : sha_registers) : sha_registers :=
  foldl (round_step F K W first) r (seq 0 20).

Definition ProcessBlock (sha : ILSHAContext) (block : list Z) : ILSHAContext :=
  let W := words block in
  let r := registers sha in
  let r := round FROUND1 KROUND1 W 0 r in
  let r := round FROUND2 KROUND2 W 20 r in
  let r := round FROUND3 KROUND3 W 40 r in
  let r := round FROUND4 KROUND4 W 60 r in
  let s := registers sha in
  set_registers (mkRegisters (TRUNCLONG (A s + A r)) (TRUNCLONG (B s + B r)) (TRUNCLONG (C s + C r))
                             (TRUNCLONG (D s + D r)) (TRUNCLONG (E s + E r))) sha.

(** ** Data *)

(** [ILMemCpy] into an array. *)
Definition copy_at (l : list Z) (pos : nat) (data : list Z) : list Z :=
  take pos l ++ data ++ drop (pos + length data) l.

(** The loop; it gives [None] where it does not end. *)
Fixpoint data_loop (fuel : nat) (sha : ILSHAContext) (buffer : list Z) : option ILSHAContext :=
  let len := Z.of_nat (length buffer) in
  if 0 <? len then
    match fuel with
    | O => None
    | S fuel =>
        if (inputLen sha =? 0) && (64 <=? len) then
          data_loop fuel (ProcessBlock sha (take 64 buffer)) (drop 64 buffer)
        else
          let templen := Z.to_nat (Z.min len (uint32 (64 - inputLen sha))) in
          let sha := set_input (copy_at (input sha) (Z.to_nat (inputLen sha)) (take templen buffer))
                               (uint32 (inputLen sha + Z.of_nat templen)) sha in
          let sha := if 64 <=? inputLen sha
                     then let sha := ProcessBlock sha (input sha) in set_input (input sha) 0 sha
                     else sha in
          data_loop fuel sha (drop templen buffer)
    end
  else Some sha.
Definition ILSHAData (sha : ILSHAContext) (buffer : list Z) : option ILSHAContext :=
  data_loop (length buffer)
    (mkSHA (input sha) (inputLen sha) (registers sha) (to_unsigned 64 (totalLen sha + Z.of_nat (length buffer)))) buffer.

(** ** The digest *)

Definition WriteLong (value : Z) : list Z :=
  [uchar (Z.shiftr value 24); uchar (Z.shiftr value 16); uchar (Z.shiftr value 8); uchar value].

Definition put (b : Z) (sha : ILSHAContext) : ILSHAContext :=
  set_input (copy_at (input sha) (Z.to_nat (inputLen sha)) [b]) (uint32 (inputLen sha + 1)) sha.

(** [while(sha->inputLen < n)] writes zeros: it makes as many turns as are missing to [n]. *)
Fixpoint put_zeros (turns : nat) (sha : ILSHAContext) : ILSHAContext :=
  match turns with O => sha | S turns => put_zeros turns (put 0 sha) end.
Definition zeros_to (n : Z) (sha : ILSHAContext) : ILSHAContext := put_zeros (Z.to_nat (n - inputLen sha)) sha.

(** The padding and the last blocks. *)
Definition finish (sha : ILSHAContext) : sha_registers :=
  let sha := if 56 <=? inputLen sha
             then let sha := zeros_to 64 (put 0x80 sha) in
                  let sha := ProcessBlock sha (input sha) in set_input (input sha) 0 sha
             else put 0x80 sha in
  let sha := zeros_to 56 sha in
  let totalBits := to_unsigned 64 (Z.shiftl (totalLen sha) 3) in
  let l := copy_at (copy_at (input sha) 56 (WriteLong (uint32 (Z.shiftr totalBits 32)))) 60 (WriteLong (uint32 totalBits)) in
  registers (ProcessBlock (set_input l (inputLen sha) sha) l).

Definition blank_context : ILSHAContext := mkSHA (replicate 64 0) 0 (mkRegisters 0 0 0 0 0) 0.

(** The digest, where one is asked for, and the context that is left. *)
Definition ILSHAFinalize (sha : ILSHAContext) (hash : bool) : option (list Z) * ILSHAContext :=
  (if hash then
     let r := finish sha in
     Some (WriteLong (A r) ++ WriteLong (B r) ++ WriteLong (C r) ++ WriteLong (D r) ++ WriteLong (E r))
   else None, blank_context).
