(* ===== verification/Sha1Correct.v ===== *)
(** * Sha1Correct: the digest is SHA-1

    The message digest of FIPS 180-1 on messages of bytes, and that the code computes
    it, whatever the pieces in which the message is given. *)
From S2P Require Import Prelude Sha1.
#[local] Open Scope Z_scope.

(** ** The standard *)

Module FIPS.

Definition rotl (n x : Z) : Z := (x * 2 ^ n) mod 2 ^ 32 + x / 2 ^ (32 - n).

(** The functions and constants of the rounds, by the number of the step. *)
Definition f (t : nat) (x y z : Z) : Z :=
  if (t <? 20)%nat then Z.lxor (Z.land x y) (Z.land (Z.lnot x) z)
  else if (t <? 40)%nat then Z.lxor (Z.lxor x y) z
  else if (t <? 60)%nat then Z.lxor (Z.lxor (Z.land x y) (Z.land x z)) (Z.land y z)
  else Z.lxor (Z.lxor x y) z.
Definition k (t : nat) : Z :=
  if (t <? 20)%nat then 0x5A827999 else if (t <? 40)%nat then 0x6ED9EBA1
  else if (t <? 60)%nat then 0x8F1BBCDC else 0xCA62C1D6.

(** A number of bytes in big-endian order. *)
Fixpoint be_bytes (n : nat) (x : Z) : list Z :=
  match n with O => [] | Datatypes.S n => x / 2 ^ (8 * Z.of_nat n) mod 2 ^ 8 :: be_bytes n x end.
Definition be_value (l : list Z) : Z := foldl (fun x b => x * 2 ^ 8 + b) 0 l.

(** A one, zeros, and the length: the whole is a multiple of 64 bytes. *)
Definition pad (message : list Z) : list Z :=
  let n := Z.of_nat (length message) in
  message ++ [0x80] ++ replicate (Z.to_nat ((55 - n) mod 64)) 0 ++ be_bytes 8 (8 * n).

(** The list in pieces of [n]. *)
Fixpoint pieces (count n : nat) (l : list Z) : list (list Z) :=
  match count with O => [] | Datatypes.S count => take n l :: pieces count n (drop n l) end.

(** The schedule, the last word first. *)
Definition extend (W : list Z) : list Z :=
  rotl 1 (Z.lxor (Z.lxor (Z.lxor (nth 2 W 0) (nth 7 W 0)) (nth 13 W 0)) (nth 15 W 0)) :: W.
Definition schedule (block : list Z) : list Z :=
  rev (Nat.iter 64 extend (rev (be_value <$> pieces 16 4 block))).

Definition step (r : sha_registers) (tw : nat * Z) : sha_registers :=
  let '(t, w) := tw in
  mkRegisters ((rotl 5 (A r) + f t (B r) (C r) (D r) + E r + w + k t) mod 2 ^ 32) (A r) (rotl 30 (B r)) (C r) (D r).
Definition compress (r : sha_registers) (block : list Z) : sha_registers :=
  let r' := foldl step r (zip (seq 0 80) (schedule block)) in
  mkRegisters ((A r + A r') mod 2 ^ 32) ((B r + B r') mod 2 ^ 32) ((C r + C r') mod 2 ^ 32)
              ((D r + D r') mod 2 ^ 32) ((E r + E r') mod 2 ^ 32).

Definition initial : sha_registers := mkRegisters 0x67452301 0xEFCDAB89 0x98BADCFE 0x10325476 0xC3D2E1F0.
Definition sha1 (message : list Z) : list Z :=
  let l := pad message in
  let r := foldl compress initial (pieces (length l / 64) 64 l) in
  be_bytes 4 (A r) ++ be_bytes 4 (B r) ++ be_bytes 4 (C r) ++ be_bytes 4 (D r) ++ be_bytes 4 (E r).

End FIPS.

(** The example of the standard, for the bytes "abc". *)
Example sha1_abc : FIPS.sha1 [97; 98; 99] =
  [0xA9; 0x99; 0x3E; 0x36; 0x47; 0x06; 0x81; 0x6A; 0xBA; 0x3E; 0x25; 0x71; 0x78; 0x50; 0xC2; 0x6C; 0x9C; 0xD0; 0xD8; 0x9D].
Proof. vm_compute. reflexivity. Qed.

(** ** Words *)

Definition is_word (x : Z) : Prop := 0 <= x < 2 ^ 32.

Lemma word_TRUNCLONG x : is_word (TRUNCLONG x).
Proof. apply (to_unsigned_range 32). lia. Qed.

Lemma word_bits x i : is_word x -> 32 <= i -> Z.testbit x i = false.
Proof. intros Hx Hi. rewrite <- (Z.mod_small x (2 ^ 32)) by done. apply Z.mod_pow2_bits_high. lia. Qed.

Lemma ROTATE_rotl x n : 0 <= n <= 32 -> is_word x -> ROTATE x n = FIPS.rotl n x.
Proof.
  intros Hn Hx. unfold is_word in Hx. unfold ROTATE, FIPS.rotl, TRUNCLONG, uint32, to_unsigned.
  rewrite Z.shiftl_mul_pow2, Z.shiftr_div_pow2 by lia.
  assert (2 ^ 32 = 2 ^ (32 - n) * 2 ^ n) as E32 by (rewrite <- Z.pow_add_r by lia; f_equal; lia).
  assert (0 < 2 ^ n /\ 0 < 2 ^ (32 - n)) as [Hp Hq] by (split; apply Z.pow_pos_nonneg; lia).
  apply (lor_disjoint n); [lia | |].
  - rewrite E32, Z.mul_mod_distr_r by lia. apply Z.mod_mul. lia.
  - rewrite E32 in Hx. split; [apply Z.div_pos; lia | apply Z.div_lt_upper_bound; lia].
Qed.

Lemma rotl_word n x : 0 <= n <= 32 -> is_word x -> is_word (FIPS.rotl n x).
Proof.
  intros Hn Hx. rewrite <- ROTATE_rotl by done. split.
  - apply Z.lor_nonneg. split; [apply word_TRUNCLONG | apply Z.shiftr_nonneg, Hx].
  - destruct (Z.lt_ge_cases (ROTATE x n) (2 ^ 32)) as [| Hge]; [done |]. exfalso.
    assert (forall i, 32 <= i -> Z.testbit (ROTATE x n) i = false) as Hb.
    { intros i Hi. unfold ROTATE. rewrite Z.lor_spec, Z.shiftr_spec, !word_bits by (apply word_TRUNCLONG || done || lia). done. }
    pose proof (Hb (Z.log2 (ROTATE x n))) as Hlog. rewrite Z.bit_log2 in Hlog by lia.
    assert (32 <= Z.log2 (ROTATE x n)) by (apply Z.log2_le_pow2; lia). by specialize (Hlog H).
Qed.

(** An equation between bit operations on words. *)
Ltac word_bitwise :=
  apply Z.bits_inj'; let i := fresh "i" in let Hi := fresh "Hi" in intros i Hi;
  destruct (Z.lt_ge_cases i 32);
  rewrite ?Z.lxor_spec, ?Z.lor_spec, ?Z.land_spec, ?Z.lnot_spec by lia;
  unfold TRUNCLONG, uint32, to_unsigned; rewrite ?Z.mod_pow2_bits_low, ?Z.mod_pow2_bits_high by lia;
  rewrite ?Z.lxor_spec, ?Z.lnot_spec by lia; rewrite ?word_bits by (done || lia);
  repeat match goal with |- context [Z.testbit ?x i] => destruct (Z.testbit x i) end; reflexivity.

Lemma FROUND1_f t x y z : (t < 20)%nat -> is_word x -> is_word y -> is_word z -> FROUND1 x y z = FIPS.f t x y z.
Proof. intros Ht Hx Hy Hz. unfold FIPS.f. rewrite (proj2 (Nat.ltb_lt _ _)) by lia. unfold FROUND1. word_bitwise. Qed.
Lemma FROUND3_maj x y z : FROUND3 x y z = Z.lxor (Z.lxor (Z.land x y) (Z.land x z)) (Z.land y z).
Proof.
  unfold FROUND3. apply Z.bits_inj'. intros i Hi. rewrite !Z.lxor_spec, !Z.lor_spec, !Z.land_spec.
  destruct (Z.testbit x i), (Z.testbit y i), (Z.testbit z i); reflexivity.
Qed.

Lemma lxor_word x y : is_word x -> is_word y -> is_word (Z.lxor x y).
Proof.
  intros Hx Hy. assert (Z.lxor x y = TRUNCLONG (Z.lxor x y)) as ->; [word_bitwise | apply word_TRUNCLONG].
Qed.

(** ** The schedule *)

Lemma pieces_seq count n l : FIPS.pieces count n l = (fun t => take n (drop (t * n) l)) <$> seq 0 count.
Proof.
  revert l. induction count as [| count IH]; intros l; [done |]. cbn [FIPS.pieces seq fmap list_fmap].
  rewrite IH, <- seq_shift. f_equal. change (map Datatypes.S) with (fmap (M := list) Datatypes.S).
  rewrite <- list_fmap_compose. apply list_fmap_ext. intros ? t _. cbn. by rewrite drop_drop.
Qed.

Lemma take_four k l :
  (k + 4 <= length l)%nat -> take 4 (drop k l) = [nth k l 0; nth (k + 1) l 0; nth (k + 2) l 0; nth (k + 3) l 0].
Proof.
  revert l. induction k as [| k IH]; intros l Hl.
  - destruct l as [| ? [| ? [| ? [| ? l]]]]; cbn in Hl; (lia || done).
  - destruct l as [| x l]; cbn in Hl; [lia |]. cbn [drop]. rewrite IH by lia. done.
Qed.

Lemma nth_byte l i : Forall is_byte l -> is_byte (nth i l 0).
Proof.
  intros Hl. destruct (Nat.lt_ge_cases i (length l)); [| rewrite nth_overflow by done; unfold is_byte; lia].
  rewrite Forall_forall in Hl. apply Hl. apply list_elem_of_In. by apply nth_In.
Qed.

Lemma unpack_word_value block t :
  Forall is_byte block -> (t * 4 + 4 <= length block)%nat ->
  unpack_word block t = FIPS.be_value (take 4 (drop (t * 4) block)) /\ is_word (unpack_word block t).
Proof.
  intros Hb Ht. rewrite take_four by done. unfold unpack_word, at_.
  pose proof (nth_byte block (t * 4) Hb) as H0. pose proof (nth_byte block (t * 4 + 1) Hb) as H1.
  pose proof (nth_byte block (t * 4 + 2) Hb) as H2. pose proof (nth_byte block (t * 4 + 3) Hb) as H3.
  revert H0 H1 H2 H3. generalize (nth (t * 4) block 0), (nth (t * 4 + 1) block 0), (nth (t * 4 + 2) block 0), (nth (t * 4 + 3) block 0).
  intros a b c d Ha Hb' Hc Hd. unfold is_byte in *.
  rewrite !uint32_small by (rewrite shiftl_mul by lia; zlia). rewrite be4 by (unfold is_byte; lia).
  unfold FIPS.be_value, is_word. cbn [foldl]. split; zlia.
Qed.

Lemma extend_word_extend W :
  (16 <= length W)%nat -> Forall is_word W ->
  extend_word W (length W) = rev (FIPS.extend (rev W)) /\ Forall is_word (extend_word W (length W)).
Proof.
  intros Hl HW. unfold extend_word, FIPS.extend.
  assert (forall i, (i < length W)%nat -> nth i (rev W) 0 = at_ W (length W - (i + 1))) as Hr.
  { intros i Hi. rewrite rev_nth by done. unfold at_. f_equal. lia. }
  assert (forall i, is_word (at_ W i)) as Hw.
  { intros i. unfold at_. destruct (Nat.lt_ge_cases i (length W)); [| rewrite nth_overflow by done; unfold is_word; zlia].
    rewrite Forall_forall in HW. apply HW. apply list_elem_of_In. by apply nth_In. }
  rewrite !Hr by lia. cbn [rev]. rewrite rev_involutive. cbn [Nat.add].
  rewrite ROTATE_rotl by (repeat apply lxor_word; auto; lia). split; [done |].
  apply Forall_app. split; [done |]. apply Forall_singleton. apply rotl_word; [lia |]. repeat apply lxor_word; auto.
Qed.

Lemma extend_words n W :
  (16 <= length W)%nat -> Forall is_word W ->
  foldl extend_word W (seq (length W) n) = rev (Nat.iter n FIPS.extend (rev W)) /\
  Forall is_word (foldl extend_word W (seq (length W) n)) /\
  length (foldl extend_word W (seq (length W) n)) = (length W + n)%nat.
Proof.
  revert W. induction n as [| n IH]; intros W Hl HW; [cbn; rewrite rev_involutive; split_and!; (done || lia) |].
  destruct (extend_word_extend W Hl HW) as [E HW']. cbn [seq foldl].
  assert (length (extend_word W (length W)) = Datatypes.S (length W)) as El by (unfold extend_word; rewrite length_app; cbn; lia).
  rewrite <- El. destruct (IH (extend_word W (length W))) as (E' & HF & HL); [lia | done |].
  split_and!; [| done | lia]. rewrite E', E, rev_involutive, <- Nat.iter_succ_r. done.
Qed.

Lemma words_schedule block :
  Forall is_byte block -> length block = 64%nat ->
  words block = FIPS.schedule block /\ Forall is_word (words block) /\ length (words block) = 80%nat.
Proof.
  intros Hb Hl. unfold words, FIPS.schedule.
  assert (unpack_word block <$> seq 0 16 = FIPS.be_value <$> FIPS.pieces 16 4 block) as E.
  { rewrite pieces_seq, <- list_fmap_compose. apply list_fmap_ext. intros i t Ht. apply lookup_seq in Ht as [-> Ht]. cbn -[Nat.mul].
    apply unpack_word_value; [done | lia]. }
  assert (Forall is_word (unpack_word block <$> seq 0 16)) as HW.
  { apply Forall_fmap, Forall_forall. intros t Ht. apply elem_of_seq in Ht. apply unpack_word_value; [done | lia]. }
  rewrite <- E. set (W := unpack_word block <$> seq 0 16) in *.
  assert (length W = 16%nat) as HlW by done.
  destruct (extend_words 64 W) as (E' & HF & HL); [lia | done |]. rewrite HlW in E', HF, HL.
  split; [exact E' | split; [exact HF | exact HL]].
Qed.

(** ** One block *)

Definition words_in (r : sha_registers) : Prop :=
  is_word (A r) /\ is_word (B r) /\ is_word (C r) /\ is_word (D r) /\ is_word (E r).

(** The functions and constants of the code by the number of the step. *)
Definition round_at (F : Z -> Z -> Z -> Z) (K : Z) (lo hi : nat) : Prop :=
  forall t x y z, (lo <= t < hi)%nat -> is_word x -> is_word y -> is_word z -> F x y z = FIPS.f t x y z /\ K = FIPS.k t.

Ltac which_round t :=
  unfold FIPS.f, FIPS.k; destruct (Nat.ltb_spec t 20); [lia |]; destruct (Nat.ltb_spec t 40); try lia;
  destruct (Nat.ltb_spec t 60); try lia.
Lemma round_1 : round_at FROUND1 KROUND1 (0 + 0) (0 + 0 + 20).
Proof.
  intros t x y z Ht Hx Hy Hz. split; [apply FROUND1_f; (done || lia) |]. unfold FIPS.k. by destruct (Nat.ltb_spec t 20); [| lia].
Qed.
Lemma round_2 : round_at FROUND2 KROUND2 (0 + 20) (0 + 20 + 20).
Proof. intros t x y z Ht _ _ _. by which_round t. Qed.
Lemma round_3 : round_at FROUND3 KROUND3 (0 + 40) (0 + 40 + 20).
Proof. intros t x y z Ht _ _ _. rewrite FROUND3_maj. by which_round t. Qed.
Lemma round_4 : round_at FROUND4 KROUND4 (0 + 60) (0 + 60 + 20).
Proof. intros t x y z Ht _ _ _. by which_round t. Qed.

(** The turns of a round are steps of the standard. *)
Lemma round_steps F K W first n s r :
  round_at F K (s + first) (s + first + n) ->
  words_in r -> (s + first + n <= length W)%nat ->
  foldl (round_step F K W first) r (seq s n) = foldl FIPS.step r (zip (seq (s + first) n) (take n (drop (s + first) W))) /\
  words_in (foldl (round_step F K W first) r (seq s n)).
Proof.
  revert s r. induction n as [| n IH]; intros s r HF Hr Hl; [done |].
  assert (drop (s + first) W = at_ W (s + first) :: drop (Datatypes.S s + first) W) as Ed.
  { unfold at_. cbn [Nat.add]. destruct (lookup_lt_is_Some_2 W (s + first)) as [w Ew]; [lia |].
    by rewrite (drop_S _ _ _ Ew), (nth_lookup_Some _ _ _ _ Ew). }
  rewrite Ed. cbn [seq foldl take zip zip_with].
  assert (round_step F K W first r s = FIPS.step r (s + first, at_ W (s + first))%nat /\ words_in (round_step F K W first r s)) as [<- Hr'].
  { destruct Hr as (HA & HB & HC & HD & HE). destruct (HF (s + first)%nat (B r) (C r) (D r)) as [EF EK]; [lia | done.. |].
    unfold round_step, FIPS.step. cbn zeta. rewrite EF, EK. rewrite !ROTATE_rotl by (done || lia). split; [done |].
    split_and!; [apply word_TRUNCLONG | done | cbn; apply rotl_word; (done || lia) | done | done]. }
  apply (IH (Datatypes.S s)); [| done | lia]. intros t x y z Ht. apply HF. lia.
Qed.

Lemma zip_seq_split {T} a n m (l : list T) :
  (n <= length l)%nat -> zip (seq a (n + m)) l = zip (seq a n) (take n l) ++ zip (seq (a + n) m) (drop n l).
Proof.
  revert a l. induction n as [| n IH]; intros a l Hl; [cbn; by rewrite Nat.add_0_r |].
  destruct l as [| x l]; cbn in Hl; [lia |]. cbn [Nat.add seq zip zip_with take drop app]. rewrite IH by lia.
  by rewrite Nat.add_succ_comm.
Qed.

(** The eighty steps in four rounds. *)
Lemma eighty_steps (W : list Z) :
  length W = 80%nat ->
  zip (seq 0 80) W = zip (seq 0 20) (take 20 (drop 0 W)) ++ zip (seq 20 20) (take 20 (drop 20 W)) ++
                     zip (seq 40 20) (take 20 (drop 40 W)) ++ zip (seq 60 20) (take 20 (drop 60 W)).
Proof.
  intros Hl. change 80%nat with (20 + (20 + (20 + 20)))%nat at 1. rewrite zip_seq_split by lia.
  rewrite (zip_seq_split (0 + 20)) by (rewrite length_drop; lia).
  rewrite (zip_seq_split (0 + 20 + 20)) by (rewrite !length_drop; lia). rewrite !drop_drop. cbn [Nat.add].
  rewrite (take_ge (drop 60 W)) by (rewrite length_drop; lia). done.
Qed.

Lemma compress_words r block : words_in (FIPS.compress r block).
Proof. unfold FIPS.compress, words_in. cbn zeta. cbn [A B C D E]. split_and!; apply (to_unsigned_range 32); lia. Qed.

Lemma ProcessBlock_compress sha block :
  Forall is_byte block -> length block = 64%nat -> words_in (registers sha) ->
  ProcessBlock sha block = set_registers (FIPS.compress (registers sha) block) sha.
Proof.
  intros Hb Hl Hr. destruct (words_schedule block Hb Hl) as (E & HW & HL). unfold ProcessBlock, FIPS.compress.
  rewrite <- E. set (W := words block) in *. clearbody W. rewrite (eighty_steps W HL), !foldl_app.
  unfold round.
  destruct (round_steps FROUND1 KROUND1 W 0 20 0 (registers sha)) as [-> Hr1]; [by apply round_1 | done | lia |].
  destruct (round_steps FROUND2 KROUND2 W 20 20 0 _ ltac:(by apply round_2) Hr1) as [-> Hr2]; [lia |].
  destruct (round_steps FROUND3 KROUND3 W 40 20 0 _ ltac:(by apply round_3) Hr2) as [-> Hr3]; [lia |].
  destruct (round_steps FROUND4 KROUND4 W 60 20 0 _ ltac:(by apply round_4) Hr3) as [-> Hr4]; [lia |].
  done.
Qed.

(** ** Data *)

Lemma length_copy_at l pos d : (pos + length d <= length l)%nat -> length (copy_at l pos d) = length l.
Proof. intros Hl. unfold copy_at. rewrite !length_app, length_take, length_drop. lia. Qed.
Lemma take_copy_at l pos d :
  (pos + length d <= length l)%nat -> take (pos + length d) (copy_at l pos d) = take pos l ++ d.
Proof.
  intros Hl. unfold copy_at. rewrite app_assoc. rewrite take_app_length'; [done |].
  rewrite length_app, length_take. lia.
Qed.

Lemma pieces_snoc n l b : length l = (64 * n)%nat -> length b = 64%nat ->
  FIPS.pieces (Datatypes.S n) 64 (l ++ b) = FIPS.pieces n 64 l ++ [b].
Proof.
  intros Hl Hb. revert l Hl. induction n as [| n IH]; intros l Hl.
  { destruct l; [| done]. cbn [FIPS.pieces app]. by rewrite take_ge by lia. }
  change (FIPS.pieces (Datatypes.S (Datatypes.S n)) 64 (l ++ b))
    with (take 64 (l ++ b) :: FIPS.pieces (Datatypes.S n) 64 (drop 64 (l ++ b))).
  rewrite take_app_le, drop_app_le by lia. rewrite IH by (rewrite length_drop; lia). done.
Qed.

(** The bytes that wait in the buffer. *)
Definition buffered (sha : ILSHAContext) (l : list Z) : Prop :=
  length (input sha) = 64%nat /\ inputLen sha = Z.of_nat (length l) /\ take (length l) (input sha) = l.

(** The context after the blocks of [full]. *)
Definition digested (sha : ILSHAContext) (full : list Z) : Prop :=
  exists n, length full = (64 * n)%nat /\ Forall is_byte full /\
    registers sha = foldl FIPS.compress FIPS.initial (FIPS.pieces n 64 full).

Lemma digested_words sha full : digested sha full -> words_in (registers sha).
Proof.
  intros (n & _ & _ & ->). assert (words_in FIPS.initial) as H by (repeat split; reflexivity || done).
  revert H. generalize FIPS.initial. induction (FIPS.pieces n 64 full) as [| b l IH]; intros r Hr; [done |].
  apply IH, compress_words.
Qed.

Lemma digested_block sha full block :
  digested sha full -> Forall is_byte block -> length block = 64%nat ->
  digested (ProcessBlock sha block) (full ++ block) /\
  input (ProcessBlock sha block) = input sha /\ inputLen (ProcessBlock sha block) = inputLen sha /\
  totalLen (ProcessBlock sha block) = totalLen sha.
Proof.
  intros Hd Hb Hl. rewrite ProcessBlock_compress by (done || by eapply digested_words).
  split; [| done]. destruct Hd as (n & Hn & Hf & Hr). exists (Datatypes.S n).
  split_and!; [rewrite length_app; lia | by apply Forall_app |].
  rewrite pieces_snoc, foldl_app by done. cbn [foldl set_registers registers]. by rewrite Hr.
Qed.

(** Bytes behind those in the buffer. *)
Lemma buffered_copy sha l d :
  buffered sha l -> (length l + length d <= 64)%nat ->
  buffered (set_input (copy_at (input sha) (Z.to_nat (inputLen sha)) d) (uint32 (inputLen sha + Z.of_nat (length d))) sha) (l ++ d).
Proof.
  intros (Hl & Hn & Ht) Hd. rewrite Hn, Nat2Z.id. unfold buffered. cbn [set_input input inputLen]. rewrite length_app.
  split_and!.
  - rewrite length_copy_at; lia.
  - rewrite uint32_small by zlia. lia.
  - rewrite take_copy_at by lia. by rewrite Ht.
Qed.

(** A full buffer is a block. *)
Lemma buffered_block sha full l :
  digested sha full -> buffered sha l -> length l = 64%nat -> Forall is_byte l ->
  let sha' := set_input (input (ProcessBlock sha (input sha))) 0 (ProcessBlock sha (input sha)) in
  digested sha' (full ++ l) /\ buffered sha' [] /\ totalLen sha' = totalLen sha.
Proof.
  intros Hd (Hl & Hn & Ht) Hlen Hb. rewrite Hlen in Ht. rewrite take_ge in Ht by lia. rewrite Ht.
  destruct (digested_block sha full l Hd Hb Hlen) as (Hd' & Hi & _ & Htl). cbn zeta.
  split; [done |]. split; [| done]. unfold buffered. cbn [set_input input inputLen]. rewrite Hi. done.
Qed.

(** The context after a message: its blocks, and what is left in the buffer. *)
Definition absorbed (sha : ILSHAContext) (message : list Z) : Prop :=
  exists full rest, message = full ++ rest /\ (length rest < 64)%nat /\ Forall is_byte rest /\
    digested sha full /\ buffered sha rest.

Lemma absorb_block sha message block :
  absorbed sha message -> inputLen sha = 0 -> Forall is_byte block -> length block = 64%nat ->
  absorbed (ProcessBlock sha block) (message ++ block) /\ totalLen (ProcessBlock sha block) = totalLen sha.
Proof.
  intros (full & rest & -> & Hr & Hrb & Hd & Hl & Hn & Ht) E0 Hb Hlen.
  destruct rest; [| cbn in *; lia]. rewrite app_nil_r.
  destruct (digested_block sha full block Hd Hb Hlen) as (Hd' & Hi & Hil & Htl). split; [| done].
  exists (full ++ block), []. rewrite app_nil_r. split_and!; [done | cbn; lia | done | done |].
  unfold buffered. by rewrite Hi, Hil.
Qed.

(** What the loop does with bytes that fit the buffer. *)
Definition absorb (sha : ILSHAContext) (d : list Z) : ILSHAContext :=
  let sha := set_input (copy_at (input sha) (Z.to_nat (inputLen sha)) d) (uint32 (inputLen sha + Z.of_nat (length d))) sha in
  if 64 <=? inputLen sha then set_input (input (ProcessBlock sha (input sha))) 0 (ProcessBlock sha (input sha)) else sha.

Lemma absorb_some sha message d :
  absorbed sha message -> Forall is_byte d -> inputLen sha + Z.of_nat (length d) <= 64 ->
  absorbed (absorb sha d) (message ++ d) /\ totalLen (absorb sha d) = totalLen sha.
Proof.
  intros (full & rest & -> & Hr & Hrb & Hd & Hbuf) Hb Hlen. pose proof Hbuf as (_ & Hn & _).
  pose proof (buffered_copy sha rest d Hbuf ltac:(lia)) as Hbuf'. unfold absorb.
  set (sha1 := set_input (copy_at _ _ _) _ sha) in *. assert (digested sha1 full) as Hd1 by done.
  pose proof Hbuf' as (_ & Hn1 & _). destruct (Z.leb_spec 64 (inputLen sha1)) as [H64 | H64].
  - rewrite length_app in Hn1.
    destruct (buffered_block sha1 full (rest ++ d) Hd1 Hbuf') as (Hd2 & Hb2 & Ht2);
      [rewrite length_app; lia | by apply Forall_app |]. split; [| done].
    exists (full ++ (rest ++ d)), []. rewrite app_nil_r, <- app_assoc. split_and!; (done || cbn; lia).
  - split; [| done]. exists full, (rest ++ d). rewrite <- app_assoc. split_and!; [done | lia | by apply Forall_app | done | done].
Qed.

Lemma data_loop_absorbs fuel sha message buffer :
  absorbed sha message -> Forall is_byte buffer -> (length buffer <= fuel)%nat ->
  exists sha', data_loop fuel sha buffer = Some sha' /\ absorbed sha' (message ++ buffer) /\ totalLen sha' = totalLen sha.
Proof.
  revert sha message buffer. induction fuel as [| fuel IH]; intros sha message buffer Ha Hb Hf.
  { destruct buffer; [| cbn in Hf; lia]. exists sha. by rewrite app_nil_r. }
  cbn [data_loop]. destruct (Z.ltb_spec 0 (Z.of_nat (length buffer))) as [Hlen | Hlen];
    [| destruct buffer; [| cbn in Hlen; lia]; exists sha; by rewrite app_nil_r].
  assert (forall k sha1, (0 < k <= length buffer)%nat ->
    absorbed sha1 (message ++ take k buffer) /\ totalLen sha1 = totalLen sha ->
    exists sha', data_loop fuel sha1 (drop k buffer) = Some sha' /\ absorbed sha' (message ++ buffer) /\ totalLen sha' = totalLen sha) as Hnext.
  { intros k sha1 Hk [Ha1 Ht1]. destruct (IH sha1 _ (drop k buffer) Ha1) as (sha' & E & Ha' & Et);
      [by apply Forall_drop | rewrite length_drop; lia |]. exists sha'. rewrite <- app_assoc, take_drop in Ha'.
    split_and!; [done | done | congruence]. }
  assert (0 <= inputLen sha < 64) as Hin by (destruct Ha as (? & ? & _ & ? & _ & _ & _ & -> & _); lia).
  destruct ((inputLen sha =? 0) && (64 <=? Z.of_nat (length buffer))) eqn:Eb.
  - apply andb_true_iff in Eb as [E0%Z.eqb_eq E64%Z.leb_le]. apply Hnext; [lia |].
    apply absorb_block; [done | done | by apply Forall_take | rewrite length_take; lia].
  - rewrite (uint32_small (64 - inputLen sha)) by zlia.
    set (k := Z.to_nat (Z.min (Z.of_nat (length buffer)) (64 - inputLen sha))).
    assert (length (take k buffer) = k) as Ek by (rewrite length_take; lia).
    apply (Hnext k); [lia |]. pose proof (absorb_some sha message (take k buffer) Ha) as Hab. unfold absorb in Hab.
    rewrite Ek in Hab. apply Hab; [by apply Forall_take | lia].
Qed.

Lemma ILSHAData_absorbs sha message buffer :
  absorbed sha message -> totalLen sha = Z.of_nat (length message) -> Forall is_byte buffer ->
  Z.of_nat (length (message ++ buffer)) < 2 ^ 64 ->
  exists sha', ILSHAData sha buffer = Some sha' /\ absorbed sha' (message ++ buffer) /\
    totalLen sha' = Z.of_nat (length (message ++ buffer)).
Proof.
  intros Ha Ht Hb Hlen. rewrite length_app in Hlen. unfold ILSHAData. rewrite Ht, to_unsigned_small by lia.
  destruct (data_loop_absorbs (length buffer) (mkSHA (input sha) (inputLen sha) (registers sha)
              (Z.of_nat (length message) + Z.of_nat (length buffer))) message buffer) as (sha' & E & Ha' & Et); [done | done | lia |].
  exists sha'. rewrite Et, length_app. split_and!; [done | done | cbn; lia].
Qed.

(** ** The digest *)

Lemma WriteLong_be v : WriteLong v = FIPS.be_bytes 4 v.
Proof.
  unfold WriteLong, FIPS.be_bytes, uchar, to_unsigned. rewrite !Z.shiftr_div_pow2 by lia. cbn [Z.of_nat Z.mul].
  repeat f_equal; try reflexivity. cbn. by rewrite Z.div_1_r.
Qed.

Lemma be_bytes_length n x : length (FIPS.be_bytes n x) = n.
Proof. induction n; cbn; auto. Qed.
Lemma be_bytes_byte n x : Forall is_byte (FIPS.be_bytes n x).
Proof. induction n; cbn [FIPS.be_bytes]; constructor; [apply (to_unsigned_range 8); lia | done]. Qed.

Lemma byte_of_word y k : 0 <= k <= 24 -> (y mod 2 ^ 32) / 2 ^ k mod 2 ^ 8 = y / 2 ^ k mod 2 ^ 8.
Proof.
  intros Hk. apply Z.bits_inj'. intros i Hi. destruct (Z.lt_ge_cases i 8); [| by rewrite !Z.mod_pow2_bits_high by lia].
  rewrite !Z.mod_pow2_bits_low, !Z.div_pow2_bits, Z.mod_pow2_bits_low by lia. done.
Qed.

(** The length as two words. *)
Lemma be_bytes_words x :
  0 <= x < 2 ^ 64 ->
  FIPS.be_bytes 4 (uint32 (Z.shiftr x 32)) ++ FIPS.be_bytes 4 (uint32 x) = FIPS.be_bytes 8 x.
Proof.
  intros Hx. rewrite Z.shiftr_div_pow2 by lia. unfold uint32, to_unsigned, FIPS.be_bytes. cbn [app].
  rewrite !byte_of_word, !Z.div_div, <- !Z.pow_add_r by lia. reflexivity.
Qed.

(** A context with bytes in its buffer; [r] and [n] are its registers and length. *)
Definition holds (r : sha_registers) (n : Z) (sha : ILSHAContext) (l : list Z) : Prop :=
  buffered sha l /\ registers sha = r /\ totalLen sha = n.

Lemma put_holds r n sha l b :
  holds r n sha l -> (length l < 64)%nat -> holds r n (put b sha) (l ++ [b]).
Proof. intros (Hb & Hr & Hn) Hl. split; [| done]. apply (buffered_copy sha l [b] Hb). cbn. lia. Qed.

Lemma put_zeros_holds r n k sha l :
  holds r n sha l -> (length l + k <= 64)%nat -> holds r n (put_zeros k sha) (l ++ replicate k 0).
Proof.
  revert sha l. induction k as [| k IH]; intros sha l Hh Hl; [by rewrite app_nil_r |].
  cbn [put_zeros replicate]. specialize (IH (put 0 sha) (l ++ [0])). rewrite <- app_assoc in IH.
  apply IH; [apply put_holds; (done || lia) | rewrite length_app; cbn; lia].
Qed.

Lemma zeros_to_holds r n m sha l :
  holds r n sha l -> (length l <= m <= 64)%nat ->
  holds r n (zeros_to (Z.of_nat m) sha) (l ++ replicate (m - length l) 0).
Proof.
  intros Hh Hl. pose proof Hh as ((_ & E & _) & _). unfold zeros_to. rewrite E.
  replace (Z.to_nat (Z.of_nat m - Z.of_nat (length l))) with (m - length l)%nat by lia. apply put_zeros_holds; (done || lia).
Qed.

(** The last block: what is in the buffer up to its length field. *)
Lemma last_block r n sha l :
  holds r n sha l -> length l = 56%nat -> words_in r -> Forall is_byte l -> 0 <= n < 2 ^ 61 ->
  let totalBits := to_unsigned 64 (Z.shiftl (totalLen sha) 3) in
  let b := copy_at (copy_at (input sha) 56 (WriteLong (uint32 (Z.shiftr totalBits 32)))) 60 (WriteLong (uint32 totalBits)) in
  registers (ProcessBlock (set_input b (inputLen sha) sha) b) = FIPS.compress r (l ++ FIPS.be_bytes 8 (8 * n)).
Proof.
  intros ((Hi & _ & Ht) & Hr & Hn) Hl Hw Hb Hn'. cbn zeta. rewrite Hn, Z.shiftl_mul_pow2 by lia.
  rewrite to_unsigned_small by (change (2 ^ 3) with 8; zlia). rewrite !WriteLong_be.
  assert (copy_at (copy_at (input sha) 56 (FIPS.be_bytes 4 (uint32 (Z.shiftr (n * 2 ^ 3) 32)))) 60 (FIPS.be_bytes 4 (uint32 (n * 2 ^ 3)))
          = l ++ FIPS.be_bytes 8 (8 * n)) as ->.
  { rewrite <- (be_bytes_words (8 * n)) by zlia. replace (n * 2 ^ 3) with (8 * n) by lia.
    set (hi := FIPS.be_bytes 4 _). set (lo := FIPS.be_bytes 4 (uint32 (8 * n))).
    assert (length hi = 4%nat /\ length lo = 4%nat) as [Hhi Hlo] by done.
    rewrite <- (take_ge (copy_at (copy_at _ 56 hi) 60 lo) 64) by (rewrite !length_copy_at; rewrite ?length_copy_at; lia).
    replace 64%nat with (60 + length lo)%nat at 1 by lia. rewrite take_copy_at by (rewrite length_copy_at; lia).
    replace 60%nat with (56 + length hi)%nat at 1 by lia. rewrite take_copy_at by lia.
    rewrite <- Hl at 1. rewrite Ht. by rewrite <- app_assoc. }
  rewrite ProcessBlock_compress; cbn [registers set_input set_registers]; rewrite ?Hr; [done | | | done].
  - apply Forall_app. split; [done | apply be_bytes_byte].
  - rewrite length_app, be_bytes_length. lia.
Qed.

(** The padding in one block, or in two. *)
Lemma pad_one full rest n :
  length full = (64 * n)%nat -> (length rest < 56)%nat ->
  FIPS.pad (full ++ rest) = full ++ (((rest ++ [0x80]) ++ replicate (56 - length (rest ++ [0x80])) 0) ++
                                      FIPS.be_bytes 8 (8 * Z.of_nat (length (full ++ rest)))).
Proof.
  intros Hf Hr. unfold FIPS.pad. rewrite <- !app_assoc. do 4 f_equal. rewrite !length_app, Hf. cbn [length].
  replace (Z.to_nat ((55 - Z.of_nat (64 * n + length rest)) mod 64)) with (56 - (length rest + 1))%nat by zlia. done.
Qed.
Lemma pad_two full rest n :
  length full = (64 * n)%nat -> (56 <= length rest < 64)%nat ->
  FIPS.pad (full ++ rest) = full ++ ((rest ++ [0x80]) ++ replicate (64 - length (rest ++ [0x80])) 0) ++
                                      (replicate 56 0 ++ FIPS.be_bytes 8 (8 * Z.of_nat (length (full ++ rest)))).
Proof.
  intros Hf Hr. unfold FIPS.pad. rewrite <- !app_assoc. do 3 f_equal. rewrite app_assoc, <- replicate_add.
  rewrite !length_app, Hf. cbn [length].
  replace (Z.to_nat ((55 - Z.of_nat (64 * n + length rest)) mod 64)) with (64 - (length rest + 1) + 56)%nat by zlia. done.
Qed.

Lemma pieces_blocks n full bs :
  length full = (64 * n)%nat -> Forall (fun b : list Z => length b = 64%nat) bs ->
  FIPS.pieces (length (full ++ concat bs) / 64) 64 (full ++ concat bs) = FIPS.pieces n 64 full ++ bs.
Proof.
  intros Hf Hbs. revert full n Hf. induction Hbs as [| b bs Hb _ IH]; intros full n Hf.
  - cbn [concat]. rewrite !app_nil_r, Hf, (Nat.mul_comm 64 n), Nat.div_mul by lia. done.
  - cbn [concat]. rewrite app_assoc. rewrite (IH (full ++ b) (Datatypes.S n)) by (rewrite length_app; lia).
    rewrite pieces_snoc by done. by rewrite <- app_assoc.
Qed.

(** All blocks of the padded message. *)
Lemma finish_spec sha message :
  absorbed sha message -> totalLen sha = Z.of_nat (length message) -> Z.of_nat (length message) < 2 ^ 61 ->
  finish sha = foldl FIPS.compress FIPS.initial (FIPS.pieces (length (FIPS.pad message) / 64) 64 (FIPS.pad message)).
Proof.
  intros (full & rest & -> & Hr & Hrb & Hd & Hbuf) Ht Hlen. pose proof Hbuf as (_ & Hn & _).
  pose proof (digested_words _ _ Hd) as Hw. pose proof Hd as (n & Hfn & _ & Hfr).
  set (len := Z.of_nat (length (full ++ rest))) in *.
  pose proof (put_holds _ _ sha rest 0x80 (conj Hbuf (conj eq_refl Ht)) Hr) as Hput.
  assert (forall k, Forall is_byte ((rest ++ [0x80]) ++ replicate k 0)) as Hpb.
  { intros k. rewrite !Forall_app. split; [split; [done |] |]; [apply Forall_singleton | apply Forall_replicate]; unfold is_byte; lia. }
  assert (length (rest ++ [0x80]) = Datatypes.S (length rest)) as Hl1 by (rewrite length_app; cbn; lia).
  unfold finish. rewrite Hn. destruct (Z.leb_spec 56 (Z.of_nat (length rest))) as [H56 | H56].
  - pose proof (zeros_to_holds _ _ 64 _ _ Hput ltac:(lia)) as Hz. change (Z.of_nat 64) with 64 in Hz.
    set (l := (rest ++ [0x80]) ++ replicate _ 0) in *. set (sha1 := zeros_to 64 (put 0x80 sha)) in *.
    assert (length l = 64%nat) as Hll by (subst l; rewrite length_app, length_replicate; lia).
    destruct Hz as (Hzb & Hzr & Hzt). assert (digested sha1 full) as Hd1 by (destruct Hd as (n' & ? & ? & E); exists n'; by rewrite Hzr).
    pose proof Hzb as (Hi1 & Hn1 & Hl64). rewrite Hll, take_ge in Hl64 by lia.
    pose proof (ProcessBlock_compress sha1 l (Hpb _) Hll ltac:(by rewrite Hzr)) as Ep. rewrite Hl64, Ep.
    set (sha2 := set_input _ 0 _). assert (holds (FIPS.compress (registers sha) l) len sha2 []) as Hh2.
    { subst sha2. cbn [set_input set_registers registers totalLen input]. rewrite <- Hzr, <- Hzt. split; [| done]. unfold buffered. done. }
    pose proof (zeros_to_holds _ _ 56 _ _ Hh2 ltac:(cbn; lia)) as Hz2. change (Z.of_nat 56) with 56 in Hz2.
    rewrite (last_block _ _ _ _ Hz2); [| done | apply compress_words | by apply Forall_replicate | lia].
    rewrite (pad_two full rest n Hfn) by lia. fold l. fold len.
    pose proof (pieces_blocks n full [l; replicate 56 0 ++ FIPS.be_bytes 8 (8 * len)] Hfn) as Hp. cbn [concat] in Hp.
    rewrite app_nil_r in Hp. rewrite Hp by (repeat constructor; done). by rewrite foldl_app, <- Hfr.
  - pose proof (zeros_to_holds _ _ 56 _ _ Hput ltac:(lia)) as Hz. change (Z.of_nat 56) with 56 in Hz.
    set (l := (rest ++ [0x80]) ++ replicate _ 0) in *.
    assert (length l = 56%nat) as Hll by (subst l; rewrite length_app, length_replicate; lia).
    rewrite (last_block _ _ _ _ Hz); [| done | done | apply Hpb | lia].
    rewrite (pad_one full rest n Hfn) by lia. fold l. fold len.
    pose proof (pieces_blocks n full [l ++ FIPS.be_bytes 8 (8 * len)] Hfn) as Hp. cbn [concat] in Hp. rewrite app_nil_r in Hp.
    rewrite Hp by (repeat constructor; rewrite length_app, Hll; done). by rewrite foldl_app, <- Hfr.
Qed.

(** Data in pieces. *)
Fixpoint feed (sha : ILSHAContext) (pieces : list (list Z)) : option ILSHAContext :=
  match pieces with [] => Some sha | p :: pieces => sha ← ILSHAData sha p; feed sha pieces end.

Lemma feed_absorbs pieces sha message :
  absorbed sha message -> totalLen sha = Z.of_nat (length message) -> Forall (Forall is_byte) pieces ->
  Z.of_nat (length (message ++ concat pieces)) < 2 ^ 64 ->
  exists sha', feed sha pieces = Some sha' /\ absorbed sha' (message ++ concat pieces) /\
    totalLen sha' = Z.of_nat (length (message ++ concat pieces)).
Proof.
  revert sha message. induction pieces as [| p pieces IH]; intros sha message Ha Ht Hp Hl; cbn [feed concat] in *.
  { exists sha. by rewrite app_nil_r. }
  inversion_clear Hp as [| ? ? Hb Hps]. rewrite app_assoc in Hl |- *.
  destruct (ILSHAData_absorbs sha message p Ha Ht Hb) as (sha1 & -> & Ha1 & Ht1); [rewrite length_app in Hl; lia |].
  by apply (IH sha1).
Qed.

Lemma init_absorbed sha : length (input sha) = 64%nat -> absorbed (ILSHAInit sha) [].
Proof.
  intros Hl. exists [], []. split_and!; [done | cbn; lia | done | | done]. by exists 0%nat.
Qed.

(** C25: The digest of a message is its SHA-1 digest as the standard defines it, in
    whatever pieces the bytes of the message are given to the context, and whatever was in the
    buffer of the context before; the context is blank afterwards.  The message may have
    up to 2^64 bits, the limit of the standard. *)
Theorem sha1_digest sha pieces :
  length (input sha) = 64%nat -> Forall (Forall is_byte) pieces -> Z.of_nat (length (concat pieces)) < 2 ^ 61 ->
  exists sha', feed (ILSHAInit sha) pieces = Some sha' /\
    ILSHAFinalize sha' true = (Some (FIPS.sha1 (concat pieces)), blank_context).
Proof.
  intros Hl Hp Hlen. destruct (feed_absorbs pieces (ILSHAInit sha) [] (init_absorbed sha Hl) eq_refl Hp) as (sha' & E & Ha & Ht);
    [cbn [app]; lia |].
  exists sha'. split; [done |]. cbn [app] in Ha, Ht. unfold ILSHAFinalize, FIPS.sha1.
  rewrite (finish_spec sha' _ Ha Ht Hlen), !WriteLong_be. done.
Qed.

Example sha1_digest_witness :
  exists sha', feed (ILSHAInit blank_context) [[97]; []; [98; 99]] = Some sha' /\
    ILSHAFinalize sha' true = (Some (FIPS.sha1 [97; 98; 99]), blank_context).
Proof.
  apply (sha1_digest blank_context [[97]; []; [98; 99]]); [reflexivity | | reflexivity].
  repeat constructor; discriminate.
Defined.

(** The second example of the standard, with two blocks, from sha1.c. *)
Example two_blocks :
  (sha ← ILSHAData (ILSHAInit blank_context)
     (Z.of_nat ∘ Ascii.nat_of_ascii <$> String.list_ascii_of_string "abcdbcdecdefdefgefghfghighijhijkijkljklmklmnlmnomnopnopq");
   fst (ILSHAFinalize sha true)) =
  Some [0x84; 0x98; 0x3E; 0x44; 0x1C; 0x3B; 0xD2; 0x6E; 0xBA; 0xAE; 0x4A; 0xA1; 0xF9; 0x51; 0x29; 0xE5; 0xE5; 0x46; 0x70; 0xF1].
Proof. vm_compute. reflexivity. Qed.
