(* ===== verification/Values.v ===== *)
(** * Values: reading little-endian integers from a buffer

    Models the [IL_READ_*] macros of src/gcc/cil/include/il_values.h in their
    portable form.  A buffer is the list of its bytes; reading outside it is
    [None]. *)
From S2P Require Import Prelude.

Definition _IL_READ_BYTE (buf : list Z) (offset : Z) : option Z :=
  b ← byte_at buf offset; Some (uint32 b).

Definition _IL_READ_BYTE_SHIFT (buf : list Z) (offset shift : Z) : option Z :=
  b ← byte_at buf offset; Some (uint32 (Z.shiftl (uint32 b) shift)).

(** [*_at i] is the macro applied to [buf + i]. *)
Definition IL_READ_INT16 (buf : list Z) (i : Z) : option Z :=
  b0 ← _IL_READ_BYTE buf i;
  b1 ← _IL_READ_BYTE_SHIFT buf (i + 1) 8;
  Some (to_signed 16 (Z.lor b0 b1)).

Definition IL_READ_UINT16 (buf : list Z) (i : Z) : option Z :=
  b0 ← _IL_READ_BYTE buf i;
  b1 ← _IL_READ_BYTE_SHIFT buf (i + 1) 8;
  Some (uint16 (Z.lor b0 b1)).

Definition IL_READ_INT32 (buf : list Z) (i : Z) : option Z :=
  b0 ← _IL_READ_BYTE buf i;
  b1 ← _IL_READ_BYTE_SHIFT buf (i + 1) 8;
  b2 ← _IL_READ_BYTE_SHIFT buf (i + 2) 16;
  b3 ← _IL_READ_BYTE_SHIFT buf (i + 3) 24;
  Some (int32 (Z.lor (Z.lor (Z.lor b0 b1) b2) b3)).

Definition IL_READ_UINT32 (buf : list Z) (i : Z) : option Z :=
  b0 ← _IL_READ_BYTE buf i;
  b1 ← _IL_READ_BYTE_SHIFT buf (i + 1) 8;
  b2 ← _IL_READ_BYTE_SHIFT buf (i + 2) 16;
  b3 ← _IL_READ_BYTE_SHIFT buf (i + 3) 24;
  Some (uint32 (Z.lor (Z.lor (Z.lor b0 b1) b2) b3)).

Definition IL_READ_INT64 (buf : list Z) (i : Z) : option Z :=
  lo ← IL_READ_UINT32 buf i;
  hi ← IL_READ_INT32 buf (i + 4);
  Some (to_signed 64 (Z.lor lo (Z.shiftl hi 32))).

Definition IL_READ_UINT64 (buf : list Z) (i : Z) : option Z :=
  lo ← IL_READ_UINT32 buf i;
  hi ← IL_READ_UINT32 buf (i + 4);
  Some (to_unsigned 64 (Z.lor lo (Z.shiftl hi 32))).

(** ** What they compute *)

(** The number whose little-endian digits in base 256 are [l]. *)
Definition le_value (l : list Z) : Z := foldr (fun b acc => b + 256 * acc) 0 l.

(** The little-endian bytes of [v]. *)
Fixpoint le_bytes (n : nat) (v : Z) : list Z :=
  match n with
  | O => []
  | S n => v mod 256 :: le_bytes n (v / 256)
  end.

Lemma le_bytes_byte n v : Forall is_byte (le_bytes n v).
Proof.
  revert v. induction n; intros v; cbn; constructor; [unfold is_byte; zlia | done].
Qed.

Lemma length_le_bytes n v : length (le_bytes n v) = n.
Proof. revert v. induction n; intros v; cbn; auto. Qed.

Lemma le_value_bytes n v : le_value (le_bytes n v) = v mod 2 ^ (8 * Z.of_nat n).
Proof.
  revert v. induction n as [| n IH]; intros v; [cbn; by rewrite Z.mod_1_r |].
  cbn -[Z.pow Z.mul Z.modulo Z.div Z.of_nat]. fold (le_value (le_bytes n (v / 256))).
  rewrite IH. replace (8 * Z.of_nat (S n)) with (8 + 8 * Z.of_nat n) by lia.
  rewrite Z.pow_add_r by lia. change (2 ^ 8) with 256.
  pose proof (Z.pow_pos_nonneg 2 (8 * Z.of_nat n) ltac:(lia) ltac:(lia)) as Hp.
  rewrite Z.rem_mul_r by first [exact Hp | lia]. done.
Qed.

(** The bytes read at [i]. *)
Definition bytes_at (buf : list Z) (i : Z) (n : nat) : option (list Z) :=
  mapM (fun k => byte_at buf (i + Z.of_nat k)) (seq 0 n).

Ltac by_bytes_at :=
  unfold bytes_at; cbn -[Z.add byte_at Z.of_nat];
  repeat match goal with |- context [Z.of_nat ?k] =>
    let v := eval vm_compute in (Z.of_nat k) in change (Z.of_nat k) with v end;
  rewrite Z.add_0_r;
  repeat (match goal with |- context [byte_at ?b ?j] => destruct (byte_at b j) end;
          cbn -[Z.add byte_at]; try done).

Lemma bytes_at_2 buf i :
  bytes_at buf i 2
  = b0 ← byte_at buf i; b1 ← byte_at buf (i + 1); Some [b0; b1].
Proof. by_bytes_at. Qed.

Lemma bytes_at_4 buf i :
  bytes_at buf i 4
  = b0 ← byte_at buf i; b1 ← byte_at buf (i + 1);
    b2 ← byte_at buf (i + 2); b3 ← byte_at buf (i + 3); Some [b0; b1; b2; b3].
Proof. by_bytes_at. Qed.

Ltac read_bytes :=
  repeat match goal with
  | |- context [byte_at ?b ?i] =>
      let E := fresh "E" in
      destruct (byte_at b i) eqn:E; [apply byte_at_Some in E as [_ E] |]
  end.

Lemma lor_bytes b0 b1 b2 b3 :
  is_byte b0 -> is_byte b1 -> is_byte b2 -> is_byte b3 ->
  Z.lor (Z.lor (Z.lor (uint32 b0) (uint32 (Z.shiftl (uint32 b1) 8)))
               (uint32 (Z.shiftl (uint32 b2) 16)))
        (uint32 (Z.shiftl (uint32 b3) 24))
  = le_value [b0; b1; b2; b3].
Proof.
  unfold is_byte, uint32. intros.
  rewrite !(to_unsigned_small 32 b0), !(to_unsigned_small 32 b1),
    !(to_unsigned_small 32 b2), !(to_unsigned_small 32 b3) by zlia.
  rewrite !shiftl_mul by lia. rewrite !to_unsigned_small by zlia.
  rewrite (Z.lor_comm b0), (lor_disjoint 8 (b1 * _) b0) by zlia.
  rewrite (Z.lor_comm (_ + _)), (lor_disjoint 16 (b2 * _) (b1 * _ + b0)) by zlia.
  rewrite Z.lor_comm, (lor_disjoint 24 (b3 * _)) by zlia. cbn. lia.
Qed.

Lemma lor_bytes2 b0 b1 :
  is_byte b0 -> is_byte b1 ->
  Z.lor (uint32 b0) (uint32 (Z.shiftl (uint32 b1) 8)) = le_value [b0; b1].
Proof.
  intros H0 H1. pose proof (lor_bytes b0 b1 0 0 H0 H1) as E.
  unfold is_byte in E. specialize (E ltac:(lia) ltac:(lia)).
  change (uint32 (Z.shiftl (uint32 0) 16)) with 0 in E.
  change (uint32 (Z.shiftl (uint32 0) 24)) with 0 in E.
  rewrite !Z.lor_0_r in E. rewrite E. cbn. lia.
Qed.

Lemma IL_READ_UINT16_spec buf i :
  Forall is_byte buf ->
  IL_READ_UINT16 buf i = le_value <$> bytes_at buf i 2.
Proof.
  intros Hb. unfold IL_READ_UINT16, _IL_READ_BYTE, _IL_READ_BYTE_SHIFT.
  rewrite bytes_at_2. read_bytes; cbn -[Z.lor Z.shiftl uint16 uint32 Z.add le_value];
    try done.
  specialize (E Hb). specialize (E0 Hb). rewrite lor_bytes2 by done. f_equal.
  unfold is_byte in *. cbn. unfold uint16. apply to_unsigned_small. zlia.
Qed.

Lemma IL_READ_UINT32_spec buf i :
  Forall is_byte buf ->
  IL_READ_UINT32 buf i = le_value <$> bytes_at buf i 4.
Proof.
  intros Hb. unfold IL_READ_UINT32, _IL_READ_BYTE, _IL_READ_BYTE_SHIFT.
  rewrite bytes_at_4. read_bytes; cbn -[Z.lor Z.shiftl uint32 Z.add le_value];
    try done.
  rewrite lor_bytes by auto. f_equal.
  specialize (E Hb). specialize (E0 Hb). specialize (E1 Hb). specialize (E2 Hb).
  unfold is_byte in *. cbn. unfold uint32. apply to_unsigned_small. zlia.
Qed.

Lemma IL_READ_INT32_spec buf i :
  Forall is_byte buf ->
  IL_READ_INT32 buf i = int32 <$> IL_READ_UINT32 buf i.
Proof.
  intros Hb. rewrite IL_READ_UINT32_spec by done.
  unfold IL_READ_INT32, _IL_READ_BYTE, _IL_READ_BYTE_SHIFT.
  rewrite bytes_at_4. read_bytes; cbn -[Z.lor Z.shiftl uint32 Z.add le_value];
    try done.
  by rewrite lor_bytes by auto.
Qed.

Lemma bytes_at_app pre l post :
  bytes_at (pre ++ l ++ post) (Z.of_nat (length pre)) (length l) = Some l.
Proof.
  apply mapM_Some_2, Forall2_same_length_lookup_2; [by rewrite length_seq |].
  intros i x y Hx Hy. apply lookup_seq in Hx as [-> Hi].
  rewrite byte_at_app_r by lia. unfold byte_at.
  rewrite (proj2 (Z.leb_le 0 _)) by lia. rewrite Nat2Z.id.
  by rewrite lookup_app_l by lia.
Qed.

Lemma IL_READ_UINT32_bytes pre v post :
  Forall is_byte pre -> Forall is_byte post ->
  IL_READ_UINT32 (pre ++ le_bytes 4 v ++ post) (Z.of_nat (length pre))
  = Some (uint32 v).
Proof.
  intros. rewrite IL_READ_UINT32_spec
    by (rewrite !Forall_app; auto using le_bytes_byte).
  pose proof (bytes_at_app pre (le_bytes 4 v) post) as E.
  rewrite length_le_bytes in E. rewrite E. cbn [fmap option_fmap option_map].
  by rewrite le_value_bytes.
Qed.

Lemma bytes_at_byte buf i n l :
  Forall is_byte buf -> bytes_at buf i n = Some l -> Forall is_byte l.
Proof.
  intros Hb Hl. apply mapM_Some_1 in Hl. apply Forall_lookup_2. intros k x Hx.
  destruct (Forall2_lookup_r _ _ _ _ _ Hl Hx) as (j & _ & Hj).
  by apply byte_at_Some in Hj as [_ Hj]; apply Hj.
Qed.

Lemma le_value_nonneg l : Forall is_byte l -> 0 <= le_value l.
Proof. induction 1 as [| b l Hb Hl IH]; cbn; [done |]. unfold is_byte in Hb. fold (le_value l). lia. Qed.

Lemma IL_READ_UINT16_bytes pre v post :
  Forall is_byte pre -> Forall is_byte post ->
  IL_READ_UINT16 (pre ++ le_bytes 2 v ++ post) (Z.of_nat (length pre)) = Some (uint16 v).
Proof.
  intros. rewrite IL_READ_UINT16_spec by (rewrite !Forall_app; auto using le_bytes_byte).
  pose proof (bytes_at_app pre (le_bytes 2 v) post) as E.
  rewrite length_le_bytes in E. rewrite E. cbn [fmap option_fmap option_map].
  by rewrite le_value_bytes.
Qed.

Lemma IL_READ_INT32_bytes pre v post :
  Forall is_byte pre -> Forall is_byte post ->
  IL_READ_INT32 (pre ++ le_bytes 4 v ++ post) (Z.of_nat (length pre)) = Some (int32 v).
Proof.
  intros. rewrite IL_READ_INT32_spec by (rewrite !Forall_app; auto using le_bytes_byte).
  rewrite IL_READ_UINT32_bytes by done. cbn [fmap option_fmap option_map]. f_equal.
  by apply to_signed_unsigned.
Qed.

(** The eight bytes of [v] are those of its low and of its high word. *)
Lemma le_bytes_8 v : le_bytes 8 v = le_bytes 4 v ++ le_bytes 4 (v / 2 ^ 32).
Proof.
  cbn [le_bytes app]. rewrite !Z.div_div by lia.
  repeat (f_equal; try (f_equal; lia)).
Qed.

Lemma IL_READ_INT64_bytes pre v post :
  Forall is_byte pre -> Forall is_byte post ->
  IL_READ_INT64 (pre ++ le_bytes 8 v ++ post) (Z.of_nat (length pre)) = Some (to_signed 64 v).
Proof.
  intros Hpre Hpost. rewrite le_bytes_8, <- app_assoc.
  unfold IL_READ_INT64. rewrite IL_READ_UINT32_bytes
    by (rewrite ?Forall_app; auto using le_bytes_byte).
  cbn [mbind option_bind].
  replace (Z.of_nat (length pre) + 4) with (Z.of_nat (length (pre ++ le_bytes 4 v)))
    by (rewrite length_app, length_le_bytes; lia).
  rewrite app_assoc, IL_READ_INT32_bytes
    by (rewrite ?Forall_app; auto using le_bytes_byte).
  cbn [mbind option_bind]. f_equal.
  unfold int32, uint32. rewrite shiftl_mul by lia.
  pose proof (to_unsigned_range 32 v ltac:(lia)).
  rewrite Z.lor_comm, (lor_disjoint 32) by zlia.
  apply to_signed_eqm. unfold to_signed, to_unsigned. zlia.
Qed.

Lemma IL_READ_UINT64_bytes pre v post :
  Forall is_byte pre -> Forall is_byte post ->
  IL_READ_UINT64 (pre ++ le_bytes 8 v ++ post) (Z.of_nat (length pre)) = Some (to_unsigned 64 v).
Proof.
  intros Hpre Hpost. rewrite le_bytes_8, <- app_assoc.
  unfold IL_READ_UINT64. rewrite IL_READ_UINT32_bytes
    by (rewrite ?Forall_app; auto using le_bytes_byte).
  cbn [mbind option_bind].
  replace (Z.of_nat (length pre) + 4) with (Z.of_nat (length (pre ++ le_bytes 4 v)))
    by (rewrite length_app, length_le_bytes; lia).
  rewrite app_assoc, IL_READ_UINT32_bytes
    by (rewrite ?Forall_app; auto using le_bytes_byte).
  cbn [mbind option_bind]. f_equal.
  unfold uint32. rewrite shiftl_mul by lia.
  pose proof (to_unsigned_range 32 v ltac:(lia)).
  rewrite Z.lor_comm, (lor_disjoint 32) by zlia.
  unfold to_unsigned. zlia.
Qed.

(** Reading stays inside the buffer exactly when the bytes are there. *)
Lemma bytes_at_Some buf i n l :
  (0 < n)%nat -> bytes_at buf i n = Some l ->
  0 <= i /\ i + Z.of_nat n <= Z.of_nat (length buf).
Proof.
  intros Hn Hl. apply mapM_Some_1 in Hl.
  assert (forall k, (k < n)%nat -> is_Some (byte_at buf (i + Z.of_nat k))) as Hk.
  { intros k Hk. destruct (Forall2_lookup_l _ _ _ k k Hl) as (y & _ & Hy);
      [by apply lookup_seq | eauto]. }
  destruct (Hk 0%nat) as [x Hx]; [lia |]. destruct (Hk (n - 1)%nat) as [y Hy]; [lia |].
  apply byte_at_Some in Hx as [Hx _]. apply byte_at_Some in Hy as [Hy _]. lia.
Qed.

(** The little-endian reads recover what was stored there, unsigned or
    signed, and touch only the bytes of the field. *)
Theorem read_little_endian pre v post :
  Forall is_byte pre -> Forall is_byte post ->
  let i := Z.of_nat (length pre) in
  IL_READ_UINT16 (pre ++ le_bytes 2 v ++ post) i = Some (uint16 v) /\
  IL_READ_UINT32 (pre ++ le_bytes 4 v ++ post) i = Some (uint32 v) /\
  IL_READ_INT32 (pre ++ le_bytes 4 v ++ post) i = Some (int32 v) /\
  IL_READ_INT64 (pre ++ le_bytes 8 v ++ post) i = Some (to_signed 64 v) /\
  IL_READ_UINT64 (pre ++ le_bytes 8 v ++ post) i = Some (to_unsigned 64 v).
Proof.
  intros Hpre Hpost i. unfold i.
  split_and!; auto using IL_READ_UINT16_bytes, IL_READ_UINT32_bytes, IL_READ_INT32_bytes,
    IL_READ_INT64_bytes, IL_READ_UINT64_bytes.
Qed.

Lemma read_little_endian_witness :
  IL_READ_INT32 [0xAA; 0xFE; 0xFF; 0xFF; 0xFF; 0xBB] 1 = Some (-2).
Proof.
  destruct (read_little_endian [0xAA] (-2) [0xBB]) as (_ & _ & H & _ & _);
    [repeat constructor; unfold is_byte; lia .. | exact H].
Defined.

(** ** The bytes an operand read needs *)

Lemma byte_at_length l i b : byte_at l i = Some b -> 0 <= i < Z.of_nat (length l).
Proof. intros Hb. by apply byte_at_Some in Hb as [? _]. Qed.

Lemma read_byte_shift_length l i k b :
  _IL_READ_BYTE_SHIFT l i k = Some b -> i < Z.of_nat (length l).
Proof.
  unfold _IL_READ_BYTE_SHIFT. destruct (byte_at l i) eqn:E; [| done].
  apply byte_at_length in E. lia.
Qed.

Ltac read_length :=
  repeat match goal with
  | H : (?o ≫= _) = Some _ |- _ =>
      let E := fresh "E" in destruct o eqn:E; [| discriminate H]; cbn [mbind option_bind] in H
  end;
  repeat match goal with
  | H : _IL_READ_BYTE_SHIFT _ _ _ = Some _ |- _ => apply read_byte_shift_length in H
  end.

Lemma read_uint32_length l i v : IL_READ_UINT32 l i = Some v -> i + 4 <= Z.of_nat (length l).
Proof. unfold IL_READ_UINT32. intros Hr. read_length. lia. Qed.

Lemma read_int32_length l i v : IL_READ_INT32 l i = Some v -> i + 4 <= Z.of_nat (length l).
Proof. unfold IL_READ_INT32. intros Hr. read_length. lia. Qed.

Lemma read_int64_length l i v : IL_READ_INT64 l i = Some v -> i + 8 <= Z.of_nat (length l).
Proof.
  unfold IL_READ_INT64. intros Hr. read_length.
  match goal with H : IL_READ_INT32 _ _ = Some _ |- _ => apply read_int32_length in H end. lia.
Qed.
