(* ===== verification/ILTypes.v ===== *)
(** * ILTypes: the types of the metadata library

    Models the representation of types of src/gcc/cil/include/il_types.h and the
    part of src/gcc/cil/image/meta_types.c that builds signatures and reads them.
    A method signature holds three parameters, a list of locals four; the others
    are in a chain of blocks of four. *)
From S2P Require Import Prelude ILMeta.

(** [struct _tagILType], by the member of the union in use; [kind] is
    [kind__] and [num] is [num__].  A class is known by a number.  Allocation
    ([ILMemPoolCalloc]) is assumed to succeed. *)
Inductive ILType :=
| ILType_Invalid                                       (* the null pointer *)
| Primitive (elem : Z)
| ClassType (info : N)
| ValueType (info : N)
| RefType (kind : Z) (ref : ILType)
| ArrayType (kind : Z) (elem : ILType) (size lowBound : Z)
| MethodType (kind num : Z) (ret p0 p1 p2 next : ILType) (gparams : Z)
| LocalsType (num : Z) (l0 l1 l2 l3 next : ILType)
| ParamsBlock (p0 p1 p2 p3 next : ILType)              (* overflow, kind 0 *)
| ModifierType (kind : Z) (info : N) (type : ILType)
| SentinelType
| VarType (kind num : Z).

(** ** Kinds *)

Definition IL_TYPE_COMPLEX_BYREF : Z := 1.
Definition IL_TYPE_COMPLEX_PTR : Z := 2.
Definition IL_TYPE_COMPLEX_ARRAY : Z := 3.
Definition IL_TYPE_COMPLEX_ARRAY_CONTINUE : Z := 4.
Definition IL_TYPE_COMPLEX_CMOD_REQD : Z := 6.
Definition IL_TYPE_COMPLEX_CMOD_OPT : Z := 7.
Definition IL_TYPE_COMPLEX_PROPERTY : Z := 8.
Definition IL_TYPE_COMPLEX_SENTINEL : Z := 9.
Definition IL_TYPE_COMPLEX_PINNED : Z := 10.
Definition IL_TYPE_COMPLEX_LOCALS : Z := 11.
Definition IL_TYPE_COMPLEX_WITH : Z := 12.
Definition IL_TYPE_COMPLEX_MVAR : Z := 13.
Definition IL_TYPE_COMPLEX_VAR : Z := 14.
Definition IL_TYPE_COMPLEX_METHOD : Z := 16.
Definition IL_TYPE_COMPLEX_METHOD_SENTINEL : Z := 1.

(** [type->kind__] of a complex type. *)
Definition kind__ (t : ILType) : option Z :=
  match t with
  | ILType_Invalid | Primitive _ | ClassType _ | ValueType _ => None
  | RefType k _ | ArrayType k _ _ _ | MethodType k _ _ _ _ _ _ _ | ModifierType k _ _
  | VarType k _ => Some k
  | LocalsType _ _ _ _ _ _ => Some IL_TYPE_COMPLEX_LOCALS
  | ParamsBlock _ _ _ _ _ => Some 0
  | SentinelType => Some IL_TYPE_COMPLEX_SENTINEL
  end.

Definition ILType_Kind (t : ILType) : option Z := (fun k => Z.land k 0xFF) <$> kind__ t.

Definition ILType_IsPrimitive (t : ILType) : bool :=
  match t with Primitive _ => true | _ => false end.
Definition ILType_IsClass (t : ILType) : bool :=
  match t with ClassType _ => true | _ => false end.
Definition ILType_IsValueType (t : ILType) : bool :=
  match t with ValueType _ => true | _ => false end.
Definition ILType_IsComplex (t : ILType) : bool :=
  match t with Primitive _ | ClassType _ | ValueType _ => false | _ => true end.

(** The kind tests of non-null complex types. *)
Definition kind_is (p : Z -> bool) (t : ILType) : bool :=
  match kind__ t with Some k => p k | None => false end.
Definition ILType_IsMethod : ILType -> bool :=
  kind_is (fun k => negb (Z.land k IL_TYPE_COMPLEX_METHOD =? 0)).
Definition ILType_IsProperty : ILType -> bool :=
  kind_is (fun k => Z.land k 0xFF =? IL_TYPE_COMPLEX_PROPERTY).
Definition ILType_IsWith : ILType -> bool :=
  kind_is (fun k => Z.land k 0xFF =? IL_TYPE_COMPLEX_WITH).
Definition ILType_IsPointer : ILType -> bool :=
  kind_is (fun k => Z.land k 0xFF =? IL_TYPE_COMPLEX_PTR).
Definition ILType_IsSimpleArray (t : ILType) : bool :=
  match t with
  | ArrayType k _ _ low => (k =? IL_TYPE_COMPLEX_ARRAY) && (low =? 0)
  | _ => false
  end.
Definition ILType_IsArray : ILType -> bool :=
  kind_is (fun k => (k =? IL_TYPE_COMPLEX_ARRAY) || (k =? IL_TYPE_COMPLEX_ARRAY_CONTINUE)).

(** Assumes a complex type; [None] is a null dereference. *)
Definition ILType_HasThis (t : ILType) : option bool :=
  (fun k => negb (Z.land k (Z.shiftl IL_META_CALLCONV_HASTHIS 8) =? 0)
            && (Z.land k (Z.shiftl IL_META_CALLCONV_EXPLICITTHIS 8) =? 0)) <$> kind__ t.

(** The type has the layout of a method signature. *)
Definition has_signature (t : ILType) : bool :=
  ILType_IsMethod t || ILType_IsProperty t || ILType_IsWith t.

(** ** Construction *)

Definition ILTypeCreateRef (kind : Z) (refType : ILType) : ILType := RefType kind refType.

Fixpoint continue_array (n : nat) (elem : ILType) : ILType :=
  match n with
  | O => elem
  | S n => continue_array n (ArrayType IL_TYPE_COMPLEX_ARRAY_CONTINUE elem 0 0)
  end.
(** The loop makes one node for each dimension after the first. *)
Definition ILTypeCreateArray (rank : Z) (elem : ILType) : ILType :=
  continue_array (Z.to_nat (rank - 1)) (ArrayType IL_TYPE_COMPLEX_ARRAY elem 0 0).

Definition ILTypeCreateMethod (returnType : ILType) : ILType :=
  MethodType IL_TYPE_COMPLEX_METHOD 0 returnType ILType_Invalid ILType_Invalid
    ILType_Invalid ILType_Invalid 0.
Definition ILTypeCreateProperty (propType : ILType) : ILType :=
  MethodType IL_TYPE_COMPLEX_PROPERTY 0 propType ILType_Invalid ILType_Invalid
    ILType_Invalid ILType_Invalid 0.
Definition ILTypeCreateWith (mainType : ILType) : ILType :=
  MethodType IL_TYPE_COMPLEX_WITH 0 mainType ILType_Invalid ILType_Invalid
    ILType_Invalid ILType_Invalid 0.
Definition ILTypeCreateVarNum (kind num : Z) : ILType := VarType kind num.

(** Dimension [dimension] of an array, the outermost first; [None] is an access
    to a type that is not an array. *)
Fixpoint ILTypeSetSize (array : ILType) (dimension : nat) (value : Z) : option ILType :=
  match array, dimension with
  | ArrayType kind elem _ low, O => Some (ArrayType kind elem value low)
  | ArrayType kind elem size low, S dimension =>
      elem ← ILTypeSetSize elem dimension value; Some (ArrayType kind elem size low)
  | _, _ => None
  end.
Fixpoint ILTypeSetLowBound (array : ILType) (dimension : nat) (value : Z) : option ILType :=
  match array, dimension with
  | ArrayType kind elem size _, O => Some (ArrayType kind elem size value)
  | ArrayType kind elem size low, S dimension =>
      elem ← ILTypeSetLowBound elem dimension value; Some (ArrayType kind elem size low)
  | _, _ => None
  end.

(** Put a type at the end of a list of modifiers. *)
Fixpoint ILTypeAddModifiers (modifiers type : ILType) : option ILType :=
  match modifiers with
  | ModifierType kind info ILType_Invalid => Some (ModifierType kind info type)
  | ModifierType kind info next =>
      next ← ILTypeAddModifiers next type; Some (ModifierType kind info next)
  | _ => None
  end.
Definition ILTypeCreateModifier (list : ILType) (kind : Z) (info : N) : option ILType :=
  let type := ModifierType kind info ILType_Invalid in
  match list with ILType_Invalid => Some type | _ => ILTypeAddModifiers list type end.

Definition ILTypeCreateLocalList : ILType :=
  LocalsType 0 ILType_Invalid ILType_Invalid ILType_Invalid ILType_Invalid ILType_Invalid.

(** Store a type as element [num] of a chain of blocks, in a new block if the
    chain ends there; [None] is an access through the null pointer that ends
    the chain. *)
Fixpoint add_slot (block : ILType) (num : Z) (type : ILType) : option ILType :=
  match block with
  | ParamsBlock p0 p1 p2 p3 next =>
      if 4 <=? num then ParamsBlock p0 p1 p2 p3 <$> add_slot next (num - 4) type
      else Some (if num =? 0 then ParamsBlock type p1 p2 p3 next
                 else if num =? 1 then ParamsBlock p0 type p2 p3 next
                 else if num =? 2 then ParamsBlock p0 p1 type p3 next
                 else ParamsBlock p0 p1 p2 type next)
  | ILType_Invalid =>
      if 4 <=? num then None
      else Some (ParamsBlock type ILType_Invalid ILType_Invalid ILType_Invalid ILType_Invalid)
  | _ => None
  end.

(** The signature is modified in place; [num__] is an [unsigned short]. *)
Definition ILTypeAddParam (method paramType : ILType) : option ILType :=
  match method with
  | MethodType kind num ret p0 p1 p2 next gen =>
      if num =? 0 then Some (MethodType kind 1 ret paramType p1 p2 next gen)
      else if num =? 1 then Some (MethodType kind 2 ret p0 paramType p2 next gen)
      else if num =? 2 then Some (MethodType kind 3 ret p0 p1 paramType next gen)
      else next ← add_slot next (num - 3) paramType;
           Some (MethodType kind (uint16 (num + 1)) ret p0 p1 p2 next gen)
  | _ => None
  end.

Definition ILTypeAddSentinel (method : ILType) : option ILType :=
  match method with
  | MethodType kind num ret p0 p1 p2 next gen =>
      ILTypeAddParam
        (MethodType (Z.lor kind IL_TYPE_COMPLEX_METHOD_SENTINEL) num ret p0 p1 p2 next gen)
        SentinelType
  | _ => None
  end.

Definition ILTypeAddWithParam : ILType -> ILType -> option ILType := ILTypeAddParam.

Definition ILTypeAddLocal (locals type : ILType) : option ILType :=
  match locals with
  | LocalsType num l0 l1 l2 l3 next =>
      if num <? 4 then
        Some (if num =? 0 then LocalsType 1 type l1 l2 l3 next
              else if num =? 1 then LocalsType 2 l0 type l2 l3 next
              else if num =? 2 then LocalsType 3 l0 l1 type l3 next
              else LocalsType 4 l0 l1 l2 type next)
      else next ← add_slot next (num - 4) type;
           Some (LocalsType (uint16 (num + 1)) l0 l1 l2 l3 next)
  | _ => None
  end.

(** [kind__] is a [short]. *)
Definition ILTypeSetCallConv (type : ILType) (callConv : Z) : ILType :=
  match type with
  | MethodType kind num ret p0 p1 p2 next gen =>
      if ILType_IsMethod type || ILType_IsProperty type then
        MethodType (to_signed 16 (Z.lor (Z.land kind 0xFF) (Z.shiftl callConv 8)))
          num ret p0 p1 p2 next gen
      else type
  | _ => type
  end.

Definition ILTypeSetReturn (type retType : ILType) : ILType :=
  match type with
  | MethodType kind num ret p0 p1 p2 next gen =>
      if ILType_IsMethod type || ILType_IsProperty type then
        MethodType kind num retType p0 p1 p2 next gen
      else type
  | _ => type
  end.

Definition ILType_SetNumGen (type : ILType) (num : Z) : ILType :=
  match type with
  | MethodType kind n ret p0 p1 p2 next _ => MethodType kind n ret p0 p1 p2 next (uint32 num)
  | _ => type
  end.

(** The number of generic parameters; [None] for other members of the union. *)
Definition ILType_NumGen (type : ILType) : option Z :=
  match type with MethodType _ _ _ _ _ _ _ gen => Some gen | _ => None end.

(** ** Reading *)

Fixpoint ILTypeStripPrefixes (type : ILType) : ILType :=
  match type with
  | ModifierType k _ t =>
      if (k =? IL_TYPE_COMPLEX_CMOD_REQD) || (k =? IL_TYPE_COMPLEX_CMOD_OPT)
      then ILTypeStripPrefixes t else type
  | RefType k t => if k =? IL_TYPE_COMPLEX_PINNED then ILTypeStripPrefixes t else type
  | _ => type
  end.

(** Element [index] of a chain of blocks. *)
Fixpoint get_slot (block : ILType) (index : Z) : option ILType :=
  match block with
  | ParamsBlock p0 p1 p2 p3 next =>
      if 4 <=? index then get_slot next (index - 4)
      else Some (if index =? 0 then p0 else if index =? 1 then p1
                 else if index =? 2 then p2 else p3)
  | _ => None
  end.

Definition ILTypeNumParams (method : ILType) : Z :=
  match method with
  | MethodType _ num _ _ _ _ _ _ => if has_signature method then num else 0
  | _ => 0
  end.

Definition ILTypeGetParamWithPrefixes (method : ILType) (index : Z) : option ILType :=
  match method with
  | MethodType _ num ret p0 p1 p2 next _ =>
      if negb (has_signature method) then Some ILType_Invalid
      else if index =? 0 then Some ret
      else if num <? index then Some ILType_Invalid
      else if index <=? 3 then
        Some (if index =? 1 then p0 else if index =? 2 then p1 else p2)
      else get_slot next (index - 4)
  | _ => Some ILType_Invalid
  end.
Definition ILTypeGetParam (method : ILType) (index : Z) : option ILType :=
  ILTypeStripPrefixes <$> ILTypeGetParamWithPrefixes method index.

Definition ILTypeGetReturnWithPrefixes (type : ILType) : ILType :=
  match type with
  | MethodType _ _ ret _ _ _ _ _ => if has_signature type then ret else ILType_Invalid
  | _ => ILType_Invalid
  end.
Definition ILTypeGetReturn (type : ILType) : ILType :=
  ILTypeStripPrefixes (ILTypeGetReturnWithPrefixes type).

(** [None] is a null dereference. *)
Definition ILTypeNumLocals (locals : ILType) : option Z :=
  match locals with
  | LocalsType num _ _ _ _ _ => Some num
  | _ => (fun _ => 0) <$> kind__ locals
  end.

(** The chain may end before [index]: the null type. *)
Definition ILTypeGetLocalWithPrefixes (locals : ILType) (index : Z) : ILType :=
  match locals with
  | LocalsType _ l0 l1 l2 l3 next =>
      if 4 <=? index then default ILType_Invalid (get_slot next (index - 4))
      else if index =? 0 then l0 else if index =? 1 then l1 else if index =? 2 then l2 else l3
  | _ => ILType_Invalid
  end.
Definition ILTypeGetLocal (locals : ILType) (index : Z) : ILType :=
  ILTypeStripPrefixes (ILTypeGetLocalWithPrefixes locals index).

(** [type] is not a null pointer that is dereferenced: the loop tests it. *)
Fixpoint ILTypeGetElemType (type : ILType) : ILType :=
  match type with
  | ArrayType k elem _ _ =>
      if k =? IL_TYPE_COMPLEX_ARRAY_CONTINUE then ILTypeGetElemType elem
      else if k =? IL_TYPE_COMPLEX_ARRAY then elem else ILType_Invalid
  | _ => ILType_Invalid
  end.

(** ** Chains of blocks as lists *)

(** The elements of the blocks, used or not. *)
Fixpoint slots (block : ILType) : list ILType :=
  match block with
  | ParamsBlock p0 p1 p2 p3 next => p0 :: p1 :: p2 :: p3 :: slots next
  | _ => []
  end.

(** A chain with room for [num] elements and no block too many. *)
Fixpoint chain_ok (block : ILType) (num : Z) : Prop :=
  match block with
  | ParamsBlock _ _ _ _ next => 0 < num /\ chain_ok next (Z.max 0 (num - 4))
  | ILType_Invalid => num = 0
  | _ => False
  end.

Lemma chain_ok_length block num :
  chain_ok block num -> 0 <= num <= Z.of_nat (length (slots block)).
Proof.
  revert num. induction block; intros n; cbn [chain_ok slots length]; try done; [lia |].
  intros [Hp Hn]. apply IHblock5 in Hn. lia.
Qed.

Lemma get_slot_lookup block i :
  0 <= i -> get_slot block i = slots block !! Z.to_nat i.
Proof.
  revert i. induction block; intros i Hi; cbn [get_slot slots]; try (by rewrite lookup_nil).
  destruct (Z.leb_spec 4 i).
  - rewrite IHblock5 by lia.
    by replace (Z.to_nat i) with (S (S (S (S (Z.to_nat (i - 4)))))) by lia.
  - assert (i = 0 \/ i = 1 \/ i = 2 \/ i = 3) as [-> | [-> | [-> | ->]]] by lia; done.
Qed.

(** Storing at the end of the elements in use appends. *)
Lemma add_slot_spec block num t :
  chain_ok block num ->
  exists block', add_slot block num t = Some block' /\ chain_ok block' (num + 1) /\
    take (Z.to_nat (num + 1)) (slots block') = take (Z.to_nat num) (slots block) ++ [t].
Proof.
  revert num. induction block; intros n; cbn [chain_ok slots add_slot]; try done.
  - intros ->. cbn. eexists. split; [done |]. done.
  - intros [Hp Hn]. destruct (Z.leb_spec 4 n).
    + rewrite Z.max_r in Hn by lia. destruct (IHblock5 _ Hn) as (b & -> & Hb & Ht).
      eexists. split; [done |]. cbn [chain_ok slots]. split.
      * split; [lia |]. rewrite Z.max_r by lia. by replace (n + 1 - 4) with (n - 4 + 1) by lia.
      * replace (Z.to_nat (n + 1)) with (S (S (S (S (Z.to_nat (n - 4 + 1)))))) by lia.
        replace (Z.to_nat n) with (S (S (S (S (Z.to_nat (n - 4)))))) by lia.
        cbn. by rewrite Ht.
    + rewrite Z.max_l in Hn by lia.
      assert (n = 1 \/ n = 2 \/ n = 3) as [-> | [-> | ->]] by lia; cbn [Z.eqb Pos.eqb];
        eexists; (split; [reflexivity |]); cbn [chain_ok slots];
        (split; [split; [lia | done] | done]).
Qed.

(** ** Signatures *)

(** The parameters of a signature, its prefixes included. *)
Definition signature_params (t : ILType) : list ILType :=
  match t with
  | MethodType _ num _ p0 p1 p2 next _ => take (Z.to_nat num) (p0 :: p1 :: p2 :: slots next)
  | _ => []
  end.

Definition signature_ok (t : ILType) : Prop :=
  match t with
  | MethodType _ num _ _ _ _ next _ =>
      has_signature t = true /\ 0 <= num < 2 ^ 16 /\ chain_ok next (Z.max 0 (num - 3))
  | _ => False
  end.

Lemma signature_params_length t :
  signature_ok t -> Z.of_nat (length (signature_params t)) = ILTypeNumParams t.
Proof.
  destruct t as [ | | | | | | kind num ret p0 p1 p2 next gen | | | | |]; try done.
  intros (Hs & Hn & Hc). apply chain_ok_length in Hc. unfold ILTypeNumParams. rewrite Hs.
  cbn [signature_params]. rewrite length_take. cbn [length]. lia.
Qed.

(** A parameter is the element of its number. *)
Lemma get_param_lookup t i :
  signature_ok t -> 1 <= i <= ILTypeNumParams t ->
  exists p, ILTypeGetParamWithPrefixes t i = Some p /\
    signature_params t !! Z.to_nat (i - 1) = Some p.
Proof.
  destruct t as [ | | | | | | kind num ret p0 p1 p2 next gen | | | | |]; try done.
  intros (Hs & Hn & Hc). unfold ILTypeNumParams, ILTypeGetParamWithPrefixes. rewrite Hs.
  cbn [negb signature_params]. intros Hi. apply chain_ok_length in Hc.
  rewrite (proj2 (Z.eqb_neq i 0)), (proj2 (Z.ltb_ge num i)) by lia.
  rewrite lookup_take, decide_True by lia. destruct (Z.leb_spec i 3).
  - assert (i = 1 \/ i = 2 \/ i = 3) as [-> | [-> | ->]] by lia; by eexists.
  - rewrite get_slot_lookup by lia.
    replace (Z.to_nat (i - 1)) with (S (S (S (Z.to_nat (i - 4))))) by lia. cbn.
    destruct (lookup_lt_is_Some_2 (slots next) (Z.to_nat (i - 4))) as [p Hp]; [lia |].
    exists p. split; [exact Hp | exact Hp].
Qed.

(** Adding a parameter appends it, and changes nothing else of the signature. *)
Lemma add_param_spec t p :
  signature_ok t -> ILTypeNumParams t < 2 ^ 16 - 1 ->
  exists t', ILTypeAddParam t p = Some t' /\ signature_ok t' /\
    signature_params t' = signature_params t ++ [p] /\
    kind__ t' = kind__ t /\
    ILTypeGetReturnWithPrefixes t' = ILTypeGetReturnWithPrefixes t.
Proof.
  destruct t as [ | | | | | | kind num ret p0 p1 p2 next gen | | | | |]; try done.
  intros (Hs & Hn & Hc). unfold ILTypeNumParams. rewrite Hs. intros Hb.
  change (has_signature (MethodType kind num ret p0 p1 p2 next gen))
    with (has_signature (MethodType kind 0 ret p p p p 0)) in Hs.
  unfold ILTypeAddParam, ILTypeGetReturnWithPrefixes.
  assert (num = 0 \/ num = 1 \/ num = 2 \/ 3 <= num) as [-> | [-> | [-> | Hm]]] by lia;
    cbn [Z.eqb Pos.eqb].
  1-3: eexists; split_and!; [done | | done ..]; split_and!; [exact Hs | lia | lia | exact Hc].
  rewrite !(proj2 (Z.eqb_neq num _)) by lia.
  rewrite Z.max_r in Hc by lia. destruct (add_slot_spec next (num - 3) p Hc) as (b & -> & Hb' & Ht).
  assert (uint16 (num + 1) = num + 1) as -> by (unfold uint16; apply to_unsigned_small; lia).
  eexists. split; [done |]. split; [| split; [| done]].
  - split_and!; [exact Hs | lia | lia |]. rewrite Z.max_r by lia.
    by replace (num + 1 - 3) with (num - 3 + 1) by lia.
  - cbn [signature_params].
    replace (Z.to_nat (num + 1)) with (S (S (S (Z.to_nat (num - 3 + 1))))) by lia.
    replace (Z.to_nat num) with (S (S (S (Z.to_nat (num - 3))))) by lia.
    cbn. by rewrite Ht.
Qed.

(** ** Lists of locals *)

Definition locals_list (t : ILType) : list ILType :=
  match t with
  | LocalsType num l0 l1 l2 l3 next => take (Z.to_nat num) (l0 :: l1 :: l2 :: l3 :: slots next)
  | _ => []
  end.

Definition locals_ok (t : ILType) : Prop :=
  match t with
  | LocalsType num _ _ _ _ next => 0 <= num < 2 ^ 16 /\ chain_ok next (Z.max 0 (num - 4))
  | _ => False
  end.

Lemma locals_list_length t :
  locals_ok t -> ILTypeNumLocals t = Some (Z.of_nat (length (locals_list t))).
Proof.
  destruct t as [ | | | | | | | num l0 l1 l2 l3 next | | | |]; try done.
  intros (Hn & Hc). apply chain_ok_length in Hc. cbn [ILTypeNumLocals locals_list].
  f_equal. rewrite length_take. cbn [length]. lia.
Qed.

Lemma get_local_lookup t i l :
  locals_ok t -> locals_list t !! i = Some l ->
  ILTypeGetLocalWithPrefixes t (Z.of_nat i) = l.
Proof.
  destruct t as [ | | | | | | | num l0 l1 l2 l3 next | | | |]; try done.
  intros (Hn & Hc). cbn [locals_list ILTypeGetLocalWithPrefixes].
  rewrite lookup_take. case_decide; [| done]. intros Hl. destruct (Z.leb_spec 4 (Z.of_nat i)).
  - rewrite get_slot_lookup by lia.
    do 4 (destruct i as [| i]; [lia |]). cbn in Hl.
    replace (Z.to_nat (Z.of_nat (S (S (S (S i)))) - 4)) with i by lia.
    change (slots next !! i = Some l) in Hl. by rewrite Hl.
  - do 4 (destruct i as [| i]; [by simplify_eq/= |]). lia.
Qed.

Lemma add_local_spec t l :
  locals_ok t -> Z.of_nat (length (locals_list t)) < 2 ^ 16 - 1 ->
  exists t', ILTypeAddLocal t l = Some t' /\ locals_ok t' /\
    locals_list t' = locals_list t ++ [l].
Proof.
  intros Hok. pose proof (locals_list_length t Hok) as Hlen. revert Hok Hlen.
  destruct t as [ | | | | | | | num l0 l1 l2 l3 next | | | |]; try done.
  intros (Hn & Hc) Hlen Hb. assert (num < 2 ^ 16 - 1) by (injection Hlen as ->; exact Hb).
  clear Hlen Hb.
  unfold ILTypeAddLocal. destruct (Z.ltb_spec num 4).
  - assert (num = 0 \/ num = 1 \/ num = 2 \/ num = 3) as [-> | [-> | [-> | ->]]] by lia;
      cbn [Z.eqb Pos.eqb]; (eexists; split_and!; [done | split_and!; [lia | lia | exact Hc] | done]).
  - rewrite Z.max_r in Hc by lia.
    destruct (add_slot_spec next (num - 4) l Hc) as (b & -> & Hb' & Ht).
    assert (uint16 (num + 1) = num + 1) as -> by (unfold uint16; apply to_unsigned_small; lia).
    eexists. split; [done |]. split.
    + split_and!; [lia | lia |]. rewrite Z.max_r by lia.
      by replace (num + 1 - 4) with (num - 4 + 1) by lia.
    + cbn [locals_list].
      replace (Z.to_nat (num + 1)) with (S (S (S (S (Z.to_nat (num - 4 + 1)))))) by lia.
      replace (Z.to_nat num) with (S (S (S (S (Z.to_nat (num - 4)))))) by lia.
      cbn. by rewrite Ht.
Qed.

Lemma strip_idemp t : ILTypeStripPrefixes (ILTypeStripPrefixes t) = ILTypeStripPrefixes t.
Proof.
  induction t; cbn [ILTypeStripPrefixes]; try done;
    repeat (match goal with |- context [if ?b then _ else _] => destruct b eqn:? end;
            cbn [ILTypeStripPrefixes]); try done; by rewrite ?Heqb.
Qed.
