(* ===== verification/Program.v ===== *)
(** * Program: the objects of a loaded assembly

    Models the records of src/gcc/cil/image/program.h that the front end reads,
    their accessors (src/gcc/cil/include/il_program.h), and the functions of
    src/gcc/cil/image/class.c and src/gcc/cil/image/meta_types.c on classes.
    Classes, methods and fields are pointers: a number stands for one, and the
    [Program] gives the objects they point to, as the loader left them.  The
    loader, the links between assemblies included, is a parameter. *)
From S2P Require Import Prelude ILMeta ILTypes.

(** ** Objects *)

(** A member of a class, in the order of the list of members. *)
Inductive ILMember :=
| Member_method (method : N)
| Member_field (field : N)
| Member_override (decl body : N)
| Member_other.                    (* properties, events and the rest *)

(** [className->scope]: the class it is nested in, the assembly that a class
    reference names, or something else. *)
Inductive class_scope :=
| Scope_class (parent : N)
| Scope_assembly_ref (name : string)
| Scope_other.

Record ILClass := mkClass {
  ilclass_image : N;
  ilclass_attributes : Z;
  ilclass_name : string;
  ilclass_namespace : option string;     (* [None] is a null pointer *)
  ilclass_scope : class_scope;
  ilclass_parent : option N;
  ilclass_implements : list N;           (* the interfaces *)
  ilclass_members : list ILMember;
  ilclass_synthetic : ILType
}.

(** A parameter: its number and its name. *)
Record ILMethod := mkMethod {
  ilmethod_token : Z;
  ilmethod_owner : N;
  ilmethod_attributes : Z;
  ilmethod_name : string;
  ilmethod_signature : ILType;
  ilmethod_implementAttrs : Z;
  ilmethod_rva : Z;
  ilmethod_parameters : list (Z * string)
}.

(** A constant: its element type and its blob, if it has one. *)
Record ILField := mkILField {
  ilfield_owner : N;
  ilfield_attributes : Z;
  ilfield_name : string;
  ilfield_signature : ILType;
  ilfield_constant : option (Z * option (list Z))
}.

Class Program := {
  class_info : N -> ILClass;
  method_info : N -> ILMethod;
  field_info : N -> ILField;
  (** The image being compiled. *)
  c_image : N;
  (** The name of the assembly of an image. *)
  ILImageGetAssemblyName : N -> string;
  (** Tokens of that image; [None] is a null pointer. *)
  ILClass_FromToken : Z -> option N;
  ILMethod_FromToken : Z -> option N;
  ILField_FromToken : Z -> option N;
  ILImageNumTokens : Z -> Z;
  ILImageGetEntryPoint : Z;
  (** The locals of a stand-alone signature, if the token is one. *)
  ILStandAloneSig_FromToken : Z -> option ILType;
  (** The bytes of the heap from the string on, and its length. *)
  ILImageGetUserString : Z -> option (list Z * Z);
  (** The bytes of the image from an address on, to the end of its section. *)
  ILImageMapRVA : Z -> option (list Z);
  (** The class at the end of the links of a class, and of those that stay in
      the image ([_ILProgramItemResolve], [_ILProgramItemResolveRef]). *)
  ILClassResolve : N -> N;
  ILClassResolveRef : N -> N;
  (** The classes that wait for the end of loading
      ([context->numRedoItems]). *)
  numRedoItems : Z;
  (** The image of the assembly of a name, loaded before or found in the
      library directories ([ILContextGetAssembly], [load_assembly]). *)
  assembly_image : string -> option N;
  (** A class of the global scope of an image ([ILClassLookup]). *)
  ILClassLookup : N -> string -> option string -> option N;
  (** [ILTypeGetWithMain] and [ILClassFromType] of the generics library. *)
  class_of_instance : N -> option N;
  (** Whether two equal complex types are one node of the loader's pool. *)
  same_type_node : ILType -> ILType -> bool;
  (** What [ILType_Kind] reads through the tagged pointer of a value type, a
      byte of the class object. *)
  tagged_kind : N -> Z;
  (** How the machine of the compiler stores an [int]. *)
  little_endian : bool;
  (** A bound for the loops along parents and nesting classes. *)
  max_depth : nat;
  (** A bound for the calls of the readers of types and classes inside each
      other. *)
  reader_fuel : nat
}.

Section program.
Context `{Program} {S : Type}.

(** ** Accessors *)

Definition ILClass_Name (k : N) : string := ilclass_name (class_info k).
Definition ILClass_Namespace (k : N) : option string := ilclass_namespace (class_info k).
Definition ILClassToImage (k : N) : N := ilclass_image (class_info k).
Definition ILClassIsRef (k : N) : bool :=
  negb (Z.land (ilclass_attributes (class_info k)) 0x80000000 =? 0).
Definition visibility (k : N) : Z :=
  Z.land (ilclass_attributes (class_info k)) IL_META_TYPEDEF_VISIBILITY_MASK.
Definition ILClass_IsNestedPublic (k : N) : bool := visibility k =? 2.
Definition ILClass_IsNestedPrivate (k : N) : bool := visibility k =? 3.
Definition ILClass_IsNestedFamily (k : N) : bool := visibility k =? 4.
Definition ILClass_IsInterface (k : N) : bool :=
  Z.land (ilclass_attributes (class_info k)) IL_META_TYPEDEF_CLASS_SEMANTICS_MASK =? 0x20.
Definition ILClass_IsBeforeFieldInit (k : N) : bool :=
  negb (Z.land (ilclass_attributes (class_info k)) 0x100000 =? 0).
Definition ILClassGetParent (k : N) : option N :=
  ILClassResolve <$> ilclass_parent (class_info k).
Definition ILClassGetParentRef (k : N) : option N :=
  ILClassResolveRef <$> ilclass_parent (class_info k).
Definition ILClassGetNestedParent (k : N) : option N :=
  match ilclass_scope (class_info k) with Scope_class p => Some p | _ => None end.

(** The members that [ILClassNextMember] goes through. *)
Definition ILClassGetUnderlying (k : N) : option N :=
  if ILType_IsWith (ilclass_synthetic (class_info k)) then class_of_instance k else Some k.
Definition class_members (k : N) : list ILMember :=
  match ILClassGetUnderlying k with Some k => ilclass_members (class_info k) | None => [] end.

(** Those of one kind, for [ILClassNextMemberByKind]. *)
Definition class_methods (k : N) : list N :=
  omap (fun m => match m with Member_method m => Some m | _ => None end) (class_members k).
Definition class_fields (k : N) : list N :=
  omap (fun m => match m with Member_field f => Some f | _ => None end) (class_members k).
Definition class_overrides (k : N) : list (N * N) :=
  omap (fun m => match m with Member_override d b => Some (d, b) | _ => None end)
    (class_members k).

(** [ILClass_IsNestedPublic], [..Private] or [..Family]; the callers do not see
    the other nested classes as nested. *)
Definition is_nested (k : N) : bool :=
  ILClass_IsNestedPublic k || ILClass_IsNestedPrivate k || ILClass_IsNestedFamily k.

(** [get_class_ref_scope] and [get_assembly_ref_name] (pnet.c): the scope of an
    external class must be a reference to an assembly. *)
Definition get_assembly_ref_name (class_ref : N) : comp S string :=
  match ilclass_scope (class_info class_ref) with
  | Scope_assembly_ref name => mret name
  | _ => internal_error "cannot find scope of external class '%s.%s'"
  end.

(** [resolve_class_ref] (pnet.c).  It also links the reference to the class, so
    that the next call finds it at once. *)
Definition resolve_class_ref (class_ref : N) : comp S N :=
  if negb (ILClassIsRef class_ref) then internal_error "class '%s.%s' is not a reference"
  else
    let rclass := ILClassResolve class_ref in
    if negb (bool_decide (rclass = class_ref)) then mret rclass
    else
      assem_name ← get_assembly_ref_name class_ref;
      match assembly_image assem_name with
      | None => internal_error "Cannot find %s.dll"
      | Some import_image =>
          match ILClassLookup import_image (ILClass_Name class_ref)
                  (ILClass_Namespace class_ref) with
          | Some rclass => mret rclass
          | None => internal_error "Cannot find class '%s.%s' in '%s.dll'"
          end
      end.

Definition ILMethod_Owner (m : N) : N := ilmethod_owner (method_info m).
Definition ILMethod_Name (m : N) : string := ilmethod_name (method_info m).
Definition ILMethod_Signature (m : N) : ILType := ilmethod_signature (method_info m).
Definition ILMethod_Attrs (m : N) : Z := ilmethod_attributes (method_info m).
Definition ILMethod_IsStatic (m : N) : bool :=
  negb (Z.land (ILMethod_Attrs m) IL_META_METHODDEF_STATIC =? 0).
Definition ILMethod_IsVirtual (m : N) : bool :=
  negb (Z.land (ILMethod_Attrs m) IL_META_METHODDEF_VIRTUAL =? 0).
Definition ILMethod_IsNewSlot (m : N) : bool :=
  Z.land (ILMethod_Attrs m) IL_META_METHODDEF_NEW_SLOT =? IL_META_METHODDEF_NEW_SLOT.
Definition ILMethod_IsRuntime (m : N) : bool :=
  Z.land (ilmethod_implementAttrs (method_info m)) IL_META_METHODIMPL_CODE_TYPE_MASK =? 3.

Definition ILField_Owner (f : N) : N := ilfield_owner (field_info f).
Definition ILField_Name (f : N) : string := ilfield_name (field_info f).
Definition ILField_IsStatic (f : N) : bool :=
  negb (Z.land (ilfield_attributes (field_info f)) IL_META_FIELDDEF_STATIC =? 0).
Definition ILField_HasRTSpecialName (f : N) : bool :=
  negb (Z.land (ilfield_attributes (field_info f)) IL_META_FIELDDEF_RT_SPECIAL_NAME =? 0).
Definition ILFieldGetType (f : N) : ILType :=
  ILTypeStripPrefixes (ilfield_signature (field_info f)).

(** [strcmp]: a null pointer is undefined. *)
Definition strcmp_eq (a b : option string) : comp S bool :=
  match a, b with
  | Some a, Some b => mret (String.eqb a b)
  | _, _ => fail (Undefined "strcmp")
  end.

(** ** Value types and enumerations *)

Fixpoint InheritsFromValueType (fuel : nat) (info : option N) : comp S bool :=
  match info, fuel with
  | None, _ => mret false
  | Some _, O => fail Out_of_fuel
  | Some k, Datatypes.S fuel =>
      let k := ILClassResolve k in
      found ←
        (if String.eqb (ILClass_Name k) "ValueType" then
           b ← strcmp_eq (ILClass_Namespace k) (Some "System"%string);
           mret (b && bool_decide (ILClassGetNestedParent k = None))
         else mret false);
      if (found : bool) then mret true else InheritsFromValueType fuel (ILClassGetParentRef k)
  end.

Definition ILClassIsValueType (info : N) : comp S bool :=
  let newInfo := ILClassResolve info in
  let a := ilclass_attributes (class_info newInfo) in
  let sem := Z.land a IL_META_TYPEDEF_CLASS_SEMANTICS_MASK in
  if (sem =? 0x40) || (sem =? 0x60) then mret true
  else if negb (Z.land a 0x100 =? 0) then InheritsFromValueType max_depth (Some newInfo)
  else mret false.

Definition ILClassToTypeDirect (info : N) : comp S ILType :=
  b ← ILClassIsValueType info;
  mret (if (b : bool) then ValueType info else ClassType info).

(** The element types of the system classes of these names. *)
Definition system_types : list (string * Z) :=
  [("Boolean", 0x02); ("SByte", 0x04); ("Byte", 0x05); ("Int16", 0x06); ("UInt16", 0x07);
   ("Char", 0x03); ("Int32", 0x08); ("UInt32", 0x09); ("Int64", 0x0A); ("UInt64", 0x0B);
   ("Single", 0x0C); ("Double", 0x0D); ("IntPtr", 0x18); ("UIntPtr", 0x19); ("Void", 0x01);
   ("TypedReference", 0x16)]%string.

Definition ILClassToType (info : N) : comp S ILType :=
  match ilclass_synthetic (class_info info) with
  | ILType_Invalid =>
      match
        (if bool_decide (ILClass_Namespace info = Some "System"%string)
            && bool_decide (ILClassGetNestedParent info = None)
         then List.find (fun p => String.eqb (ILClass_Name info) p.1) system_types
         else None) with
      | Some (_, e) => mret (Primitive e)
      | None => ILClassToTypeDirect info
      end
  | t => mret t
  end.

(** The parent of the class is the class of [System] of this name. *)
Definition system_parent (name : string) (k : N) : bool :=
  match ILClassGetParent k with
  | Some p => bool_decide (ILClass_Namespace p = Some "System"%string)
              && String.eqb (ILClass_Name p) name
  | None => false
  end.

Definition ILTypeIsEnum (type : ILType) : bool :=
  match type with ValueType k => system_parent "Enum" (ILClassResolve k) | _ => false end.

Definition ILTypeGetEnumType (type : ILType) : ILType :=
  match type with
  | ValueType k =>
      let k := ILClassResolve k in
      if system_parent "Enum" k then
        match List.find (fun f => negb (ILField_IsStatic f) && ILField_HasRTSpecialName f)
                (class_fields k) with
        | Some f => ILFieldGetType f
        | None => type
        end
      else type
  | _ => type
  end.

Definition ILTypeGetDelegateMethod (type : ILType) : option N :=
  match type with
  | ClassType k =>
      let k := ILClassResolve k in
      if system_parent "MulticastDelegate" k then
        List.find (fun m => String.eqb (ILMethod_Name m) "Invoke") (class_methods k)
      else None
  | _ => None
  end.
Definition ILTypeIsDelegate (type : ILType) : bool :=
  bool_decide (ILTypeGetDelegateMethod type <> None).

Definition ILMethod_IsStaticConstructor (m : N) : comp S bool :=
  if String.eqb (ILMethod_Name m) ".cctor"
     && negb (Z.land (ILMethod_Attrs m) IL_META_METHODDEF_RT_SPECIAL_NAME =? 0)
     && negb (ILMethod_IsVirtual m) then
    let sig := ILMethod_Signature m in
    has_this ← lift "signature" (ILType_HasThis sig);
    match sig with
    | MethodType _ num ret _ _ _ _ _ =>
        mret (negb has_this && (num =? 0)
              && match ret with Primitive e => e =? 0x01 | _ => false end)
    | _ => fail (Undefined "signature")
    end
  else mret false.

End program.
