(* ===== verification/SampleProgram.v ===== *)
(** * SampleProgram: a loaded assembly

    A small assembly, on which the witnesses of the theorems about classes,
    methods and names run. *)
From S2P Require Import Prelude ILTypes Program.

(** [instance ret (params)] with up to three parameters, and static. *)
Definition sample_signature (kind : Z) (ret : ILType) (params : list ILType) : ILType :=
  let p i := default ILType_Invalid (params !! i) in
  MethodType kind (Z.of_nat (length params)) ret (p 0%nat) (p 1%nat) (p 2%nat) ILType_Invalid 0.
Definition instance_kind : Z := 0x2010.
Definition static_kind : Z := 0x10.

Definition sample_class_info (name ns : string) (parent : option N) (members : list N) : ILClass :=
  mkClass 0 1 name (Some ns) Scope_other parent [] (Member_method <$> members) ILType_Invalid.
Definition sample_method_info (owner : N) (attributes : Z) (name : string) (sig : ILType)
    : ILMethod :=
  mkMethod 0 owner attributes name sig 0 0 [].

(** Virtual and public, in a slot of its own or that of the parent. *)
Definition new_slot : Z := 0x146.
Definition reuse_slot : Z := 0x046.
Definition int32_type : ILType := Primitive 0x08.

(** [System.Object] (1) has one virtual method; [N.Base] (2) adds [f] and [g];
    [N.Derived] (3) overrides [g] and adds [h]; [N.Hiding] (4)
    hides [g] with a method in a new slot.  [N.I] (5) is an interface with a method
    [g], which [N.Overrides] (6) implements by overriding [N.Base.g] and
    [N.Inherits] (7) by inheriting it.  The other classes have names
    that differ only in a namespace, and [A.Owner] (10) has static methods that
    take them, and one without parameters, with the token [0x06000001];
    [N.Base.f] and [N.Derived.g] have the next two tokens.  [N.S] (20), of another
    image, is a value type with a static field of its own type. *)
Definition sample_classes (k : N) : ILClass :=
  match k with
  | 1%N => sample_class_info "Object" "System" None [1%N]
  | 2%N => sample_class_info "Base" "N" (Some 1%N) [2%N; 3%N]
  | 3%N => sample_class_info "Derived" "N" (Some 2%N) [5%N; 4%N]
  | 4%N => sample_class_info "Hiding" "N" (Some 2%N) [6%N]
  | 5%N => mkClass 0 0xA1 "I" (Some "N"%string) Scope_other None [] [Member_method 7] ILType_Invalid
  | 6%N => mkClass 0 1 "Overrides" (Some "N"%string) Scope_other (Some 2%N) [5%N]
             [Member_method 8] ILType_Invalid
  | 7%N => mkClass 0 1 "Inherits" (Some "N"%string) Scope_other (Some 2%N) [5%N] [] ILType_Invalid
  | 10%N => sample_class_info "Owner" "A" (Some 1%N) [10%N; 11%N; 13%N]
  | 11%N => sample_class_info "K" "A.D" (Some 1%N) []
  | 12%N => sample_class_info "K" "C.D" (Some 1%N) []
  | 20%N => mkClass 1 0x41 "S" (Some "N"%string) Scope_other None [] [Member_field 1] ILType_Invalid
  | _ => sample_class_info "" "" None []
  end.
Definition sample_methods (m : N) : ILMethod :=
  match m with
  | 1%N => sample_method_info 1 new_slot "ToString" (sample_signature instance_kind (ClassType 1) [])
  | 2%N => sample_method_info 2 new_slot "f" (sample_signature instance_kind int32_type [int32_type])
  | 3%N => sample_method_info 2 new_slot "g" (sample_signature instance_kind int32_type [])
  | 4%N => sample_method_info 3 reuse_slot "g" (sample_signature instance_kind int32_type [])
  | 5%N => sample_method_info 3 new_slot "h" (sample_signature instance_kind int32_type [])
  | 6%N => sample_method_info 4 new_slot "g" (sample_signature instance_kind int32_type [])
  | 7%N => sample_method_info 5 new_slot "g" (sample_signature instance_kind int32_type [])
  | 8%N => sample_method_info 6 reuse_slot "g" (sample_signature instance_kind int32_type [])
  | 10%N => sample_method_info 10 0x16 "f" (sample_signature static_kind int32_type [ClassType 11])
  | 11%N => sample_method_info 10 0x16 "f" (sample_signature static_kind int32_type [ClassType 12])
  | 12%N => sample_method_info 2 0x16 "f" (sample_signature static_kind int32_type [ClassType 3])
  | 13%N => sample_method_info 10 0x16 "f" (sample_signature static_kind int32_type [])
  | _ => sample_method_info 0 0 "" ILType_Invalid
  end.

Definition sample_program : Program := {|
  class_info := sample_classes;
  method_info := sample_methods;
  field_info := fun _ => mkILField 20 0x16 "Empty" (ValueType 20) None;
  c_image := 0;
  ILImageGetAssemblyName := fun _ => "app"%string;
  ILClass_FromToken := fun _ => None;
  ILMethod_FromToken := fun t => if t =? 0x06000001 then Some 13%N else if t =? 0x06000002 then Some 2%N
    else if t =? 0x06000003 then Some 4%N else None;
  ILField_FromToken := fun _ => None;
  ILImageNumTokens := fun _ => 0;
  ILImageGetEntryPoint := 0;
  ILStandAloneSig_FromToken := fun _ => None;
  ILImageGetUserString := fun _ => None;
  ILImageMapRVA := fun _ => None;
  ILClassResolve := fun k => k;
  ILClassResolveRef := fun k => k;
  numRedoItems := 0;
  assembly_image := fun _ => None;
  ILClassLookup := fun _ _ _ => None;
  class_of_instance := fun _ => None;
  same_type_node := fun _ _ => false;
  tagged_kind := fun _ => 0;
  little_endian := true;
  max_depth := 10;
  reader_fuel := 10
|}.
