(* ===== verification/Members.v ===== *)
(** * Members: comparing types, access to members, and overriding

    Models [ILTypeIdentical] of src/gcc/cil/image/meta_types.c, the access
    rules, inheritance and [ILClassGetMethodImpl] of src/gcc/cil/image/class.c,
    and [ILMemberAccessible] and [ILMemberGetBase] of
    src/gcc/cil/image/member.c.  These decide which method overrides which. *)
From S2P Require Import Prelude ILMeta ILTypes Program.

Section members.
Context `{Program} {S : Type}.

(** ** Identity of types *)

Fixpoint ClassIdentical (fuel : nat) (classInfo1 classInfo2 : N) : comp S bool :=
  match fuel with
  | O => fail Out_of_fuel
  | Datatypes.S fuel =>
      let k1 := ILClassResolve classInfo1 in
      let k2 := ILClassResolve classInfo2 in
      if bool_decide (k1 = k2) then mret true
      else if numRedoItems =? 0 then mret false
      else if negb (ILClassIsRef k1) && negb (ILClassIsRef k2) then mret false
      else if negb (String.eqb (ILClass_Name k1) (ILClass_Name k2)) then mret false
      else if negb (bool_decide (ILClass_Namespace k1 = ILClass_Namespace k2)) then mret false
      else match ILClassGetNestedParent k1, ILClassGetNestedParent k2 with
           | Some p1, Some p2 => ClassIdentical fuel p1 p2
           | None, None => mret true
           | _, _ => mret false
           end
  end.

(** The loop over the parameters [arg .. num]. *)
Fixpoint params_identical (identical : ILType -> ILType -> comp S bool) (type1 type2 : ILType)
    (n : nat) (arg : Z) : comp S bool :=
  match n with
  | O => mret true
  | Datatypes.S n =>
      p1 ← lift "ILTypeGetParamWithPrefixes" (ILTypeGetParamWithPrefixes type1 arg);
      p2 ← lift "ILTypeGetParamWithPrefixes" (ILTypeGetParamWithPrefixes type2 arg);
      b ← identical p1 p2;
      if (b : bool) then params_identical identical type1 type2 n (arg + 1) else mret false
  end.

(** The test that two types are the same node is left out: comparing a node
    with itself gives the same result.  [fuel] bounds the depth of the types. *)
Fixpoint type_identical (fuel : nat) (type1 type2 : ILType) : comp S bool :=
  match fuel with
  | O => fail Out_of_fuel
  | Datatypes.S fuel =>
      match ILTypeStripPrefixes type1, ILTypeStripPrefixes type2 with
      | ILType_Invalid, ILType_Invalid => mret true
      | ILType_Invalid, _ | _, ILType_Invalid => mret false
      | Primitive e1, Primitive e2 => mret (e1 =? e2)
      | ClassType k1, ClassType k2 | ValueType k1, ValueType k2 => ClassIdentical max_depth k1 k2
      | Primitive _, _ | ClassType _, _ | ValueType _, _
      | _, Primitive _ | _, ClassType _ | _, ValueType _ => mret false
      | RefType c1 r1, RefType c2 r2 =>
          if (c1 =? c2) && ((c1 =? IL_TYPE_COMPLEX_BYREF) || (c1 =? IL_TYPE_COMPLEX_PTR)
                            || (c1 =? IL_TYPE_COMPLEX_PINNED))
          then type_identical fuel r1 r2 else mret false
      | ArrayType c1 e1 s1 l1, ArrayType c2 e2 s2 l2 =>
          if (c1 =? c2) && ((c1 =? IL_TYPE_COMPLEX_ARRAY)
                            || (c1 =? IL_TYPE_COMPLEX_ARRAY_CONTINUE)) then
            b ← type_identical fuel e1 e2;
            mret ((b : bool) && (s1 =? s2) && (l1 =? l2))
          else mret false
      | SentinelType, SentinelType => mret true
      | VarType c1 n1, VarType c2 n2 =>
          mret ((c1 =? c2) && ((c1 =? IL_TYPE_COMPLEX_MVAR) || (c1 =? IL_TYPE_COMPLEX_VAR))
                && (n1 =? n2))
      | (MethodType c1 n1 r1 _ _ _ _ _) as m1, (MethodType c2 n2 r2 _ _ _ _ _) as m2 =>
          if (c1 =? c2) && has_signature m1 then
            if n1 =? n2 then
              b ← type_identical fuel r1 r2;
              if (b : bool)
              then params_identical (type_identical fuel) m1 m2 (Z.to_nat n1) 1
              else mret false
            else mret false
          else mret false
      | _, _ => mret false
      end
  end.

(** The nodes of a type. *)
Fixpoint type_size (t : ILType) : nat :=
  match t with
  | RefType _ t | ModifierType _ _ t | ArrayType _ t _ _ => 1 + type_size t
  | MethodType _ _ r p0 p1 p2 n _ =>
      1 + type_size r + type_size p0 + type_size p1 + type_size p2 + type_size n
  | LocalsType _ p0 p1 p2 p3 n | ParamsBlock p0 p1 p2 p3 n =>
      1 + type_size p0 + type_size p1 + type_size p2 + type_size p3 + type_size n
  | _ => 1
  end.

Definition ILTypeIdentical (type1 type2 : ILType) : comp S bool :=
  type_identical (type_size type1) type1 type2.

(** ** Inheritance and nesting *)

Fixpoint inherits_loop (fuel : nat) (info : option N) (ancestor : N) : comp S bool :=
  match info, fuel with
  | None, _ => mret false
  | Some _, O => fail Out_of_fuel
  | Some k, Datatypes.S fuel =>
      if bool_decide (k = ancestor) then mret true
      else inherits_loop fuel (ILClassGetParent k) ancestor
  end.
Definition ILClassInheritsFrom (info : N) (ancestor : option N) : comp S bool :=
  match ancestor with
  | None => mret false
  | Some ancestor => inherits_loop max_depth (Some (ILClassResolve info)) (ILClassResolve ancestor)
  end.

(** Some class of the nesting chain from [temp] on satisfies [p]. *)
Fixpoint nesting_loop (fuel : nat) (temp : option N) (p : N -> comp S bool) : comp S bool :=
  match temp, fuel with
  | None, _ => mret false
  | Some _, O => fail Out_of_fuel
  | Some k, Datatypes.S fuel =>
      b ← p k;
      if (b : bool) then mret true else nesting_loop fuel (ILClassGetNestedParent k) p
  end.
Definition ILClassIsNested (parent : option N) (child : N) : comp S bool :=
  nesting_loop max_depth (ILClassGetNestedParent child)
    (fun k => mret (bool_decide (Some k = parent))).
Definition ILClassIsNestedInheritsFrom (nestedChild ancestor : N) : comp S bool :=
  nesting_loop max_depth (ILClassGetNestedParent nestedChild)
    (fun k => if bool_decide (k = ancestor) then mret true
              else ILClassInheritsFrom k (Some ancestor)).

Definition AccessibleNestedPrivate (info scope : N) : comp S bool :=
  if bool_decide (ILClassGetNestedParent info = Some scope) then mret true
  else ILClassIsNested (ILClassGetNestedParent info) scope.
Definition AccessibleNestedFamily (info scope : N) : comp S bool :=
  b ← AccessibleNestedPrivate info scope;
  if (b : bool) then mret true
  else nesting_loop max_depth (Some scope)
         (fun k => ILClassInheritsFrom k (ILClassGetNestedParent info)).

Definition same_image (info scope : N) : bool :=
  bool_decide (ILClassToImage info = ILClassToImage scope).

Fixpoint ILClassAccessible (fuel : nat) (info : option N) (scope : N) : comp S bool :=
  match info, fuel with
  | None, _ => mret false
  | Some _, O => fail Out_of_fuel
  | Some info, Datatypes.S fuel =>
      let info := ILClassResolve info in
      let scope := ILClassResolve scope in
      if bool_decide (info = scope) then mret true
      else
        let v := visibility info in
        if (v =? 0) || (v =? 5) then mret (same_image info scope)
        else if v =? 1 then mret true
        else if v =? 2 then ILClassAccessible fuel (ILClassGetNestedParent info) scope
        else if v =? 3 then AccessibleNestedPrivate info scope
        else
          b ← AccessibleNestedFamily info scope;
          mret (if v =? 4 then b
                else if v =? 6 then (b : bool) && same_image info scope
                else (b : bool) || same_image info scope)
  end.

(** For methods, the only members it is asked about. *)
Definition ILMemberAccessible (method scope : N) : comp S bool :=
  let info := ILMethod_Owner method in
  let scope := ILClassResolve scope in
  accessible ← ILClassAccessible max_depth (Some info) scope;
  if negb accessible then mret false
  else
    let a := Z.land (ILMethod_Attrs method) IL_META_METHODDEF_MEMBER_ACCESS_MASK in
    let family :=
      b ← ILClassInheritsFrom scope (Some info);
      if (b : bool) then mret true else ILClassIsNestedInheritsFrom scope info in
    if (a =? 0) || (a =? 1) then
      if bool_decide (info = scope) then mret true else ILClassIsNested (Some info) scope
    else if a =? 2 then
      b ← ILClassInheritsFrom scope (Some info);
      mret ((b : bool) && same_image info scope)
    else if a =? 3 then mret (same_image info scope)
    else if a =? 4 then family
    else if a =? 5 then b ← family; mret ((b : bool) || same_image info scope)
    else mret (a =? 6).

(** ** Overriding *)

(** The name and the signature are those of the method. *)
Definition same_name_and_type (m : N) (name : string) (signature : ILType) : comp S bool :=
  if String.eqb (ILMethod_Name m) name then ILTypeIdentical (ILMethod_Signature m) signature
  else mret false.

(** The first method of the list that satisfies [p]. *)
Fixpoint find_method (p : N -> comp S bool) (methods : list N) : comp S (option N) :=
  match methods with
  | [] => mret None
  | m :: methods => b ← p m; if (b : bool) then mret (Some m) else find_method p methods
  end.

Definition base_candidate (member origClass testMember : N) : comp S bool :=
  same ← same_name_and_type testMember (ILMethod_Name member) (ILMethod_Signature member);
  if (same : bool) then
    accessible ← ILMemberAccessible testMember origClass;
    mret ((accessible : bool) && ILMethod_IsVirtual testMember && ILMethod_IsNewSlot testMember)
  else mret false.

Fixpoint base_in_parents (fuel : nat) (classInfo : option N) (p : N -> comp S bool)
    : comp S (option N) :=
  match classInfo, fuel with
  | None, _ => mret None
  | Some _, O => fail Out_of_fuel
  | Some k, Datatypes.S fuel =>
      found ← find_method p (class_methods k);
      match found with
      | Some m => mret (Some m)
      | None => base_in_parents fuel (ILClassGetParent k) p
      end
  end.

(** For methods: a method is not a reference, so [MemberToMethod] is the
    identity. *)
Definition ILMemberGetBase (member : N) : comp S (option N) :=
  let origClass := ILClassResolve (ILMethod_Owner member) in
  base_in_parents max_depth (ILClassGetParent origClass) (base_candidate member origClass).

Definition impl_candidate (flags : Z) (name : string) (signature : ILType) (method2 : N)
    : comp S bool :=
  if Z.land (ILMethod_Attrs method2)
       (Z.lor IL_META_METHODDEF_MEMBER_ACCESS_MASK flags)
     =? Z.lor IL_META_METHODDEF_PUBLIC flags
  then same_name_and_type method2 name signature
  else mret false.

(** The loop that looks for an override of [method], with the method found by
    name as the result otherwise. *)
Fixpoint find_override (fuel : nat) (parent : option N) (method : N) (result : option N)
    : comp S (option N) :=
  match parent, fuel with
  | None, _ => mret result
  | Some _, O => fail Out_of_fuel
  | Some k, Datatypes.S fuel =>
      match List.find (fun p => bool_decide (p.1 = method)) (class_overrides k) with
      | Some (_, body) => mret (Some body)
      | None =>
          if bool_decide (ILMethod_Owner <$> result = Some k) then mret result
          else find_override fuel (ILClassGetParent k) method result
      end
  end.

Definition ILClassGetMethodImpl (info method : N) : comp S (option N) :=
  let name := ILMethod_Name method in
  let signature := ILMethod_Signature method in
  let virtual := IL_META_METHODDEF_VIRTUAL in
  result ← find_method
    (impl_candidate (Z.lor virtual IL_META_METHODDEF_NEW_SLOT) name signature)
    (class_methods info);
  result ←
    match result with
    | Some m => mret (Some m)
    | None => base_in_parents max_depth (Some info) (impl_candidate virtual name signature)
    end;
  find_override max_depth (Some info) method result.

End members.
