(* ===== verification/TypeIdentity.v ===== *)
(** * TypeIdentity: what the comparison of types decides

    [ILTypeIdentical] against a reference: the abstract syntax of a type, in
    which prefixes are gone, classes are the ones the references resolve to, and
    the parameters of a signature are a list; and when two classes are the same,
    by name as long as not all references are resolved. *)
From S2P Require Import Prelude ILTypes Program SampleProgram Members.

(** ** Abstract syntax *)

#[warnings="-register-all"]
Inductive type_tree :=
| SNull | SPrimitive (e : Z) | SClass (k : N) | SValue (k : N) | SRef (kind : Z) (s : type_tree)
| SArray (kind : Z) (s : type_tree) (size low : Z) | SMethod (kind : Z) (ret : type_tree) (params : list type_tree)
| SSentinel | SVar (kind n : Z) | SOther.

(** The lists have the same length and their elements are related. *)
Section all2.
Context {A B : Type} (R : A -> B -> Prop).
Fixpoint all2 (l : list A) (k : list B) : Prop :=
  match l, k with
  | [], [] => True
  | x :: l, y :: k => R x y /\ all2 l k
  | _, _ => False
  end.
End all2.

(** The same syntax up to the relation [R] of the classes. *)
Fixpoint same_tree (R : N -> N -> Prop) (t1 t2 : type_tree) : Prop :=
  match t1, t2 with
  | SNull, SNull | SSentinel, SSentinel | SOther, SOther => True
  | SPrimitive e1, SPrimitive e2 => e1 = e2
  | SClass k1, SClass k2 | SValue k1, SValue k2 => R k1 k2
  | SRef c1 s1, SRef c2 s2 => c1 = c2 /\ same_tree R s1 s2
  | SArray c1 s1 n1 l1, SArray c2 s2 n2 l2 =>
      c1 = c2 /\ same_tree R s1 s2 /\ n1 = n2 /\ l1 = l2
  | SMethod c1 r1 p1, SMethod c2 r2 p2 =>
      c1 = c2 /\ same_tree R r1 r2 /\ all2 (same_tree R) p1 p2
  | SVar c1 n1, SVar c2 n2 => c1 = c2 /\ n1 = n2
  | _, _ => False
  end.

Lemma all2_length {A B} (R : A -> B -> Prop) l k : all2 R l k -> length l = length k.
Proof.
  revert k. induction l as [| x l IH]; intros [| y k]; cbn; try done.
  intros [_ Hl]. by rewrite (IH _ Hl).
Qed.

(** With equality of the classes it is equality. *)
Lemma same_tree_eq R (HR : forall k1 k2, R k1 k2 <-> k1 = k2) :
  forall t1 t2, same_tree R t1 t2 <-> t1 = t2.
Proof.
  fix IH 1. intros [] []; cbn [same_tree]; rewrite ?HR, ?IH;
    try by split; intros.
  all: try solve [split; [intros ?; destruct_and?; congruence | intros [=]; subst; auto]].
  assert (forall k, all2 (same_tree R) params k <-> params = k) as Hl.
  { clear params0. induction params as [| x l IHl]; intros [| y k]; cbn [all2];
      try (by split).
    rewrite IH, IHl. split; [by intros [-> ->] | by intros [= -> ->]]. }
  rewrite Hl. split; [by intros (-> & -> & ->) | by intros [= -> -> ->]].
Qed.

Section identity.
Context `{Program}.

(** When two classes count as the same: they are resolved to one class, or,
    while the loader still has items to redo, one of them is a reference and they
    have the same name, in the same namespace and in the same class if any. *)
Inductive same_class : N -> N -> Prop :=
| same_resolved k : same_class k k
| same_name k1 k2 :
    numRedoItems <> 0 -> ILClassIsRef k1 = true \/ ILClassIsRef k2 = true ->
    ILClass_Name k1 = ILClass_Name k2 -> ILClass_Namespace k1 = ILClass_Namespace k2 ->
    same_parent (ILClassGetNestedParent k1) (ILClassGetNestedParent k2) ->
    same_class k1 k2
with same_parent : option N -> option N -> Prop :=
| same_no_parent : same_parent None None
| same_parents p1 p2 :
    same_class (ILClassResolve p1) (ILClassResolve p2) -> same_parent (Some p1) (Some p2).

(** The class is nested in fewer than [n] others. *)
Inductive nested_within : nat -> N -> Prop :=
| nested_in n k :
    (forall p, ILClassGetNestedParent (ILClassResolve k) = Some p -> nested_within n p) ->
    nested_within (S n) k.

Lemma same_class_eq k1 k2 : numRedoItems = 0 -> same_class k1 k2 <-> k1 = k2.
Proof. intros Hredo. split; [by intros [] | intros ->; constructor]. Qed.

(** The type, and the elements of a chain of blocks. *)
Fixpoint norm (t : ILType) : type_tree :=
  match t with
  | ILType_Invalid => SNull
  | Primitive e => SPrimitive e
  | ClassType k => SClass (ILClassResolve k)
  | ValueType k => SValue (ILClassResolve k)
  | RefType k t => if k =? IL_TYPE_COMPLEX_PINNED then norm t else SRef k (norm t)
  | ArrayType k t s l => SArray k (norm t) s l
  | MethodType k n r p0 p1 p2 next _ =>
      SMethod k (norm r)
        (take (Z.to_nat n) (norm p0 :: norm p1 :: norm p2 :: norm_slots next))
  | ModifierType _ _ t => norm t
  | SentinelType => SSentinel
  | VarType k n => SVar k n
  | LocalsType _ _ _ _ _ _ | ParamsBlock _ _ _ _ _ => SOther
  end
with norm_slots (t : ILType) : list type_tree :=
  match t with
  | ParamsBlock p0 p1 p2 p3 next => norm p0 :: norm p1 :: norm p2 :: norm p3 :: norm_slots next
  | _ => []
  end.

(** The types that occur in signatures: the kinds are those of their layout. *)
Fixpoint type_wf (t : ILType) : Prop :=
  match t with
  | ILType_Invalid | Primitive _ | ClassType _ | ValueType _ | SentinelType => True
  | RefType k t => (k = IL_TYPE_COMPLEX_BYREF \/ k = IL_TYPE_COMPLEX_PTR
                    \/ k = IL_TYPE_COMPLEX_PINNED) /\ type_wf t
  | ArrayType k t _ _ =>
      (k = IL_TYPE_COMPLEX_ARRAY \/ k = IL_TYPE_COMPLEX_ARRAY_CONTINUE) /\ type_wf t
  | MethodType k n r p0 p1 p2 next _ =>
      signature_ok t /\ type_wf r /\ type_wf p0 /\ type_wf p1 /\ type_wf p2 /\ slots_wf next
  | ModifierType k _ t =>
      (k = IL_TYPE_COMPLEX_CMOD_REQD \/ k = IL_TYPE_COMPLEX_CMOD_OPT) /\ type_wf t
  | VarType k _ => k = IL_TYPE_COMPLEX_MVAR \/ k = IL_TYPE_COMPLEX_VAR
  | LocalsType _ _ _ _ _ _ | ParamsBlock _ _ _ _ _ => False
  end
with slots_wf (t : ILType) : Prop :=
  match t with
  | ParamsBlock p0 p1 p2 p3 next =>
      type_wf p0 /\ type_wf p1 /\ type_wf p2 /\ type_wf p3 /\ slots_wf next
  | _ => True
  end.

(** A type without prefixes is given by its outermost node. *)
Definition stripped (t : ILType) : Prop := ILTypeStripPrefixes t = t.

Lemma norm_strip t : type_wf t -> norm (ILTypeStripPrefixes t) = norm t.
Proof.
  induction t; cbn [ILTypeStripPrefixes type_wf norm]; try done.
  - intros [Hk Ht]. destruct (Z.eqb_spec kind IL_TYPE_COMPLEX_PINNED) as [-> |]; [by apply IHt |].
    cbn [norm]. by destruct (Z.eqb_spec kind IL_TYPE_COMPLEX_PINNED).
  - intros [[-> | ->] Ht]; by apply IHt.
Qed.

Lemma strip_wf t :
  type_wf t -> type_wf (ILTypeStripPrefixes t) /\ stripped (ILTypeStripPrefixes t) /\
    (type_size (ILTypeStripPrefixes t) <= type_size t)%nat.
Proof.
  intros Ht. split_and!; [| apply strip_idemp |]; revert Ht.
  all: induction t; cbn [ILTypeStripPrefixes type_wf type_size]; try done;
    repeat (case_match || intros [? ?]); try lia; auto.
  all: first [by cbn [type_wf] | etrans; [by eauto | lia]].
Qed.

(** What a type without prefixes is not. *)
Lemma stripped_shape t :
  type_wf t -> stripped t ->
  match t with
  | ModifierType _ _ _ => False
  | RefType k _ => k = IL_TYPE_COMPLEX_BYREF \/ k = IL_TYPE_COMPLEX_PTR
  | _ => True
  end.
Proof.
  unfold stripped. destruct t; try done.
  - intros [Hk Ht] Hs. destruct Hk as [-> | [-> | ->]]; [by left | by right |].
    apply (f_equal type_size) in Hs. cbn in Hs. destruct (strip_wf t Ht) as (_ & _ & ?). lia.
  - intros [[-> | ->] Ht] Hs; apply (f_equal type_size) in Hs; cbn in Hs;
      destruct (strip_wf t Ht) as (_ & _ & ?); lia.
Qed.

Lemma norm_slots_map t : norm_slots t = norm <$> slots t.
Proof. induction t; cbn [norm_slots slots]; try done. by rewrite IHt5. Qed.

Lemma norm_params k n r p0 p1 p2 next g :
  norm (MethodType k n r p0 p1 p2 next g)
  = SMethod k (norm r) (norm <$> signature_params (MethodType k n r p0 p1 p2 next g)).
Proof. cbn [norm signature_params]. by rewrite fmap_take, norm_slots_map. Qed.

Lemma slots_in t p :
  slots_wf t -> p ∈ slots t -> type_wf p /\ (type_size p < type_size t)%nat.
Proof.
  induction t; cbn [slots_wf slots type_size]; try (intros _ Hp; by apply not_elem_of_nil in Hp).
  intros (H0 & H1 & H2 & H3 & Hn). rewrite !elem_of_cons.
  intros [-> | [-> | [-> | [-> | Hp]]]]; try (split; [done | lia]).
  destruct (IHt5 Hn Hp). split; [done | lia].
Qed.

Lemma params_in m p :
  type_wf m -> p ∈ signature_params m -> type_wf p /\ (type_size p < type_size m)%nat.
Proof.
  destruct m as [ | | | | | | k n r p0 p1 p2 next | | | | |]; cbn [signature_params];
    try (intros _ Hp; by apply not_elem_of_nil in Hp).
  cbn [type_wf type_size]. intros (_ & _ & H0 & H1 & H2 & Hn) Hp.
  apply elem_of_take in Hp as (i & Hp & _). apply list_elem_of_lookup_2 in Hp. revert Hp.
  rewrite !elem_of_cons. intros [-> | [-> | [-> | Hp]]]; try (split; [done | lia]).
  destruct (slots_in _ _ Hn Hp). split; [done | lia].
Qed.

(** ** What a computation decides *)

(** The computation ends, with the truth of [P]. *)
Definition decides {S} (m : comp S bool) (P : Prop) : Prop :=
  exists b, (forall s, m s = Done b s) /\ (b = true <-> P).

Lemma decides_ret {S} b P : (b = true <-> P) -> decides (mret b : comp S bool) P.
Proof. intros Hb. exists b. done. Qed.

Lemma decides_if {S} (m n : comp S bool) P Q :
  decides m P -> (P -> decides n Q) ->
  decides (b ← m; if (b : bool) then n else mret false) (P /\ Q).
Proof.
  intros (b & Hm & Hb) Hn. destruct b.
  - destruct (Hn (proj1 Hb eq_refl)) as (c & Hc & Hq). exists c.
    split; [| tauto]. intros s. unfold mbind, comp_bind. by rewrite Hm.
  - exists false. split; [| intuition congruence]. intros s. unfold mbind, comp_bind. by rewrite Hm.
Qed.

Lemma decides_bind {S} (m : comp S bool) (f : bool -> bool) P Q :
  decides m P -> (forall b, (b = true <-> P) -> f b = true <-> Q) ->
  decides (b ← m; mret (f b)) Q.
Proof.
  intros (b & Hm & Hb) Hf. exists (f b). split; [| by apply Hf].
  intros s. unfold mbind, comp_bind. by rewrite Hm.
Qed.

Lemma decides_iff {S} (m : comp S bool) P Q : (P <-> Q) -> decides m P -> decides m Q.
Proof. intros HPQ (b & Hm & Hb). exists b. split; [done | tauto]. Qed.

(** ** The comparison *)

Section bounded.
Context (Hdepth : forall k, nested_within max_depth k).

(** The syntax of the types is the same. *)
Definition same_types (t1 t2 : ILType) : Prop := same_tree same_class (norm t1) (norm t2).

Lemma class_identical_spec {S} n k1 k2 :
  nested_within n k1 ->
  decides (ClassIdentical n k1 k2 : comp S bool)
    (same_class (ILClassResolve k1) (ILClassResolve k2)).
Proof.
  revert k1 k2. induction n as [| n IH]; intros k1 k2 Hn; inversion Hn as [? ? Hp]; subst.
  cbn [ClassIdentical]. generalize dependent (ILClassResolve k1). intros c1 Hp.
  generalize (ILClassResolve k2). intros c2. case_bool_decide as E.
  { apply decides_ret. split; [intros _; rewrite E; constructor | done]. }
  assert (same_class c1 c2 -> numRedoItems <> 0 /\
    (ILClassIsRef c1 = true \/ ILClassIsRef c2 = true) /\
    ILClass_Name c1 = ILClass_Name c2 /\ ILClass_Namespace c1 = ILClass_Namespace c2 /\
    same_parent (ILClassGetNestedParent c1) (ILClassGetNestedParent c2)) as Hinv
    by (intros Hc; inversion Hc; subst; [done | auto]).
  destruct (Z.eqb_spec numRedoItems 0); [apply decides_ret; split; [done | tauto] |].
  destruct (ILClassIsRef c1 || ILClassIsRef c2) eqn:Er.
  2: { apply orb_false_iff in Er as [E1 E2]. rewrite E1, E2. apply decides_ret.
       split; [done |]. intros (_ & [Hr | Hr] & _)%Hinv; congruence. }
  rewrite <- negb_orb, Er. cbn [negb]. apply orb_true_iff in Er.
  destruct (String.eqb_spec (ILClass_Name c1) (ILClass_Name c2)); cbn [negb];
    [| apply decides_ret; split; [done | tauto]].
  case_bool_decide; cbn [negb]; [| apply decides_ret; split; [done | tauto]].
  apply (decides_iff _ (same_parent (ILClassGetNestedParent c1) (ILClassGetNestedParent c2)));
    [split; [intros; by constructor | tauto] |].
  destruct (ILClassGetNestedParent c1) as [p1 |], (ILClassGetNestedParent c2) as [p2 |].
  - eapply decides_iff; [| apply IH; by apply Hp]. split; [by constructor | by inversion 1].
  - apply decides_ret. split; [done | by inversion 1].
  - apply decides_ret. split; [done | by inversion 1].
  - apply decides_ret. split; [constructor | done].
Qed.

(** The loop over the parameters compares the lists. *)
Lemma params_identical_spec {S} (identical : ILType -> ILType -> comp S bool) m1 m2 :
  signature_ok m1 -> signature_ok m2 -> ILTypeNumParams m1 = ILTypeNumParams m2 ->
  (forall p1 p2, p1 ∈ signature_params m1 -> p2 ∈ signature_params m2 ->
     decides (identical p1 p2) (same_types p1 p2)) ->
  forall n arg, 1 <= arg -> arg + Z.of_nat n = ILTypeNumParams m1 + 1 ->
    decides (params_identical identical m1 m2 n arg)
      (all2 (same_tree same_class)
         (norm <$> drop (Z.to_nat (arg - 1)) (signature_params m1))
         (norm <$> drop (Z.to_nat (arg - 1)) (signature_params m2))).
Proof.
  intros H1 H2 Hn Hid. pose proof (signature_params_length _ H1) as L1.
  pose proof (signature_params_length _ H2) as L2.
  induction n as [| n IH]; intros arg Ha Hsum; cbn [params_identical].
  - apply decides_ret. rewrite !drop_ge by lia. done.
  - destruct (get_param_lookup m1 arg H1) as (p1 & -> & E1); [lia |].
    destruct (get_param_lookup m2 arg H2) as (p2 & -> & E2); [lia |].
    rewrite (drop_S _ _ _ E1), (drop_S _ _ _ E2), !fmap_cons.
    replace (Datatypes.S (Z.to_nat (arg - 1))) with (Z.to_nat (arg + 1 - 1)) by lia.
    eapply decides_iff; [| apply decides_if;
      [apply Hid; by eapply list_elem_of_lookup_2 | intros _; apply IH; lia]].
    done.
Qed.

Lemma norm_params_num m1 m2 :
  signature_ok m1 -> signature_ok m2 ->
  all2 (same_tree same_class) (norm <$> signature_params m1) (norm <$> signature_params m2) ->
  ILTypeNumParams m1 = ILTypeNumParams m2.
Proof.
  intros H1 H2 E%all2_length. rewrite !length_fmap in E.
  rewrite <- !signature_params_length by done. lia.
Qed.

(** Two signatures with the same kind. *)
Lemma signatures_identical {S} (identical : ILType -> ILType -> comp S bool)
    m1 m2 k1 n1 r1 a0 a1 a2 x1 g1 k2 n2 r2 b0 b1 b2 x2 g2 :
  m1 = MethodType k1 n1 r1 a0 a1 a2 x1 g1 -> m2 = MethodType k2 n2 r2 b0 b1 b2 x2 g2 ->
  signature_ok m1 -> signature_ok m2 ->
  decides (identical r1 r2) (same_types r1 r2) ->
  (forall p1 p2, p1 ∈ signature_params m1 -> p2 ∈ signature_params m2 ->
     decides (identical p1 p2) (same_types p1 p2)) ->
  decides
    (if (k1 =? k2) && has_signature m1 then
       if n1 =? n2 then
         b ← identical r1 r2;
         if (b : bool) then params_identical identical m1 m2 (Z.to_nat n1) 1 else mret false
       else mret false
     else mret false)
    (same_types m1 m2).
Proof.
  intros E1 E2 H1 H2 Hr Hp.
  assert (has_signature m1 = true) as Hs1 by (rewrite E1 in *; apply H1).
  assert (has_signature m2 = true) as Hs2 by (rewrite E2 in *; apply H2).
  assert (0 <= n1) by (rewrite E1 in H1; destruct H1 as (_ & ? & _); lia).
  assert (ILTypeNumParams m1 = n1) as N1 by (unfold ILTypeNumParams; rewrite Hs1; by rewrite E1).
  assert (ILTypeNumParams m2 = n2) as N2 by (unfold ILTypeNumParams; rewrite Hs2; by rewrite E2).
  pose proof (norm_params_num _ _ H1 H2) as Hnum. rewrite Hs1, andb_true_r. unfold same_types.
  assert (norm m1 = SMethod k1 (norm r1) (norm <$> signature_params m1)) as -> by
    (rewrite E1; apply norm_params).
  assert (norm m2 = SMethod k2 (norm r2) (norm <$> signature_params m2)) as -> by
    (rewrite E2; apply norm_params).
  cbn [same_tree].
  destruct (Z.eqb_spec k1 k2) as [-> | Hk]; [| apply decides_ret; split; [done | tauto]].
  destruct (Z.eqb_spec n1 n2) as [<- | Hn].
  - eapply decides_iff; [| apply decides_if; [exact Hr | intros _;
      apply (params_identical_spec identical m1 m2 H1 H2 ltac:(congruence) Hp);
      lia]].
    change (Z.to_nat (1 - 1)) with 0%nat. rewrite !drop_0. unfold same_types. tauto.
  - apply decides_ret. split; [done |]. intros (_ & _ & E). exfalso. apply Hn.
    rewrite <- N1, <- N2. by apply Hnum.
Qed.

Lemma type_identical_spec {S} fuel t1 t2 :
  type_wf t1 -> type_wf t2 -> (type_size t1 <= fuel)%nat ->
  decides (type_identical fuel t1 t2 : comp S bool) (same_types t1 t2).
Proof.
  revert t1 t2. induction fuel as [| fuel IH]; intros t1 t2 W1 W2 Hf.
  { destruct t1; cbn in Hf; lia. }
  unfold same_types.
  rewrite <- (norm_strip t1), <- (norm_strip t2) by done. cbn [type_identical].
  destruct (strip_wf t1 W1) as (V1 & S1 & Z1), (strip_wf t2 W2) as (V2 & S2 & _).
  revert V1 S1 Z1 V2 S2. generalize (ILTypeStripPrefixes t1), (ILTypeStripPrefixes t2).
  clear W1 W2. intros u1 u2 V1 S1 Z1 V2 S2.
  pose proof (stripped_shape _ V1 S1) as X1. pose proof (stripped_shape _ V2 S2) as X2.
  clear S1 S2. destruct u1, u2; try done.
  all: try (apply decides_ret; cbn [norm same_tree]; rewrite ?Z.eqb_eq; by intuition).
  all: try (decompose sum X1; decompose sum X2; subst; apply decides_ret; cbn; by intuition).
  - by apply class_identical_spec.
  - by apply class_identical_spec.
  - destruct V1 as [_ V1], V2 as [_ V2]. cbn [type_size] in Z1.
    assert (decides (type_identical fuel u1 u2 : comp S bool) (same_types u1 u2)) as D
      by (apply IH; [done.. | lia]).
    destruct X1 as [-> | ->], X2 as [-> | ->];
      cbn; unfold IL_TYPE_COMPLEX_BYREF, IL_TYPE_COMPLEX_PTR;
      first [apply decides_ret; by intuition
            | eapply decides_iff; [| exact D]; unfold same_types; tauto].
  - destruct V1 as [K1 V1], V2 as [K2 V2]. cbn [type_size] in Z1.
    assert (decides (type_identical fuel u1 u2 : comp S bool) (same_types u1 u2)) as D
      by (apply IH; [done.. | lia]).
    destruct K1 as [-> | ->], K2 as [-> | ->]; cbn [norm same_tree];
      unfold IL_TYPE_COMPLEX_ARRAY, IL_TYPE_COMPLEX_ARRAY_CONTINUE;
      try (apply decides_ret; by intuition);
      (eapply decides_bind; [exact D |]; intros b Hb;
       rewrite !andb_true_iff, !Z.eqb_eq; unfold same_types in Hb; tauto).
  - cbn [type_size] in Z1.
    assert (forall p1 p2, p1 ∈ signature_params (MethodType kind num u1_1 u1_2 u1_3 u1_4 u1_5 gparams) ->
      p2 ∈ signature_params (MethodType kind0 num0 u2_1 u2_2 u2_3 u2_4 u2_5 gparams0) ->
      decides (type_identical fuel p1 p2 : comp S bool) (same_types p1 p2)) as Dp.
    { intros p1 p2 Hp1 Hp2. destruct (params_in _ _ V1 Hp1), (params_in _ _ V2 Hp2).
      apply IH; [done.. |]. cbn [type_size] in *. lia. }
    destruct V1 as (O1 & R1 & _), V2 as (O2 & R2 & _).
    eapply signatures_identical; [done.. | apply IH; [done.. | lia] | exact Dp].
  - cbn in V1, V2. apply decides_ret. cbn [norm same_tree].
    destruct V1 as [-> | ->], V2 as [-> | ->]; cbn;
      unfold IL_TYPE_COMPLEX_MVAR, IL_TYPE_COMPLEX_VAR; rewrite ?Z.eqb_eq; by intuition.
Qed.

(** C19: The comparison of two types of signatures always ends, has no effect,
    and says yes exactly when their abstract syntax is the same up to the classes
    that count as the same, by name while the loader has items to redo; once it
    has none, exactly when the abstract syntax is equal.  Classes are nested
    less deep than the bound of the model. *)
Theorem type_identical_norm {S} t1 t2 :
  type_wf t1 -> type_wf t2 ->
  exists b, (forall s : S, ILTypeIdentical t1 t2 s = Done b s) /\
    (b = true <-> same_tree same_class (norm t1) (norm t2)) /\
    (numRedoItems = 0 -> b = true <-> norm t1 = norm t2).
Proof.
  intros W1 W2.
  destruct (type_identical_spec (S := S) _ t1 t2 W1 W2 (le_n _)) as (b & Hb & Hs).
  exists b. split; [done |]. split; [done |]. intros Hredo. rewrite Hs.
  apply same_tree_eq. intros. by apply same_class_eq.
Qed.

End bounded.
End identity.

(** The sample while the loader has an item to redo, with a reference to the
    class [A.D.K] that is not resolved (30). *)
Definition redo_program : Program := {|
  class_info := fun k =>
    if bool_decide (k = 30%N)
    then mkClass 0 0x80000001 "K" (Some "A.D"%string) Scope_other None [] [] ILType_Invalid
    else sample_classes k;
  method_info := sample_methods;
  field_info := @field_info sample_program;
  c_image := 0;
  ILImageGetAssemblyName := @ILImageGetAssemblyName sample_program;
  ILClass_FromToken := @ILClass_FromToken sample_program;
  ILMethod_FromToken := @ILMethod_FromToken sample_program;
  ILField_FromToken := @ILField_FromToken sample_program;
  ILImageNumTokens := @ILImageNumTokens sample_program;
  ILImageGetEntryPoint := 0;
  ILStandAloneSig_FromToken := @ILStandAloneSig_FromToken sample_program;
  ILImageGetUserString := @ILImageGetUserString sample_program;
  ILImageMapRVA := @ILImageMapRVA sample_program;
  ILClassResolve := fun k => k;
  ILClassResolveRef := fun k => k;
  numRedoItems := 1;
  assembly_image := @assembly_image sample_program;
  ILClassLookup := @ILClassLookup sample_program;
  class_of_instance := @class_of_instance sample_program;
  same_type_node := @same_type_node sample_program;
  tagged_kind := @tagged_kind sample_program;
  little_endian := true;
  max_depth := 10;
  reader_fuel := 10
|}.

Lemma sample_nested k : @nested_within sample_program 10 k.
Proof.
  constructor. intros p. unfold ILClassGetNestedParent. cbn. unfold sample_classes.
  repeat case_match; done.
Qed.
Lemma redo_nested k : @nested_within redo_program 10 k.
Proof.
  constructor. intros p. unfold ILClassGetNestedParent. cbn. unfold sample_classes.
  repeat case_match; done.
Qed.

(** A modifier does not count, the type of an element does; the reference is the
    class while there are items to redo, and not when there are none. *)
Lemma type_identical_norm_witness :
  let t1 := sample_signature static_kind int32_type
    [ModifierType IL_TYPE_COMPLEX_CMOD_OPT 2 (ClassType 11)] in
  let t2 := sample_signature static_kind int32_type [ClassType 11] in
  let t3 := sample_signature static_kind int32_type [ClassType 30] in
  (forall s : unit, @ILTypeIdentical sample_program unit t1 t2 s = Done true s) /\
  (forall s : unit, @ILTypeIdentical sample_program unit t1 t3 s = Done false s) /\
  (forall s : unit, @ILTypeIdentical redo_program unit t1 t3 s = Done true s).
Proof.
  intros t1 t2 t3. split; [| split].
  - destruct (@type_identical_norm sample_program sample_nested unit t1 t2)
      as (b & Hb & _ & Hs); [cbn; intuition (auto; lia) .. |].
    rewrite (proj2 (Hs eq_refl)) in Hb; [exact Hb | reflexivity].
  - destruct (@type_identical_norm sample_program sample_nested unit t1 t3)
      as (b & Hb & _ & Hs); [cbn; intuition (auto; lia) .. |].
    destruct b; [| exact Hb]. discriminate (proj1 (Hs eq_refl) eq_refl).
  - destruct (@type_identical_norm redo_program redo_nested unit t1 t3)
      as (b & Hb & Hs & _); [cbn; intuition (auto; lia) .. |].
    rewrite (proj2 Hs) in Hb; [exact Hb |].
    cbn. repeat split. apply same_name; [discriminate | by right | reflexivity | reflexivity |].
    constructor.
Defined.
