(* ===== verification/Mangle.v ===== *)
(** * Mangle: the names of functions and of the data of classes

    Models src/gcc/cil/mangle.c.  A name is built in an obstack, next to a list
    of the assemblies, namespaces, classes and types that have been written, to
    which a repetition refers by number. *)
From S2P Require Import Prelude ILTypes Program Members.

(** ** State *)

(** An entry of the compression table; a pointer to one is its [value].  In a
    namespace entry the union holds the container and the name. *)
Inductive centry_u :=
| U_class (klass : N)
| U_pointer (type : ILType)
| U_array (type : ILType)
| U_namespace (container : Z) (namespace : string)
| U_assembly (name : string)
| U_special (name : string).
Record centry := mkEntry { value : Z; u : centry_u }.

(** [ctable] is the list along [prev], the newest entry first. *)
Record mangle_state := mkMangle { mangle_obstack : string; ctable : list centry }.

Abbreviation MM := (comp mangle_state).

Definition obstack_grow (text : string) : MM unit :=
  modify (fun s => mkMangle (mangle_obstack s +:+ text) (ctable s)).

(** ** Text *)

(** [sprintf ("%d")] of a non-negative number. *)
Fixpoint decimal_digits (fuel : nat) (n : Z) : string :=
  match fuel with
  | O => ""
  | S fuel =>
      (if n <? 10 then "" else decimal_digits fuel (n / 10))
      +:+ String (Ascii.ascii_of_nat (Z.to_nat (48 + n mod 10))) ""
  end.
Definition decimal (n : Z) : string := decimal_digits 10 n.

(** The digit of base 36. *)
Definition digit36 (d : Z) : Ascii.ascii :=
  Ascii.ascii_of_nat (Z.to_nat (if d <? 10 then 48 + d else 55 + d)).

(** The largest power of 36 that the loop reaches; an [int] has six digits. *)
Fixpoint top_power (fuel : nat) (n m : Z) : Z :=
  match fuel with
  | O => m
  | S fuel => if 36 <=? n then top_power fuel (n / 36) (m * 36) else m
  end.
Fixpoint write_digits (fuel : nat) (i m : Z) : string :=
  match fuel with
  | O => ""
  | S fuel =>
      if 0 <? m then
        let digit := i / m in
        String (digit36 digit) (write_digits fuel (i - digit * m) (m / 36))
      else ""
  end.

Definition compression_string (i : Z) : string :=
  let i := i - 1 in
  "S" +:+ (if 0 <=? i then write_digits 7 i (top_power 6 i 1) else "") +:+ "_".
Definition emit_compression_string (i : Z) : MM unit := obstack_grow (compression_string i).

(** The text of a name; [buf] has room for nine digits. *)
Definition name_text (name : string) : string :=
  decimal (Z.of_nat (String.length name)) +:+ name.
Definition mangle_name (name : string) : MM unit :=
  if 10 ^ 9 <=? Z.of_nat (String.length name) then fail (Undefined "mangle_name: buf")
  else obstack_grow (name_text name).

Definition dot : Ascii.ascii := Ascii.ascii_of_nat 46.

(** The text after the first dot; [None] runs past the end of the string. *)
Fixpoint skip_dot (s : string) : option string :=
  match s with
  | EmptyString => None
  | String c s => if bool_decide (c = dot) then Some s else skip_dot s
  end.
Fixpoint skip_dots (n : nat) (s : string) : option string :=
  match n with O => Some s | S n => skip_dot s ≫= skip_dots n end.
(** The text up to the first dot. *)
Fixpoint component (s : string) : string :=
  match s with
  | EmptyString => ""
  | String c s => if bool_decide (c = dot) then "" else String c (component s)
  end.
Fixpoint dots (s : string) : nat :=
  match s with
  | EmptyString => 0
  | String c s => (if bool_decide (c = dot) then 1 else 0) + dots s
  end.

Section mangle.
Context `{Program}.

(** ** The compression table *)

Definition alloc_entry (x : centry_u) : MM Z :=
  n ← get (fun s => match ctable s with [] => 0 | e :: _ => value e + 1 end);
  modify (fun s => mkMangle (mangle_obstack s) (mkEntry n x :: ctable s));;
  mret n.

(** The newest entry that satisfies [p]. *)
Fixpoint find_entry (p : centry -> MM bool) (l : list centry) : MM (option Z) :=
  match l with
  | [] => mret None
  | e :: l => b ← p e; if (b : bool) then mret (Some (value e)) else find_entry p l
  end.

(** Refer to a known entry, or do [new]. *)
Definition known_entry (p : centry -> MM bool) (new : MM Z) : MM Z :=
  l ← get ctable;
  o ← find_entry p l;
  match o with
  | Some v => emit_compression_string v;; mret v
  | None => new
  end.

Definition mangle_assembly (name : string) : MM Z :=
  known_entry (fun e => mret match u e with U_assembly n => String.eqb name n | _ => false end)
    (v ← alloc_entry (U_assembly name); mangle_name name;; mret v).
Definition mangle_special (name : string) : MM Z :=
  known_entry (fun e => mret match u e with U_special n => String.eqb name n | _ => false end)
    (v ← alloc_entry (U_special name); mangle_name name;; mret v).

(** [e->u.assembly] of a namespace entry is the pointer to its container, read
    as a string: the bytes of the container's [value], up to the first zero.
    Numbers are below 2^24, so one of the four bytes is zero. *)
Definition value_string (v : Z) : string :=
  let byte i := (v / 256 ^ i) mod 256 in
  let bytes := if little_endian then [byte 0; byte 1; byte 2; byte 3]
               else [byte 3; byte 2; byte 1; byte 0] in
  (fix upto l := match l with
                 | b :: l => if b =? 0 then EmptyString
                             else String (Ascii.ascii_of_nat (Z.to_nat b)) (upto l)
                 | [] => EmptyString
                 end) bytes.

Definition entry_at (v : Z) : MM centry :=
  o ← get (fun s => List.find (fun e => value e =? v) (ctable s));
  lift "container" o.

Fixpoint entry_matches (e : centry) (assembly namespace : string) (levels : nat) : MM bool :=
  match levels with
  | O => mret match u e with U_assembly n => String.eqb n assembly | _ => false end
  | Datatypes.S l =>
      match u e with
      | U_namespace c _ =>
          container ← entry_at c;
          b ← entry_matches container assembly namespace l;
          if (b : bool) then
            name ← lift "entry_matches: namespace" (skip_dots levels namespace);
            mret (String.prefix (value_string c) name)
          else mret false
      | _ => mret false
      end
  end.

(** The result is the container of the entry that is made, or the entry that
    was found. *)
Fixpoint mangle_namespace_r (assembly namespace : string) (levels : nat) : MM Z :=
  known_entry (fun e => entry_matches e assembly namespace levels)
    match levels with
    | O => mangle_assembly assembly
    | Datatypes.S l =>
        prev ← mangle_namespace_r assembly namespace l;
        rest ← lift "mangle_namespace_r" (skip_dots l namespace);
        alloc_entry (U_namespace prev (component rest));;
        mangle_name (component rest);;
        mret prev
    end.
Definition mangle_namespace (assembly namespace : string) : MM Z :=
  mangle_namespace_r assembly namespace (1 + dots namespace).

(** ** Classes *)

(** The assembly a class is in; also [get_assembly_name] of parse_assembly.c. *)
Definition assembly_name {S} (klass : N) : comp S string :=
  if ILClassIsRef klass then get_assembly_ref_name klass
  else mret (ILImageGetAssemblyName (ILClassToImage klass)).

Definition equal_class (k1 k2 : N) : MM bool :=
  if bool_decide (k1 = k2) then mret true
  else if negb (String.eqb (ILClass_Name k1) (ILClass_Name k2)) then mret false
  else
    b ← strcmp_eq (ILClass_Namespace k1) (ILClass_Namespace k2);
    if (b : bool) then
      a1 ← assembly_name k1;
      a2 ← assembly_name k2;
      mret (String.eqb a1 a2)
    else mret false.

(** The number returned is not used. *)
Fixpoint mangle_class (fuel : nat) (klass : N) : MM Z :=
  match fuel with
  | O => fail Out_of_fuel
  | Datatypes.S fuel =>
      known_entry
        (fun e => match u e with U_class k => equal_class k klass | _ => mret false end)
        ((if is_nested klass then
            parent ← lift "ILClass_NestedParent" (ILClassGetNestedParent klass);
            mangle_class fuel parent
          else
            assembly ← assembly_name klass;
            match ILClass_Namespace klass with
            | Some ns => mangle_namespace assembly ns
            | None => mangle_assembly assembly
            end);;
         mangle_name (ILClass_Name klass);;
         alloc_entry (U_class klass))
  end.

(** ** Types *)

(** Pointers to types: tagged ones are equal as values. *)
Definition type_eq (t1 t2 : ILType) : bool :=
  match t1, t2 with
  | ILType_Invalid, ILType_Invalid => true
  | Primitive a, Primitive b => a =? b
  | ClassType a, ClassType b | ValueType a, ValueType b => bool_decide (a = b)
  | (Primitive _ | ClassType _ | ValueType _ | ILType_Invalid), _
  | _, (Primitive _ | ClassType _ | ValueType _ | ILType_Invalid) => false
  | _, _ => same_type_node t1 t2
  end.

(** The letters of the C++ mangling. *)
Definition element_letter (e : Z) : option string :=
  if e =? 0x01 then Some "v" else if e =? 0x02 then Some "b" else if e =? 0x03 then Some "w"
  else if e =? 0x04 then Some "a" else if e =? 0x05 then Some "h"
  else if e =? 0x06 then Some "s" else if e =? 0x07 then Some "t"
  else if e =? 0x08 then Some "l" else if e =? 0x09 then Some "m"
  else if e =? 0x0A then Some "x" else if e =? 0x0B then Some "y"
  else if e =? 0x0C then Some "f" else if e =? 0x0D then Some "d"
  else if e =? 0x18 then Some "i" else if e =? 0x19 then Some "j"
  else None.

Definition mangle_value (il_type : ILType) (klass : N) : MM Z :=
  known_entry
    (fun e => mret match u e with U_class k => bool_decide (k = klass) | _ => false end)
    (obstack_grow "N";; v ← mangle_class max_depth klass; obstack_grow "E";; mret v).

(** [mangle_pointer], [mangle_array] and [mangle_type]; [fuel] bounds the depth
    of the type.  [ILType_Kind] is applied to a value type before the test
    whether it is one. *)
Definition mangle_pointer (mangle_type : ILType -> MM Z) (il_type : ILType) : MM Z :=
  known_entry
    (fun e => mret match u e with U_pointer t => type_eq t il_type | _ => false end)
    (match il_type with
     | ClassType k =>
         obstack_grow "PN";; mangle_class max_depth k;; obstack_grow "E"
     | ValueType k =>
         obstack_grow "N";; mangle_class max_depth k;; obstack_grow "E"
     | RefType _ t => obstack_grow "P";; mangle_type t;; mret tt
     | _ => fail (Undefined "ILType_Ref")
     end;;
     alloc_entry (U_pointer il_type)).

Definition mangle_array (mangle_type : ILType -> MM Z) (il_type : ILType) : MM Z :=
  known_entry
    (fun e => mret match u e with U_array t => type_eq t il_type | _ => false end)
    (obstack_grow "P";;
     mangle_special "ILArray";;
     obstack_grow "I";;
     mangle_type (ILTypeGetElemType il_type);;
     obstack_grow "E";;
     alloc_entry (U_array il_type)).

Fixpoint mangle_type (fuel : nat) (il_type : ILType) : MM Z :=
  match fuel with
  | O => fail Out_of_fuel
  | Datatypes.S fuel =>
      match il_type with
      | Primitive e =>
          match element_letter e with
          | Some c => obstack_grow c;; mret 0
          | None => internal_error "Type not implemented"
          end
      | ClassType _ => mangle_pointer (mangle_type fuel) il_type
      | ValueType k =>
          if tagged_kind k =? IL_TYPE_COMPLEX_BYREF then mangle_pointer (mangle_type fuel) il_type
          else mangle_value il_type k
      | ILType_Invalid => fail (Undefined "ILType_Kind")
      | _ =>
          if bool_decide (ILType_Kind il_type = Some IL_TYPE_COMPLEX_BYREF)
          then mangle_pointer (mangle_type fuel) il_type
          else if ILType_IsSimpleArray il_type then mangle_array (mangle_type fuel) il_type
          else internal_error "Type not implemented"
      end
  end.

(** ** The names *)

Definition mangle_method_name (name : string) : MM unit :=
  if String.eqb name ".ctor" then obstack_grow "C1"
  else if String.eqb name ".cctor" then obstack_grow "6cctor$"
  else mangle_name name.

(** The parameters [param .. num_params]. *)
Fixpoint mangle_params (n : nat) (param : Z) (sig : ILType) : MM unit :=
  match n with
  | O => mret tt
  | Datatypes.S n =>
      il_type ← lift "ILTypeGetParam" (ILTypeGetParam sig param);
      mangle_type (type_size il_type) il_type;;
      mangle_params n (param + 1) sig
  end.

Definition mangle_function_text (method : N) : MM unit :=
  obstack_grow "_Z";;
  obstack_grow "N";;
  mangle_class max_depth (ILMethod_Owner method);;
  mangle_method_name (ILMethod_Name method);;
  obstack_grow "E";;
  let sig := ILMethod_Signature method in
  let num_params := ILTypeNumParams sig in
  mangle_params (Z.to_nat num_params) 1 sig;;
  if num_params =? 0 then obstack_grow "v" else mret tt.

(** [init_mangling] and [finish_mangling] around the text: the obstacks and the
    table are empty before and after. *)
Definition finish_mangling {S A} (text : MM A) : comp S string := fun s =>
  match text (mkMangle "" []) with
  | Done _ m => Done (mangle_obstack m) s
  | Failed f => Failed f
  end.

Definition mangle_function {S} (method : N) : comp S string :=
  finish_mangling (mangle_function_text method).

(** A name for a class, with a suffix. *)
Definition mangle_class_suffix {S} (klass : N) (suffix : string) : comp S string :=
  finish_mangling
    (obstack_grow "_Z";; mangle_class max_depth klass;; obstack_grow suffix).
Definition mangle_mono_class {S} (klass : N) : comp S string :=
  mangle_class_suffix klass "$mono_class".
Definition mangle_mono_class_runtime_info {S} (klass : N) : comp S string :=
  mangle_class_suffix klass "$mono_class_runtime_info".
Definition mangle_class_data {S} (klass : N) : comp S string :=
  mangle_class_suffix klass "$class_data".
Definition mangle_vtable {S} (klass : N) : comp S string :=
  finish_mangling
    (obstack_grow "_Z";; obstack_grow "TVN";; mangle_class max_depth klass;; obstack_grow "E").

End mangle.
