(* ===== verification/MangleCorrect.v ===== *)
(** * MangleCorrect: what mangled names tell apart

    The text that [mangle_function] writes can be read back when the table of
    substitutions is not used, so such methods with equal names are the same;
    and it cannot where a second namespace is written. *)
From S2P Require Import Prelude ILTypes Program Members Mangle SampleProgram.

(** ** Numbers and names *)














Definition names_text (l : list string) : string := foldr (fun n s => name_text n +:+ s) ""%string l.


Lemma names_text_cons a l : names_text (a :: l) = name_text a +:+ names_text l.
Proof. done. Qed.


Lemma names_text_app l k : names_text (l ++ k) = names_text l +:+ names_text k.
Proof.
  induction l as [| a l IH]; [done |]. change (names_text ((a :: l) ++ k))
    with (name_text a +:+ names_text (l ++ k)).
  by rewrite IH, names_text_cons, string_app_assoc.
Qed.

(** ** The components of a namespace *)

Fixpoint components (s : string) : list string :=
  match s with
  | EmptyString => [""%string]
  | String c s =>
      if bool_decide (c = dot) then ""%string :: components s
      else match components s with
           | [] => [String c ""]
           | x :: l => String c x :: l
           end
  end.

Lemma components_length s : length (components s) = S (dots s).
Proof.
  induction s as [| c s IH]; [done |]. cbn. case_bool_decide; cbn; [by rewrite IH |].
  destruct (components s); cbn in *; lia.
Qed.

Lemma component_head s : components s !! 0%nat = Some (component s).
Proof.
  induction s as [| c s IH]; [done |]. cbn. case_bool_decide; [done |].
  destruct (components s); [done |]. cbn in *. by simplify_eq.
Qed.

Lemma skip_dot_components s :
  match skip_dot s with
  | Some r => components s = component s :: components r
  | None => components s = [component s]
  end.
Proof.
  induction s as [| c s IH]; [done |]. cbn. case_bool_decide; [done |].
  destruct (skip_dot s); by rewrite IH.
Qed.

Lemma skip_dots_components n s :
  (n <= dots s)%nat ->
  exists r, skip_dots n s = Some r /\ drop n (components s) = components r.
Proof.
  revert s. induction n as [| n IH]; intros s Hn; [by exists s |].
  cbn [skip_dots]. pose proof (skip_dot_components s) as Hs.
  pose proof (components_length s) as Hl. destruct (skip_dot s) as [r |].
  - rewrite Hs in Hl. cbn in Hl. rewrite components_length in Hl.
    destruct (IH r) as (r' & E & D); [lia |]. exists r'. by rewrite Hs.
  - rewrite Hs in Hl. cbn in Hl. lia.
Qed.




(** Run one step of a computation on a known state. *)
Tactic Notation "run_step" "by" tactic3(tac) := eapply bind_run; [tac |]; cbv beta.

Section correct.
Context `{Program}.

(** ** Names of classes *)


(** The text written from [s] to a state whose text is longer by [text]. *)
Definition writes {A} (m : MM A) (s : mangle_state) (text : string) : Prop :=
  exists a s', m s = Done a s' /\ mangle_obstack s' = mangle_obstack s +:+ text.

Lemma known_entry_empty p new s : ctable s = [] -> known_entry p new s = new s.
Proof. intros E. unfold known_entry, mbind, comp_bind, get. by rewrite E. Qed.

Lemma mangle_name_eq n s :
  Z.of_nat (String.length n) < 10 ^ 9 ->
  mangle_name n s = Done tt (mkMangle (mangle_obstack s +:+ name_text n) (ctable s)).
Proof. intros Hn. unfold mangle_name. rewrite (proj2 (Z.leb_gt _ _)) by lia. done. Qed.





(** ** Names of methods *)





Definition method_text (name : string) : string :=
  if String.eqb name ".ctor" then "C1"
  else if String.eqb name ".cctor" then "6cctor$" else name_text name.


Lemma obstack_grow_eq x s :
  obstack_grow x s = Done tt (mkMangle (mangle_obstack s +:+ x) (ctable s)).
Proof. done. Qed.












(** ** Where names collide *)

(** The names have lengths that [mangle_name] takes. *)
Definition short (n : string) : Prop := Z.of_nat (String.length n) < 10 ^ 9.

(** A method of the class [o], whose namespace [a] has no dot, with one parameter,
    an object of the class [k] of the same assembly. *)
Record one_param_method (m o k : N) (assembly a : string) : Prop := {
  one_depth : max_depth <> 0%nat;
  one_owner : ILMethod_Owner m = o;
  one_nested : is_nested o = false /\ is_nested k = false;
  one_assembly (s : mangle_state) :
    assembly_name o s = Done assembly s /\ assembly_name k s = Done assembly s;
  one_namespace : ILClass_Namespace o = Some a /\ dots a = 0%nat;
  one_short : short assembly /\ short a /\ short (ILClass_Name o) /\
    short (ILClass_Name k) /\ short (ILMethod_Name m);
  one_param : ILTypeNumParams (ILMethod_Signature m) = 1 /\
    ILTypeGetParam (ILMethod_Signature m) 1 = Some (ClassType k)
}.

(** The table after the class [o] was written. *)
Definition owner_table (o : N) (assembly a : string) : list centry :=
  [mkEntry 2 (U_class o); mkEntry 1 (U_namespace 0 a); mkEntry 0 (U_assembly assembly)].

Lemma component_plain a : dots a = 0%nat -> component a = a.
Proof.
  induction a as [| c a IH]; [done |]. cbn. case_bool_decide; [done |].
  intros Ha. by rewrite IH.
Qed.

Lemma skip_dot_plain a : dots a = 0%nat -> skip_dot a = None.
Proof. induction a as [| c a IH]; [done |]. cbn. by case_bool_decide. Qed.

Lemma skip_dot_app c rest :
  dots c = 0%nat -> skip_dot (c +:+ String dot rest) = Some rest.
Proof.
  induction c as [| x c IH]; intros Hc; [reflexivity |].
  change (String x c +:+ String dot rest) with (String x (c +:+ String dot rest)).
  cbn in *.
  case_bool_decide; [done | by apply IH].
Qed.

Lemma owner_written m o k assembly a s :
  one_param_method m o k assembly a -> ctable s = [] ->
  exists v, mangle_class max_depth o s
    = Done v (mkMangle (mangle_obstack s +:+ names_text [assembly; a; ILClass_Name o])
               (owner_table o assembly a)).
Proof.
  intros [Hd _ [Hn _] Ha [Hns Hdots] (Sa & Sn & So & _)] Hs.
  destruct max_depth as [| fuel]; [done |]. eexists. cbn [mangle_class].
  rewrite known_entry_empty, Hn by done.
  run_step by (run_step by (apply Ha); rewrite Hns; unfold mangle_namespace; rewrite Hdots;
    cbn [Nat.add mangle_namespace_r]; rewrite known_entry_empty by done;
    run_step by (rewrite known_entry_empty by done; unfold mangle_assembly;
      rewrite known_entry_empty by done;
      run_step by (unfold alloc_entry, mbind, comp_bind, get; rewrite Hs; reflexivity);
      run_step by (by apply mangle_name_eq); reflexivity);
    run_step by reflexivity; rewrite component_plain by done;
    run_step by (unfold alloc_entry; reflexivity);
    run_step by (by apply mangle_name_eq); reflexivity).
  run_step by (by apply mangle_name_eq).
  cbn [mangle_obstack ctable]. unfold alloc_entry, mbind, comp_bind, get, modify, mret, comp_ret.
  cbn [mangle_obstack ctable value]. do 2 f_equal; [| by rewrite Hs].
  cbn [names_text foldr]. by rewrite !string_app_assoc, string_app_nil_r.
Qed.

Lemma value_string_0 : value_string 0 = ""%string.
Proof. unfold value_string. by destruct little_endian. Qed.

(** What is found in the table: for a namespace with two components or more the
    entry of the owner's, whatever its first component is called; with one, the
    comparison runs past its end. *)
Lemma find_namespace o assembly a ns l (s : mangle_state) :
  ctable s = owner_table o assembly a ->
  find_entry (fun e => entry_matches e assembly ns (S l)) (owner_table o assembly a) s
  = match l, skip_dot ns with
    | O, Some _ => Done (Some 1) s
    | O, None => Failed (Undefined "entry_matches: namespace")
    | S _, _ => Done None s
    end.
Proof.
  intros Hs. assert (entry_at 0 s = Done (mkEntry 0 (U_assembly assembly)) s) as H0
    by (unfold entry_at, mbind, comp_bind, get; by rewrite Hs).
  unfold owner_table. cbn [find_entry entry_matches u]. rewrite bind_ret.
  destruct l as [| l]; cbn [entry_matches u skip_dots].
  - destruct (skip_dot ns) as [r |]; cbn [mbind option_bind].
    + run_step by (run_step by exact H0; cbn [u]; rewrite String.eqb_refl; run_step by reflexivity;
        run_step by reflexivity; reflexivity).
      rewrite value_string_0. by destruct r.
    + apply bind_fail. run_step by exact H0. cbn [u]. rewrite String.eqb_refl.
      run_step by reflexivity. by apply bind_fail.
  - run_step by (run_step by exact H0; run_step by reflexivity; reflexivity).
    rewrite bind_ret. reflexivity.
Qed.

(** The namespace of the parameter: the first component is not written. *)
Lemma found_namespace o assembly a ns rest l s :
  ctable s = owner_table o assembly a -> skip_dot ns = Some rest -> (l <= 1 + dots rest)%nat ->
  Forall short (components rest) ->
  exists s', mangle_namespace_r assembly ns (S l) s = Done 1 s' /\
    mangle_obstack s' = mangle_obstack s +:+ compression_string 1
      +:+ names_text (take l (components rest)).
Proof.
  intros Hs Hns Hl Hc. pose proof (find_namespace o assembly a ns l s Hs) as F.
  rewrite <- Hs, Hns in F. induction l as [| l IH]; cbn [mangle_namespace_r];
    unfold known_entry at 1.
  - eexists. split.
    + run_step by reflexivity. run_step by exact F. run_step by reflexivity. reflexivity.
    + cbn [mangle_obstack take names_text foldr]. by rewrite string_app_nil_r.
  - destruct IH as (s' & E & T); [lia | |].
    { pose proof (find_namespace o assembly a ns l s Hs) as F'. by rewrite <- Hs, Hns in F'. }
    destruct (skip_dots_components l rest) as (r & Er & Dr); [lia |].
    assert (components rest !! l = Some (component r)) as Hl'.
    { pose proof (component_head r) as Hr. rewrite <- Dr, lookup_drop in Hr.
      by rewrite Nat.add_0_r in Hr. }
    assert (short (component r)) as Hr by (by eapply Forall_lookup_1 in Hc).
    eexists. split.
    + run_step by reflexivity. run_step by exact F. run_step by (exact E). cbn [skip_dots]. rewrite Hns. cbn [mbind option_bind].
      rewrite Er. run_step by reflexivity.
      run_step by (unfold alloc_entry; reflexivity).
      run_step by (by apply mangle_name_eq). reflexivity.
    + cbn [mangle_obstack]. rewrite T, (take_S_r _ _ _ Hl'), names_text_app, !string_app_assoc.
      cbn [names_text foldr]. by rewrite string_app_nil_r.
Qed.

(** The class of the parameter is not the owner. *)
Lemma class_not_found o k a ns assembly (s : mangle_state) :
  ILClass_Namespace o = Some a -> ILClass_Namespace k = Some ns ->
  ILClass_Name o <> ILClass_Name k \/ a <> ns ->
  find_entry (fun e => match u e with U_class k' => equal_class k' k | _ => mret false end)
    (owner_table o assembly a) s = Done None s.
Proof.
  intros Ho Hk Hne. unfold owner_table. cbn [find_entry u].
  assert (equal_class o k = mret false) as ->; [| reflexivity].
  unfold equal_class. rewrite bool_decide_false by (intros ->; destruct Hne; congruence).
  destruct (String.eqb_spec (ILClass_Name o) (ILClass_Name k)); [| done]. cbn [negb].
  unfold strcmp_eq. rewrite Ho, Hk, bind_ret.
  destruct (String.eqb_spec a ns); [destruct Hne; congruence | done].
Qed.

Lemma param_written m o k assembly a ns rest (s : mangle_state) :
  one_param_method m o k assembly a -> ctable s = owner_table o assembly a ->
  ILClass_Namespace k = Some ns -> skip_dot ns = Some rest -> Forall short (components rest) ->
  writes (mangle_type 1 (ClassType k)) s
    ("PN" +:+ compression_string 1 +:+ names_text (components rest ++ [ILClass_Name k]) +:+ "E").
Proof.
  intros [Hd _ [_ Hn] Ha [Ho Hdots] (_ & _ & _ & Sk & _)] Hs Hk Hrest Hc.
  assert (a <> ns) as Hne by (intros ->; by rewrite skip_dot_plain in Hrest).
  set (s1 := mkMangle (mangle_obstack s +:+ "PN") (ctable s)).
  destruct (found_namespace o assembly a ns rest (1 + dots rest) s1) as (s2 & E2 & T2);
    [done | done | lia | done |].
  rewrite take_ge in T2 by by rewrite components_length.
  pose proof (skip_dot_components ns) as Hl. rewrite Hrest in Hl.
  apply (f_equal length) in Hl. cbn [length] in Hl. rewrite !components_length in Hl.
  assert (exists v s3, mangle_class max_depth k s1 = Done v s3 /\
    mangle_obstack s3 = mangle_obstack s2 +:+ name_text (ILClass_Name k)) as (v & s3 & E3 & T3).
  { destruct max_depth as [| fuel]; [done |]. cbn [mangle_class]. eexists _, _. split.
    - unfold known_entry at 1. run_step by reflexivity.
      run_step by (cbn [ctable s1]; rewrite Hs; apply (class_not_found o k a ns); auto).
      rewrite Hn. run_step by (run_step by (apply Ha); rewrite Hk; unfold mangle_namespace;
        replace (1 + dots ns)%nat with (S (1 + dots rest)) by lia; exact E2).
      run_step by (by apply mangle_name_eq). unfold alloc_entry. reflexivity.
    - reflexivity. }
  eexists _, _. split.
  - cbn [mangle_type]. unfold mangle_pointer, known_entry at 1. run_step by reflexivity.
    run_step by (rewrite Hs; reflexivity).
    run_step by (run_step by reflexivity; run_step by exact E3; apply obstack_grow_eq).
    unfold alloc_entry. reflexivity.
  - cbn [mangle_obstack]. rewrite T3, T2. cbn [mangle_obstack s1].
    rewrite names_text_app, !string_app_assoc. cbn [names_text foldr].
    by rewrite string_app_nil_r.
Qed.

(** The table and the text where the parameters begin. *)
Lemma one_param_text m o k assembly a :
  one_param_method m o k assembly a ->
  exists s, ctable s = owner_table o assembly a /\
    mangle_obstack s = "_ZN" +:+ names_text [assembly; a; ILClass_Name o]
      +:+ method_text (ILMethod_Name m) +:+ "E" /\
    forall S (s0 : S), mangle_function m s0
      = match mangle_type 1 (ClassType k) s with
        | Done _ s' => Done (mangle_obstack s') s0
        | Failed e => Failed e
        end.
Proof.
  intros H1. pose proof H1 as [_ Ho _ _ _ (_ & _ & _ & _ & Sm) [Hn Hp]].
  destruct (owner_written m o k assembly a (mkMangle "_ZN" []) H1 eq_refl) as (v & E).
  assert (mangle_method_name (ILMethod_Name m)
    = obstack_grow (method_text (ILMethod_Name m))) as Hmn.
  { unfold mangle_method_name, method_text. repeat case_match; try done. unfold mangle_name.
    by rewrite (proj2 (Z.leb_gt _ _)) by done. }
  eexists (mkMangle _ _). split; [reflexivity |]. split; [reflexivity |].
  intros S s0. unfold mangle_function, finish_mangling, mangle_function_text.
  rewrite Ho, Hmn, Hn. change (Z.to_nat 1) with 1%nat. cbn [mangle_params]. rewrite Hp.
  match goal with |- match ?c with _ => _ end = match ?d with _ => _ end =>
    assert (c = match d with Done _ s' => Done tt s' | Failed e => Failed e end) as ->;
      [| by destruct d] end.
  run_step by reflexivity. run_step by reflexivity. run_step by exact E.
  run_step by apply obstack_grow_eq. run_step by apply obstack_grow_eq.
  cbn [mangle_obstack ctable]. rewrite !string_app_assoc.
  change (type_size (ClassType k)) with 1%nat.
  set (s1 := mkMangle _ _). destruct (mangle_type 1 (ClassType k) s1) as [v' s2 | e] eqn:Em.
  - run_step by (run_step by reflexivity; run_step by exact Em; reflexivity). reflexivity.
  - apply bind_fail. run_step by reflexivity. by apply bind_fail.
Qed.

(** C38: Overloads of a method with one parameter, an object of a class of the
    same assembly, get the same name whenever the classes of the parameters have
    the same name in namespaces that differ only in their first component, as
    [f (A.D.K)] and [f (C.D.K)], and the namespace of the class the method belongs
    to has no dot, no class being nested: the entry of that namespace is taken for
    the first component, because the comparison reads the pointer to the container
    of the entry as its name.  Where the namespace of the parameter has no dot
    either and its name is not that of the owner, the name of the method cannot be
    written at all: the comparison runs past the end of the namespace, also where
    it is the namespace of the owner. *)
Theorem mangle_collision {S} m1 m2 o k1 k2 assembly a c1 c2 rest ns (s : S) :
  one_param_method m1 o k1 assembly a ->
  (one_param_method m2 o k2 assembly a ->
   ILMethod_Name m1 = ILMethod_Name m2 -> ILClass_Name k1 = ILClass_Name k2 ->
   dots c1 = 0%nat -> dots c2 = 0%nat ->
   ILClass_Namespace k1 = Some (c1 +:+ String dot rest) ->
   ILClass_Namespace k2 = Some (c2 +:+ String dot rest) ->
   Forall short (components rest) ->
   exists n, mangle_function m1 s = Done n s /\ mangle_function m2 s = Done n s) /\
  (ILClass_Namespace k1 = Some ns -> dots ns = 0%nat -> ILClass_Name o <> ILClass_Name k1 ->
   mangle_function m1 s = Failed (Undefined "entry_matches: namespace")).
Proof.
  intros H1. destruct (one_param_text _ _ _ _ _ H1) as (s1 & C1 & T1 & E1). split.
  - intros H2 Hm Hk D1 D2 N1 N2 Hc.
    destruct (one_param_text _ _ _ _ _ H2) as (s2 & C2 & T2 & E2).
    destruct (param_written m1 o k1 assembly a _ rest s1 H1 C1 N1) as (v1 & s1' & F1 & X1);
      [by apply skip_dot_app | done |].
    destruct (param_written m2 o k2 assembly a _ rest s2 H2 C2 N2) as (v2 & s2' & F2 & X2);
      [by apply skip_dot_app | done |].
    exists (mangle_obstack s1'). rewrite E1, E2, F1, F2. split; [done |]. f_equal.
    by rewrite X1, X2, T1, T2, Hm, Hk.
  - intros N1 D1 Hne. rewrite E1. destruct H1 as [Hd _ [_ Hn] Ha [Ho _] _].
    assert (forall e, mangle_class max_depth k1 (mkMangle (mangle_obstack s1 +:+ "PN") (ctable s1))
      = Failed e -> (match mangle_type 1 (ClassType k1) s1 with
        | Done _ s' => Done (mangle_obstack s') s | Failed e => Failed e end) = Failed e) as Hf.
    { intros e He. assert (mangle_type 1 (ClassType k1) s1 = Failed e) as ->; [| done].
      cbn [mangle_type]. unfold mangle_pointer, known_entry at 1.
      run_step by reflexivity. run_step by (rewrite C1; reflexivity).
      apply bind_fail. run_step by reflexivity. by apply bind_fail. }
    apply Hf. destruct max_depth as [| fuel]; [done |]. cbn [mangle_class].
    unfold known_entry at 1. run_step by reflexivity.
    run_step by (cbn [ctable]; rewrite C1; apply (class_not_found o k1 a ns); auto).
    rewrite Hn. apply bind_fail. run_step by (apply Ha). rewrite N1. unfold mangle_namespace.
    rewrite D1. cbn [Nat.add mangle_namespace_r]. unfold known_entry at 1.
    run_step by reflexivity. apply bind_fail. cbn [ctable].
    rewrite (find_namespace o assembly a ns 0) by done. by rewrite skip_dot_plain.
Qed.

End correct.

#[local] Existing Instance sample_program.




(** [f (A.D.K)] and [f (C.D.K)] of [A.Owner], and [f (N.Derived)] of [N.Base]. *)
Lemma sample_one_param m o k a :
  (m, o, k, a) ∈ [(10, 10, 11, "A"); (11, 10, 12, "A"); (12, 2, 3, "N")]%N%string ->
  one_param_method m o k "app" a.
Proof.
  rewrite !elem_of_cons, elem_of_nil.
  intros [[= -> -> -> ->] | [[= -> -> -> ->] | [[= -> -> -> ->] | []]]];
    (split; [done | done | done | done | done | | done]); repeat split; done.
Qed.

Lemma mangle_collision_witness :
  (exists n, mangle_function 10%N tt = Done n tt /\ mangle_function 11%N tt = Done n tt) /\
  mangle_function 12%N tt = Failed (Undefined "entry_matches: namespace").
Proof.
  split.
  - destruct (mangle_collision 10 11 10 11 12 "app" "A" "A" "C" "D" "" tt
      (sample_one_param 10 10 11 "A" ltac:(set_solver))) as [H _].
    apply H; [apply sample_one_param; set_solver | reflexivity .. |].
    repeat constructor; reflexivity.
  - destruct (mangle_collision 12 12 2 3 3 "app" "N" "" "" "" "N" tt
      (sample_one_param 12 2 3 "N" ltac:(set_solver))) as [_ H].
    apply H; [reflexivity | reflexivity | discriminate].
Defined.
