(* ===== verification/Opcodes.v ===== *)
(** * Opcodes: the instruction set of the Common Intermediate Language

    Models src/gcc/cil/include/il_opcodes.h (the opcode values, the argument
    types and the record that describes an opcode) and the two tables of
    src/gcc/cil/image/opcodes.c, whose rows are in src/gcc/cil/image/opdef.c. *)
From S2P Require Import Prelude.

(** ** Opcode values *)

Inductive il_op :=
  | IL_OP_NOP | IL_OP_BREAK | IL_OP_LDARG_0 | IL_OP_LDARG_1 | IL_OP_LDARG_2
  | IL_OP_LDARG_3 | IL_OP_LDLOC_0 | IL_OP_LDLOC_1 | IL_OP_LDLOC_2
  | IL_OP_LDLOC_3 | IL_OP_STLOC_0 | IL_OP_STLOC_1 | IL_OP_STLOC_2
  | IL_OP_STLOC_3 | IL_OP_LDARG_S | IL_OP_LDARGA_S | IL_OP_STARG_S
  | IL_OP_LDLOC_S | IL_OP_LDLOCA_S | IL_OP_STLOC_S | IL_OP_LDNULL
  | IL_OP_LDC_I4_M1 | IL_OP_LDC_I4_0 | IL_OP_LDC_I4_1 | IL_OP_LDC_I4_2
  | IL_OP_LDC_I4_3 | IL_OP_LDC_I4_4 | IL_OP_LDC_I4_5 | IL_OP_LDC_I4_6
  | IL_OP_LDC_I4_7 | IL_OP_LDC_I4_8 | IL_OP_LDC_I4_S | IL_OP_LDC_I4
  | IL_OP_LDC_I8 | IL_OP_LDC_R4 | IL_OP_LDC_R8 | IL_OP_LDPTR | IL_OP_DUP
  | IL_OP_POP | IL_OP_JMP | IL_OP_CALL | IL_OP_CALLI | IL_OP_RET | IL_OP_BR_S
  | IL_OP_BRFALSE_S | IL_OP_BRTRUE_S | IL_OP_BEQ_S | IL_OP_BGE_S
  | IL_OP_BGT_S | IL_OP_BLE_S | IL_OP_BLT_S | IL_OP_BNE_UN_S | IL_OP_BGE_UN_S
  | IL_OP_BGT_UN_S | IL_OP_BLE_UN_S | IL_OP_BLT_UN_S | IL_OP_BR
  | IL_OP_BRFALSE | IL_OP_BRTRUE | IL_OP_BEQ | IL_OP_BGE | IL_OP_BGT
  | IL_OP_BLE | IL_OP_BLT | IL_OP_BNE_UN | IL_OP_BGE_UN | IL_OP_BGT_UN
  | IL_OP_BLE_UN | IL_OP_BLT_UN | IL_OP_SWITCH | IL_OP_LDIND_I1
  | IL_OP_LDIND_U1 | IL_OP_LDIND_I2 | IL_OP_LDIND_U2 | IL_OP_LDIND_I4
  | IL_OP_LDIND_U4 | IL_OP_LDIND_I8 | IL_OP_LDIND_I | IL_OP_LDIND_R4
  | IL_OP_LDIND_R8 | IL_OP_LDIND_REF | IL_OP_STIND_REF | IL_OP_STIND_I1
  | IL_OP_STIND_I2 | IL_OP_STIND_I4 | IL_OP_STIND_I8 | IL_OP_STIND_R4
  | IL_OP_STIND_R8 | IL_OP_ADD | IL_OP_SUB | IL_OP_MUL | IL_OP_DIV
  | IL_OP_DIV_UN | IL_OP_REM | IL_OP_REM_UN | IL_OP_AND | IL_OP_OR
  | IL_OP_XOR | IL_OP_SHL | IL_OP_SHR | IL_OP_SHR_UN | IL_OP_NEG | IL_OP_NOT
  | IL_OP_CONV_I1 | IL_OP_CONV_I2 | IL_OP_CONV_I4 | IL_OP_CONV_I8
  | IL_OP_CONV_R4 | IL_OP_CONV_R8 | IL_OP_CONV_U4 | IL_OP_CONV_U8
  | IL_OP_CALLVIRT | IL_OP_CPOBJ | IL_OP_LDOBJ | IL_OP_LDSTR | IL_OP_NEWOBJ
  | IL_OP_CASTCLASS | IL_OP_ISINST | IL_OP_CONV_R_UN | IL_OP_ANN_DATA_S
  | IL_OP_UNBOX | IL_OP_THROW | IL_OP_LDFLD | IL_OP_LDFLDA | IL_OP_STFLD
  | IL_OP_LDSFLD | IL_OP_LDSFLDA | IL_OP_STSFLD | IL_OP_STOBJ
  | IL_OP_CONV_OVF_I1_UN | IL_OP_CONV_OVF_I2_UN | IL_OP_CONV_OVF_I4_UN
  | IL_OP_CONV_OVF_I8_UN | IL_OP_CONV_OVF_U1_UN | IL_OP_CONV_OVF_U2_UN
  | IL_OP_CONV_OVF_U4_UN | IL_OP_CONV_OVF_U8_UN | IL_OP_CONV_OVF_I_UN
  | IL_OP_CONV_OVF_U_UN | IL_OP_BOX | IL_OP_NEWARR | IL_OP_LDLEN
  | IL_OP_LDELEMA | IL_OP_LDELEM_I1 | IL_OP_LDELEM_U1 | IL_OP_LDELEM_I2
  | IL_OP_LDELEM_U2 | IL_OP_LDELEM_I4 | IL_OP_LDELEM_U4 | IL_OP_LDELEM_I8
  | IL_OP_LDELEM_I | IL_OP_LDELEM_R4 | IL_OP_LDELEM_R8 | IL_OP_LDELEM_REF
  | IL_OP_STELEM_I | IL_OP_STELEM_I1 | IL_OP_STELEM_I2 | IL_OP_STELEM_I4
  | IL_OP_STELEM_I8 | IL_OP_STELEM_R4 | IL_OP_STELEM_R8 | IL_OP_STELEM_REF
  | IL_OP_LDELEM | IL_OP_STELEM | IL_OP_UNBOX_ANY | IL_OP_UNUSED_A6
  | IL_OP_UNUSED_A7 | IL_OP_UNUSED_A8 | IL_OP_UNUSED_A9 | IL_OP_UNUSED_AA
  | IL_OP_UNUSED_AB | IL_OP_UNUSED_AC | IL_OP_UNUSED_AD | IL_OP_UNUSED_AE
  | IL_OP_UNUSED_AF | IL_OP_UNUSED_B0 | IL_OP_UNUSED_B1 | IL_OP_UNUSED_B2
  | IL_OP_CONV_OVF_I1 | IL_OP_CONV_OVF_U1 | IL_OP_CONV_OVF_I2
  | IL_OP_CONV_OVF_U2 | IL_OP_CONV_OVF_I4 | IL_OP_CONV_OVF_U4
  | IL_OP_CONV_OVF_I8 | IL_OP_CONV_OVF_U8 | IL_OP_UNUSED_BB | IL_OP_UNUSED_BC
  | IL_OP_UNUSED_BD | IL_OP_UNUSED_BE | IL_OP_UNUSED_BF | IL_OP_UNUSED_C0
  | IL_OP_UNUSED_C1 | IL_OP_REFANYVAL | IL_OP_CKFINITE | IL_OP_UNUSED_C4
  | IL_OP_UNUSED_C5 | IL_OP_MKREFANY | IL_OP_ANN_CALL | IL_OP_ANN_CATCH
  | IL_OP_ANN_DEAD | IL_OP_ANN_HOISTED | IL_OP_ANN_HOISTED_CALL
  | IL_OP_ANN_LAB | IL_OP_ANN_DEF | IL_OP_ANN_REF_S | IL_OP_ANN_PHI
  | IL_OP_LDTOKEN | IL_OP_CONV_U2 | IL_OP_CONV_U1 | IL_OP_CONV_I
  | IL_OP_CONV_OVF_I | IL_OP_CONV_OVF_U | IL_OP_ADD_OVF | IL_OP_ADD_OVF_UN
  | IL_OP_MUL_OVF | IL_OP_MUL_OVF_UN | IL_OP_SUB_OVF | IL_OP_SUB_OVF_UN
  | IL_OP_ENDFINALLY | IL_OP_LEAVE | IL_OP_LEAVE_S | IL_OP_STIND_I
  | IL_OP_CONV_U | IL_OP_PREFIX.

Definition il_op_value (op : il_op) : Z :=
  match op with
  | IL_OP_NOP => 0x00 | IL_OP_BREAK => 0x01 | IL_OP_LDARG_0 => 0x02
  | IL_OP_LDARG_1 => 0x03 | IL_OP_LDARG_2 => 0x04 | IL_OP_LDARG_3 => 0x05
  | IL_OP_LDLOC_0 => 0x06 | IL_OP_LDLOC_1 => 0x07 | IL_OP_LDLOC_2 => 0x08
  | IL_OP_LDLOC_3 => 0x09 | IL_OP_STLOC_0 => 0x0A | IL_OP_STLOC_1 => 0x0B
  | IL_OP_STLOC_2 => 0x0C | IL_OP_STLOC_3 => 0x0D | IL_OP_LDARG_S => 0x0E
  | IL_OP_LDARGA_S => 0x0F | IL_OP_STARG_S => 0x10 | IL_OP_LDLOC_S => 0x11
  | IL_OP_LDLOCA_S => 0x12 | IL_OP_STLOC_S => 0x13 | IL_OP_LDNULL => 0x14
  | IL_OP_LDC_I4_M1 => 0x15 | IL_OP_LDC_I4_0 => 0x16 | IL_OP_LDC_I4_1 => 0x17
  | IL_OP_LDC_I4_2 => 0x18 | IL_OP_LDC_I4_3 => 0x19 | IL_OP_LDC_I4_4 => 0x1A
  | IL_OP_LDC_I4_5 => 0x1B | IL_OP_LDC_I4_6 => 0x1C | IL_OP_LDC_I4_7 => 0x1D
  | IL_OP_LDC_I4_8 => 0x1E | IL_OP_LDC_I4_S => 0x1F | IL_OP_LDC_I4 => 0x20
  | IL_OP_LDC_I8 => 0x21 | IL_OP_LDC_R4 => 0x22 | IL_OP_LDC_R8 => 0x23
  | IL_OP_LDPTR => 0x24 | IL_OP_DUP => 0x25 | IL_OP_POP => 0x26
  | IL_OP_JMP => 0x27 | IL_OP_CALL => 0x28 | IL_OP_CALLI => 0x29
  | IL_OP_RET => 0x2A | IL_OP_BR_S => 0x2B | IL_OP_BRFALSE_S => 0x2C
  | IL_OP_BRTRUE_S => 0x2D | IL_OP_BEQ_S => 0x2E | IL_OP_BGE_S => 0x2F
  | IL_OP_BGT_S => 0x30 | IL_OP_BLE_S => 0x31 | IL_OP_BLT_S => 0x32
  | IL_OP_BNE_UN_S => 0x33 | IL_OP_BGE_UN_S => 0x34 | IL_OP_BGT_UN_S => 0x35
  | IL_OP_BLE_UN_S => 0x36 | IL_OP_BLT_UN_S => 0x37 | IL_OP_BR => 0x38
  | IL_OP_BRFALSE => 0x39 | IL_OP_BRTRUE => 0x3A | IL_OP_BEQ => 0x3B
  | IL_OP_BGE => 0x3C | IL_OP_BGT => 0x3D | IL_OP_BLE => 0x3E
  | IL_OP_BLT => 0x3F | IL_OP_BNE_UN => 0x40 | IL_OP_BGE_UN => 0x41
  | IL_OP_BGT_UN => 0x42 | IL_OP_BLE_UN => 0x43 | IL_OP_BLT_UN => 0x44
  | IL_OP_SWITCH => 0x45 | IL_OP_LDIND_I1 => 0x46 | IL_OP_LDIND_U1 => 0x47
  | IL_OP_LDIND_I2 => 0x48 | IL_OP_LDIND_U2 => 0x49 | IL_OP_LDIND_I4 => 0x4A
  | IL_OP_LDIND_U4 => 0x4B | IL_OP_LDIND_I8 => 0x4C | IL_OP_LDIND_I => 0x4D
  | IL_OP_LDIND_R4 => 0x4E | IL_OP_LDIND_R8 => 0x4F | IL_OP_LDIND_REF => 0x50
  | IL_OP_STIND_REF => 0x51 | IL_OP_STIND_I1 => 0x52 | IL_OP_STIND_I2 => 0x53
  | IL_OP_STIND_I4 => 0x54 | IL_OP_STIND_I8 => 0x55 | IL_OP_STIND_R4 => 0x56
  | IL_OP_STIND_R8 => 0x57 | IL_OP_ADD => 0x58 | IL_OP_SUB => 0x59
  | IL_OP_MUL => 0x5A | IL_OP_DIV => 0x5B | IL_OP_DIV_UN => 0x5C
  | IL_OP_REM => 0x5D | IL_OP_REM_UN => 0x5E | IL_OP_AND => 0x5F
  | IL_OP_OR => 0x60 | IL_OP_XOR => 0x61 | IL_OP_SHL => 0x62
  | IL_OP_SHR => 0x63 | IL_OP_SHR_UN => 0x64 | IL_OP_NEG => 0x65
  | IL_OP_NOT => 0x66 | IL_OP_CONV_I1 => 0x67 | IL_OP_CONV_I2 => 0x68
  | IL_OP_CONV_I4 => 0x69 | IL_OP_CONV_I8 => 0x6A | IL_OP_CONV_R4 => 0x6B
  | IL_OP_CONV_R8 => 0x6C | IL_OP_CONV_U4 => 0x6D | IL_OP_CONV_U8 => 0x6E
  | IL_OP_CALLVIRT => 0x6F | IL_OP_CPOBJ => 0x70 | IL_OP_LDOBJ => 0x71
  | IL_OP_LDSTR => 0x72 | IL_OP_NEWOBJ => 0x73 | IL_OP_CASTCLASS => 0x74
  | IL_OP_ISINST => 0x75 | IL_OP_CONV_R_UN => 0x76 | IL_OP_ANN_DATA_S => 0x77
  | IL_OP_UNBOX => 0x79 | IL_OP_THROW => 0x7A | IL_OP_LDFLD => 0x7B
  | IL_OP_LDFLDA => 0x7C | IL_OP_STFLD => 0x7D | IL_OP_LDSFLD => 0x7E
  | IL_OP_LDSFLDA => 0x7F | IL_OP_STSFLD => 0x80 | IL_OP_STOBJ => 0x81
  | IL_OP_CONV_OVF_I1_UN => 0x82 | IL_OP_CONV_OVF_I2_UN => 0x83
  | IL_OP_CONV_OVF_I4_UN => 0x84 | IL_OP_CONV_OVF_I8_UN => 0x85
  | IL_OP_CONV_OVF_U1_UN => 0x86 | IL_OP_CONV_OVF_U2_UN => 0x87
  | IL_OP_CONV_OVF_U4_UN => 0x88 | IL_OP_CONV_OVF_U8_UN => 0x89
  | IL_OP_CONV_OVF_I_UN => 0x8A | IL_OP_CONV_OVF_U_UN => 0x8B
  | IL_OP_BOX => 0x8C | IL_OP_NEWARR => 0x8D | IL_OP_LDLEN => 0x8E
  | IL_OP_LDELEMA => 0x8F | IL_OP_LDELEM_I1 => 0x90 | IL_OP_LDELEM_U1 => 0x91
  | IL_OP_LDELEM_I2 => 0x92 | IL_OP_LDELEM_U2 => 0x93 | IL_OP_LDELEM_I4 => 0x94
  | IL_OP_LDELEM_U4 => 0x95 | IL_OP_LDELEM_I8 => 0x96 | IL_OP_LDELEM_I => 0x97
  | IL_OP_LDELEM_R4 => 0x98 | IL_OP_LDELEM_R8 => 0x99
  | IL_OP_LDELEM_REF => 0x9A | IL_OP_STELEM_I => 0x9B | IL_OP_STELEM_I1 => 0x9C
  | IL_OP_STELEM_I2 => 0x9D | IL_OP_STELEM_I4 => 0x9E | IL_OP_STELEM_I8 => 0x9F
  | IL_OP_STELEM_R4 => 0xA0 | IL_OP_STELEM_R8 => 0xA1
  | IL_OP_STELEM_REF => 0xA2 | IL_OP_LDELEM => 0xA3 | IL_OP_STELEM => 0xA4
  | IL_OP_UNBOX_ANY => 0xA5 | IL_OP_UNUSED_A6 => 0xA6 | IL_OP_UNUSED_A7 => 0xA7
  | IL_OP_UNUSED_A8 => 0xA8 | IL_OP_UNUSED_A9 => 0xA9 | IL_OP_UNUSED_AA => 0xAA
  | IL_OP_UNUSED_AB => 0xAB | IL_OP_UNUSED_AC => 0xAC | IL_OP_UNUSED_AD => 0xAD
  | IL_OP_UNUSED_AE => 0xAE | IL_OP_UNUSED_AF => 0xAF | IL_OP_UNUSED_B0 => 0xB0
  | IL_OP_UNUSED_B1 => 0xB1 | IL_OP_UNUSED_B2 => 0xB2
  | IL_OP_CONV_OVF_I1 => 0xB3 | IL_OP_CONV_OVF_U1 => 0xB4
  | IL_OP_CONV_OVF_I2 => 0xB5 | IL_OP_CONV_OVF_U2 => 0xB6
  | IL_OP_CONV_OVF_I4 => 0xB7 | IL_OP_CONV_OVF_U4 => 0xB8
  | IL_OP_CONV_OVF_I8 => 0xB9 | IL_OP_CONV_OVF_U8 => 0xBA
  | IL_OP_UNUSED_BB => 0xBB | IL_OP_UNUSED_BC => 0xBC | IL_OP_UNUSED_BD => 0xBD
  | IL_OP_UNUSED_BE => 0xBE | IL_OP_UNUSED_BF => 0xBF | IL_OP_UNUSED_C0 => 0xC0
  | IL_OP_UNUSED_C1 => 0xC1 | IL_OP_REFANYVAL => 0xC2 | IL_OP_CKFINITE => 0xC3
  | IL_OP_UNUSED_C4 => 0xC4 | IL_OP_UNUSED_C5 => 0xC5 | IL_OP_MKREFANY => 0xC6
  | IL_OP_ANN_CALL => 0xC7 | IL_OP_ANN_CATCH => 0xC8 | IL_OP_ANN_DEAD => 0xC9
  | IL_OP_ANN_HOISTED => 0xCA | IL_OP_ANN_HOISTED_CALL => 0xCB
  | IL_OP_ANN_LAB => 0xCC | IL_OP_ANN_DEF => 0xCD | IL_OP_ANN_REF_S => 0xCE
  | IL_OP_ANN_PHI => 0xCF | IL_OP_LDTOKEN => 0xD0 | IL_OP_CONV_U2 => 0xD1
  | IL_OP_CONV_U1 => 0xD2 | IL_OP_CONV_I => 0xD3 | IL_OP_CONV_OVF_I => 0xD4
  | IL_OP_CONV_OVF_U => 0xD5 | IL_OP_ADD_OVF => 0xD6 | IL_OP_ADD_OVF_UN => 0xD7
  | IL_OP_MUL_OVF => 0xD8 | IL_OP_MUL_OVF_UN => 0xD9 | IL_OP_SUB_OVF => 0xDA
  | IL_OP_SUB_OVF_UN => 0xDB | IL_OP_ENDFINALLY => 0xDC | IL_OP_LEAVE => 0xDD
  | IL_OP_LEAVE_S => 0xDE | IL_OP_STIND_I => 0xDF | IL_OP_CONV_U => 0xE0
  | IL_OP_PREFIX => 0xFE
  end.

Inductive il_prefix_op :=
  | IL_PREFIX_OP_ARGLIST | IL_PREFIX_OP_CEQ | IL_PREFIX_OP_CGT
  | IL_PREFIX_OP_CGT_UN | IL_PREFIX_OP_CLT | IL_PREFIX_OP_CLT_UN
  | IL_PREFIX_OP_LDFTN | IL_PREFIX_OP_LDVIRTFTN | IL_PREFIX_OP_JMPI
  | IL_PREFIX_OP_LDARG | IL_PREFIX_OP_LDARGA | IL_PREFIX_OP_STARG
  | IL_PREFIX_OP_LDLOC | IL_PREFIX_OP_LDLOCA | IL_PREFIX_OP_STLOC
  | IL_PREFIX_OP_LOCALLOC | IL_PREFIX_OP_UNUSED_PREFIX_10
  | IL_PREFIX_OP_ENDFILTER | IL_PREFIX_OP_UNALIGNED | IL_PREFIX_OP_VOLATILE
  | IL_PREFIX_OP_TAIL | IL_PREFIX_OP_INITOBJ | IL_PREFIX_OP_ANN_LIVE
  | IL_PREFIX_OP_CPBLK | IL_PREFIX_OP_INITBLK | IL_PREFIX_OP_ANN_REF
  | IL_PREFIX_OP_RETHROW | IL_PREFIX_OP_UNUSED_PREFIX_1B
  | IL_PREFIX_OP_SIZEOF | IL_PREFIX_OP_REFANYTYPE
  | IL_PREFIX_OP_UNUSED_PREFIX_1E | IL_PREFIX_OP_UNUSED_PREFIX_1F
  | IL_PREFIX_OP_UNUSED_PREFIX_20 | IL_PREFIX_OP_UNUSED_PREFIX_21
  | IL_PREFIX_OP_ANN_DATA | IL_PREFIX_OP_ANN_ARG.

Definition il_prefix_op_value (op : il_prefix_op) : Z :=
  match op with
  | IL_PREFIX_OP_ARGLIST => 0x00 | IL_PREFIX_OP_CEQ => 0x01
  | IL_PREFIX_OP_CGT => 0x02 | IL_PREFIX_OP_CGT_UN => 0x03
  | IL_PREFIX_OP_CLT => 0x04 | IL_PREFIX_OP_CLT_UN => 0x05
  | IL_PREFIX_OP_LDFTN => 0x06 | IL_PREFIX_OP_LDVIRTFTN => 0x07
  | IL_PREFIX_OP_JMPI => 0x08 | IL_PREFIX_OP_LDARG => 0x09
  | IL_PREFIX_OP_LDARGA => 0x0A | IL_PREFIX_OP_STARG => 0x0B
  | IL_PREFIX_OP_LDLOC => 0x0C | IL_PREFIX_OP_LDLOCA => 0x0D
  | IL_PREFIX_OP_STLOC => 0x0E | IL_PREFIX_OP_LOCALLOC => 0x0F
  | IL_PREFIX_OP_UNUSED_PREFIX_10 => 0x10 | IL_PREFIX_OP_ENDFILTER => 0x11
  | IL_PREFIX_OP_UNALIGNED => 0x12 | IL_PREFIX_OP_VOLATILE => 0x13
  | IL_PREFIX_OP_TAIL => 0x14 | IL_PREFIX_OP_INITOBJ => 0x15
  | IL_PREFIX_OP_ANN_LIVE => 0x16 | IL_PREFIX_OP_CPBLK => 0x17
  | IL_PREFIX_OP_INITBLK => 0x18 | IL_PREFIX_OP_ANN_REF => 0x19
  | IL_PREFIX_OP_RETHROW => 0x1A | IL_PREFIX_OP_UNUSED_PREFIX_1B => 0x1B
  | IL_PREFIX_OP_SIZEOF => 0x1C | IL_PREFIX_OP_REFANYTYPE => 0x1D
  | IL_PREFIX_OP_UNUSED_PREFIX_1E => 0x1E
  | IL_PREFIX_OP_UNUSED_PREFIX_1F => 0x1F
  | IL_PREFIX_OP_UNUSED_PREFIX_20 => 0x20
  | IL_PREFIX_OP_UNUSED_PREFIX_21 => 0x21 | IL_PREFIX_OP_ANN_DATA => 0x22
  | IL_PREFIX_OP_ANN_ARG => 0x23
  end.

(** ** Opcode information *)

(** [ILOpcodeInfo::args] *)
Inductive il_args :=
  | IL_OPCODE_ARGS_INVALID | IL_OPCODE_ARGS_NONE | IL_OPCODE_ARGS_INT8
  | IL_OPCODE_ARGS_UINT8 | IL_OPCODE_ARGS_INT16 | IL_OPCODE_ARGS_UINT16
  | IL_OPCODE_ARGS_INT32 | IL_OPCODE_ARGS_INT64 | IL_OPCODE_ARGS_FLOAT32
  | IL_OPCODE_ARGS_FLOAT64 | IL_OPCODE_ARGS_TOKEN | IL_OPCODE_ARGS_SHORT_VAR
  | IL_OPCODE_ARGS_LONG_VAR | IL_OPCODE_ARGS_SHORT_ARG
  | IL_OPCODE_ARGS_LONG_ARG | IL_OPCODE_ARGS_SHORT_JUMP
  | IL_OPCODE_ARGS_LONG_JUMP | IL_OPCODE_ARGS_CALL | IL_OPCODE_ARGS_CALLI
  | IL_OPCODE_ARGS_CALLVIRT | IL_OPCODE_ARGS_SWITCH | IL_OPCODE_ARGS_STRING
  | IL_OPCODE_ARGS_NEW | IL_OPCODE_ARGS_ANN_DATA | IL_OPCODE_ARGS_ANN_DEAD
  | IL_OPCODE_ARGS_ANN_REF | IL_OPCODE_ARGS_ANN_PHI | IL_OPCODE_ARGS_ANN_LIVE
  | IL_OPCODE_ARGS_ANN_ARG | IL_OPCODE_ARGS_LDTOKEN.

Definition il_args_value (op : il_args) : Z :=
  match op with
  | IL_OPCODE_ARGS_INVALID => 0 | IL_OPCODE_ARGS_NONE => 1
  | IL_OPCODE_ARGS_INT8 => 2 | IL_OPCODE_ARGS_UINT8 => 3
  | IL_OPCODE_ARGS_INT16 => 4 | IL_OPCODE_ARGS_UINT16 => 5
  | IL_OPCODE_ARGS_INT32 => 6 | IL_OPCODE_ARGS_INT64 => 7
  | IL_OPCODE_ARGS_FLOAT32 => 8 | IL_OPCODE_ARGS_FLOAT64 => 9
  | IL_OPCODE_ARGS_TOKEN => 10 | IL_OPCODE_ARGS_SHORT_VAR => 11
  | IL_OPCODE_ARGS_LONG_VAR => 12 | IL_OPCODE_ARGS_SHORT_ARG => 13
  | IL_OPCODE_ARGS_LONG_ARG => 14 | IL_OPCODE_ARGS_SHORT_JUMP => 15
  | IL_OPCODE_ARGS_LONG_JUMP => 16 | IL_OPCODE_ARGS_CALL => 17
  | IL_OPCODE_ARGS_CALLI => 18 | IL_OPCODE_ARGS_CALLVIRT => 19
  | IL_OPCODE_ARGS_SWITCH => 20 | IL_OPCODE_ARGS_STRING => 21
  | IL_OPCODE_ARGS_NEW => 22 | IL_OPCODE_ARGS_ANN_DATA => 23
  | IL_OPCODE_ARGS_ANN_DEAD => 24 | IL_OPCODE_ARGS_ANN_REF => 25
  | IL_OPCODE_ARGS_ANN_PHI => 26 | IL_OPCODE_ARGS_ANN_LIVE => 27
  | IL_OPCODE_ARGS_ANN_ARG => 28 | IL_OPCODE_ARGS_LDTOKEN => 29
  end.

Record ILOpcodeInfo := OPDEF {
  op_name : string;     (* name of the opcode *)
  op_popped : Z;        (* number of values popped from the stack *)
  op_pushed : Z;        (* number of values pushed on the stack *)
  op_args : il_args;    (* type of arguments to the opcode *)
  op_size : Z           (* size of the instruction, 0 when it varies *)
}.

Definition IL_MAIN_OPDEF_00_3F : list ILOpcodeInfo := [
  OPDEF "nop" 0 0 IL_OPCODE_ARGS_NONE 1;
  OPDEF "break" 0 0 IL_OPCODE_ARGS_NONE 1;
  OPDEF "ldarg.0" 0 1 IL_OPCODE_ARGS_NONE 1;
  OPDEF "ldarg.1" 0 1 IL_OPCODE_ARGS_NONE 1;
  OPDEF "ldarg.2" 0 1 IL_OPCODE_ARGS_NONE 1;
  OPDEF "ldarg.3" 0 1 IL_OPCODE_ARGS_NONE 1;
  OPDEF "ldloc.0" 0 1 IL_OPCODE_ARGS_NONE 1;
  OPDEF "ldloc.1" 0 1 IL_OPCODE_ARGS_NONE 1;
  OPDEF "ldloc.2" 0 1 IL_OPCODE_ARGS_NONE 1;
  OPDEF "ldloc.3" 0 1 IL_OPCODE_ARGS_NONE 1;
  OPDEF "stloc.0" 1 0 IL_OPCODE_ARGS_NONE 1;
  OPDEF "stloc.1" 1 0 IL_OPCODE_ARGS_NONE 1;
  OPDEF "stloc.2" 1 0 IL_OPCODE_ARGS_NONE 1;
  OPDEF "stloc.3" 1 0 IL_OPCODE_ARGS_NONE 1;
  OPDEF "ldarg.s" 0 1 IL_OPCODE_ARGS_SHORT_ARG 2;
  OPDEF "ldarga.s" 0 1 IL_OPCODE_ARGS_SHORT_ARG 2;
  OPDEF "starg.s" 1 0 IL_OPCODE_ARGS_SHORT_ARG 2;
  OPDEF "ldloc.s" 0 1 IL_OPCODE_ARGS_SHORT_VAR 2;
  OPDEF "ldloca.s" 0 1 IL_OPCODE_ARGS_SHORT_VAR 2;
  OPDEF "stloc.s" 1 0 IL_OPCODE_ARGS_SHORT_VAR 2;
  OPDEF "ldnull" 0 1 IL_OPCODE_ARGS_NONE 1;
  OPDEF "ldc.i4.m1" 0 1 IL_OPCODE_ARGS_NONE 1;
  OPDEF "ldc.i4.0" 0 1 IL_OPCODE_ARGS_NONE 1;
  OPDEF "ldc.i4.1" 0 1 IL_OPCODE_ARGS_NONE 1;
  OPDEF "ldc.i4.2" 0 1 IL_OPCODE_ARGS_NONE 1;
  OPDEF "ldc.i4.3" 0 1 IL_OPCODE_ARGS_NONE 1;
  OPDEF "ldc.i4.4" 0 1 IL_OPCODE_ARGS_NONE 1;
  OPDEF "ldc.i4.5" 0 1 IL_OPCODE_ARGS_NONE 1;
  OPDEF "ldc.i4.6" 0 1 IL_OPCODE_ARGS_NONE 1;
  OPDEF "ldc.i4.7" 0 1 IL_OPCODE_ARGS_NONE 1;
  OPDEF "ldc.i4.8" 0 1 IL_OPCODE_ARGS_NONE 1;
  OPDEF "ldc.i4.s" 0 1 IL_OPCODE_ARGS_INT8 2;
  OPDEF "ldc.i4" 0 1 IL_OPCODE_ARGS_INT32 5;
  OPDEF "ldc.i8" 0 1 IL_OPCODE_ARGS_INT64 9;
  OPDEF "ldc.r4" 0 1 IL_OPCODE_ARGS_FLOAT32 5;
  OPDEF "ldc.r8" 0 1 IL_OPCODE_ARGS_FLOAT64 9;
  OPDEF "ldptr" 0 1 IL_OPCODE_ARGS_INT32 5;
  OPDEF "dup" 1 2 IL_OPCODE_ARGS_NONE 1;
  OPDEF "pop" 1 0 IL_OPCODE_ARGS_NONE 1;
  OPDEF "jmp" 0 0 IL_OPCODE_ARGS_CALL 5;
  OPDEF "call" 0 0 IL_OPCODE_ARGS_CALL 5;
  OPDEF "calli" 0 0 IL_OPCODE_ARGS_CALLI 5;
  OPDEF "ret" 0 0 IL_OPCODE_ARGS_NONE 1;
  OPDEF "br.s" 0 0 IL_OPCODE_ARGS_SHORT_JUMP 2;
  OPDEF "brfalse.s" 1 0 IL_OPCODE_ARGS_SHORT_JUMP 2;
  OPDEF "brtrue.s" 1 0 IL_OPCODE_ARGS_SHORT_JUMP 2;
  OPDEF "beq.s" 2 0 IL_OPCODE_ARGS_SHORT_JUMP 2;
  OPDEF "bge.s" 2 0 IL_OPCODE_ARGS_SHORT_JUMP 2;
  OPDEF "bgt.s" 2 0 IL_OPCODE_ARGS_SHORT_JUMP 2;
  OPDEF "ble.s" 2 0 IL_OPCODE_ARGS_SHORT_JUMP 2;
  OPDEF "blt.s" 2 0 IL_OPCODE_ARGS_SHORT_JUMP 2;
  OPDEF "bne.un.s" 2 0 IL_OPCODE_ARGS_SHORT_JUMP 2;
  OPDEF "bge.un.s" 2 0 IL_OPCODE_ARGS_SHORT_JUMP 2;
  OPDEF "bgt.un.s" 2 0 IL_OPCODE_ARGS_SHORT_JUMP 2;
  OPDEF "ble.un.s" 2 0 IL_OPCODE_ARGS_SHORT_JUMP 2;
  OPDEF "blt.un.s" 2 0 IL_OPCODE_ARGS_SHORT_JUMP 2;
  OPDEF "br" 0 0 IL_OPCODE_ARGS_LONG_JUMP 5;
  OPDEF "brfalse" 1 0 IL_OPCODE_ARGS_LONG_JUMP 5;
  OPDEF "brtrue" 1 0 IL_OPCODE_ARGS_LONG_JUMP 5;
  OPDEF "beq" 2 0 IL_OPCODE_ARGS_LONG_JUMP 5;
  OPDEF "bge" 2 0 IL_OPCODE_ARGS_LONG_JUMP 5;
  OPDEF "bgt" 2 0 IL_OPCODE_ARGS_LONG_JUMP 5;
  OPDEF "ble" 2 0 IL_OPCODE_ARGS_LONG_JUMP 5;
  OPDEF "blt" 2 0 IL_OPCODE_ARGS_LONG_JUMP 5].

Definition IL_MAIN_OPDEF_40_7F : list ILOpcodeInfo := [
  OPDEF "bne.un" 2 0 IL_OPCODE_ARGS_LONG_JUMP 5;
  OPDEF "bge.un" 2 0 IL_OPCODE_ARGS_LONG_JUMP 5;
  OPDEF "bgt.un" 2 0 IL_OPCODE_ARGS_LONG_JUMP 5;
  OPDEF "ble.un" 2 0 IL_OPCODE_ARGS_LONG_JUMP 5;
  OPDEF "blt.un" 2 0 IL_OPCODE_ARGS_LONG_JUMP 5;
  OPDEF "switch" 1 0 IL_OPCODE_ARGS_SWITCH 0;
  OPDEF "ldind.i1" 1 1 IL_OPCODE_ARGS_NONE 1;
  OPDEF "ldind.u1" 1 1 IL_OPCODE_ARGS_NONE 1;
  OPDEF "ldind.i2" 1 1 IL_OPCODE_ARGS_NONE 1;
  OPDEF "ldind.u2" 1 1 IL_OPCODE_ARGS_NONE 1;
  OPDEF "ldind.i4" 1 1 IL_OPCODE_ARGS_NONE 1;
  OPDEF "ldind.u4" 1 1 IL_OPCODE_ARGS_NONE 1;
  OPDEF "ldind.i8" 1 1 IL_OPCODE_ARGS_NONE 1;
  OPDEF "ldind.i" 1 1 IL_OPCODE_ARGS_NONE 1;
  OPDEF "ldind.r4" 1 1 IL_OPCODE_ARGS_NONE 1;
  OPDEF "ldind.r8" 1 1 IL_OPCODE_ARGS_NONE 1;
  OPDEF "ldind.ref" 1 1 IL_OPCODE_ARGS_NONE 1;
  OPDEF "stind.ref" 2 0 IL_OPCODE_ARGS_NONE 1;
  OPDEF "stind.i1" 2 0 IL_OPCODE_ARGS_NONE 1;
  OPDEF "stind.i2" 2 0 IL_OPCODE_ARGS_NONE 1;
  OPDEF "stind.i4" 2 0 IL_OPCODE_ARGS_NONE 1;
  OPDEF "stind.i8" 2 0 IL_OPCODE_ARGS_NONE 1;
  OPDEF "stind.r4" 2 0 IL_OPCODE_ARGS_NONE 1;
  OPDEF "stind.r8" 2 0 IL_OPCODE_ARGS_NONE 1;
  OPDEF "add" 2 1 IL_OPCODE_ARGS_NONE 1;
  OPDEF "sub" 2 1 IL_OPCODE_ARGS_NONE 1;
  OPDEF "mul" 2 1 IL_OPCODE_ARGS_NONE 1;
  OPDEF "div" 2 1 IL_OPCODE_ARGS_NONE 1;
  OPDEF "div.un" 2 1 IL_OPCODE_ARGS_NONE 1;
  OPDEF "rem" 2 1 IL_OPCODE_ARGS_NONE 1;
  OPDEF "rem.un" 2 1 IL_OPCODE_ARGS_NONE 1;
  OPDEF "and" 2 1 IL_OPCODE_ARGS_NONE 1;
  OPDEF "or" 2 1 IL_OPCODE_ARGS_NONE 1;
  OPDEF "xor" 2 1 IL_OPCODE_ARGS_NONE 1;
  OPDEF "shl" 2 1 IL_OPCODE_ARGS_NONE 1;
  OPDEF "shr" 2 1 IL_OPCODE_ARGS_NONE 1;
  OPDEF "shr.un" 2 1 IL_OPCODE_ARGS_NONE 1;
  OPDEF "neg" 1 1 IL_OPCODE_ARGS_NONE 1;
  OPDEF "not" 1 1 IL_OPCODE_ARGS_NONE 1;
  OPDEF "conv.i1" 1 1 IL_OPCODE_ARGS_NONE 1;
  OPDEF "conv.i2" 1 1 IL_OPCODE_ARGS_NONE 1;
  OPDEF "conv.i4" 1 1 IL_OPCODE_ARGS_NONE 1;
  OPDEF "conv.i8" 1 1 IL_OPCODE_ARGS_NONE 1;
  OPDEF "conv.r4" 1 1 IL_OPCODE_ARGS_NONE 1;
  OPDEF "conv.r8" 1 1 IL_OPCODE_ARGS_NONE 1;
  OPDEF "conv.u4" 1 1 IL_OPCODE_ARGS_NONE 1;
  OPDEF "conv.u8" 1 1 IL_OPCODE_ARGS_NONE 1;
  OPDEF "callvirt" 0 0 IL_OPCODE_ARGS_CALLVIRT 5;
  OPDEF "cpobj" 2 0 IL_OPCODE_ARGS_TOKEN 5;
  OPDEF "ldobj" 1 1 IL_OPCODE_ARGS_TOKEN 5;
  OPDEF "ldstr" 0 1 IL_OPCODE_ARGS_STRING 5;
  OPDEF "newobj" 0 0 IL_OPCODE_ARGS_NEW 5;
  OPDEF "castclass" 1 1 IL_OPCODE_ARGS_TOKEN 5;
  OPDEF "isinst" 1 1 IL_OPCODE_ARGS_TOKEN 5;
  OPDEF "conv.r.un" 1 1 IL_OPCODE_ARGS_NONE 1;
  OPDEF "ann.data.s" 0 0 IL_OPCODE_ARGS_ANN_DATA 0;
  OPDEF "unused_78" 0 0 IL_OPCODE_ARGS_INVALID 1;
  OPDEF "unbox" 1 1 IL_OPCODE_ARGS_TOKEN 5;
  OPDEF "throw" 1 0 IL_OPCODE_ARGS_NONE 1;
  OPDEF "ldfld" 1 1 IL_OPCODE_ARGS_TOKEN 5;
  OPDEF "ldflda" 1 1 IL_OPCODE_ARGS_TOKEN 5;
  OPDEF "stfld" 2 0 IL_OPCODE_ARGS_TOKEN 5;
  OPDEF "ldsfld" 0 1 IL_OPCODE_ARGS_TOKEN 5;
  OPDEF "ldsflda" 0 1 IL_OPCODE_ARGS_TOKEN 5].

Definition IL_MAIN_OPDEF_80_BF : list ILOpcodeInfo := [
  OPDEF "stsfld" 1 0 IL_OPCODE_ARGS_TOKEN 5;
  OPDEF "stobj" 2 0 IL_OPCODE_ARGS_TOKEN 5;
  OPDEF "conv.ovf.i1.un" 1 1 IL_OPCODE_ARGS_NONE 1;
  OPDEF "conv.ovf.i2.un" 1 1 IL_OPCODE_ARGS_NONE 1;
  OPDEF "conv.ovf.i4.un" 1 1 IL_OPCODE_ARGS_NONE 1;
  OPDEF "conv.ovf.i8.un" 1 1 IL_OPCODE_ARGS_NONE 1;
  OPDEF "conv.ovf.u1.un" 1 1 IL_OPCODE_ARGS_NONE 1;
  OPDEF "conv.ovf.u2.un" 1 1 IL_OPCODE_ARGS_NONE 1;
  OPDEF "conv.ovf.u4.un" 1 1 IL_OPCODE_ARGS_NONE 1;
  OPDEF "conv.ovf.u8.un" 1 1 IL_OPCODE_ARGS_NONE 1;
  OPDEF "conv.ovf.i.un" 1 1 IL_OPCODE_ARGS_NONE 1;
  OPDEF "conv.ovf.u.un" 1 1 IL_OPCODE_ARGS_NONE 1;
  OPDEF "box" 1 1 IL_OPCODE_ARGS_TOKEN 5;
  OPDEF "newarr" 1 1 IL_OPCODE_ARGS_TOKEN 5;
  OPDEF "ldlen" 1 1 IL_OPCODE_ARGS_NONE 1;
  OPDEF "ldelema" 2 1 IL_OPCODE_ARGS_TOKEN 5;
  OPDEF "ldelem.i1" 2 1 IL_OPCODE_ARGS_NONE 1;
  OPDEF "ldelem.u1" 2 1 IL_OPCODE_ARGS_NONE 1;
  OPDEF "ldelem.i2" 2 1 IL_OPCODE_ARGS_NONE 1;
  OPDEF "ldelem.u2" 2 1 IL_OPCODE_ARGS_NONE 1;
  OPDEF "ldelem.i4" 2 1 IL_OPCODE_ARGS_NONE 1;
  OPDEF "ldelem.u4" 2 1 IL_OPCODE_ARGS_NONE 1;
  OPDEF "ldelem.i8" 2 1 IL_OPCODE_ARGS_NONE 1;
  OPDEF "ldelem.i" 2 1 IL_OPCODE_ARGS_NONE 1;
  OPDEF "ldelem.r4" 2 1 IL_OPCODE_ARGS_NONE 1;
  OPDEF "ldelem.r8" 2 1 IL_OPCODE_ARGS_NONE 1;
  OPDEF "ldelem.ref" 2 1 IL_OPCODE_ARGS_NONE 1;
  OPDEF "stelem.i" 3 0 IL_OPCODE_ARGS_NONE 1;
  OPDEF "stelem.i1" 3 0 IL_OPCODE_ARGS_NONE 1;
  OPDEF "stelem.i2" 3 0 IL_OPCODE_ARGS_NONE 1;
  OPDEF "stelem.i4" 3 0 IL_OPCODE_ARGS_NONE 1;
  OPDEF "stelem.i8" 3 0 IL_OPCODE_ARGS_NONE 1;
  OPDEF "stelem.r4" 3 0 IL_OPCODE_ARGS_NONE 1;
  OPDEF "stelem.r8" 3 0 IL_OPCODE_ARGS_NONE 1;
  OPDEF "stelem.ref" 3 0 IL_OPCODE_ARGS_NONE 1;
  OPDEF "ldelem" 2 1 IL_OPCODE_ARGS_TOKEN 5;
  OPDEF "stelem" 3 0 IL_OPCODE_ARGS_TOKEN 5;
  OPDEF "unbox.any" 1 1 IL_OPCODE_ARGS_TOKEN 5;
  OPDEF "unused_A6" 0 0 IL_OPCODE_ARGS_INVALID 1;
  OPDEF "unused_A7" 0 0 IL_OPCODE_ARGS_INVALID 1;
  OPDEF "unused_A8" 0 0 IL_OPCODE_ARGS_INVALID 1;
  OPDEF "unused_A9" 0 0 IL_OPCODE_ARGS_INVALID 1;
  OPDEF "unused_AA" 0 0 IL_OPCODE_ARGS_INVALID 1;
  OPDEF "unused_AB" 0 0 IL_OPCODE_ARGS_INVALID 1;
  OPDEF "unused_AC" 0 0 IL_OPCODE_ARGS_INVALID 1;
  OPDEF "unused_AD" 0 0 IL_OPCODE_ARGS_INVALID 1;
  OPDEF "unused_AE" 0 0 IL_OPCODE_ARGS_INVALID 1;
  OPDEF "unused_AF" 0 0 IL_OPCODE_ARGS_INVALID 1;
  OPDEF "unused_B0" 0 0 IL_OPCODE_ARGS_INVALID 1;
  OPDEF "unused_B1" 0 0 IL_OPCODE_ARGS_INVALID 1;
  OPDEF "unused_B2" 0 0 IL_OPCODE_ARGS_INVALID 1;
  OPDEF "conv.ovf.i1" 1 1 IL_OPCODE_ARGS_NONE 1;
  OPDEF "conv.ovf.u1" 1 1 IL_OPCODE_ARGS_NONE 1;
  OPDEF "conv.ovf.i2" 1 1 IL_OPCODE_ARGS_NONE 1;
  OPDEF "conv.ovf.u2" 1 1 IL_OPCODE_ARGS_NONE 1;
  OPDEF "conv.ovf.i4" 1 1 IL_OPCODE_ARGS_NONE 1;
  OPDEF "conv.ovf.u4" 1 1 IL_OPCODE_ARGS_NONE 1;
  OPDEF "conv.ovf.i8" 1 1 IL_OPCODE_ARGS_NONE 1;
  OPDEF "conv.ovf.u8" 1 1 IL_OPCODE_ARGS_NONE 1;
  OPDEF "unused_BB" 0 0 IL_OPCODE_ARGS_INVALID 1;
  OPDEF "unused_BC" 0 0 IL_OPCODE_ARGS_INVALID 1;
  OPDEF "unused_BD" 0 0 IL_OPCODE_ARGS_INVALID 1;
  OPDEF "unused_BE" 0 0 IL_OPCODE_ARGS_INVALID 1;
  OPDEF "unused_BF" 0 0 IL_OPCODE_ARGS_INVALID 1].

Definition IL_MAIN_OPDEF_C0_FF : list ILOpcodeInfo := [
  OPDEF "unused_C0" 0 0 IL_OPCODE_ARGS_INVALID 1;
  OPDEF "unused_C1" 0 0 IL_OPCODE_ARGS_INVALID 1;
  OPDEF "refanyval" 1 1 IL_OPCODE_ARGS_TOKEN 5;
  OPDEF "ckfinite" 1 1 IL_OPCODE_ARGS_NONE 1;
  OPDEF "unused_C4" 0 0 IL_OPCODE_ARGS_INVALID 1;
  OPDEF "unused_C5" 0 0 IL_OPCODE_ARGS_INVALID 1;
  OPDEF "mkrefany" 1 1 IL_OPCODE_ARGS_TOKEN 5;
  OPDEF "ann.call" 0 0 IL_OPCODE_ARGS_TOKEN 5;
  OPDEF "ann.catch" 0 0 IL_OPCODE_ARGS_NONE 1;
  OPDEF "ann.dead" 0 0 IL_OPCODE_ARGS_ANN_DEAD 3;
  OPDEF "ann.hoisted" 0 0 IL_OPCODE_ARGS_NONE 1;
  OPDEF "ann.hoisted_call" 0 0 IL_OPCODE_ARGS_TOKEN 5;
  OPDEF "ann.lab" 0 0 IL_OPCODE_ARGS_NONE 1;
  OPDEF "ann.def" 0 0 IL_OPCODE_ARGS_NONE 1;
  OPDEF "ann.ref.s" 0 0 IL_OPCODE_ARGS_ANN_REF 2;
  OPDEF "ann.phi" 0 0 IL_OPCODE_ARGS_ANN_PHI 0;
  OPDEF "ldtoken" 0 1 IL_OPCODE_ARGS_LDTOKEN 5;
  OPDEF "conv.u2" 1 1 IL_OPCODE_ARGS_NONE 1;
  OPDEF "conv.u1" 1 1 IL_OPCODE_ARGS_NONE 1;
  OPDEF "conv.i" 1 1 IL_OPCODE_ARGS_NONE 1;
  OPDEF "conv.ovf.i" 1 1 IL_OPCODE_ARGS_NONE 1;
  OPDEF "conv.ovf.u" 1 1 IL_OPCODE_ARGS_NONE 1;
  OPDEF "add.ovf" 2 1 IL_OPCODE_ARGS_NONE 1;
  OPDEF "add.ovf.un" 2 1 IL_OPCODE_ARGS_NONE 1;
  OPDEF "mul.ovf" 2 1 IL_OPCODE_ARGS_NONE 1;
  OPDEF "mul.ovf.un" 2 1 IL_OPCODE_ARGS_NONE 1;
  OPDEF "sub.ovf" 2 1 IL_OPCODE_ARGS_NONE 1;
  OPDEF "sub.ovf.un" 2 1 IL_OPCODE_ARGS_NONE 1;
  OPDEF "endfinally" 0 0 IL_OPCODE_ARGS_NONE 1;
  OPDEF "leave" 0 0 IL_OPCODE_ARGS_LONG_JUMP 5;
  OPDEF "leave.s" 0 0 IL_OPCODE_ARGS_SHORT_JUMP 2;
  OPDEF "stind.i" 2 0 IL_OPCODE_ARGS_NONE 1;
  OPDEF "conv.u" 1 1 IL_OPCODE_ARGS_NONE 1;
  OPDEF "unused_E1" 0 0 IL_OPCODE_ARGS_INVALID 1;
  OPDEF "unused_E2" 0 0 IL_OPCODE_ARGS_INVALID 1;
  OPDEF "unused_E3" 0 0 IL_OPCODE_ARGS_INVALID 1;
  OPDEF "unused_E4" 0 0 IL_OPCODE_ARGS_INVALID 1;
  OPDEF "unused_E5" 0 0 IL_OPCODE_ARGS_INVALID 1;
  OPDEF "unused_E6" 0 0 IL_OPCODE_ARGS_INVALID 1;
  OPDEF "unused_E7" 0 0 IL_OPCODE_ARGS_INVALID 1;
  OPDEF "unused_E8" 0 0 IL_OPCODE_ARGS_INVALID 1;
  OPDEF "unused_E9" 0 0 IL_OPCODE_ARGS_INVALID 1;
  OPDEF "unused_EA" 0 0 IL_OPCODE_ARGS_INVALID 1;
  OPDEF "unused_EB" 0 0 IL_OPCODE_ARGS_INVALID 1;
  OPDEF "unused_EC" 0 0 IL_OPCODE_ARGS_INVALID 1;
  OPDEF "unused_ED" 0 0 IL_OPCODE_ARGS_INVALID 1;
  OPDEF "unused_EE" 0 0 IL_OPCODE_ARGS_INVALID 1;
  OPDEF "unused_EF" 0 0 IL_OPCODE_ARGS_INVALID 1;
  OPDEF "unused_F0" 0 0 IL_OPCODE_ARGS_INVALID 1;
  OPDEF "unused_F1" 0 0 IL_OPCODE_ARGS_INVALID 1;
  OPDEF "unused_F2" 0 0 IL_OPCODE_ARGS_INVALID 1;
  OPDEF "unused_F3" 0 0 IL_OPCODE_ARGS_INVALID 1;
  OPDEF "unused_F4" 0 0 IL_OPCODE_ARGS_INVALID 1;
  OPDEF "unused_F5" 0 0 IL_OPCODE_ARGS_INVALID 1;
  OPDEF "unused_F6" 0 0 IL_OPCODE_ARGS_INVALID 1;
  OPDEF "unused_F7" 0 0 IL_OPCODE_ARGS_INVALID 1;
  OPDEF "unused_F8" 0 0 IL_OPCODE_ARGS_INVALID 1;
  OPDEF "unused_F9" 0 0 IL_OPCODE_ARGS_INVALID 1;
  OPDEF "unused_FA" 0 0 IL_OPCODE_ARGS_INVALID 1;
  OPDEF "unused_FB" 0 0 IL_OPCODE_ARGS_INVALID 1;
  OPDEF "unused_FC" 0 0 IL_OPCODE_ARGS_INVALID 1;
  OPDEF "unused_FD" 0 0 IL_OPCODE_ARGS_INVALID 1;
  OPDEF "prefix" 0 0 IL_OPCODE_ARGS_INVALID 0;
  OPDEF "unused_FF" 0 0 IL_OPCODE_ARGS_INVALID 1].

Definition ILMainOpcodeTable : list ILOpcodeInfo :=
  IL_MAIN_OPDEF_00_3F ++ IL_MAIN_OPDEF_40_7F ++ IL_MAIN_OPDEF_80_BF
  ++ IL_MAIN_OPDEF_C0_FF.

Definition IL_PREFIX_OPDEF_00_7F : list ILOpcodeInfo := [
  OPDEF "arglist" 0 1 IL_OPCODE_ARGS_NONE 2;
  OPDEF "ceq" 2 1 IL_OPCODE_ARGS_NONE 2;
  OPDEF "cgt" 2 1 IL_OPCODE_ARGS_NONE 2;
  OPDEF "cgt.un" 2 1 IL_OPCODE_ARGS_NONE 2;
  OPDEF "clt" 2 1 IL_OPCODE_ARGS_NONE 2;
  OPDEF "clt.un" 2 1 IL_OPCODE_ARGS_NONE 2;
  OPDEF "ldftn" 0 1 IL_OPCODE_ARGS_TOKEN 6;
  OPDEF "ldvirtftn" 1 1 IL_OPCODE_ARGS_TOKEN 6;
  OPDEF "jmpi" 1 0 IL_OPCODE_ARGS_CALLI 6;
  OPDEF "ldarg" 0 1 IL_OPCODE_ARGS_LONG_VAR 4;
  OPDEF "ldarga" 0 1 IL_OPCODE_ARGS_LONG_VAR 4;
  OPDEF "starg" 1 0 IL_OPCODE_ARGS_LONG_VAR 4;
  OPDEF "ldloc" 0 1 IL_OPCODE_ARGS_LONG_VAR 4;
  OPDEF "ldloca" 0 1 IL_OPCODE_ARGS_LONG_VAR 4;
  OPDEF "stloc" 1 0 IL_OPCODE_ARGS_LONG_VAR 4;
  OPDEF "localloc" 1 1 IL_OPCODE_ARGS_NONE 2;
  OPDEF "unused_prefix_10" 0 0 IL_OPCODE_ARGS_INVALID 2;
  OPDEF "endfilter" 1 0 IL_OPCODE_ARGS_NONE 2;
  OPDEF "unaligned." 0 0 IL_OPCODE_ARGS_UINT8 3;
  OPDEF "volatile." 0 0 IL_OPCODE_ARGS_NONE 2;
  OPDEF "tail." 0 0 IL_OPCODE_ARGS_NONE 2;
  OPDEF "initobj" 1 0 IL_OPCODE_ARGS_TOKEN 6;
  OPDEF "ann.live" 0 0 IL_OPCODE_ARGS_ANN_LIVE 4;
  OPDEF "cpblk" 3 0 IL_OPCODE_ARGS_NONE 2;
  OPDEF "initblk" 3 0 IL_OPCODE_ARGS_NONE 2;
  OPDEF "ann.ref" 0 0 IL_OPCODE_ARGS_ANN_REF 4;
  OPDEF "rethrow" 0 0 IL_OPCODE_ARGS_NONE 2;
  OPDEF "unused_prefix_1B" 0 0 IL_OPCODE_ARGS_INVALID 2;
  OPDEF "sizeof" 0 1 IL_OPCODE_ARGS_TOKEN 6;
  OPDEF "refanytype" 1 1 IL_OPCODE_ARGS_NONE 2;
  OPDEF "unused_prefix_1E" 0 0 IL_OPCODE_ARGS_INVALID 2;
  OPDEF "unused_prefix_1F" 0 0 IL_OPCODE_ARGS_INVALID 2;
  OPDEF "unused_prefix_20" 0 0 IL_OPCODE_ARGS_INVALID 2;
  OPDEF "unused_prefix_21" 0 0 IL_OPCODE_ARGS_INVALID 2;
  OPDEF "ann.data" 0 0 IL_OPCODE_ARGS_ANN_DATA 0;
  OPDEF "ann.arg" 0 0 IL_OPCODE_ARGS_ANN_ARG 4;
  OPDEF "unused_prefix_24" 0 0 IL_OPCODE_ARGS_INVALID 2;
  OPDEF "unused_prefix_25" 0 0 IL_OPCODE_ARGS_INVALID 2;
  OPDEF "unused_prefix_26" 0 0 IL_OPCODE_ARGS_INVALID 2;
  OPDEF "unused_prefix_27" 0 0 IL_OPCODE_ARGS_INVALID 2;
  OPDEF "unused_prefix_28" 0 0 IL_OPCODE_ARGS_INVALID 2;
  OPDEF "unused_prefix_29" 0 0 IL_OPCODE_ARGS_INVALID 2;
  OPDEF "unused_prefix_2A" 0 0 IL_OPCODE_ARGS_INVALID 2;
  OPDEF "unused_prefix_2B" 0 0 IL_OPCODE_ARGS_INVALID 2;
  OPDEF "unused_prefix_2C" 0 0 IL_OPCODE_ARGS_INVALID 2;
  OPDEF "unused_prefix_2D" 0 0 IL_OPCODE_ARGS_INVALID 2;
  OPDEF "unused_prefix_2E" 0 0 IL_OPCODE_ARGS_INVALID 2;
  OPDEF "unused_prefix_2F" 0 0 IL_OPCODE_ARGS_INVALID 2;
  OPDEF "unused_prefix_30" 0 0 IL_OPCODE_ARGS_INVALID 2;
  OPDEF "unused_prefix_31" 0 0 IL_OPCODE_ARGS_INVALID 2;
  OPDEF "unused_prefix_32" 0 0 IL_OPCODE_ARGS_INVALID 2;
  OPDEF "unused_prefix_33" 0 0 IL_OPCODE_ARGS_INVALID 2;
  OPDEF "unused_prefix_34" 0 0 IL_OPCODE_ARGS_INVALID 2;
  OPDEF "unused_prefix_35" 0 0 IL_OPCODE_ARGS_INVALID 2;
  OPDEF "unused_prefix_36" 0 0 IL_OPCODE_ARGS_INVALID 2;
  OPDEF "unused_prefix_37" 0 0 IL_OPCODE_ARGS_INVALID 2;
  OPDEF "unused_prefix_38" 0 0 IL_OPCODE_ARGS_INVALID 2;
  OPDEF "unused_prefix_39" 0 0 IL_OPCODE_ARGS_INVALID 2;
  OPDEF "unused_prefix_3A" 0 0 IL_OPCODE_ARGS_INVALID 2;
  OPDEF "unused_prefix_3B" 0 0 IL_OPCODE_ARGS_INVALID 2;
  OPDEF "unused_prefix_3C" 0 0 IL_OPCODE_ARGS_INVALID 2;
  OPDEF "unused_prefix_3D" 0 0 IL_OPCODE_ARGS_INVALID 2;
  OPDEF "unused_prefix_3E" 0 0 IL_OPCODE_ARGS_INVALID 2;
  OPDEF "unused_prefix_3F" 0 0 IL_OPCODE_ARGS_INVALID 2;
  OPDEF "unused_prefix_40" 0 0 IL_OPCODE_ARGS_INVALID 2;
  OPDEF "unused_prefix_41" 0 0 IL_OPCODE_ARGS_INVALID 2;
  OPDEF "unused_prefix_42" 0 0 IL_OPCODE_ARGS_INVALID 2;
  OPDEF "unused_prefix_43" 0 0 IL_OPCODE_ARGS_INVALID 2;
  OPDEF "unused_prefix_44" 0 0 IL_OPCODE_ARGS_INVALID 2;
  OPDEF "unused_prefix_45" 0 0 IL_OPCODE_ARGS_INVALID 2;
  OPDEF "unused_prefix_46" 0 0 IL_OPCODE_ARGS_INVALID 2;
  OPDEF "unused_prefix_47" 0 0 IL_OPCODE_ARGS_INVALID 2;
  OPDEF "unused_prefix_48" 0 0 IL_OPCODE_ARGS_INVALID 2;
  OPDEF "unused_prefix_49" 0 0 IL_OPCODE_ARGS_INVALID 2;
  OPDEF "unused_prefix_4A" 0 0 IL_OPCODE_ARGS_INVALID 2;
  OPDEF "unused_prefix_4B" 0 0 IL_OPCODE_ARGS_INVALID 2;
  OPDEF "unused_prefix_4C" 0 0 IL_OPCODE_ARGS_INVALID 2;
  OPDEF "unused_prefix_4D" 0 0 IL_OPCODE_ARGS_INVALID 2;
  OPDEF "unused_prefix_4E" 0 0 IL_OPCODE_ARGS_INVALID 2;
  OPDEF "unused_prefix_4F" 0 0 IL_OPCODE_ARGS_INVALID 2;
  OPDEF "unused_prefix_50" 0 0 IL_OPCODE_ARGS_INVALID 2;
  OPDEF "unused_prefix_51" 0 0 IL_OPCODE_ARGS_INVALID 2;
  OPDEF "unused_prefix_52" 0 0 IL_OPCODE_ARGS_INVALID 2;
  OPDEF "unused_prefix_53" 0 0 IL_OPCODE_ARGS_INVALID 2;
  OPDEF "unused_prefix_54" 0 0 IL_OPCODE_ARGS_INVALID 2;
  OPDEF "unused_prefix_55" 0 0 IL_OPCODE_ARGS_INVALID 2;
  OPDEF "unused_prefix_56" 0 0 IL_OPCODE_ARGS_INVALID 2;
  OPDEF "unused_prefix_57" 0 0 IL_OPCODE_ARGS_INVALID 2;
  OPDEF "unused_prefix_58" 0 0 IL_OPCODE_ARGS_INVALID 2;
  OPDEF "unused_prefix_59" 0 0 IL_OPCODE_ARGS_INVALID 2;
  OPDEF "unused_prefix_5A" 0 0 IL_OPCODE_ARGS_INVALID 2;
  OPDEF "unused_prefix_5B" 0 0 IL_OPCODE_ARGS_INVALID 2;
  OPDEF "unused_prefix_5C" 0 0 IL_OPCODE_ARGS_INVALID 2;
  OPDEF "unused_prefix_5D" 0 0 IL_OPCODE_ARGS_INVALID 2;
  OPDEF "unused_prefix_5E" 0 0 IL_OPCODE_ARGS_INVALID 2;
  OPDEF "unused_prefix_5F" 0 0 IL_OPCODE_ARGS_INVALID 2;
  OPDEF "unused_prefix_60" 0 0 IL_OPCODE_ARGS_INVALID 2;
  OPDEF "unused_prefix_61" 0 0 IL_OPCODE_ARGS_INVALID 2;
  OPDEF "unused_prefix_62" 0 0 IL_OPCODE_ARGS_INVALID 2;
  OPDEF "unused_prefix_63" 0 0 IL_OPCODE_ARGS_INVALID 2;
  OPDEF "unused_prefix_64" 0 0 IL_OPCODE_ARGS_INVALID 2;
  OPDEF "unused_prefix_65" 0 0 IL_OPCODE_ARGS_INVALID 2;
  OPDEF "unused_prefix_66" 0 0 IL_OPCODE_ARGS_INVALID 2;
  OPDEF "unused_prefix_67" 0 0 IL_OPCODE_ARGS_INVALID 2;
  OPDEF "unused_prefix_68" 0 0 IL_OPCODE_ARGS_INVALID 2;
  OPDEF "unused_prefix_69" 0 0 IL_OPCODE_ARGS_INVALID 2;
  OPDEF "unused_prefix_6A" 0 0 IL_OPCODE_ARGS_INVALID 2;
  OPDEF "unused_prefix_6B" 0 0 IL_OPCODE_ARGS_INVALID 2;
  OPDEF "unused_prefix_6C" 0 0 IL_OPCODE_ARGS_INVALID 2;
  OPDEF "unused_prefix_6D" 0 0 IL_OPCODE_ARGS_INVALID 2;
  OPDEF "unused_prefix_6E" 0 0 IL_OPCODE_ARGS_INVALID 2;
  OPDEF "unused_prefix_6F" 0 0 IL_OPCODE_ARGS_INVALID 2;
  OPDEF "unused_prefix_70" 0 0 IL_OPCODE_ARGS_INVALID 2;
  OPDEF "unused_prefix_71" 0 0 IL_OPCODE_ARGS_INVALID 2;
  OPDEF "unused_prefix_72" 0 0 IL_OPCODE_ARGS_INVALID 2;
  OPDEF "unused_prefix_73" 0 0 IL_OPCODE_ARGS_INVALID 2;
  OPDEF "unused_prefix_74" 0 0 IL_OPCODE_ARGS_INVALID 2;
  OPDEF "unused_prefix_75" 0 0 IL_OPCODE_ARGS_INVALID 2;
  OPDEF "unused_prefix_76" 0 0 IL_OPCODE_ARGS_INVALID 2;
  OPDEF "unused_prefix_77" 0 0 IL_OPCODE_ARGS_INVALID 2;
  OPDEF "unused_prefix_78" 0 0 IL_OPCODE_ARGS_INVALID 2;
  OPDEF "unused_prefix_79" 0 0 IL_OPCODE_ARGS_INVALID 2;
  OPDEF "unused_prefix_7A" 0 0 IL_OPCODE_ARGS_INVALID 2;
  OPDEF "unused_prefix_7B" 0 0 IL_OPCODE_ARGS_INVALID 2;
  OPDEF "unused_prefix_7C" 0 0 IL_OPCODE_ARGS_INVALID 2;
  OPDEF "unused_prefix_7D" 0 0 IL_OPCODE_ARGS_INVALID 2;
  OPDEF "unused_prefix_7E" 0 0 IL_OPCODE_ARGS_INVALID 2;
  OPDEF "unused_prefix_7F" 0 0 IL_OPCODE_ARGS_INVALID 2].

Definition IL_PREFIX_OPDEF_80_FF : list ILOpcodeInfo := [
  OPDEF "unused_prefix_80" 0 0 IL_OPCODE_ARGS_INVALID 2;
  OPDEF "unused_prefix_81" 0 0 IL_OPCODE_ARGS_INVALID 2;
  OPDEF "unused_prefix_82" 0 0 IL_OPCODE_ARGS_INVALID 2;
  OPDEF "unused_prefix_83" 0 0 IL_OPCODE_ARGS_INVALID 2;
  OPDEF "unused_prefix_84" 0 0 IL_OPCODE_ARGS_INVALID 2;
  OPDEF "unused_prefix_85" 0 0 IL_OPCODE_ARGS_INVALID 2;
  OPDEF "unused_prefix_86" 0 0 IL_OPCODE_ARGS_INVALID 2;
  OPDEF "unused_prefix_87" 0 0 IL_OPCODE_ARGS_INVALID 2;
  OPDEF "unused_prefix_88" 0 0 IL_OPCODE_ARGS_INVALID 2;
  OPDEF "unused_prefix_89" 0 0 IL_OPCODE_ARGS_INVALID 2;
  OPDEF "unused_prefix_8A" 0 0 IL_OPCODE_ARGS_INVALID 2;
  OPDEF "unused_prefix_8B" 0 0 IL_OPCODE_ARGS_INVALID 2;
  OPDEF "unused_prefix_8C" 0 0 IL_OPCODE_ARGS_INVALID 2;
  OPDEF "unused_prefix_8D" 0 0 IL_OPCODE_ARGS_INVALID 2;
  OPDEF "unused_prefix_8E" 0 0 IL_OPCODE_ARGS_INVALID 2;
  OPDEF "unused_prefix_8F" 0 0 IL_OPCODE_ARGS_INVALID 2;
  OPDEF "unused_prefix_90" 0 0 IL_OPCODE_ARGS_INVALID 2;
  OPDEF "unused_prefix_91" 0 0 IL_OPCODE_ARGS_INVALID 2;
  OPDEF "unused_prefix_92" 0 0 IL_OPCODE_ARGS_INVALID 2;
  OPDEF "unused_prefix_93" 0 0 IL_OPCODE_ARGS_INVALID 2;
  OPDEF "unused_prefix_94" 0 0 IL_OPCODE_ARGS_INVALID 2;
  OPDEF "unused_prefix_95" 0 0 IL_OPCODE_ARGS_INVALID 2;
  OPDEF "unused_prefix_96" 0 0 IL_OPCODE_ARGS_INVALID 2;
  OPDEF "unused_prefix_97" 0 0 IL_OPCODE_ARGS_INVALID 2;
  OPDEF "unused_prefix_98" 0 0 IL_OPCODE_ARGS_INVALID 2;
  OPDEF "unused_prefix_99" 0 0 IL_OPCODE_ARGS_INVALID 2;
  OPDEF "unused_prefix_9A" 0 0 IL_OPCODE_ARGS_INVALID 2;
  OPDEF "unused_prefix_9B" 0 0 IL_OPCODE_ARGS_INVALID 2;
  OPDEF "unused_prefix_9C" 0 0 IL_OPCODE_ARGS_INVALID 2;
  OPDEF "unused_prefix_9D" 0 0 IL_OPCODE_ARGS_INVALID 2;
  OPDEF "unused_prefix_9E" 0 0 IL_OPCODE_ARGS_INVALID 2;
  OPDEF "unused_prefix_9F" 0 0 IL_OPCODE_ARGS_INVALID 2;
  OPDEF "unused_prefix_A0" 0 0 IL_OPCODE_ARGS_INVALID 2;
  OPDEF "unused_prefix_A1" 0 0 IL_OPCODE_ARGS_INVALID 2;
  OPDEF "unused_prefix_A2" 0 0 IL_OPCODE_ARGS_INVALID 2;
  OPDEF "unused_prefix_A3" 0 0 IL_OPCODE_ARGS_INVALID 2;
  OPDEF "unused_prefix_A4" 0 0 IL_OPCODE_ARGS_INVALID 2;
  OPDEF "unused_prefix_A5" 0 0 IL_OPCODE_ARGS_INVALID 2;
  OPDEF "unused_prefix_A6" 0 0 IL_OPCODE_ARGS_INVALID 2;
  OPDEF "unused_prefix_A7" 0 0 IL_OPCODE_ARGS_INVALID 2;
  OPDEF "unused_prefix_A8" 0 0 IL_OPCODE_ARGS_INVALID 2;
  OPDEF "unused_prefix_A9" 0 0 IL_OPCODE_ARGS_INVALID 2;
  OPDEF "unused_prefix_AA" 0 0 IL_OPCODE_ARGS_INVALID 2;
  OPDEF "unused_prefix_AB" 0 0 IL_OPCODE_ARGS_INVALID 2;
  OPDEF "unused_prefix_AC" 0 0 IL_OPCODE_ARGS_INVALID 2;
  OPDEF "unused_prefix_AD" 0 0 IL_OPCODE_ARGS_INVALID 2;
  OPDEF "unused_prefix_AE" 0 0 IL_OPCODE_ARGS_INVALID 2;
  OPDEF "unused_prefix_AF" 0 0 IL_OPCODE_ARGS_INVALID 2;
  OPDEF "unused_prefix_B0" 0 0 IL_OPCODE_ARGS_INVALID 2;
  OPDEF "unused_prefix_B1" 0 0 IL_OPCODE_ARGS_INVALID 2;
  OPDEF "unused_prefix_B2" 0 0 IL_OPCODE_ARGS_INVALID 2;
  OPDEF "unused_prefix_B3" 0 0 IL_OPCODE_ARGS_INVALID 2;
  OPDEF "unused_prefix_B4" 0 0 IL_OPCODE_ARGS_INVALID 2;
  OPDEF "unused_prefix_B5" 0 0 IL_OPCODE_ARGS_INVALID 2;
  OPDEF "unused_prefix_B6" 0 0 IL_OPCODE_ARGS_INVALID 2;
  OPDEF "unused_prefix_B7" 0 0 IL_OPCODE_ARGS_INVALID 2;
  OPDEF "unused_prefix_B8" 0 0 IL_OPCODE_ARGS_INVALID 2;
  OPDEF "unused_prefix_B9" 0 0 IL_OPCODE_ARGS_INVALID 2;
  OPDEF "unused_prefix_BA" 0 0 IL_OPCODE_ARGS_INVALID 2;
  OPDEF "unused_prefix_BB" 0 0 IL_OPCODE_ARGS_INVALID 2;
  OPDEF "unused_prefix_BC" 0 0 IL_OPCODE_ARGS_INVALID 2;
  OPDEF "unused_prefix_BD" 0 0 IL_OPCODE_ARGS_INVALID 2;
  OPDEF "unused_prefix_BE" 0 0 IL_OPCODE_ARGS_INVALID 2;
  OPDEF "unused_prefix_BF" 0 0 IL_OPCODE_ARGS_INVALID 2;
  OPDEF "unused_prefix_C0" 0 0 IL_OPCODE_ARGS_INVALID 2;
  OPDEF "unused_prefix_C1" 0 0 IL_OPCODE_ARGS_INVALID 2;
  OPDEF "unused_prefix_C2" 0 0 IL_OPCODE_ARGS_INVALID 2;
  OPDEF "unused_prefix_C3" 0 0 IL_OPCODE_ARGS_INVALID 2;
  OPDEF "unused_prefix_C4" 0 0 IL_OPCODE_ARGS_INVALID 2;
  OPDEF "unused_prefix_C5" 0 0 IL_OPCODE_ARGS_INVALID 2;
  OPDEF "unused_prefix_C6" 0 0 IL_OPCODE_ARGS_INVALID 2;
  OPDEF "unused_prefix_C7" 0 0 IL_OPCODE_ARGS_INVALID 2;
  OPDEF "unused_prefix_C8" 0 0 IL_OPCODE_ARGS_INVALID 2;
  OPDEF "unused_prefix_C9" 0 0 IL_OPCODE_ARGS_INVALID 2;
  OPDEF "unused_prefix_CA" 0 0 IL_OPCODE_ARGS_INVALID 2;
  OPDEF "unused_prefix_CB" 0 0 IL_OPCODE_ARGS_INVALID 2;
  OPDEF "unused_prefix_CC" 0 0 IL_OPCODE_ARGS_INVALID 2;
  OPDEF "unused_prefix_CD" 0 0 IL_OPCODE_ARGS_INVALID 2;
  OPDEF "unused_prefix_CE" 0 0 IL_OPCODE_ARGS_INVALID 2;
  OPDEF "unused_prefix_CF" 0 0 IL_OPCODE_ARGS_INVALID 2;
  OPDEF "unused_prefix_D0" 0 0 IL_OPCODE_ARGS_INVALID 2;
  OPDEF "unused_prefix_D1" 0 0 IL_OPCODE_ARGS_INVALID 2;
  OPDEF "unused_prefix_D2" 0 0 IL_OPCODE_ARGS_INVALID 2;
  OPDEF "unused_prefix_D3" 0 0 IL_OPCODE_ARGS_INVALID 2;
  OPDEF "unused_prefix_D4" 0 0 IL_OPCODE_ARGS_INVALID 2;
  OPDEF "unused_prefix_D5" 0 0 IL_OPCODE_ARGS_INVALID 2;
  OPDEF "unused_prefix_D6" 0 0 IL_OPCODE_ARGS_INVALID 2;
  OPDEF "unused_prefix_D7" 0 0 IL_OPCODE_ARGS_INVALID 2;
  OPDEF "unused_prefix_D8" 0 0 IL_OPCODE_ARGS_INVALID 2;
  OPDEF "unused_prefix_D9" 0 0 IL_OPCODE_ARGS_INVALID 2;
  OPDEF "unused_prefix_DA" 0 0 IL_OPCODE_ARGS_INVALID 2;
  OPDEF "unused_prefix_DB" 0 0 IL_OPCODE_ARGS_INVALID 2;
  OPDEF "unused_prefix_DC" 0 0 IL_OPCODE_ARGS_INVALID 2;
  OPDEF "unused_prefix_DD" 0 0 IL_OPCODE_ARGS_INVALID 2;
  OPDEF "unused_prefix_DE" 0 0 IL_OPCODE_ARGS_INVALID 2;
  OPDEF "unused_prefix_DF" 0 0 IL_OPCODE_ARGS_INVALID 2;
  OPDEF "unused_prefix_E0" 0 0 IL_OPCODE_ARGS_INVALID 2;
  OPDEF "unused_prefix_E1" 0 0 IL_OPCODE_ARGS_INVALID 2;
  OPDEF "unused_prefix_E2" 0 0 IL_OPCODE_ARGS_INVALID 2;
  OPDEF "unused_prefix_E3" 0 0 IL_OPCODE_ARGS_INVALID 2;
  OPDEF "unused_prefix_E4" 0 0 IL_OPCODE_ARGS_INVALID 2;
  OPDEF "unused_prefix_E5" 0 0 IL_OPCODE_ARGS_INVALID 2;
  OPDEF "unused_prefix_E6" 0 0 IL_OPCODE_ARGS_INVALID 2;
  OPDEF "unused_prefix_E7" 0 0 IL_OPCODE_ARGS_INVALID 2;
  OPDEF "unused_prefix_E8" 0 0 IL_OPCODE_ARGS_INVALID 2;
  OPDEF "unused_prefix_E9" 0 0 IL_OPCODE_ARGS_INVALID 2;
  OPDEF "unused_prefix_EA" 0 0 IL_OPCODE_ARGS_INVALID 2;
  OPDEF "unused_prefix_EB" 0 0 IL_OPCODE_ARGS_INVALID 2;
  OPDEF "unused_prefix_EC" 0 0 IL_OPCODE_ARGS_INVALID 2;
  OPDEF "unused_prefix_ED" 0 0 IL_OPCODE_ARGS_INVALID 2;
  OPDEF "unused_prefix_EE" 0 0 IL_OPCODE_ARGS_INVALID 2;
  OPDEF "unused_prefix_EF" 0 0 IL_OPCODE_ARGS_INVALID 2;
  OPDEF "unused_prefix_F0" 0 0 IL_OPCODE_ARGS_INVALID 2;
  OPDEF "unused_prefix_F1" 0 0 IL_OPCODE_ARGS_INVALID 2;
  OPDEF "unused_prefix_F2" 0 0 IL_OPCODE_ARGS_INVALID 2;
  OPDEF "unused_prefix_F3" 0 0 IL_OPCODE_ARGS_INVALID 2;
  OPDEF "unused_prefix_F4" 0 0 IL_OPCODE_ARGS_INVALID 2;
  OPDEF "unused_prefix_F5" 0 0 IL_OPCODE_ARGS_INVALID 2;
  OPDEF "unused_prefix_F6" 0 0 IL_OPCODE_ARGS_INVALID 2;
  OPDEF "unused_prefix_F7" 0 0 IL_OPCODE_ARGS_INVALID 2;
  OPDEF "unused_prefix_F8" 0 0 IL_OPCODE_ARGS_INVALID 2;
  OPDEF "unused_prefix_F9" 0 0 IL_OPCODE_ARGS_INVALID 2;
  OPDEF "unused_prefix_FA" 0 0 IL_OPCODE_ARGS_INVALID 2;
  OPDEF "unused_prefix_FB" 0 0 IL_OPCODE_ARGS_INVALID 2;
  OPDEF "unused_prefix_FC" 0 0 IL_OPCODE_ARGS_INVALID 2;
  OPDEF "unused_prefix_FD" 0 0 IL_OPCODE_ARGS_INVALID 2;
  OPDEF "unused_prefix_FE" 0 0 IL_OPCODE_ARGS_INVALID 2;
  OPDEF "unused_prefix_FF" 0 0 IL_OPCODE_ARGS_INVALID 2].

Definition ILPrefixOpcodeTable : list ILOpcodeInfo :=
  IL_PREFIX_OPDEF_00_7F ++ IL_PREFIX_OPDEF_80_FF.

(** ** Dispatch

    The [case] a [switch] on an opcode byte selects, [None] being [default]. *)
Definition il_op_of_byte (code : Z) : option il_op :=
  match code with
  | 0x00 => Some IL_OP_NOP | 0x01 => Some IL_OP_BREAK
  | 0x02 => Some IL_OP_LDARG_0 | 0x03 => Some IL_OP_LDARG_1
  | 0x04 => Some IL_OP_LDARG_2 | 0x05 => Some IL_OP_LDARG_3
  | 0x06 => Some IL_OP_LDLOC_0 | 0x07 => Some IL_OP_LDLOC_1
  | 0x08 => Some IL_OP_LDLOC_2 | 0x09 => Some IL_OP_LDLOC_3
  | 0x0A => Some IL_OP_STLOC_0 | 0x0B => Some IL_OP_STLOC_1
  | 0x0C => Some IL_OP_STLOC_2 | 0x0D => Some IL_OP_STLOC_3
  | 0x0E => Some IL_OP_LDARG_S | 0x0F => Some IL_OP_LDARGA_S
  | 0x10 => Some IL_OP_STARG_S | 0x11 => Some IL_OP_LDLOC_S
  | 0x12 => Some IL_OP_LDLOCA_S | 0x13 => Some IL_OP_STLOC_S
  | 0x14 => Some IL_OP_LDNULL | 0x15 => Some IL_OP_LDC_I4_M1
  | 0x16 => Some IL_OP_LDC_I4_0 | 0x17 => Some IL_OP_LDC_I4_1
  | 0x18 => Some IL_OP_LDC_I4_2 | 0x19 => Some IL_OP_LDC_I4_3
  | 0x1A => Some IL_OP_LDC_I4_4 | 0x1B => Some IL_OP_LDC_I4_5
  | 0x1C => Some IL_OP_LDC_I4_6 | 0x1D => Some IL_OP_LDC_I4_7
  | 0x1E => Some IL_OP_LDC_I4_8 | 0x1F => Some IL_OP_LDC_I4_S
  | 0x20 => Some IL_OP_LDC_I4 | 0x21 => Some IL_OP_LDC_I8
  | 0x22 => Some IL_OP_LDC_R4 | 0x23 => Some IL_OP_LDC_R8
  | 0x24 => Some IL_OP_LDPTR | 0x25 => Some IL_OP_DUP | 0x26 => Some IL_OP_POP
  | 0x27 => Some IL_OP_JMP | 0x28 => Some IL_OP_CALL | 0x29 => Some IL_OP_CALLI
  | 0x2A => Some IL_OP_RET | 0x2B => Some IL_OP_BR_S
  | 0x2C => Some IL_OP_BRFALSE_S | 0x2D => Some IL_OP_BRTRUE_S
  | 0x2E => Some IL_OP_BEQ_S | 0x2F => Some IL_OP_BGE_S
  | 0x30 => Some IL_OP_BGT_S | 0x31 => Some IL_OP_BLE_S
  | 0x32 => Some IL_OP_BLT_S | 0x33 => Some IL_OP_BNE_UN_S
  | 0x34 => Some IL_OP_BGE_UN_S | 0x35 => Some IL_OP_BGT_UN_S
  | 0x36 => Some IL_OP_BLE_UN_S | 0x37 => Some IL_OP_BLT_UN_S
  | 0x38 => Some IL_OP_BR | 0x39 => Some IL_OP_BRFALSE
  | 0x3A => Some IL_OP_BRTRUE | 0x3B => Some IL_OP_BEQ | 0x3C => Some IL_OP_BGE
  | 0x3D => Some IL_OP_BGT | 0x3E => Some IL_OP_BLE | 0x3F => Some IL_OP_BLT
  | 0x40 => Some IL_OP_BNE_UN | 0x41 => Some IL_OP_BGE_UN
  | 0x42 => Some IL_OP_BGT_UN | 0x43 => Some IL_OP_BLE_UN
  | 0x44 => Some IL_OP_BLT_UN | 0x45 => Some IL_OP_SWITCH
  | 0x46 => Some IL_OP_LDIND_I1 | 0x47 => Some IL_OP_LDIND_U1
  | 0x48 => Some IL_OP_LDIND_I2 | 0x49 => Some IL_OP_LDIND_U2
  | 0x4A => Some IL_OP_LDIND_I4 | 0x4B => Some IL_OP_LDIND_U4
  | 0x4C => Some IL_OP_LDIND_I8 | 0x4D => Some IL_OP_LDIND_I
  | 0x4E => Some IL_OP_LDIND_R4 | 0x4F => Some IL_OP_LDIND_R8
  | 0x50 => Some IL_OP_LDIND_REF | 0x51 => Some IL_OP_STIND_REF
  | 0x52 => Some IL_OP_STIND_I1 | 0x53 => Some IL_OP_STIND_I2
  | 0x54 => Some IL_OP_STIND_I4 | 0x55 => Some IL_OP_STIND_I8
  | 0x56 => Some IL_OP_STIND_R4 | 0x57 => Some IL_OP_STIND_R8
  | 0x58 => Some IL_OP_ADD | 0x59 => Some IL_OP_SUB | 0x5A => Some IL_OP_MUL
  | 0x5B => Some IL_OP_DIV | 0x5C => Some IL_OP_DIV_UN | 0x5D => Some IL_OP_REM
  | 0x5E => Some IL_OP_REM_UN | 0x5F => Some IL_OP_AND | 0x60 => Some IL_OP_OR
  | 0x61 => Some IL_OP_XOR | 0x62 => Some IL_OP_SHL | 0x63 => Some IL_OP_SHR
  | 0x64 => Some IL_OP_SHR_UN | 0x65 => Some IL_OP_NEG | 0x66 => Some IL_OP_NOT
  | 0x67 => Some IL_OP_CONV_I1 | 0x68 => Some IL_OP_CONV_I2
  | 0x69 => Some IL_OP_CONV_I4 | 0x6A => Some IL_OP_CONV_I8
  | 0x6B => Some IL_OP_CONV_R4 | 0x6C => Some IL_OP_CONV_R8
  | 0x6D => Some IL_OP_CONV_U4 | 0x6E => Some IL_OP_CONV_U8
  | 0x6F => Some IL_OP_CALLVIRT | 0x70 => Some IL_OP_CPOBJ
  | 0x71 => Some IL_OP_LDOBJ | 0x72 => Some IL_OP_LDSTR
  | 0x73 => Some IL_OP_NEWOBJ | 0x74 => Some IL_OP_CASTCLASS
  | 0x75 => Some IL_OP_ISINST | 0x76 => Some IL_OP_CONV_R_UN
  | 0x77 => Some IL_OP_ANN_DATA_S | 0x79 => Some IL_OP_UNBOX
  | 0x7A => Some IL_OP_THROW | 0x7B => Some IL_OP_LDFLD
  | 0x7C => Some IL_OP_LDFLDA | 0x7D => Some IL_OP_STFLD
  | 0x7E => Some IL_OP_LDSFLD | 0x7F => Some IL_OP_LDSFLDA
  | 0x80 => Some IL_OP_STSFLD | 0x81 => Some IL_OP_STOBJ
  | 0x82 => Some IL_OP_CONV_OVF_I1_UN | 0x83 => Some IL_OP_CONV_OVF_I2_UN
  | 0x84 => Some IL_OP_CONV_OVF_I4_UN | 0x85 => Some IL_OP_CONV_OVF_I8_UN
  | 0x86 => Some IL_OP_CONV_OVF_U1_UN | 0x87 => Some IL_OP_CONV_OVF_U2_UN
  | 0x88 => Some IL_OP_CONV_OVF_U4_UN | 0x89 => Some IL_OP_CONV_OVF_U8_UN
  | 0x8A => Some IL_OP_CONV_OVF_I_UN | 0x8B => Some IL_OP_CONV_OVF_U_UN
  | 0x8C => Some IL_OP_BOX | 0x8D => Some IL_OP_NEWARR
  | 0x8E => Some IL_OP_LDLEN | 0x8F => Some IL_OP_LDELEMA
  | 0x90 => Some IL_OP_LDELEM_I1 | 0x91 => Some IL_OP_LDELEM_U1
  | 0x92 => Some IL_OP_LDELEM_I2 | 0x93 => Some IL_OP_LDELEM_U2
  | 0x94 => Some IL_OP_LDELEM_I4 | 0x95 => Some IL_OP_LDELEM_U4
  | 0x96 => Some IL_OP_LDELEM_I8 | 0x97 => Some IL_OP_LDELEM_I
  | 0x98 => Some IL_OP_LDELEM_R4 | 0x99 => Some IL_OP_LDELEM_R8
  | 0x9A => Some IL_OP_LDELEM_REF | 0x9B => Some IL_OP_STELEM_I
  | 0x9C => Some IL_OP_STELEM_I1 | 0x9D => Some IL_OP_STELEM_I2
  | 0x9E => Some IL_OP_STELEM_I4 | 0x9F => Some IL_OP_STELEM_I8
  | 0xA0 => Some IL_OP_STELEM_R4 | 0xA1 => Some IL_OP_STELEM_R8
  | 0xA2 => Some IL_OP_STELEM_REF | 0xA3 => Some IL_OP_LDELEM
  | 0xA4 => Some IL_OP_STELEM | 0xA5 => Some IL_OP_UNBOX_ANY
  | 0xA6 => Some IL_OP_UNUSED_A6 | 0xA7 => Some IL_OP_UNUSED_A7
  | 0xA8 => Some IL_OP_UNUSED_A8 | 0xA9 => Some IL_OP_UNUSED_A9
  | 0xAA => Some IL_OP_UNUSED_AA | 0xAB => Some IL_OP_UNUSED_AB
  | 0xAC => Some IL_OP_UNUSED_AC | 0xAD => Some IL_OP_UNUSED_AD
  | 0xAE => Some IL_OP_UNUSED_AE | 0xAF => Some IL_OP_UNUSED_AF
  | 0xB0 => Some IL_OP_UNUSED_B0 | 0xB1 => Some IL_OP_UNUSED_B1
  | 0xB2 => Some IL_OP_UNUSED_B2 | 0xB3 => Some IL_OP_CONV_OVF_I1
  | 0xB4 => Some IL_OP_CONV_OVF_U1 | 0xB5 => Some IL_OP_CONV_OVF_I2
  | 0xB6 => Some IL_OP_CONV_OVF_U2 | 0xB7 => Some IL_OP_CONV_OVF_I4
  | 0xB8 => Some IL_OP_CONV_OVF_U4 | 0xB9 => Some IL_OP_CONV_OVF_I8
  | 0xBA => Some IL_OP_CONV_OVF_U8 | 0xBB => Some IL_OP_UNUSED_BB
  | 0xBC => Some IL_OP_UNUSED_BC | 0xBD => Some IL_OP_UNUSED_BD
  | 0xBE => Some IL_OP_UNUSED_BE | 0xBF => Some IL_OP_UNUSED_BF
  | 0xC0 => Some IL_OP_UNUSED_C0 | 0xC1 => Some IL_OP_UNUSED_C1
  | 0xC2 => Some IL_OP_REFANYVAL | 0xC3 => Some IL_OP_CKFINITE
  | 0xC4 => Some IL_OP_UNUSED_C4 | 0xC5 => Some IL_OP_UNUSED_C5
  | 0xC6 => Some IL_OP_MKREFANY | 0xC7 => Some IL_OP_ANN_CALL
  | 0xC8 => Some IL_OP_ANN_CATCH | 0xC9 => Some IL_OP_ANN_DEAD
  | 0xCA => Some IL_OP_ANN_HOISTED | 0xCB => Some IL_OP_ANN_HOISTED_CALL
  | 0xCC => Some IL_OP_ANN_LAB | 0xCD => Some IL_OP_ANN_DEF
  | 0xCE => Some IL_OP_ANN_REF_S | 0xCF => Some IL_OP_ANN_PHI
  | 0xD0 => Some IL_OP_LDTOKEN | 0xD1 => Some IL_OP_CONV_U2
  | 0xD2 => Some IL_OP_CONV_U1 | 0xD3 => Some IL_OP_CONV_I
  | 0xD4 => Some IL_OP_CONV_OVF_I | 0xD5 => Some IL_OP_CONV_OVF_U
  | 0xD6 => Some IL_OP_ADD_OVF | 0xD7 => Some IL_OP_ADD_OVF_UN
  | 0xD8 => Some IL_OP_MUL_OVF | 0xD9 => Some IL_OP_MUL_OVF_UN
  | 0xDA => Some IL_OP_SUB_OVF | 0xDB => Some IL_OP_SUB_OVF_UN
  | 0xDC => Some IL_OP_ENDFINALLY | 0xDD => Some IL_OP_LEAVE
  | 0xDE => Some IL_OP_LEAVE_S | 0xDF => Some IL_OP_STIND_I
  | 0xE0 => Some IL_OP_CONV_U | 0xFE => Some IL_OP_PREFIX
  | _ => None
  end.

Definition il_prefix_op_of_byte (code : Z) : option il_prefix_op :=
  match code with
  | 0x00 => Some IL_PREFIX_OP_ARGLIST | 0x01 => Some IL_PREFIX_OP_CEQ
  | 0x02 => Some IL_PREFIX_OP_CGT | 0x03 => Some IL_PREFIX_OP_CGT_UN
  | 0x04 => Some IL_PREFIX_OP_CLT | 0x05 => Some IL_PREFIX_OP_CLT_UN
  | 0x06 => Some IL_PREFIX_OP_LDFTN | 0x07 => Some IL_PREFIX_OP_LDVIRTFTN
  | 0x08 => Some IL_PREFIX_OP_JMPI | 0x09 => Some IL_PREFIX_OP_LDARG
  | 0x0A => Some IL_PREFIX_OP_LDARGA | 0x0B => Some IL_PREFIX_OP_STARG
  | 0x0C => Some IL_PREFIX_OP_LDLOC | 0x0D => Some IL_PREFIX_OP_LDLOCA
  | 0x0E => Some IL_PREFIX_OP_STLOC | 0x0F => Some IL_PREFIX_OP_LOCALLOC
  | 0x10 => Some IL_PREFIX_OP_UNUSED_PREFIX_10
  | 0x11 => Some IL_PREFIX_OP_ENDFILTER | 0x12 => Some IL_PREFIX_OP_UNALIGNED
  | 0x13 => Some IL_PREFIX_OP_VOLATILE | 0x14 => Some IL_PREFIX_OP_TAIL
  | 0x15 => Some IL_PREFIX_OP_INITOBJ | 0x16 => Some IL_PREFIX_OP_ANN_LIVE
  | 0x17 => Some IL_PREFIX_OP_CPBLK | 0x18 => Some IL_PREFIX_OP_INITBLK
  | 0x19 => Some IL_PREFIX_OP_ANN_REF | 0x1A => Some IL_PREFIX_OP_RETHROW
  | 0x1B => Some IL_PREFIX_OP_UNUSED_PREFIX_1B
  | 0x1C => Some IL_PREFIX_OP_SIZEOF | 0x1D => Some IL_PREFIX_OP_REFANYTYPE
  | 0x1E => Some IL_PREFIX_OP_UNUSED_PREFIX_1E
  | 0x1F => Some IL_PREFIX_OP_UNUSED_PREFIX_1F
  | 0x20 => Some IL_PREFIX_OP_UNUSED_PREFIX_20
  | 0x21 => Some IL_PREFIX_OP_UNUSED_PREFIX_21
  | 0x22 => Some IL_PREFIX_OP_ANN_DATA | 0x23 => Some IL_PREFIX_OP_ANN_ARG
  | _ => None
  end.

(** [ILMainOpcodeTable[code]]; the byte always is a valid index. *)
Definition main_opcode (code : Z) : ILOpcodeInfo :=
  nth (Z.to_nat code) ILMainOpcodeTable (OPDEF "" 0 0 IL_OPCODE_ARGS_INVALID 0).
Definition prefix_opcode (code : Z) : ILOpcodeInfo :=
  nth (Z.to_nat code) ILPrefixOpcodeTable (OPDEF "" 0 0 IL_OPCODE_ARGS_INVALID 0).

(** ** Properties *)

#[export] Instance il_op_eq_dec : EqDecision il_op.
Proof.
  refine (fun x y => cast_if (decide (il_op_value x = il_op_value y)));
    [| congruence].
  assert (forall z, il_op_of_byte (il_op_value z) = Some z) as Hv by by intros [].
  pose proof (Hv x). pose proof (Hv y). congruence.
Defined.

#[export] Instance il_args_eq_dec : EqDecision il_args.
Proof.
  refine (fun x y => cast_if (decide (il_args_value x = il_args_value y)));
    [| congruence].
  destruct x, y; done || discriminate.
Defined.

Lemma il_op_of_value op : il_op_of_byte (il_op_value op) = Some op.
Proof. by destruct op. Qed.

Lemma il_prefix_op_of_value op : il_prefix_op_of_byte (il_prefix_op_value op) = Some op.
Proof. by destruct op. Qed.

Lemma il_op_value_byte op : is_byte (il_op_value op).
Proof. unfold is_byte. destruct op; cbn; lia. Qed.

(** A boolean fact about the opcode bytes, by enumeration. *)
Definition all_bytes (P : Z -> bool) : bool :=
  forallb P (map Z.of_nat (seq 0 256)).

Lemma all_bytes_spec P b : all_bytes P = true -> is_byte b -> P b = true.
Proof. apply byte_forall. Qed.

(** The number of operand bytes of each argument type; [None] where it varies
    or where the opcode is an annotation or not an instruction. *)
Definition args_bytes (a : il_args) : option Z :=
  match a with
  | IL_OPCODE_ARGS_NONE => Some 0
  | IL_OPCODE_ARGS_INT8 | IL_OPCODE_ARGS_UINT8 | IL_OPCODE_ARGS_SHORT_VAR
  | IL_OPCODE_ARGS_SHORT_ARG | IL_OPCODE_ARGS_SHORT_JUMP => Some 1
  | IL_OPCODE_ARGS_INT16 | IL_OPCODE_ARGS_UINT16 | IL_OPCODE_ARGS_LONG_VAR
  | IL_OPCODE_ARGS_LONG_ARG => Some 2
  | IL_OPCODE_ARGS_INT32 | IL_OPCODE_ARGS_FLOAT32 | IL_OPCODE_ARGS_TOKEN
  | IL_OPCODE_ARGS_LONG_JUMP | IL_OPCODE_ARGS_CALL | IL_OPCODE_ARGS_CALLI
  | IL_OPCODE_ARGS_CALLVIRT | IL_OPCODE_ARGS_STRING | IL_OPCODE_ARGS_NEW
  | IL_OPCODE_ARGS_LDTOKEN => Some 4
  | IL_OPCODE_ARGS_INT64 | IL_OPCODE_ARGS_FLOAT64 => Some 8
  | _ => None
  end.

Definition size_agrees (prefix : Z) (i : ILOpcodeInfo) : bool :=
  match args_bytes (op_args i) with
  | Some n => op_size i =? prefix + n
  | None => true
  end.

Lemma il_op_of_byte_value code op :
  is_byte code -> il_op_of_byte code = Some op -> il_op_value op = code.
Proof.
  intros Hc Ho. apply (byte_forall (fun code =>
    match il_op_of_byte code with Some op => il_op_value op =? code | None => true end))
    in Hc; [| vm_compute; reflexivity].
  rewrite Ho in Hc. lia.
Qed.

Lemma il_prefix_op_of_byte_value code op :
  is_byte code -> il_prefix_op_of_byte code = Some op -> il_prefix_op_value op = code.
Proof.
  intros Hc Ho. apply (byte_forall (fun code =>
    match il_prefix_op_of_byte code with
    | Some op => il_prefix_op_value op =? code | None => true end))
    in Hc; [| vm_compute; reflexivity].
  rewrite Ho in Hc. lia.
Qed.

(** Both tables have a row for every byte, so no opcode byte indexes
    outside them, and the opcode constants are distinct bytes: dispatching on
    [*code] selects the case of an opcode exactly when the byte is its value. *)
Theorem opcode_dispatch :
  length ILMainOpcodeTable = 256%nat /\ length ILPrefixOpcodeTable = 256%nat /\
  (forall code op, is_byte code ->
     il_op_of_byte code = Some op <-> il_op_value op = code) /\
  (forall code op, is_byte code ->
     il_prefix_op_of_byte code = Some op <-> il_prefix_op_value op = code).
Proof.
  split_and!; [done | done | intros code op Hc ..]; split;
    try (intros <-; apply il_op_of_value || apply il_prefix_op_of_value).
  - intros Ho. by rewrite (il_op_of_byte_value code op).
  - intros Ho. by rewrite (il_prefix_op_of_byte_value code op).
Qed.

(** In every row the instruction size is the size of the opcode (one byte,
    two with the prefix) plus that of its operand, and the only opcodes whose
    size is left to be determined otherwise are [switch], the two annotations
    with data, [ann.phi] and the prefix byte. *)
Theorem opcode_sizes :
  (forall code, is_byte code ->
     size_agrees 1 (main_opcode code) = true /\
     size_agrees 2 (prefix_opcode code) = true) /\
  (forall code, is_byte code ->
     op_size (main_opcode code) = 0 <->
     code ∈ il_op_value <$> [IL_OP_SWITCH; IL_OP_ANN_DATA_S; IL_OP_ANN_PHI;
       IL_OP_PREFIX]) /\
  (forall code, is_byte code ->
     op_size (prefix_opcode code) = 0 <->
     il_prefix_op_value IL_PREFIX_OP_ANN_DATA = code).
Proof.
  split_and!.
  - apply (byte_forall_dec (fun code =>
      size_agrees 1 (main_opcode code) = true /\
      size_agrees 2 (prefix_opcode code) = true)). by vm_compute.
  - apply (byte_forall_dec (fun code => op_size (main_opcode code) = 0 <->
      code ∈ il_op_value <$> [IL_OP_SWITCH; IL_OP_ANN_DATA_S; IL_OP_ANN_PHI;
        IL_OP_PREFIX])). by vm_compute.
  - apply (byte_forall_dec (fun code => op_size (prefix_opcode code) = 0 <->
      il_prefix_op_value IL_PREFIX_OP_ANN_DATA = code)). by vm_compute.
Qed.

Lemma opcode_dispatch_witness : il_op_of_byte 0x58 = Some IL_OP_ADD.
Proof.
  apply opcode_dispatch; [unfold is_byte; lia | reflexivity].
Defined.

Lemma opcode_sizes_witness : size_agrees 1 (main_opcode 0x20) = true.
Proof. apply opcode_sizes. unfold is_byte; lia. Defined.
