(* ===== verification/Trees.v ===== *)
(** * Trees: the GENERIC trees the front end builds

    Models, of src/gcc/tree.c and src/gcc/tree.def, the nodes that the CIL
    front end creates, their accessors and their flags.  Types are compared by identity in the C code; here they are values of
    [ttype], which has one value per node (array, pointer and function types are
    shared by GCC's type table, records carry the number of their node). *)
From S2P Require Import Prelude.

(** ** Codes *)

(** The tree codes the front ends use. *)
Inductive tree_code :=
| INTEGER_TYPE_ | BOOLEAN_TYPE_ | VOID_TYPE_ | REAL_TYPE_ | POINTER_TYPE_
| RECORD_TYPE_ | ARRAY_TYPE_ | FUNCTION_TYPE_
| INTEGER_CST_ | REAL_CST_
| VAR_DECL | PARM_DECL | RESULT_DECL | FUNCTION_DECL | FIELD_DECL | LABEL_DECL
| TREE_LIST_ | TREE_VEC_ | CONSTRUCTOR_ | STATEMENT_LIST_ | BLOCK_
| COMPONENT_REF | INDIRECT_REF | ARRAY_REF
| MODIFY_EXPR | COND_EXPR | CALL_EXPR | COMPOUND_EXPR | SAVE_EXPR | ADDR_EXPR
| BIND_EXPR | OBJ_TYPE_REF
| PLUS_EXPR | MINUS_EXPR | MULT_EXPR | TRUNC_DIV_EXPR | TRUNC_MOD_EXPR | RDIV_EXPR
| LSHIFT_EXPR | RSHIFT_EXPR
| BIT_AND_EXPR | BIT_IOR_EXPR | BIT_XOR_EXPR
| NEGATE_EXPR | BIT_NOT_EXPR | FLOAT_EXPR | FIX_TRUNC_EXPR | CONVERT_EXPR
| NOP_EXPR | NON_LVALUE_EXPR
| EQ_EXPR | NE_EXPR | LT_EXPR | LE_EXPR | GT_EXPR | GE_EXPR
| UNEQ_EXPR | UNLT_EXPR | UNLE_EXPR | UNGT_EXPR | UNGE_EXPR | LTGT_EXPR
| GOTO_EXPR | LABEL_EXPR | RETURN_EXPR | SWITCH_EXPR | CASE_LABEL_EXPR.

#[export] Instance tree_code_eq_dec : EqDecision tree_code.
Proof. solve_decision. Defined.

Inductive tree_code_class :=
| tcc_exceptional | tcc_constant | tcc_type | tcc_declaration | tcc_reference
| tcc_comparison | tcc_unary | tcc_binary | tcc_statement | tcc_expression.

#[export] Instance tree_code_class_eq_dec : EqDecision tree_code_class.
Proof. solve_decision. Defined.

(** The rows of tree.def. *)
Definition TREE_CODE_CLASS (c : tree_code) : tree_code_class :=
  match c with
  | INTEGER_TYPE_ | BOOLEAN_TYPE_ | VOID_TYPE_ | REAL_TYPE_ | POINTER_TYPE_
  | RECORD_TYPE_ | ARRAY_TYPE_ | FUNCTION_TYPE_ => tcc_type
  | INTEGER_CST_ | REAL_CST_ => tcc_constant
  | VAR_DECL | PARM_DECL | RESULT_DECL | FUNCTION_DECL | FIELD_DECL | LABEL_DECL =>
      tcc_declaration
  | TREE_LIST_ | TREE_VEC_ | CONSTRUCTOR_ | STATEMENT_LIST_ | BLOCK_ => tcc_exceptional
  | COMPONENT_REF | INDIRECT_REF | ARRAY_REF => tcc_reference
  | MODIFY_EXPR | COND_EXPR | CALL_EXPR | COMPOUND_EXPR | SAVE_EXPR | ADDR_EXPR
  | BIND_EXPR | OBJ_TYPE_REF => tcc_expression
  | PLUS_EXPR | MINUS_EXPR | MULT_EXPR | TRUNC_DIV_EXPR | TRUNC_MOD_EXPR | RDIV_EXPR
  | LSHIFT_EXPR | RSHIFT_EXPR
  | BIT_AND_EXPR | BIT_IOR_EXPR | BIT_XOR_EXPR => tcc_binary
  | NEGATE_EXPR | BIT_NOT_EXPR | FLOAT_EXPR | FIX_TRUNC_EXPR | CONVERT_EXPR
  | NOP_EXPR | NON_LVALUE_EXPR => tcc_unary
  | EQ_EXPR | NE_EXPR | LT_EXPR | LE_EXPR | GT_EXPR | GE_EXPR
  | UNEQ_EXPR | UNLT_EXPR | UNLE_EXPR | UNGT_EXPR | UNGE_EXPR | LTGT_EXPR => tcc_comparison
  | GOTO_EXPR | LABEL_EXPR | RETURN_EXPR | SWITCH_EXPR | CASE_LABEL_EXPR =>
      tcc_statement
  end.

Definition TREE_CODE_LENGTH (c : tree_code) : Z :=
  match c with
  | COMPONENT_REF | COND_EXPR | CALL_EXPR | BIND_EXPR | SWITCH_EXPR
  | CASE_LABEL_EXPR | OBJ_TYPE_REF => 3
  | ARRAY_REF => 4
  | MODIFY_EXPR | COMPOUND_EXPR => 2
  | PLUS_EXPR | MINUS_EXPR | MULT_EXPR | TRUNC_DIV_EXPR | TRUNC_MOD_EXPR | RDIV_EXPR
  | LSHIFT_EXPR | RSHIFT_EXPR | BIT_AND_EXPR | BIT_IOR_EXPR | BIT_XOR_EXPR => 2
  | EQ_EXPR | NE_EXPR | LT_EXPR | LE_EXPR | GT_EXPR | GE_EXPR
  | UNEQ_EXPR | UNLT_EXPR | UNLE_EXPR | UNGT_EXPR | UNGE_EXPR | LTGT_EXPR => 2
  | INDIRECT_REF | SAVE_EXPR | ADDR_EXPR => 1
  | NEGATE_EXPR | BIT_NOT_EXPR | FLOAT_EXPR | FIX_TRUNC_EXPR | CONVERT_EXPR
  | NOP_EXPR | NON_LVALUE_EXPR => 1
  | GOTO_EXPR | LABEL_EXPR | RETURN_EXPR => 1
  | _ => 0
  end.

(** ** Types *)

(** The integer type nodes: the C types of the target, [size_type_node], the
    two copies made for [native int], [char_type_node] and the unsigned type of
    one bit made for a flag of the runtime. *)
Inductive integer_kind :=
| signed_char_type | unsigned_char_type
| short_integer_type | short_unsigned_type
| integer_type | unsigned_type
| long_integer_type | long_unsigned_type
| long_long_integer_type | long_long_unsigned_type
| size_type | native_int_type | native_uint_type
| char_type | bit_type.

#[export] Instance integer_kind_eq_dec : EqDecision integer_kind.
Proof. solve_decision. Defined.

Inductive ttype :=
| INTEGER_TYPE (k : integer_kind)
| BOOLEAN_TYPE
| VOID_TYPE
| REAL_TYPE (double : bool)
| POINTER_TYPE (to : ttype)
| RECORD_TYPE (node : N)
| ARRAY_TYPE (elem : ttype)
| FUNCTION_TYPE (ret : ttype) (arg_types : type_list)
(** [TYPE_ARG_TYPES]; the list ends with [void_type_node]. *)
with type_list :=
| TNIL
| TCONS (t : ttype) (l : type_list).

Scheme ttype_rect' := Induction for ttype Sort Type
  with type_list_rect' := Induction for type_list Sort Type.

#[export] Instance ttype_eq_dec : EqDecision ttype.
Proof.
  intros x. refine (ttype_rect' (fun x => forall y, Decision (x = y))
    (fun l => forall m : type_list, Decision (l = m)) _ _ _ _ _ _ _ _ _ _ x).
  - intros k []; try (right; discriminate).
    destruct (decide (k = k0)) as [-> |]; [by left | right; congruence].
  - intros []; try (right; discriminate). by left.
  - intros []; try (right; discriminate). by left.
  - intros d []; try (right; discriminate).
    destruct (decide (d = double)) as [-> |]; [by left | right; congruence].
  - intros t IH []; try (right; discriminate).
    destruct (IH to) as [-> |]; [by left | right; congruence].
  - intros n []; try (right; discriminate).
    destruct (decide (n = node)) as [-> |]; [by left | right; congruence].
  - intros t IH []; try (right; discriminate).
    destruct (IH elem) as [-> |]; [by left | right; congruence].
  - intros t IH l IHl []; try (right; discriminate).
    destruct (IH ret) as [-> |], (IHl arg_types) as [-> |];
      [by left | right; congruence ..].
  - intros []; try (right; discriminate). by left.
  - intros t IH l IHl []; try (right; discriminate).
    destruct (IH t0) as [-> |], (IHl l0) as [-> |]; [by left | right; congruence ..].
Defined.

Definition type_code (t : ttype) : tree_code :=
  match t with
  | INTEGER_TYPE _ => INTEGER_TYPE_
  | BOOLEAN_TYPE => BOOLEAN_TYPE_
  | VOID_TYPE => VOID_TYPE_
  | REAL_TYPE _ => REAL_TYPE_
  | POINTER_TYPE _ => POINTER_TYPE_
  | RECORD_TYPE _ => RECORD_TYPE_
  | ARRAY_TYPE _ => ARRAY_TYPE_
  | FUNCTION_TYPE _ _ => FUNCTION_TYPE_
  end.

(** [list_length] of a list of types. *)
Fixpoint type_list_length (l : type_list) : Z :=
  match l with TNIL => 0 | TCONS _ l => 1 + type_list_length l end.

Fixpoint to_type_list (l : list ttype) : type_list :=
  match l with [] => TNIL | t :: l => TCONS t (to_type_list l) end.

Fixpoint of_type_list (l : type_list) : list ttype :=
  match l with TNIL => [] | TCONS t l => t :: of_type_list l end.

Lemma of_to_type_list l : of_type_list (to_type_list l) = l.
Proof. induction l; cbn; congruence. Qed.

Lemma to_of_type_list l : to_type_list (of_type_list l) = l.
Proof. induction l; cbn; congruence. Qed.

Lemma type_list_length_of l : type_list_length l = Z.of_nat (length (of_type_list l)).
Proof. induction l; cbn -[Z.add Z.of_nat]; lia. Qed.

(** [TREE_TYPE] of a type: what it points to, contains or returns. *)
Definition TREE_TYPE_of_type (t : ttype) : option ttype :=
  match t with
  | POINTER_TYPE to => Some to
  | ARRAY_TYPE elem => Some elem
  | FUNCTION_TYPE ret _ => Some ret
  | _ => None
  end.

(** The target machine, as its configuration describes it; the front end does
    not compile for others. *)
Class Target := {
  INT_TYPE_SIZE : Z;
  LONG_TYPE_SIZE : Z;
  POINTER_SIZE : Z;
  has_int32 : INT_TYPE_SIZE = 32 \/ LONG_TYPE_SIZE = 32;
  int_type_range : 16 <= INT_TYPE_SIZE <= 64;
  long_type_range : 32 <= LONG_TYPE_SIZE <= 64;
  pointer_range : 16 <= POINTER_SIZE <= 64
}.

(** ** Nodes *)

(** The flags of a node that the functions below read and set. *)
Record tree_flags := mkFlags {
  side_effects : bool;
  readonly : bool;
  constant : bool;
  invariant : bool;
  this_volatile : bool
}.

Definition no_flags : tree_flags := mkFlags false false false false false.

(** A declaration node: its code, its number, its name if it has one, its type
    if it has one, and [TREE_THIS_VOLATILE]. *)
Record decl := mkDecl {
  decl_code : tree_code;
  DECL_UID : N;
  DECL_NAME : option string;
  decl_type : option ttype;
  decl_volatile : bool
}.

(** [REAL_VALUE_TYPE] as the call that produced it: the format and the words it
    was decoded from. *)
Inductive real_format := ieee_single_format | ieee_double_format.
Record real_value := real_from_target_fmt { rv_format : real_format; rv_words : list Z }.

Inductive tree :=
| NULL_TREE
| INTEGER_CST (ty : ttype) (value : Z)
| REAL_CST (ty : ttype) (value : real_value)
| DECL (d : decl)
(** An expression or statement; unused operands are [NULL_TREE]. *)
| EXPR (code : tree_code) (ty : option ttype) (fl : tree_flags)
    (op0 op1 op2 op3 : tree)
(** A [SAVE_EXPR] is evaluated once wherever it occurs: it has a number. *)
| SAVE (node : N) (ty : option ttype) (fl : tree_flags) (op0 : tree)
| TREE_LIST (values : list tree)
| TREE_VEC (elts : list tree)
(** The elements are pairs of a field or an index and a value. *)
| CONSTRUCTOR (ty : ttype) (elts : list (tree * tree))
| STATEMENT_LIST (stmts : list tree)
| BLOCK (vars : list tree).

Definition is_null (t : tree) : bool :=
  match t with NULL_TREE => true | _ => false end.

Definition TREE_CODE (t : tree) : option tree_code :=
  match t with
  | NULL_TREE => None
  | INTEGER_CST _ _ => Some INTEGER_CST_
  | REAL_CST _ _ => Some REAL_CST_
  | DECL d => Some (decl_code d)
  | EXPR c _ _ _ _ _ _ => Some c
  | SAVE _ _ _ _ => Some SAVE_EXPR
  | TREE_LIST _ => Some TREE_LIST_
  | TREE_VEC _ => Some TREE_VEC_
  | CONSTRUCTOR _ _ => Some CONSTRUCTOR_
  | STATEMENT_LIST _ => Some STATEMENT_LIST_
  | BLOCK _ => Some BLOCK_
  end.

Definition TREE_TYPE (t : tree) : option ttype :=
  match t with
  | INTEGER_CST ty _ | REAL_CST ty _ | CONSTRUCTOR ty _ => Some ty
  | DECL d => decl_type d
  | EXPR _ ty _ _ _ _ _ | SAVE _ ty _ _ => ty
  | STATEMENT_LIST _ => Some VOID_TYPE
  | _ => None
  end.

Definition TREE_OPERAND (t : tree) (i : Z) : tree :=
  match t with
  | EXPR _ _ _ a b c d =>
      if i =? 0 then a else if i =? 1 then b else if i =? 2 then c
      else if i =? 3 then d else NULL_TREE
  | SAVE _ _ _ a => if i =? 0 then a else NULL_TREE
  | _ => NULL_TREE
  end.

(** Constants are made constant and invariant; a statement list has side
    effects once something was added to it (tsi_link_after). *)
Definition flags_of (t : tree) : tree_flags :=
  match t with
  | INTEGER_CST _ _ | REAL_CST _ _ => mkFlags false false true true false
  | DECL d => mkFlags false false false false (decl_volatile d)
  | EXPR _ _ fl _ _ _ _ | SAVE _ _ fl _ => fl
  | STATEMENT_LIST (_ :: _) => mkFlags true false false false false
  | _ => no_flags
  end.

Definition TREE_SIDE_EFFECTS (t : tree) : bool := side_effects (flags_of t).
Definition TREE_READONLY (t : tree) : bool := readonly (flags_of t).
Definition TREE_CONSTANT (t : tree) : bool := constant (flags_of t).
Definition TREE_INVARIANT (t : tree) : bool := invariant (flags_of t).
Definition TREE_THIS_VOLATILE (t : tree) : bool := this_volatile (flags_of t).

(** [TREE_SIDE_EFFECTS (t) = 1] on a node just built. *)
Definition set_side_effects (t : tree) : tree :=
  match t with
  | EXPR c ty fl a b d e =>
      EXPR c ty (mkFlags true (readonly fl) (constant fl) (invariant fl)
                         (this_volatile fl)) a b d e
  | t => t
  end.

Definition class_of (t : tree) : option tree_code_class :=
  TREE_CODE_CLASS <$> TREE_CODE t.
