(* ===== verification/CilState.v ===== *)
(** * CilState: the state of the front end and the functions that build trees

    The globals of src/gcc/cil (stack.c, cil-decl.c, build_trees.c), the parts
    of tree nodes that are modified after they are shared, and the monad in
    which the front end runs; then the node constructors of src/gcc/tree.c,
    which read that state, and the statement list of src/gcc/gimplify.c. *)
From S2P Require Import Prelude Trees.

(** ** State *)

(** A field of a record: [DECL_FCONTEXT] is the type that declares it. *)
Record field := mkField { field_decl : decl; DECL_FCONTEXT : option ttype }.

(** What is set on a declaration after it was built. *)
Record decl_attrs := mkAttrs {
  DECL_CONTEXT : option N;  (* the function it is declared in *)
  TREE_STATIC : bool;
  TREE_PUBLIC : bool;
  DECL_EXTERNAL : bool;
  DECL_STATIC_CONSTRUCTOR : bool;
  DECL_ASSEMBLER_NAME : option string;  (* set by hand *)
  DECL_ARGUMENTS : list tree;
  DECL_RESULT : tree;
  DECL_SAVED_TREE : tree;
  DECL_INITIAL : tree
}.

Definition no_attrs : decl_attrs := mkAttrs None false false false false None [] NULL_TREE
  NULL_TREE NULL_TREE.

(** The record types of the Mono runtime, kept in [cil_global_trees]. *)
Record mono_types := mkMono {
  mono_class_runtime_info_type_node : ttype;
  mono_class_member_info_type_node : ttype;
  mono_class_type_node : ttype;
  mono_vtable_type_node : ttype;
  mono_string_type_node : ttype
}.

(** An [ILClass] is known by a number, the address of the object.  A statement
    list that is not there and one that is empty behave alike and are both
    []. *)
Record cil_state := mkState {
  top_item : list tree;  (* the linked items, the top one first *)
  height : Z;  (* int *)
  local_vars : list tree;  (* tree local_vars[100] *)
  num_of_local_vars : Z;
  formal_params : list tree;  (* tree formal_params[10] *)
  local_labels : list string;  (* labels of the function, last first *)
  IDENTIFIER_DECL : gmap string tree;  (* variable, parameter or function *)
  LABEL_DECL_of : gmap string tree;  (* LABEL_DECL of an identifier *)
  IDENTIFIER_CLASS_DECL : gmap string ttype;
  IDENTIFIER_STATIC_FIELDS_DECL : gmap string ttype;
  TYPE_FIELDS : gmap N (list field);  (* the fields of a record *)
  TYPE_ILClass : gmap N N;  (* the class a record stands for *)
  TYPE_ARRAYTYPE : list (ttype * ttype);  (* the array class of an element type *)
  TYPE_VALUETYPE : gmap N ttype;  (* the value type of the record of a class *)
  TYPE_OBJECTTYPE : list (ttype * ttype);  (* the class of a value type, newest first *)
  method_index : gmap N Z;  (* method->index; 0 when absent *)
  method_count : gmap N Z;  (* method->count; 0 when absent *)
  cil_global_trees : mono_types;  (* the record types of the runtime *)
  attrs : gmap N decl_attrs;  (* by DECL_UID *)
  current_function_decl : option decl;
  current_function_locals : list tree;
  current_function_body : list tree;  (* the statements *)
  compiled : list (decl * tree);  (* declarations given to the middle end *)
  next_uid : N  (* number of the next node *)
}.

Definition set_top_item (v : list tree) (s : cil_state) : cil_state :=
  mkState v (height s) (local_vars s) (num_of_local_vars s) (formal_params s)
    (local_labels s) (IDENTIFIER_DECL s) (LABEL_DECL_of s) (IDENTIFIER_CLASS_DECL s)
    (IDENTIFIER_STATIC_FIELDS_DECL s) (TYPE_FIELDS s) (TYPE_ILClass s)
    (TYPE_ARRAYTYPE s) (TYPE_VALUETYPE s) (TYPE_OBJECTTYPE s) (method_index s)
    (method_count s) (cil_global_trees s) (attrs s) (current_function_decl s)
    (current_function_locals s) (current_function_body s) (compiled s) (next_uid s).
Definition set_height (v : Z) (s : cil_state) : cil_state :=
  mkState (top_item s) v (local_vars s) (num_of_local_vars s) (formal_params s)
    (local_labels s) (IDENTIFIER_DECL s) (LABEL_DECL_of s) (IDENTIFIER_CLASS_DECL s)
    (IDENTIFIER_STATIC_FIELDS_DECL s) (TYPE_FIELDS s) (TYPE_ILClass s)
    (TYPE_ARRAYTYPE s) (TYPE_VALUETYPE s) (TYPE_OBJECTTYPE s) (method_index s)
    (method_count s) (cil_global_trees s) (attrs s) (current_function_decl s)
    (current_function_locals s) (current_function_body s) (compiled s) (next_uid s).
Definition set_local_vars (v : list tree) (s : cil_state) : cil_state :=
  mkState (top_item s) (height s) v (num_of_local_vars s) (formal_params s)
    (local_labels s) (IDENTIFIER_DECL s) (LABEL_DECL_of s) (IDENTIFIER_CLASS_DECL s)
    (IDENTIFIER_STATIC_FIELDS_DECL s) (TYPE_FIELDS s) (TYPE_ILClass s)
    (TYPE_ARRAYTYPE s) (TYPE_VALUETYPE s) (TYPE_OBJECTTYPE s) (method_index s)
    (method_count s) (cil_global_trees s) (attrs s) (current_function_decl s)
    (current_function_locals s) (current_function_body s) (compiled s) (next_uid s).
Definition set_num_of_local_vars (v : Z) (s : cil_state) : cil_state :=
  mkState (top_item s) (height s) (local_vars s) v (formal_params s) (local_labels s)
    (IDENTIFIER_DECL s) (LABEL_DECL_of s) (IDENTIFIER_CLASS_DECL s)
    (IDENTIFIER_STATIC_FIELDS_DECL s) (TYPE_FIELDS s) (TYPE_ILClass s)
    (TYPE_ARRAYTYPE s) (TYPE_VALUETYPE s) (TYPE_OBJECTTYPE s) (method_index s)
    (method_count s) (cil_global_trees s) (attrs s) (current_function_decl s)
    (current_function_locals s) (current_function_body s) (compiled s) (next_uid s).
Definition set_formal_params (v : list tree) (s : cil_state) : cil_state :=
  mkState (top_item s) (height s) (local_vars s) (num_of_local_vars s) v
    (local_labels s) (IDENTIFIER_DECL s) (LABEL_DECL_of s) (IDENTIFIER_CLASS_DECL s)
    (IDENTIFIER_STATIC_FIELDS_DECL s) (TYPE_FIELDS s) (TYPE_ILClass s)
    (TYPE_ARRAYTYPE s) (TYPE_VALUETYPE s) (TYPE_OBJECTTYPE s) (method_index s)
    (method_count s) (cil_global_trees s) (attrs s) (current_function_decl s)
    (current_function_locals s) (current_function_body s) (compiled s) (next_uid s).
Definition set_local_labels (v : list string) (s : cil_state) : cil_state :=
  mkState (top_item s) (height s) (local_vars s) (num_of_local_vars s) (formal_params s)
    v (IDENTIFIER_DECL s) (LABEL_DECL_of s) (IDENTIFIER_CLASS_DECL s)
    (IDENTIFIER_STATIC_FIELDS_DECL s) (TYPE_FIELDS s) (TYPE_ILClass s)
    (TYPE_ARRAYTYPE s) (TYPE_VALUETYPE s) (TYPE_OBJECTTYPE s) (method_index s)
    (method_count s) (cil_global_trees s) (attrs s) (current_function_decl s)
    (current_function_locals s) (current_function_body s) (compiled s) (next_uid s).
Definition set_IDENTIFIER_DECL (v : gmap string tree) (s : cil_state) : cil_state :=
  mkState (top_item s) (height s) (local_vars s) (num_of_local_vars s) (formal_params s)
    (local_labels s) v (LABEL_DECL_of s) (IDENTIFIER_CLASS_DECL s)
    (IDENTIFIER_STATIC_FIELDS_DECL s) (TYPE_FIELDS s) (TYPE_ILClass s)
    (TYPE_ARRAYTYPE s) (TYPE_VALUETYPE s) (TYPE_OBJECTTYPE s) (method_index s)
    (method_count s) (cil_global_trees s) (attrs s) (current_function_decl s)
    (current_function_locals s) (current_function_body s) (compiled s) (next_uid s).
Definition set_LABEL_DECL_of (v : gmap string tree) (s : cil_state) : cil_state :=
  mkState (top_item s) (height s) (local_vars s) (num_of_local_vars s) (formal_params s)
    (local_labels s) (IDENTIFIER_DECL s) v (IDENTIFIER_CLASS_DECL s)
    (IDENTIFIER_STATIC_FIELDS_DECL s) (TYPE_FIELDS s) (TYPE_ILClass s)
    (TYPE_ARRAYTYPE s) (TYPE_VALUETYPE s) (TYPE_OBJECTTYPE s) (method_index s)
    (method_count s) (cil_global_trees s) (attrs s) (current_function_decl s)
    (current_function_locals s) (current_function_body s) (compiled s) (next_uid s).
Definition set_IDENTIFIER_CLASS_DECL (v : gmap string ttype) (s : cil_state) : cil_state :=
  mkState (top_item s) (height s) (local_vars s) (num_of_local_vars s) (formal_params s)
    (local_labels s) (IDENTIFIER_DECL s) (LABEL_DECL_of s) v
    (IDENTIFIER_STATIC_FIELDS_DECL s) (TYPE_FIELDS s) (TYPE_ILClass s)
    (TYPE_ARRAYTYPE s) (TYPE_VALUETYPE s) (TYPE_OBJECTTYPE s) (method_index s)
    (method_count s) (cil_global_trees s) (attrs s) (current_function_decl s)
    (current_function_locals s) (current_function_body s) (compiled s) (next_uid s).
Definition set_IDENTIFIER_STATIC_FIELDS_DECL (v : gmap string ttype) (s : cil_state) : cil_state :=
  mkState (top_item s) (height s) (local_vars s) (num_of_local_vars s) (formal_params s)
    (local_labels s) (IDENTIFIER_DECL s) (LABEL_DECL_of s) (IDENTIFIER_CLASS_DECL s) v
    (TYPE_FIELDS s) (TYPE_ILClass s) (TYPE_ARRAYTYPE s) (TYPE_VALUETYPE s)
    (TYPE_OBJECTTYPE s) (method_index s) (method_count s) (cil_global_trees s) (attrs s)
    (current_function_decl s) (current_function_locals s) (current_function_body s)
    (compiled s) (next_uid s).
Definition set_TYPE_FIELDS (v : gmap N (list field)) (s : cil_state) : cil_state :=
  mkState (top_item s) (height s) (local_vars s) (num_of_local_vars s) (formal_params s)
    (local_labels s) (IDENTIFIER_DECL s) (LABEL_DECL_of s) (IDENTIFIER_CLASS_DECL s)
    (IDENTIFIER_STATIC_FIELDS_DECL s) v (TYPE_ILClass s) (TYPE_ARRAYTYPE s)
    (TYPE_VALUETYPE s) (TYPE_OBJECTTYPE s) (method_index s) (method_count s)
    (cil_global_trees s) (attrs s) (current_function_decl s) (current_function_locals s)
    (current_function_body s) (compiled s) (next_uid s).
Definition set_TYPE_ILClass (v : gmap N N) (s : cil_state) : cil_state :=
  mkState (top_item s) (height s) (local_vars s) (num_of_local_vars s) (formal_params s)
    (local_labels s) (IDENTIFIER_DECL s) (LABEL_DECL_of s) (IDENTIFIER_CLASS_DECL s)
    (IDENTIFIER_STATIC_FIELDS_DECL s) (TYPE_FIELDS s) v (TYPE_ARRAYTYPE s)
    (TYPE_VALUETYPE s) (TYPE_OBJECTTYPE s) (method_index s) (method_count s)
    (cil_global_trees s) (attrs s) (current_function_decl s) (current_function_locals s)
    (current_function_body s) (compiled s) (next_uid s).
Definition set_TYPE_ARRAYTYPE (v : list (ttype * ttype)) (s : cil_state) : cil_state :=
  mkState (top_item s) (height s) (local_vars s) (num_of_local_vars s) (formal_params s)
    (local_labels s) (IDENTIFIER_DECL s) (LABEL_DECL_of s) (IDENTIFIER_CLASS_DECL s)
    (IDENTIFIER_STATIC_FIELDS_DECL s) (TYPE_FIELDS s) (TYPE_ILClass s) v
    (TYPE_VALUETYPE s) (TYPE_OBJECTTYPE s) (method_index s) (method_count s)
    (cil_global_trees s) (attrs s) (current_function_decl s) (current_function_locals s)
    (current_function_body s) (compiled s) (next_uid s).
Definition set_TYPE_VALUETYPE (v : gmap N ttype) (s : cil_state) : cil_state :=
  mkState (top_item s) (height s) (local_vars s) (num_of_local_vars s) (formal_params s)
    (local_labels s) (IDENTIFIER_DECL s) (LABEL_DECL_of s) (IDENTIFIER_CLASS_DECL s)
    (IDENTIFIER_STATIC_FIELDS_DECL s) (TYPE_FIELDS s) (TYPE_ILClass s)
    (TYPE_ARRAYTYPE s) v (TYPE_OBJECTTYPE s) (method_index s) (method_count s)
    (cil_global_trees s) (attrs s) (current_function_decl s) (current_function_locals s)
    (current_function_body s) (compiled s) (next_uid s).
Definition set_TYPE_OBJECTTYPE (v : list (ttype * ttype)) (s : cil_state) : cil_state :=
  mkState (top_item s) (height s) (local_vars s) (num_of_local_vars s) (formal_params s)
    (local_labels s) (IDENTIFIER_DECL s) (LABEL_DECL_of s) (IDENTIFIER_CLASS_DECL s)
    (IDENTIFIER_STATIC_FIELDS_DECL s) (TYPE_FIELDS s) (TYPE_ILClass s)
    (TYPE_ARRAYTYPE s) (TYPE_VALUETYPE s) v (method_index s) (method_count s)
    (cil_global_trees s) (attrs s) (current_function_decl s) (current_function_locals s)
    (current_function_body s) (compiled s) (next_uid s).
Definition set_method_index (v : gmap N Z) (s : cil_state) : cil_state :=
  mkState (top_item s) (height s) (local_vars s) (num_of_local_vars s) (formal_params s)
    (local_labels s) (IDENTIFIER_DECL s) (LABEL_DECL_of s) (IDENTIFIER_CLASS_DECL s)
    (IDENTIFIER_STATIC_FIELDS_DECL s) (TYPE_FIELDS s) (TYPE_ILClass s)
    (TYPE_ARRAYTYPE s) (TYPE_VALUETYPE s) (TYPE_OBJECTTYPE s) v (method_count s)
    (cil_global_trees s) (attrs s) (current_function_decl s) (current_function_locals s)
    (current_function_body s) (compiled s) (next_uid s).
Definition set_method_count (v : gmap N Z) (s : cil_state) : cil_state :=
  mkState (top_item s) (height s) (local_vars s) (num_of_local_vars s) (formal_params s)
    (local_labels s) (IDENTIFIER_DECL s) (LABEL_DECL_of s) (IDENTIFIER_CLASS_DECL s)
    (IDENTIFIER_STATIC_FIELDS_DECL s) (TYPE_FIELDS s) (TYPE_ILClass s)
    (TYPE_ARRAYTYPE s) (TYPE_VALUETYPE s) (TYPE_OBJECTTYPE s) (method_index s) v
    (cil_global_trees s) (attrs s) (current_function_decl s) (current_function_locals s)
    (current_function_body s) (compiled s) (next_uid s).
Definition set_cil_global_trees (v : mono_types) (s : cil_state) : cil_state :=
  mkState (top_item s) (height s) (local_vars s) (num_of_local_vars s) (formal_params s)
    (local_labels s) (IDENTIFIER_DECL s) (LABEL_DECL_of s) (IDENTIFIER_CLASS_DECL s)
    (IDENTIFIER_STATIC_FIELDS_DECL s) (TYPE_FIELDS s) (TYPE_ILClass s)
    (TYPE_ARRAYTYPE s) (TYPE_VALUETYPE s) (TYPE_OBJECTTYPE s) (method_index s)
    (method_count s) v (attrs s) (current_function_decl s) (current_function_locals s)
    (current_function_body s) (compiled s) (next_uid s).
Definition set_attrs (v : gmap N decl_attrs) (s : cil_state) : cil_state :=
  mkState (top_item s) (height s) (local_vars s) (num_of_local_vars s) (formal_params s)
    (local_labels s) (IDENTIFIER_DECL s) (LABEL_DECL_of s) (IDENTIFIER_CLASS_DECL s)
    (IDENTIFIER_STATIC_FIELDS_DECL s) (TYPE_FIELDS s) (TYPE_ILClass s)
    (TYPE_ARRAYTYPE s) (TYPE_VALUETYPE s) (TYPE_OBJECTTYPE s) (method_index s)
    (method_count s) (cil_global_trees s) v (current_function_decl s)
    (current_function_locals s) (current_function_body s) (compiled s) (next_uid s).
Definition set_current_function_decl (v : option decl) (s : cil_state) : cil_state :=
  mkState (top_item s) (height s) (local_vars s) (num_of_local_vars s) (formal_params s)
    (local_labels s) (IDENTIFIER_DECL s) (LABEL_DECL_of s) (IDENTIFIER_CLASS_DECL s)
    (IDENTIFIER_STATIC_FIELDS_DECL s) (TYPE_FIELDS s) (TYPE_ILClass s)
    (TYPE_ARRAYTYPE s) (TYPE_VALUETYPE s) (TYPE_OBJECTTYPE s) (method_index s)
    (method_count s) (cil_global_trees s) (attrs s) v (current_function_locals s)
    (current_function_body s) (compiled s) (next_uid s).
Definition set_current_function_locals (v : list tree) (s : cil_state) : cil_state :=
  mkState (top_item s) (height s) (local_vars s) (num_of_local_vars s) (formal_params s)
    (local_labels s) (IDENTIFIER_DECL s) (LABEL_DECL_of s) (IDENTIFIER_CLASS_DECL s)
    (IDENTIFIER_STATIC_FIELDS_DECL s) (TYPE_FIELDS s) (TYPE_ILClass s)
    (TYPE_ARRAYTYPE s) (TYPE_VALUETYPE s) (TYPE_OBJECTTYPE s) (method_index s)
    (method_count s) (cil_global_trees s) (attrs s) (current_function_decl s) v
    (current_function_body s) (compiled s) (next_uid s).
Definition set_current_function_body (v : list tree) (s : cil_state) : cil_state :=
  mkState (top_item s) (height s) (local_vars s) (num_of_local_vars s) (formal_params s)
    (local_labels s) (IDENTIFIER_DECL s) (LABEL_DECL_of s) (IDENTIFIER_CLASS_DECL s)
    (IDENTIFIER_STATIC_FIELDS_DECL s) (TYPE_FIELDS s) (TYPE_ILClass s)
    (TYPE_ARRAYTYPE s) (TYPE_VALUETYPE s) (TYPE_OBJECTTYPE s) (method_index s)
    (method_count s) (cil_global_trees s) (attrs s) (current_function_decl s)
    (current_function_locals s) v (compiled s) (next_uid s).
Definition set_compiled (v : list (decl * tree)) (s : cil_state) : cil_state :=
  mkState (top_item s) (height s) (local_vars s) (num_of_local_vars s) (formal_params s)
    (local_labels s) (IDENTIFIER_DECL s) (LABEL_DECL_of s) (IDENTIFIER_CLASS_DECL s)
    (IDENTIFIER_STATIC_FIELDS_DECL s) (TYPE_FIELDS s) (TYPE_ILClass s)
    (TYPE_ARRAYTYPE s) (TYPE_VALUETYPE s) (TYPE_OBJECTTYPE s) (method_index s)
    (method_count s) (cil_global_trees s) (attrs s) (current_function_decl s)
    (current_function_locals s) (current_function_body s) v (next_uid s).
Definition set_next_uid (v : N) (s : cil_state) : cil_state :=
  mkState (top_item s) (height s) (local_vars s) (num_of_local_vars s) (formal_params s)
    (local_labels s) (IDENTIFIER_DECL s) (LABEL_DECL_of s) (IDENTIFIER_CLASS_DECL s)
    (IDENTIFIER_STATIC_FIELDS_DECL s) (TYPE_FIELDS s) (TYPE_ILClass s)
    (TYPE_ARRAYTYPE s) (TYPE_VALUETYPE s) (TYPE_OBJECTTYPE s) (method_index s)
    (method_count s) (cil_global_trees s) (attrs s) (current_function_decl s)
    (current_function_locals s) (current_function_body s) (compiled s) v.

(** The front end's computations. *)
Abbreviation M := (comp cil_state).

(** Attributes of a declaration. *)
Definition attrs_of (s : cil_state) (uid : N) : decl_attrs :=
  default no_attrs (attrs s !! uid).

Definition update_attrs (d : decl) (f : decl_attrs -> decl_attrs) : M unit :=
  modify (fun s => set_attrs (<[DECL_UID d := f (attrs_of s (DECL_UID d))]> (attrs s)) s).

Definition set_DECL_CONTEXT (d : decl) (c : option N) : M unit :=
  update_attrs d (fun a => mkAttrs c (TREE_STATIC a) (TREE_PUBLIC a) (DECL_EXTERNAL a)
    (DECL_STATIC_CONSTRUCTOR a) (DECL_ASSEMBLER_NAME a) (DECL_ARGUMENTS a)
    (DECL_RESULT a) (DECL_SAVED_TREE a) (DECL_INITIAL a)).
Definition set_TREE_STATIC (d : decl) : M unit :=
  update_attrs d (fun a => mkAttrs (DECL_CONTEXT a) true (TREE_PUBLIC a)
    (DECL_EXTERNAL a) (DECL_STATIC_CONSTRUCTOR a) (DECL_ASSEMBLER_NAME a)
    (DECL_ARGUMENTS a) (DECL_RESULT a) (DECL_SAVED_TREE a) (DECL_INITIAL a)).
Definition set_TREE_PUBLIC (d : decl) : M unit :=
  update_attrs d (fun a => mkAttrs (DECL_CONTEXT a) (TREE_STATIC a) true
    (DECL_EXTERNAL a) (DECL_STATIC_CONSTRUCTOR a) (DECL_ASSEMBLER_NAME a)
    (DECL_ARGUMENTS a) (DECL_RESULT a) (DECL_SAVED_TREE a) (DECL_INITIAL a)).
Definition set_DECL_EXTERNAL (d : decl) : M unit :=
  update_attrs d (fun a => mkAttrs (DECL_CONTEXT a) (TREE_STATIC a) (TREE_PUBLIC a) true
    (DECL_STATIC_CONSTRUCTOR a) (DECL_ASSEMBLER_NAME a) (DECL_ARGUMENTS a)
    (DECL_RESULT a) (DECL_SAVED_TREE a) (DECL_INITIAL a)).
Definition set_DECL_STATIC_CONSTRUCTOR (d : decl) : M unit :=
  update_attrs d (fun a => mkAttrs (DECL_CONTEXT a) (TREE_STATIC a) (TREE_PUBLIC a)
    (DECL_EXTERNAL a) true (DECL_ASSEMBLER_NAME a) (DECL_ARGUMENTS a) (DECL_RESULT a)
    (DECL_SAVED_TREE a) (DECL_INITIAL a)).
Definition set_DECL_ASSEMBLER_NAME (d : decl) (n : string) : M unit :=
  update_attrs d (fun a => mkAttrs (DECL_CONTEXT a) (TREE_STATIC a) (TREE_PUBLIC a)
    (DECL_EXTERNAL a) (DECL_STATIC_CONSTRUCTOR a) (Some n) (DECL_ARGUMENTS a)
    (DECL_RESULT a) (DECL_SAVED_TREE a) (DECL_INITIAL a)).
Definition set_DECL_ARGUMENTS (d : decl) (l : list tree) : M unit :=
  update_attrs d (fun a => mkAttrs (DECL_CONTEXT a) (TREE_STATIC a) (TREE_PUBLIC a)
    (DECL_EXTERNAL a) (DECL_STATIC_CONSTRUCTOR a) (DECL_ASSEMBLER_NAME a) l
    (DECL_RESULT a) (DECL_SAVED_TREE a) (DECL_INITIAL a)).
Definition set_DECL_RESULT (d : decl) (t : tree) : M unit :=
  update_attrs d (fun a => mkAttrs (DECL_CONTEXT a) (TREE_STATIC a) (TREE_PUBLIC a)
    (DECL_EXTERNAL a) (DECL_STATIC_CONSTRUCTOR a) (DECL_ASSEMBLER_NAME a)
    (DECL_ARGUMENTS a) t (DECL_SAVED_TREE a) (DECL_INITIAL a)).
Definition set_DECL_SAVED_TREE (d : decl) (t : tree) : M unit :=
  update_attrs d (fun a => mkAttrs (DECL_CONTEXT a) (TREE_STATIC a) (TREE_PUBLIC a)
    (DECL_EXTERNAL a) (DECL_STATIC_CONSTRUCTOR a) (DECL_ASSEMBLER_NAME a)
    (DECL_ARGUMENTS a) (DECL_RESULT a) t (DECL_INITIAL a)).
Definition set_DECL_INITIAL (d : decl) (t : tree) : M unit :=
  update_attrs d (fun a => mkAttrs (DECL_CONTEXT a) (TREE_STATIC a) (TREE_PUBLIC a)
    (DECL_EXTERNAL a) (DECL_STATIC_CONSTRUCTOR a) (DECL_ASSEMBLER_NAME a)
    (DECL_ARGUMENTS a) (DECL_RESULT a) (DECL_SAVED_TREE a) t).

(** The number of a new node. *)
Definition fresh : M N :=
  n ← get next_uid; modify (set_next_uid (n + 1)%N);; mret n.

(** A lookup of an identifier's field; absent is [NULL_TREE]. *)
Definition lookup_tree (m : gmap string tree) (name : string) : tree :=
  default NULL_TREE (m !! name).

(** [TREE_TYPE (t)] and then a use of the type: both must be there. *)
Definition type_of (t : tree) : M ttype := lift "TREE_TYPE" (TREE_TYPE t).

(** ** Node constructors (tree.c) *)

Definition build_decl (code : tree_code) (name : option string) (type : option ttype)
    : M decl :=
  uid ← fresh; mret (mkDecl code uid name type false).

(** [make_node] gives side effects to statements and assignments. *)
Definition make_node_side_effects (code : tree_code) : bool :=
  bool_decide (TREE_CODE_CLASS code = tcc_statement) || bool_decide (code = MODIFY_EXPR).

Definition staticp (s : cil_state) (d : decl) : bool :=
  match decl_code d with
  | FUNCTION_DECL | LABEL_DECL => true
  | VAR_DECL => TREE_STATIC (attrs_of s (DECL_UID d)) || DECL_EXTERNAL (attrs_of s (DECL_UID d))
  | _ => false
  end.

(** [UPDATE_TITCSE] on the flags (constant, invariant, side effects). *)
Definition UPDATE_TITCSE (node : tree) (f : bool * bool * bool) : bool * bool * bool :=
  let '(tc, ti, se) := f in
  if is_null node then f
  else ((if TREE_CONSTANT node then tc else false),
        (if TREE_INVARIANT node then ti else false),
        (if TREE_SIDE_EFFECTS node then true else se)).

(** The loop over the handled components and what it ends at. *)
Fixpoint addr_expr_flags (s : cil_state) (node : tree) (f : bool * bool * bool)
    : bool * bool * bool :=
  match node with
  | EXPR ARRAY_REF _ _ a i lo sz =>
      addr_expr_flags s a
        (if bool_decide (type_code <$> TREE_TYPE a = Some ARRAY_TYPE_)
         then UPDATE_TITCSE sz (UPDATE_TITCSE lo (UPDATE_TITCSE i f)) else f)
  | EXPR COMPONENT_REF _ _ a fd off _ =>
      addr_expr_flags s a
        (if bool_decide (TREE_CODE fd = Some FIELD_DECL) then UPDATE_TITCSE off f else f)
  | EXPR INDIRECT_REF _ _ a _ _ _ => UPDATE_TITCSE a f
  | DECL d =>
      let '(tc, ti, se) := f in
      if staticp s d then f
      else if bool_decide (DECL_CONTEXT (attrs_of s (DECL_UID d))
                           = DECL_UID <$> current_function_decl s)
      then (false, ti, se) else (false, false, se)
  | _ =>
      if bool_decide (class_of node = Some tcc_constant) then f
      else let '(tc, ti, se) := f in (false, false, se || TREE_SIDE_EFFECTS node)
  end.

(** [recompute_tree_invarant_for_addr_expr] *)
Definition recompute_tree_invarant_for_addr_expr (s : cil_state) (node : tree)
    (fl : tree_flags) : tree_flags :=
  let '(tc, ti, se) := addr_expr_flags s node (true, true, false) in
  mkFlags se (readonly fl) tc ti (this_volatile fl).

(** The flags [build1] gives to a node of this code and operand. *)
Definition build1_flags (s : cil_state) (code : tree_code) (node : tree) : tree_flags :=
  let se := if is_null node then false else TREE_SIDE_EFFECTS node in
  let ro := if is_null node then false else TREE_READONLY node in
  if bool_decide (TREE_CODE_CLASS code = tcc_statement) then mkFlags true ro false false false
  else match code with
  | INDIRECT_REF => mkFlags se false false false false
  | ADDR_EXPR =>
      let fl := mkFlags se ro false false false in
      if is_null node then fl else recompute_tree_invarant_for_addr_expr s node fl
  | _ =>
      let unary := bool_decide (TREE_CODE_CLASS code = tcc_unary) && negb (is_null node) in
      mkFlags se ro (unary && TREE_CONSTANT node) (unary && TREE_INVARIANT node)
        (bool_decide (TREE_CODE_CLASS code = tcc_reference)
         && negb (is_null node) && TREE_THIS_VOLATILE node)
  end.

Definition build1 (code : tree_code) (type : option ttype) (node : tree) : M tree :=
  gcc_assert (TREE_CODE_LENGTH code =? 1) "build1";;
  fl ← get (fun s => build1_flags s code node);
  mret (EXPR code type fl node NULL_TREE NULL_TREE NULL_TREE).

(** [PROCESS_ARG] on the flags (side effects, readonly, constant, invariant). *)
Definition PROCESS_ARG (arg : tree) (f : bool * bool * bool * bool)
    : bool * bool * bool * bool :=
  let '(se, ro, tc, ti) := f in
  if is_null arg then f
  else (se || TREE_SIDE_EFFECTS arg, ro && TREE_READONLY arg,
        tc && TREE_CONSTANT arg, ti && TREE_INVARIANT arg).

(** The reference through a volatile object is volatile. *)
Definition ref_volatile (code : tree_code) (arg0 : tree) : bool :=
  bool_decide (TREE_CODE_CLASS code = tcc_reference) && negb (is_null arg0)
  && TREE_THIS_VOLATILE arg0.

(** The node [build2] makes, without the assertion on the number of operands. *)
Definition build2_node (code : tree_code) (tt : option ttype) (arg0 arg1 : tree) : tree :=
  let c := bool_decide (TREE_CODE_CLASS code = tcc_comparison)
           || bool_decide (TREE_CODE_CLASS code = tcc_binary) in
  let '(se, ro, tc, ti) :=
    PROCESS_ARG arg1 (PROCESS_ARG arg0 (make_node_side_effects code, true, c, c)) in
  EXPR code tt (mkFlags se ro tc ti (ref_volatile code arg0)) arg0 arg1 NULL_TREE NULL_TREE.

Definition build2 (code : tree_code) (tt : option ttype) (arg0 arg1 : tree) : M tree :=
  gcc_assert (TREE_CODE_LENGTH code =? 2) "build2";;
  mret (build2_node code tt arg0 arg1).

(** A call has side effects here: no function the front end declares is [const]
    or [pure]. *)
Definition build3_node (code : tree_code) (tt : option ttype) (arg0 arg1 arg2 : tree) : tree :=
  let '(se, _, _, _) :=
    PROCESS_ARG arg2 (PROCESS_ARG arg1 (PROCESS_ARG arg0
      (make_node_side_effects code, false, false, false))) in
  let se := if bool_decide (code = CALL_EXPR) then true else se in
  EXPR code tt (mkFlags se false false false (ref_volatile code arg0)) arg0 arg1 arg2 NULL_TREE.

Definition build3 (code : tree_code) (tt : option ttype) (arg0 arg1 arg2 : tree) : M tree :=
  gcc_assert (TREE_CODE_LENGTH code =? 3) "build3";;
  mret (build3_node code tt arg0 arg1 arg2).

Definition build4_node (code : tree_code) (tt : option ttype) (arg0 arg1 arg2 arg3 : tree) : tree :=
  let '(se, _, _, _) :=
    PROCESS_ARG arg3 (PROCESS_ARG arg2 (PROCESS_ARG arg1 (PROCESS_ARG arg0
      (make_node_side_effects code, false, false, false)))) in
  EXPR code tt (mkFlags se false false false (ref_volatile code arg0)) arg0 arg1 arg2 arg3.

Definition build4 (code : tree_code) (tt : option ttype) (arg0 arg1 arg2 arg3 : tree) : M tree :=
  gcc_assert (TREE_CODE_LENGTH code =? 4) "build4";;
  mret (build4_node code tt arg0 arg1 arg2 arg3).

(** [build_int_cst] keeps the value as it is given. *)
Definition build_int_cst (type : ttype) (low : Z) : tree := INTEGER_CST type low.

(** [build_empty_stmt]: a [NOP_EXPR] of type void over [size_zero_node]. *)
Definition build_empty_stmt : M tree :=
  build1 NOP_EXPR (Some VOID_TYPE) (build_int_cst (INTEGER_TYPE size_type) 0).

(** ** The statement list of the function (gimplify.c) *)

Definition append_to_statement_list_1 (t : tree) (l : list tree) : list tree := l ++ [t].

(** [append_to_statement_list (t, &current_function_body)] *)
Definition append_to_statement_list (t : tree) : M unit :=
  if negb (is_null t) && TREE_SIDE_EFFECTS t then
    modify (fun s => set_current_function_body
      (append_to_statement_list_1 t (current_function_body s)) s)
  else mret tt.

(** ** Types, codes and operands of the nodes built *)

#[global] Arguments build2_node : simpl never.
#[global] Arguments build3_node : simpl never.
#[global] Arguments build4_node : simpl never.
#[global] Arguments build1_flags : simpl never.

Lemma build2_node_shape code ty a b :
  exists fl, build2_node code ty a b = EXPR code ty fl a b NULL_TREE NULL_TREE.
Proof. unfold build2_node. case_match. repeat case_match; simplify_eq; eauto. Qed.

Lemma build3_node_shape code ty a b c :
  exists fl, build3_node code ty a b c = EXPR code ty fl a b c NULL_TREE.
Proof. unfold build3_node. case_match. repeat case_match; simplify_eq; eauto. Qed.

Lemma build4_node_shape code ty a b c d :
  exists fl, build4_node code ty a b c d = EXPR code ty fl a b c d.
Proof. unfold build4_node. case_match. repeat case_match; simplify_eq; eauto. Qed.

Lemma TREE_TYPE_build2 code ty a b : TREE_TYPE (build2_node code ty a b) = ty.
Proof. by destruct (build2_node_shape code ty a b) as [fl ->]. Qed.

Lemma TREE_TYPE_build3 code ty a b c : TREE_TYPE (build3_node code ty a b c) = ty.
Proof. by destruct (build3_node_shape code ty a b c) as [fl ->]. Qed.

Lemma TREE_TYPE_build4 code ty a b c d : TREE_TYPE (build4_node code ty a b c d) = ty.
Proof. by destruct (build4_node_shape code ty a b c d) as [fl ->]. Qed.

Lemma TREE_TYPE_set_side_effects t : TREE_TYPE (set_side_effects t) = TREE_TYPE t.
Proof. by destruct t. Qed.

Create Rewrite HintDb trees.
#[export] Hint Rewrite TREE_TYPE_build2 TREE_TYPE_build3 TREE_TYPE_build4
  TREE_TYPE_set_side_effects : trees.
