(* ===== verification/CilDecl.v ===== *)
(** * CilDecl: standard types and conversions

    Models src/gcc/cil/cil-decl.c: the type nodes that [cil_init_decl_processing]
    sets up, the type hooks and [convert]; and [save_expr] of src/gcc/tree.c.
    The services of the middle end that the front end calls -- constant folding,
    the conversions of convert.c and the sizes of types -- are the interface
    [MiddleEnd]. *)
From S2P Require Import Prelude Trees CilState.

(** ** The interface of the middle end *)

Class MiddleEnd := {
  (** [fold] of fold-const.c *)
  fold : tree -> tree;
  (** convert.c *)
  convert_to_integer : ttype -> tree -> tree;
  convert_to_pointer : ttype -> tree -> tree;
  convert_to_real : ttype -> tree -> tree;
  (** [TREE_INT_CST_LOW (TYPE_SIZE_UNIT (type))] and [size_in_bytes (type)] *)
  type_size_unit : cil_state -> ttype -> Z;
  size_in_bytes : cil_state -> ttype -> tree;
  (** Folding and conversion give an expression of the type asked for. *)
  fold_type t : TREE_TYPE (fold t) = TREE_TYPE t;
  convert_to_integer_type ty t : TREE_TYPE (convert_to_integer ty t) = Some ty;
  convert_to_pointer_type ty t : TREE_TYPE (convert_to_pointer ty t) = Some ty;
  convert_to_real_type ty t : TREE_TYPE (convert_to_real ty t) = Some ty
}.

Section cil_decl.
Context `{Target, MiddleEnd}.

(** ** Properties of types *)

Definition TYPE_PRECISION_int (k : integer_kind) : Z :=
  match k with
  | bit_type => 1
  | signed_char_type | unsigned_char_type | char_type => 8
  | short_integer_type | short_unsigned_type => 16
  | integer_type | unsigned_type | native_int_type | native_uint_type => INT_TYPE_SIZE
  | long_integer_type | long_unsigned_type => LONG_TYPE_SIZE
  | long_long_integer_type | long_long_unsigned_type => 64
  | size_type => POINTER_SIZE
  end.

Definition TYPE_UNSIGNED_int (k : integer_kind) : bool :=
  match k with
  | unsigned_char_type | short_unsigned_type | unsigned_type | long_unsigned_type
  | long_long_unsigned_type | size_type | native_uint_type | bit_type => true
  | _ => false
  end.

Definition TYPE_PRECISION (t : ttype) : Z :=
  match t with
  | INTEGER_TYPE k => TYPE_PRECISION_int k
  | BOOLEAN_TYPE => 1
  | REAL_TYPE double => if double then 64 else 32
  | POINTER_TYPE _ => POINTER_SIZE
  | _ => 0
  end.

(** The flag set on the copies [native_int_type_node], [native_uint_type_node]. *)
Definition CIL_TYPE_NATIVE (t : ttype) : bool :=
  match t with
  | INTEGER_TYPE native_int_type | INTEGER_TYPE native_uint_type => true
  | _ => false
  end.

(** ** The type nodes of [cil_init_decl_processing] *)

Definition int8_type_node := INTEGER_TYPE signed_char_type.
Definition uint8_type_node := INTEGER_TYPE unsigned_char_type.
Definition int16_type_node := INTEGER_TYPE short_integer_type.
Definition uint16_type_node := INTEGER_TYPE short_unsigned_type.
Definition integer_type_node := INTEGER_TYPE integer_type.
Definition unsigned_type_node := INTEGER_TYPE unsigned_type.
Definition int32_type_node : ttype :=
  if INT_TYPE_SIZE =? 32 then integer_type_node else INTEGER_TYPE long_integer_type.
Definition uint32_type_node : ttype :=
  if INT_TYPE_SIZE =? 32 then unsigned_type_node else INTEGER_TYPE long_unsigned_type.
Definition int64_type_node := INTEGER_TYPE long_long_integer_type.
Definition uint64_type_node := INTEGER_TYPE long_long_unsigned_type.
Definition size_type_node := INTEGER_TYPE size_type.
Definition native_int_type_node := INTEGER_TYPE native_int_type.
Definition native_uint_type_node := INTEGER_TYPE native_uint_type.
Definition cil_char_type_node := uint16_type_node.
Definition boolean_type_node := BOOLEAN_TYPE.
Definition void_type_node := VOID_TYPE.
Definition float_type_node := REAL_TYPE false.
Definition double_type_node := REAL_TYPE true.
Definition build_pointer_type (t : ttype) : ttype := POINTER_TYPE t.
Definition ptr_type_node := POINTER_TYPE VOID_TYPE.
Definition null_pointer_node : tree := INTEGER_CST ptr_type_node 0.
Definition integer_zero_node : tree := INTEGER_CST integer_type_node 0.
Definition integer_one_node : tree := INTEGER_CST integer_type_node 1.

(** ** The type hooks *)

Definition cil_signed_or_unsigned_type (unsignedp : bool) (type : ttype) : M ttype :=
  if bool_decide (type_code type = INTEGER_TYPE_) && CIL_TYPE_NATIVE type then
    mret (if unsignedp then native_uint_type_node else native_int_type_node)
  else if TYPE_PRECISION type =? 8 then
    mret (if unsignedp then uint8_type_node else int8_type_node)
  else if TYPE_PRECISION type =? 16 then
    mret (if unsignedp then uint16_type_node else int16_type_node)
  else if TYPE_PRECISION type =? 32 then
    mret (if unsignedp then uint32_type_node else int32_type_node)
  else if TYPE_PRECISION type =? 64 then
    mret (if unsignedp then uint64_type_node else int64_type_node)
  else internal_error "cil_signed_or_unsigned_type(): type not implemented".

Definition cil_signed_type (type : ttype) : M ttype :=
  cil_signed_or_unsigned_type false type.
Definition cil_unsigned_type (type : ttype) : M ttype :=
  cil_signed_or_unsigned_type true type.

Definition cil_type_for_size (bits : Z) (unsignedp : bool) : M ttype :=
  if bits =? TYPE_PRECISION int8_type_node then
    mret (if unsignedp then uint8_type_node else int8_type_node)
  else if bits =? TYPE_PRECISION int16_type_node then
    mret (if unsignedp then uint16_type_node else int16_type_node)
  else if bits =? TYPE_PRECISION int32_type_node then
    mret (if unsignedp then uint32_type_node else int32_type_node)
  else if bits =? TYPE_PRECISION int64_type_node then
    mret (if unsignedp then uint64_type_node else int64_type_node)
  else internal_error "function cil_type_for_size(): size not implemented".

(** ** Conversions *)

(** [fold] dereferences its argument. *)
Definition fold_tree (t : tree) : M tree :=
  if is_null t then fail (Undefined "fold") else mret (fold t).

Definition convert (type : ttype) (expr : tree) : M tree :=
  match type_code type with
  | INTEGER_TYPE_ => _ ← type_of expr; mret (fold (convert_to_integer type expr))
  | BOOLEAN_TYPE_ =>
      from ← type_of expr;
      match type_code from with
      | INTEGER_TYPE_ =>
          t ← build2 NE_EXPR (Some boolean_type_node) expr integer_zero_node;
          fold_tree t
      | POINTER_TYPE_ =>
          t ← build2 NE_EXPR (Some boolean_type_node) expr null_pointer_node;
          fold_tree t
      | BOOLEAN_TYPE_ => mret expr
      | _ => internal_error "convert to bool: TREE_CODE not implemented"
      end
  | POINTER_TYPE_ => _ ← type_of expr; mret (fold (convert_to_pointer type expr))
  | REAL_TYPE_ => _ ← type_of expr; mret (fold (convert_to_real type expr))
  | RECORD_TYPE_ =>
      from ← type_of expr;
      if bool_decide (from = type) then mret expr
      else internal_error "convert(): unsupported struct conversion"
  | _ => internal_error "function convert(): conversion not implemented"
  end.

(** ** [save_expr] (tree.c) *)

Fixpoint skip_non_lvalue (expr : tree) : tree :=
  match expr with
  | EXPR NON_LVALUE_EXPR _ _ a _ _ _ => skip_non_lvalue a
  | _ => expr
  end.

Fixpoint skip_arithmetic (inner : tree) : tree :=
  match inner with
  | EXPR c _ _ a b _ _ =>
      if bool_decide (TREE_CODE_CLASS c = tcc_unary) then skip_arithmetic a
      else if bool_decide (TREE_CODE_CLASS c = tcc_binary) then
        if TREE_INVARIANT b then skip_arithmetic a
        else if TREE_INVARIANT a then skip_arithmetic b
        else inner
      else inner
  | _ => inner
  end.

Definition skip_simple_arithmetic (expr : tree) : tree :=
  skip_arithmetic (skip_non_lvalue expr).

(** The front end creates no [ERROR_MARK] and no [PLACEHOLDER_EXPR]. *)
Definition save_expr (expr : tree) : M tree :=
  t ← fold_tree expr;
  let inner := skip_simple_arithmetic t in
  if TREE_INVARIANT inner
     || (TREE_READONLY inner && negb (TREE_SIDE_EFFECTS inner))
     || bool_decide (TREE_CODE inner = Some SAVE_EXPR)
  then mret t
  else
    node ← fresh;
    fl ← get (fun s => build1_flags s SAVE_EXPR t);
    mret (SAVE node (TREE_TYPE expr)
            (mkFlags true (readonly fl) (constant fl) true (this_volatile fl)) t).

(** ** Properties *)

Lemma int32_precision : TYPE_PRECISION int32_type_node = 32.
Proof.
  unfold int32_type_node. destruct (Z.eqb_spec INT_TYPE_SIZE 32) as [E |]; [done |].
  cbn. by destruct has_int32.
Qed.

Lemma uint32_precision : TYPE_PRECISION uint32_type_node = 32.
Proof.
  unfold uint32_type_node. destruct (Z.eqb_spec INT_TYPE_SIZE 32) as [E |]; [done |].
  cbn. by destruct has_int32.
Qed.

Lemma int32_code : type_code int32_type_node = INTEGER_TYPE_.
Proof. unfold int32_type_node. by case_match. Qed.

Lemma int32_not_native : CIL_TYPE_NATIVE int32_type_node = false.
Proof. unfold int32_type_node. by case_match. Qed.

Lemma fold_not_null t ty : TREE_TYPE t = Some ty -> is_null (fold t) = false.
Proof.
  intros Ht. pose proof (fold_type t) as Hf. rewrite Ht in Hf.
  by destruct (fold t).
Qed.

(** What [convert] gives has the type asked for, a record being converted
    only to itself. *)
Lemma convert_wp type expr s :
  wp (fun _ => True) (convert type expr)
    (fun t s' => TREE_TYPE t = Some type /\ s' = s) s.
Proof.
  unfold convert, fold_tree, build2, type_of.
  destruct type; cbn [type_code]; wp_run; split; try done;
    rewrite ?fold_type, ?convert_to_integer_type, ?convert_to_pointer_type,
      ?convert_to_real_type; autorewrite with trees; try done.
  - by destruct a.
  - case_bool_decide; congruence.
Qed.

End cil_decl.

(** ** Instances

    Three targets the compiler can be configured for, and a middle end that
    folds nothing and writes every conversion out. *)

Definition i386 : Target.
Proof. refine {| INT_TYPE_SIZE := 32; LONG_TYPE_SIZE := 32; POINTER_SIZE := 32 |}; lia. Defined.
Definition x86_64 : Target.
Proof. refine {| INT_TYPE_SIZE := 32; LONG_TYPE_SIZE := 64; POINTER_SIZE := 64 |}; lia. Defined.
(** A target with 16-bit [int]. *)
Definition int16_target : Target.
Proof. refine {| INT_TYPE_SIZE := 16; LONG_TYPE_SIZE := 32; POINTER_SIZE := 16 |}; lia. Defined.

Definition nop_to (ty : ttype) (t : tree) : tree :=
  EXPR NOP_EXPR (Some ty)
    (mkFlags (TREE_SIDE_EFFECTS t) (TREE_READONLY t) (TREE_CONSTANT t) (TREE_INVARIANT t) false)
    t NULL_TREE NULL_TREE NULL_TREE.

Definition plain_middle_end : MiddleEnd :=
  {| fold := fun t => t;
     convert_to_integer := nop_to;
     convert_to_pointer := nop_to;
     convert_to_real := nop_to;
     type_size_unit := fun _ _ => 4;
     size_in_bytes := fun _ _ => INTEGER_CST (INTEGER_TYPE size_type) 4;
     fold_type := fun _ => eq_refl;
     convert_to_integer_type := fun _ _ => eq_refl;
     convert_to_pointer_type := fun _ _ => eq_refl;
     convert_to_real_type := fun _ _ => eq_refl |}.
