(* ===== verification/EvalStack.v ===== *)
(** * EvalStack: the compile-time evaluation stack

    Models src/gcc/cil/stack.c.  The linked list of items is [top_item], the
    top one first, and [height] counts them. *)
From S2P Require Import Prelude Trees CilState CilDecl.

Section stack.
Context `{Target, MiddleEnd}.

(** The case of [INTEGER_TYPE] falls through to the types kept as they are. *)
Definition convert_to_stack_type (node : tree) : M tree :=
  if is_null node then mret node
  else
    type ← type_of node;
    match type_code type with
    | INTEGER_TYPE_ =>
        node ← (if (TYPE_PRECISION type <? 32) && negb (CIL_TYPE_NATIVE type)
                then convert int32_type_node node else mret node);
        if 32 <? TYPE_PRECISION type then convert int64_type_node node else mret node
    | BOOLEAN_TYPE_ | POINTER_TYPE_ | REAL_TYPE_ | RECORD_TYPE_ => mret node
    | _ => internal_error "stack type not supported yet"
    end.

Definition integral_type (c : tree_code) : tree_code :=
  if bool_decide (c = BOOLEAN_TYPE_) then INTEGER_TYPE_ else c.

Definition convert_item (type : option ttype) (node : tree) : M tree :=
  match type with
  | Some type =>
      if negb (is_null node) && bool_decide (Some type <> TREE_TYPE node) then
        nt ← type_of node;
        let from := integral_type (type_code nt) in
        let to := integral_type (type_code type) in
        if bool_decide (type = boolean_type_node) then convert type node
        else if bool_decide (from = INTEGER_TYPE_) && bool_decide (to = REAL_TYPE_) then
          build1 FLOAT_EXPR (Some type) node
        else if bool_decide (from = REAL_TYPE_) && bool_decide (to = INTEGER_TYPE_) then
          build1 FIX_TRUNC_EXPR (Some type) node
        else if bool_decide (from = INTEGER_TYPE_) && bool_decide (to = POINTER_TYPE_) then
          build1 CONVERT_EXPR (Some type) node
        else if bool_decide (from = POINTER_TYPE_) && bool_decide (to = INTEGER_TYPE_) then
          build1 CONVERT_EXPR (Some type) node
        else if bool_decide (from = to) then build1 CONVERT_EXPR (Some type) node
        else internal_error "Cannot convert from %s to %s"
      else mret node
  | None => mret node
  end.

(** [top_item->node] and [top_item->previous] *)
Definition top_node : M (tree * list tree) :=
  l ← get top_item;
  match l with
  | node :: previous => mret (node, previous)
  | [] => fail (Undefined "top_item")
  end.

Definition stack_convert_top_item (type : ttype) : M unit :=
  h ← get height;
  if 0 <? h then
    '(node, previous) ← top_node;
    node ← convert_item (Some type) node;
    modify (set_top_item (node :: previous))
  else mret tt.

Definition stack_push (node : tree) : M unit :=
  node ← convert_to_stack_type node;
  modify (fun s => set_top_item (node :: top_item s) s);;
  modify (fun s => set_height (height s + 1) s).

Definition stack_pop (type : option ttype) : M tree :=
  h ← get height;
  if 0 <? h then
    '(node, previous) ← top_node;
    modify (set_top_item previous);;
    modify (fun s => set_height (height s - 1) s);;
    convert_item type node
  else mret NULL_TREE.

Definition stack_top (type : option ttype) : M tree :=
  h ← get height;
  if 0 <? h then
    '(node, _) ← top_node;
    convert_item type node
  else mret NULL_TREE.

(** The item [num - 1] links below the top one. *)
Definition stack_item (num : Z) : M tree :=
  l ← get top_item;
  array_get "stack item" l (Z.max num 1 - 1).

Definition stack_elem (num : Z) (type : option ttype) : M tree :=
  h ← get height;
  if 0 <? h then
    node ← stack_item num;
    convert_item type node
  else mret NULL_TREE.

Definition stack_change_elem (num : Z) (new_elem : tree) : M unit :=
  h ← get height;
  if 0 <? h then
    _ ← stack_item num;
    new_elem ← convert_to_stack_type new_elem;
    modify (fun s =>
      set_top_item (<[Z.to_nat (Z.max num 1 - 1) := new_elem]> (top_item s)) s)
  else mret tt.

Definition stack_height : M Z := get height.

(** ** The invariant *)

Definition stack_ok (s : cil_state) : Prop :=
  height s = Z.of_nat (length (top_item s)).

(** The types an item has after it was pushed: no integer narrower than
    32 bits but [native int]; a wider one is [int64]. *)
Definition is_stack_type (t : ttype) : Prop :=
  match t with
  | INTEGER_TYPE k =>
      CIL_TYPE_NATIVE t = true /\ INT_TYPE_SIZE <= 32
      \/ TYPE_PRECISION t = 32 \/ t = int64_type_node
  | BOOLEAN_TYPE | REAL_TYPE _ | POINTER_TYPE _ | RECORD_TYPE _ => True
  | _ => False
  end.

Context (E : failure -> Prop).

(** [convert] and the conversions of items do not touch the state. *)
Lemma convert_keeps type expr s Q :
  (forall f, E f) ->
  (forall t, TREE_TYPE t = Some type -> Q t s) -> wp E (convert type expr) Q s.
Proof.
  intros HE HQ. pose proof (convert_wp type expr s) as Hc. unfold wp in *.
  destruct (convert type expr s); [| auto]. destruct Hc as [Ht ->]. auto.
Qed.

Lemma build1_wp code ty node Q s :
  (forall f, E f) ->
  Q (EXPR code ty (build1_flags s code node) node NULL_TREE NULL_TREE NULL_TREE) s ->
  wp E (build1 code ty node) Q s.
Proof. intros HE HQ. unfold build1. repeat (wp_step; auto). Qed.

Lemma convert_to_stack_type_wp node s (Q : tree -> cil_state -> Prop) :
  (forall f, E f) ->
  (forall t, (is_null node = true -> t = NULL_TREE) ->
     (is_null node = false -> exists ty, TREE_TYPE t = Some ty /\ is_stack_type ty) ->
     (forall ty, TREE_TYPE node = Some ty -> is_stack_type ty ->
        ty <> int64_type_node -> t = node) ->
     Q t s) ->
  wp E (convert_to_stack_type node) Q s.
Proof.
  intros HE HQ. unfold convert_to_stack_type, type_of. wp_step.
  { apply HQ; [by destruct node | congruence | done]. }
  wp_step. wp_step; [| auto]. rename a into ty.
  destruct ty; cbn [type_code]; try (apply wp_ret, HQ; [congruence | intros _; by eexists; split; [eassumption |] | done]);
    try (apply wp_fail; auto).
  wp_step. destruct (CIL_TYPE_NATIVE (INTEGER_TYPE k)) eqn:Hn;
    destruct (Z.ltb_spec (TYPE_PRECISION (INTEGER_TYPE k)) 32) as [Hl | Hl];
    cbn [andb negb].
  - wp_step. wp_step; [lia |]. wp_step. apply HQ; [congruence | | done].
    intros _. eexists; split; [done |]. left. split; [done |].
    destruct k; try discriminate; cbn in Hl; lia.
  - wp_step. wp_step.
    + apply convert_keeps; [done |]. intros t Ht. apply HQ; [congruence | |].
      * intros _. exists int64_type_node. split; [done |]. right; by right.
      * intros ty Hty Hst Hne. simplify_eq. destruct Hst as [[_ ?] | [? | ?]]; [| lia | done].
        destruct k; try discriminate; cbn in *; lia.
    + wp_step. apply HQ; [congruence | | done]. intros _. eexists; split; [done |].
      right; left. lia.
  - apply convert_keeps; [done |]. intros t Ht. wp_step; [lia |]. wp_step.
    apply HQ; [congruence | |].
    + intros _. exists int32_type_node. split; [done |].
      pose proof int32_code. pose proof int32_precision.
      destruct int32_type_node; try discriminate. right; by left.
    + intros ty Hty Hst _. simplify_eq. destruct Hst as [[? _] | [? | ?]]; [congruence | lia |].
      unfold int64_type_node in *. simplify_eq.
  - wp_step. wp_step.
    + apply convert_keeps; [done |]. intros t Ht. apply HQ; [congruence | |].
      * intros _. exists int64_type_node. split; [done |]. right; by right.
      * intros ty Hty Hst Hne. simplify_eq. destruct Hst as [[? _] | [? | ?]]; [congruence | lia | done].
    + wp_step. apply HQ; [congruence | | done]. intros _. eexists; split; [done |].
      right; left. lia.
Qed.

Lemma convert_item_wp type node s (Q : tree -> cil_state -> Prop) :
  (forall f, E f) ->
  (forall t, is_null t = is_null node ->
     (type = None -> t = node) ->
     (forall ty, type = Some ty -> is_null node = false -> TREE_TYPE t = Some ty) ->
     (type = TREE_TYPE node -> t = node) -> Q t s) ->
  wp E (convert_item type node) Q s.
Proof.
  intros HE HQ. unfold convert_item. destruct type as [ty |];
    [| apply wp_ret, HQ; done || congruence].
  wp_step.
  - apply andb_true_iff in H1 as [Hn Hty]. rewrite negb_true_iff in Hn.
    apply bool_decide_eq_true in Hty.
    assert (forall t, TREE_TYPE t = Some ty -> Q t s) as HQ'.
    { intros t Ht. apply HQ; [| done | congruence | done].
      rewrite Hn. by destruct t. }
    unfold type_of. repeat first
      [ progress cbv zeta
      | apply convert_keeps; [done | intros t Ht; by apply HQ']
      | apply build1_wp; [done | by apply HQ']
      | wp_step; auto ].
  - wp_step. apply HQ; try done. intros ty' Hty' Hn. simplify_eq.
    rewrite Hn in H1. cbn in H1. by apply bool_decide_eq_false, dec_stable in H1.
Qed.

End stack.
