(* ===== verification/Records.v ===== *)
(** * Records: record types, their fields and the structures of the Mono runtime

    Models the record part of src/gcc/cil/build_trees.c, all of
    src/gcc/cil/mono_structs.c, and [cil_init_decl_processing] of
    src/gcc/cil/cil-decl.c. *)
From S2P Require Import Prelude Trees CilState CilDecl.

Section records.
Context `{Target, MiddleEnd}.

(** ** Records (build_trees.c) *)

Definition make_record : M ttype := n ← fresh; mret (RECORD_TYPE n).

(** The fields of a type, which must be a record. *)
Definition fields_of (record : ttype) : M (list field) :=
  match record with
  | RECORD_TYPE n => get (fun s => default [] (TYPE_FIELDS s !! n))
  | _ => fail (Undefined "TYPE_FIELDS")
  end.

Definition set_fields (record : ttype) (l : list field) : M unit :=
  match record with
  | RECORD_TYPE n => modify (fun s => set_TYPE_FIELDS (<[n := l]> (TYPE_FIELDS s)) s)
  | _ => fail (Undefined "TYPE_FIELDS")
  end.

(** [DECL_CONTEXT (field)] is the record in whose list the field is. *)
Definition add_field (record type : ttype) (context : option ttype) (name : string)
    : M decl :=
  rec_fields ← fields_of record;
  field ← build_decl FIELD_DECL (Some name) (Some type);
  set_fields record (rec_fields ++ [mkField field context]);;
  mret field.

(** [name == DECL_NAME (field) && context == DECL_FCONTEXT (field)] *)
Definition field_is (context : option ttype) (name : string) (f : field) : bool :=
  bool_decide (DECL_NAME (field_decl f) = Some name)
  && bool_decide (context = DECL_FCONTEXT f).

Definition lookup_field_decl (record : ttype) (context : option ttype) (name : string)
    : M decl :=
  l ← fields_of record;
  match List.find (field_is context name) l with
  | Some f => mret (field_decl f)
  | None => internal_error "field '%s' not found"
  end.

(** The loop follows [TREE_CHAIN] [index - 1] times. *)
Definition lookup_field_decl_ind (record : ttype) (index : Z) : M decl :=
  l ← fields_of record;
  match l with
  | [] => fail (Undefined "TREE_CHAIN")
  | _ =>
      match l !! Z.to_nat (index - 1) with
      | Some f => mret (field_decl f)
      | None => internal_error "field index out of range"
      end
  end.

(** ** The structures of the runtime (mono_structs.c) *)

Definition mono_type (f : mono_types -> ttype) : M ttype :=
  get (fun s => f (cil_global_trees s)).
Definition ptr_mono_class_type_node : M ttype :=
  t ← mono_type mono_class_type_node; mret (build_pointer_type t).
Definition ptr_mono_vtable_type_node : M ttype :=
  t ← mono_type mono_vtable_type_node; mret (build_pointer_type t).

Definition create_struct_mono_vtable : M ttype :=
  mono_vtable_type ← make_record;
  klass ← ptr_mono_class_type_node;
  add_field mono_vtable_type klass None "klass";;
  add_field mono_vtable_type ptr_type_node None "gc_descr";;
  add_field mono_vtable_type ptr_type_node None "domain";;
  add_field mono_vtable_type ptr_type_node None "data";;
  add_field mono_vtable_type ptr_type_node None "type";;
  add_field mono_vtable_type uint16_type_node None "max_interface_id";;
  add_field mono_vtable_type uint8_type_node None "rank";;
  add_field mono_vtable_type (INTEGER_TYPE char_type) None "remote_initialized";;
  add_field mono_vtable_type (ARRAY_TYPE ptr_type_node) None "vtable";;
  mret mono_vtable_type.

Definition add_mono_class_fields (mono_class_type : ttype) : M ttype :=
  ptr_class ← ptr_mono_class_type_node;
  member_info ← mono_type mono_class_member_info_type_node;
  runtime_info ← mono_type mono_class_runtime_info_type_node;
  add_field mono_class_type (INTEGER_TYPE bit_type) None "inited";;
  add_field mono_class_type ptr_class None "parent";;
  add_field mono_class_type uint16_type_node None "interface_count";;
  add_field mono_class_type uint16_type_node None "interface_id";;
  add_field mono_class_type uint16_type_node None "max_interface_id";;
  add_field mono_class_type
    (build_pointer_type (ARRAY_TYPE native_int_type_node)) None "interface_offsets";;
  add_field mono_class_type ptr_class None "interfaces";;
  add_field mono_class_type native_int_type_node None "instance_size";;
  add_field mono_class_type native_int_type_node None "vtable_size";;
  add_field mono_class_type uint32_type_node None "flags";;
  add_field mono_class_type member_info None "field";;
  add_field mono_class_type member_info None "method";;
  add_field mono_class_type member_info None "property";;
  add_field mono_class_type member_info None "event";;
  add_field mono_class_type (build_pointer_type runtime_info) None "runtime_info";;
  mret mono_class_type.

Definition create_struct_mono_class_member_info : M ttype :=
  member_info_type ← make_record;
  add_field member_info_type uint32_type_node None "first";;
  add_field member_info_type uint32_type_node None "count";;
  mret member_info_type.

Definition create_struct_mono_class_runtime_info : M ttype :=
  mono_class_runtime_info_type ← make_record;
  add_field mono_class_runtime_info_type uint16_type_node None "max_domain";;
  add_field mono_class_runtime_info_type (ARRAY_TYPE ptr_type_node) None "domain_vtables";;
  mret mono_class_runtime_info_type.

Definition add_mono_obj_fields (record : ttype) : M unit :=
  vtable ← ptr_mono_vtable_type_node;
  add_field record vtable None "__vtable";;
  add_field record ptr_type_node None "__synchronisation";;
  mret tt.

Definition add_mono_array_fields (record_type : ttype) : M unit :=
  add_field record_type ptr_type_node None "__bounds";;
  add_field record_type size_type_node None "__max_length";;
  mret tt.

Definition add_mono_string_fields (record : ttype) : M unit :=
  add_field record size_type_node None "length";;
  add_field record (ARRAY_TYPE int16_type_node) None "chars";;
  mret tt.

(** ** Start of a compilation (cil-decl.c) *)

Definition set_mono (f : mono_types -> mono_types) : M unit :=
  modify (fun s => set_cil_global_trees (f (cil_global_trees s)) s).

(** The standard types are the constants of CilDecl; the records are built
    here, in the order of the code. *)
Definition cil_init_decl_processing : M unit :=
  modify (set_current_function_decl None);;
  runtime_info ← create_struct_mono_class_runtime_info;
  set_mono (fun m => mkMono runtime_info (mono_class_member_info_type_node m)
    (mono_class_type_node m) (mono_vtable_type_node m) (mono_string_type_node m));;
  member_info ← create_struct_mono_class_member_info;
  set_mono (fun m => mkMono (mono_class_runtime_info_type_node m) member_info
    (mono_class_type_node m) (mono_vtable_type_node m) (mono_string_type_node m));;
  mono_class ← make_record;
  set_mono (fun m => mkMono (mono_class_runtime_info_type_node m)
    (mono_class_member_info_type_node m) mono_class (mono_vtable_type_node m)
    (mono_string_type_node m));;
  mono_class ← add_mono_class_fields mono_class;
  vtable ← create_struct_mono_vtable;
  set_mono (fun m => mkMono (mono_class_runtime_info_type_node m)
    (mono_class_member_info_type_node m) (mono_class_type_node m) vtable
    (mono_string_type_node m));;
  string ← make_record;
  set_mono (fun m => mkMono (mono_class_runtime_info_type_node m)
    (mono_class_member_info_type_node m) (mono_class_type_node m)
    (mono_vtable_type_node m) string);;
  add_mono_obj_fields string;;
  add_mono_string_fields string.

(** The globals before the front end starts. *)
Definition start_state : cil_state :=
  mkState [] 0 (replicate 100 NULL_TREE) 0 (replicate 10 NULL_TREE) [] ∅ ∅ ∅ ∅ ∅ ∅ []
    ∅ [] ∅ ∅ (mkMono VOID_TYPE VOID_TYPE VOID_TYPE VOID_TYPE VOID_TYPE) ∅ None [] [] [] 0.

(** ** Objects and arrays *)

(** [create_class_decl]: the record of a class, made once. *)
Definition create_class_decl (klass : N) (class_name : string) : M ttype :=
  o ← get (fun s => IDENTIFIER_CLASS_DECL s !! class_name);
  match o with
  | Some class_decl => mret class_decl
  | None =>
      class_decl ← make_record;
      modify (fun s => set_IDENTIFIER_CLASS_DECL
        (<[class_name := class_decl]> (IDENTIFIER_CLASS_DECL s)) s);;
      (match class_decl with
       | RECORD_TYPE n => modify (fun s => set_TYPE_ILClass (<[n := klass]> (TYPE_ILClass s)) s)
       | _ => mret tt
       end);;
      add_mono_obj_fields class_decl;;
      mret class_decl
  end.

Definition create_value_decl : M ttype := make_record.

(** [TYPE_VALUETYPE] of the record of a class. *)
Definition get_TYPE_VALUETYPE (class_decl : ttype) : M (option ttype) :=
  match class_decl with
  | RECORD_TYPE n => get (fun s => TYPE_VALUETYPE s !! n)
  | _ => fail (Undefined "TYPE_VALUETYPE")
  end.
Definition set_value_type (class_decl value : ttype) : M unit :=
  match class_decl with
  | RECORD_TYPE n =>
      modify (fun s => set_TYPE_VALUETYPE (<[n := value]> (TYPE_VALUETYPE s)) s)
  | _ => fail (Undefined "TYPE_VALUETYPE")
  end;;
  modify (fun s => set_TYPE_OBJECTTYPE ((value, class_decl) :: TYPE_OBJECTTYPE s) s).

Definition create_static_fields_decl (klass : N) (class_name : string) : M ttype :=
  s_fields_decl ← make_record;
  (match s_fields_decl with
   | RECORD_TYPE n => modify (fun s => set_TYPE_ILClass (<[n := klass]> (TYPE_ILClass s)) s)
   | _ => mret tt
   end);;
  modify (fun s => set_IDENTIFIER_STATIC_FIELDS_DECL
    (<[class_name := s_fields_decl]> (IDENTIFIER_STATIC_FIELDS_DECL s)) s);;
  mret s_fields_decl.

(** The array class of an element type; [DECL_ALIGN] and the layout are left
    to the middle end. *)
Definition create_array_decl (elem_type : ttype) : M ttype :=
  array_decl ← make_record;
  modify (fun s => set_TYPE_ARRAYTYPE ((elem_type, array_decl) :: TYPE_ARRAYTYPE s) s);;
  add_mono_obj_fields array_decl;;
  add_mono_array_fields array_decl;;
  add_field array_decl elem_type None "__vector";;
  mret array_decl.

(** ** Properties *)

(** The fields of a record in a state. *)
Definition fields_in (s : cil_state) (record : ttype) : list field :=
  match record with
  | RECORD_TYPE n => default [] (TYPE_FIELDS s !! n)
  | _ => []
  end.

Definition is_record (t : ttype) : bool :=
  match t with RECORD_TYPE _ => true | _ => false end.

(** [add_field] puts a new field of the given name and type last and leaves
    the other records alone. *)
Lemma add_field_eq record type context name s :
  is_record record = true ->
  exists s', add_field record type context name s
    = Done (mkDecl FIELD_DECL (next_uid s) (Some name) (Some type) false) s' /\
  fields_in s' record = fields_in s record ++
    [mkField (mkDecl FIELD_DECL (next_uid s) (Some name) (Some type) false) context] /\
  (forall r, r <> record -> fields_in s' r = fields_in s r).
Proof.
  intros Hr. destruct record; try done. eexists. split; [reflexivity |].
  cbn. rewrite lookup_insert_eq. split; [done |].
  intros [] Hne; try done. cbn. rewrite lookup_insert_ne; [done | congruence].
Qed.

Lemma lookup_field_decl_eq record context name s f :
  is_record record = true ->
  List.find (field_is context name) (fields_in s record) = Some f ->
  lookup_field_decl record context name s = Done (field_decl f) s.
Proof.
  intros Hr Hf. destruct record; try done.
  unfold lookup_field_decl, fields_of, mbind, comp_bind, get, fields_in in *. by rewrite Hf.
Qed.

Lemma find_app {A} (f : A -> bool) l k :
  List.find f (l ++ k) = match List.find f l with Some x => Some x | None => List.find f k end.
Proof. induction l as [| x l IH]; [done |]. cbn. by destruct (f x). Qed.

(** A field added under a name and declaring class is found under them
    with its type, unless the record already has a field of that name and
    class, which then stays the one found; fields that were found before are
    found still, so a class can hide a field of its base class. *)
Theorem add_field_lookup record type context name s :
  is_record record = true ->
  exists f s', add_field record type context name s = Done f s' /\
    decl_type f = Some type /\
    lookup_field_decl record context name s'
      = Done (match List.find (field_is context name) (fields_in s record) with
              | Some g => field_decl g | None => f end) s' /\
    (forall c n g, List.find (field_is c n) (fields_in s record) = Some g ->
       lookup_field_decl record c n s' = Done (field_decl g) s') /\
    (forall c n, (c, n) <> (context, name) ->
       List.find (field_is c n) (fields_in s record) = None ->
       lookup_field_decl record c n s' = Failed (Internal_error "field '%s' not found")).
Proof.
  intros Hr. destruct (add_field_eq record type context name s Hr) as (s' & Ha & Hf & _).
  eexists _, s'. split; [exact Ha |]. split; [done |]. split_and!.
  - destruct (List.find _ (fields_in s record)) as [g |] eqn:Hg.
    + apply lookup_field_decl_eq; [done |]. by rewrite Hf, find_app, Hg.
    + apply (lookup_field_decl_eq _ _ _ _ (mkField _ context)); [done |].
      rewrite Hf, find_app, Hg. cbn. unfold field_is. cbn. by rewrite !bool_decide_true.
  - intros c n g Hg. apply lookup_field_decl_eq; [done |]. by rewrite Hf, find_app, Hg.
  - intros c n Hne Hnone. destruct record; try done.
    unfold lookup_field_decl, fields_of, mbind, comp_bind, get.
    change (default [] (TYPE_FIELDS s' !! node)) with (fields_in s' (RECORD_TYPE node)).
    rewrite Hf, find_app, Hnone. cbn.
    unfold field_is. cbn. repeat case_bool_decide; try done. congruence.
Qed.

(** The members that the compiled code reaches in the runtime structures. *)
Definition runtime_members (s : cil_state) : list (ttype * string) :=
  let m := cil_global_trees s in
  [(mono_vtable_type_node m, "klass"); (mono_vtable_type_node m, "data");
   (mono_vtable_type_node m, "vtable"); (mono_class_type_node m, "parent");
   (mono_class_type_node m, "interface_count"); (mono_class_type_node m, "interface_id");
   (mono_class_type_node m, "interfaces"); (mono_class_type_node m, "instance_size");
   (mono_class_type_node m, "vtable_size"); (mono_class_type_node m, "flags");
   (mono_class_type_node m, "method"); (mono_class_type_node m, "runtime_info");
   (mono_class_member_info_type_node m, "first");
   (mono_class_member_info_type_node m, "count");
   (mono_class_runtime_info_type_node m, "max_domain");
   (mono_class_runtime_info_type_node m, "domain_vtables");
   (mono_string_type_node m, "__vtable"); (mono_string_type_node m, "chars")]%string.

Definition found (s : cil_state) (m : ttype * string) : bool :=
  match lookup_field_decl m.1 None m.2 s with Done _ _ => true | Failed _ => false end.

(** The state after initialisation. *)
Definition init_state : cil_state :=
  match cil_init_decl_processing start_state with
  | Done _ s => s
  | Failed _ => start_state
  end.

Lemma init_state_eq : cil_init_decl_processing start_state = Done tt init_state.
Proof.
  assert (match cil_init_decl_processing start_state with
          | Done _ _ => true | Failed _ => false end = true) as Hd
    by (vm_compute; reflexivity).
  unfold init_state. by destruct (cil_init_decl_processing start_state) as [[] s | f].
Qed.

Lemma init_records :
  cil_global_trees init_state
  = mkMono (RECORD_TYPE 0) (RECORD_TYPE 3) (RECORD_TYPE 6) (RECORD_TYPE 22) (RECORD_TYPE 32).
Proof. vm_compute. reflexivity. Qed.

(** Initialisation ends, in a state where the five runtime structures
    are distinct records, every member that the code generator looks up is
    there, and the table of methods is the last field of [MonoVTable], after
    which the methods of a class are laid out. *)
Theorem cil_init_runtime :
  exists s, cil_init_decl_processing start_state = Done tt s /\
    NoDup [mono_class_runtime_info_type_node (cil_global_trees s);
           mono_class_member_info_type_node (cil_global_trees s);
           mono_class_type_node (cil_global_trees s);
           mono_vtable_type_node (cil_global_trees s);
           mono_string_type_node (cil_global_trees s)] /\
    forallb (found s) (runtime_members s) = true /\
    (field_decl <$> last (fields_in s (mono_vtable_type_node (cil_global_trees s))))
      ≫= DECL_NAME = Some "vtable"%string.
Proof.
  exists init_state. split; [exact init_state_eq |].
  split; [| split; vm_compute; reflexivity].
  rewrite init_records. cbn.
  repeat (apply NoDup_cons; split; [rewrite ?not_elem_of_cons; repeat split;
    try congruence; apply not_elem_of_nil |]). constructor.
Qed.

(** A field added changes the fields of its record only. *)
Lemma add_field_wp (E : failure -> Prop) record type context name s
    (Q : decl -> cil_state -> Prop) :
  (forall f, E f) ->
  (forall d s', DECL_NAME d = Some name ->
     fields_in s' record = fields_in s record ++ [mkField d context] ->
     IDENTIFIER_CLASS_DECL s' = IDENTIFIER_CLASS_DECL s ->
     top_item s' = top_item s -> height s' = height s -> Q d s') ->
  wp E (add_field record type context name) Q s.
Proof.
  intros HE HQ. destruct record; try apply HE. apply HQ; try done.
  cbn. by rewrite lookup_insert_eq.
Qed.

Definition field_names (s : cil_state) (record : ttype) : list (option string) :=
  map (fun f => DECL_NAME (field_decl f)) (fields_in s record).

Lemma add_mono_obj_fields_wp record s (Q : unit -> cil_state -> Prop) :
  (forall s', field_names s' record
       = field_names s record ++ [Some "__vtable"; Some "__synchronisation"]%string ->
     IDENTIFIER_CLASS_DECL s' = IDENTIFIER_CLASS_DECL s ->
     top_item s' = top_item s -> height s' = height s -> Q tt s') ->
  wp (fun _ => True) (add_mono_obj_fields record) Q s.
Proof.
  intros HQ. unfold add_mono_obj_fields, ptr_mono_vtable_type_node, mono_type.
  repeat wp_step. apply add_field_wp; [done |]. intros d1 s1 N1 F1 C1 T1 H1'.
  wp_step. apply add_field_wp; [done |]. intros d2 s2 N2 F2 C2 T2 H2'.
  wp_step. apply HQ; [| congruence ..].
  unfold field_names. rewrite F2, F1, !map_app, <- app_assoc. cbn. by rewrite N1, N2.
Qed.

(** What [create_class_decl] does to the table of classes. *)
Lemma create_class_decl_wp klass name s :
  wp (fun _ => True) (create_class_decl klass name) (fun t s' =>
    IDENTIFIER_CLASS_DECL s' !! name = Some t /\
    (IDENTIFIER_CLASS_DECL s !! name = None -> TYPE_FIELDS s !! next_uid s = None ->
      t = RECORD_TYPE (next_uid s) /\
      field_names s' t = [Some "__vtable"; Some "__synchronisation"]%string /\
      IDENTIFIER_CLASS_DECL s' = <[name := t]> (IDENTIFIER_CLASS_DECL s))) s.
Proof.
  unfold create_class_decl, make_record, fresh.
  repeat wp_step.
  { cbn in *. split; [done | congruence]. }
  apply add_mono_obj_fields_wp. intros s1 F1 C1 _ _. wp_step. cbn in C1.
  rewrite C1, lookup_insert_eq. split; [done |].
  intros _ Hf. split; [done |]. split; [| done].
  rewrite F1. unfold field_names. cbn. by rewrite Hf.
Qed.

(** The record of a class is made once, with the object header first:
    asking again for the same name gives the same record in the same state;
    a record that is made is new, it starts with the two fields of an object,
    and the other classes keep theirs. *)
Theorem create_class_decl_once klass name s t s' :
  create_class_decl klass name s = Done t s' ->
  (forall k, create_class_decl k name s' = Done t s') /\
  (IDENTIFIER_CLASS_DECL s !! name = None -> TYPE_FIELDS s !! next_uid s = None ->
     t = RECORD_TYPE (next_uid s) /\
     field_names s' t = [Some "__vtable"; Some "__synchronisation"]%string /\
     (forall n, n <> name -> IDENTIFIER_CLASS_DECL s' !! n = IDENTIFIER_CLASS_DECL s !! n)).
Proof.
  intros Hc.
  destruct (outcome_done _ _ _ _ _ _ Hc (create_class_decl_wp klass name s)) as [Hl Hnew].
  split.
  - intros k. unfold create_class_decl, get, mbind, comp_bind. by rewrite Hl.
  - intros Hn Hf. destruct (Hnew Hn Hf) as (-> & Hh & Hc').
    split; [done | split; [done |]]. rewrite Hc'.
    intros n Hne. by rewrite lookup_insert_ne.
Qed.

End records.

Lemma add_field_lookup_witness :
  exists f s', @add_field (RECORD_TYPE 0) int8_type_node None "x"
      (@init_state i386) = Done f s' /\
    lookup_field_decl (RECORD_TYPE 0) None "x" s' = Done f s'.
Proof.
  destruct (add_field_lookup (RECORD_TYPE 0) int8_type_node None "x" (@init_state i386) eq_refl)
    as (f & s' & Ha & _ & Hl & _).
  exists f, s'. split; [exact Ha |]. exact Hl.
Defined.

(** The class [A], asked for twice. *)
Lemma create_class_decl_once_witness :
  match create_class_decl 7 "A" (@init_state i386) with
  | Done t s' => create_class_decl 8 "A" s' = Done t s'
  | Failed _ => False
  end.
Proof.
  destruct (create_class_decl 7 "A" (@init_state i386)) as [t s' | f] eqn:E.
  - apply (create_class_decl_once _ _ _ _ _ E).
  - vm_compute in E. discriminate.
Defined.
