(* ===== verification/Calls.v ===== *)
(** * Calls: functions, calls and access to objects and arrays

    Models the part of src/gcc/cil/build_trees.c that declares functions, builds
    calls (direct, virtual and through an interface), checks references and
    array bounds, and reaches fields and array elements. *)
From S2P Require Import Prelude Program Mangle Trees CilState CilDecl EvalStack Records.

(** Declarations are trees. *)
Definition set_volatile (d : decl) : decl :=
  mkDecl (decl_code d) (DECL_UID d) (DECL_NAME d) (decl_type d) true.

(** [l[i] = x] of a C array. *)
Definition array_put {S A} (what : string) (l : list A) (i : Z) (x : A) : comp S (list A) :=
  if (0 <=? i) && (i <? Z.of_nat (length l)) then mret (<[Z.to_nat i := x]> l)
  else fail (Undefined what).

Section calls.
Context `{Target, MiddleEnd, Program}.

(** ** Names, variables and parameters *)

Fixpoint concat_dollar (l : list string) : string :=
  match l with
  | [] => ""
  | [x] => x
  | x :: l => x +:+ "$" +:+ concat_dollar l
  end.

(** The variable arguments are the list after the first identifier. *)
Definition make_complex_identifier (ident_1 : string) (idents : list string) : M string :=
  let num_args := 1 + Z.of_nat (length idents) in
  if num_args <? 2 then
    internal_error "make_complex_identifier: needed at least 2 identifiers"
  else mret (concat_dollar (ident_1 :: idents)).

(** The size of the buffer it allocates. *)
Definition make_complex_identifier_alloca (ident_1 : string) (idents : list string) : Z :=
  foldr (fun i n => Z.of_nat (String.length i) + n) 0 (ident_1 :: idents)
  + (1 + Z.of_nat (length idents)).

Definition add_local_var (i : Z) (type : ttype) (name : string) : M unit :=
  var_decl ← build_decl VAR_DECL (Some name) (Some type);
  l ← get local_vars;
  l ← array_put "local_vars" l i (DECL var_decl);
  modify (set_local_vars l);;
  cur ← get current_function_decl;
  set_DECL_CONTEXT var_decl (DECL_UID <$> cur);;
  modify (fun s => set_IDENTIFIER_DECL (<[name := DECL var_decl]> (IDENTIFIER_DECL s)) s);;
  modify (fun s => set_current_function_locals
    (current_function_locals s ++ [DECL var_decl]) s).

(** [vars] is the list of types and names. *)
Fixpoint add_local_vars_from (i : Z) (vars : list (ttype * string)) : M unit :=
  match vars with
  | [] => modify (set_num_of_local_vars i)
  | (type, name) :: vars =>
      add_local_var i type name;; add_local_vars_from (i + 1) vars
  end.
Definition add_local_vars (vars : list (ttype * string)) : M unit :=
  add_local_vars_from 0 vars.

Definition create_function_type (params : list ttype) (return_type : ttype) : ttype :=
  FUNCTION_TYPE return_type (to_type_list (params ++ [void_type_node])).

Definition create_function_decl (function_name : string) (param_type_list : list ttype)
    (return_type : ttype) : M decl :=
  build_decl FUNCTION_DECL (Some function_name)
    (Some (create_function_type param_type_list return_type)).

Definition function_address (function_decl : decl) : M tree :=
  type ← type_of (DECL function_decl);
  build1 ADDR_EXPR (Some (build_pointer_type type)) (DECL function_decl).

Definition create_function_ptr (function_name : string) (param_type_list : list ttype)
    (return_type : ttype) : M tree :=
  function_decl ← create_function_decl function_name param_type_list return_type;
  function_address function_decl.

(** The parameter number [i]. *)
Definition make_param (function_decl : decl) (i : Z) (type : ttype) (name : string) : M unit :=
  d ← build_decl PARM_DECL (Some name) (Some type);
  l ← get formal_params;
  l ← array_put "formal_params" l i (DECL d);
  modify (set_formal_params l);;
  set_DECL_CONTEXT d (Some (DECL_UID function_decl));;
  modify (fun s => set_IDENTIFIER_DECL (<[name := DECL d]> (IDENTIFIER_DECL s)) s).

Fixpoint make_params_from (function_decl : decl) (i : Z) (params : list (ttype * string))
    : M unit :=
  match params with
  | [] => mret tt
  | (type, name) :: params =>
      make_param function_decl i type name;; make_params_from function_decl (i + 1) params
  end.

(** The chain that starts at [formal_params[0]]: the parameters just made, or,
    when there are none, the entry 0 itself, which [compile_function] of the
    previous function has cleared. *)
Definition make_param_list (function_decl : decl) (params : list (ttype * string))
    : M (list tree) :=
  make_params_from function_decl 0 params;;
  l ← get formal_params;
  mret (if decide (params = [])
        then List.filter (fun t => negb (is_null t)) (take 1 l)
        else take (length params) l).

Definition make_current_function_decl (function_name : string) (return_type : ttype)
    (params : list (ttype * string)) : M decl :=
  function_decl ← create_function_decl function_name (fst <$> params) return_type;
  param_list ← make_param_list function_decl params;
  set_TREE_PUBLIC function_decl;;
  set_DECL_ARGUMENTS function_decl param_list;;
  result ← build_decl RESULT_DECL None (Some return_type);
  set_DECL_RESULT function_decl (DECL result);;
  set_DECL_CONTEXT result (Some (DECL_UID function_decl));;
  set_DECL_INITIAL function_decl (BLOCK []);;
  modify (set_current_function_decl (Some function_decl));;
  modify (set_current_function_locals []);;
  modify (set_current_function_body []);;
  mret function_decl.

(** ** Calls *)

(** Pops the arguments; the last one is on top. *)
Fixpoint pop_args (n : nat) (function_args : list tree) : M (list tree) :=
  match n with
  | O => mret function_args
  | S n => arg ← stack_pop None; pop_args n (arg :: function_args)
  end.

(** Converts the arguments to the types of the parameters. *)
Fixpoint convert_args (param_types : list ttype) (args : list tree) {struct args}
    : M (list tree) :=
  match args with
  | [] => mret []
  | arg :: args =>
      match param_types with
      | [] => fail (Undefined "param_types")
      | t :: param_types =>
          arg ← convert t arg;
          args ← convert_args param_types args;
          mret (arg :: args)
      end
  end.

(** [create_function_call], [null_check] being what is done to the first
    argument when [this_check] is set. *)
Definition create_function_call_with (null_check : option (tree -> M tree))
    (function_ptr : tree) : M tree :=
  ptr_type ← type_of function_ptr;
  function_type ← lift "TREE_TYPE" (TREE_TYPE_of_type ptr_type);
  match function_type with
  | FUNCTION_TYPE ret param_types =>
      let num_of_params := type_list_length param_types - 1 in
      function_args ←
        (if num_of_params =? 0 then mret []
         else
           args ← pop_args (Z.to_nat num_of_params) [];
           args ← convert_args (of_type_list param_types) args;
           match null_check, args with
           | Some check, arg :: args => arg ← check arg; mret (arg :: args)
           | Some _, [] => fail (Undefined "function_args")
           | None, _ => mret args
           end);
      function_call ← build3 CALL_EXPR (Some ret) function_ptr
        (if decide (function_args = []) then NULL_TREE else TREE_LIST function_args)
        NULL_TREE;
      mret (set_side_effects function_call)
  | _ => internal_error "create_function_call(): expected tree code FUNCTION_TYPE"
  end.

(** A call of a runtime function that does not return, as an expression of
    the type of [value]: [(f (), value)]. *)
Definition throw_call (name : string) (value : tree) : M tree :=
  function_decl ← create_function_decl name [] void_type_node;
  function_ptr ← function_address (set_volatile function_decl);
  function_call ← create_function_call_with None function_ptr;
  build2 COMPOUND_EXPR (TREE_TYPE value) (set_side_effects function_call) value.

Definition create_null_reference_check (ref_of_obj : tree) : M tree :=
  function_call ← throw_call "null_reference" ref_of_obj;
  condition ← build2 EQ_EXPR (Some boolean_type_node) ref_of_obj null_pointer_node;
  build3 COND_EXPR (TREE_TYPE ref_of_obj) condition function_call ref_of_obj.

Definition create_function_call (function_ptr : tree) (this_check : bool) : M tree :=
  create_function_call_with
    (if this_check then Some create_null_reference_check else None) function_ptr.

Definition finish_function_call (function_call : tree) : M unit :=
  type ← type_of function_call;
  if bool_decide (type_code type <> VOID_TYPE_) then stack_push function_call
  else append_to_statement_list function_call.

Definition make_method_call (method_name : string) (return_type : ttype)
    (param_type_list : list ttype) (this_check : bool) : M unit :=
  function_ptr ← create_function_ptr method_name param_type_list return_type;
  function_call ← create_function_call function_ptr this_check;
  finish_function_call function_call.

(** ** Fields *)

Definition create_field_access (obj_ref : tree) (type : ttype) (context : option ttype)
    (field_name : string) : M tree :=
  ref_type ← type_of obj_ref;
  record ← lift "TREE_TYPE" (TREE_TYPE_of_type ref_type);
  obj_record ← build1 INDIRECT_REF (Some record) obj_ref;
  field_decl ← lookup_field_decl record context field_name;
  build3 COMPONENT_REF (Some type) obj_record (DECL field_decl) NULL_TREE.

Definition create_field_access_ind (obj_ref : tree) (type : ttype) (index : Z) : M tree :=
  ref_type ← type_of obj_ref;
  record ← lift "TREE_TYPE" (TREE_TYPE_of_type ref_type);
  obj_record ← build1 INDIRECT_REF (Some record) obj_ref;
  field_decl ← lookup_field_decl_ind record index;
  build3 COMPONENT_REF (Some type) obj_record (DECL field_decl) NULL_TREE.

Definition get_ILClass_from_class_name (class_name : string) : M N :=
  o ← get (fun s => IDENTIFIER_CLASS_DECL s !! class_name);
  class_decl ← lift "TYPE_ILClass" o;
  match class_decl with
  | RECORD_TYPE n => k ← get (fun s => TYPE_ILClass s !! n); lift "klass" k
  | _ => fail (Undefined "TYPE_ILClass")
  end.

Definition get_mono_class_from_ILClass (klass : N) : M tree :=
  name ← mangle_mono_class klass;
  get (fun s => lookup_tree (IDENTIFIER_DECL s) name).

Definition get_mono_class (class_name : string) : M tree :=
  klass ← get_ILClass_from_class_name class_name;
  get_mono_class_from_ILClass klass.

Definition get_class_data_decl (class_name : string) : M tree :=
  static_fields ← get (fun s => IDENTIFIER_STATIC_FIELDS_DECL s !! class_name);
  klass ← get_ILClass_from_class_name class_name;
  class_data_name ← mangle_class_data klass;
  class_data_decl ← get (fun s => lookup_tree (IDENTIFIER_DECL s) class_data_name);
  if is_null class_data_decl then
    d ← build_decl VAR_DECL (Some class_data_name) static_fields;
    modify (fun s =>
      set_IDENTIFIER_DECL (<[class_data_name := DECL d]> (IDENTIFIER_DECL s)) s);;
    mret (DECL d)
  else mret class_data_decl.

Definition create_static_field_access (class_name : string) (field_type : ttype)
    (field_name : string) : M tree :=
  class_data_decl ← get_class_data_decl class_name;
  record ← type_of class_data_decl;
  field_decl ← lookup_field_decl record None field_name;
  build3 COMPONENT_REF (Some field_type) class_data_decl (DECL field_decl) NULL_TREE.

(** ** Virtual and interface methods *)

Definition create_virtual_method_ptr (obj_ref : tree) (return_type : ttype)
    (param_type_list : list ttype) (index : Z) : M tree :=
  let function_type := create_function_type param_type_list return_type in
  let function_ptr_type := build_pointer_type function_type in
  vtable ← ptr_mono_vtable_type_node;
  field_mono_obj_vtable ← create_field_access obj_ref vtable None "__vtable";
  let array_type := ARRAY_TYPE function_ptr_type in
  field_vtable ← create_field_access field_mono_obj_vtable array_type None "vtable";
  build4 ARRAY_REF (Some function_ptr_type) field_vtable
    (build_int_cst integer_type_node index) NULL_TREE NULL_TREE.

Definition make_virtual_method_call (return_type : ttype) (param_type_list : list ttype)
    (index : Z) : M unit :=
  let num_of_params := Z.of_nat (length param_type_list) in
  obj_ref ← stack_elem num_of_params None;
  method_ptr ← create_virtual_method_ptr obj_ref return_type param_type_list index;
  function_call ← create_function_call method_ptr true;
  finish_function_call function_call.

(** The size constants have type [sizetype], which this model does not tell
    from [size_type_node]. *)
Definition TYPE_SIZE_UNIT (t : ttype) : M tree :=
  n ← get (fun s => type_size_unit s t);
  mret (INTEGER_CST size_type_node n).

Definition create_intf_method_ptr (obj_ref : tree) (return_type : ttype)
    (param_type_list : list ttype) (intf_mono_class_name : string) (index : Z) : M tree :=
  let function_type := create_function_type param_type_list return_type in
  let function_ptr_type := build_pointer_type function_type in
  intf ← get (fun s => lookup_tree (IDENTIFIER_DECL s) intf_mono_class_name);
  mono_class ← mono_type mono_class_type_node;
  id_field ← lookup_field_decl mono_class None "interface_id";
  interface_id ← build3 COMPONENT_REF (Some uint16_type_node) intf (DECL id_field) NULL_TREE;
  ptr_size ← TYPE_SIZE_UNIT ptr_type_node;
  slot ← build2 PLUS_EXPR (Some uint16_type_node) integer_one_node interface_id;
  offset ← build2 MULT_EXPR (Some unsigned_type_node) ptr_size slot;
  offset ← fold_tree offset;
  vtable ← ptr_mono_vtable_type_node;
  mono_obj_vtable ← create_field_access obj_ref vtable None "__vtable";
  slot_addr ← build2 MINUS_EXPR
    (Some (build_pointer_type (build_pointer_type function_ptr_type)))
    mono_obj_vtable offset;
  interface_vtable_slot_ptr ←
    build1 INDIRECT_REF (Some (build_pointer_type function_ptr_type)) slot_addr;
  offset ← build2 MULT_EXPR (Some unsigned_type_node)
    (build_int_cst unsigned_type_node index) ptr_size;
  offset ← fold_tree offset;
  entry ← build2 PLUS_EXPR (Some (build_pointer_type function_ptr_type))
    offset interface_vtable_slot_ptr;
  method_ptr ← build1 INDIRECT_REF (Some function_ptr_type) entry;
  fold_tree method_ptr.

Definition make_intf_method_call (return_type : ttype) (param_type_list : list ttype)
    (intf_mono_class_name : string) (index : Z) : M unit :=
  let num_of_params := Z.of_nat (length param_type_list) in
  obj_ref ← stack_elem num_of_params None;
  method_ptr ← create_intf_method_ptr obj_ref return_type param_type_list
    intf_mono_class_name index;
  function_call ← create_function_call method_ptr true;
  finish_function_call function_call.

(** ** Arrays *)

Definition get_array_length (array_ref : tree) : M tree :=
  array_ref ← create_null_reference_check array_ref;
  create_field_access array_ref size_type_node None "__max_length".

Definition create_array_bounds_check (array_ref index : tree) : M tree :=
  function_call ← throw_call "index_out_of_range" array_ref;
  cond1 ← build2 LT_EXPR (Some boolean_type_node) index integer_zero_node;
  len ← get_array_length array_ref;
  cond2 ← build2 GE_EXPR (Some boolean_type_node) index len;
  check ← build3 COND_EXPR (TREE_TYPE array_ref) cond2 function_call array_ref;
  build3 COND_EXPR (TREE_TYPE check) cond1 function_call check.

Definition create_array_elem_access : M tree :=
  index ← stack_pop (Some size_type_node);
  array_ref ← stack_pop None;
  array_type ← type_of array_ref;
  array_decl ← lift "TREE_TYPE" (TREE_TYPE_of_type array_type);
  checked_ref ← create_array_bounds_check array_ref index;
  field ← lookup_field_decl array_decl None "__vector";
  elem_type ← type_of (DECL field);
  first_elem ← create_field_access checked_ref elem_type None "__vector";
  first_elem_type ← type_of first_elem;
  let first_elem_ref_type := build_pointer_type first_elem_type in
  first_elem_ref ← build1 ADDR_EXPR (Some first_elem_ref_type) first_elem;
  size ← get (fun s => size_in_bytes s elem_type);
  offset ← build2 MULT_EXPR (TREE_TYPE index) index size;
  offset ← fold_tree offset;
  elem_ref ← build2 PLUS_EXPR (Some first_elem_ref_type) first_elem_ref offset;
  elem_ref ← fold_tree elem_ref;
  build1 INDIRECT_REF (Some elem_type) elem_ref.

Definition make_instr_ldlen : M unit :=
  array_ref ← stack_pop None;
  len ← get_array_length array_ref;
  stack_push len.

(** ** Making objects and arrays *)

Definition make_instr_dup : M unit :=
  t ← stack_pop None;
  t ← save_expr t;
  stack_push t;;
  stack_push t.

Fixpoint push_args (args : list tree) : M unit :=
  match args with
  | [] => mret tt
  | a :: args => stack_push a;; push_args args
  end.

Definition make_new_object (class_name ctor_name : string) (ctor_params : list ttype) : M unit :=
  let num_of_params := Z.of_nat (length ctor_params) - 1 in
  ctor_args ← pop_args (Z.to_nat num_of_params) [];
  o ← get (fun s => IDENTIFIER_CLASS_DECL s !! class_name);
  class_decl ← lift "build_pointer_type" o;
  let obj_ref_type := build_pointer_type class_decl in
  ptr_class ← ptr_mono_class_type_node;
  mono_class ← get_mono_class class_name;
  addr ← build1 ADDR_EXPR (Some ptr_class) mono_class;
  stack_push addr;;
  make_method_call "newobj" obj_ref_type [ptr_class] false;;
  make_instr_dup;;
  push_args ctor_args;;
  make_method_call ctor_name void_type_node ctor_params true.

Definition make_new_array (elem_type : ttype) : M unit :=
  size ← get (fun s => type_size_unit s elem_type);
  stack_push (build_int_cst integer_type_node size);;
  make_method_call "newarr" ptr_type_node [size_type_node; size_type_node] false.

End calls.
