(* ===== verification/Statements.v ===== *)
(** * Statements: assignments, arithmetic, branches and whole functions

    Models the rest of src/gcc/cil/build_trees.c: the builders that append to
    the body of the current function, the labels, and [compile_function], which
    hands the function to the middle end and clears the tables. *)
From S2P Require Import Prelude Program Trees CilState CilDecl EvalStack Records Calls.

Section statements.
Context `{Target, MiddleEnd, Program}.

(** ** Assignments *)

Definition make_assignment (lvalue : tree) : M unit :=
  type ← type_of lvalue;
  rvalue ← stack_pop (Some type);
  assignment ← build2 MODIFY_EXPR (Some type) lvalue rvalue;
  append_to_statement_list (set_side_effects assignment).

Definition make_field_assignment (type : ttype) (context : option ttype)
    (field_name : string) : M unit :=
  rvalue ← stack_pop None;
  obj ← stack_pop None;
  lvalue ← create_null_reference_check obj;
  lvalue ← create_field_access lvalue type context field_name;
  stack_push rvalue;;
  make_assignment lvalue.

Definition make_static_field_assignment (class_name : string) (field_type : ttype)
    (field_name : string) : M unit :=
  lvalue ← create_static_field_access class_name field_type field_name;
  make_assignment lvalue.

Definition make_array_elem_assignment : M unit :=
  value ← stack_pop None;
  elem_ref ← create_array_elem_access;
  stack_push value;;
  make_assignment elem_ref.

(** ** Arithmetic *)

(** A boolean operand is converted to [int32]. *)
Definition bool_to_int32 (op : tree) (t : tree_code) : M (tree * tree_code) :=
  if bool_decide (t = BOOLEAN_TYPE_) then
    op ← build1 CONVERT_EXPR (Some int32_type_node) op;
    mret (op, INTEGER_TYPE_)
  else mret (op, t).

Definition make_arithmetic_expr (operation : tree_code) : M unit :=
  op2 ← stack_pop None;
  op1 ← stack_pop None;
  ty1 ← type_of op1;
  ty2 ← type_of op2;
  '(op1, t1) ← bool_to_int32 op1 (type_code ty1);
  '(op2, t2) ← bool_to_int32 op2 (type_code ty2);
  if bool_decide (t1 <> t2) && bool_decide (TREE_CODE op1 <> Some INTEGER_CST_)
     && bool_decide (TREE_CODE op2 <> Some INTEGER_CST_)
  then internal_error "different types in arithmetic expression"
  else if bool_decide (t1 = INTEGER_TYPE_) then
    e ← build2 operation (TREE_TYPE op1) op1 op2;
    e ← fold_tree e;
    stack_push e
  else if bool_decide (t1 = REAL_TYPE_) then
    e ← build2 operation (TREE_TYPE op1) op1 op2;
    e ← fold_tree e;
    stack_push e
  else internal_error
    "a type of an operand for an arithmetic expression is not implemented".

Definition make_unary_expr (operation : tree_code) : M unit :=
  op1 ← stack_pop None;
  ty1 ← type_of op1;
  '(op1, t1) ← bool_to_int32 op1 (type_code ty1);
  if bool_decide (t1 = INTEGER_TYPE_) then
    e ← build1 operation (TREE_TYPE op1) op1;
    e ← fold_tree e;
    stack_push e
  else if bool_decide (t1 = REAL_TYPE_) then
    e ← build1 operation (TREE_TYPE op1) op1;
    e ← fold_tree e;
    stack_push e
  else internal_error
    "a type of an operand for an arithmetic expression is not implemented".

(** ** Labels and branches *)

Definition set_label_context (label_decl : tree) : M unit :=
  match label_decl with
  | DECL d => cur ← get current_function_decl; set_DECL_CONTEXT d (DECL_UID <$> cur)
  | _ => fail (Undefined "DECL_CONTEXT")
  end.

Definition lookup_label (label_name : string) : M tree :=
  label_decl ← get (fun s => lookup_tree (LABEL_DECL_of s) label_name);
  if negb (is_null label_decl) then
    set_label_context label_decl;;
    mret label_decl
  else
    d ← build_decl LABEL_DECL (Some label_name) (Some void_type_node);
    set_label_context (DECL d);;
    modify (fun s => set_LABEL_DECL_of (<[label_name := DECL d]> (LABEL_DECL_of s)) s);;
    modify (fun s => set_local_labels (label_name :: local_labels s) s);;
    mret (DECL d).

Definition make_label (label_name : string) : M unit :=
  h ← stack_height;
  if h =? 0 then
    label_decl ← lookup_label label_name;
    label ← build1 LABEL_EXPR (Some void_type_node) label_decl;
    append_to_statement_list label
  else mret tt.

Definition make_branch_on_true (label_name : string) : M unit :=
  label_decl ← lookup_label label_name;
  if_true_label ← build1 GOTO_EXPR (Some void_type_node) label_decl;
  c ← stack_pop (Some boolean_type_node);
  empty ← build_empty_stmt;
  cond ← build3 COND_EXPR (Some void_type_node) c if_true_label empty;
  append_to_statement_list cond.

Definition make_branch_on_false (label_name : string) : M unit :=
  label_decl ← lookup_label label_name;
  if_false_label ← build1 GOTO_EXPR (Some void_type_node) label_decl;
  c ← stack_pop (Some boolean_type_node);
  empty ← build_empty_stmt;
  cond ← build3 COND_EXPR (Some void_type_node) c empty if_false_label;
  append_to_statement_list cond.

(** The operands and the condition after the unsigned or unordered case. *)
Definition unsigned_operands (condition unordered_condition : tree_code) (ty1 : ttype)
    (op1 op2 : tree) : M (tree_code * tree * tree) :=
  match type_code ty1 with
  | INTEGER_TYPE_ =>
      t1 ← cil_unsigned_type ty1;
      op1 ← convert t1 op1;
      ty2 ← type_of op2;
      t2 ← cil_unsigned_type ty2;
      op2 ← convert t2 op2;
      mret (condition, op1, op2)
  | BOOLEAN_TYPE_ => mret (condition, op1, op2)
  | REAL_TYPE_ => mret (unordered_condition, op1, op2)
  | _ => internal_error "unsupported unsigned comparison"
  end.

Definition make_branch_comparison (condition unordered_condition : tree_code)
    (label_name : string) (unsignedp : bool) : M unit :=
  op2 ← stack_pop None;
  op1 ← stack_pop None;
  ty1 ← type_of op1;
  ty2 ← type_of op2;
  if bool_decide (type_code ty1 <> type_code ty2) then
    internal_error "different types in branch comparison"
  else
    '(condition, op1, op2) ←
      (if unsignedp then unsigned_operands condition unordered_condition ty1 op1 op2
       else mret (condition, op1, op2));
    label_decl ← lookup_label label_name;
    if_true_label ← build1 GOTO_EXPR (Some void_type_node) label_decl;
    condition_expr ← build2 condition (Some boolean_type_node) op1 op2;
    empty ← build_empty_stmt;
    comp ← build3 COND_EXPR (Some void_type_node) condition_expr if_true_label empty;
    append_to_statement_list comp.

Definition make_branch_unconditional (label_name : string) : M unit :=
  label_decl ← lookup_label label_name;
  goto ← build1 GOTO_EXPR (Some void_type_node) label_decl;
  append_to_statement_list goto.

(** One [CASE_LABEL_EXPR] for each pair of a constant and a label name; the
    label declared here has no name. *)
Fixpoint switch_cases (label_names : list (tree * string)) : M (list tree) :=
  match label_names with
  | [] => mret []
  | (value, _) :: label_names =>
      label_decl ← build_decl LABEL_DECL None None;
      gcc_assert (bool_decide (TREE_TYPE value = Some uint32_type_node))
        "make_instr_switch";;
      label ← build3 CASE_LABEL_EXPR (Some void_type_node) value NULL_TREE
                (DECL label_decl);
      cases ← switch_cases label_names;
      mret (label :: cases)
  end.

(** [build (SWITCH_EXPR, selector, NULL_TREE, cases)] is [build2] with the
    selector in the place of the type. *)
Definition make_instr_switch (label_names : list (tree * string)) : M unit :=
  selector ← stack_pop (Some uint32_type_node);
  cases ← switch_cases label_names;
  switch_expr ← build2 SWITCH_EXPR None NULL_TREE (TREE_VEC cases);
  append_to_statement_list switch_expr.

(** ** Return, pop, end of a function *)

Definition make_return_value : M unit :=
  cur ← get current_function_decl;
  fndecl ← lift "current_function_decl" cur;
  function_type ← type_of (DECL fndecl);
  return_type ← lift "TREE_TYPE" (TREE_TYPE_of_type function_type);
  h ← stack_height;
  return_value ←
    (if 0 <? h then
       value ← stack_pop (Some return_type);
       result ← get (fun s => DECL_RESULT (attrs_of s (DECL_UID fndecl)));
       e ← build2 MODIFY_EXPR (Some return_type) result value;
       mret (set_side_effects e)
     else mret NULL_TREE);
  ret ← build1 RETURN_EXPR (Some return_type) return_value;
  append_to_statement_list ret.

Definition make_instr_pop : M unit :=
  t ← stack_pop None;
  append_to_statement_list t.

Definition name_of (t : tree) : M string :=
  match t with
  | DECL d => lift "DECL_NAME" (DECL_NAME d)
  | _ => fail (Undefined "DECL_NAME")
  end.

(** [IDENTIFIER_DECL (DECL_NAME (a[i])) = NULL_TREE; a[i] = NULL_TREE] *)
Definition forget (what : string) (a : cil_state -> list tree)
    (set_a : list tree -> cil_state -> cil_state) (i : Z) : M unit :=
  l ← get a;
  d ← array_get what l i;
  name ← name_of d;
  modify (fun s => set_IDENTIFIER_DECL (<[name := NULL_TREE]> (IDENTIFIER_DECL s)) s);;
  l ← array_put what l i NULL_TREE;
  modify (set_a l).

(** [while (stack_height () > 0) stack_pop (NULL_TREE)], at most [fuel]
    times. *)
Fixpoint empty_stack (fuel : nat) : M unit :=
  h ← stack_height;
  if 0 <? h then
    match fuel with
    | O => fail Out_of_fuel
    | S fuel => _ ← stack_pop None; empty_stack fuel
    end
  else mret tt.

(** The rest of the body of the C function gives the declaration to
    [gimplify_function_tree] and the call graph, and emits the entry of a
    static constructor: the function is added to [compiled]. *)
Definition compile_function : M unit :=
  n ← get num_of_local_vars;
  for_loop (Z.to_nat n) 0 (fun i _ => forget "local_vars" local_vars set_local_vars i) tt;;
  modify (set_num_of_local_vars 0);;
  cur ← get current_function_decl;
  fndecl ← lift "current_function_decl" cur;
  args ← get (fun s => DECL_ARGUMENTS (attrs_of s (DECL_UID fndecl)));
  for_loop (length args) 0
    (fun i _ => forget "formal_params" formal_params set_formal_params i) tt;;
  labels ← get local_labels;
  modify (fun s => set_LABEL_DECL_of
    (foldr (fun name m => <[name := NULL_TREE]> m) (LABEL_DECL_of s) labels) s);;
  modify (set_local_labels []);;
  fuel ← get (fun s => length (top_item s));
  empty_stack fuel;;
  locals ← get current_function_locals;
  body ← get current_function_body;
  saved ← build3 BIND_EXPR (Some void_type_node) (TREE_LIST locals)
            (STATEMENT_LIST body) (BLOCK locals);
  set_DECL_SAVED_TREE fndecl saved;;
  modify (fun s => set_compiled (compiled s ++ [(fndecl, saved)]) s);;
  modify (set_current_function_decl None);;
  modify (set_current_function_locals []);;
  modify (set_current_function_body []).

End statements.
