(* ===== verification/StaticData.v ===== *)
(** * StaticData: the static data of classes and strings

    Models the part of src/gcc/cil/build_trees.c that builds initialised global
    variables: string literals, the static fields of a class, [MonoClass] and
    [MonoVTable]. *)
From S2P Require Import Prelude Program Values Trees CilState CilDecl Records Calls.

Section static_data.
Context `{Target, MiddleEnd, Program}.

(** [rest_of_decl_compilation]: the variable goes to the middle end with its
    initial value. *)
Definition rest_of_decl_compilation (d : decl) : M unit :=
  init ← get (fun s => DECL_INITIAL (attrs_of s (DECL_UID d)));
  modify (fun s => set_compiled (compiled s ++ [(d, init)]) s).

Definition set_IDENTIFIER (name : string) (d : decl) : M unit :=
  modify (fun s => set_IDENTIFIER_DECL (<[name := DECL d]> (IDENTIFIER_DECL s)) s).

Definition as_decl (t : tree) : M decl :=
  match t with DECL d => mret d | _ => fail (Undefined "DECL") end.

(** [IDENTIFIER_DECL (name)], used as a declaration. *)
Definition identifier_decl (name : string) : M decl :=
  t ← get (fun s => lookup_tree (IDENTIFIER_DECL s) name);
  as_decl t.

Definition address_of (type : ttype) (d : decl) : M tree :=
  build1 ADDR_EXPR (Some type) (DECL d).

(** ** String literals *)

(** One [int16] constant for each index below [len]; [ustr + i] is the byte
    [2 * i] of the string. *)
Definition string_chars (str : list Z) (len : Z) : M (list (tree * tree)) :=
  for_loop (Z.to_nat len) 0 (fun i chars =>
    v ← lift "make_string" (IL_READ_INT32 str (2 * i));
    mret (chars ++ [(build_int_cst integer_type_node i, build_int_cst int16_type_node v)])) [].

Definition make_string (name : string) (str : list Z) (len : Z) : M unit :=
  mono_string ← mono_type mono_string_type_node;
  d ← build_decl VAR_DECL (Some name) (Some mono_string);
  set_IDENTIFIER name d;;
  set_TREE_STATIC d;;
  fields ← fields_of mono_string;
  vtable ← array_get "TYPE_FIELDS" fields 0;
  sync ← array_get "TREE_CHAIN" fields 1;
  length_field ← array_get "TREE_CHAIN" fields 2;
  values ← array_get "TREE_CHAIN" fields 3;
  chars ← string_chars str len;
  values_type ← type_of (DECL (field_decl values));
  set_DECL_INITIAL d (CONSTRUCTOR mono_string
    [(DECL (field_decl vtable), null_pointer_node);
     (DECL (field_decl sync), null_pointer_node);
     (DECL (field_decl length_field), build_int_cst integer_type_node len);
     (DECL (field_decl values), CONSTRUCTOR values_type chars)]);;
  rest_of_decl_compilation d.

(** ** Static fields *)

(** The initial values of the constant fields, which are then cleared. *)
Fixpoint static_init_vals (fields : list field) : M (list (tree * tree)) :=
  match fields with
  | [] => mret []
  | f :: fields =>
      init ← get (fun s => DECL_INITIAL (attrs_of s (DECL_UID (field_decl f))));
      vals ← (if is_null init then mret []
              else set_DECL_INITIAL (field_decl f) NULL_TREE;;
                   mret [(DECL (field_decl f), init)]);
      rest ← static_init_vals fields;
      mret (vals ++ rest)
  end.

Definition make_static_fields (class_name : string) : M tree :=
  o ← get (fun s => IDENTIFIER_STATIC_FIELDS_DECL s !! class_name);
  class_data_decl ← get_class_data_decl class_name;
  fields_decl ← lift "TYPE_FIELDS" o;
  fields ← fields_of fields_decl;
  init_vals ← static_init_vals fields;
  d ← as_decl class_data_decl;
  set_TREE_PUBLIC d;;
  set_TREE_STATIC d;;
  set_DECL_INITIAL d (CONSTRUCTOR fields_decl init_vals);;
  rest_of_decl_compilation d;;
  address_of (build_pointer_type fields_decl) d.

(** ** MonoClass *)

(** The fields of the record get the values; the constructor is given the
    type of [MonoClass] whatever the record. *)
Fixpoint record_init_vals (record : ttype) (fields : list (string * tree))
    : M (list (tree * tree)) :=
  match fields with
  | [] => mret []
  | (name, init_val) :: fields =>
      field_decl ← lookup_field_decl record None name;
      vals ← record_init_vals record fields;
      mret ((DECL field_decl, init_val) :: vals)
  end.

Definition make_record_init_val (record_type_node : ttype) (fields : list (string * tree))
    : M tree :=
  init_vals ← record_init_vals record_type_node fields;
  mono_class ← mono_type mono_class_type_node;
  mret (CONSTRUCTOR mono_class init_vals).

Definition make_mono_class_member_info (first count : Z) : M tree :=
  member_info ← mono_type mono_class_member_info_type_node;
  make_record_init_val member_info
    [("first"%string, build_int_cst integer_type_node first);
     ("count"%string, build_int_cst integer_type_node count)].

Definition make_mono_class_runtime_info (runtime_info_name mono_vtable_name : string) : M unit :=
  mono_vtable ← identifier_decl mono_vtable_name;
  vtable_type ← type_of (DECL mono_vtable);
  domain_vtables_entry ← address_of (build_pointer_type vtable_type) mono_vtable;
  ptr_vtable ← ptr_mono_vtable_type_node;
  runtime_type ← mono_type mono_class_runtime_info_type_node;
  runtime_info_init_val ← make_record_init_val runtime_type
    [("max_domain"%string, build_int_cst integer_type_node 0);
     ("domain_vtables"%string,
      CONSTRUCTOR (ARRAY_TYPE ptr_vtable)
        [(build_int_cst integer_type_node 0, domain_vtables_entry)])];
  runtime_info ← build_decl VAR_DECL (Some runtime_info_name) (Some runtime_type);
  set_IDENTIFIER runtime_info_name runtime_info;;
  set_TREE_STATIC runtime_info;;
  set_DECL_INITIAL runtime_info runtime_info_init_val;;
  rest_of_decl_compilation runtime_info.

Definition make_mono_class_parent_ref (parent_name : option string) : M tree :=
  match parent_name with
  | Some name =>
      ptr_class ← ptr_mono_class_type_node;
      parent ← get (fun s => lookup_tree (IDENTIFIER_DECL s) name);
      build1 ADDR_EXPR (Some ptr_class) parent
  | None => mret null_pointer_node
  end.

Definition add_interface_slot (interfaces_list : list (tree * tree)) (index : Z)
    (intf_mono_class_decl : decl) : M (list (tree * tree)) :=
  type ← type_of (DECL intf_mono_class_decl);
  init_val ← address_of (build_pointer_type type) intf_mono_class_decl;
  mret (interfaces_list ++ [(build_int_cst integer_type_node index, init_val)]).

Fixpoint interfaces_entries_from (index : Z) (names : list string)
    (result : list (tree * tree)) : M (list (tree * tree)) :=
  match names with
  | [] => mret result
  | name :: names =>
      intf ← identifier_decl name;
      result ← add_interface_slot result index intf;
      interfaces_entries_from (index + 1) names result
  end.
Definition create_mono_class_interfaces_entries (names : list string) : M (list (tree * tree)) :=
  interfaces_entries_from 0 names [].

Definition make_mono_class_interfaces (intf_name_list : list string) : M tree :=
  match intf_name_list with
  | [] => mret null_pointer_node
  | _ =>
      interfaces_entries ← create_mono_class_interfaces_entries intf_name_list;
      ptr_class ← ptr_mono_class_type_node;
      build1 ADDR_EXPR (Some ptr_class)
        (CONSTRUCTOR (ARRAY_TYPE ptr_class) interfaces_entries)
  end.

Definition create_mono_class_decl (mono_class_name : string) : M decl :=
  type ← mono_type mono_class_type_node;
  mono_class ← build_decl VAR_DECL (Some mono_class_name) (Some type);
  set_TREE_STATIC mono_class;;
  set_IDENTIFIER mono_class_name mono_class;;
  mret mono_class.

(** The variable gets its value and is public. *)
Definition finish_mono_class (mono_class : decl) (init_val : tree) : M unit :=
  set_TREE_PUBLIC mono_class;;
  set_TREE_STATIC mono_class;;
  set_DECL_INITIAL mono_class init_val;;
  rest_of_decl_compilation mono_class.

Definition make_mono_class (mono_class_name : string) (intf_name_list : list string)
    (parent_name : option string) (method_count instance_size vtable_size : Z)
    (mono_class_runtime_info_name : string) : M unit :=
  parent ← make_mono_class_parent_ref parent_name;
  interfaces ← make_mono_class_interfaces intf_name_list;
  method ← make_mono_class_member_info 0 method_count;
  runtime_info ← identifier_decl mono_class_runtime_info_name;
  runtime_type ← type_of (DECL runtime_info);
  runtime ← address_of (build_pointer_type runtime_type) runtime_info;
  class_type ← mono_type mono_class_type_node;
  init_val ← make_record_init_val class_type
    [("parent"%string, parent);
     ("interface_count"%string,
      build_int_cst (INTEGER_TYPE short_integer_type) (Z.of_nat (length intf_name_list)));
     ("interface_id"%string, build_int_cst (INTEGER_TYPE short_integer_type) 1000);
     ("interfaces"%string, interfaces);
     ("instance_size"%string, build_int_cst integer_type_node instance_size);
     ("vtable_size"%string, build_int_cst integer_type_node vtable_size);
     ("method"%string, method);
     ("runtime_info"%string, runtime)];
  mono_class ← identifier_decl mono_class_name;
  finish_mono_class mono_class init_val.

(** [MONO_TYPE_ATTRIBUTE_INTERFACE] is 0x20 (mono_structs.h). *)
Definition make_intf_mono_class (mono_class_name : string) (intf_name_list : list string)
    (method_count : Z) : M unit :=
  interfaces ← make_mono_class_interfaces intf_name_list;
  method ← make_mono_class_member_info 0 method_count;
  class_type ← mono_type mono_class_type_node;
  init_val ← make_record_init_val class_type
    [("interfaces"%string, interfaces);
     ("flags"%string, build_int_cst integer_type_node 0x20);
     ("method"%string, method)];
  mono_class ← create_mono_class_decl mono_class_name;
  finish_mono_class mono_class init_val.

Definition make_ext_mono_class (mono_class_name : string) : M unit :=
  type ← mono_type mono_class_type_node;
  mono_class ← build_decl VAR_DECL (Some mono_class_name) (Some type);
  set_IDENTIFIER mono_class_name mono_class;;
  set_DECL_EXTERNAL mono_class;;
  rest_of_decl_compilation mono_class.

(** ** MonoVTable *)

Definition make_mono_vtable (class_name vt_name : string)
    (vtable_entries : list (tree * tree)) : M unit :=
  vtable_type ← mono_type mono_vtable_type_node;
  mono_vtable ← build_decl VAR_DECL (Some vt_name) (Some vtable_type);
  klass_field_decl ← lookup_field_decl vtable_type None "klass";
  klass_type ← type_of (DECL klass_field_decl);
  klass ← get_mono_class class_name;
  klass_init_val ← build1 ADDR_EXPR (Some klass_type) klass;
  s_fields_decl ← get (fun s => IDENTIFIER_STATIC_FIELDS_DECL s !! class_name);
  data ←
    (match s_fields_decl with
     | Some _ =>
         data_init_val ← make_static_fields class_name;
         data_field_decl ← lookup_field_decl vtable_type None "data";
         mret [(DECL data_field_decl, data_init_val)]
     | None => mret []
     end);
  vtable_field_decl ← lookup_field_decl vtable_type None "vtable";
  vtable_field_type ← type_of (DECL vtable_field_decl);
  set_TREE_PUBLIC mono_vtable;;
  set_TREE_STATIC mono_vtable;;
  set_DECL_INITIAL mono_vtable (CONSTRUCTOR vtable_type
    ((DECL klass_field_decl, klass_init_val) :: data
     ++ [(DECL vtable_field_decl, CONSTRUCTOR vtable_field_type vtable_entries)]));;
  set_IDENTIFIER vt_name mono_vtable;;
  rest_of_decl_compilation mono_vtable.

End static_data.
