(* ===== verification/Frame.v ===== *)
(** * Frame: what reading the metadata leaves alone

    The functions that make types, records, declarations and initial values do
    not touch the evaluation stack nor the function being compiled.  The lemmas
    of this file show it for the builders of CilState, CilDecl, EvalStack,
    Records, Calls and StaticData; the hint database [frame] holds them. *)
From S2P Require Import Prelude Program Members Mangle Trees CilState CilDecl EvalStack Records.
From S2P Require Import Calls StaticData.

(** The relation holds between the states before and after the computation, if
    it ends. *)
Definition keeps_rel (R : cil_state -> cil_state -> Prop) {A} (m : M A) : Prop :=
  forall s, wp (fun _ => True) m (fun _ s' => R s s') s.

(** The name stands for a variable, a parameter or a function. *)
Definition declared (s : cil_state) (name : string) : Prop :=
  is_null (lookup_tree (IDENTIFIER_DECL s) name) = false.

(** Nodes are numbered upwards, and a record that was made before does not become
    that of another class. *)
Definition old_records (s s' : cil_state) : Prop :=
  (next_uid s <= next_uid s')%N /\
  forall n r, (r < next_uid s)%N ->
    IDENTIFIER_CLASS_DECL s' !! n = Some (RECORD_TYPE r) ->
    IDENTIFIER_CLASS_DECL s !! n = Some (RECORD_TYPE r).

(** The evaluation stack, the function being compiled, its variables and its
    labels are the same; classes keep their records, and what is declared stays
    declared. *)
Definition same_function (s s' : cil_state) : Prop :=
  top_item s' = top_item s /\ height s' = height s /\
  local_vars s' = local_vars s /\ formal_params s' = formal_params s /\
  local_labels s' = local_labels s /\ LABEL_DECL_of s' = LABEL_DECL_of s /\
  current_function_decl s' = current_function_decl s /\
  current_function_body s' = current_function_body s /\
  IDENTIFIER_CLASS_DECL s ⊆ IDENTIFIER_CLASS_DECL s' /\ old_records s s' /\
  forall name, declared s name -> declared s' name.

(** The value types of the classes are the same as well. *)
Definition same_values (s s' : cil_state) : Prop :=
  same_function s s' /\ TYPE_VALUETYPE s' = TYPE_VALUETYPE s.

(** So are the numbers of the methods. *)
Definition same_all (s s' : cil_state) : Prop :=
  same_values s s' /\ method_index s' = method_index s /\ method_count s' = method_count s.

Abbreviation keeps_function := (keeps_rel same_function).
Abbreviation keeps_values := (keeps_rel same_values).
Abbreviation keeps_all := (keeps_rel same_all).

#[export] Instance old_records_preorder : PreOrder old_records.
Proof.
  split; [by split |]. intros s1 s2 s3 [L1 H1] [L2 H2].
  split; [by etransitivity |]. intros n r Hr Hn. apply H1; [done |]. apply H2; [lia | done].
Qed.

#[export] Instance same_function_preorder : PreOrder same_function.
Proof.
  split; [intros s; unfold same_function; split_and!; done |].
  intros s1 s2 s3 H1 H2. unfold same_function in *. destruct_and!.
  split_and!; try congruence; [by etransitivity .. | auto].
Qed.

#[export] Instance same_values_preorder : PreOrder same_values.
Proof.
  split; [done |]. intros s1 s2 s3 [H1 ?] [H2 ?]. split; [by etransitivity | congruence].
Qed.

#[export] Instance same_all_preorder : PreOrder same_all.
Proof.
  split; [done |]. intros s1 s2 s3 (H1 & ? & ?) (H2 & ? & ?).
  split; [by etransitivity | split; congruence].
Qed.

Create HintDb frame.

Section combinators.
Context (R : cil_state -> cil_state -> Prop) `{!PreOrder R} {A B : Type}.

Lemma frame_ret (a : A) : keeps_rel R (mret a).
Proof. intros s. apply wp_ret. reflexivity. Qed.
Lemma frame_bind (m : M A) (f : A -> M B) :
  keeps_rel R m -> (forall a, keeps_rel R (f a)) -> keeps_rel R (m ≫= f).
Proof.
  intros Hm Hf s. apply wp_bind. eapply wp_mono; [| apply Hm]. intros a s' Hs.
  eapply wp_mono; [| apply Hf]. intros b s2 Hs2. exact (transitivity Hs Hs2).
Qed.
Lemma frame_get (f : cil_state -> A) : keeps_rel R (get f).
Proof. intros s. apply wp_get. reflexivity. Qed.
Lemma frame_fail f : keeps_rel R (fail (A := A) f).
Proof. intros s. apply wp_fail. exact I. Qed.
Lemma frame_internal_error msg : keeps_rel R (internal_error (A := A) msg).
Proof. apply frame_fail. Qed.
Lemma frame_modify (f : cil_state -> cil_state) :
  (forall s, R s (f s)) -> keeps_rel R (modify f).
Proof. intros Hf s. apply wp_modify, Hf. Qed.
Lemma frame_lift w (o : option A) : keeps_rel R (lift w o).
Proof. destruct o; [apply frame_ret | apply frame_fail]. Qed.
Lemma frame_array_get w (l : list A) i : keeps_rel R (array_get w l i).
Proof. unfold array_get. case_match; [apply frame_ret | apply frame_fail]. Qed.
End combinators.

Section combinators.
Context (R : cil_state -> cil_state -> Prop) `{!PreOrder R}.

Lemma frame_gcc_assert b w : keeps_rel R (gcc_assert b w).
Proof. unfold gcc_assert. case_match; [by apply frame_ret | apply frame_fail]. Qed.
Lemma frame_array_put {A} w (l : list A) i x : keeps_rel R (array_put w l i x).
Proof. unfold array_put. case_match; [by apply frame_ret | apply frame_fail]. Qed.
Lemma frame_for_loop {A} n i (body : Z -> A -> M A) a :
  (forall j b, keeps_rel R (body j b)) -> keeps_rel R (for_loop n i body a).
Proof.
  intros Hb. revert i a.
  induction n as [| n IH]; intros i a; cbn [for_loop]; [by apply frame_ret |].
  apply frame_bind; auto.
Qed.
End combinators.

Lemma keeps_values_function {A} (m : M A) : keeps_values m -> keeps_function m.
Proof. intros Hm s. eapply wp_mono; [| apply Hm]. intros a s' Hs. apply Hs. Qed.
Lemma keeps_all_values {A} (m : M A) : keeps_all m -> keeps_values m.
Proof. intros Hm s. eapply wp_mono; [| apply Hm]. intros a s' Hs. apply Hs. Qed.

(** The state differs in a part that the relation does not mention, or in the
    number of the next node. *)
Ltac same_part :=
  unfold same_all, same_values, same_function, old_records; cbn -[N.add]; split_and!;
  first [done | lia | by intros].

(** Reduce a goal to the calls of the function. *)
Ltac frame_step :=
  match goal with
  | |- keeps_rel _ (mbind _ _) => apply frame_bind; [apply _ | | intros ?]
  | |- keeps_rel _ (mret _) => apply frame_ret; apply _
  | |- keeps_rel _ (get _) => apply frame_get; apply _
  | |- keeps_rel _ (modify _) => apply frame_modify; intros ?; solve [same_part]
  | |- keeps_rel _ (match ?x with _ => _ end) => destruct x
  | |- keeps_rel _ (let x := ?a in _) => cbv zeta
  | |- _ => solve [auto with frame]
  end.
Ltac solve_frame := intros; repeat frame_step.

#[export] Hint Extern 0 (PreOrder _) => apply _ : frame.
#[export] Hint Resolve frame_ret frame_get frame_fail frame_internal_error
  frame_gcc_assert frame_lift frame_array_get frame_array_put frame_for_loop : frame.
#[export] Hint Extern 5 (keeps_rel same_function _) =>
  apply keeps_values_function; solve [auto with frame] : frame.
#[export] Hint Extern 5 (keeps_rel same_values _) =>
  apply keeps_all_values; solve [auto with frame] : frame.

(** A name is mangled on the side. *)
Lemma frame_finish_mangling {A} (text : MM A) : keeps_all (finish_mangling text).
Proof. intros s. unfold wp, finish_mangling. by destruct (text _). Qed.

#[export] Hint Resolve @frame_finish_mangling : frame.

(** Declaring a name. *)
Lemma same_all_declare s name d :
  same_all s (set_IDENTIFIER_DECL (<[name := DECL d]> (IDENTIFIER_DECL s)) s).
Proof.
  unfold same_all, same_values, same_function.
  split_and!; try done. intros n Hn. unfold declared, lookup_tree in *. cbn.
  destruct (decide (n = name)) as [-> | Hne]; [by rewrite lookup_insert_eq |].
  by rewrite lookup_insert_ne.
Qed.
Section frame.
Context `{Target, MiddleEnd, Program}.

Lemma frame_mangle_function m : keeps_all (mangle_function m).
Proof. apply frame_finish_mangling. Qed.
Lemma frame_mangle_mono_class k : keeps_all (mangle_mono_class k).
Proof. apply frame_finish_mangling. Qed.
Lemma frame_mangle_info k : keeps_all (mangle_mono_class_runtime_info k).
Proof. apply frame_finish_mangling. Qed.
Lemma frame_mangle_class_data k : keeps_all (mangle_class_data k).
Proof. apply frame_finish_mangling. Qed.
Lemma frame_mangle_vtable k : keeps_all (mangle_vtable k).
Proof. apply frame_finish_mangling. Qed.
Hint Resolve frame_mangle_function frame_mangle_mono_class frame_mangle_info
  frame_mangle_class_data frame_mangle_vtable : frame.

(** ** Trees and declarations *)

Lemma frame_type_of t : keeps_all (type_of t).
Proof. unfold type_of. solve_frame. Qed.
Lemma frame_fresh : keeps_all fresh.
Proof. intros s. unfold fresh. repeat wp_step. same_part. Qed.
Lemma frame_update_attrs d f : keeps_all (update_attrs d f).
Proof. unfold update_attrs. solve_frame. Qed.
Hint Resolve frame_type_of frame_fresh frame_update_attrs : frame.
Lemma frame_build_decl c n t : keeps_all (build_decl c n t).
Proof. unfold build_decl. solve_frame. Qed.
Lemma frame_set_DECL_CONTEXT d c : keeps_all (set_DECL_CONTEXT d c).
Proof. apply frame_update_attrs. Qed.
Lemma frame_set_TREE_STATIC d : keeps_all (set_TREE_STATIC d).
Proof. apply frame_update_attrs. Qed.
Lemma frame_set_TREE_PUBLIC d : keeps_all (set_TREE_PUBLIC d).
Proof. apply frame_update_attrs. Qed.
Lemma frame_set_DECL_EXTERNAL d : keeps_all (set_DECL_EXTERNAL d).
Proof. apply frame_update_attrs. Qed.
Lemma frame_set_DECL_INITIAL d t : keeps_all (set_DECL_INITIAL d t).
Proof. apply frame_update_attrs. Qed.
Lemma frame_build1 c ty t : keeps_all (build1 c ty t).
Proof. unfold build1. solve_frame. Qed.
Lemma frame_build2 c ty t u : keeps_all (build2 c ty t u).
Proof. unfold build2. solve_frame. Qed.
Lemma frame_build3 c ty t u v : keeps_all (build3 c ty t u v).
Proof. unfold build3. solve_frame. Qed.
Lemma frame_build4 c ty t u v w : keeps_all (build4 c ty t u v w).
Proof. unfold build4. solve_frame. Qed.
Lemma frame_convert ty t : keeps_all (convert ty t).
Proof.
  intros s. eapply wp_mono; [| apply convert_wp]. intros a s' [_ ->]. reflexivity.
Qed.
Lemma frame_fold_tree t : keeps_all (fold_tree t).
Proof. unfold fold_tree. solve_frame. Qed.
Hint Resolve frame_build_decl frame_set_DECL_CONTEXT frame_set_TREE_STATIC
  frame_set_TREE_PUBLIC frame_set_DECL_EXTERNAL frame_set_DECL_INITIAL frame_build1
  frame_build2 frame_build3 frame_build4 frame_convert frame_fold_tree : frame.
Lemma frame_build_empty_stmt : keeps_all build_empty_stmt.
Proof. unfold build_empty_stmt. solve_frame. Qed.
Lemma frame_save_expr t : keeps_all (save_expr t).
Proof. unfold save_expr. solve_frame. Qed.
Lemma frame_unsigned ty : keeps_all (cil_unsigned_type ty).
Proof. unfold cil_unsigned_type, cil_signed_or_unsigned_type. solve_frame. Qed.
Lemma frame_convert_to_stack_type t : keeps_all (convert_to_stack_type t).
Proof. unfold convert_to_stack_type. solve_frame. Qed.
Lemma frame_convert_item ty t : keeps_all (convert_item ty t).
Proof. unfold convert_item. solve_frame. Qed.
Lemma frame_stack_item n : keeps_all (stack_item n).
Proof. unfold stack_item. solve_frame. Qed.
Lemma frame_top_node : keeps_all top_node.
Proof. unfold top_node. solve_frame. Qed.
Hint Resolve frame_build_empty_stmt frame_save_expr frame_unsigned
  frame_convert_to_stack_type frame_convert_item frame_stack_item frame_top_node : frame.
Lemma frame_stack_elem n ty : keeps_all (stack_elem n ty).
Proof. unfold stack_elem. solve_frame. Qed.
Lemma frame_stack_top ty : keeps_all (stack_top ty).
Proof. unfold stack_top. solve_frame. Qed.

(** ** Records *)

Lemma frame_make_record : keeps_all make_record.
Proof. unfold make_record. solve_frame. Qed.
Lemma frame_fields_of r : keeps_all (fields_of r).
Proof. unfold fields_of. solve_frame. Qed.
Lemma frame_set_fields r l : keeps_all (set_fields r l).
Proof. unfold set_fields. solve_frame. Qed.
Lemma frame_mono_type f : keeps_all (mono_type f).
Proof. unfold mono_type. solve_frame. Qed.
Hint Resolve frame_stack_elem frame_stack_top frame_make_record frame_fields_of
  frame_set_fields frame_mono_type : frame.
Lemma frame_add_field r t c n : keeps_all (add_field r t c n).
Proof. unfold add_field. solve_frame. Qed.
Lemma frame_lookup_field r c n : keeps_all (lookup_field_decl r c n).
Proof. unfold lookup_field_decl. solve_frame. Qed.
Lemma frame_lookup_field_ind r i : keeps_all (lookup_field_decl_ind r i).
Proof. unfold lookup_field_decl_ind. solve_frame. Qed.
Lemma frame_ptr_class : keeps_all ptr_mono_class_type_node.
Proof. unfold ptr_mono_class_type_node. solve_frame. Qed.
Lemma frame_ptr_vtable : keeps_all ptr_mono_vtable_type_node.
Proof. unfold ptr_mono_vtable_type_node. solve_frame. Qed.
Hint Resolve frame_add_field frame_lookup_field frame_lookup_field_ind frame_ptr_class
  frame_ptr_vtable : frame.
Lemma frame_add_mono_obj_fields r : keeps_all (add_mono_obj_fields r).
Proof. unfold add_mono_obj_fields. solve_frame. Qed.
Lemma frame_add_mono_array_fields r : keeps_all (add_mono_array_fields r).
Proof. unfold add_mono_array_fields. solve_frame. Qed.
Hint Resolve frame_add_mono_obj_fields frame_add_mono_array_fields : frame.
Lemma frame_create_class_decl k n : keeps_all (create_class_decl k n).
Proof.
  intros s. unfold create_class_decl, make_record, fresh.
  repeat wp_step; [reflexivity |]. cbn in *.
  eapply wp_mono; [| apply frame_add_mono_obj_fields]. intros ? s' Hs.
  etransitivity; [| exact Hs]. unfold same_all, same_values, same_function, old_records.
  cbn. split_and!; try done; [by apply insert_subseteq | lia |].
  intros n' r Hr [[_ E] | [_ ?]]%lookup_insert_Some; [injection E as <-; lia | done].
Qed.
Lemma frame_create_value_decl : keeps_all create_value_decl.
Proof. unfold create_value_decl. solve_frame. Qed.
Lemma frame_create_static_fields_decl k n : keeps_all (create_static_fields_decl k n).
Proof. unfold create_static_fields_decl. solve_frame. Qed.
Lemma frame_create_array_decl t : keeps_all (create_array_decl t).
Proof. unfold create_array_decl. solve_frame. Qed.
Lemma frame_get_TYPE_VALUETYPE t : keeps_all (get_TYPE_VALUETYPE t).
Proof. unfold get_TYPE_VALUETYPE. solve_frame. Qed.
Lemma frame_set_value_type t v : keeps_function (set_value_type t v).
Proof. unfold set_value_type. solve_frame. Qed.

(** ** Functions, names and access to data *)

Lemma frame_function_address d : keeps_all (function_address d).
Proof. unfold function_address. solve_frame. Qed.
Hint Resolve frame_create_class_decl frame_create_value_decl
  frame_create_static_fields_decl frame_create_array_decl frame_get_TYPE_VALUETYPE
  frame_set_value_type frame_function_address : frame.
Lemma frame_create_function_ptr n p r : keeps_all (create_function_ptr n p r).
Proof. unfold create_function_ptr, create_function_decl. solve_frame. Qed.
Lemma frame_make_complex_identifier i l : keeps_all (make_complex_identifier i l).
Proof. unfold make_complex_identifier. solve_frame. Qed.
Lemma frame_convert_args tl l : keeps_all (convert_args tl l).
Proof.
  revert tl. induction l as [| t l IH]; intros tl; cbn [convert_args]; [auto with frame |].
  solve_frame.
Qed.
Hint Resolve frame_create_function_ptr frame_make_complex_identifier frame_convert_args
  : frame.

(** A call without parameters takes nothing from the stack. *)
Lemma frame_throw_call n v : keeps_all (throw_call n v).
Proof.
  unfold throw_call, create_function_decl, build_decl, fresh, function_address,
    build1, create_function_call_with, type_of.
  intros s. repeat (wp_step; try exact I); cbn in *; simplify_eq/=.
  all: try (unfold create_function_type in *; cbn in *; simplify_eq/=; discriminate).
  repeat wp_step. same_part.
Qed.
Hint Resolve frame_throw_call : frame.
Lemma frame_null_check t : keeps_all (create_null_reference_check t).
Proof. unfold create_null_reference_check. solve_frame. Qed.
Lemma frame_field_access t ty c n : keeps_all (create_field_access t ty c n).
Proof. unfold create_field_access. solve_frame. Qed.
Lemma frame_field_access_ind t ty i : keeps_all (create_field_access_ind t ty i).
Proof. unfold create_field_access_ind. solve_frame. Qed.
Lemma frame_get_ILClass n : keeps_all (get_ILClass_from_class_name n).
Proof. unfold get_ILClass_from_class_name. solve_frame. Qed.
Hint Resolve frame_null_check frame_field_access frame_field_access_ind frame_get_ILClass
  : frame.
Lemma frame_get_mono_class n : keeps_all (get_mono_class n).
Proof. unfold get_mono_class, get_mono_class_from_ILClass. solve_frame. Qed.
Lemma frame_declare n d :
  keeps_all (modify (fun s => set_IDENTIFIER_DECL (<[n := DECL d]> (IDENTIFIER_DECL s)) s)).
Proof. apply frame_modify. intros s. apply same_all_declare. Qed.
Hint Resolve frame_declare : frame.
Lemma frame_get_class_data n : keeps_all (get_class_data_decl n).
Proof. unfold get_class_data_decl. solve_frame. Qed.
Hint Resolve frame_get_mono_class frame_get_class_data : frame.
Lemma frame_static_access n ty f : keeps_all (create_static_field_access n ty f).
Proof. unfold create_static_field_access. solve_frame. Qed.
Lemma frame_virtual_ptr t r p i : keeps_all (create_virtual_method_ptr t r p i).
Proof. unfold create_virtual_method_ptr. solve_frame. Qed.
Lemma frame_size_unit t : keeps_all (TYPE_SIZE_UNIT t).
Proof. unfold TYPE_SIZE_UNIT. solve_frame. Qed.
Hint Resolve frame_static_access frame_virtual_ptr frame_size_unit : frame.
Lemma frame_intf_ptr t r p n i : keeps_all (create_intf_method_ptr t r p n i).
Proof. unfold create_intf_method_ptr. solve_frame. Qed.
Lemma frame_array_length t : keeps_all (get_array_length t).
Proof. unfold get_array_length. solve_frame. Qed.
Hint Resolve frame_intf_ptr frame_array_length : frame.
Lemma frame_bounds_check t i : keeps_all (create_array_bounds_check t i).
Proof. unfold create_array_bounds_check. solve_frame. Qed.
Hint Resolve frame_bounds_check : frame.

(** ** Initialised variables *)

Lemma frame_rest_of_decl d : keeps_all (rest_of_decl_compilation d).
Proof. unfold rest_of_decl_compilation. solve_frame. Qed.
Lemma frame_set_IDENTIFIER n d : keeps_all (set_IDENTIFIER n d).
Proof. apply frame_modify. intros s. apply same_all_declare. Qed.
Lemma frame_as_decl t : keeps_all (as_decl t).
Proof. unfold as_decl. solve_frame. Qed.
Lemma frame_address_of t d : keeps_all (address_of t d).
Proof. unfold address_of. solve_frame. Qed.
Hint Resolve frame_rest_of_decl frame_set_IDENTIFIER frame_as_decl frame_address_of : frame.
Lemma frame_identifier_decl n : keeps_all (identifier_decl n).
Proof. unfold identifier_decl. solve_frame. Qed.
Lemma frame_string_chars str n : keeps_all (string_chars str n).
Proof. unfold string_chars. apply frame_for_loop; [apply _ | solve_frame]. Qed.
Hint Resolve frame_identifier_decl frame_string_chars : frame.
Lemma frame_make_string n str l : keeps_all (make_string n str l).
Proof. unfold make_string. solve_frame. Qed.
Lemma frame_static_init_vals l : keeps_all (static_init_vals l).
Proof. induction l; cbn [static_init_vals]; solve_frame. Qed.
Hint Resolve frame_make_string frame_static_init_vals : frame.
Lemma frame_make_static_fields n : keeps_all (make_static_fields n).
Proof. unfold make_static_fields. solve_frame. Qed.
Lemma frame_record_init_vals r l : keeps_all (record_init_vals r l).
Proof. induction l as [| [] l IH]; cbn [record_init_vals]; solve_frame. Qed.
Hint Resolve frame_make_static_fields frame_record_init_vals : frame.
Lemma frame_make_record_init_val r l : keeps_all (make_record_init_val r l).
Proof. unfold make_record_init_val. solve_frame. Qed.
Hint Resolve frame_make_record_init_val : frame.
Lemma frame_member_info a b : keeps_all (make_mono_class_member_info a b).
Proof. unfold make_mono_class_member_info. solve_frame. Qed.
Lemma frame_make_runtime_info a b : keeps_all (make_mono_class_runtime_info a b).
Proof. unfold make_mono_class_runtime_info. solve_frame. Qed.
Lemma frame_parent_ref o : keeps_all (make_mono_class_parent_ref o).
Proof. unfold make_mono_class_parent_ref. solve_frame. Qed.
Lemma frame_interface_slot l i d : keeps_all (add_interface_slot l i d).
Proof. unfold add_interface_slot. solve_frame. Qed.
Hint Resolve frame_member_info frame_parent_ref frame_interface_slot : frame.
Lemma frame_interfaces_entries i l r : keeps_all (interfaces_entries_from i l r).
Proof.
  revert i r. induction l; intros i r; cbn [interfaces_entries_from]; solve_frame.
Qed.
Hint Resolve frame_interfaces_entries : frame.
Lemma frame_class_interfaces l : keeps_all (make_mono_class_interfaces l).
Proof.
  unfold make_mono_class_interfaces, create_mono_class_interfaces_entries. solve_frame.
Qed.
Lemma frame_create_mono_class n : keeps_all (create_mono_class_decl n).
Proof. unfold create_mono_class_decl. solve_frame. Qed.
Lemma frame_finish_mono_class d t : keeps_all (finish_mono_class d t).
Proof. unfold finish_mono_class. solve_frame. Qed.
Hint Resolve frame_class_interfaces frame_create_mono_class frame_finish_mono_class : frame.
Lemma frame_make_mono_class n l p a b c r : keeps_all (make_mono_class n l p a b c r).
Proof. unfold make_mono_class. solve_frame. Qed.
Lemma frame_make_intf_mono_class n l a : keeps_all (make_intf_mono_class n l a).
Proof. unfold make_intf_mono_class. solve_frame. Qed.
Lemma frame_make_ext_mono_class n : keeps_all (make_ext_mono_class n).
Proof. unfold make_ext_mono_class. solve_frame. Qed.
Lemma frame_make_vtable n v l : keeps_all (make_mono_vtable n v l).
Proof. unfold make_mono_vtable. solve_frame. Qed.
End frame.

#[export] Hint Resolve frame_mangle_function frame_mangle_mono_class frame_mangle_info
  frame_mangle_class_data frame_mangle_vtable frame_type_of frame_fresh
  frame_update_attrs frame_build_decl frame_set_DECL_CONTEXT frame_set_TREE_STATIC
  frame_set_TREE_PUBLIC frame_set_DECL_EXTERNAL frame_set_DECL_INITIAL frame_build1
  frame_build2 frame_build3 frame_build4 frame_convert frame_fold_tree
  frame_build_empty_stmt frame_save_expr frame_unsigned frame_convert_to_stack_type
  frame_convert_item frame_stack_item frame_top_node frame_stack_elem frame_stack_top
  frame_make_record frame_fields_of frame_set_fields frame_mono_type frame_add_field
  frame_lookup_field frame_lookup_field_ind frame_ptr_class frame_ptr_vtable
  frame_add_mono_obj_fields frame_add_mono_array_fields frame_create_class_decl
  frame_create_value_decl frame_create_static_fields_decl frame_create_array_decl
  frame_get_TYPE_VALUETYPE frame_set_value_type frame_function_address
  frame_create_function_ptr frame_make_complex_identifier frame_convert_args
  frame_throw_call frame_null_check frame_field_access frame_field_access_ind
  frame_get_ILClass frame_get_mono_class frame_get_class_data frame_static_access
  frame_virtual_ptr frame_size_unit frame_intf_ptr frame_array_length frame_bounds_check
  frame_rest_of_decl frame_set_IDENTIFIER frame_as_decl frame_address_of
  frame_identifier_decl frame_string_chars frame_make_string frame_static_init_vals
  frame_make_static_fields frame_record_init_vals frame_make_record_init_val
  frame_member_info frame_make_runtime_info frame_parent_ref frame_interface_slot
  frame_interfaces_entries frame_class_interfaces frame_create_mono_class
  frame_finish_mono_class frame_make_mono_class frame_make_intf_mono_class
  frame_make_ext_mono_class frame_make_vtable : frame.

(** ** The functions of the metadata library *)

Section members.
Context `{Program}.

Ltac frame_induction l := induction l; intros; simpl; solve_frame.

Lemma frame_strcmp_eq a b : keeps_all (strcmp_eq a b).
Proof. unfold strcmp_eq. solve_frame. Qed.
Lemma frame_ClassIdentical n a b : keeps_all (ClassIdentical n a b).
Proof. revert a b. frame_induction n. Qed.
Hint Resolve frame_strcmp_eq frame_ClassIdentical : frame.
Lemma frame_params_identical f a b n i :
  (forall a b, keeps_all (f a b)) -> keeps_all (params_identical f a b n i).
Proof. intros Hf. revert i. frame_induction n. Qed.
Hint Resolve frame_params_identical : frame.
Lemma frame_type_identical n a b : keeps_all (type_identical n a b).
Proof. revert a b. frame_induction n. Qed.
Hint Resolve frame_type_identical : frame.
Lemma frame_InheritsFromValueType n k : keeps_all (InheritsFromValueType n k).
Proof. revert k. frame_induction n. Qed.
Hint Resolve frame_InheritsFromValueType : frame.
Lemma frame_ILClassIsValueType k : keeps_all (ILClassIsValueType k).
Proof. unfold ILClassIsValueType. solve_frame. Qed.
Lemma frame_inherits_loop n k a : keeps_all (inherits_loop n k a).
Proof. revert k. frame_induction n. Qed.
Hint Resolve frame_ILClassIsValueType frame_inherits_loop : frame.
Lemma frame_ILClassInheritsFrom k a : keeps_all (ILClassInheritsFrom k a).
Proof. unfold ILClassInheritsFrom. solve_frame. Qed.
Lemma frame_nesting_loop n k p :
  (forall k, keeps_all (p k)) -> keeps_all (nesting_loop n k p).
Proof. intros Hp. revert k. frame_induction n. Qed.
Hint Resolve frame_ILClassInheritsFrom frame_nesting_loop : frame.
Lemma frame_ILClassIsNested a b : keeps_all (ILClassIsNested a b).
Proof. unfold ILClassIsNested. solve_frame. Qed.
Lemma frame_IsNestedInheritsFrom a b : keeps_all (ILClassIsNestedInheritsFrom a b).
Proof. unfold ILClassIsNestedInheritsFrom. apply frame_nesting_loop. solve_frame. Qed.
Hint Resolve frame_ILClassIsNested frame_IsNestedInheritsFrom : frame.
Lemma frame_AccessibleNestedPrivate a b : keeps_all (AccessibleNestedPrivate a b).
Proof. unfold AccessibleNestedPrivate. solve_frame. Qed.
Hint Resolve frame_AccessibleNestedPrivate : frame.
Lemma frame_AccessibleNestedFamily a b : keeps_all (AccessibleNestedFamily a b).
Proof. unfold AccessibleNestedFamily. solve_frame. Qed.
Hint Resolve frame_AccessibleNestedFamily : frame.
Lemma frame_ILClassAccessible n a b : keeps_all (ILClassAccessible n a b).
Proof. revert a b. frame_induction n. Qed.
Hint Resolve frame_ILClassAccessible : frame.
Lemma frame_ILMemberAccessible a b : keeps_all (ILMemberAccessible a b).
Proof. unfold ILMemberAccessible. solve_frame. Qed.
Lemma frame_same_name_and_type m n t : keeps_all (same_name_and_type m n t).
Proof. unfold same_name_and_type, ILTypeIdentical. solve_frame. Qed.
Hint Resolve frame_ILMemberAccessible frame_same_name_and_type : frame.
Lemma frame_base_candidate a b c : keeps_all (base_candidate a b c).
Proof. unfold base_candidate. solve_frame. Qed.
Lemma frame_impl_candidate a b c d : keeps_all (impl_candidate a b c d).
Proof. unfold impl_candidate. solve_frame. Qed.
Lemma frame_find_method p l :
  (forall k, keeps_all (p k)) -> keeps_all (find_method p l).
Proof. intros Hp. frame_induction l. Qed.
Hint Resolve frame_base_candidate frame_impl_candidate frame_find_method : frame.
Lemma frame_base_in_parents n k p :
  (forall k, keeps_all (p k)) -> keeps_all (base_in_parents n k p).
Proof. intros Hp. revert k. frame_induction n. Qed.
Hint Resolve frame_base_in_parents : frame.
Lemma frame_ILMemberGetBase m : keeps_all (ILMemberGetBase m).
Proof. unfold ILMemberGetBase. solve_frame. Qed.
Lemma frame_find_override n k m o : keeps_all (find_override n k m o).
Proof. revert k. frame_induction n. Qed.
Hint Resolve frame_find_override : frame.
Lemma frame_ILClassGetMethodImpl k m : keeps_all (ILClassGetMethodImpl k m).
Proof. unfold ILClassGetMethodImpl. solve_frame. Qed.
Lemma frame_resolve_class_ref k : keeps_all (resolve_class_ref k).
Proof. unfold resolve_class_ref, get_assembly_ref_name. solve_frame. Qed.
End members.

#[export] Hint Resolve frame_strcmp_eq frame_ILClassIsValueType frame_ILMemberGetBase
  frame_ILClassGetMethodImpl frame_resolve_class_ref : frame.
