(* ===== verification/Metadata.v ===== *)
(** * Metadata: what the code generator asks of the reader of types

    The instruction handlers (src/gcc/cil/instr.c) and the rest of
    src/gcc/cil/parse_assembly.c read a type with [parse_type] and find the
    record of a class with [get_class_decl].  This interface states the two and
    what the handlers rely on: they may create declarations, but leave the
    evaluation stack and the function being compiled as they are.  [Reads] is
    the same for any relation between states that reading keeps.  The
    functions of parse_assembly.c that only call these two are defined over the
    interface; the file Assembly implements it. *)
From S2P Require Import Prelude ILTypes Program Trees CilState CilDecl EvalStack Records.
From S2P Require Import Calls Frame.

Class TypeReader `{Program} := {
  parse_type : ILType -> M ttype;
  get_class_decl : N -> M ttype
}.

Class Metadata `{TypeReader} := {
  parse_type_keeps t : keeps_function (parse_type t);
  get_class_decl_keeps c : keeps_function (get_class_decl c)
}.

(** ** Names of classes *)

Section class_names.
Context `{Program}.

Definition get_assembly_name {S} (klass : N) : comp S string :=
  if ILClassIsRef klass then get_assembly_ref_name klass
  else mret (ILImageGetAssemblyName (ILClassToImage klass)).

Definition get_namespace_class_name (klass : N) : M string :=
  name ←
    (match ILClass_Namespace klass with
     | Some ns => make_complex_identifier ns [ILClass_Name klass]
     | None =>
         if is_nested klass then
           parent ← lift "ILClass_NestedParent" (ILClassGetNestedParent klass);
           match ILClass_Namespace parent with
           | Some ns => make_complex_identifier ns [ILClass_Name parent; ILClass_Name klass]
           | None => make_complex_identifier (ILClass_Name parent) [ILClass_Name klass]
           end
         else mret (ILClass_Name klass)
     end);
  assembly ← get_assembly_name klass;
  make_complex_identifier assembly [name].
End class_names.

(** ** Signatures *)

Section signatures.
Context `{Program} {types : TypeReader}.

Definition get_class_ptr_type (klass : N) : M ttype :=
  class_decl ← get_class_decl klass; mret (build_pointer_type class_decl).

Definition parse_return_type (method : N) : M ttype :=
  parse_type (ILTypeGetReturn (ILMethod_Signature method)).

(** The types of the parameters [param .. num_params]. *)
Fixpoint parse_param_types (n : nat) (param : Z) (sig : ILType) : M (list ttype) :=
  match n with
  | O => mret []
  | S n =>
      il_type ← lift "ILTypeGetParam" (ILTypeGetParam sig param);
      type ← parse_type il_type;
      params ← parse_param_types n (param + 1) sig;
      mret (type :: params)
  end.

Definition parse_parameters_types (method : N) : M (list ttype) :=
  let sig := ILMethod_Signature method in
  has_this ← lift "ILType_HasThis" (ILType_HasThis sig);
  this ←
    (if (has_this : bool) then
       obj_ref_type ← get_class_ptr_type (ILMethod_Owner method); mret [obj_ref_type]
     else mret []);
  params ← parse_param_types (Z.to_nat (ILTypeNumParams sig)) 1 sig;
  mret (this ++ params).

End signatures.

(** ** What reading keeps *)

(** A relation between states that the readers keep, and every computation that
    makes nodes, records and declarations but no value types. *)
Class Reads `{TypeReader} (R : cil_state -> cil_state -> Prop) := {
  reads_preorder :: PreOrder R;
  reads_values A (m : M A) : keeps_values m -> keeps_rel R m;
  reads_type t : keeps_rel R (parse_type t);
  reads_class c : keeps_rel R (get_class_decl c)
}.

#[export] Instance metadata_reads `{Metadata} : Reads same_function.
Proof.
  split; [apply _ | intros; by apply keeps_values_function | apply parse_type_keeps
         | apply get_class_decl_keeps].
Qed.

Lemma frame_assembly_name `{Program} k : keeps_all (get_assembly_name k).
Proof. unfold get_assembly_name, get_assembly_ref_name. solve_frame. Qed.
#[export] Hint Resolve frame_assembly_name : frame.
Lemma frame_class_name `{Program} k : keeps_all (get_namespace_class_name k).
Proof. unfold get_namespace_class_name. solve_frame. Qed.
#[export] Hint Resolve frame_class_name : frame.

Section keeps.
Context `{Program} {types : TypeReader} {R : cil_state -> cil_state -> Prop} {reads : Reads R}.

Hint Resolve reads_type reads_class : frame.
Hint Extern 5 (keeps_rel R _) => apply reads_values; solve [auto with frame] : frame.

Lemma frame_class_ptr_type k : keeps_rel R (get_class_ptr_type k).
Proof. unfold get_class_ptr_type. solve_frame. Qed.
Lemma frame_return_type m : keeps_rel R (parse_return_type m).
Proof. unfold parse_return_type. solve_frame. Qed.
Lemma frame_param_types n i sig : keeps_rel R (parse_param_types n i sig).
Proof.
  revert i. induction n; intros i; cbn [parse_param_types]; solve_frame.
Qed.
Hint Resolve frame_class_ptr_type frame_param_types : frame.
Lemma frame_parameters_types m : keeps_rel R (parse_parameters_types m).
Proof. unfold parse_parameters_types. solve_frame. Qed.
End keeps.

#[export] Hint Extern 0 (Reads _) => apply _ : frame.
#[export] Hint Resolve parse_type_keeps get_class_decl_keeps frame_class_ptr_type
  frame_return_type frame_param_types frame_parameters_types : frame.
