(* ===== verification/Instr.v ===== *)
(** * Instr: the instructions that take a metadata token

    Models src/gcc/cil/instr.c. *)
From S2P Require Import Prelude ILMeta ILTypes Program Mangle Trees CilState CilDecl EvalStack Records.
From S2P Require Import Calls Statements StaticData Frame Metadata.

(** [sprintf ("%x")]: lower-case hexadecimal without leading zeros. *)
Definition hex_digit (lower : bool) (d : Z) : Ascii.ascii :=
  Ascii.ascii_of_nat (Z.to_nat (if d <? 10 then 48 + d
                                else if lower then 87 + d else 55 + d)).

(** The last [n] hexadecimal digits of [x]. *)
Fixpoint hex_digits (lower : bool) (n : nat) (x : Z) : string :=
  match n with
  | O => ""
  | S n => hex_digits lower n (x / 16) +:+ String (hex_digit lower (x mod 16)) ""
  end.

(** How many digits [x] has, at least one. *)
Definition hex_length (x : Z) : nat := S (Z.to_nat (Z.log2 x / 4)).

Section instr.
Context `{Target, MiddleEnd, Metadata}.

(** A handle that must not be null. *)
Definition non_null {A} (msg : string) (o : option A) : M A :=
  match o with Some a => mret a | None => internal_error msg end.

Definition instr_call (token : Z) : M unit :=
  method ← non_null "Error while processing method call" (ILMethod_FromToken token);
  method_name ← mangle_function method;
  return_type ← parse_return_type method;
  params ← parse_parameters_types method;
  make_method_call method_name return_type params false.

Definition instr_ldftn (token : Z) : M unit :=
  method ← non_null "Error while processing instruction 'ldftn'" (ILMethod_FromToken token);
  method_name ← mangle_function method;
  return_type ← parse_return_type method;
  params ← parse_parameters_types method;
  ptr ← create_function_ptr method_name params return_type;
  stack_push ptr.

(** [method->index] *)
Definition index_of (method : N) : M Z := get (fun s => default 0 (method_index s !! method)).

Definition instr_callvirt (token : Z) : M unit :=
  method ← non_null "Error while processing method call" (ILMethod_FromToken token);
  method_name ← mangle_function method;
  return_type ← parse_return_type method;
  params ← parse_parameters_types method;
  if ILMethod_IsVirtual method && negb (ILMethod_IsRuntime method) then
    let owner := ILMethod_Owner method in
    if ILClass_IsInterface owner then
      intf_mono_class_name ← mangle_mono_class owner;
      index ← index_of method;
      make_intf_method_call return_type params intf_mono_class_name index
    else
      index ← index_of method;
      make_virtual_method_call return_type params index
  else make_method_call method_name return_type params true.

Definition instr_ldvirtftn (token : Z) : M unit :=
  method ← non_null "Error while processing instruction 'ldftn'" (ILMethod_FromToken token);
  _method_name ← (mangle_function method : M string);
  return_type ← parse_return_type method;
  params ← parse_parameters_types method;
  let owner := ILMethod_Owner method in
  ptr ←
    (if ILClass_IsInterface owner then
       intf_mono_class_name ← mangle_mono_class owner;
       obj_ref ← stack_pop None;
       index ← index_of method;
       create_intf_method_ptr obj_ref return_type params intf_mono_class_name index
     else
       obj_ref ← stack_pop None;
       index ← index_of method;
       create_virtual_method_ptr obj_ref return_type params index);
  stack_push ptr.

(** The name of the variable of a string: [.S] and the number in hexadecimal.
    [token & ~IL_META_TOKEN_MASK] is the number. *)
Definition string_name (token : Z) : string :=
  let n := Z.land token 0x00FFFFFF in
  ".S" +:+ hex_digits true (hex_length n) n.

Definition instr_ldstr (token : Z) : M unit :=
  let name := string_name token in
  known ← get (fun s => lookup_tree (IDENTIFIER_DECL s) name);
  (if is_null known then
     match ILImageGetUserString (Z.land token 0x00FFFFFF) with
     | Some (str, len) => make_string name str len
     | None => internal_error "Could not get string value"
     end
   else mret tt);;
  t ← get (fun s => lookup_tree (IDENTIFIER_DECL s) name);
  type ← type_of t;
  addr ← build1 ADDR_EXPR (Some (build_pointer_type type)) t;
  stack_push addr;;
  make_method_call "ldstr" ptr_type_node [ptr_type_node] false.

Definition instr_newarr (token : Z) : M unit :=
  klass ← lift "ILClassToType" (ILClass_FromToken token);
  type ← ILClassToType klass;
  elem_type ← parse_type type;
  make_new_array elem_type.

Definition instr_newobj (token : Z) : M unit :=
  method ← non_null "Error while processing instruction newobj" (ILMethod_FromToken token);
  let klass := ILMethod_Owner method in
  class_name ← get_namespace_class_name klass;
  ctor_name ← mangle_function method;
  ctor_params ← parse_parameters_types method;
  make_new_object class_name ctor_name ctor_params.

Definition instr_initobj (token : Z) : M unit :=
  klass ← non_null "Error while processing instruction newobj" (ILClass_FromToken token);
  class_name ← get_namespace_class_name klass;
  o ← get (fun s => IDENTIFIER_CLASS_DECL s !! class_name);
  class_decl ← lift "TYPE_VALUETYPE" o;
  valueclass ← get_TYPE_VALUETYPE class_decl;
  valueclass ← lift "TYPE_SIZE_UNIT" valueclass;
  size ← get (fun s => type_size_unit s valueclass);
  stack_push (build_int_cst integer_type_node size);;
  make_method_call "initobj" void_type_node
    [build_pointer_type void_type_node; size_type_node] false.

Definition instr_ldfld (token : Z) : M unit :=
  fld ← non_null "Error while processing instruction ldfld" (ILField_FromToken token);
  field_type ← parse_type (ILFieldGetType fld);
  field_context ← get_class_decl (ILField_Owner fld);
  obj ← stack_pop None;
  checked ← create_null_reference_check obj;
  stack_push checked;;
  let field_name := ILField_Name fld in
  obj ← stack_pop None;
  access ← create_field_access obj field_type (Some field_context) field_name;
  stack_push access.

Definition instr_stfld (token : Z) : M unit :=
  fld ← non_null "Error while processing instruction stfld" (ILField_FromToken token);
  field_type ← parse_type (ILFieldGetType fld);
  field_context ← get_class_decl (ILField_Owner fld);
  make_field_assignment field_type (Some field_context) (ILField_Name fld).

Definition instr_ldsfld (token : Z) : M unit :=
  fld ← non_null "Error while processing instruction ldsfld" (ILField_FromToken token);
  class_name ← get_namespace_class_name (ILField_Owner fld);
  field_type ← parse_type (ILFieldGetType fld);
  access ← create_static_field_access class_name field_type (ILField_Name fld);
  stack_push access.

Definition instr_stsfld (token : Z) : M unit :=
  fld ← non_null "Error while processing instruction stsfld" (ILField_FromToken token);
  class_name ← get_namespace_class_name (ILField_Owner fld);
  field_type ← parse_type (ILFieldGetType fld);
  make_static_field_assignment class_name field_type (ILField_Name fld).

End instr.
