(* ===== verification/ParseInstr.v ===== *)
(** * ParseInstr: from instruction bytes to trees

    Models src/gcc/cil/parse_instr.c.  The code pointer is the list of the bytes
    from it to the end of the method's code; reading further is undefined.  The
    [switch] of [parse_instr] is the chain [parse_instr_1], ..., [parse_instr_9],
    each a run of its cases; that of [parse_prefixed_instr] likewise. *)
From S2P Require Import Prelude Values Opcodes Trees CilState CilDecl EvalStack Records.
From S2P Require Import Metadata Calls Statements StaticData Instr.

(** What [parse_instr_arg] returns: a constant, a label name or the labels of a
    [switch]. *)
Inductive instr_arg :=
| Arg_none
| Arg_tree (t : tree)
| Arg_label (name : string)
| Arg_labels (l : list (tree * string)).

Section parse_instr.
Context `{Host, Target, MiddleEnd, Metadata}.

Definition arg_tree (a : instr_arg) : M tree :=
  match a with
  | Arg_tree t => mret t
  | Arg_none => mret NULL_TREE
  | _ => fail (Undefined "not an expression")
  end.
Definition arg_label (a : instr_arg) : M string :=
  match a with Arg_label n => mret n | _ => fail (Undefined "not a label") end.
Definition arg_labels (a : instr_arg) : M (list (tree * string)) :=
  match a with
  | Arg_labels l => mret l
  | Arg_none => mret []
  | _ => fail (Undefined "not a list of labels")
  end.

(** [code[i]] *)
Definition code_byte (code : list Z) (i : Z) : M Z := lift "code" (byte_at code i).
(** [(ILToken)(IL_READ_UINT32 (code + 1))] *)
Definition read_token (code : list Z) : M Z := lift "code" (IL_READ_UINT32 code 1).
Definition array_read (what : string) (a : cil_state -> list tree) (i : Z) : M tree :=
  l ← get a; array_get what l i.

Definition not_supported (opcode : ILOpcodeInfo) : M unit :=
  internal_error ("Instruction '" +:+ op_name opcode +:+ "' is not supported yet").
Definition unknown_instruction (opcode : ILOpcodeInfo) : M unit :=
  internal_error ("Unkown instruction: '" +:+ op_name opcode +:+ "'").

(** ["L_%08lX"]: at least eight upper-case hexadecimal digits. *)
Definition label_string (offset : Z) : string :=
  "L_" +:+ hex_digits false (Nat.max 8 (hex_length offset)) offset.

(** The buffer has room for ten characters and the terminator. *)
Definition get_label_name (offset : Z) : M string :=
  let s := label_string offset in
  if (String.length s + 1 <=? 11)%nat then mret s
  else fail (Undefined "get_label_name: buffer").

Definition get_special_size (code : list Z) (csize : Z) : M Z :=
  c ← code_byte code 0;
  if c =? il_op_value IL_OP_SWITCH then
    if csize <? 5 then mret 0
    else
      num_items ← lift "code" (IL_READ_UINT32 code 1);
      if (0x40000000 <=? num_items) || (csize - 5 <? num_items * 4) then mret 0
      else mret (num_items * 4 + 5)
  else mret 0.

(** The [long] words that an [ILInt64] consists of, on a little-endian host. *)
Definition long_words (num : Z) : list Z :=
  if long_bits =? 32 then [long num; long (num / 2 ^ 32)] else [num].

(** [real_from_target_fmt (&val, words, format)]: the single format reads one
    word, the double format two. *)
Definition target_real (format : real_format) (words : list Z) : M real_value :=
  w0 ← lift "num" (words !! 0%nat);
  match format with
  | ieee_single_format => mret (real_from_target_fmt format [w0])
  | ieee_double_format =>
      w1 ← lift "num" (words !! 1%nat);
      mret (real_from_target_fmt format [w0; w1])
  end.

(** [for (item = 0; item < num_items; ++item)] of a [switch] *)
Definition switch_labels (code : list Z) (offset num_items : Z) : M (list (tree * string)) :=
  for_loop (Z.to_nat num_items) 0 (fun item labels =>
    v ← lift "code" (IL_READ_UINT32 code (5 + item * 4));
    let dest := ulong (long offset + 5 + long num_items * 4 + long v) in
    name ← get_label_name dest;
    mret (labels ++ [(build_int_cst integer_type_node item, name)])) [].

Definition parse_instr_arg (code : list Z) (argType : il_args) (offset : Z) : M instr_arg :=
  match argType with
  | IL_OPCODE_ARGS_INVALID => internal_error "IL instruction argument type is invalid"
  | IL_OPCODE_ARGS_NONE => mret Arg_none
  | IL_OPCODE_ARGS_INT8 =>
      num ← code_byte code 1;
      mret (Arg_tree (build_int_cst int32_type_node (plain_char num)))
  | IL_OPCODE_ARGS_UINT8 | IL_OPCODE_ARGS_INT16 | IL_OPCODE_ARGS_UINT16 =>
      internal_error "IL instruction argument type not implemented"
  | IL_OPCODE_ARGS_INT32 =>
      num ← lift "code" (IL_READ_INT32 code 1);
      mret (Arg_tree (build_int_cst int32_type_node num))
  | IL_OPCODE_ARGS_FLOAT32 =>
      num ← lift "code" (IL_READ_INT64 code 1);
      val ← target_real ieee_single_format (long_words num);
      mret (Arg_tree (REAL_CST float_type_node val))
  | IL_OPCODE_ARGS_FLOAT64 =>
      num ← lift "code" (IL_READ_INT64 code 1);
      val ← target_real ieee_double_format (long_words num);
      mret (Arg_tree (REAL_CST double_type_node val))
  | IL_OPCODE_ARGS_INT64 | IL_OPCODE_ARGS_TOKEN | IL_OPCODE_ARGS_NEW
  | IL_OPCODE_ARGS_LDTOKEN | IL_OPCODE_ARGS_SHORT_VAR | IL_OPCODE_ARGS_SHORT_ARG
  | IL_OPCODE_ARGS_LONG_VAR | IL_OPCODE_ARGS_LONG_ARG | IL_OPCODE_ARGS_ANN_DEAD
  | IL_OPCODE_ARGS_ANN_LIVE | IL_OPCODE_ARGS_ANN_ARG =>
      internal_error "IL instruction argument type not implemented"
  | IL_OPCODE_ARGS_SHORT_JUMP =>
      b ← code_byte code 1;
      name ← get_label_name (ulong (long offset + 2 + schar b));
      mret (Arg_label name)
  | IL_OPCODE_ARGS_LONG_JUMP =>
      v ← lift "code" (IL_READ_UINT32 code 1);
      name ← get_label_name (ulong (long offset + 5 + long v));
      mret (Arg_label name)
  | IL_OPCODE_ARGS_CALL | IL_OPCODE_ARGS_CALLI | IL_OPCODE_ARGS_CALLVIRT =>
      internal_error "IL instruction argument type not implemented"
  | IL_OPCODE_ARGS_SWITCH =>
      num_items ← lift "code" (IL_READ_UINT32 code 1);
      labels ← switch_labels code offset num_items;
      mret (Arg_labels labels)
  | IL_OPCODE_ARGS_STRING | IL_OPCODE_ARGS_ANN_DATA | IL_OPCODE_ARGS_ANN_REF
  | IL_OPCODE_ARGS_ANN_PHI =>
      internal_error "IL instruction argument type not implemented"
  end.

(** ** One instruction *)

Definition parse_instr_1 (op : il_op) (code : list Z) (opcode : ILOpcodeInfo)
    (offset : Z) (rest : M unit) : M unit :=
  match op with
  | IL_OP_NOP =>
      mret tt
  | IL_OP_BREAK =>
      not_supported opcode
  | IL_OP_LDARG_0 | IL_OP_LDARG_1 | IL_OP_LDARG_2 | IL_OP_LDARG_3 =>
      v ← array_read "formal_params" formal_params (il_op_value op - il_op_value IL_OP_LDARG_0);
      stack_push v
  | IL_OP_LDLOC_0 | IL_OP_LDLOC_1 | IL_OP_LDLOC_2 | IL_OP_LDLOC_3 =>
      v ← array_read "local_vars" local_vars (il_op_value op - il_op_value IL_OP_LDLOC_0);
      stack_push v
  | IL_OP_STLOC_0 | IL_OP_STLOC_1 | IL_OP_STLOC_2 | IL_OP_STLOC_3 =>
      v ← array_read "local_vars" local_vars (il_op_value op - il_op_value IL_OP_STLOC_0);
      make_assignment v
  | IL_OP_LDARG_S =>
      num ← code_byte code 1;
      v ← array_read "formal_params" formal_params num;
      stack_push v
  | IL_OP_LDARGA_S =>
      not_supported opcode
  | IL_OP_STARG_S =>
      num ← code_byte code 1;
      v ← array_read "formal_params" formal_params num;
      make_assignment v
  | IL_OP_LDLOC_S =>
      num ← code_byte code 1;
      v ← array_read "local_vars" local_vars num;
      stack_push v
  | IL_OP_LDLOCA_S =>
      num ← code_byte code 1;
      v ← array_read "local_vars" local_vars num;
      ty ← type_of v;
      a ← build1 ADDR_EXPR (Some (build_pointer_type ty)) v;
      stack_push a
  | IL_OP_STLOC_S =>
      num ← code_byte code 1;
      v ← array_read "local_vars" local_vars num;
      make_assignment v
  | IL_OP_LDNULL =>
      stack_push null_pointer_node
  | IL_OP_LDC_I4_M1 =>
      stack_push (build_int_cst int32_type_node (-1))
  | IL_OP_LDC_I4_0 | IL_OP_LDC_I4_1 | IL_OP_LDC_I4_2 | IL_OP_LDC_I4_3
  | IL_OP_LDC_I4_4 | IL_OP_LDC_I4_5 | IL_OP_LDC_I4_6 | IL_OP_LDC_I4_7
  | IL_OP_LDC_I4_8 =>
      stack_push (build_int_cst int32_type_node (il_op_value op - il_op_value IL_OP_LDC_I4_0))
  | IL_OP_LDC_I4_S =>
      a ← parse_instr_arg code (op_args opcode) offset;
      t ← arg_tree a;
      stack_push t
  | IL_OP_LDC_I4 =>
      a ← parse_instr_arg code (op_args opcode) offset;
      t ← arg_tree a;
      stack_push t
  | IL_OP_LDC_I8 =>
      not_supported opcode
  | IL_OP_LDC_R4 =>
      a ← parse_instr_arg code (op_args opcode) offset;
      t ← arg_tree a;
      stack_push t
  | IL_OP_LDC_R8 =>
      a ← parse_instr_arg code (op_args opcode) offset;
      t ← arg_tree a;
      stack_push t
  | IL_OP_LDPTR =>
      not_supported opcode
  | IL_OP_DUP =>
      make_instr_dup
  | IL_OP_POP =>
      make_instr_pop
  | _ => rest
  end.

Definition parse_instr_2 (op : il_op) (code : list Z) (opcode : ILOpcodeInfo)
    (offset : Z) (rest : M unit) : M unit :=
  match op with
  | IL_OP_JMP =>
      not_supported opcode
  | IL_OP_CALL =>
      token ← read_token code;
      instr_call token
  | IL_OP_CALLI =>
      not_supported opcode
  | IL_OP_RET =>
      make_return_value
  | IL_OP_BR_S =>
      a ← parse_instr_arg code (op_args opcode) offset;
      label_name ← arg_label a;
      make_branch_unconditional label_name
  | IL_OP_BRFALSE_S =>
      a ← parse_instr_arg code (op_args opcode) offset;
      label_name ← arg_label a;
      make_branch_on_false label_name
  | IL_OP_BRTRUE_S =>
      a ← parse_instr_arg code (op_args opcode) offset;
      label_name ← arg_label a;
      make_branch_on_true label_name
  | IL_OP_BEQ_S =>
      a ← parse_instr_arg code (op_args opcode) offset;
      label_name ← arg_label a;
      make_branch_comparison EQ_EXPR UNEQ_EXPR label_name false
  | IL_OP_BGE_S =>
      a ← parse_instr_arg code (op_args opcode) offset;
      label_name ← arg_label a;
      make_branch_comparison GE_EXPR UNGE_EXPR label_name false
  | IL_OP_BGT_S =>
      a ← parse_instr_arg code (op_args opcode) offset;
      label_name ← arg_label a;
      make_branch_comparison GT_EXPR UNGT_EXPR label_name false
  | IL_OP_BLE_S =>
      a ← parse_instr_arg code (op_args opcode) offset;
      label_name ← arg_label a;
      make_branch_comparison LE_EXPR UNLE_EXPR label_name false
  | IL_OP_BLT_S =>
      a ← parse_instr_arg code (op_args opcode) offset;
      label_name ← arg_label a;
      make_branch_comparison LT_EXPR UNLT_EXPR label_name false
  | IL_OP_BNE_UN_S =>
      a ← parse_instr_arg code (op_args opcode) offset;
      label_name ← arg_label a;
      make_branch_comparison NE_EXPR NE_EXPR label_name true
  | IL_OP_BGE_UN_S =>
      a ← parse_instr_arg code (op_args opcode) offset;
      label_name ← arg_label a;
      make_branch_comparison GE_EXPR UNGE_EXPR label_name true
  | IL_OP_BGT_UN_S =>
      a ← parse_instr_arg code (op_args opcode) offset;
      label_name ← arg_label a;
      make_branch_comparison GT_EXPR UNGT_EXPR label_name true
  | IL_OP_BLE_UN_S =>
      a ← parse_instr_arg code (op_args opcode) offset;
      label_name ← arg_label a;
      make_branch_comparison LE_EXPR UNLE_EXPR label_name true
  | IL_OP_BLT_UN_S =>
      a ← parse_instr_arg code (op_args opcode) offset;
      label_name ← arg_label a;
      make_branch_comparison LT_EXPR UNLT_EXPR label_name true
  | IL_OP_BR =>
      a ← parse_instr_arg code (op_args opcode) offset;
      label_name ← arg_label a;
      make_branch_unconditional label_name
  | _ => rest
  end.

Definition parse_instr_3 (op : il_op) (code : list Z) (opcode : ILOpcodeInfo)
    (offset : Z) (rest : M unit) : M unit :=
  match op with
  | IL_OP_BRFALSE =>
      a ← parse_instr_arg code (op_args opcode) offset;
      label_name ← arg_label a;
      make_branch_on_false label_name
  | IL_OP_BRTRUE =>
      a ← parse_instr_arg code (op_args opcode) offset;
      label_name ← arg_label a;
      make_branch_on_true label_name
  | IL_OP_BEQ =>
      a ← parse_instr_arg code (op_args opcode) offset;
      label_name ← arg_label a;
      make_branch_comparison EQ_EXPR UNEQ_EXPR label_name false
  | IL_OP_BGE =>
      a ← parse_instr_arg code (op_args opcode) offset;
      label_name ← arg_label a;
      make_branch_comparison GE_EXPR UNGE_EXPR label_name false
  | IL_OP_BGT =>
      a ← parse_instr_arg code (op_args opcode) offset;
      label_name ← arg_label a;
      make_branch_comparison GT_EXPR UNGT_EXPR label_name false
  | IL_OP_BLE =>
      a ← parse_instr_arg code (op_args opcode) offset;
      label_name ← arg_label a;
      make_branch_comparison LE_EXPR UNLE_EXPR label_name false
  | IL_OP_BLT =>
      a ← parse_instr_arg code (op_args opcode) offset;
      label_name ← arg_label a;
      make_branch_comparison LT_EXPR UNLT_EXPR label_name false
  | IL_OP_BNE_UN =>
      a ← parse_instr_arg code (op_args opcode) offset;
      label_name ← arg_label a;
      make_branch_comparison NE_EXPR NE_EXPR label_name true
  | IL_OP_BGE_UN =>
      a ← parse_instr_arg code (op_args opcode) offset;
      label_name ← arg_label a;
      make_branch_comparison GE_EXPR UNGE_EXPR label_name true
  | IL_OP_BGT_UN =>
      a ← parse_instr_arg code (op_args opcode) offset;
      label_name ← arg_label a;
      make_branch_comparison GT_EXPR UNGT_EXPR label_name true
  | IL_OP_BLE_UN =>
      a ← parse_instr_arg code (op_args opcode) offset;
      label_name ← arg_label a;
      make_branch_comparison LE_EXPR UNLE_EXPR label_name true
  | IL_OP_BLT_UN =>
      a ← parse_instr_arg code (op_args opcode) offset;
      label_name ← arg_label a;
      make_branch_comparison LT_EXPR UNLT_EXPR label_name true
  | IL_OP_SWITCH =>
      a ← parse_instr_arg code (op_args opcode) offset;
      label_names ← arg_labels a;
      make_instr_switch label_names
  | IL_OP_LDIND_I1 | IL_OP_LDIND_U1 | IL_OP_LDIND_I2 | IL_OP_LDIND_U2
  | IL_OP_LDIND_I4 =>
      not_supported opcode
  | _ => rest
  end.

Definition parse_instr_4 (op : il_op) (code : list Z) (opcode : ILOpcodeInfo)
    (offset : Z) (rest : M unit) : M unit :=
  match op with
  | IL_OP_LDIND_U4 | IL_OP_LDIND_I8 | IL_OP_LDIND_I | IL_OP_LDIND_R4
  | IL_OP_LDIND_R8 | IL_OP_LDIND_REF | IL_OP_STIND_REF | IL_OP_STIND_I1
  | IL_OP_STIND_I2 | IL_OP_STIND_I4 | IL_OP_STIND_I8 | IL_OP_STIND_R4
  | IL_OP_STIND_R8 =>
      not_supported opcode
  | IL_OP_ADD =>
      make_arithmetic_expr PLUS_EXPR
  | IL_OP_SUB =>
      make_arithmetic_expr MINUS_EXPR
  | IL_OP_MUL =>
      make_arithmetic_expr MULT_EXPR
  | IL_OP_DIV =>
      t ← stack_top None;
      ty ← type_of t;
      if bool_decide (type_code ty = REAL_TYPE_) then make_arithmetic_expr RDIV_EXPR else make_arithmetic_expr TRUNC_DIV_EXPR
  | IL_OP_DIV_UN | IL_OP_REM | IL_OP_REM_UN =>
      not_supported opcode
  | IL_OP_AND =>
      make_arithmetic_expr BIT_AND_EXPR
  | IL_OP_OR =>
      make_arithmetic_expr BIT_IOR_EXPR
  | IL_OP_XOR =>
      make_arithmetic_expr BIT_XOR_EXPR
  | IL_OP_SHL | IL_OP_SHR =>
      not_supported opcode
  | _ => rest
  end.

Definition parse_instr_5 (op : il_op) (code : list Z) (opcode : ILOpcodeInfo)
    (offset : Z) (rest : M unit) : M unit :=
  match op with
  | IL_OP_SHR_UN =>
      not_supported opcode
  | IL_OP_NEG =>
      make_unary_expr NEGATE_EXPR
  | IL_OP_NOT =>
      make_unary_expr BIT_NOT_EXPR
  | IL_OP_CONV_I1 =>
      stack_convert_top_item int8_type_node
  | IL_OP_CONV_I2 =>
      stack_convert_top_item int16_type_node
  | IL_OP_CONV_I4 =>
      stack_convert_top_item int32_type_node
  | IL_OP_CONV_I8 =>
      stack_convert_top_item int64_type_node
  | IL_OP_CONV_R4 =>
      stack_convert_top_item float_type_node
  | IL_OP_CONV_R8 =>
      stack_convert_top_item double_type_node
  | IL_OP_CONV_U4 =>
      stack_convert_top_item uint32_type_node
  | IL_OP_CONV_U8 =>
      stack_convert_top_item uint64_type_node
  | IL_OP_CALLVIRT =>
      token ← read_token code;
      instr_callvirt token
  | IL_OP_CPOBJ | IL_OP_LDOBJ =>
      not_supported opcode
  | IL_OP_LDSTR =>
      token ← read_token code;
      instr_ldstr token
  | IL_OP_NEWOBJ =>
      token ← read_token code;
      instr_newobj token
  | IL_OP_CASTCLASS | IL_OP_ISINST | IL_OP_CONV_R_UN | IL_OP_ANN_DATA_S
  | IL_OP_UNBOX | IL_OP_THROW =>
      not_supported opcode
  | IL_OP_LDFLD =>
      token ← read_token code;
      instr_ldfld token
  | IL_OP_LDFLDA =>
      not_supported opcode
  | IL_OP_STFLD =>
      token ← read_token code;
      instr_stfld token
  | IL_OP_LDSFLD =>
      token ← read_token code;
      instr_ldsfld token
  | _ => rest
  end.

Definition parse_instr_6 (op : il_op) (code : list Z) (opcode : ILOpcodeInfo)
    (offset : Z) (rest : M unit) : M unit :=
  match op with
  | IL_OP_LDSFLDA =>
      not_supported opcode
  | IL_OP_STSFLD =>
      token ← read_token code;
      instr_stsfld token
  | IL_OP_STOBJ | IL_OP_CONV_OVF_I1_UN | IL_OP_CONV_OVF_I2_UN
  | IL_OP_CONV_OVF_I4_UN | IL_OP_CONV_OVF_I8_UN | IL_OP_CONV_OVF_U1_UN
  | IL_OP_CONV_OVF_U2_UN | IL_OP_CONV_OVF_U4_UN | IL_OP_CONV_OVF_U8_UN
  | IL_OP_CONV_OVF_I_UN | IL_OP_CONV_OVF_U_UN | IL_OP_BOX =>
      not_supported opcode
  | IL_OP_NEWARR =>
      token ← read_token code;
      instr_newarr token
  | IL_OP_LDLEN =>
      make_instr_ldlen
  | IL_OP_LDELEMA =>
      not_supported opcode
  | IL_OP_LDELEM_I1 | IL_OP_LDELEM_U1 | IL_OP_LDELEM_I2 | IL_OP_LDELEM_U2
  | IL_OP_LDELEM_I4 | IL_OP_LDELEM_U4 =>
      t ← create_array_elem_access;
      stack_push t
  | IL_OP_LDELEM_I8 | IL_OP_LDELEM_I | IL_OP_LDELEM_R4 =>
      not_supported opcode
  | _ => rest
  end.

Definition parse_instr_7 (op : il_op) (code : list Z) (opcode : ILOpcodeInfo)
    (offset : Z) (rest : M unit) : M unit :=
  match op with
  | IL_OP_LDELEM_R8 | IL_OP_LDELEM_REF =>
      t ← create_array_elem_access;
      stack_push t
  | IL_OP_STELEM_I =>
      not_supported opcode
  | IL_OP_STELEM_I1 | IL_OP_STELEM_I2 | IL_OP_STELEM_I4 =>
      make_array_elem_assignment
  | IL_OP_STELEM_I8 | IL_OP_STELEM_R4 =>
      not_supported opcode
  | IL_OP_STELEM_R8 | IL_OP_STELEM_REF =>
      make_array_elem_assignment
  | IL_OP_LDELEM | IL_OP_STELEM | IL_OP_UNBOX_ANY | IL_OP_UNUSED_A6
  | IL_OP_UNUSED_A7 | IL_OP_UNUSED_A8 | IL_OP_UNUSED_A9 | IL_OP_UNUSED_AA
  | IL_OP_UNUSED_AB | IL_OP_UNUSED_AC | IL_OP_UNUSED_AD | IL_OP_UNUSED_AE
  | IL_OP_UNUSED_AF | IL_OP_UNUSED_B0 | IL_OP_UNUSED_B1 | IL_OP_UNUSED_B2 =>
      not_supported opcode
  | _ => rest
  end.

Definition parse_instr_8 (op : il_op) (code : list Z) (opcode : ILOpcodeInfo)
    (offset : Z) (rest : M unit) : M unit :=
  match op with
  | IL_OP_CONV_OVF_I1 | IL_OP_CONV_OVF_U1 | IL_OP_CONV_OVF_I2
  | IL_OP_CONV_OVF_U2 | IL_OP_CONV_OVF_I4 | IL_OP_CONV_OVF_U4
  | IL_OP_CONV_OVF_I8 | IL_OP_CONV_OVF_U8 | IL_OP_UNUSED_BB
  | IL_OP_UNUSED_BC | IL_OP_UNUSED_BD | IL_OP_UNUSED_BE | IL_OP_UNUSED_BF
  | IL_OP_UNUSED_C0 | IL_OP_UNUSED_C1 | IL_OP_REFANYVAL | IL_OP_CKFINITE
  | IL_OP_UNUSED_C4 | IL_OP_UNUSED_C5 | IL_OP_MKREFANY | IL_OP_ANN_CALL
  | IL_OP_ANN_CATCH | IL_OP_ANN_DEAD | IL_OP_ANN_HOISTED
  | IL_OP_ANN_HOISTED_CALL =>
      not_supported opcode
  | _ => rest
  end.

Definition parse_instr_9 (op : il_op) (code : list Z) (opcode : ILOpcodeInfo)
    (offset : Z) (rest : M unit) : M unit :=
  match op with
  | IL_OP_ANN_LAB | IL_OP_ANN_DEF | IL_OP_ANN_REF_S | IL_OP_ANN_PHI
  | IL_OP_LDTOKEN =>
      not_supported opcode
  | IL_OP_CONV_U2 =>
      stack_convert_top_item uint16_type_node
  | IL_OP_CONV_U1 =>
      stack_convert_top_item uint8_type_node
  | IL_OP_CONV_I =>
      stack_convert_top_item native_int_type_node
  | IL_OP_CONV_OVF_I | IL_OP_CONV_OVF_U | IL_OP_ADD_OVF | IL_OP_ADD_OVF_UN
  | IL_OP_MUL_OVF | IL_OP_MUL_OVF_UN | IL_OP_SUB_OVF | IL_OP_SUB_OVF_UN
  | IL_OP_ENDFINALLY | IL_OP_LEAVE | IL_OP_LEAVE_S | IL_OP_STIND_I =>
      not_supported opcode
  | IL_OP_CONV_U =>
      stack_convert_top_item native_uint_type_node
  | _ => rest
  end.

Definition parse_prefixed_instr_1 (op : il_prefix_op) (code : list Z) (opcode : ILOpcodeInfo)
    (offset : Z) (rest : M unit) : M unit :=
  match op with
  | IL_PREFIX_OP_ARGLIST =>
      not_supported opcode
  | IL_PREFIX_OP_CEQ =>
      make_arithmetic_expr EQ_EXPR;;
      stack_convert_top_item int32_type_node
  | IL_PREFIX_OP_CGT =>
      make_arithmetic_expr GT_EXPR;;
      stack_convert_top_item int32_type_node
  | IL_PREFIX_OP_CGT_UN =>
      not_supported opcode
  | IL_PREFIX_OP_CLT =>
      make_arithmetic_expr LT_EXPR;;
      stack_convert_top_item int32_type_node
  | IL_PREFIX_OP_CLT_UN =>
      not_supported opcode
  | IL_PREFIX_OP_LDFTN =>
      token ← read_token code;
      instr_ldftn token
  | IL_PREFIX_OP_LDVIRTFTN =>
      token ← read_token code;
      instr_ldvirtftn token
  | IL_PREFIX_OP_JMPI | IL_PREFIX_OP_LDARG | IL_PREFIX_OP_LDARGA
  | IL_PREFIX_OP_STARG | IL_PREFIX_OP_LDLOC | IL_PREFIX_OP_LDLOCA
  | IL_PREFIX_OP_STLOC | IL_PREFIX_OP_LOCALLOC =>
      not_supported opcode
  | IL_PREFIX_OP_UNUSED_PREFIX_10 =>
      unknown_instruction opcode
  | IL_PREFIX_OP_ENDFILTER | IL_PREFIX_OP_UNALIGNED | IL_PREFIX_OP_VOLATILE
  | IL_PREFIX_OP_TAIL =>
      not_supported opcode
  | IL_PREFIX_OP_INITOBJ =>
      token ← read_token code;
      instr_initobj token
  | IL_PREFIX_OP_ANN_LIVE | IL_PREFIX_OP_CPBLK =>
      not_supported opcode
  | _ => rest
  end.

Definition parse_prefixed_instr_2 (op : il_prefix_op) (code : list Z) (opcode : ILOpcodeInfo)
    (offset : Z) (rest : M unit) : M unit :=
  match op with
  | IL_PREFIX_OP_INITBLK | IL_PREFIX_OP_ANN_REF | IL_PREFIX_OP_RETHROW
  | IL_PREFIX_OP_UNUSED_PREFIX_1B | IL_PREFIX_OP_SIZEOF
  | IL_PREFIX_OP_REFANYTYPE =>
      not_supported opcode
  | _ => rest
  end.

(** The cases in order; the [default] reports an unknown instruction. *)
Definition parse_instr_switch (op : option il_op) (code : list Z) (opcode : ILOpcodeInfo)
    (offset : Z) : M unit :=
  match op with
  | None => unknown_instruction opcode
  | Some op =>
      parse_instr_1 op code opcode offset (
      parse_instr_2 op code opcode offset (
      parse_instr_3 op code opcode offset (
      parse_instr_4 op code opcode offset (
      parse_instr_5 op code opcode offset (
      parse_instr_6 op code opcode offset (
      parse_instr_7 op code opcode offset (
      parse_instr_8 op code opcode offset (
      parse_instr_9 op code opcode offset (
      unknown_instruction opcode)))))))))
  end.

(** Returns the size of the instruction, 0 when it is not fixed. *)
Definition parse_instr (code : list Z) (offset : Z) : M Z :=
  c ← code_byte code 0;
  let opcode := main_opcode c in
  parse_instr_switch (il_op_of_byte c) code opcode offset;;
  mret (op_size opcode).

Definition parse_prefixed_switch (op : option il_prefix_op) (code : list Z)
    (opcode : ILOpcodeInfo) (offset : Z) : M unit :=
  match op with
  | None => unknown_instruction opcode
  | Some op =>
      parse_prefixed_instr_1 op code opcode offset (
      parse_prefixed_instr_2 op code opcode offset (
      unknown_instruction opcode))
  end.

(** The pointer is moved past the prefix first. *)
Definition parse_prefixed_instr (code : list Z) (offset : Z) : M Z :=
  let code := drop 1 code in
  c ← code_byte code 0;
  let opcode := prefix_opcode c in
  parse_prefixed_switch (il_prefix_op_of_byte c) code opcode offset;;
  mret (op_size opcode).

(** ** A method body *)

(** One turn of the loop, giving the size of the instruction. *)
Definition parse_one (code : list Z) (csize offset : Z) : M Z :=
  label_name ← get_label_name offset;
  make_label label_name;;
  c ← code_byte code 0;
  isize ← (if c =? il_op_value IL_OP_PREFIX then parse_prefixed_instr code offset
           else parse_instr code offset);
  if isize =? 0 then
    isize ← get_special_size code csize;
    if isize =? 0 then internal_error "Cannot determine instr size" else mret isize
  else mret isize.

(** [while (csize > 0)], at most [fuel] times. *)
Fixpoint parse_loop (fuel : nat) (code : list Z) (csize offset : Z) : M unit :=
  if 0 <? csize then
    match fuel with
    | O => fail Out_of_fuel
    | S fuel =>
        isize ← parse_one code csize offset;
        parse_loop fuel (drop (Z.to_nat isize) code)
          (ulong (csize - isize)) (ulong (offset + isize))
    end
  else mret tt.

(** [codeLen] is the number of bytes; each turn consumes at least one. *)
Definition parse_instructions (code : list Z) : M unit :=
  parse_loop (length code) code (Z.of_nat (length code)) 0.

End parse_instr.
