(* ===== verification/Constants.v ===== *)
(** * Constants: the initial values of constant fields

    Models [parse_constant] of src/gcc/cil/parse_assembly.c, which turns the
    blob of a constant into a tree, and what that tree is worth: the integer
    that the blob stores, on a host whose [long] has 32 bits. *)
From S2P Require Import Prelude ILMeta Values ILTypes Trees CilState CilDecl Records Calls ParseInstr.

Section constants.
Context `{Host, Target}.

Definition boolean_true_node : tree := INTEGER_CST BOOLEAN_TYPE 1.
Definition boolean_false_node : tree := INTEGER_CST BOOLEAN_TYPE 0.

(** The value of a double word; a [HOST_WIDE_INT] is a [long] (hwint.h), for
    the targets that do not ask for more. *)
Definition build_int_cst_wide (type : ttype) (low hi : Z) : tree :=
  INTEGER_CST type (low + hi * 2 ^ long_bits).

(** A constant of a blob of more than [n] bytes, or else an internal error. *)
Definition constant_of (n : Z) (msg : string) (blob : list Z) (num : option Z)
    (make : Z -> M tree) : M tree :=
  if n <? Z.of_nat (length blob) then num ← lift "blob" num; make num
  else internal_error ("invalid " +:+ msg +:+ " constant").

(** No blob is treated as an empty one.  A read beyond the blob is undefined;
    it happens where the test of the length asks for two bytes of four or
    eight.  [(long* )&num] of an [ILInt32] is one word only where [long] has
    32 bits. *)
Definition parse_constant (elem_type : Z) (constant : option (list Z)) : M tree :=
  let blob := default [] constant in
  let cst type num := mret (build_int_cst type num) in
  if elem_type =? IL_META_ELEMTYPE_BOOLEAN then constant_of 0 "boolean" blob (byte_at blob 0)
    (fun b => mret (if negb (b =? 0) then boolean_true_node else boolean_false_node))
  else if elem_type =? IL_META_ELEMTYPE_I1 then
    constant_of 0 "int8" blob (byte_at blob 0) (fun b => cst int8_type_node (plain_char b))
  else if elem_type =? IL_META_ELEMTYPE_U1 then
    constant_of 0 "uint8" blob (byte_at blob 0) (fun b => cst uint8_type_node (uchar b))
  else if elem_type =? IL_META_ELEMTYPE_CHAR then
    constant_of 1 "char" blob (IL_READ_UINT16 blob 0) (cst cil_char_type_node)
  else if elem_type =? IL_META_ELEMTYPE_I2 then
    constant_of 1 "int16" blob (IL_READ_INT16 blob 0) (cst int16_type_node)
  else if elem_type =? IL_META_ELEMTYPE_U2 then
    constant_of 1 "uint16" blob (IL_READ_UINT16 blob 0) (cst uint16_type_node)
  else if elem_type =? IL_META_ELEMTYPE_I4 then
    constant_of 1 "int32" blob (IL_READ_INT32 blob 0) (cst int32_type_node)
  else if elem_type =? IL_META_ELEMTYPE_U4 then
    constant_of 1 "uint32" blob (IL_READ_UINT32 blob 0) (cst uint32_type_node)
  else if elem_type =? IL_META_ELEMTYPE_I8 then
    constant_of 1 "uint32" blob (IL_READ_INT64 blob 0) (fun num =>
      mret (build_int_cst_wide int64_type_node (Z.land num 0xFFFFFFFF) (Z.shiftr num 32)))
  else if elem_type =? IL_META_ELEMTYPE_U8 then
    constant_of 1 "uint32" blob (IL_READ_UINT64 blob 0) (fun num =>
      mret (build_int_cst_wide uint64_type_node (Z.land num 0xFFFFFFFF) (Z.shiftr num 32)))
  else if elem_type =? IL_META_ELEMTYPE_R4 then
    constant_of 3 "float" blob (IL_READ_INT32 blob 0) (fun num =>
      val ← target_real ieee_single_format (if long_bits =? 32 then [num] else []);
      mret (REAL_CST float_type_node val))
  else if elem_type =? IL_META_ELEMTYPE_R8 then
    constant_of 7 "float" blob (IL_READ_INT64 blob 0) (fun num =>
      val ← target_real ieee_double_format (long_words num);
      mret (REAL_CST double_type_node val))
  else internal_error "parse_constant(): type of constant not implemented yet".
End constants.

(** ** The value of a constant *)

Section values.
Context `{Host, Target}.

(** The integer types: the element type, the size of the blob, the type of the
    tree and what the bytes stand for. *)
Definition integer_constants : list (Z * nat * ttype * (Z -> Z)) :=
  [(IL_META_ELEMTYPE_I1, 1%nat, int8_type_node, to_signed 8);
   (IL_META_ELEMTYPE_U1, 1%nat, uint8_type_node, to_unsigned 8);
   (IL_META_ELEMTYPE_CHAR, 2%nat, uint16_type_node, to_unsigned 16);
   (IL_META_ELEMTYPE_I2, 2%nat, int16_type_node, to_signed 16);
   (IL_META_ELEMTYPE_U2, 2%nat, uint16_type_node, to_unsigned 16);
   (IL_META_ELEMTYPE_I4, 4%nat, int32_type_node, to_signed 32);
   (IL_META_ELEMTYPE_U4, 4%nat, uint32_type_node, to_unsigned 32);
   (IL_META_ELEMTYPE_I8, 8%nat, int64_type_node, to_signed 64);
   (IL_META_ELEMTYPE_U8, 8%nat, uint64_type_node, to_unsigned 64)].

Lemma IL_READ_INT16_bytes pre v post :
  Forall is_byte pre -> Forall is_byte post ->
  IL_READ_INT16 (pre ++ le_bytes 2 v ++ post) (Z.of_nat (length pre)) = Some (to_signed 16 v).
Proof.
  intros Hpre Hpost. pose proof (IL_READ_UINT16_bytes pre v post Hpre Hpost) as Hr.
  unfold IL_READ_UINT16 in Hr. unfold IL_READ_INT16.
  apply bind_Some in Hr as (b0 & -> & Hr). apply bind_Some in Hr as (b1 & Hb1 & Hr).
  cbn [mbind option_bind]. rewrite Hb1. cbn [mbind option_bind]. f_equal.
  injection Hr as Hr. apply to_signed_eqm. unfold uint16, to_unsigned in Hr. done.
Qed.

Lemma constant_of_long n msg blob num (make : Z -> M tree) :
  n < Z.of_nat (length blob) -> constant_of n msg blob (Some num) make = make num.
Proof. intros Hn. unfold constant_of. by rewrite (proj2 (Z.ltb_lt _ _)) by done. Qed.

Lemma wide_split type num :
  build_int_cst_wide type (Z.land num 0xFFFFFFFF) (Z.shiftr num 32)
  = INTEGER_CST type (num mod 2 ^ 32 + num / 2 ^ 32 * 2 ^ long_bits).
Proof.
  unfold build_int_cst_wide. change 0xFFFFFFFF with (Z.ones 32).
  by rewrite land_low, shiftr_div by lia.
Qed.

(** Compute the comparisons of known element types. *)
Ltac elem_case :=
  repeat match goal with
  | |- context [?a =? ?b] =>
      let r := eval vm_compute in (a =? b) in
      lazymatch r with true => idtac | false => idtac end; change (a =? b) with r
  end; cbv iota.

(** The two constants of 64 bits. *)
Lemma parse_wide v post :
  Forall is_byte post ->
  parse_constant IL_META_ELEMTYPE_I8 (Some (le_bytes 8 v ++ post))
    = mret (build_int_cst_wide int64_type_node (Z.land (to_signed 64 v) 0xFFFFFFFF)
        (Z.shiftr (to_signed 64 v) 32)) /\
  parse_constant IL_META_ELEMTYPE_U8 (Some (le_bytes 8 v ++ post))
    = mret (build_int_cst_wide uint64_type_node (Z.land (to_unsigned 64 v) 0xFFFFFFFF)
        (Z.shiftr (to_unsigned 64 v) 32)).
Proof.
  intros Hpost. pose proof (IL_READ_INT64_bytes [] v post) as Hi.
  pose proof (IL_READ_UINT64_bytes [] v post) as Hu.
  assert (1 < Z.of_nat (length (le_bytes 8 v ++ post)))
    by (rewrite length_app, length_le_bytes; lia).
  split; unfold parse_constant; elem_case;
    cbv zeta; change (default [] (Some (le_bytes 8 v ++ post))) with (le_bytes 8 v ++ post).
  - change (IL_READ_INT64 _ 0) with
      (IL_READ_INT64 ([] ++ le_bytes 8 v ++ post) (Z.of_nat (length (@nil Z)))).
    rewrite Hi by done. by apply constant_of_long.
  - change (IL_READ_UINT64 _ 0) with
      (IL_READ_UINT64 ([] ++ le_bytes 8 v ++ post) (Z.of_nat (length (@nil Z)))).
    rewrite Hu by done. by apply constant_of_long.
Qed.

(** A constant field of an integer type gets the number that its blob
    stores in little-endian order, with the sign of its type, whatever follows
    in the heap.  For the 64-bit types this is so where a [long] of the host has
    32 bits, and for [sbyte] where its plain [char] is signed. *)
Theorem parse_constant_value e n type f v post s :
  In (e, n, type, f) integer_constants -> Forall is_byte post ->
  (n = 8%nat -> long_bits = 32) -> (e = IL_META_ELEMTYPE_I1 -> char_signed = true) ->
  parse_constant e (Some (le_bytes n v ++ post)) s = Done (INTEGER_CST type (f v)) s.
Proof.
  intros Hin Hpost Hwide Hchar.
  assert (forall num, num = num mod 2 ^ 32 + num / 2 ^ 32 * 2 ^ 32) as Hw by (intros; lia).
  destruct (parse_wide v post Hpost) as [Hi Hu].
  pose proof (IL_READ_UINT16_bytes [] v post) as H16.
  pose proof (IL_READ_INT16_bytes [] v post) as H16s.
  pose proof (IL_READ_UINT32_bytes [] v post) as H32.
  pose proof (IL_READ_INT32_bytes [] v post) as H32s.
  cbn [app length] in *. change (Z.of_nat 0) with 0 in *.
  repeat (destruct Hin as [Hin | Hin]; [injection Hin as <- <- <- <- |]); [.. | done].
  all: try (rewrite Hi || rewrite Hu; rewrite wide_split, Hwide, <- Hw by done; done).
  all: unfold parse_constant; elem_case; cbv zeta;
    change (default [] (Some ?l)) with l; rewrite ?H16, ?H16s, ?H32, ?H32s by done.
  all: try (rewrite constant_of_long by (rewrite length_app, length_le_bytes; lia); done).
  all: change (byte_at (le_bytes 1 v ++ post) 0) with (Some (v mod 256));
    rewrite constant_of_long by (rewrite length_app, length_le_bytes; lia);
    unfold mret, comp_ret, build_int_cst; f_equal; f_equal.
  - unfold plain_char. rewrite Hchar by done. by apply (to_signed_unsigned 8).
  - unfold uchar, to_unsigned. change (2 ^ 8) with 256. apply Z.mod_mod. lia.
Qed.

(** Where [long] has 64 bits, so that a [HOST_WIDE_INT] has, the high word
    of a 64-bit constant ends up 64 bits up instead of 32: no constant outside
    [0 .. 2^32) is right.  And the length of an [int32] blob is tested for two
    bytes only, so that the four bytes read may lie beyond it. *)
Theorem parse_constant_wide_wrong v post b0 b1 s :
  long_bits = 64 -> Forall is_byte post -> to_signed 64 v / 2 ^ 32 <> 0 ->
  (exists w, parse_constant IL_META_ELEMTYPE_I8 (Some (le_bytes 8 v ++ post)) s
             = Done (INTEGER_CST int64_type_node w) s /\ w <> to_signed 64 v) /\
  parse_constant IL_META_ELEMTYPE_I4 (Some [b0; b1]) s = Failed (Undefined "blob").
Proof.
  intros Hl Hpost Hv. destruct (parse_wide v post Hpost) as [Hi _]. split; [| done].
  rewrite Hi, wide_split, Hl. eexists. split; [done |]. nia.
Qed.
End values.

Section witnesses.

Lemma parse_constant_value_witness :
  @parse_constant ILP32 i386 IL_META_ELEMTYPE_I8
    (Some ([0xFE; 0xFF; 0xFF; 0xFF; 0xFF; 0xFF; 0xFF; 0xFF] ++ [7])) start_state
  = Done (INTEGER_CST int64_type_node (-2)) start_state.
Proof.
  apply (@parse_constant_value ILP32 i386 IL_META_ELEMTYPE_I8 8 int64_type_node
    (to_signed 64) (-2) [7]); [cbn; tauto | repeat constructor; unfold is_byte; lia
    | reflexivity | discriminate].
Defined.

Lemma parse_constant_wide_wrong_witness :
  exists w, @parse_constant LP64 i386 IL_META_ELEMTYPE_I8
    (Some ([0xFE; 0xFF; 0xFF; 0xFF; 0xFF; 0xFF; 0xFF; 0xFF] ++ [7])) start_state
    = Done (INTEGER_CST int64_type_node w) start_state /\ w <> -2.
Proof.
  apply (@parse_constant_wide_wrong LP64 i386 (-2) [7] 0 0);
    [reflexivity | repeat constructor; unfold is_byte; lia | vm_compute; discriminate].
Defined.
End witnesses.
