(* ===== verification/Assembly.v ===== *)
(** * Assembly: types, classes and virtual method tables

    Models the part of src/gcc/cil/parse_assembly.c that makes the records of
    classes, their static data and their method tables, and that turns types of
    the metadata into types of GCC.  [parse_type], [get_class_decl] and
    [parse_class] call each other: [reader] is the three of them with a bound
    on the depth of the calls. *)
From S2P Require Import Prelude ILMeta ILTypes Program Members Mangle Trees CilState CilDecl EvalStack.
From S2P Require Import Records Calls StaticData Frame Metadata ParseInstr Constants.

(** ** Indices of methods *)

Section indices.
Context `{Program}.

(** [method->index] and [method->count], unsigned. *)
Definition get_index (method : N) : M Z := get (fun s => default 0 (method_index s !! method)).
Definition set_index (method : N) (i : Z) : M unit :=
  modify (fun s => set_method_index (<[method := uint32 i]> (method_index s)) s).
Definition get_count (method : N) : M Z := get (fun s => default 0 (method_count s !! method)).
Definition set_count (method : N) (n : Z) : M unit :=
  modify (fun s => set_method_count (<[method := n]> (method_count s)) s).

(** The loop over the methods of [klass]. *)
Fixpoint clear_counts (methods : list N) : M unit :=
  match methods with
  | [] => mret tt
  | m :: methods => set_count m 0;; clear_counts methods
  end.
Definition set_method_indices_to_invalid (klass : N) : M unit :=
  clear_counts (class_methods klass).

Fixpoint number_methods (methods : list N) (index : Z) : M unit :=
  match methods with
  | [] => mret tt
  | m :: methods => set_index m index;; number_methods methods (index + 1)
  end.
Definition create_intf_methods_indices (klass : N) : M unit :=
  number_methods (class_methods klass) 0.

(** The loop over the methods of an interface; [index] is [unsigned]. *)
Fixpoint interface_indices (klass : N) (methods : list N) (index : Z) : M Z :=
  match methods with
  | [] => mret index
  | method :: methods =>
      impl ← ILClassGetMethodImpl klass method;
      match impl with
      | None => internal_error "%s does not implement %s"
      | Some implementation_method =>
          set_index implementation_method index;;
          set_count implementation_method 1;;
          interface_indices klass methods (uint32 (index + 1))
      end
  end.

Fixpoint interfaces_indices (klass : N) (interfaces : list N) (index : Z) : M Z :=
  match interfaces with
  | [] => mret index
  | interface :: interfaces =>
      index ← interface_indices klass (class_methods interface) index;
      interfaces_indices klass interfaces index
  end.
Definition create_virtual_methods_indices_for_interfaces (klass : N) (index : Z) : M Z :=
  interfaces_indices klass (ilclass_implements (class_info klass)) index.

Definition has_slot (method : N) : bool :=
  ILMethod_IsVirtual method && negb (ILMethod_IsRuntime method).

Fixpoint virtual_indices (methods : list N) (index : Z) : M Z :=
  match methods with
  | [] => mret index
  | method :: methods =>
      count ← get_count method;
      if has_slot method && (count =? 0) then
        parent_method ← ILMemberGetBase method;
        index ←
          (match parent_method with
           | Some p => i ← get_index p; set_index method i;; mret index
           | None => set_index method index;; mret (uint32 (index + 1))
           end);
        set_count method 1;;
        virtual_indices methods index
      else virtual_indices methods index
  end.

(** [fuel] bounds the chain of parents. *)
Fixpoint create_virtual_methods_indices (fuel : nat) (klass : N) : M Z :=
  match fuel with
  | O => fail Out_of_fuel
  | S fuel =>
      index ← (match ILClassGetParent klass with
               | Some p => create_virtual_methods_indices fuel p
               | None => mret 0
               end);
      index ← create_virtual_methods_indices_for_interfaces klass index;
      index ← virtual_indices (class_methods klass) index;
      set_method_indices_to_invalid klass;;
      mret index
  end.
End indices.

(** ** Virtual method tables *)

(** An entry: the number of the slot and the pointer to the function. *)
Abbreviation vtable := (list (Z * tree)).

Section vtables.
Context `{Target, MiddleEnd, Program} {types : TypeReader}.

Definition get_function_ptr (method : N) : M tree :=
  method_name ← mangle_function method;
  param_type_list ← parse_parameters_types method;
  return_type ← parse_return_type method;
  create_function_ptr method_name param_type_list return_type.

(** The loop: [entries] is the chain behind [entry_before_new]. *)
Fixpoint insert_slot (index : Z) (new_entry : Z * tree) (entries : vtable) : M vtable :=
  match entries with
  | [] => mret [new_entry]
  | e :: l =>
      if index <? e.1 then mret (new_entry :: e :: l)
      else if e.1 =? index then
        internal_error "add_vtable_slot (): a vtable entry with same index already exist"
      else l ← insert_slot index new_entry l; mret (e :: l)
  end.

(** The new entry never comes before the first one. *)
Definition add_vtable_slot (entries : vtable) (method : N) : M vtable :=
  index ← get_index method;
  ptr ← get_function_ptr method;
  match entries with
  | [] => mret [(index, ptr)]
  | first :: l => l ← insert_slot index (index, ptr) l; mret (first :: l)
  end.

(** The entry is found by its position; the number of the slot is left. *)
Definition change_vtable_slot (entries : vtable) (method : N) : M vtable :=
  i ← get_index method;
  match entries with
  | [] => if i =? 0 then get_function_ptr method;; fail (Undefined "TREE_VALUE")
          else fail (Undefined "TREE_CHAIN")
  | _ =>
      match entries !! Z.to_nat i with
      | None => internal_error "change_vtable_slot (): invalid index"
      | Some e =>
          ptr ← get_function_ptr method;
          mret (<[Z.to_nat i := (e.1, ptr)]> entries)
      end
  end.

Fixpoint vtable_slots (methods : list N) (entries : vtable) : M vtable :=
  match methods with
  | [] => mret entries
  | method :: methods =>
      entries ←
        (if has_slot method then
           parent_method ← ILMemberGetBase method;
           match parent_method with
           | Some _ => change_vtable_slot entries method
           | None => add_vtable_slot entries method
           end
         else mret entries);
      vtable_slots methods entries
  end.

Fixpoint create_vtable_entries (fuel : nat) (klass : option N) : M vtable :=
  match klass, fuel with
  | None, _ => mret []
  | Some _, O => fail Out_of_fuel
  | Some klass, S fuel =>
      entries ← create_vtable_entries fuel (ILClassGetParent klass);
      vtable_slots (class_methods klass) entries
  end.
End vtables.

(** ** Classes and types *)

(** [parent]: the base class, references to other assemblies followed. *)
Definition parent `{Program} {S} (klass : N) : comp S (option N) :=
  match ILClassGetParent klass with
  | Some result =>
      if ILClassIsRef result then
        result ← resolve_class_ref result; mret (Some result)
      else mret (Some result)
  | None => mret None
  end.

(** The types of the system classes; others are records. *)
Definition system_value_types `{Target} : list (string * ttype) :=
  [("SByte", int8_type_node); ("Byte", uint8_type_node); ("Int8", int8_type_node);
   ("UInt8", uint8_type_node); ("Int16", int16_type_node); ("UInt16", uint16_type_node);
   ("Int32", int32_type_node); ("UInt32", uint32_type_node); ("Int64", int64_type_node);
   ("UInt64", uint64_type_node); ("Single", float_type_node); ("Double", double_type_node);
   ("Char", INTEGER_TYPE char_type); ("Boolean", boolean_type_node);
   ("Void", void_type_node)]%string.

(** [layout_type] of the two records of a class is left to the middle end. *)
Definition finish_class (class_name : string) : M unit :=
  class_decl ← get (fun s => IDENTIFIER_CLASS_DECL s !! class_name);
  lift "layout_type" class_decl;;
  mret tt.

Section bodies.
Context `{Host, Target, MiddleEnd, Program} {types : TypeReader} (parse_class : N -> M string).

Definition get_static_fields_decl (klass : N) : M ttype :=
  class_name ← get_namespace_class_name klass;
  s_fields_decl ← get (fun s => IDENTIFIER_STATIC_FIELDS_DECL s !! class_name);
  match s_fields_decl with
  | Some d => mret d
  | None => create_static_fields_decl klass class_name
  end.

Definition parse_field (context_class : N) (record : ttype) (il_field : N) : M unit :=
  type ← parse_type (ILFieldGetType il_field);
  to_type ← get_class_decl context_class;
  add_field record type (Some to_type) (ILField_Name il_field);;
  mret tt.

Fixpoint parse_own_fields (klass : N) (class_decl : ttype) (fields : list N) : M unit :=
  match fields with
  | [] => mret tt
  | f :: fields =>
      (if ILField_IsStatic f then mret tt else parse_field klass class_decl f);;
      parse_own_fields klass class_decl fields
  end.

(** The fields of the base classes first. *)
Fixpoint parse_fields (fuel : nat) (klass : N) (class_decl : ttype) : M unit :=
  match fuel with
  | O => fail Out_of_fuel
  | S fuel =>
      base_klass ← parent klass;
      (match base_klass with
       | Some base => parse_fields fuel base class_decl
       | None => mret tt
       end);;
      parse_own_fields klass class_decl (class_fields klass)
  end.

Fixpoint parse_statics (statics : ttype) (fields : list N) : M unit :=
  match fields with
  | [] => mret tt
  | f :: fields =>
      (if ILField_IsStatic f then
         type ← parse_type (ILFieldGetType f);
         field ← add_field statics type None (ILField_Name f);
         match ilfield_constant (field_info f) with
         | Some (elem_type, blob) =>
             init ← parse_constant elem_type blob; set_DECL_INITIAL field init
         | None => mret tt
         end
       else mret tt);;
      parse_statics statics fields
  end.
Definition parse_static_fields (klass : N) : M unit :=
  statics ← get_static_fields_decl klass;
  parse_statics statics (class_fields klass).

(** [get_class_decl]; the record is made before the class is parsed. *)
Definition get_class_decl_body (klass : N) : M ttype :=
  class_name ← get_namespace_class_name klass;
  class_decl ← get (fun s => IDENTIFIER_CLASS_DECL s !! class_name);
  match class_decl with
  | Some class_decl => mret class_decl
  | None =>
      if ILClassIsRef klass then
        klass ← resolve_class_ref klass;
        class_decl ← create_class_decl klass class_name;
        parse_class klass;;
        mret class_decl
      else create_class_decl klass class_name
  end.

(** A null result is used as a type by the callers. *)
Definition get_value_type (type : N) : M ttype :=
  klass ← get_class_decl type;
  value ← get_TYPE_VALUETYPE klass;
  (match value with Some _ => mret tt | None => parse_class type;; mret tt end);;
  value ← get_TYPE_VALUETYPE klass;
  lift "TYPE_VALUETYPE" value.

Definition get_array_type (elem_type : ttype) : M ttype :=
  known ← get (fun s => List.find (fun p => bool_decide (p.1 = elem_type)) (TYPE_ARRAYTYPE s));
  array_decl ← (match known with
                | Some (_, d) => mret d
                | None => create_array_decl elem_type
                end);
  mret (build_pointer_type array_decl).

(** The type of a primitive element type; [U8] has that of [I8]. *)
Definition primitive_type (e : Z) : option ttype :=
  if e =? IL_META_ELEMTYPE_VOID then Some void_type_node
  else if e =? IL_META_ELEMTYPE_BOOLEAN then Some boolean_type_node
  else if e =? IL_META_ELEMTYPE_CHAR then Some cil_char_type_node
  else if e =? IL_META_ELEMTYPE_I1 then Some int8_type_node
  else if e =? IL_META_ELEMTYPE_U1 then Some uint8_type_node
  else if e =? IL_META_ELEMTYPE_I2 then Some int16_type_node
  else if e =? IL_META_ELEMTYPE_U2 then Some uint16_type_node
  else if e =? IL_META_ELEMTYPE_I4 then Some int32_type_node
  else if e =? IL_META_ELEMTYPE_U4 then Some uint32_type_node
  else if e =? IL_META_ELEMTYPE_I8 then Some int64_type_node
  else if e =? IL_META_ELEMTYPE_U8 then Some int64_type_node
  else if e =? IL_META_ELEMTYPE_R4 then Some float_type_node
  else if e =? IL_META_ELEMTYPE_R8 then Some double_type_node
  else if e =? IL_META_ELEMTYPE_I then Some native_int_type_node
  else if e =? IL_META_ELEMTYPE_U then Some native_uint_type_node
  else None.

(** [parse_type] of a complex type that is not an array of any shape. *)
Definition parse_ref_type (il_type : ILType) : M ttype :=
  match il_type with
  | RefType _ t =>
      if bool_decide (ILType_Kind il_type = Some IL_TYPE_COMPLEX_BYREF)
         || ILType_IsPointer il_type then
        type ← parse_type t; mret (build_pointer_type type)
      else internal_error "Type not implemented (%d)"
  | ILType_Invalid => fail (Undefined "ILType_Kind")
  | _ => internal_error "Type not implemented (%d)"
  end.

Definition parse_type_body (il_type : ILType) : M ttype :=
  match il_type with
  | Primitive e =>
      match primitive_type e with
      | Some type => mret type
      | None => internal_error "Type not implemented"
      end
  | ClassType klass => get_class_ptr_type klass
  | ValueType val_type =>
      val_type ← (if ILClassIsRef val_type then resolve_class_ref val_type
                  else mret val_type);
      if ILTypeIsEnum (ValueType val_type) then
        parse_type (ILTypeGetEnumType (ValueType val_type))
      else get_value_type val_type
  | _ =>
      if ILType_IsSimpleArray il_type then
        elem_type ← parse_type (ILTypeGetElemType il_type); get_array_type elem_type
      else if ILType_IsArray il_type then
        internal_error "complex array is not supported - used void* instead"
      else parse_ref_type il_type
  end.

(** The interfaces of the implements clause and the base class. *)
Fixpoint parse_interfaces (interfaces : list N) : M (list string) :=
  match interfaces with
  | [] => mret []
  | i :: interfaces =>
      name ← parse_class i;
      names ← parse_interfaces interfaces;
      mret (name :: names)
  end.

(** What is compiled for a class of the image: its method table, its static
    data and its [MonoClass]. *)
Definition make_class_data (klass : N) (class_name mono_class_name : string)
    (class_decl : ttype) (intf_names : list string) (parent_name : option string) : M unit :=
  let method_count := Z.of_nat (length (class_methods klass)) in
  if ILClass_IsInterface klass then
    make_intf_mono_class mono_class_name intf_names method_count;;
    create_intf_methods_indices klass
  else
    create_mono_class_decl mono_class_name;;
    create_virtual_methods_indices max_depth klass;;
    entries ← create_vtable_entries max_depth (Some klass);
    vt_name ← mangle_vtable klass;
    make_mono_vtable class_name vt_name (prod_map (build_int_cst integer_type_node) id <$> entries);;
    info_name ← mangle_mono_class_runtime_info klass;
    make_mono_class_runtime_info info_name vt_name;;
    instance_size ← get (fun s => type_size_unit s class_decl);
    make_mono_class mono_class_name intf_names parent_name method_count instance_size
      (Z.of_nat (length entries)) info_name.

(** The value type of a value class. *)
Definition make_value_type (klass : N) (class_decl : ttype) : M unit :=
  system ← strcmp_eq (ILClass_Namespace klass) (Some "System"%string);
  value ←
    (match
       (if system && bool_decide (ILClassGetNestedParent klass = None)
        then List.find (fun p => String.eqb (ILClass_Name klass) p.1) system_value_types
        else None) with
     | Some (_, t) => mret t
     | None =>
         value ← create_value_decl;
         parse_fields max_depth klass value;;
         mret value
     end);
  set_value_type class_decl value.

Definition parse_class_body (klass : N) : M string :=
  mono_class_name ← mangle_mono_class klass;
  known ← get (fun s => lookup_tree (IDENTIFIER_DECL s) mono_class_name);
  (if negb (is_null known) then mret tt
   else
     '(intf_names, parent_name) ←
       (if bool_decide (ILClassToImage klass = c_image) then
          names ← parse_interfaces (ilclass_implements (class_info klass));
          if ILClass_IsInterface klass then mret (names, None)
          else
            base_klass ← parent klass;
            match base_klass with
            | Some base => name ← parse_class base; mret (names, Some name)
            | None => mret (names, None)
            end
        else mret ([], None));
     class_name ← get_namespace_class_name klass;
     class_decl ← create_class_decl klass class_name;
     parse_fields max_depth klass class_decl;;
     parse_static_fields klass;;
     finish_class class_name;;
     (if bool_decide (ILClassToImage klass = c_image) then
        make_class_data klass class_name mono_class_name class_decl intf_names parent_name
      else make_ext_mono_class mono_class_name);;
     value ← ILClassIsValueType klass;
     if (value : bool) then make_value_type klass class_decl else mret tt);;
  mret mono_class_name.
End bodies.
