(* ===== verification/Reading.v ===== *)
(** * Reading: the readers of types and classes together

    [parse_type], [get_class_decl] and [parse_class] of
    src/gcc/cil/parse_assembly.c call each other.  A [reader] is the three of
    them; [next_reader] is one level of calls over a reader for the calls
    inside.  The file implements the interface of Metadata, and shows that the
    bodies keep every relation that the calls inside keep ([Reads]). *)
From S2P Require Import Prelude ILTypes Program Members Mangle Trees CilState CilDecl EvalStack.
From S2P Require Import Records Calls StaticData Frame Metadata ParseInstr Constants Assembly.

Section reader.
Context `{Host, Target, MiddleEnd, Program}.

Record reader := mkReader {
  reader_types : TypeReader;
  reader_class : N -> M string
}.

Definition no_fuel : reader :=
  mkReader (Build_TypeReader _ (fun _ => fail Out_of_fuel) (fun _ => fail Out_of_fuel))
    (fun _ => fail Out_of_fuel).

(** The calls inside are those of [r]. *)
Definition next_reader (r : reader) : reader :=
  mkReader
    (Build_TypeReader _ (parse_type_body (types := reader_types r) (reader_class r))
       (get_class_decl_body (reader_class r)))
    (parse_class_body (types := reader_types r) (reader_class r)).

Fixpoint read (fuel : nat) : reader :=
  match fuel with O => no_fuel | S fuel => next_reader (read fuel) end.

(** [parse_class], [parse_type] and [get_class_decl] of the compiler. *)
Definition parse_class (klass : N) : M string := reader_class (read reader_fuel) klass.
#[export] Instance assembly_types : TypeReader := reader_types (read reader_fuel).
End reader.

(** ** They leave the function being compiled alone *)

Section frame.
Context `{Host, Target, MiddleEnd, Program}.

Lemma frame_set_index m i : keeps_values (set_index m i).
Proof. unfold set_index. solve_frame. Qed.
Lemma frame_set_count m n : keeps_values (set_count m n).
Proof. unfold set_count. solve_frame. Qed.
Lemma frame_get_index m : keeps_values (get_index m).
Proof. apply frame_get; apply _. Qed.
Lemma frame_get_count m : keeps_values (get_count m).
Proof. apply frame_get; apply _. Qed.
Hint Resolve frame_set_index frame_set_count frame_get_index frame_get_count : frame.
Lemma frame_clear_counts l : keeps_values (clear_counts l).
Proof. induction l; simpl; solve_frame. Qed.
Lemma frame_number_methods l i : keeps_values (number_methods l i).
Proof. revert i. induction l; intros; simpl; solve_frame. Qed.
Lemma frame_interface_indices k l i : keeps_values (interface_indices k l i).
Proof. revert i. induction l; intros; simpl; solve_frame. Qed.
Hint Resolve frame_clear_counts frame_number_methods frame_interface_indices : frame.
Lemma frame_interfaces_indices k l i : keeps_values (interfaces_indices k l i).
Proof. revert i. induction l; intros; simpl; solve_frame. Qed.
Lemma frame_virtual_indices l i : keeps_values (virtual_indices l i).
Proof. revert i. induction l; intros; simpl; solve_frame. Qed.
Hint Resolve frame_interfaces_indices frame_virtual_indices : frame.
Lemma frame_create_virtual_indices n k : keeps_values (create_virtual_methods_indices n k).
Proof.
  revert k. induction n; intros; simpl;
    unfold create_virtual_methods_indices_for_interfaces, set_method_indices_to_invalid;
    solve_frame.
Qed.
Lemma frame_create_intf_indices k : keeps_values (create_intf_methods_indices k).
Proof. unfold create_intf_methods_indices. solve_frame. Qed.
Lemma frame_parent k : keeps_values (parent k).
Proof. unfold parent. solve_frame. Qed.
Lemma frame_finish_class n : keeps_values (finish_class n).
Proof. unfold finish_class. solve_frame. Qed.
Lemma frame_target_real f l : keeps_values (target_real f l).
Proof. unfold target_real. solve_frame. Qed.
Hint Resolve frame_create_virtual_indices frame_create_intf_indices frame_parent
  frame_finish_class frame_target_real : frame.
Lemma frame_parse_constant e b : keeps_values (parse_constant e b).
Proof. unfold parse_constant, constant_of. solve_frame. Qed.
Hint Resolve frame_parse_constant : frame.

(** The bodies, over readers that keep [R]. *)
Context {types : TypeReader} {R : cil_state -> cil_state -> Prop} {reads : Reads R}.
Context (parse_class : N -> M string) (parse_class_keeps : forall k, keeps_rel R (parse_class k)).
Hint Resolve parse_class_keeps reads_type reads_class : frame.
Hint Extern 5 (keeps_rel R _) => apply reads_values; solve [auto with frame] : frame.

Lemma frame_get_function_ptr m : keeps_rel R (get_function_ptr m).
Proof. unfold get_function_ptr. solve_frame. Qed.
Lemma frame_insert_slot i e l : keeps_rel R (insert_slot i e l).
Proof. induction l; simpl; solve_frame. Qed.
Hint Resolve frame_get_function_ptr frame_insert_slot : frame.
Lemma frame_add_vtable_slot l m : keeps_rel R (add_vtable_slot l m).
Proof. unfold add_vtable_slot. solve_frame. Qed.
Lemma frame_change_vtable_slot l m : keeps_rel R (change_vtable_slot l m).
Proof. unfold change_vtable_slot. solve_frame. Qed.
Hint Resolve frame_add_vtable_slot frame_change_vtable_slot : frame.
Lemma frame_vtable_slots m l : keeps_rel R (vtable_slots m l).
Proof. revert l. induction m; intros; simpl; solve_frame. Qed.
Hint Resolve frame_vtable_slots : frame.
Lemma frame_create_vtable_entries n k : keeps_rel R (create_vtable_entries n k).
Proof. revert k. induction n; intros []; simpl; solve_frame. Qed.
Lemma frame_get_static_fields_decl k : keeps_rel R (get_static_fields_decl k).
Proof. unfold get_static_fields_decl. solve_frame. Qed.
Lemma frame_parse_field k r f : keeps_rel R (parse_field k r f).
Proof. unfold parse_field. solve_frame. Qed.
Hint Resolve frame_create_vtable_entries frame_get_static_fields_decl frame_parse_field
  : frame.
Lemma frame_parse_own_fields k r l : keeps_rel R (parse_own_fields k r l).
Proof. induction l; simpl; solve_frame. Qed.
Hint Resolve frame_parse_own_fields : frame.
Lemma frame_parse_fields n k r : keeps_rel R (parse_fields n k r).
Proof. revert k. induction n; intros; simpl; solve_frame. Qed.
Lemma frame_parse_statics r l : keeps_rel R (parse_statics r l).
Proof. induction l; simpl; solve_frame. Qed.
Hint Resolve frame_parse_fields frame_parse_statics : frame.
Lemma frame_parse_static_fields k : keeps_rel R (parse_static_fields k).
Proof. unfold parse_static_fields. solve_frame. Qed.
Lemma frame_get_class_decl_body k : keeps_rel R (get_class_decl_body parse_class k).
Proof. unfold get_class_decl_body. solve_frame. Qed.
Lemma frame_get_value_type k : keeps_rel R (get_value_type parse_class k).
Proof. unfold get_value_type. solve_frame. Qed.
Lemma frame_get_array_type t : keeps_rel R (get_array_type t).
Proof. unfold get_array_type. solve_frame. Qed.
Hint Resolve frame_parse_static_fields frame_get_value_type frame_get_array_type : frame.
Lemma frame_parse_type_body t : keeps_rel R (parse_type_body parse_class t).
Proof. unfold parse_type_body, get_class_ptr_type, parse_ref_type. solve_frame. Qed.
Lemma frame_parse_interfaces l : keeps_rel R (parse_interfaces parse_class l).
Proof. induction l; simpl; solve_frame. Qed.
Lemma frame_make_class_data k c n d l p : keeps_rel R (make_class_data k c n d l p).
Proof. unfold make_class_data. solve_frame. Qed.
Hint Resolve frame_parse_interfaces frame_make_class_data : frame.

(** Setting the value type of the class is the one step that [R] may not allow. *)
Lemma frame_parse_class_body k :
  (forall d, keeps_rel R (make_value_type k d)) -> keeps_rel R (parse_class_body parse_class k).
Proof. intros Hv. unfold parse_class_body. solve_frame. Qed.
End frame.


Lemma frame_make_value_type `{Host, Target, MiddleEnd, Program} {types : TypeReader}
    {laws : Metadata} k d :
  keeps_function (make_value_type k d).
Proof.
  unfold make_value_type. pose proof (frame_parse_fields (R := same_function)). solve_frame.
Qed.

Section reader_keeps.
Context `{Host, Target, MiddleEnd, Program}.

Lemma read_keeps fuel :
  (forall t, keeps_function (@parse_type _ (reader_types (read fuel)) t)) /\
  (forall k, keeps_function (@get_class_decl _ (reader_types (read fuel)) k)) /\
  (forall k, keeps_function (reader_class (read fuel) k)).
Proof.
  induction fuel as [| fuel (Ht & Hd & Hc)]; [split_and!; intros; apply frame_fail |].
  pose (Build_Metadata _ (reader_types (read fuel)) Ht Hd) as laws. split_and!; intros.
  - by apply frame_parse_type_body.
  - by apply (frame_get_class_decl_body (types := reader_types (read fuel))).
  - apply (frame_parse_class_body (types := reader_types (read fuel))); [done |].
    intros d. apply frame_make_value_type.
Qed.

#[export] Instance assembly_metadata : Metadata.
Proof. constructor; apply read_keeps. Qed.
End reader_keeps.
