(* ===== verification/MethodCode.v ===== *)
(** * MethodCode: the header of a method body

    Models [ILMethodGetCode] of src/gcc/cil/image/member.c, which reads the tiny
    or the fat header of a method (ECMA-335, II.25.4) from the bytes of the
    image; the Java branch is not compiled in (IL_CONFIG_JAVA). *)
From S2P Require Import Prelude ILMeta Values ILTypes Program.

(** [ILMethodCode]; the pointer [code] is the offset from the header on. *)
Record ILMethodCode := mkCode {
  headerSize : Z;
  maxStack : Z;
  code : Z;
  codeLen : Z;
  localVarSig : option ILType;
  initLocals : bool;
  moreSections : bool;
  remaining : Z
}.

Section method_code.
Context `{Host, Program}.

(** [ILStandAloneSigIsLocals]: the type of the signature is a list of locals. *)
Definition ILStandAloneSigIsLocals (sig : ILType) : bool :=
  match sig with LocalsType _ _ _ _ _ _ => true | _ => false end.

(** The locals of a fat header: none for the token 0, or an error. *)
Definition local_signature (localVars : Z) : option (option ILType) :=
  if localVars =? 0 then Some None
  else if negb (Z.land localVars IL_META_TOKEN_MASK =? IL_META_TOKEN_STAND_ALONE_SIG) then None
  else match ILStandAloneSig_FromToken localVars with
       | Some sig => if ILStandAloneSigIsLocals sig then Some (Some sig) else None
       | None => None
       end.

(** The area of the code; [len] is an [unsigned long] and the size of the
    header is not compared with it. *)
Definition extract_code (len : Z) (c : ILMethodCode) : option ILMethodCode :=
  let len := ulong (len - headerSize c) in
  if (codeLen c =? 0) || (len <? codeLen c) then None
  else Some (mkCode (headerSize c) (maxStack c) (headerSize c) (codeLen c) (localVarSig c)
               (initLocals c) (moreSections c) (uint32 (len - codeLen c))).

Definition tiny_header (b0 : Z) : ILMethodCode :=
  mkCode 1 8 0 (Z.land (Z.shiftr b0 2) 0x3F) None false false 0.

Definition fat_header (addr : list Z) (b0 : Z) : option ILMethodCode :=
  if Z.of_nat (length addr) <? 12 then None
  else
    maxStack ← IL_READ_UINT16 addr 2;
    codeLen ← IL_READ_UINT32 addr 4;
    localVars ← IL_READ_UINT32 addr 8;
    localVarSig ← local_signature localVars;
    b1 ← byte_at addr 1;
    let headerSize := Z.land (Z.shiftr b1 4) 0x0F * 4 in
    if headerSize <? 12 then None
    else Some (mkCode headerSize maxStack 0 codeLen localVarSig
                 (negb (Z.land b0 0x10 =? 0)) (negb (Z.land b0 0x08 =? 0)) 0).

(** [addr] is the bytes up to the end of the section. *)
Definition read_header (addr : list Z) : option ILMethodCode :=
  b0 ← byte_at addr 0;
  let len := Z.of_nat (length addr) in
  if Z.land b0 0x03 =? 0x02 then extract_code len (tiny_header b0)
  else if Z.land b0 0x07 =? 0x03 then c ← fat_header addr b0; extract_code len c
  else None.

Definition ILMethodGetCode (method : N) : option ILMethodCode :=
  let m := method_info method in
  let code_type := Z.land (ilmethod_implementAttrs m) IL_META_METHODIMPL_CODE_TYPE_MASK in
  if (ilmethod_rva m =? 0) || negb ((code_type =? 0) || (code_type =? 2)) then None
  else addr ← ILImageMapRVA (ilmethod_rva m); read_header addr.

(** The bytes of the code, as far as they are there. *)
Definition code_bytes (addr : list Z) (c : ILMethodCode) : option (list Z) :=
  if (code c + codeLen c <=? Z.of_nat (length addr))
  then Some (take (Z.to_nat (codeLen c)) (drop (Z.to_nat (code c)) addr)) else None.
End method_code.
