(* ===== verification/MethodHeader.v ===== *)
(** * MethodHeader: what reading the header of a method gives

    Every tiny and every fat header of ECMA-335 is read back, and the code that
    results lies in the section of the image when the header does. *)
From S2P Require Import Prelude Values ILTypes Program SampleProgram MethodCode.

(** ** The headers of the standard *)

(** A tiny header: the size of the code in six bits. *)
Definition tiny_bytes (codeLen : Z) : list Z := [codeLen * 4 + 2].

(** A fat header of twelve bytes. *)
Definition fat_bytes (more init : bool) (maxStack codeLen localVars : Z) : list Z :=
  [3 + (if more then 8 else 0) + (if init then 16 else 0); 0x30]
  ++ le_bytes 2 maxStack ++ le_bytes 4 codeLen ++ le_bytes 4 localVars.

Section header.
Context `{Host, Program}.

Lemma ulong_nat n : Z.of_nat n < 2 ^ 32 -> ulong (Z.of_nat n) = Z.of_nat n.
Proof. intros Hn. apply ulong_small. lia. Qed.

Lemma extract_code_spec len c :
  0 <= headerSize c <= len -> len < 2 ^ 32 -> 0 < codeLen c ->
  extract_code len c =
    if len - headerSize c <? codeLen c then None
    else Some (mkCode (headerSize c) (maxStack c) (headerSize c) (codeLen c) (localVarSig c)
                 (initLocals c) (moreSections c) (len - headerSize c - codeLen c)).
Proof.
  intros Hh Hl Hc. unfold extract_code.
  rewrite (ulong_small (len - headerSize c)) by lia.
  destruct (Z.eqb_spec (codeLen c) 0); [lia |]. cbn [orb].
  destruct (Z.ltb_spec (len - headerSize c) (codeLen c)); [done |].
  unfold uint32. by rewrite to_unsigned_small by lia.
Qed.

Lemma fat_header_spec (more init : bool) ms n lv (X : list Z) :
  0 <= ms < 2 ^ 16 -> 0 <= n < 2 ^ 32 -> 0 <= lv < 2 ^ 32 -> Forall is_byte X ->
  let b0 := 3 + (if more then 8 else 0) + (if init then 16 else 0) in
  fat_header (fat_bytes more init ms n lv ++ X) b0
  = locals ← local_signature lv; Some (mkCode 12 ms 0 n locals init more 0).
Proof.
  intros Hms Hn Hlv HX b0. unfold fat_header.
  set (addr := fat_bytes more init ms n lv ++ X).
  assert (Z.of_nat (length addr) = 12 + Z.of_nat (length X)) as Hlen.
  { unfold addr, fat_bytes. rewrite !length_app, !length_le_bytes. cbn [length]. lia. }
  destruct (Z.ltb_spec (Z.of_nat (length addr)) 12); [lia |].
  assert (Forall is_byte [b0; 0x30]) as Hb.
  { repeat constructor; unfold is_byte, b0; destruct more, init; lia. }
  pose proof (le_bytes_byte 2 ms) as B2. pose proof (le_bytes_byte 4 n) as Bn.
  pose proof (le_bytes_byte 4 lv) as Bl.
  assert (IL_READ_UINT16 addr 2 = Some ms) as ->.
  { rewrite <- (to_unsigned_small 16 ms) by done.
    unfold addr, fat_bytes. rewrite <- !app_assoc.
    by apply (IL_READ_UINT16_bytes [b0; 0x30]); rewrite ?Forall_app. }
  assert (IL_READ_UINT32 addr 4 = Some n) as ->.
  { rewrite <- (to_unsigned_small 32 n) by done.
    unfold addr, fat_bytes. rewrite <- !app_assoc.
    rewrite (app_assoc [_; _]).
    by apply (IL_READ_UINT32_bytes ([b0; 0x30] ++ le_bytes 2 ms)); rewrite ?Forall_app. }
  assert (IL_READ_UINT32 addr 8 = Some lv) as ->.
  { rewrite <- (to_unsigned_small 32 lv) by done.
    unfold addr, fat_bytes. rewrite <- !app_assoc.
    rewrite (app_assoc [_; _]), (app_assoc ([_; _] ++ _)).
    by apply (IL_READ_UINT32_bytes (([b0; 0x30] ++ le_bytes 2 ms) ++ le_bytes 4 n));
      rewrite ?Forall_app. }
  cbn [mbind option_bind]. destruct (local_signature lv); [| done].
  cbn [mbind option_bind]. unfold b0. by destruct more, init.
Qed.

Lemma read_fat (more init : bool) ms n lv (X : list Z) locals :
  0 <= ms < 2 ^ 16 -> 0 < n < 2 ^ 32 -> 0 <= lv < 2 ^ 32 -> Forall is_byte X ->
  Z.of_nat (length X) < 2 ^ 31 -> local_signature lv = Some locals ->
  read_header (fat_bytes more init ms n lv ++ X)
  = if Z.of_nat (length X) <? n then None
    else Some (mkCode 12 ms 12 n locals init more (Z.of_nat (length X) - n)).
Proof.
  intros Hms Hn Hlv HX Hlen Hlocals. unfold read_header.
  set (b0 := 3 + (if more then 8 else 0) + (if init then 16 else 0)).
  assert (byte_at (fat_bytes more init ms n lv ++ X) 0 = Some b0) as -> by done.
  cbn [mbind option_bind].
  replace (Z.land b0 0x03 =? 0x02) with false by (unfold b0; by destruct more, init).
  replace (Z.land b0 0x07 =? 0x03) with true by (unfold b0; by destruct more, init).
  unfold b0 at 1. rewrite fat_header_spec, Hlocals by (done || lia). cbn [mbind option_bind].
  rewrite length_app, Nat2Z.inj_add.
  change (length (fat_bytes more init ms n lv)) with 12%nat.
  rewrite extract_code_spec by (cbn [headerSize codeLen]; lia).
  cbn [headerSize codeLen maxStack localVarSig initLocals moreSections].
  replace (Z.of_nat 12 + Z.of_nat (length X) - 12) with (Z.of_nat (length X)) by lia. done.
Qed.

(** A method body with a tiny or a fat header, as the standard lays it
    out, is read with the fields it was written with: its code is the bytes
    after the header and what is left is counted.  The locals of a fat header
    are those of its token, and a header with a bad token or with less code than
    it promises is rejected. *)
Theorem method_header_roundtrip more init stack localVars body rest locals :
  0 <= stack < 2 ^ 16 -> 0 <= localVars < 2 ^ 32 -> body <> [] ->
  Z.of_nat (length body) + Z.of_nat (length rest) < 2 ^ 31 ->
  Forall is_byte (body ++ rest) ->
  local_signature localVars = Some locals ->
  let n := Z.of_nat (length body) in
  let left := Z.of_nat (length rest) in
  let fat := fat_bytes more init stack n localVars in
  read_header (fat ++ body ++ rest)
    = Some (mkCode 12 stack 12 n locals init more left) /\
  read_header (fat ++ removelast body) = None /\
  (n < 64 ->
     read_header (tiny_bytes n ++ body ++ rest) = Some (mkCode 1 8 1 n None false false left)).
Proof.
  intros Hms Hlv Hbody Hlen Hbytes Hlocals n left fat.
  assert (0 < n) by (unfold n; destruct body; [done | cbn; lia]).
  apply Forall_app in Hbytes as [Hb Hr]. split_and!.
  - unfold fat. rewrite (read_fat _ _ _ _ _ _ locals);
      rewrite ?Forall_app, ?length_app, ?Nat2Z.inj_add; try done; try lia.
    fold n left. destruct (Z.ltb_spec (n + left) n); [lia |]. repeat f_equal. lia.
  - unfold fat. destruct (exists_last Hbody) as (l & b & ->).
    rewrite removelast_last. apply Forall_app in Hb as [Hb _].
    unfold n in *. rewrite length_app in *. cbn [length] in *.
    rewrite (read_fat _ _ _ _ _ _ locals); try done; try lia.
    destruct (Z.ltb_spec (Z.of_nat (length l)) (Z.of_nat (length l + 1))); [done | lia].
  - intros Hn. unfold read_header, tiny_bytes.
    change (byte_at _ 0) with (Some (n * 4 + 2)). cbn [mbind option_bind].
    change 0x03 with (Z.ones 2). rewrite land_low by lia.
    replace ((n * 4 + 2) mod 2 ^ 2) with 2 by zlia. cbn [Z.eqb Pos.eqb].
    unfold tiny_header. rewrite shiftr_div by lia. change 0x3F with (Z.ones 6).
    rewrite land_low by lia. replace ((n * 4 + 2) / 2 ^ 2 mod 2 ^ 6) with n by zlia.
    rewrite !length_app, !Nat2Z.inj_add. fold n left. change (length [_]) with 1%nat.
    rewrite extract_code_spec by (cbn [headerSize codeLen]; lia).
    cbn [headerSize codeLen maxStack localVarSig initLocals moreSections].
    change (Z.of_nat 1) with 1. destruct (Z.ltb_spec (1 + (n + left) - 1) n); [lia |].
    repeat f_equal. lia.
Qed.

(** A header that is read has a size and a length in range. *)
Lemma read_header_extract addr c :
  Forall is_byte addr -> read_header addr = Some c ->
  exists c0, 0 <= headerSize c0 /\ 0 <= codeLen c0 /\
    extract_code (Z.of_nat (length addr)) c0 = Some c.
Proof.
  intros Hb Hr. unfold read_header in Hr.
  destruct (byte_at addr 0) as [b0 |]; [| done]. cbn [mbind option_bind] in Hr.
  case_match.
  - eexists. split_and!; [| | exact Hr]; cbn [tiny_header headerSize codeLen]; [lia |].
    apply Z.land_nonneg. right. lia.
  - case_match; [| done]. destruct (fat_header addr b0) as [c0 |] eqn:Hf; [| done].
    cbn [mbind option_bind] in Hr. exists c0. unfold fat_header in Hf.
    case_match; [done |]. apply bind_Some in Hf as (ms & _ & Hf).
    apply bind_Some in Hf as (n & Hn & Hf). apply bind_Some in Hf as (lv & _ & Hf).
    apply bind_Some in Hf as (l & _ & Hf). apply bind_Some in Hf as (b1 & _ & Hf).
    case_match; [done |]. simplify_eq. cbn [headerSize codeLen]. split_and!; [lia | | done].
    rewrite IL_READ_UINT32_spec in Hn by done.
    apply fmap_Some in Hn as (w & Hw & ->).
    apply le_value_nonneg. exact (bytes_at_byte _ _ _ _ Hb Hw).
Qed.

(** C28: whatever the bytes are, a header that lies in its section gives code
    in its section: the code, if any, begins right after the header, and the
    code and what remains fill the section. *)
Theorem method_code_in_section addr c :
  Forall is_byte addr -> Z.of_nat (length addr) < 2 ^ 32 ->
  read_header addr = Some c -> headerSize c <= Z.of_nat (length addr) ->
  code c = headerSize c /\ 0 < codeLen c /\
  code c + codeLen c + remaining c = Z.of_nat (length addr) /\
  exists bytes, code_bytes addr c = Some bytes /\ Z.of_nat (length bytes) = codeLen c.
Proof.
  intros Hb Hlen Hr Hh. apply read_header_extract in Hr as (c0 & Hs & Hn & Hx); [| done].
  assert (headerSize c = headerSize c0) as Hhs.
  { unfold extract_code in Hx. case_match; simplify_eq. done. }
  rewrite Hhs in *. assert (codeLen c0 <> 0) as Hne.
  { intros E. unfold extract_code in Hx. rewrite E in Hx. done. }
  rewrite extract_code_spec in Hx by lia.
  destruct (Z.ltb_spec (Z.of_nat (length addr) - headerSize c0) (codeLen c0)); [done |].
  simplify_eq. cbn [code headerSize codeLen remaining]. split_and!; [done | lia | lia |].
  unfold code_bytes. cbn [code codeLen].
  rewrite (proj2 (Z.leb_le _ _)) by lia. eexists. split; [done |].
  rewrite length_take, length_drop. lia.
Qed.



End header.

Section witnesses.
#[local] Existing Instances ILP32 sample_program.

(** [ldc.i4.s 42; ret] and a byte after it. *)
Lemma method_header_roundtrip_witness :
  read_header (fat_bytes false true 8 3 0 ++ [0x1F; 42; 0x2A] ++ [0])
    = Some (mkCode 12 8 12 3 None true false 1) /\
  read_header (tiny_bytes 3 ++ [0x1F; 42; 0x2A] ++ [0])
    = Some (mkCode 1 8 1 3 None false false 1).
Proof.
  destruct (method_header_roundtrip false true 8 0 [0x1F; 42; 0x2A] [0] None)
    as (Hf & _ & Ht); [lia | lia | discriminate | cbn; lia
      | repeat constructor; unfold is_byte; lia | reflexivity |].
  split; [exact Hf | apply Ht; cbn; lia].
Defined.

Lemma method_code_in_section_witness :
  exists bytes, code_bytes [0x0E; 0x1F; 42; 0x2A; 0]
    (mkCode 1 8 1 3 None false false 1) = Some bytes /\ Z.of_nat (length bytes) = 3.
Proof.
  destruct (method_code_in_section [0x0E; 0x1F; 42; 0x2A; 0]
    (mkCode 1 8 1 3 None false false 1)) as (_ & _ & _ & H);
    [repeat constructor; unfold is_byte; lia | cbn; lia | reflexivity | cbn; lia | exact H].
Defined.
End witnesses.
