(* ===== verification/Methods.v ===== *)
(** * Methods: from the methods of an assembly to compiled functions

    Models the part of src/gcc/cil/parse_assembly.c that declares the function
    of a method, reads its parameters, locals and code, and goes through the
    classes and methods of an assembly; and the bodies of the methods of
    delegates (src/gcc/cil/build_trees.c). *)
From S2P Require Import Prelude ILMeta Values ILTypes Program Members Mangle Trees CilState CilDecl.
From S2P Require Import EvalStack Records Calls Statements StaticData Frame Metadata Instr.
From S2P Require Import ParseInstr Constants Assembly Reading MethodCode.

(** ** Delegates *)

Section delegates.
Context `{Target, MiddleEnd, Program}.

Definition MONO_DELEGATE_TARGET : Z := 4.
Definition MONO_DELEGATE_METHOD_PTR : Z := 6.

Definition formal_param (i : Z) : M tree :=
  l ← get formal_params; array_get "formal_params" l i.

Definition make_delegate_ctor : M unit :=
  delegate_ref ← formal_param 0;
  target ← create_field_access_ind delegate_ref ptr_type_node MONO_DELEGATE_TARGET;
  method_ptr ← create_field_access_ind delegate_ref ptr_type_node MONO_DELEGATE_METHOD_PTR;
  p1 ← formal_param 1;
  stack_push p1;;
  make_assignment target;;
  p2 ← formal_param 2;
  p2 ← convert ptr_type_node p2;
  stack_push p2;;
  make_assignment method_ptr.

(** The arguments [i .. i + n - 1]. *)
Fixpoint formal_args (n : nat) (i : Z) : M (list tree) :=
  match n with
  | O => mret []
  | S n => a ← formal_param i; l ← formal_args n (i + 1); mret (a :: l)
  end.

Definition delegate_call (return_type : ttype) (method_ptr : tree) (args : list tree)
    : M tree :=
  call ← build3 CALL_EXPR (Some return_type) method_ptr
    (if decide (args = []) then NULL_TREE else TREE_LIST args) NULL_TREE;
  mret (set_side_effects call).

(** [TREE_VALUE (param_types) = ptr_type_node] changes the type of the function
    in place, and with it that of the pointer to the method.  (Other functions
    of the same type share the node; that is not modelled.) *)
Definition make_delegate_invoke : M unit :=
  delegate_ref ← formal_param 0;
  target ← create_field_access_ind delegate_ref ptr_type_node MONO_DELEGATE_TARGET;
  cur ← get current_function_decl;
  fndecl ← lift "current_function_decl" cur;
  match decl_type fndecl with
  | Some (FUNCTION_TYPE return_type (TCONS _ types)) =>
      let function_type := FUNCTION_TYPE return_type (TCONS ptr_type_node types) in
      method_ptr ← create_field_access_ind delegate_ref (build_pointer_type function_type)
        MONO_DELEGATE_METHOD_PTR;
      modify (set_current_function_decl (Some (mkDecl (decl_code fndecl) (DECL_UID fndecl)
        (DECL_NAME fndecl) (Some function_type) (decl_volatile fndecl))));;
      cond ← build2 NE_EXPR (Some boolean_type_node) target null_pointer_node;
      args ← formal_args (Z.to_nat (type_list_length types - 1)) 1;
      non_static_call ← delegate_call return_type method_ptr (target :: args);
      static_call ← delegate_call return_type method_ptr args;
      result ← build3 COND_EXPR (Some return_type) cond non_static_call static_call;
      result ←
        (if bool_decide (return_type <> void_type_node) then
           decl_result ← get (fun s => DECL_RESULT (attrs_of s (DECL_UID fndecl)));
           result ← build2 MODIFY_EXPR (Some return_type) decl_result result;
           result ← build1 RETURN_EXPR (Some void_type_node) (set_side_effects result);
           mret (set_side_effects result)
         else mret result);
      append_to_statement_list result
  | _ => fail (Undefined "TYPE_ARG_TYPES")
  end.
End delegates.

(** ** Methods *)

Section methods.
Context `{Host, Target, MiddleEnd, Program} {types : TypeReader}.

(** [ILMethodNextParam] goes through the rows of the Param table. *)
Fixpoint parse_rows (sig : ILType) (rows : list (Z * string)) : M (list (ttype * string)) :=
  match rows with
  | [] => mret []
  | (num, name) :: rows =>
      il_type ← lift "ILTypeGetParam" (ILTypeGetParam sig num);
      type ← parse_type il_type;
      params ← parse_rows sig rows;
      mret ((type, name) :: params)
  end.

Definition parse_parameters (method : N) : M (list (ttype * string)) :=
  let sig := ILMethod_Signature method in
  this ←
    (if negb (ILMethod_IsStatic method) then
       obj_ref_type ← get_class_ptr_type (ILMethod_Owner method);
       mret [(obj_ref_type, "this_ptr"%string)]
     else mret []);
  params ← parse_rows sig (ilmethod_parameters (method_info method));
  mret (this ++ params).

(** [sprintf (buf, "LOC_%ld", index)], where [buf] has ten characters. *)
Definition local_name (index : Z) : M string :=
  let name := ("LOC_" +:+ decimal index)%string in
  if (String.length name + 1 <=? 10)%nat then mret name else fail (Undefined "buf").

Fixpoint parse_local_types (locals : ILType) (n : nat) (index : Z)
    : M (list (ttype * string)) :=
  match n with
  | O => mret []
  | S n =>
      type ← parse_type (ILTypeGetLocal locals index);
      name ← local_name index;
      l ← parse_local_types locals n (index + 1);
      mret ((type, name) :: l)
  end.

Definition parse_locals (c : ILMethodCode) : M unit :=
  match localVarSig c with
  | None => mret tt
  | Some locals =>
      num ← lift "ILTypeNumLocals" (ILTypeNumLocals locals);
      local_vars ← parse_local_types locals (Z.to_nat num) 0;
      add_local_vars local_vars
  end.

Definition parse_method_body (method : N) : M unit :=
  match ILMethodGetCode method, ILImageMapRVA (ilmethod_rva (method_info method)) with
  | Some c, Some addr =>
      parse_locals c;;
      bytes ← lift "method_code->code" (code_bytes addr c);
      parse_instructions bytes
  | _, _ => internal_error "Method has no IL code (RVA %x)"
  end.

(** [BeginInvoke] and [EndInvoke] are ignored with a warning. *)
Definition parse_runtime_method_body (method : N) : M unit :=
  if negb (ILTypeIsDelegate (ClassType (ILMethod_Owner method))) then
    internal_error "runtime method not supported yet"
  else
    let name := ILMethod_Name method in
    if String.eqb name ".ctor" then make_delegate_ctor
    else if String.eqb name "Invoke" then make_delegate_invoke
    else if String.eqb name "BeginInvoke" || String.eqb name "EndInvoke" then mret tt
    else internal_error "unknown runtime method".

Definition is_entry_point (method : N) : bool :=
  ilmethod_token (method_info method) =? ILImageGetEntryPoint.

Definition compile_method (method : N) : M unit :=
  method_name ← mangle_function method;
  params ← parse_parameters method;
  return_type ← parse_return_type method;
  method_decl ← make_current_function_decl method_name return_type params;
  (if is_entry_point method then set_DECL_ASSEMBLER_NAME method_decl "main" else mret tt);;
  static_constructor ← ILMethod_IsStaticConstructor method;
  (if (static_constructor : bool) then
     if ILClass_IsBeforeFieldInit (ILMethod_Owner method)
     then set_DECL_STATIC_CONSTRUCTOR method_decl
     else internal_error
       "cctor, whose corresponding class is not 'beforefieldinit', is not supported yet"
   else mret tt);;
  (if ILMethod_IsRuntime method then parse_runtime_method_body method
   else parse_method_body method);;
  compile_function.

(** Methods of interfaces and methods without code are left out. *)
Definition parse_method (token : Z) : M unit :=
  method ← non_null "Error while building method" (ILMethod_FromToken token);
  if ILClass_IsInterface (ILMethod_Owner method) then mret tt
  else if (ilmethod_rva (method_info method) =? 0) && negb (ILMethod_IsRuntime method)
  then mret tt
  else compile_method method.
End methods.

(** ** The assembly *)

Section assembly.
Context `{Host, Target, MiddleEnd, Program}.

Definition parse_classes : M unit :=
  for_loop (Z.to_nat (ILImageNumTokens IL_META_TOKEN_TYPE_DEF)) 1 (fun token _ =>
    klass ← lift "ILClass_Name" (ILClass_FromToken (Z.lor IL_META_TOKEN_TYPE_DEF token));
    if negb (String.eqb (ILClass_Name klass) "<Module>") then parse_class klass;; mret tt
    else mret tt) tt.

Definition parse_all_methods : M unit :=
  for_loop (Z.to_nat (ILImageNumTokens IL_META_TOKEN_METHOD_DEF)) 1 (fun token _ =>
    parse_method (Z.lor IL_META_TOKEN_METHOD_DEF token)) tt.

(** Between loading the assembly and the passes of the middle end. *)
Definition parse_assembly : M unit := parse_classes;; parse_all_methods.
End assembly.
