(* ===== verification/Sample.v ===== *)
(** * Sample: a concrete compilation

    An instance of every interface and the state in which the body of a small
    function is compiled; the witnesses of the theorems run on it. *)
From S2P Require Import Prelude Values Program SampleProgram Opcodes Trees CilState CilDecl.
From S2P Require Import EvalStack Records Calls Statements StaticData Frame Metadata Instr.
From S2P Require Import ParseInstr Assembly Reading.

(** The readers of types for the assembly of SampleProgram. *)
Definition sample_types : @TypeReader sample_program :=
  @assembly_types ILP32 i386 plain_middle_end sample_program.
Definition sample_image : @Metadata sample_program sample_types :=
  @assembly_metadata ILP32 i386 plain_middle_end sample_program.

(** [int32 f (int32 a, int32 b)] with two locals, on i386. *)
Definition sample_setup : comp cil_state unit :=
  make_current_function_decl "f" (@int32_type_node i386)
    [(@int32_type_node i386, "a"); (@int32_type_node i386, "b")]%string;;
  add_local_vars [(@int32_type_node i386, "x"); (@int32_type_node i386, "y")]%string.

Definition sample : cil_state :=
  match sample_setup (@init_state i386) with Done _ s => s | Failed _ => start_state end.

(** The same with two constants on the stack. *)
Definition sample_two : cil_state :=
  set_height 2 (set_top_item [INTEGER_CST integer_type_node 2;
    INTEGER_CST integer_type_node 1] sample).

Definition sample_parse (code : list Z) : outcome cil_state unit :=
  @parse_instructions ILP32 i386 plain_middle_end sample_program sample_types code sample.

(** [ldarg.0; ldarg.1; add; ret] *)
Example sample_add :
  match sample_parse [0x02; 0x03; 0x58; 0x2A] with
  | Done _ s => height s = 0 /\ length (current_function_body s) = 2%nat
  | Failed _ => False
  end.
Proof. vm_compute. split; reflexivity. Qed.

(** The classes [N.Base] and [N.Derived] after they were parsed. *)
Definition sample_class : cil_state :=
  match @parse_class ILP32 i386 plain_middle_end sample_program 3 sample_two with
  | Done _ s => s
  | Failed _ => sample_two
  end.
