(* ===== verification/ClassRecords.v ===== *)
(** * ClassRecords: a class is parsed once and has one record

    [parse_class] and [get_class_decl] are called for a class wherever its name
    occurs.  Once it was parsed, or its record made, they leave the state as it
    is, whatever was read in between. *)
From S2P Require Import Prelude ILTypes Program SampleProgram Members Mangle Trees CilState.
From S2P Require Import CilDecl EvalStack Records Calls StaticData Frame Metadata ParseInstr.
From S2P Require Import Constants Assembly Reading Sample.

(** ** Computations that do not depend on the state *)

(** The result is the same in every state, which is kept. *)
Definition stateless {A} (m : M A) : Prop :=
  (exists a, forall s, m s = Done a s) \/ (exists f, forall s, m s = Failed f).

Lemma stateless_ret {A} (a : A) : stateless (mret a).
Proof. left. by exists a. Qed.
Lemma stateless_fail {A} f : stateless (fail (A := A) f).
Proof. right. by exists f. Qed.
Lemma stateless_bind {A B} (m : M A) (f : A -> M B) :
  stateless m -> (forall a, stateless (f a)) -> stateless (m ≫= f).
Proof.
  intros [[a Ha] | [e He]] Hf.
  - destruct (Hf a) as [[b Hb] | [e He]]; [left; exists b | right; exists e]; intros s;
      unfold mbind, comp_bind; rewrite Ha; auto.
  - right. exists e. intros s. unfold mbind, comp_bind. by rewrite He.
Qed.
Lemma stateless_lift {A} w (o : option A) : stateless (lift w o).
Proof. destruct o; [apply stateless_ret | apply stateless_fail]. Qed.
Lemma stateless_mangling {A} (text : MM A) : stateless (finish_mangling text).
Proof.
  unfold finish_mangling. destruct (text _) as [a m | f]; [left | right]; by eexists.
Qed.

Create HintDb stateless.
#[export] Hint Resolve stateless_ret stateless_fail stateless_bind stateless_lift
  stateless_mangling : stateless.

Lemma stateless_done {A} (m : M A) a s s' :
  stateless m -> m s = Done a s' -> s' = s /\ forall t, m t = Done a t.
Proof. intros [[b Hb] | [f Hf]] Hm; rewrite ?Hb, ?Hf in Hm; by simplify_eq. Qed.

Section records.
Context `{Host, Target, MiddleEnd, Program}.

Lemma stateless_complex i l : stateless (make_complex_identifier i l).
Proof.
  unfold make_complex_identifier. case_match; [apply stateless_fail | apply stateless_ret].
Qed.

Lemma stateless_class_name k : stateless (get_namespace_class_name k).
Proof.
  unfold get_namespace_class_name, get_assembly_name, get_assembly_ref_name.
  repeat first [ apply stateless_bind; [| intros ?] | apply stateless_complex
               | apply stateless_lift | apply stateless_ret | apply stateless_fail
               | case_match ].
Qed.

(** ** Parsing a class again *)

(** Nothing need be known of a computation. *)
Lemma wp_skip {A B} (m : M A) (f : A -> M B) Q s :
  (forall a s', wp (fun _ => True) (f a) Q s') -> wp (fun _ => True) (m ≫= f) Q s.
Proof. intros Hf. apply wp_bind. unfold wp at 1. case_match; [apply Hf | exact I]. Qed.

(** What is declared stays so. *)
Lemma declared_after {A} (m : M A) n s :
  keeps_function m -> declared s n -> wp (fun _ => True) m (fun _ s' => declared s' n) s.
Proof. intros Hm Hn. eapply wp_mono; [| apply Hm]. intros a s' Hs. by apply Hs. Qed.
Lemma set_IDENTIFIER_declares n d s :
  wp (fun _ => True) (set_IDENTIFIER n d) (fun _ s' => declared s' n) s.
Proof.
  unfold set_IDENTIFIER. apply wp_modify. unfold declared, lookup_tree. cbn.
  by rewrite lookup_insert_eq.
Qed.

Lemma create_mono_class_declares n s :
  wp (fun _ => True) (create_mono_class_decl n) (fun _ s' => declared s' n) s.
Proof.
  unfold create_mono_class_decl. do 3 (apply wp_skip; intros ? ?). apply wp_bind.
  eapply wp_mono; [| apply set_IDENTIFIER_declares]. intros. by apply wp_ret.
Qed.

Lemma make_ext_declares n s :
  wp (fun _ => True) (make_ext_mono_class n) (fun _ s' => declared s' n) s.
Proof.
  unfold make_ext_mono_class. do 2 (apply wp_skip; intros ? ?). apply wp_bind.
  eapply wp_mono; [| apply set_IDENTIFIER_declares]. intros. apply declared_after; [| done].
  solve_frame.
Qed.

Context {types : TypeReader} {laws : Metadata} (parse_class : N -> M string).

Lemma class_data_declares k c n d l p s :
  wp (fun _ => True) (make_class_data k c n d l p) (fun _ s' => declared s' n) s.
Proof.
  unfold make_class_data. cbv zeta. case_match.
  - apply wp_bind. unfold make_intf_mono_class. do 4 (apply wp_skip; intros ? ?).
    apply wp_bind. eapply wp_mono; [| apply create_mono_class_declares].
    intros ? ? Hd. apply (wp_mono _ _ (fun _ s' => declared s' n)).
    + intros ? ? Hd'. apply declared_after; [apply keeps_values_function, frame_create_intf_indices | exact Hd'].
    + apply declared_after; [auto with frame | exact Hd].
  - apply wp_bind. eapply wp_mono; [| apply create_mono_class_declares].
    intros ? s1 Hs1. apply declared_after; [| exact Hs1].
    pose proof frame_create_virtual_indices. pose proof (frame_create_vtable_entries (R := same_function)).
    solve_frame.
Qed.

Lemma parse_class_declares k s :
  wp (fun _ => True) (parse_class_body parse_class k) (fun n s' => declared s' n) s.
Proof.
  unfold parse_class_body. apply wp_skip. intros n s1. wp_step. wp_step. cbv beta.
  apply wp_bind. apply (wp_mono _ _ (fun _ s' => declared s' n)); [by intros; apply wp_ret |].
  wp_step; [apply wp_ret; by apply negb_true_iff |].
  apply wp_skip. intros [names parent_name] s2. do 5 (apply wp_skip; intros ? ?).
  apply wp_bind. apply (wp_mono _ _ (fun _ s' => declared s' n)).
  - intros ? ? Hd. apply declared_after; [| exact Hd].
    pose proof frame_make_value_type. solve_frame.
  - case_match; [apply class_data_declares | apply make_ext_declares].
Qed.

(** A class that was parsed is found. *)
Lemma parse_class_again k n s s' s2 :
  parse_class_body parse_class k s = Done n s' -> same_function s' s2 ->
  parse_class_body parse_class k s2 = Done n s2.
Proof.
  intros Hd Hs. pose proof (outcome_done _ _ _ _ _ _ Hd (parse_class_declares k s)) as Hn.
  cbv beta in Hn. revert Hd. unfold parse_class_body.
  destruct (mangle_mono_class k s) as [name s1 |] eqn:Hm;
    [| unfold mbind, comp_bind; by rewrite Hm].
  apply stateless_done in Hm as [-> Hm]; [| apply stateless_mangling].
  unfold mbind at 1, comp_bind at 1. rewrite Hm. intros Hd.
  unfold mbind at 1, comp_bind at 1. rewrite Hm.
  assert (n = name) as <-.
  { revert Hd. unfold get, mbind, comp_bind, mret, comp_ret. repeat case_match; congruence. }
  assert (declared s2 n) as Hn2 by by apply Hs.
  unfold get, mbind, comp_bind, mret, comp_ret. cbn. by rewrite Hn2.
Qed.

Lemma create_class_decl_known k n s :
  wp (fun _ => True) (create_class_decl k n)
    (fun d s' => IDENTIFIER_CLASS_DECL s' !! n = Some d) s.
Proof.
  eapply wp_mono; [| apply create_class_decl_wp]. by intros d s' [].
Qed.

Context (parse_class_keeps : forall k, keeps_function (parse_class k)).

(** The record is found under the name of the class. *)
Lemma get_class_decl_known k s :
  wp (fun _ => True) (get_class_decl_body parse_class k) (fun d s' => exists name,
    (forall t, get_namespace_class_name k t = Done name t) /\
    IDENTIFIER_CLASS_DECL s' !! name = Some d) s.
Proof.
  unfold get_class_decl_body. apply wp_bind.
  destruct (stateless_class_name k) as [[name Hn] | [f Hf]]; unfold wp at 1; cycle 1.
  { by rewrite Hf. }
  rewrite Hn. wp_step. wp_step. cbv beta. case_match eqn:Hk.
  { apply wp_ret. by exists name. }
  case_match.
  - apply wp_skip. intros k' s1. apply wp_bind. eapply wp_mono; [| apply create_class_decl_known].
    intros d s2 Hd. cbv beta in Hd. apply wp_bind. eapply wp_mono; [| apply parse_class_keeps].
    intros ? s3 Hs3. apply wp_ret. exists name. split; [done |].
    by eapply lookup_weaken; [exact Hd | apply Hs3].
  - eapply wp_mono; [| apply create_class_decl_known]. intros d s2 Hd. by exists name.
Qed.

Lemma get_class_decl_again k d s s' s2 :
  get_class_decl_body parse_class k s = Done d s' -> same_function s' s2 ->
  get_class_decl_body parse_class k s2 = Done d s2.
Proof.
  intros Hd Hs. destruct (outcome_done _ _ _ _ _ _ Hd (get_class_decl_known k s))
    as (name & Hn & Hl).
  unfold get_class_decl_body, mbind, comp_bind, get. rewrite Hn.
  rewrite (lookup_weaken _ _ _ _ Hl) by apply Hs. done.
Qed.
End records.

(** ** The readers of the compiler *)

Section theorems.
Context `{Host, Target, MiddleEnd, Program}.

Lemma parse_class_keeps k : keeps_function (parse_class k).
Proof. apply read_keeps. Qed.

(** C20: a class is compiled once.  After [parse_class] has run for a class,
    and however much else was read since, it returns the same name and leaves
    the state alone: no second record, method table or [MonoClass] is made. *)
Theorem parse_class_once klass n t ty s s1 s2 :
  parse_class klass s = Done n s1 -> parse_type t s1 = Done ty s2 ->
  parse_class klass s1 = Done n s1 /\ parse_class klass s2 = Done n s2.
Proof.
  intros Hp Ht. pose proof (outcome_done _ _ _ _ _ _ Ht (parse_type_keeps t s1)) as Hs.
  cbv beta in Hs. unfold parse_class in *. destruct reader_fuel as [| fuel]; [done |].
  assert (@Metadata _ (reader_types (read fuel))) as laws
    by (constructor; apply read_keeps).
  split; (eapply (parse_class_again (types := reader_types (read fuel)));
    [exact Hp | done || exact Hs]).
Qed.

(** C21: a class has one record.  Once [get_class_decl] has returned a record
    for a class, it returns that record again and leaves the state alone,
    after any type was read and any class was compiled. *)
Theorem class_record_unique klass d t k n s s1 s2 :
  get_class_decl klass s = Done d s1 -> (parse_type t;; parse_class k) s1 = Done n s2 ->
  get_class_decl klass s1 = Done d s1 /\ get_class_decl klass s2 = Done d s2.
Proof.
  intros Hd Ht.
  assert (keeps_function (parse_type t;; parse_class k)) as Hkeeps
    by (apply frame_bind; [apply _ | apply parse_type_keeps | intros _; apply parse_class_keeps]).
  pose proof (outcome_done _ _ _ _ _ _ Ht (Hkeeps s1)) as Hs. cbv beta in Hs. unfold get_class_decl, assembly_types in *.
  destruct reader_fuel as [| fuel]; [done |].
  assert (@Metadata _ (reader_types (read fuel))) as laws
    by (constructor; apply read_keeps).
  assert (forall k, keeps_function (reader_class (read fuel) k)) as Hk by apply read_keeps.
  split; (eapply get_class_decl_again;
    [exact Hk | exact Hd | done || exact Hs]).
Qed.
End theorems.

Section witnesses.
#[local] Existing Instances ILP32 i386 plain_middle_end sample_program sample_types sample_image.

(** The two computations, one after the other, both succeed. *)
Definition both_done {A B} (m : M A) (f : M B) (s : cil_state) : bool :=
  match m s with
  | Done _ s1 => match f s1 with Done _ _ => true | Failed _ => false end
  | Failed _ => false
  end.

Lemma both_done_spec {A B} (m : M A) (f : M B) s :
  both_done m f s = true -> exists a s1 b s2, m s = Done a s1 /\ f s1 = Done b s2.
Proof.
  unfold both_done. destruct (m s) as [a s1 |] eqn:E; [| done].
  destruct (f s1) as [b s2 |] eqn:E2; [| done]. intros _. by exists a, s1, b, s2.
Qed.

Lemma sample_class_parsed :
  both_done (parse_class 3) (parse_type (ClassType 11)) sample_two = true.
Proof. vm_compute. reflexivity. Qed.
Lemma sample_class_found :
  both_done (get_class_decl 11) (parse_type (ClassType 12);; parse_class 3) sample_two = true.
Proof. vm_compute. reflexivity. Qed.

Lemma parse_class_once_witness :
  exists n s1, parse_class 3 sample_two = Done n s1 /\ parse_class 3 s1 = Done n s1.
Proof.
  destruct (both_done_spec _ _ _ sample_class_parsed) as (n & s1 & ty & s2 & E & E2).
  exists n, s1. split; [exact E |].
  exact (proj1 (parse_class_once 3 n (ClassType 11) ty sample_two s1 s2 E E2)).
Defined.

Lemma class_record_unique_witness :
  exists d s1, get_class_decl 11 sample_two = Done d s1 /\ get_class_decl 11 s1 = Done d s1.
Proof.
  destruct (both_done_spec _ _ _ sample_class_found) as (d & s1 & n & s2 & E & E2).
  exists d, s1. split; [exact E |].
  exact (proj1 (class_record_unique 11 d (ClassType 12) 3 n sample_two s1 s2 E E2)).
Defined.
End witnesses.
