(* ===== verification/Fuel.v ===== *)
(** * Fuel: the bound on the depth of the readers

    [read n] cuts the calls of [parse_type], [get_class_decl] and [parse_class]
    inside each other at depth [n].  A result that does not come from the cut is
    the result for every greater bound, so that it is the result of the C
    functions; and for a value type with a static field of its own type no bound
    is enough: the relation [keeps_unread] says that nothing that is read gives it
    its value type. *)
From S2P Require Import Prelude ILTypes Program SampleProgram Members Mangle Trees CilState.
From S2P Require Import CilDecl EvalStack Records Calls StaticData Frame Metadata ParseInstr.
From S2P Require Import Constants Assembly Reading Sample ClassRecords.

(** [m] runs out of fuel or does what [m'] does. *)
Definition approx {A} (m m' : M A) : Prop :=
  forall s, m s = Failed Out_of_fuel \/ m s = m' s.

Lemma approx_refl {A} (m : M A) : approx m m.
Proof. by right. Qed.
Lemma approx_no_fuel {A} (m : M A) : approx (fail Out_of_fuel) m.
Proof. by left. Qed.
Lemma approx_bind {A B} (m m' : M A) (f f' : A -> M B) :
  approx m m' -> (forall a, approx (f a) (f' a)) -> approx (m ≫= f) (m' ≫= f').
Proof.
  intros Hm Hf s. unfold mbind, comp_bind. destruct (Hm s) as [-> | <-]; [by left |].
  destruct (m s); [apply Hf | by right].
Qed.

Create HintDb approx.
#[export] Hint Resolve approx_refl approx_no_fuel : approx.

Ltac approx_step :=
  match goal with
  | |- approx ?m ?m => apply approx_refl
  | |- approx (mbind _ _) (mbind _ _) => apply approx_bind; [| intros ?]
  | |- approx (match ?x with _ => _ end) (match ?x with _ => _ end) => destruct x
  | |- approx (let x := ?a in _) _ => cbv zeta
  | |- _ => solve [auto with approx]
  end.
Ltac solve_approx := intros; repeat approx_step.

(** ** The bodies respect the order *)

Section monotone.
Context `{Host, Target, MiddleEnd, Program} (types types' : TypeReader).
Context (Htype : forall t, approx (@parse_type _ types t) (@parse_type _ types' t)).
Context (Hdecl : forall k, approx (@get_class_decl _ types k) (@get_class_decl _ types' k)).
Context (parse_class parse_class' : N -> M string).
Context (Hclass : forall k, approx (parse_class k) (parse_class' k)).
Hint Resolve Htype Hdecl Hclass : approx.

Lemma approx_class_ptr k :
  approx (get_class_ptr_type (types := types) k) (get_class_ptr_type (types := types') k).
Proof. unfold get_class_ptr_type. solve_approx. Qed.
Hint Resolve approx_class_ptr : approx.
Lemma approx_param_types n i sig :
  approx (parse_param_types (types := types) n i sig)
    (parse_param_types (types := types') n i sig).
Proof. revert i. induction n; intros; simpl; solve_approx. Qed.
Hint Resolve approx_param_types : approx.
Lemma approx_parameters_types m :
  approx (parse_parameters_types (types := types) m)
    (parse_parameters_types (types := types') m).
Proof. unfold parse_parameters_types. solve_approx. Qed.
Lemma approx_return_type m :
  approx (parse_return_type (types := types) m) (parse_return_type (types := types') m).
Proof. unfold parse_return_type. solve_approx. Qed.
Hint Resolve approx_parameters_types approx_return_type : approx.
Lemma approx_function_ptr m :
  approx (get_function_ptr (types := types) m) (get_function_ptr (types := types') m).
Proof. unfold get_function_ptr. solve_approx. Qed.
Hint Resolve approx_function_ptr : approx.
Lemma approx_add_slot l m :
  approx (add_vtable_slot (types := types) l m) (add_vtable_slot (types := types') l m).
Proof. unfold add_vtable_slot. solve_approx. Qed.
Lemma approx_change_slot l m :
  approx (change_vtable_slot (types := types) l m) (change_vtable_slot (types := types') l m).
Proof. unfold change_vtable_slot. solve_approx. Qed.
Hint Resolve approx_add_slot approx_change_slot : approx.
Lemma approx_vtable_slots m l :
  approx (vtable_slots (types := types) m l) (vtable_slots (types := types') m l).
Proof. revert l. induction m; intros; simpl; solve_approx. Qed.
Hint Resolve approx_vtable_slots : approx.
Lemma approx_vtable_entries n k :
  approx (create_vtable_entries (types := types) n k)
    (create_vtable_entries (types := types') n k).
Proof. revert k. induction n; intros []; simpl; solve_approx. Qed.
Lemma approx_parse_field k r f :
  approx (parse_field (types := types) k r f) (parse_field (types := types') k r f).
Proof. unfold parse_field. solve_approx. Qed.
Hint Resolve approx_vtable_entries approx_parse_field : approx.
Lemma approx_own_fields k r l :
  approx (parse_own_fields (types := types) k r l) (parse_own_fields (types := types') k r l).
Proof. induction l; simpl; solve_approx. Qed.
Hint Resolve approx_own_fields : approx.
Lemma approx_parse_fields n k r :
  approx (parse_fields (types := types) n k r) (parse_fields (types := types') n k r).
Proof. revert k. induction n; intros; simpl; solve_approx. Qed.
Lemma approx_statics r l :
  approx (parse_statics (types := types) r l) (parse_statics (types := types') r l).
Proof. induction l; simpl; solve_approx. Qed.
Hint Resolve approx_parse_fields approx_statics : approx.
Lemma approx_static_fields k :
  approx (parse_static_fields (types := types) k) (parse_static_fields (types := types') k).
Proof. unfold parse_static_fields. solve_approx. Qed.
Lemma approx_value_type k :
  approx (get_value_type (types := types) parse_class k)
    (get_value_type (types := types') parse_class' k).
Proof. unfold get_value_type. solve_approx. Qed.
Lemma approx_ref_type t :
  approx (parse_ref_type (types := types) t) (parse_ref_type (types := types') t).
Proof. unfold parse_ref_type. solve_approx. Qed.
Lemma approx_interfaces l :
  approx (parse_interfaces parse_class l) (parse_interfaces parse_class' l).
Proof. induction l; simpl; solve_approx. Qed.
Lemma approx_class_data k c n d l p :
  approx (make_class_data (types := types) k c n d l p)
    (make_class_data (types := types') k c n d l p).
Proof. unfold make_class_data. solve_approx. Qed.
Lemma approx_make_value_type k d :
  approx (make_value_type (types := types) k d) (make_value_type (types := types') k d).
Proof. unfold make_value_type. solve_approx. Qed.
Hint Resolve approx_static_fields approx_value_type approx_ref_type approx_interfaces
  approx_class_data approx_make_value_type : approx.

Lemma approx_parse_type t :
  approx (parse_type_body (types := types) parse_class t)
    (parse_type_body (types := types') parse_class' t).
Proof. unfold parse_type_body. solve_approx. Qed.
Lemma approx_class_decl k :
  approx (get_class_decl_body parse_class k) (get_class_decl_body parse_class' k).
Proof. unfold get_class_decl_body. solve_approx. Qed.
Lemma approx_parse_class k :
  approx (parse_class_body (types := types) parse_class k)
    (parse_class_body (types := types') parse_class' k).
Proof. unfold parse_class_body. solve_approx. Qed.
End monotone.

(** ** The bound *)

Section fuel.
Context `{Host, Target, MiddleEnd, Program}.

(** The two readers, in this order. *)
Definition reader_approx (r r' : reader) : Prop :=
  (forall t, approx (@parse_type _ (reader_types r) t) (@parse_type _ (reader_types r') t)) /\
  (forall k, approx (@get_class_decl _ (reader_types r) k)
    (@get_class_decl _ (reader_types r') k)) /\
  (forall k, approx (reader_class r k) (reader_class r' k)).

Lemma next_reader_approx r r' :
  reader_approx r r' -> reader_approx (next_reader r) (next_reader r').
Proof.
  intros (Ht & Hd & Hc). split_and!; intros; simpl.
  - by apply approx_parse_type.
  - by apply approx_class_decl.
  - by apply approx_parse_class.
Qed.

Lemma read_approx n m : (n <= m)%nat -> reader_approx (read n) (read m).
Proof.
  revert m. induction n as [| n IH]; intros m Hm.
  - split_and!; intros; apply approx_no_fuel.
  - destruct m as [| m]; [lia |]. apply next_reader_approx, IH. lia.
Qed.

(** A type or a class that is read within some bound on the depth of the
    calls, whether it succeeds or fails, is read in the same way within every
    greater bound. *)
Lemma reading_fuel n m t k s :
  (n <= m)%nat ->
  (parse_type (TypeReader := reader_types (read n)) t s <> Failed Out_of_fuel ->
   parse_type (TypeReader := reader_types (read m)) t s
   = parse_type (TypeReader := reader_types (read n)) t s) /\
  (reader_class (read n) k s <> Failed Out_of_fuel ->
   reader_class (read m) k s = reader_class (read n) k s).
Proof.
  intros Hn. destruct (read_approx n m Hn) as (Ht & _ & Hc). split; intros Hf.
  - destruct (Ht t s) as [E | E]; [done |]. by rewrite E.
  - destruct (Hc k s) as [E | E]; [done |]. by rewrite E.
Qed.
End fuel.

(** ** Classes that no bound is enough for *)

Section unread.
Context `{Host, Target, MiddleEnd, Program} (klass : N) (cname : string) (r : N).

(** The record [r] was made for the class and is no other class's, and the class
    has no value type yet, as after its first mention. *)
Record unread (s : cil_state) : Prop := {
  unread_record : IDENTIFIER_CLASS_DECL s !! cname = Some (RECORD_TYPE r);
  unread_old : (r < next_uid s)%N;
  unread_own n : IDENTIFIER_CLASS_DECL s !! n = Some (RECORD_TYPE r) -> n = cname;
  unread_value : TYPE_VALUETYPE s !! r = None
}.

Definition keeps_unread (s s' : cil_state) : Prop :=
  same_function s s' /\ (unread s -> unread s').

#[local] Instance keeps_unread_preorder : PreOrder keeps_unread.
Proof.
  split; [done |]. intros s1 s2 s3 [H12 U12] [H23 U23]. split; [by etransitivity | auto].
Qed.

Lemma unread_later s s' :
  same_function s s' -> TYPE_VALUETYPE s' !! r = None -> unread s -> unread s'.
Proof.
  intros Hs Hv [Hr Ho Hn _]. unfold same_function, old_records in Hs. destruct_and!.
  split; [by eapply lookup_weaken | lia | | done]. intros n Hr'. eauto.
Qed.

Lemma values_keep_unread A (m : M A) : keeps_values m -> keeps_rel keeps_unread m.
Proof.
  intros Hm s. eapply wp_mono; [| apply Hm]. intros a s' [Hs Hv]. split; [done |].
  intros Hu. eapply unread_later; [exact Hs | | done]. rewrite Hv. apply Hu.
Qed.

(** The computation has no result. *)
Definition never {A} (m : M A) (s : cil_state) : Prop :=
  wp (fun _ => True) m (fun _ _ => False) s.

Lemma never_done {A} (m : M A) s a s' : never m s -> m s <> Done a s'.
Proof. unfold never, wp. intros Hm E. by rewrite E in Hm. Qed.

Lemma unread_step {A} (m : M A) Q s :
  keeps_rel keeps_unread m -> unread s ->
  (forall a s', same_function s s' -> unread s' -> Q a s') -> wp (fun _ => True) m Q s.
Proof. intros Hm Hu HQ. eapply wp_mono; [| apply Hm]. intros a s' [Hs Hu']. auto. Qed.

(** The names of classes tell [klass] from the others; it is a value type and
    not an enumeration, of this program, and has a static field of its own
    type. *)
Context (class_named : forall s, get_namespace_class_name klass s = Done cname s).
Context (class_unique : forall k s, get_namespace_class_name k s = Done cname s -> k = klass).
Context (class_local : ILClassIsRef klass = false)
  (class_struct : ILTypeIsEnum (ValueType klass) = false).
Context (f : N) (field_own : f ∈ class_fields klass) (field_static : ILField_IsStatic f = true)
  (field_self : ILFieldGetType f = ValueType klass).

#[local] Hint Extern 5 (keeps_rel keeps_unread _) =>
  apply values_keep_unread; solve [auto with frame] : frame.
#[local] Hint Resolve reads_type reads_class : frame.

Section level.
Context {types : TypeReader} {laws : Metadata} {reads : Reads keeps_unread}.
Context (pc : N -> M string) (pc_keeps : forall k, keeps_rel keeps_unread (pc k)).
Context (type_never : forall s, unread s -> never (parse_type (ValueType klass)) s).
Hint Resolve pc_keeps : frame.

(** The static field stops the reading of the static fields. *)
Lemma statics_never statics l s :
  f ∈ l -> unread s -> never (parse_statics statics l) s.
Proof.
  pose proof frame_parse_constant.
  revert s. induction l as [| g l IH]; intros s Hf Hu; [by apply not_elem_of_nil in Hf |].
  cbn [parse_statics]. apply wp_bind.
  apply elem_of_cons in Hf as [<- | Hf].
  - rewrite field_static, field_self. apply wp_bind.
    eapply wp_mono; [| by apply type_never]. done.
  - apply unread_step; [solve_frame | exact Hu |]. intros a s' _ Hu'. by apply IH.
Qed.

Lemma static_fields_never s : unread s -> never (parse_static_fields klass) s.
Proof.
  intros Hu. unfold parse_static_fields. apply wp_bind.
  apply unread_step; [apply frame_get_static_fields_decl | exact Hu |].
  intros a s' _ Hu'. by apply statics_never.
Qed.

(** Another class gets its value type. *)
Lemma other_value_type k name d s :
  name <> cname -> IDENTIFIER_CLASS_DECL s !! name = Some d -> unread s ->
  wp (fun _ => True) (make_value_type k d) (fun _ s' => unread s') s.
Proof.
  intros Hne Hd Hu. unfold make_value_type. pose proof frame_parse_fields.
  apply wp_bind, unread_step; [solve_frame | exact Hu |]. intros b s1 F1 U1.
  apply wp_bind, unread_step; [solve_frame | exact U1 |]. intros v s2 F2 U2.
  assert (IDENTIFIER_CLASS_DECL s2 !! name = Some d) as Hd2.
  { eapply lookup_weaken; [eapply lookup_weaken; [exact Hd |] |]; [apply F1 | apply F2]. }
  unfold set_value_type. apply wp_bind. destruct d as [| | | | | n | |]; try exact I.
  apply wp_modify, wp_modify. destruct U2 as [Hr Ho Hn Hv].
  assert (n <> r) by (intros ->; by apply Hne, Hn).
  split; [exact Hr | exact Ho | exact Hn |]. cbn. by rewrite lookup_insert_ne.
Qed.
(** Reading a class leaves [klass] as it is: another class has another name, and
    [klass] itself is passed over, when its [MonoClass] is declared already, or
    its static field stops the reading. *)
Lemma class_body_unread k s :
  unread s ->
  wp (fun _ => True) (parse_class_body pc k) (fun n s' =>
    unread s' /\ (k = klass -> mangle_mono_class k s = Done n s /\ declared s n)) s.
Proof.
  intros Hu. unfold parse_class_body. apply wp_bind.
  destruct (mangle_mono_class k s) as [name s0 |] eqn:Em;
    unfold wp at 1; rewrite Em; [| exact I].
  apply stateless_done in Em as [-> _]; [| apply stateless_mangling].
  apply wp_bind, wp_get, wp_bind. destruct (is_null _) eqn:En; cbn [negb].
  2: { apply wp_ret, wp_ret. done. }
  pose proof frame_parse_interfaces. pose proof frame_parent.
  pose proof frame_parse_fields. pose proof frame_make_class_data.
  apply wp_bind, unread_step; [solve_frame | exact Hu |]. intros [intfs parent_name] s1 _ U1.
  apply wp_bind.
  destruct (get_namespace_class_name k s1) as [cn s2 |] eqn:Ecn;
    unfold wp at 1; rewrite Ecn; [| exact I].
  apply stateless_done in Ecn as [-> Hcn]; [| apply stateless_class_name].
  apply wp_bind. eapply wp_mono; [| apply wp_conj; [apply create_class_decl_known
    | apply unread_step; [solve_frame | exact U1 | intros a s' _; exact id]]].
  intros d s3 [Hd U3]. cbv beta in *.
  apply wp_bind, unread_step; [solve_frame | exact U3 |]. intros [] s4 F4 U4. apply wp_bind.
  destruct (decide (k = klass)) as [-> | Hne].
  { eapply wp_mono; [| by apply static_fields_never]. done. }
  apply unread_step; [apply frame_parse_static_fields | exact U4 |]. intros [] s5 F5 U5.
  pose proof frame_finish_class.
  apply wp_bind, unread_step; [solve_frame | exact U5 |]. intros [] s6 F6 U6.
  apply wp_bind, unread_step; [solve_frame | exact U6 |]. intros [] s7 F7 U7.
  apply wp_bind, unread_step; [solve_frame | exact U7 |]. intros value s8 F8 U8.
  apply (wp_mono _ _ (fun _ s' => unread s')); [intros [] s' U'; by apply wp_ret |].
  destruct value; [| by apply wp_ret]. apply (other_value_type k cn); [| | exact U8].
  - intros ->. by apply Hne, (class_unique _ s1).
  - assert (same_function s3 s8) as F by (do 4 (etransitivity; [eassumption |]); exact F8).
    eapply lookup_weaken; [exact Hd | apply F].
Qed.
End level.

Lemma known_record fuel s :
  unread s ->
  wp (fun _ => True) (get_class_decl (TypeReader := reader_types (read fuel)) klass)
    (fun d s' => d = RECORD_TYPE r /\ s' = s) s.
Proof.
  intros Hu. destruct fuel as [| fuel]; [exact I |]. simpl. unfold get_class_decl_body.
  apply wp_bind. unfold wp at 1. rewrite class_named. apply wp_bind, wp_get.
  rewrite (unread_record _ Hu). by apply wp_ret.
Qed.

(** Asked for its value type, [klass] has none before its class is parsed and none
    after. *)
Lemma value_type_never fuel s :
  (forall k, keeps_rel keeps_unread (reader_class (read fuel) k)) -> unread s ->
  never (parse_type_body (types := reader_types (read fuel)) (reader_class (read fuel))
    (ValueType klass)) s.
Proof.
  intros Hc Hu. unfold never, parse_type_body. rewrite class_local.
  apply wp_bind, wp_ret. rewrite class_struct. unfold get_value_type.
  apply wp_bind. eapply wp_mono; [| by apply known_record]. intros d s' [-> ->].
  apply wp_bind, wp_get. rewrite (unread_value _ Hu).
  apply wp_bind, wp_bind, unread_step; [apply Hc | exact Hu |]. intros n s1 _ U1.
  apply wp_ret, wp_bind, wp_get. rewrite (unread_value _ U1). exact I.
Qed.

Lemma read_unread fuel :
  (forall t, keeps_rel keeps_unread (parse_type (TypeReader := reader_types (read fuel)) t)) /\
  (forall k, keeps_rel keeps_unread (get_class_decl (TypeReader := reader_types (read fuel)) k)) /\
  (forall k, keeps_rel keeps_unread (reader_class (read fuel) k)) /\
  (forall s, unread s ->
     never (parse_type (TypeReader := reader_types (read fuel)) (ValueType klass)) s).
Proof.
  induction fuel as [| fuel (Ht & Hd & Hc & Hn)];
    [split_and!; intros; first [exact I | by apply frame_fail] |].
  pose (@Build_Reads _ (reader_types (read fuel)) keeps_unread _ values_keep_unread Ht Hd) as reads.
  split_and!; intros.
  - by apply frame_parse_type_body.
  - by apply (frame_get_class_decl_body (types := reader_types (read fuel))).
  - intros s. pose proof (proj2 (proj2 (read_keeps (S fuel))) k s) as Hk.
    pose proof (class_body_unread _ Hc Hn k s) as Hu. unfold wp in *. simpl in *.
    destruct (parse_class_body _ k s) as [n s' |]; [| exact I]. split; [exact Hk |].
    intros U. by apply Hu.
  - by apply value_type_never.
Qed.

(** C39: a value type with a static field of its own type, as [DateTime] has
    [MinValue], is never read: [parse_class] reads the type of the field before it
    sets the value type of the class, and that asks for the class again.  In
    whatever program it is, and whatever was read before, neither its type nor,
    as long as its [MonoClass] is not declared, the class itself has a result
    within any bound on the depth of the calls.  The record of the class has been
    made, and no other class has its name. *)
Theorem self_static_never_read fuel s :
  unread s ->
  (forall t s', parse_type (TypeReader := reader_types (read fuel)) (ValueType klass) s
     <> Done t s') /\
  ((forall n, mangle_mono_class klass s = Done n s -> ~ declared s n) ->
   forall n s', reader_class (read fuel) klass s <> Done n s').
Proof.
  intros Hu. split.
  - intros t s'. apply never_done. by apply read_unread.
  - intros Hm n s' E. destruct fuel as [| fuel]; [done |].
    destruct (read_unread fuel) as (Ht & Hd & Hc & Hn).
    pose (@Build_Reads _ (reader_types (read fuel)) keeps_unread _ values_keep_unread Ht Hd)
      as reads.
    destruct (outcome_done _ _ _ _ _ _ E (class_body_unread _ Hc Hn klass s Hu)) as [_ Hk].
    destruct (Hk eq_refl) as [Hname Hdecl]. by apply (Hm n).
Qed.
End unread.

(** ** The class of the sample *)

Section struct.
#[local] Existing Instances ILP32 i386 plain_middle_end sample_program.

(** The states in which the record of the class was made, and that of its static
    fields. *)
Definition class_state : cil_state :=
  match create_class_decl 20 "app$N$S" sample with Done _ s => s | Failed _ => sample end.
Definition struct_state : cil_state :=
  match create_static_fields_decl 20 "app$N$S" class_state with
  | Done _ s => s
  | Failed _ => sample
  end.

(** A step to the state [s]. *)
Ltac step_to s := eapply (bind_run _ _ _ _ s); [vm_compute; reflexivity | cbv beta].
Ltac struct_step := step_to struct_state.

Section stuck.
Context (types : TypeReader) (pc : N -> M string).

Lemma first_parse_class :
  parse_type (ValueType 20) struct_state = Failed Out_of_fuel ->
  parse_class_body pc 20 sample = Failed Out_of_fuel.
Proof.
  intros Ht. unfold parse_class_body. do 2 step_to sample. apply bind_fail. cbn iota beta.
  do 2 step_to sample. do 2 step_to class_state.
  apply bind_fail. unfold parse_static_fields. step_to struct_state.
  change (class_fields 20) with [1%N]. cbn [parse_statics]. apply bind_fail.
  change (ILField_IsStatic 1) with true. cbn iota. apply bind_fail. exact Ht.
Qed.

Lemma stuck_parse_class :
  parse_type (ValueType 20) struct_state = Failed Out_of_fuel ->
  parse_class_body pc 20 struct_state = Failed Out_of_fuel.
Proof.
  intros Ht. unfold parse_class_body. do 2 struct_step. apply bind_fail. cbn iota beta.
  do 4 struct_step. apply bind_fail. unfold parse_static_fields. struct_step.
  change (class_fields 20) with [1%N]. cbn [parse_statics]. apply bind_fail.
  change (ILField_IsStatic 1) with true. cbn iota. apply bind_fail. exact Ht.
Qed.

Lemma stuck_parse_type :
  (get_class_decl 20 struct_state = Failed Out_of_fuel \/
   get_class_decl 20 struct_state = Done (RECORD_TYPE 43) struct_state) ->
  pc 20 struct_state = Failed Out_of_fuel ->
  parse_type_body pc (ValueType 20) struct_state = Failed Out_of_fuel.
Proof.
  intros Hd Hp. unfold parse_type_body. struct_step.
  change (ILTypeIsEnum (ValueType 20)) with false. cbn iota. unfold get_value_type.
  destruct Hd as [Hd | Hd]; [by apply bind_fail |].
  eapply bind_run; [exact Hd |]. struct_step. by apply bind_fail, bind_fail.
Qed.
End stuck.

Lemma stuck_read fuel :
  reader_class (read fuel) 20 struct_state = Failed Out_of_fuel /\
  parse_type (TypeReader := reader_types (read fuel)) (ValueType 20) struct_state
    = Failed Out_of_fuel /\
  (get_class_decl (TypeReader := reader_types (read fuel)) 20 struct_state
     = Failed Out_of_fuel \/
   get_class_decl (TypeReader := reader_types (read fuel)) 20 struct_state
     = Done (RECORD_TYPE 43) struct_state).
Proof.
  induction fuel as [| fuel (Hc & Ht & Hd)]; [split_and!; by try left |].
  split_and!.
  - by apply stuck_parse_class.
  - by apply stuck_parse_type.
  - right. vm_compute. reflexivity.
Qed.

(** The calls of [parse_class] inside each other have no end. *)
Lemma self_static_diverges fuel :
  reader_class (read fuel) 20 sample = Failed Out_of_fuel.
Proof.
  destruct fuel as [| fuel]; [done |].
  apply first_parse_class. apply stuck_read.
Qed.

(** The record of [N.S] was just made. *)
Lemma class_state_unread : unread "app$N$S" 43 class_state.
Proof.
  assert (IDENTIFIER_CLASS_DECL class_state = {["app$N$S"%string := RECORD_TYPE 43]}) as E
    by (vm_compute; reflexivity).
  split.
  - rewrite E. apply lookup_singleton_eq.
  - vm_compute. reflexivity.
  - intros n. rewrite E. by intros [-> _]%lookup_singleton_Some.
  - vm_compute. reflexivity.
Qed.

Lemma sample_class_named s : get_namespace_class_name 20 s = Done "app$N$S"%string s.
Proof. vm_compute. reflexivity. Qed.

Lemma sample_class_unique k s :
  get_namespace_class_name k s = Done "app$N$S"%string s -> k = 20%N.
Proof.
  unfold get_namespace_class_name, get_assembly_name, ILClass_Namespace, ILClass_Name, ILClassIsRef.
  cbn [class_info sample_program]. unfold sample_classes.
  repeat case_match; intros E; try done; simplify_eq/=; vm_compute in E; discriminate E.
Qed.

Lemma self_static_never_read_witness :
  (forall t s', parse_type (TypeReader := reader_types (read 10)) (ValueType 20) class_state
     <> Done t s') /\
  (forall n s', reader_class (read 10) 20 class_state <> Done n s').
Proof.
  destruct (self_static_never_read 20 "app$N$S" 43 sample_class_named sample_class_unique
    eq_refl eq_refl 1 ltac:(by left) eq_refl eq_refl 10 class_state class_state_unread)
    as [Ht Hc].
  split; [exact Ht |]. apply Hc. intros n Hn. vm_compute in Hn. injection Hn as <-.
  vm_compute. discriminate.
Defined.
End struct.
