(* ===== verification/VTable.v ===== *)
(** * VTable: virtual methods and the slots of their tables

    A class without interfaces, whose ancestors have none either: the numbers
    that [create_virtual_methods_indices] gives to methods, and what
    [create_vtable_entries] puts at each of them.  The specification speaks of
    the list of all virtual methods, ancestors first: those that override
    nothing introduce the slots, one after the other, the others share the slot
    of the method they override, and a slot holds the last method of the list
    that has it, the most derived one. *)
From S2P Require Import Prelude ILTypes Program SampleProgram Members Mangle Trees CilState.
From S2P Require Import CilDecl EvalStack Records Calls StaticData Frame Metadata ParseInstr.
From S2P Require Import Constants Assembly Reading Sample ClassRecords.

(** ** Types that are read without parsing a class *)

Section simple.
Context `{Host, Target, MiddleEnd, Program}.

(** No value types, and no classes of other assemblies. *)
Fixpoint simple_type (t : ILType) : bool :=
  match t with
  | ClassType k => negb (ILClassIsRef k)
  | ValueType _ => false
  | RefType _ t => simple_type t
  | ArrayType _ t _ _ => simple_type t
  | ModifierType _ _ t => simple_type t
  | _ => true
  end.

Definition simple_signature (m : N) : bool :=
  negb (ILClassIsRef (ILMethod_Owner m)) &&
  match ILMethod_Signature m with
  | MethodType _ _ ret p0 p1 p2 next _ => forallb simple_type (ret :: p0 :: p1 :: p2 :: slots next)
  | _ => true
  end.

Lemma simple_strip t : simple_type t = true -> simple_type (ILTypeStripPrefixes t) = true.
Proof. induction t; cbn [ILTypeStripPrefixes simple_type]; try done; case_match; auto. Qed.

Lemma simple_parts m :
  simple_signature m = true ->
  ILClassIsRef (ILMethod_Owner m) = false /\
  simple_type (ILTypeGetReturn (ILMethod_Signature m)) = true /\
  forall i t, ILTypeGetParam (ILMethod_Signature m) i = Some t -> simple_type t = true.
Proof.
  unfold simple_signature. intros [Ho%negb_true_iff Hs]%andb_true_iff. split; [done |].
  unfold ILTypeGetReturn, ILTypeGetParam, ILTypeGetReturnWithPrefixes.
  destruct (ILMethod_Signature m) as [| | | | | | kind num ret p0 p1 p2 next gen | | | | |];
    try (split; [done | intros ? ? [= <-]; done]).
  cbn [forallb] in Hs. rewrite !andb_true_iff in Hs. destruct Hs as (Hr & H0' & H1' & H2' & Hn).
  split; [apply simple_strip; by case_match |].
  intros i t (t' & Ht & ->)%fmap_Some. apply simple_strip.
  unfold ILTypeGetParamWithPrefixes in Ht. repeat (case_match; simplify_eq; try done).
  rewrite get_slot_lookup in Ht by lia. apply list_elem_of_lookup_2, list_elem_of_In in Ht.
  by eapply (proj1 (forallb_forall _ _)) in Ht; [| exact Hn].
Qed.

Lemma simple_elem t : simple_type t = true -> simple_type (ILTypeGetElemType t) = true.
Proof.
  induction t; cbn [ILTypeGetElemType simple_type]; try done. intros Ht. repeat case_match; auto.
Qed.

Lemma frame_simple_class pc k :
  ILClassIsRef k = false -> keeps_all (get_class_decl_body pc k).
Proof. intros Hk. unfold get_class_decl_body. rewrite Hk. solve_frame. Qed.

Lemma simple_type_keeps n t :
  simple_type t = true -> keeps_all (parse_type (TypeReader := reader_types (read n)) t).
Proof.
  revert t. induction n as [| n IH]; intros t Ht; [by apply frame_fail |].
  simpl. unfold parse_type_body. destruct t; cbn [simple_type] in Ht; try discriminate.
  all: repeat first
    [ apply IH; by apply simple_elem
    | match goal with |- keeps_rel _ (parse_type _) => apply IH; done end
    | progress unfold parse_ref_type, get_class_ptr_type, get_array_type
    | frame_step ].
  destruct n as [| n]; [by apply frame_fail |]. apply frame_simple_class.
  by apply negb_true_iff.
Qed.

Lemma simple_class_keeps n k :
  ILClassIsRef k = false -> keeps_all (get_class_decl (TypeReader := reader_types (read n)) k).
Proof. intros Hk. destruct n; [by apply frame_fail | by apply frame_simple_class]. Qed.

(** The value of a [lift] is known. *)
Lemma frame_lift_bind {A B} w (o : option A) (f : A -> M B) :
  (forall a, o = Some a -> keeps_all (f a)) -> keeps_all (lift w o ≫= f).
Proof.
  intros Hf. destruct o as [a |]; [| by intros s].
  intros s. apply wp_bind, wp_ret. by apply Hf.
Qed.

Lemma simple_function_ptr m :
  simple_signature m = true -> keeps_all (get_function_ptr (types := assembly_types) m).
Proof.
  intros (Ho & Hr & Hp)%simple_parts. unfold get_function_ptr, parse_parameters_types, get_class_ptr_type,
    parse_return_type, assembly_types.
  pose proof (fun t => simple_type_keeps reader_fuel t) as Hs.
  pose proof (simple_class_keeps reader_fuel _ Ho) as Hc.
  assert (forall n i, keeps_all (parse_param_types
    (types := reader_types (read reader_fuel)) n i (ILMethod_Signature m))) as Hl.
  { induction n as [| n IH]; intros i; simpl; [solve_frame |].
    apply frame_lift_bind. intros t Ht. specialize (Hs t (Hp _ _ Ht)). solve_frame. }
  specialize (Hs _ Hr). solve_frame.
Qed.
End simple.

(** ** The specification *)

Section spec.
Context `{Program} (base : N -> option N).

(** The virtual methods of the ancestors of a class, then its own. *)
Fixpoint slot_methods (n : nat) (klass : N) : list N :=
  match n with
  | O => []
  | S n =>
      match ILClassGetParent klass with Some p => slot_methods n p | None => [] end
      ++ List.filter has_slot (class_methods klass)
  end.

(** Those that introduce a slot. *)
Definition introduces (m : N) : bool := bool_decide (base m = None).
Definition introducers (l : list N) : list N := List.filter introduces l.

(** No interfaces, and [base] is what [ILMemberGetBase] finds: a method of an
    ancestor. *)
Fixpoint plain_class (n : nat) (klass : N) : Prop :=
  match n with
  | O => False
  | S n =>
      let inherited :=
        match ILClassGetParent klass with Some p => slot_methods n p | None => [] end in
      match ILClassGetParent klass with Some p => plain_class n p | None => True end /\
      ilclass_implements (class_info klass) = [] /\
      Forall (fun m => (forall s : cil_state, ILMemberGetBase m s = Done (base m) s) /\
                       forall p, base m = Some p -> p ∈ inherited)
        (List.filter has_slot (class_methods klass))
  end.

(** The numbering of the methods of a list. *)
Definition numbered (idx : N -> Z) (l : list N) : Prop :=
  (forall i m, introducers l !! i = Some m -> idx m = Z.of_nat i) /\
  (forall m p, m ∈ l -> base m = Some p -> idx m = idx p).

(** The last method of the list in slot [i]. *)
Definition in_slot (idx : N -> Z) (l : list N) (i : Z) : option N :=
  last (List.filter (fun m => idx m =? i) l).

(** The entries of a table: [name] is that of the function of a method. *)
Definition function_name (t : tree) : option string :=
  match t with EXPR ADDR_EXPR _ _ (DECL d) _ _ _ => DECL_NAME d | _ => None end.
Definition points_to (t : tree) (m : N) : Prop :=
  exists name, function_name t = Some name /\
    forall s : cil_state, mangle_function m s = Done name s.
Definition table_of (idx : N -> Z) (l : list N) (entries : vtable) : Prop :=
  length entries = length (introducers l) /\
  forall i e, entries !! i = Some e ->
    e.1 = Z.of_nat i /\ exists m, in_slot idx l (Z.of_nat i) = Some m /\ points_to e.2 m.
End spec.

(** ** The numbers *)

Section indices.
Context `{Program} (base : N -> option N).

Definition index_in (s : cil_state) (m : N) : Z := default 0 (method_index s !! m).
Definition count_in (s : cil_state) (m : N) : Z := default 0 (method_count s !! m).

(** Only the numbers of the methods changed. *)
Definition without_numbers (s : cil_state) : cil_state :=
  set_method_index ∅ (set_method_count ∅ s).
Definition numbers_only (s s' : cil_state) : Prop := without_numbers s' = without_numbers s.

Lemma introducers_app l l' :
  introducers base (l ++ l') = introducers base l ++ introducers base l'.
Proof. apply List.filter_app. Qed.

Lemma introducers_one m :
  introducers base [m] = match base m with None => [m] | Some _ => [] end.
Proof. unfold introducers, introduces. cbn. by destruct (base m). Qed.

Lemma introducers_bound l : (length (introducers base l) <= length l)%nat.
Proof. unfold introducers. induction l as [| m l IH]; cbn; [lia |]. case_match; cbn; lia. Qed.

(** The bases of the methods are among the methods. *)
Definition closed (l : list N) : Prop := forall m p, m ∈ l -> base m = Some p -> p ∈ l.

Lemma numbered_snoc idx idx' l m :
  numbered base idx l -> closed l -> m ∉ l ->
  (forall m', m' <> m -> idx' m' = idx m') ->
  (base m = None -> idx' m = Z.of_nat (length (introducers base l))) ->
  (forall p, base m = Some p -> p ∈ l /\ idx' m = idx p) ->
  numbered base idx' (l ++ [m]).
Proof.
  intros [Hi Hb] Hc Hm Ho Hn Hs. assert (forall m', m' ∈ l -> idx' m' = idx m') as Hl.
  { intros m' Hm'. apply Ho. by intros ->. }
  split.
  - intros i m'. rewrite introducers_app, introducers_one.
    assert (forall i m', introducers base l !! i = Some m' -> idx' m' = Z.of_nat i) as Hold.
    { intros j m2 Hj. rewrite Hl; [by apply Hi |]. apply list_elem_of_lookup_2 in Hj.
      unfold introducers in Hj. by apply list_elem_of_In, List.filter_In in Hj as [Hj%list_elem_of_In _]. }
    destruct (base m) as [p |] eqn:Hbm; [rewrite app_nil_r; apply Hold |].
    intros [Hlt | [Hge Hx]]%lookup_app_Some; [by apply Hold |].
    apply list_lookup_singleton_Some in Hx as [Hx <-]. rewrite Hn by done. f_equal. lia.
  - intros m' p [Hm' | ->%list_elem_of_singleton]%elem_of_app Hp.
    + rewrite (Hl m'), (Hl p) by (done || by eapply Hc). by apply Hb.
    + destruct (Hs _ Hp) as [Hpl ->]. by rewrite Hl.
Qed.

Lemma closed_snoc l m :
  closed l -> (forall p, base m = Some p -> p ∈ l) -> closed (l ++ [m]).
Proof.
  intros Hc Hm m' p [Hm' | ->%list_elem_of_singleton]%elem_of_app Hp; apply elem_of_app; left;
    [by eapply Hc | auto].
Qed.

(** The number a method gets, and the next free one. *)
Definition number_of (s : cil_state) (free : Z) (m : N) : Z * Z :=
  match base m with Some p => (index_in s p, free) | None => (free, uint32 (free + 1)) end.

Lemma virtual_indices_cons m l free s :
  (forall s : cil_state, ILMemberGetBase m s = Done (base m) s) -> has_slot m = true ->
  count_in s m = 0 ->
  virtual_indices (m :: l) free s
  = virtual_indices l (number_of s free m).2
      (set_method_count (<[m := 1]> (method_count s))
        (set_method_index (<[m := uint32 (number_of s free m).1]> (method_index s)) s)).
Proof.
  intros Hb Hm Hc. cbn [virtual_indices]. unfold get_count at 1, get, mbind, comp_bind.
  change (default 0 (method_count s !! m)) with (count_in s m). rewrite Hc, Hm. cbn [andb Z.eqb].
  rewrite Hb. unfold number_of. by destruct (base m).
Qed.

(** The loop over the methods of a class, behind the methods [done] of its
    ancestors and of the class. *)
Lemma virtual_indices_spec l done s :
  Forall (fun m => (forall s : cil_state, ILMemberGetBase m s = Done (base m) s) /\
                   (forall p, base m = Some p -> p ∈ done) /\ count_in s m = 0)
    (List.filter has_slot l) ->
  closed done -> (forall m, m ∈ done -> 0 <= index_in s m < 2 ^ 32) ->
  NoDup (done ++ List.filter has_slot l) ->
  Z.of_nat (length (done ++ List.filter has_slot l)) < 2 ^ 32 ->
  numbered base (index_in s) done ->
  exists s', virtual_indices l (Z.of_nat (length (introducers base done))) s
    = Done (Z.of_nat (length (introducers base (done ++ List.filter has_slot l)))) s' /\
  numbered base (index_in s') (done ++ List.filter has_slot l) /\
  (forall m, m ∈ done ++ List.filter has_slot l -> 0 <= index_in s' m < 2 ^ 32) /\
  closed (done ++ List.filter has_slot l) /\ numbers_only s s' /\
  (forall m, m ∉ List.filter has_slot l -> count_in s' m = count_in s m).
Proof.
  revert done s. induction l as [| m l IH]; intros done s Hl Hcl Hr Hdup Hlen Hnum.
  { exists s. cbn in *. rewrite app_nil_r in *. by split_and!. }
  cbn [List.filter] in *. destruct (has_slot m) eqn:Hm.
  2:{ destruct (IH done s) as (s' & Hs' & ?); [done .. |]. exists s'. split; [| done].
      rewrite <- Hs'. cbn [virtual_indices]. unfold get_count, get, mbind, comp_bind.
      by rewrite Hm. }
  apply Forall_cons in Hl as [(Hb & Hp & Hc) Hl].
  set (i := Z.of_nat (length (introducers base done))).
  pose proof (introducers_bound done) as Hbound.
  rewrite length_app in Hlen. cbn [length] in Hlen.
  apply NoDup_app in Hdup as (Hd1 & Hd2 & Hd3). apply NoDup_cons in Hd3 as [Hm3 Hd3].
  assert (m ∉ done) as Hmd by (intros Hin; by apply (Hd2 m Hin); left).
  assert (0 <= (number_of s i m).1 < 2 ^ 32) as Hrange.
  { unfold number_of. destruct (base m) eqn:E; cbn; [by apply Hr, Hp | lia]. }
  rewrite virtual_indices_cons by done. rewrite (uint32_small _ Hrange).
  set (s1 := set_method_count _ _).
  assert (forall m', index_in s1 m' = if decide (m' = m) then (number_of s i m).1 else index_in s m')
    as Hi1.
  { intros m'. unfold index_in. cbn. case_decide; subst;
      [by rewrite lookup_insert_eq | by rewrite lookup_insert_ne]. }
  assert (forall m', count_in s1 m' = if decide (m' = m) then 1 else count_in s m') as Hc1.
  { intros m'. unfold count_in. cbn. case_decide; subst;
      [by rewrite lookup_insert_eq | by rewrite lookup_insert_ne]. }
  assert (m ∉ List.filter has_slot l) as Hml by done.
  replace (done ++ m :: List.filter has_slot l) with ((done ++ [m]) ++ List.filter has_slot l)
    by by rewrite <- app_assoc.
  assert ((number_of s i m).2 = Z.of_nat (length (introducers base (done ++ [m])))) as ->.
  { rewrite introducers_app, length_app, introducers_one. unfold number_of.
    destruct (base m); cbn; [unfold i; lia |].
    rewrite uint32_small by lia. unfold i. lia. }
  destruct (IH (done ++ [m]) s1) as (s' & Hs' & Hn' & Hr' & Hcl' & Ho' & Hc').
  - apply Forall_forall. intros m' Hm'. rewrite Forall_forall in Hl.
    destruct (Hl m' Hm') as (Hb' & Hp' & Hz). split_and!; [done | |].
    + intros p ?. apply elem_of_app. auto.
    + rewrite Hc1. case_decide; [by subst | done].
  - apply closed_snoc; [done |]. auto.
  - intros m' [Hm' | ->%list_elem_of_singleton]%elem_of_app; rewrite Hi1; case_decide; first [done | by auto].
  - rewrite <- app_assoc. apply NoDup_app. split_and!; [done .. |].
    by apply NoDup_cons.
  - rewrite !length_app. cbn [length]. lia.
  - apply (numbered_snoc (index_in s)); [done .. | | |].
    + intros m' Hne. rewrite Hi1. by case_decide.
    + intros E. rewrite Hi1. case_decide; [| done]. unfold number_of. by rewrite E.
    + intros p E. split; [auto |]. rewrite Hi1. case_decide; [| done]. unfold number_of. by rewrite E.
  - exists s'. split_and!; [done .. |]. intros m' Hm'.
    apply not_elem_of_cons in Hm' as [Hne Hm']. rewrite Hc', Hc1 by done. by case_decide.
Qed.

(** Clearing the counts. *)
Lemma clear_counts_spec l s :
  exists s', clear_counts l s = Done tt s' /\ numbers_only s s' /\
    method_index s' = method_index s /\
    forall m, count_in s' m = if decide (m ∈ l) then 0 else count_in s m.
Proof.
  revert s. induction l as [| m l IH]; intros s.
  { exists s. by split_and!. }
  cbn [clear_counts]. unfold set_count at 1, modify, mbind, comp_bind.
  destruct (IH (set_method_count (<[m:=0]> (method_count s)) s)) as (s' & Hs' & Ho & Hi & Hc).
  exists s'. split_and!; [done | | done |].
  - unfold numbers_only in *. by rewrite Ho.
  - intros m'. rewrite Hc. unfold count_in. cbn.
    destruct (decide (m' ∈ l)) as [Hin | Hin].
    + rewrite decide_True; [done | by right].
    + destruct (decide (m' = m)) as [-> | Hne].
      * rewrite decide_True by left. by rewrite lookup_insert_eq.
      * rewrite decide_False by (intros [? | ?]%elem_of_cons; done).
        by rewrite lookup_insert_ne.
Qed.

(** The numbers of a class and its ancestors. *)
Lemma virtual_methods_indices_spec n klass s :
  plain_class base n klass ->
  NoDup (slot_methods n klass) -> Z.of_nat (length (slot_methods n klass)) < 2 ^ 32 ->
  (forall m, m ∈ slot_methods n klass -> count_in s m = 0) ->
  exists s', create_virtual_methods_indices n klass s
    = Done (Z.of_nat (length (introducers base (slot_methods n klass)))) s' /\
  numbered base (index_in s') (slot_methods n klass) /\
  (forall m, m ∈ slot_methods n klass -> 0 <= index_in s' m < 2 ^ 32) /\
  closed (slot_methods n klass) /\ numbers_only s s' /\
  (forall m, count_in s m = 0 -> count_in s' m = 0).
Proof.
  revert klass s. induction n as [| n IH]; intros k s Hplain Hdup Hlen Hcount; [done |].
  cbn [plain_class slot_methods] in *. destruct Hplain as (Hpar & Himpl & Hown).
  set (inherited := match ILClassGetParent k with Some p => slot_methods n p | None => [] end) in *.
  apply NoDup_app in Hdup as Hdup'. destruct Hdup' as (Hd1 & Hd2 & Hd3).
  assert (exists s1, (match ILClassGetParent k with
      | Some p => create_virtual_methods_indices n p | None => mret 0 end) s
      = Done (Z.of_nat (length (introducers base inherited))) s1 /\
    numbered base (index_in s1) inherited /\
    (forall m, m ∈ inherited -> 0 <= index_in s1 m < 2 ^ 32) /\
    closed inherited /\ numbers_only s s1 /\
    (forall m, count_in s m = 0 -> count_in s1 m = 0))
    as (s1 & Hs1 & Hn1 & Hr1 & Hcl1 & Ho1 & Hc1).
  { unfold inherited. destruct (ILClassGetParent k) as [p |].
    - apply IH; [done .. | |].
      + rewrite length_app in Hlen. unfold inherited in Hlen. lia.
      + intros m Hm. apply Hcount, elem_of_app. by left.
    - exists s. unfold numbered, closed. split_and!; set_solver. }
  cbn [create_virtual_methods_indices].
  unfold create_virtual_methods_indices_for_interfaces. rewrite Himpl. cbn [interfaces_indices].
  destruct (virtual_indices_spec (class_methods k) inherited s1)
    as (s2 & Hs2 & Hn2 & Hr2 & Hcl2 & Ho2 & Hc2); [| done ..|].
  { apply Forall_forall. intros m Hm. rewrite Forall_forall in Hown.
    destruct (Hown m Hm) as [Hb Hp]. split_and!; [done .. |].
    apply Hc1, Hcount, elem_of_app. by right. }
  destruct (clear_counts_spec (class_methods k) s2) as (s3 & Hs3 & Ho3 & Hi3 & Hc3).
  assert (forall m, index_in s3 m = index_in s2 m) as Hidx by (intros; unfold index_in; by rewrite Hi3).
  exists s3. split_and!; [| | | done | |].
  - eapply bind_run; [exact Hs1 |]. eapply bind_run; [reflexivity |].
    eapply bind_run; [exact Hs2 |]. eapply bind_run; [exact Hs3 |]. done.
  - destruct Hn2 as [Ha Hb]. split; intros *; rewrite ?Hidx; [apply Ha | apply Hb].
  - intros m Hm. rewrite Hidx. by apply Hr2.
  - unfold numbers_only in *. by rewrite Ho3, Ho2, Ho1.
  - intros m Hm. rewrite Hc3. case_decide as Hin; [done |]. rewrite Hc2; [by apply Hc1 |].
    intros Hf. apply Hin. apply list_elem_of_In in Hf. apply List.filter_In in Hf as [Hf _].
    by apply list_elem_of_In.
Qed.
End indices.

(** ** The tables *)

Section tables.
Context `{Host, Target, MiddleEnd, Program} (base : N -> option N) (idx : N -> Z).

Lemma in_slot_snoc l m i :
  in_slot idx (l ++ [m]) i = if idx m =? i then Some m else in_slot idx l i.
Proof.
  unfold in_slot. rewrite List.filter_app. cbn [List.filter].
  destruct (idx m =? i); [apply last_snoc | by rewrite app_nil_r].
Qed.

(** Every method is in a slot that exists. *)
Definition bounded (l : list N) : Prop :=
  forall m, m ∈ l -> 0 <= idx m < Z.of_nat (length (introducers base l)).

Lemma bounded_snoc l m :
  numbered base idx (l ++ [m]) -> bounded l -> (forall p, base m = Some p -> p ∈ l) ->
  bounded (l ++ [m]).
Proof.
  intros [Hi Hb] Hl Hp m'. rewrite introducers_app, length_app.
  intros [Hm' | ->%list_elem_of_singleton]%elem_of_app; [specialize (Hl m' Hm'); lia |].
  destruct (base m) as [p |] eqn:E.
  - rewrite (Hb m p) by (done || apply elem_of_app; right; by left).
    specialize (Hl p (Hp p eq_refl)). lia.
  - rewrite (Hi (length (introducers base l)) m).
    + rewrite introducers_one, E. cbn. lia.
    + rewrite introducers_app, lookup_app_r by lia. rewrite Nat.sub_diag.
      by rewrite introducers_one, E.
Qed.

Lemma numbered_prefix l l' : numbered base idx (l ++ l') -> numbered base idx l.
Proof.
  intros [Hi Hb]. split; intros * Hm; [| apply Hb, elem_of_app; by left].
  apply Hi. rewrite introducers_app. by apply lookup_app_l_Some.
Qed.

(** The pointer to the function of a method names it. *)
Lemma function_ptr_points m s :
  wp (fun _ => True) (get_function_ptr (types := assembly_types) m) (fun t _ => points_to t m) s.
Proof.
  unfold get_function_ptr. apply wp_bind.
  destruct (stateless_mangling (mangle_function_text m)) as [[name Hn] | [f Hf]];
    unfold wp at 1, mangle_function; rewrite ?Hn, ?Hf; [| done].
  do 2 (apply wp_skip; intros ? ?).
  unfold create_function_ptr, create_function_decl, build_decl, fresh, function_address,
    type_of, build1. repeat (wp_step; try exact I). by exists name.
Qed.

Lemma insert_slot_end index e l s :
  (forall x, x ∈ l -> x.1 < index) -> insert_slot index e l s = Done (l ++ [e]) s.
Proof.
  induction l as [| x l IH]; intros Hl; [done |]. cbn [insert_slot].
  assert (x.1 < index) by (apply Hl; by left).
  destruct (Z.ltb_spec index x.1); [lia |]. destruct (Z.eqb_spec x.1 index); [lia |].
  unfold mbind, comp_bind. rewrite IH; [done |]. intros y Hy. apply Hl. by right.
Qed.

(** One method and its entry. *)
Lemma table_step done entries m s :
  (forall s : cil_state, ILMemberGetBase m s = Done (base m) s) ->
  (forall p, base m = Some p -> p ∈ done) -> simple_signature m = true ->
  bounded done -> numbered base idx (done ++ [m]) -> index_in s m = idx m ->
  table_of base idx done entries ->
  wp (fun _ => True)
    (parent_method ← ILMemberGetBase m;
     match parent_method with
     | Some _ => change_vtable_slot (types := assembly_types) entries m
     | None => add_vtable_slot (types := assembly_types) entries m
     end)
    (fun e s' => table_of base idx (done ++ [m]) e /\ method_index s' = method_index s) s.
Proof.
  intros Hb Hp Hsig Hbd Hnum Hidx [Hlen He]. apply wp_bind. unfold wp at 1. rewrite Hb.
  assert (wp (fun _ => True) (get_function_ptr (types := assembly_types) m) (fun t s' =>
    points_to t m /\ method_index s' = method_index s) s) as Hptr.
  { apply wp_conj; [apply function_ptr_points |].
    eapply wp_mono; [| by apply simple_function_ptr]. by intros ? ? (_ & ? & _). }
  destruct (base m) as [p |] eqn:E.
  - unfold change_vtable_slot, get_index. wp_step. wp_step.
    change (default 0 (method_index s !! m)) with (index_in s m). rewrite Hidx.
    specialize (Hbd p (Hp p eq_refl)).
    assert (idx m = idx p) as Hmp
      by (apply (proj2 Hnum); [apply elem_of_app; right; by left | done]).
    rewrite Hmp. set (j := Z.to_nat (idx p)).
    destruct (lookup_lt_is_Some_2 entries j) as [e Hej]; [lia |].
    destruct entries as [| e0 entries']; [done |].
    rewrite Hej. apply wp_bind. eapply wp_mono; [| exact Hptr].
    intros t s' [Ht Hs']. apply wp_ret. split; [| done].
    split; [rewrite length_insert, introducers_app, introducers_one, E, app_nil_r; done |].
    intros i x Hx. rewrite in_slot_snoc, Hmp.
    apply list_lookup_insert_Some in Hx as [(<- & <- & _) | [Hne Hx]].
    + destruct (He _ _ Hej) as [He1 _]. split; [done |]. exists m.
      rewrite (proj2 (Z.eqb_eq _ _)) by lia. done.
    + destruct (Z.eqb_spec (idx p) (Z.of_nat i)); [lia |]. by apply He.
  - unfold add_vtable_slot, get_index. wp_step. wp_step.
    change (default 0 (method_index s !! m)) with (index_in s m). rewrite Hidx.
    assert (idx m = Z.of_nat (length (introducers base done))) as Hm.
    { apply (proj1 Hnum). rewrite introducers_app, lookup_app_r by lia.
      by rewrite Nat.sub_diag, introducers_one, E. }
    apply wp_bind. eapply wp_mono; [| exact Hptr]. intros t s' [Ht Hs'].
    assert (forall e, In e entries -> e.1 < idx m) as Hlt.
    { intros e Hin%list_elem_of_In. apply list_elem_of_lookup in Hin as [i Hi].
      destruct (He _ _ Hi) as [-> _]. apply lookup_lt_Some in Hi. lia. }
    assert (table_of base idx (done ++ [m]) (entries ++ [(idx m, t)])) as Htable.
    { split; [rewrite !length_app, introducers_app, length_app, introducers_one, E, Hlen; done |].
      intros i x Hx. rewrite in_slot_snoc.
      apply lookup_app_Some in Hx as [Hx | [Hge Hx]].
      - assert (i < length entries)%nat by by eapply lookup_lt_Some.
        destruct (Z.eqb_spec (idx m) (Z.of_nat i)); [lia |]. by apply He.
      - apply list_lookup_singleton_Some in Hx as [Hx <-]. cbn.
        rewrite (proj2 (Z.eqb_eq _ _)) by lia. split; [lia | by exists m]. }
    destruct entries as [| e0 entries]; [by apply wp_ret |].
    apply wp_bind. unfold wp at 1. rewrite insert_slot_end; [by apply wp_ret |].
    intros x Hx. apply Hlt. right. by apply list_elem_of_In.
Qed.

(** The methods of a class behind those of its ancestors. *)
Lemma vtable_slots_spec l done entries s :
  Forall (fun m => (forall s : cil_state, ILMemberGetBase m s = Done (base m) s) /\
                   (forall p, base m = Some p -> p ∈ done) /\ simple_signature m = true /\
                   index_in s m = idx m) (List.filter has_slot l) ->
  bounded done -> numbered base idx (done ++ List.filter has_slot l) ->
  table_of base idx done entries ->
  wp (fun _ => True) (vtable_slots (types := assembly_types) l entries)
    (fun e s' => table_of base idx (done ++ List.filter has_slot l) e /\
                 method_index s' = method_index s) s.
Proof.
  revert done entries s. induction l as [| m l IH]; intros done entries s Hl Hbd Hnum Ht.
  { rewrite app_nil_r. by apply wp_ret. }
  cbn [vtable_slots List.filter] in *. destruct (has_slot m) eqn:Hm.
  2:{ apply wp_bind, wp_ret. by apply IH. }
  apply Forall_cons in Hl as [(Hb & Hp & Hsig & Hidx) Hl].
  replace (done ++ m :: List.filter has_slot l) with ((done ++ [m]) ++ List.filter has_slot l)
    in * by by rewrite <- app_assoc.
  pose proof (numbered_prefix _ _ Hnum) as Hnum1.
  apply wp_bind. eapply wp_mono; [| by apply (table_step done)].
  intros e s1 [He Hs1]. eapply wp_mono; [| apply (IH (done ++ [m]))].
  - intros e' s' [? ->]. done.
  - eapply Forall_impl; [exact Hl |]. intros m' (? & Hp' & ? & ?).
    split_and!; [done | | done |].
    + intros p E. apply elem_of_app. left. by apply Hp'.
    + unfold index_in. by rewrite Hs1.
  - by apply bounded_snoc.
  - done.
  - done.
Qed.
Lemma bounded_filter done l :
  Forall (fun m => forall p, base m = Some p -> p ∈ done) l ->
  bounded done -> numbered base idx (done ++ l) -> bounded (done ++ l).
Proof.
  revert done. induction l as [| m l IH]; intros done Hl Hbd Hnum; [by rewrite app_nil_r |].
  apply Forall_cons in Hl as [Hp Hl].
  replace (done ++ m :: l) with ((done ++ [m]) ++ l) in * by by rewrite <- app_assoc.
  apply IH; [| apply bounded_snoc; [by eapply numbered_prefix | done ..] | done].
  eapply Forall_impl; [exact Hl |]. intros m' Hp' p E. apply elem_of_app. left. by apply Hp'.
Qed.

Lemma slot_methods_bounded n klass :
  plain_class base n klass -> numbered base idx (slot_methods n klass) ->
  bounded (slot_methods n klass).
Proof.
  revert klass. induction n as [| n IH]; intros k Hplain Hnum; [done |].
  cbn [plain_class slot_methods] in *. destruct Hplain as (Hpar & _ & Hown).
  apply bounded_filter; [| | done].
  - eapply Forall_impl; [exact Hown |]. by intros m [_ Hp].
  - apply numbered_prefix in Hnum. destruct (ILClassGetParent k); [by apply IH |].
    intros m Hm%elem_of_nil. done.
Qed.

Lemma create_vtable_entries_spec n klass s :
  plain_class base n klass -> forallb simple_signature (slot_methods n klass) = true ->
  numbered base idx (slot_methods n klass) ->
  (forall m, m ∈ slot_methods n klass -> index_in s m = idx m) ->
  wp (fun _ => True) (create_vtable_entries (types := assembly_types) n (Some klass))
    (fun e s' => table_of base idx (slot_methods n klass) e /\
                 method_index s' = method_index s) s.
Proof.
  revert klass s. induction n as [| n IH]; intros k s Hplain Hsig Hnum Hidx; [done |].
  cbn [create_vtable_entries]. cbn [plain_class slot_methods] in *.
  set (inherited := match ILClassGetParent k with Some p => slot_methods n p | None => [] end) in *.
  destruct Hplain as (Hpar & _ & Hown). rewrite forallb_app, andb_true_iff in Hsig. destruct Hsig as [Hsig1 Hsig2].
  pose proof (numbered_prefix _ _ Hnum) as Hnum1. apply wp_bind.
  apply (wp_mono _ _ (fun e s1 => table_of base idx inherited e /\
                                  method_index s1 = method_index s)).
  - intros e s1 [He Hs1]. eapply wp_mono; [| apply (vtable_slots_spec _ inherited); [| | done ..]].
    + intros e' s2 [? ->]. done.
    + apply Forall_forall. intros m Hm. rewrite Forall_forall in Hown.
      destruct (Hown m Hm) as [Hb Hp]. rewrite forallb_forall in Hsig2.
      split_and!; [done .. | by apply Hsig2, list_elem_of_In |].
      unfold index_in. rewrite Hs1. apply Hidx, elem_of_app. by right.
    + unfold inherited in *. destruct (ILClassGetParent k); [by apply slot_methods_bounded |].
      intros m Hm%elem_of_nil. done.
  - unfold inherited in *. destruct (ILClassGetParent k) as [p |].
    + apply IH; [done .. |]. intros m Hm. apply Hidx, elem_of_app. by left.
    + destruct n; by apply wp_ret.
Qed.
End tables.

(** ** Dispatch *)

Section dispatch.
Context `{Host, Target, MiddleEnd, Program}.

(** C4: the method table of a class without interfaces, as [parse_class]
    computes it, where no method of the class or of its ancestors has a value type
    or a class of another assembly in its signature ([simple_signature]): reading
    such a type reads its class, which can number methods in between.  The methods
    are distinct, fewer than 2^32, and not numbered yet.  Those that override
    nothing are numbered one after the other, ancestors first, and a method that
    overrides another has its number; so a number means the same in a class and in
    its subclasses.  The table has one entry for each number, in order, and the
    entry that a call of a method [m] reaches through its number points to the most
    derived method with that number: the last override of [m]. *)
Theorem vtable_dispatch base n klass s entries s' :
  plain_class base n klass -> NoDup (slot_methods n klass) ->
  Z.of_nat (length (slot_methods n klass)) < 2 ^ 32 ->
  forallb simple_signature (slot_methods n klass) = true ->
  (forall m, m ∈ slot_methods n klass -> count_in s m = 0) ->
  (create_virtual_methods_indices n klass;; create_vtable_entries n (Some klass)) s
    = Done entries s' ->
  numbered base (index_in s') (slot_methods n klass) /\
  length entries = length (introducers base (slot_methods n klass)) /\
  forall m, m ∈ slot_methods n klass ->
    exists t target, entries !! Z.to_nat (index_in s' m) = Some (index_in s' m, t) /\
      in_slot (index_in s') (slot_methods n klass) (index_in s' m) = Some target /\
      points_to t target.
Proof.
  intros Hplain Hdup Hlen Hsig Hcount Hd.
  destruct (virtual_methods_indices_spec base n klass s Hplain Hdup Hlen Hcount)
    as (s1 & Hs1 & Hnum & _).
  unfold mbind, comp_bind in Hd. rewrite Hs1 in Hd.
  destruct (outcome_done _ _ _ _ _ _ Hd (create_vtable_entries_spec base (index_in s1) n klass s1
    Hplain Hsig Hnum ltac:(done))) as [[Hl He] Hi].
  assert (index_in s' = index_in s1) as -> by (unfold index_in; by rewrite Hi).
  split_and!; [done .. |]. intros m Hm.
  pose proof (slot_methods_bounded base (index_in s1) n klass Hplain Hnum m Hm) as Hb.
  destruct (lookup_lt_is_Some_2 entries (Z.to_nat (index_in s1 m))) as [[j t] Hj]; [lia |].
  destruct (He _ _ Hj) as (Hj1 & target & Hs & Hp). cbn in *.
  rewrite Z2Nat.id in * by lia. subst j. by exists t, target.
Qed.
End dispatch.

Section witness.
#[local] Existing Instances ILP32 i386 plain_middle_end sample_program.

(** [N.Derived.g] overrides [N.Base.g]. *)
Definition sample_base (m : N) : option N := if bool_decide (m = 4%N) then Some 3%N else None.

Definition sample_table : M vtable :=
  create_virtual_methods_indices 3 3;; create_vtable_entries 3 (Some 3%N).
Lemma sample_table_built : exists entries s', sample_table sample = Done entries s'.
Proof. destruct (sample_table sample) eqn:E; [eauto | vm_compute in E; discriminate]. Qed.

(** The lists of the methods are known. *)
Lemma sample_slots :
  slot_methods 1 1 = [1%N] /\ slot_methods 2 2 = [1%N; 2%N; 3%N] /\
  slot_methods 3 3 = [1%N; 2%N; 3%N; 5%N; 4%N].
Proof. by vm_compute. Qed.

Lemma sample_plain : plain_class sample_base 3 3.
Proof.
  cbn [plain_class]. destruct sample_slots as (E1 & E2 & _).
  change (ILClassGetParent 3) with (Some 2%N). cbn iota.
  change (ILClassGetParent 2) with (Some 1%N). cbn iota.
  change (ILClassGetParent 1) with (@None N). cbn iota. rewrite E1, E2.
  repeat match goal with |- _ /\ _ => split end; try done.
  3: change (List.filter has_slot (class_methods 3)) with [5%N; 4%N].
  2: change (List.filter has_slot (class_methods 2)) with [2%N; 3%N].
  1: change (List.filter has_slot (class_methods 1)) with [1%N].
  all: repeat apply Forall_cons_2; try apply Forall_nil_2.
  all: split; [intros s; vm_compute; reflexivity |].
  all: intros p; vm_compute; intros E; simplify_eq; set_solver.
Qed.

Lemma vtable_dispatch_witness :
  exists entries s', sample_table sample = Done entries s' /\
    exists t target, entries !! Z.to_nat (index_in s' 3%N) = Some (index_in s' 3%N, t) /\
      in_slot (index_in s') (slot_methods 3 3) (index_in s' 3%N) = Some target /\
      points_to t target.
Proof.
  destruct sample_table_built as (entries & s' & E).
  exists entries, s'. split; [exact E |]. unfold sample_table in E.
  refine (proj2 (proj2 (@vtable_dispatch ILP32 i386 plain_middle_end sample_program
    sample_base 3 3 sample entries s' sample_plain _ _ _ _ E)) 3%N _);
    rewrite ?(proj2 (proj2 sample_slots)).
  - apply (bool_decide_unpack _). vm_compute. exact I.
  - vm_compute. reflexivity.
  - vm_compute. reflexivity.
  - intros m _. vm_compute. reflexivity.
  - do 2 right. left.
Defined.
End witness.
