(* ===== verification/VTableFindings.v ===== *)
(** * VTableFindings: method tables that are not what the program asks for

    What [create_virtual_methods_indices] and [create_vtable_entries] do where
    [VTable.vtable_dispatch] does not apply or its specification is not that of
    the language: methods in a new slot that hide another, and classes that
    implement interfaces.  All are computed on SampleProgram. *)
From S2P Require Import Prelude ILTypes Program SampleProgram Members Mangle Trees CilState.
From S2P Require Import CilDecl EvalStack Records Calls StaticData Frame Metadata ParseInstr.
From S2P Require Import Constants Assembly Reading Sample VTable.

#[local] Existing Instances ILP32 i386 plain_middle_end sample_program.

Section findings.
#[local] Existing Instances ILP32 i386 plain_middle_end sample_program.

(** The functions of the table that [parse_class] makes for a class. *)
Definition table_functions (n : nat) (klass : N) : M (list (option string)) :=
  entries ← create_vtable_entries n (Some klass);
  mret ((fun e => function_name e.2) <$> entries).
Definition make_table (n : nat) (klass : N) : M (list (option string)) :=
  create_virtual_methods_indices n klass;; table_functions n klass.
Definition result {A} (m : M A) : option A :=
  match m sample with Done a _ => Some a | Failed _ => None end.
Definition function_names (methods : list N) : M (list (option string)) :=
  names ← mapM mangle_function methods; mret (Some <$> names).

(** A method in a new slot takes the slot of the method it hides.
    [N.Hiding.g] is marked [newslot], but [ILMemberGetBase] looks at the mark of
    the candidate only, never at that of the method itself; so the table of
    [N.Hiding] has no entry for [N.Base.g], and a call of [N.Base.g] on an object
    of the class reaches the method that hides it. *)
Theorem newslot_overrides :
  ILMethod_IsNewSlot 6 = true /\
  result (make_table 3 4) = result (function_names [1; 2; 6]%N) /\
  is_Some (result (function_names [1; 2; 6]%N)) /\
  result (make_table 3 4;; get (fun s => (index_in s 3, index_in s 6))) = Some (2, 2).
Proof. vm_compute. repeat split. by eexists. Qed.

(** A class that implements the method of an interface by overriding a method
    of its base class is not compiled.  [N.Overrides.g] gets a new number from the
    loop over the interfaces, the second loop leaves it, and then
    [create_vtable_entries] wants to change the entry with this number, since the
    method has a base method, and there is none. *)
Theorem interface_override_fails :
  exists f, (parse_class 2;; parse_class 6) sample = Failed f /\
    f = Internal_error "change_vtable_slot (): invalid index".
Proof. eexists. split; [vm_compute; reflexivity | reflexivity]. Qed.

(** An implementation of an interface that is inherited loses its place.
    When [N.Inherits] is parsed, the inherited [N.Base.g] gets a new number, though
    the tables, that of [N.Base] made before among them, have it at its old one: the
    number by which a call of [N.Base.g] finds it is behind the end of both. *)
Theorem inherited_implementation :
  result (parse_class 2;; get (fun s => index_in s 3)) = Some 2 /\
  result (parse_class 2;; parse_class 7;; get (fun s => index_in s 3)) = Some 3 /\
  result (parse_class 2;; table_functions 2 2) = result (function_names [1; 2; 3]%N) /\
  result (parse_class 2;; parse_class 7;; table_functions 3 7)
    = result (function_names [1; 2; 3]%N) /\
  is_Some (result (function_names [1; 2; 3]%N)).
Proof. vm_compute. repeat split. by eexists. Qed.
End findings.
