(* ===== verification/Effects.v ===== *)
(** * Effects: what the builders do to the evaluation stack

    The builders of Calls, Statements, StaticData and Instr either leave the
    stack alone or move it by a fixed number of items; the effect of every
    instruction is the one its row of the opcode tables states. *)
From S2P Require Import Prelude Values Program Mangle Opcodes Trees CilState CilDecl EvalStack.
From S2P Require Import Records Frame Metadata Calls Statements StaticData Instr ParseInstr.

(** Any failure is allowed. *)
Abbreviation any := (fun _ : failure => True).

(** [m] leaves the stack as it is. *)
Definition keeps {A} (m : M A) : Prop :=
  forall s, wp any m (fun _ s' => top_item s' = top_item s /\ height s' = height s) s.

(** [m] takes [pop] items off the stack and puts [push] on it. *)
Definition moves {A} (pop push : Z) (m : M A) : Prop :=
  forall s, stack_ok s -> pop <= height s ->
    wp any m (fun _ s' => stack_ok s' /\ height s' = height s - pop + push) s.

Lemma keeps_use {A} (m : M A) Q s :
  keeps m ->
  (forall a s', top_item s' = top_item s -> height s' = height s -> Q a s') ->
  wp any m Q s.
Proof. intros Hm HQ. eapply wp_mono; [| apply Hm]. intros a s' []. auto. Qed.

Lemma moves_use {A} pop push (m : M A) Q s :
  moves pop push m -> stack_ok s -> pop <= height s ->
  (forall a s', stack_ok s' -> height s' = height s - pop + push -> Q a s') ->
  wp any m Q s.
Proof. intros Hm Hs Hp HQ. eapply wp_mono; [| by apply Hm]. intros a s' []. auto. Qed.

Lemma stack_ok_eq s s' :
  top_item s' = top_item s -> height s' = height s -> stack_ok s -> stack_ok s'.
Proof. unfold stack_ok. congruence. Qed.

Lemma keeps_moves {A} (m : M A) : keeps m -> moves 0 0 m.
Proof.
  intros Hm s Hs _. eapply keeps_use; [done |]. intros a s' Ht Hh.
  split; [by eapply stack_ok_eq | lia].
Qed.

Lemma keeps_wp {A} (m : M A) s : keeps m -> wp any m (fun _ _ => True) s.
Proof. intros Hm. by eapply keeps_use. Qed.

Create HintDb keeps.

(** Run a [wp] goal, using the lemmas of [keeps] for the calls. *)
Ltac keeps_step :=
  first
    [ wp_step; try exact I
    | match goal with
      | |- wp _ ?m _ _ => eapply (keeps_use m); [solve [auto with keeps] | intros ? ? ? ?]
      end ].
Ltac keeps_done := split; cbn in *; congruence.
Ltac solve_keeps := intros ?; repeat keeps_step; try keeps_done.

(** What leaves the function alone leaves the stack alone. *)
Lemma keeps_function_keeps {A} (m : M A) : keeps_function m -> keeps m.
Proof. intros Hm s. eapply wp_mono; [| apply Hm]. intros a s' Hs. split; apply Hs. Qed.

#[export] Hint Extern 5 (keeps _) =>
  apply keeps_function_keeps; solve [auto with frame] : keeps.

Section keeps.
Context `{Host, Target, MiddleEnd, Program}.

Lemma keeps_append t : keeps (append_to_statement_list t).
Proof. unfold append_to_statement_list. solve_keeps. Qed.
Hint Resolve keeps_append : keeps.
Lemma keeps_set_label_context t : keeps (set_label_context t).
Proof. unfold set_label_context. solve_keeps. Qed.
Hint Resolve keeps_set_label_context : keeps.
Lemma keeps_lookup_label n : keeps (lookup_label n).
Proof. unfold lookup_label. solve_keeps. Qed.
Hint Resolve keeps_lookup_label : keeps.
Lemma keeps_make_label n : keeps (make_label n).
Proof. unfold make_label, stack_height. solve_keeps. Qed.
Lemma keeps_unsigned_operands c u ty a b : keeps (unsigned_operands c u ty a b).
Proof. unfold unsigned_operands. solve_keeps. Qed.
Lemma keeps_bool_to_int32 t c : keeps (bool_to_int32 t c).
Proof. unfold bool_to_int32. solve_keeps. Qed.
Lemma keeps_branch_unconditional n : keeps (make_branch_unconditional n).
Proof. unfold make_branch_unconditional. solve_keeps. Qed.
Lemma keeps_get_label_name o : keeps (get_label_name o).
Proof. unfold get_label_name. solve_keeps. Qed.
Lemma keeps_code_byte c i : keeps (code_byte c i).
Proof. unfold code_byte. auto with keeps. Qed.
Lemma keeps_array_read w a i : keeps (array_read w a i).
Proof. unfold array_read. solve_keeps. Qed.
Lemma keeps_arg_tree a : keeps (arg_tree a).
Proof. unfold arg_tree. solve_keeps. Qed.
Lemma keeps_arg_label a : keeps (arg_label a).
Proof. unfold arg_label. solve_keeps. Qed.
Lemma keeps_arg_labels a : keeps (arg_labels a).
Proof. unfold arg_labels. solve_keeps. Qed.
Hint Resolve keeps_make_label keeps_unsigned_operands keeps_bool_to_int32
  keeps_branch_unconditional keeps_get_label_name keeps_code_byte keeps_array_read
  keeps_arg_tree keeps_arg_label keeps_arg_labels : keeps.
Lemma keeps_for_loop {A} n i (body : Z -> A -> M A) a :
  (forall j b, keeps (body j b)) -> keeps (for_loop n i body a).
Proof.
  intros Hb s. eapply wp_mono; [| apply (wp_for_loop any n i body a
    (fun _ _ s' => top_item s' = top_item s /\ height s' = height s)); [| done]].
  - intros b s' Hs. exact Hs.
  - intros j b s' _ [Ht Hh]. eapply keeps_use; [apply Hb |]. intros. split; congruence.
Qed.
Lemma keeps_switch_labels c o n : keeps (switch_labels c o n).
Proof. unfold switch_labels. apply keeps_for_loop. intros. solve_keeps. Qed.
Lemma keeps_target_real f l : keeps (target_real f l).
Proof. unfold target_real. solve_keeps. Qed.
Lemma keeps_read_token c : keeps (read_token c).
Proof. unfold read_token. auto with keeps. Qed.
Hint Resolve keeps_switch_labels keeps_target_real keeps_read_token : keeps.
Lemma keeps_parse_instr_arg c a o : keeps (parse_instr_arg c a o).
Proof. unfold parse_instr_arg. solve_keeps. Qed.
Lemma keeps_index_of m : keeps (index_of m).
Proof. unfold index_of. solve_keeps. Qed.
Lemma keeps_ILClassToType k : keeps (ILClassToType k).
Proof. unfold ILClassToType, ILClassToTypeDirect. solve_keeps. Qed.
Lemma keeps_non_null {A} m (o : option A) : keeps (non_null m o).
Proof. unfold non_null. solve_keeps. Qed.
End keeps.

#[export] Hint Resolve keeps_append keeps_set_label_context keeps_lookup_label
  keeps_make_label keeps_unsigned_operands keeps_bool_to_int32 keeps_branch_unconditional
  keeps_get_label_name keeps_code_byte keeps_array_read keeps_arg_tree keeps_arg_label
  keeps_arg_labels keeps_switch_labels keeps_target_real keeps_read_token
  keeps_parse_instr_arg keeps_index_of keeps_ILClassToType @keeps_non_null : keeps.

Section moves.
Context `{Host, Target, MiddleEnd, Metadata}.

Lemma push_moves t : moves 0 1 (stack_push t).
Proof.
  intros s Hs _. unfold stack_push. wp_step.
  eapply keeps_use; [auto with keeps |]. intros a s' Ht Hh. repeat wp_step.
  unfold stack_ok in *. cbn. rewrite Hh, Ht, Hs. lia.
Qed.

(** A pop of a non-empty stack; an empty one gives a null tree. *)
Lemma pop_moves ty : moves 1 0 (stack_pop ty).
Proof.
  intros s Hs Hp. unfold stack_pop, top_node. repeat (wp_step; try exact I); [| lia].
  eapply keeps_use; [auto with keeps |]. intros ? s' Ht Hh. cbn in *.
  unfold stack_ok in *. rewrite Ht, Hh, Hs. rewrite Heql. cbn. lia.
Qed.

Lemma convert_top_moves ty : moves 1 1 (stack_convert_top_item ty).
Proof.
  intros s Hs Hp. unfold stack_convert_top_item, top_node.
  repeat (wp_step; try exact I); [| split; [done | lia]].
  eapply keeps_use; [auto with keeps |]. intros ? s' Ht Hh. wp_step. cbn in *.
  unfold stack_ok in *. cbn. rewrite Hh, Hs, Heql. cbn. lia.
Qed.

Lemma moves_mono {A} p q p' q' (m : M A) :
  moves p q m -> p <= p' -> q - p = q' - p' -> moves p' q' m.
Proof.
  intros Hm Hp Hq s Hs Hh. eapply moves_use; [done .. | lia |].
  intros a s' Hs' Hh'. split; [done | lia].
Qed.
End moves.

Create HintDb moves.
#[export] Hint Resolve push_moves pop_moves convert_top_moves : moves.

(** Use what a call does to the stack; [lia] follows the height. *)
Ltac moves_call :=
  match goal with
  | Hs : stack_ok ?s |- wp _ ?m _ ?s =>
      eapply (moves_use _ _ m); [solve [auto with moves] | exact Hs | lia |];
      intros ? ? ? ?; clear Hs; cbv beta
  end.

(** Use that a call keeps the stack, carrying the invariant on. *)
Ltac keeps_call :=
  match goal with
  | Hs : stack_ok ?s |- wp _ ?m _ ?s =>
      eapply (keeps_use m); [solve [auto with keeps] |];
      let s' := fresh "s" in let Ht := fresh in let Hh := fresh in
      intros ? s' Ht Hh; apply (stack_ok_eq _ _ Ht Hh) in Hs; clear Ht; cbv beta
  end.

Ltac moves_step :=
  first [ lazymatch goal with |- wp _ (get _) _ _ => apply wp_get; cbv beta end
        | moves_call | keeps_call | wp_step; try exact I ].
Ltac moves_done := solve [split; [assumption | lia] | lia].
Ltac solve_moves := intros ? ? ?; repeat moves_step; try moves_done.

Section effects.
Context `{Host, Target, MiddleEnd, Metadata}.

Lemma pop_args_moves n l : moves (Z.of_nat n) 0 (pop_args n l).
Proof.
  revert l. induction n as [| n IH]; intros l; simpl; [solve_moves |].
  intros s Hs Hh. wp_step. moves_call.
  eapply moves_use; [apply IH | done | lia |]. intros. moves_done.
Qed.

Lemma push_args_moves l : moves 0 (Z.of_nat (length l)) (push_args l).
Proof.
  induction l as [| t l IH]; simpl; [solve_moves |].
  intros s Hs Hh. wp_step. moves_call.
  eapply moves_use; [apply IH | done | lia |]. intros. split; [done |]. lia.
Qed.

(** A call takes the arguments its function type asks for. *)
Lemma call_moves check ptr ret tl :
  (forall c, check = Some c -> forall t, keeps (c t)) ->
  TREE_TYPE ptr = Some (POINTER_TYPE (FUNCTION_TYPE ret tl)) ->
  1 <= type_list_length tl ->
  forall s, stack_ok s -> type_list_length tl - 1 <= height s ->
  wp any (create_function_call_with check ptr)
    (fun t s' => TREE_TYPE t = Some ret /\ stack_ok s' /\
       height s' = height s - (type_list_length tl - 1)) s.
Proof.
  intros Hc Ht Hl s Hs Hh. unfold create_function_call_with, type_of, build3.
  wp_step. wp_step; [| exact I]. rewrite Ht in *. simplify_eq.
  wp_step. wp_step; [| exact I]. simplify_eq/=. wp_step. wp_step.
  - cbn [TREE_CODE_LENGTH Z.eqb Pos.eqb]. repeat wp_step.
    autorewrite with trees. split_and!; [done | done | lia].
  - wp_step. eapply moves_use; [apply pop_args_moves | done | lia |].
    intros args s1 Hs1 Hh1.
    wp_step. keeps_call.
    assert (forall l, wp any (mret l : M (list tree)) (fun a s' =>
      wp any ((gcc_assert (TREE_CODE_LENGTH CALL_EXPR =? 3) "build3";;
        mret (build3_node CALL_EXPR (Some ret) ptr
          (if decide (a = []) then NULL_TREE else TREE_LIST a) NULL_TREE)))
        (fun t s' => wp any (mret (set_side_effects t)) (fun t s' =>
          TREE_TYPE t = Some ret /\ stack_ok s' /\
          height s' = height s - (type_list_length tl - 1)) s') s') s0) as Hfin.
    { intros l. cbn [TREE_CODE_LENGTH Z.eqb Pos.eqb]. repeat wp_step.
      autorewrite with trees. split_and!; [done | done | lia]. }
    destruct check as [c |]; [destruct a as [| t a] |]; [exact I | | apply Hfin].
    wp_step. eapply keeps_use; [by apply Hc |]. intros t' s2 Ht2 Hh2.
    apply (stack_ok_eq _ _ Ht2 Hh2) in Hs1. cbn [TREE_CODE_LENGTH Z.eqb Pos.eqb].
    repeat wp_step. autorewrite with trees. split_and!; [done | done | lia].
Qed.

Lemma type_list_length_fun params :
  type_list_length (to_type_list (params ++ [void_type_node]))
  = Z.of_nat (length params) + 1.
Proof. rewrite type_list_length_of, of_to_type_list, length_app. cbn. lia. Qed.

(** How many items a result of this type is. *)
Definition results (ret : ttype) : Z := match ret with VOID_TYPE => 0 | _ => 1 end.

Lemma finish_call_moves t ret :
  TREE_TYPE t = Some ret -> moves 0 (results ret) (finish_function_call t).
Proof.
  intros Ht s Hs Hh. unfold finish_function_call, type_of. rewrite Ht.
  wp_step. cbn [lift]. wp_step. wp_step.
  - match goal with Hb : bool_decide _ = true |- _ => apply bool_decide_eq_true in Hb end.
    replace (results ret) with 1 by by destruct ret.
    moves_call. moves_done.
  - match goal with Hb : bool_decide _ = false |- _ =>
      apply bool_decide_eq_false, dec_stable in Hb end.
    destruct ret; try discriminate.
    keeps_call. split; [done | cbn; lia].
Qed.

Lemma function_call_moves ptr ret tl check :
  TREE_TYPE ptr = Some (POINTER_TYPE (FUNCTION_TYPE ret tl)) ->
  1 <= type_list_length tl ->
  forall s, stack_ok s -> type_list_length tl - 1 <= height s ->
  wp any (create_function_call ptr check)
    (fun t s' => TREE_TYPE t = Some ret /\ stack_ok s' /\
       height s' = height s - (type_list_length tl - 1)) s.
Proof.
  intros. apply call_moves; [| done ..].
  intros c Hc t. destruct check; simplify_eq. auto with keeps.
Qed.

(** A call and what is done with its result. *)
Lemma finished_call_moves ptr ret params check :
  TREE_TYPE ptr = Some (POINTER_TYPE (create_function_type params ret)) ->
  moves (Z.of_nat (length params)) (results ret)
    (t ← create_function_call ptr check; finish_function_call t).
Proof.
  intros Ht s Hs Hh. pose proof (type_list_length_fun params) as Hl. wp_step.
  eapply wp_mono; [| eapply function_call_moves; [exact Ht | lia | done | lia]].
  intros t s1 (Hr & Hs1 & Hh1). cbv beta.
  eapply moves_use; [by apply finish_call_moves | done | lia |].
  intros. split; [done | lia].
Qed.

Lemma function_ptr_wp n params ret s Q :
  (forall t s', TREE_TYPE t = Some (POINTER_TYPE (create_function_type params ret)) ->
     top_item s' = top_item s -> height s' = height s -> Q t s') ->
  wp any (create_function_ptr n params ret) Q s.
Proof.
  intros HQ. unfold create_function_ptr, create_function_decl, function_address, type_of,
    build_decl, fresh, build1.
  repeat (wp_step; try exact I). simplify_eq/=. by apply HQ.
Qed.

Lemma method_call_moves n ret params check :
  moves (Z.of_nat (length params)) (results ret) (make_method_call n ret params check).
Proof.
  intros s Hs Hh. unfold make_method_call. wp_step. apply function_ptr_wp.
  intros t s' Ht Hts Hhs. apply (stack_ok_eq _ _ Hts Hhs) in Hs.
  eapply moves_use; [by apply finished_call_moves | done | lia |]. intros. split; [done | lia].
Qed.
End effects.
