(* ===== verification/StackEffect.v ===== *)
(** * StackEffect: each instruction moves the stack as the opcode tables say

    The tables of opdef.c state, for every opcode, how many values it pops and
    pushes; the handlers never read those numbers.  Here the handlers are
    proved to follow them. *)
From S2P Require Import Prelude Values ILTypes Program Mangle SampleProgram Opcodes Trees.
From S2P Require Import CilState CilDecl EvalStack Records Frame Metadata Calls Statements.
From S2P Require Import StaticData Instr ParseInstr Assembly Reading Sample Effects.

(** Nothing need be known of a computation to go on after it. *)
Lemma keeps_or_any {A} (m : M A) s : wp any m (fun _ _ => True) s.
Proof. unfold wp. by case_match. Qed.

Section builders.
Context `{Host, Target, MiddleEnd, Metadata}.

Lemma assignment_moves t : moves 1 0 (make_assignment t).
Proof. unfold make_assignment. solve_moves. Qed.
Hint Resolve assignment_moves : moves.

Lemma field_assignment_moves ty c n : moves 2 0 (make_field_assignment ty c n).
Proof. unfold make_field_assignment. solve_moves. Qed.

Lemma static_assignment_moves cn ty n : moves 1 0 (make_static_field_assignment cn ty n).
Proof. unfold make_static_field_assignment. solve_moves. Qed.

Lemma elem_access_moves : moves 2 0 create_array_elem_access.
Proof. unfold create_array_elem_access. solve_moves. Qed.
Hint Resolve elem_access_moves : moves.

Lemma elem_assignment_moves : moves 3 0 make_array_elem_assignment.
Proof. unfold make_array_elem_assignment. solve_moves. Qed.

Lemma ldlen_moves : moves 1 1 make_instr_ldlen.
Proof. unfold make_instr_ldlen. solve_moves. Qed.

Lemma arithmetic_moves op : moves 2 1 (make_arithmetic_expr op).
Proof. unfold make_arithmetic_expr. solve_moves. Qed.

Lemma unary_moves op : moves 1 1 (make_unary_expr op).
Proof. unfold make_unary_expr. solve_moves. Qed.

Lemma branch_true_moves n : moves 1 0 (make_branch_on_true n).
Proof. unfold make_branch_on_true. solve_moves. Qed.

Lemma branch_false_moves n : moves 1 0 (make_branch_on_false n).
Proof. unfold make_branch_on_false. solve_moves. Qed.

Lemma branch_comparison_moves c u n b : moves 2 0 (make_branch_comparison c u n b).
Proof. unfold make_branch_comparison. solve_moves. Qed.

Lemma dup_moves : moves 1 2 make_instr_dup.
Proof. unfold make_instr_dup. solve_moves. Qed.
Hint Resolve dup_moves : moves.

Lemma pop_instr_moves : moves 1 0 make_instr_pop.
Proof. unfold make_instr_pop. solve_moves. Qed.

(** The result of [ret]: at most one item is taken. *)
Lemma return_moves s :
  stack_ok s ->
  wp any make_return_value
    (fun _ s' => stack_ok s' /\ height s' = height s - (if 0 <? height s then 1 else 0)) s.
Proof.
  intros Hs. unfold make_return_value, stack_height.
  repeat moves_step; (split; [done |]); destruct (Z.ltb_spec 0 (height s)); lia.
Qed.

(** A [switch] of [build2] with three operands stops the compiler. *)
Lemma switch_fails l Q s : wp any (make_instr_switch l) Q s.
Proof.
  unfold make_instr_switch. wp_step. unfold wp at 1. case_match; [| exact I].
  wp_step. unfold wp at 1. case_match; [| exact I]. done.
Qed.

(** The results of calls to the runtime. *)
Lemma runtime_call_moves p q n ret params check :
  p = Z.of_nat (length params) -> q = results ret ->
  moves p q (make_method_call n ret params check).
Proof. intros -> ->. apply method_call_moves. Qed.

Ltac runtime_call :=
  match goal with
  | Hs : stack_ok ?s |- wp _ (make_method_call ?n ?ret ?ps ?c) _ ?s =>
      eapply (moves_use _ _ (make_method_call n ret ps c));
      [eapply runtime_call_moves; reflexivity | exact Hs | cbn; lia |];
      intros ? ? ? ?; clear Hs; cbv beta; cbn in *
  end.

Lemma new_array_moves ty : moves 1 1 (make_new_array ty).
Proof.
  unfold make_new_array. intros s Hs Hh. repeat first [runtime_call | moves_step].
  moves_done.
Qed.

Lemma pop_args_length n l s :
  wp any (pop_args n l) (fun r _ => length r = (n + length l)%nat) s.
Proof.
  revert l s. induction n as [| n IH]; intros l s; simpl; [done |].
  wp_step. eapply wp_mono; [| apply (keeps_or_any (stack_pop None) s)].
  intros t s' _. eapply wp_mono; [| apply IH]. cbn. intros; lia.
Qed.

(** [newobj] takes the arguments of the constructor without the object, which
    it leaves. *)
Lemma new_object_moves cn ctor params :
  params <> [] ->
  moves (Z.of_nat (length params) - 1) 1 (make_new_object cn ctor params).
Proof.
  intros Hne s Hs Hh. unfold make_new_object. cbv zeta.
  assert (0 < Z.of_nat (length params)) by (destruct params; cbn; [done | lia]).
  wp_step. set (n := Z.to_nat _).
  eapply wp_mono; [| apply (wp_conj _ _ _ _ _ (pop_args_length n [] s)
    (pop_args_moves n [] s Hs ltac:(subst n; lia)))].
  intros args s1 (Hl & Hs1 & Hh1). cbn in Hl. subst n.
  repeat first [runtime_call | moves_step].
  eapply (moves_use _ _ (push_args args)); [apply push_args_moves | done | lia |].
  intros ? s7 Hs7 Hh7.
  eapply moves_use; [by eapply runtime_call_moves | done | lia |].
  intros ? s8 Hs8 Hh8. split; [done |]. cbn in *. lia.
Qed.
End builders.

#[export] Hint Resolve assignment_moves field_assignment_moves static_assignment_moves
  elem_access_moves elem_assignment_moves ldlen_moves arithmetic_moves unary_moves
  branch_true_moves branch_false_moves branch_comparison_moves dup_moves pop_instr_moves
  new_array_moves : moves.

Section instructions.
Context `{Host, Target, MiddleEnd, Metadata}.

Ltac runtime_call :=
  match goal with
  | Hs : stack_ok ?s |- wp _ (make_method_call ?n ?ret ?ps ?c) _ ?s =>
      eapply (moves_use _ _ (make_method_call n ret ps c));
      [eapply runtime_call_moves; reflexivity | exact Hs | cbn; lia |];
      intros ? ? ? ?; clear Hs; cbv beta; cbn in *
  end.
Ltac solve_instr := intros ? ? ?; cbv zeta; repeat first [runtime_call | moves_step];
                    try moves_done.

Lemma ldftn_moves t : moves 0 1 (instr_ldftn t).
Proof. unfold instr_ldftn. solve_instr. Qed.
Lemma ldvirtftn_moves t : moves 1 1 (instr_ldvirtftn t).
Proof. unfold instr_ldvirtftn. solve_instr. Qed.
Lemma ldstr_moves t : moves 0 1 (instr_ldstr t).
Proof. unfold instr_ldstr. solve_instr. Qed.
Lemma newarr_moves t : moves 1 1 (instr_newarr t).
Proof. unfold instr_newarr. solve_instr. Qed.
Lemma initobj_moves t : moves 1 0 (instr_initobj t).
Proof. unfold instr_initobj. solve_instr. Qed.
Lemma ldfld_moves t : moves 1 1 (instr_ldfld t).
Proof. unfold instr_ldfld. solve_instr. Qed.
Lemma stfld_moves t : moves 2 0 (instr_stfld t).
Proof. unfold instr_stfld. solve_instr. Qed.
Lemma ldsfld_moves t : moves 0 1 (instr_ldsfld t).
Proof. unfold instr_ldsfld. solve_instr. Qed.
Lemma stsfld_moves t : moves 1 0 (instr_stsfld t).
Proof. unfold instr_stsfld. solve_instr. Qed.

Hint Resolve ldftn_moves ldvirtftn_moves ldstr_moves newarr_moves initobj_moves
  ldfld_moves stfld_moves ldsfld_moves stsfld_moves : moves.

(** The opcodes whose effect depends on a signature or on the stack. *)
Definition variable_effect (op : il_op) : bool :=
  match op with
  | IL_OP_CALL | IL_OP_CALLVIRT | IL_OP_NEWOBJ | IL_OP_RET => true
  | _ => false
  end.

Lemma not_supported_wp i Q s : wp any (not_supported i) Q s.
Proof. done. Qed.

(** Compute the numbers of the row and run the handler. *)
Ltac op_case :=
  match goal with |- moves ?p ?q ?m =>
    let p' := eval vm_compute in p in let q' := eval vm_compute in q in
    change (moves p' q' m) end;
  cbn [parse_instr_switch parse_instr_1 parse_instr_2 parse_instr_3 parse_instr_4
       parse_instr_5 parse_instr_6 parse_instr_7 parse_instr_8 parse_instr_9
       parse_prefixed_switch parse_prefixed_instr_1 parse_prefixed_instr_2];
  intros s Hs Hh;
  first [ exact I | repeat moves_step; first [apply switch_fails | moves_done] ].

Lemma switch_moves op code i offset :
  variable_effect op = false -> i = main_opcode (il_op_value op) ->
  moves (op_popped i) (op_pushed i) (parse_instr_switch (Some op) code i offset).
Proof.
  intros Hv Hi. rewrite Hi at 1 2. clear Hi. destruct op; try discriminate; op_case.
Qed.

Lemma prefixed_switch_moves op code i offset :
  i = prefix_opcode (il_prefix_op_value op) ->
  moves (op_popped i) (op_pushed i) (parse_prefixed_switch (Some op) code i offset).
Proof.
  intros Hi. rewrite Hi at 1 2. clear Hi. destruct op; op_case.
Qed.

Lemma byte_at_is_byte code i c : Forall is_byte code -> byte_at code i = Some c -> is_byte c.
Proof. intros Hb Hc. by apply byte_at_Some in Hc as [_ Hc]; apply Hc. Qed.

Lemma parse_instr_wp code offset s c op :
  Forall is_byte code -> byte_at code 0 = Some c ->
  il_op_of_byte c = Some op -> variable_effect op = false ->
  stack_ok s -> op_popped (main_opcode c) <= height s ->
  wp any (parse_instr code offset) (fun n s' =>
    n = op_size (main_opcode c) /\ stack_ok s' /\
    height s' = height s - op_popped (main_opcode c) + op_pushed (main_opcode c)) s.
Proof.
  intros Hb Hc Hop Hv Hs Hh.
  unfold parse_instr, code_byte. rewrite Hc. repeat wp_step; [| exact I].
  simplify_eq. rewrite Hop. pose proof (byte_at_is_byte _ _ _ Hb Hc) as Hbyte.
  apply il_op_of_byte_value in Hop; [| done]. subst a.
  eapply moves_use; [by apply switch_moves | done .. |].
  intros ? s1 Hs1 Hh1. wp_step. done.
Qed.

Lemma parse_prefixed_wp code offset s c :
  Forall is_byte code -> byte_at code 1 = Some c ->
  stack_ok s -> op_popped (prefix_opcode c) <= height s ->
  wp any (parse_prefixed_instr code offset) (fun n s' =>
    n = op_size (prefix_opcode c) /\ stack_ok s' /\
    height s' = height s - op_popped (prefix_opcode c) + op_pushed (prefix_opcode c)) s.
Proof.
  intros Hb Hc Hs Hh. unfold parse_prefixed_instr, code_byte. cbv zeta.
  replace (byte_at (drop 1 code) 0) with (Some c) by by destruct code.
  repeat wp_step; [| exact I]. simplify_eq.
  pose proof (byte_at_is_byte _ _ _ Hb Hc) as Hbyte.
  destruct (il_prefix_op_of_byte a) as [op |] eqn:Hop; [| exact I].
  apply il_prefix_op_of_byte_value in Hop; [| done]. subst a.
  eapply moves_use; [by apply prefixed_switch_moves | done .. |].
  intros ? s1 Hs1 Hh1. wp_step. done.
Qed.

(** C10: an instruction of one byte other than [call], [callvirt], [newobj] and
    [ret] that is compiled while the items it pops are on the stack leaves the
    stack with as many items as its row in the opcode table says, its counter in
    step, whatever trees are on the stack and whatever the operand is.  The rows of
    the four say nothing, their effect being variable. *)
Theorem parse_instr_stack_effect code offset s n s' c op :
  Forall is_byte code -> byte_at code 0 = Some c ->
  il_op_of_byte c = Some op -> variable_effect op = false ->
  stack_ok s -> op_popped (main_opcode c) <= height s ->
  parse_instr code offset s = Done n s' ->
  n = op_size (main_opcode c) /\ stack_ok s' /\
  height s' = height s - op_popped (main_opcode c) + op_pushed (main_opcode c).
Proof.
  intros Hb Hc Hop Hv Hs Hh Hd.
  exact (outcome_done _ _ _ _ _ _ Hd (parse_instr_wp code offset s c op Hb Hc Hop Hv Hs Hh)).
Qed.

(** C11: the same for the instructions with the prefix byte. *)
Theorem parse_prefixed_stack_effect code offset s n s' c :
  Forall is_byte code -> byte_at code 1 = Some c ->
  stack_ok s -> op_popped (prefix_opcode c) <= height s ->
  parse_prefixed_instr code offset s = Done n s' ->
  n = op_size (prefix_opcode c) /\ stack_ok s' /\
  height s' = height s - op_popped (prefix_opcode c) + op_pushed (prefix_opcode c).
Proof.
  intros Hb Hc Hs Hh Hd.
  exact (outcome_done _ _ _ _ _ _ Hd (parse_prefixed_wp code offset s c Hb Hc Hs Hh)).
Qed.

(** How many arguments a method takes: those of its signature and the object. *)
Definition num_args (m : N) : Z :=
  let sig := ILMethod_Signature m in
  (if decide (ILType_HasThis sig = Some true) then 1 else 0) + ILTypeNumParams sig.

Lemma param_types_length n i sig s :
  wp any (parse_param_types n i sig)
    (fun l s' => length l = n /\ top_item s' = top_item s /\ height s' = height s) s.
Proof.
  revert i s. induction n as [| n IH]; intros i s; simpl; [done |].
  wp_step. wp_step; [| exact I]. wp_step. keeps_step. wp_step.
  eapply wp_mono; [| apply IH]. intros l s2 (Hl & Ht & Hh). wp_step. cbn [length]. split_and!; [lia | congruence ..].
Qed.

Lemma params_length m s :
  0 <= ILTypeNumParams (ILMethod_Signature m) ->
  wp any (parse_parameters_types m) (fun l s' =>
    Z.of_nat (length l) = num_args m /\ top_item s' = top_item s /\ height s' = height s) s.
Proof.
  intros Hn. unfold parse_parameters_types, get_class_ptr_type, num_args. cbv zeta.
  wp_step. wp_step; [| exact I].
  match goal with Hs : ILType_HasThis _ = _ |- _ => rewrite Hs end.
  wp_step. apply (wp_mono _ _ (fun this s1 =>
    length this = (if a then 1 else 0)%nat /\
    top_item s1 = top_item s /\ height s1 = height s)).
  - intros this s1 (Hl & Ht1 & Hh1). wp_step.
    eapply wp_mono; [| apply param_types_length]. intros l s2 (Hl2 & Ht2 & Hh2). wp_step.
    rewrite length_app, Hl2, Nat2Z.inj_add, Z2Nat.id, Hl by done.
    split_and!; [destruct a; case_decide; simplify_eq; lia | congruence ..].
  - destruct a; repeat keeps_step; split_and!; done || congruence.
Qed.

(** After the signature was read. *)
Lemma signature_wp m s (Q : unit -> cil_state -> Prop) (k : ttype -> list ttype -> M unit) :
  0 <= ILTypeNumParams (ILMethod_Signature m) -> stack_ok s ->
  (forall ret s0 params s', parse_return_type m s = Done ret s0 -> stack_ok s' ->
     height s' = height s -> Z.of_nat (length params) = num_args m ->
     wp any (k ret params) Q s') ->
  wp any (r ← parse_return_type m; p ← parse_parameters_types m; k r p) Q s.
Proof.
  intros Hn Hs HQ. wp_step. unfold wp at 1. destruct (parse_return_type m s) as [ret s0 |] eqn:Hr;
    [| exact I].
  assert (keeps (parse_return_type m)) as Hk by auto with keeps.
  specialize (Hk s). unfold wp in Hk. rewrite Hr in Hk. destruct Hk as [Ht0 Hh0].
  wp_step. eapply wp_mono; [| by apply params_length].
  intros params s' (Hl & Ht & Hh). eapply HQ; [done | | congruence | done].
  by apply (stack_ok_eq _ _ Ht Hh), (stack_ok_eq _ _ Ht0 Hh0).
Qed.

(** The pointers that virtual and interface calls go through. *)
Lemma virtual_ptr_type obj ret params i s :
  wp any (create_virtual_method_ptr obj ret params i) (fun t s' =>
    TREE_TYPE t = Some (POINTER_TYPE (create_function_type params ret)) /\
    top_item s' = top_item s /\ height s' = height s) s.
Proof.
  unfold create_virtual_method_ptr, build4. repeat keeps_step.
  autorewrite with trees. split; [done | keeps_done].
Qed.

Lemma intf_ptr_type obj ret params n i s :
  wp any (create_intf_method_ptr obj ret params n i) (fun t s' =>
    TREE_TYPE t = Some (POINTER_TYPE (create_function_type params ret)) /\
    top_item s' = top_item s /\ height s' = height s) s.
Proof.
  unfold create_intf_method_ptr, build1, fold_tree. cbv zeta. repeat keeps_step.
  rewrite fold_type. split; [done | keeps_done].
Qed.

(** What a call leaves, with the type that was read for the result. *)
Definition called (m : N) (s s' : cil_state) : Prop :=
  stack_ok s' /\ exists ret s0, parse_return_type m s = Done ret s0 /\
    height s' = height s - num_args m + results ret.

Lemma mangled_wp {A} m (k : string -> M A) Q s :
  (forall name, wp any (k name) Q s) -> wp any (name ← mangle_function m; k name) Q s.
Proof.
  intros Hk. wp_step. unfold wp at 1, mangle_function, finish_mangling.
  destruct (mangle_function_text m _); [apply Hk | exact I].
Qed.

Lemma call_wp token m s :
  ILMethod_FromToken token = Some m -> 0 <= ILTypeNumParams (ILMethod_Signature m) ->
  stack_ok s -> num_args m <= height s ->
  wp any (instr_call token) (fun _ s' => called m s s') s.
Proof.
  intros Hm Hn Hs Hh. unfold instr_call, non_null. rewrite Hm. wp_step. wp_step.
  apply mangled_wp. intros name. apply signature_wp; [done .. |].
  intros ret s0 params s1 Hr Hs1 Hh1 Hl.
  eapply moves_use; [apply method_call_moves | done | lia |]. intros ? s2 Hs2 Hh2.
  split; [done |]. exists ret, s0. split; [done | lia].
Qed.

(** The rest of a call through a pointer read from the object. *)
Lemma pointer_call_wp m ptr ret params s s0 s1 :
  parse_return_type m s = Done ret s0 -> Z.of_nat (length params) = num_args m ->
  TREE_TYPE ptr = Some (POINTER_TYPE (create_function_type params ret)) ->
  stack_ok s1 -> height s1 = height s -> num_args m <= height s ->
  wp any (t ← create_function_call ptr true; finish_function_call t)
    (fun _ s' => called m s s') s1.
Proof.
  intros Hr Hl Hp Hs1 Hh1 Hh.
  eapply moves_use; [by apply finished_call_moves | done | lia |]. intros ? s2 Hs2 Hh2.
  split; [done |]. exists ret, s0. split; [done | lia].
Qed.

Lemma callvirt_wp token m s :
  ILMethod_FromToken token = Some m -> 0 <= ILTypeNumParams (ILMethod_Signature m) ->
  stack_ok s -> num_args m <= height s ->
  wp any (instr_callvirt token) (fun _ s' => called m s s') s.
Proof.
  intros Hm Hn Hs Hh. unfold instr_callvirt, non_null. rewrite Hm. wp_step. wp_step.
  apply mangled_wp. intros name. apply signature_wp; [done .. |].
  intros ret s0 params s1 Hr Hs1 Hh1 Hl. cbv zeta. repeat wp_step.
  - keeps_call. wp_step. keeps_call. unfold make_intf_method_call. cbv zeta. wp_step.
    keeps_call. wp_step. eapply wp_mono; [| apply intf_ptr_type].
    intros ptr s5 (Hp & Ht5 & Hh5). apply (stack_ok_eq _ _ Ht5 Hh5) in Hs1.
    eapply pointer_call_wp; [done .. | lia | done].
  - keeps_call. unfold make_virtual_method_call. cbv zeta. wp_step.
    keeps_call. wp_step. eapply wp_mono; [| apply virtual_ptr_type].
    intros ptr s4 (Hp & Ht4 & Hh4). apply (stack_ok_eq _ _ Ht4 Hh4) in Hs1.
    eapply pointer_call_wp; [done .. | lia | done].
  - eapply moves_use; [apply method_call_moves | done | lia |]. intros ? s2 Hs2 Hh2.
    split; [done |]. exists ret, s0. split; [done | lia].
Qed.

(** C12: a call, direct or virtual or through an interface, takes exactly the
    object and the arguments of the signature of its method, and leaves a result
    if and only if the type that is read for the result is not void. *)
Theorem call_stack_effect token m s s' :
  ILMethod_FromToken token = Some m -> 0 <= ILTypeNumParams (ILMethod_Signature m) ->
  stack_ok s -> num_args m <= height s ->
  (instr_call token s = Done tt s' \/ instr_callvirt token s = Done tt s') ->
  stack_ok s' /\ exists ret s0, parse_return_type m s = Done ret s0 /\
    height s' = height s - num_args m + (if decide (ret = VOID_TYPE) then 0 else 1).
Proof.
  intros Hm Hn Hs Hh Hd. assert (called m s s') as (Hs' & ret & s0 & Hr & Hh').
  { destruct Hd as [Hd | Hd].
    - exact (outcome_done _ _ _ _ _ _ Hd (call_wp token m s Hm Hn Hs Hh)).
    - exact (outcome_done _ _ _ _ _ _ Hd (callvirt_wp token m s Hm Hn Hs Hh)). }
  split; [done |]. exists ret, s0. split; [done |]. rewrite Hh'.
  case_decide; [by subst | by destruct ret].
Qed.

(** C26: Making an object takes as many items as the constructor has
    parameters other than the object, when they are on the stack, and leaves one,
    the counter in step, although the runtime call that allocates the object and
    the constructor each take the reference. *)
Theorem new_object_stack_effect class_name ctor_name params s s' :
  params <> [] -> stack_ok s -> Z.of_nat (length params) - 1 <= height s ->
  make_new_object class_name ctor_name params s = Done tt s' ->
  stack_ok s' /\ height s' = height s - (Z.of_nat (length params) - 1) + 1.
Proof.
  intros Hne Hs Hh Hd.
  exact (outcome_done _ _ _ _ _ _ Hd (new_object_moves _ _ _ Hne s Hs Hh)).
Qed.
End instructions.

(** ** The counter and the list agree whatever the code is *)

(** [m] keeps the counter in step with the list. *)
Definition sound {A} (m : M A) : Prop :=
  forall s, stack_ok s -> wp any m (fun _ s' => stack_ok s') s.

Lemma sound_use {A} (m : M A) Q s :
  sound m -> stack_ok s -> (forall a s', stack_ok s' -> Q a s') -> wp any m Q s.
Proof. intros Hm Hs HQ. eapply wp_mono; [| by apply Hm]. auto. Qed.

Create HintDb sound.

Ltac sound_call :=
  match goal with
  | Hs : stack_ok ?s |- wp _ ?m _ ?s =>
      eapply (sound_use m); [solve [auto with sound] | exact Hs |];
      intros ? ? ?; clear Hs; cbv beta
  end.
Ltac solve_sound :=
  intros ? ?; cbv zeta;
  repeat first [ lazymatch goal with |- wp _ (get _) _ _ => apply wp_get; cbv beta end
               | sound_call | keeps_call | wp_step; try exact I ]; try assumption.

Section sound.
Context `{Host, Target, MiddleEnd, Metadata}.

Lemma push_sound t : sound (stack_push t).
Proof.
  intros s Hs. eapply moves_use; [apply push_moves | done | unfold stack_ok in Hs; lia |].
  auto.
Qed.
Lemma pop_sound ty : sound (stack_pop ty).
Proof.
  intros s Hs. destruct (Z.lt_ge_cases 0 (height s)).
  - eapply moves_use; [apply pop_moves | done | lia |]. auto.
  - unfold stack_pop. repeat wp_step; [lia | done].
Qed.
Lemma convert_top_sound ty : sound (stack_convert_top_item ty).
Proof.
  intros s Hs. destruct (Z.lt_ge_cases 0 (height s)).
  - eapply moves_use; [apply convert_top_moves | done | lia |]. auto.
  - unfold stack_convert_top_item. repeat wp_step; [lia | done].
Qed.
Hint Resolve push_sound pop_sound convert_top_sound : sound.

Lemma pop_args_sound n l : sound (pop_args n l).
Proof. revert l. induction n as [| n IH]; intros l; simpl; solve_sound. Qed.
Lemma push_args_sound l : sound (push_args l).
Proof. induction l as [| t l IH]; simpl; solve_sound. Qed.
Hint Resolve pop_args_sound push_args_sound : sound.
Lemma call_sound t b : sound (create_function_call t b).
Proof. unfold create_function_call, create_function_call_with. destruct b; solve_sound. Qed.
Lemma finish_sound t : sound (finish_function_call t).
Proof. unfold finish_function_call. solve_sound. Qed.
Hint Resolve call_sound finish_sound : sound.
Lemma method_call_sound n r p b : sound (make_method_call n r p b).
Proof. unfold make_method_call. solve_sound. Qed.
Lemma virtual_call_sound r p i : sound (make_virtual_method_call r p i).
Proof. unfold make_virtual_method_call. solve_sound. Qed.
Lemma intf_call_sound r p n i : sound (make_intf_method_call r p n i).
Proof. unfold make_intf_method_call. solve_sound. Qed.
Lemma assignment_sound t : sound (make_assignment t).
Proof. unfold make_assignment. solve_sound. Qed.
Lemma elem_access_sound : sound create_array_elem_access.
Proof. unfold create_array_elem_access. solve_sound. Qed.
Lemma dup_sound : sound make_instr_dup.
Proof. unfold make_instr_dup. solve_sound. Qed.
Hint Resolve method_call_sound virtual_call_sound intf_call_sound assignment_sound
  elem_access_sound dup_sound : sound.
Lemma elem_assignment_sound : sound make_array_elem_assignment.
Proof. unfold make_array_elem_assignment. solve_sound. Qed.
Lemma ldlen_sound : sound make_instr_ldlen.
Proof. unfold make_instr_ldlen. solve_sound. Qed.
Lemma arithmetic_sound op : sound (make_arithmetic_expr op).
Proof. unfold make_arithmetic_expr. solve_sound. Qed.
Lemma unary_sound op : sound (make_unary_expr op).
Proof. unfold make_unary_expr. solve_sound. Qed.
Lemma branch_true_sound n : sound (make_branch_on_true n).
Proof. unfold make_branch_on_true. solve_sound. Qed.
Lemma branch_false_sound n : sound (make_branch_on_false n).
Proof. unfold make_branch_on_false. solve_sound. Qed.
Lemma branch_comparison_sound c u n b : sound (make_branch_comparison c u n b).
Proof. unfold make_branch_comparison. solve_sound. Qed.
Lemma switch_sound l : sound (make_instr_switch l).
Proof. intros s _. apply switch_fails. Qed.
Lemma return_sound : sound make_return_value.
Proof. intros s Hs. eapply wp_mono; [| by apply return_moves]. by intros ? ? []. Qed.
Lemma pop_instr_sound : sound make_instr_pop.
Proof. unfold make_instr_pop. solve_sound. Qed.
Lemma new_array_sound ty : sound (make_new_array ty).
Proof. unfold make_new_array. solve_sound. Qed.
Lemma new_object_sound c n p : sound (make_new_object c n p).
Proof. unfold make_new_object. solve_sound. Qed.
Hint Resolve elem_assignment_sound ldlen_sound arithmetic_sound unary_sound
  branch_true_sound branch_false_sound branch_comparison_sound switch_sound return_sound
  pop_instr_sound new_array_sound new_object_sound : sound.
Lemma instr_call_sound t : sound (instr_call t).
Proof. unfold instr_call. solve_sound. Qed.
Lemma instr_callvirt_sound t : sound (instr_callvirt t).
Proof. unfold instr_callvirt. solve_sound. Qed.
Lemma instr_ldftn_sound t : sound (instr_ldftn t).
Proof. unfold instr_ldftn. solve_sound. Qed.
Lemma instr_ldvirtftn_sound t : sound (instr_ldvirtftn t).
Proof. unfold instr_ldvirtftn. solve_sound. Qed.
Lemma instr_ldstr_sound t : sound (instr_ldstr t).
Proof. unfold instr_ldstr. solve_sound. Qed.
Lemma instr_newarr_sound t : sound (instr_newarr t).
Proof. unfold instr_newarr. solve_sound. Qed.
Lemma instr_newobj_sound t : sound (instr_newobj t).
Proof. unfold instr_newobj. solve_sound. Qed.
Lemma instr_initobj_sound t : sound (instr_initobj t).
Proof. unfold instr_initobj. solve_sound. Qed.
Lemma instr_ldfld_sound t : sound (instr_ldfld t).
Proof. unfold instr_ldfld. solve_sound. Qed.
Lemma instr_stfld_sound t : sound (instr_stfld t).
Proof. unfold instr_stfld, make_field_assignment. solve_sound. Qed.
Lemma instr_ldsfld_sound t : sound (instr_ldsfld t).
Proof. unfold instr_ldsfld. solve_sound. Qed.
Lemma instr_stsfld_sound t : sound (instr_stsfld t).
Proof. unfold instr_stsfld, make_static_field_assignment. solve_sound. Qed.
Hint Resolve instr_call_sound instr_callvirt_sound instr_ldftn_sound instr_ldvirtftn_sound
  instr_ldstr_sound instr_newarr_sound instr_newobj_sound instr_initobj_sound
  instr_ldfld_sound instr_stfld_sound instr_ldsfld_sound instr_stsfld_sound : sound.

Lemma switch_instr_sound op code i offset : sound (parse_instr_switch op code i offset).
Proof.
  destruct op as [op |]; [| done].
  destruct op; cbn [parse_instr_switch parse_instr_1 parse_instr_2 parse_instr_3
    parse_instr_4 parse_instr_5 parse_instr_6 parse_instr_7 parse_instr_8 parse_instr_9];
    first [done | solve_sound].
Qed.

Lemma prefixed_instr_sound op code i offset : sound (parse_prefixed_switch op code i offset).
Proof.
  destruct op as [op |]; [| done].
  destruct op; cbn [parse_prefixed_switch parse_prefixed_instr_1 parse_prefixed_instr_2];
    first [done | solve_sound].
Qed.
Hint Resolve switch_instr_sound prefixed_instr_sound : sound.

Lemma keeps_special_size c n : keeps (get_special_size c n).
Proof. unfold get_special_size. solve_keeps. Qed.
Hint Resolve keeps_special_size : keeps.

Lemma parse_one_sound code csize offset : sound (parse_one code csize offset).
Proof. unfold parse_one, parse_prefixed_instr, parse_instr. solve_sound. Qed.
Hint Resolve parse_one_sound : sound.

Lemma parse_loop_sound fuel code csize offset : sound (parse_loop fuel code csize offset).
Proof.
  revert code csize offset. induction fuel as [| fuel IH]; intros code csize offset; simpl;
    solve_sound.
Qed.

(** C17: for every sequence of bytes, well formed or not, and even when
    instructions pop more than there is, the counter of the stack stays equal
    to the number of linked items, so the test [height > 0] of the stack
    functions tells whether there is a top item. *)
Theorem parse_instructions_stack_ok code s s' :
  stack_ok s -> parse_instructions code s = Done tt s' -> stack_ok s'.
Proof.
  intros Hs Hd. exact (outcome_done _ _ _ _ _ _ Hd (parse_loop_sound _ _ _ _ s Hs)).
Qed.
End sound.

Section witnesses.
#[local] Existing Instances ILP32 i386 plain_middle_end sample_program sample_types sample_image.

Lemma parse_instr_stack_effect_witness :
  match parse_instr [0x58] 0 sample_two with
  | Done n s' => n = 1 /\ stack_ok s' /\ height s' = 1
  | Failed _ => False
  end.
Proof.
  destruct (parse_instr [0x58] 0 sample_two) as [n s' | f] eqn:E.
  - apply (parse_instr_stack_effect [0x58] 0 sample_two n s' 0x58 IL_OP_ADD);
      [repeat constructor; unfold is_byte; lia | reflexivity .. | | exact E].
    vm_compute. discriminate.
  - vm_compute in E. discriminate.
Defined.

(** [ceq] *)
Lemma parse_prefixed_stack_effect_witness :
  match parse_prefixed_instr [0xFE; 0x01] 0 sample_two with
  | Done n s' => n = 2 /\ stack_ok s' /\ height s' = 1
  | Failed _ => False
  end.
Proof.
  destruct (parse_prefixed_instr [0xFE; 0x01] 0 sample_two) as [n s' | f] eqn:E.
  - apply (parse_prefixed_stack_effect [0xFE; 0x01] 0 sample_two n s' 0x01);
      [repeat constructor; unfold is_byte; lia | reflexivity .. | | exact E].
    vm_compute. discriminate.
  - vm_compute in E. discriminate.
Defined.

(** [N.Base.f], which takes the object and an [int32]. *)
Lemma call_stack_effect_witness :
  match instr_call 0x06000002 sample_class with
  | Done _ s' => stack_ok s' /\ height s' = 1
  | Failed _ => False
  end.
Proof.
  destruct (instr_call 0x06000002 sample_class) as [[] s' | f] eqn:E.
  - destruct (call_stack_effect 0x06000002 2 sample_class s')
      as (Hs & ret & s0 & Hr & Hh);
      [reflexivity | vm_compute; discriminate | vm_compute; reflexivity
      | vm_compute; discriminate | left; exact E |].
    split; [exact Hs |]. rewrite Hh. vm_compute in Hr. injection Hr as <- _.
    vm_compute. reflexivity.
  - vm_compute in E. discriminate.
Defined.

Lemma new_object_stack_effect_witness :
  match make_new_object "app$N$Base" "C$.ctor" [ptr_type_node; int32_type_node] sample_class
  with
  | Done _ s' => stack_ok s' /\ height s' = 2
  | Failed _ => False
  end.
Proof.
  destruct (make_new_object "app$N$Base" "C$.ctor" [ptr_type_node; int32_type_node]
    sample_class) as [[] s' | f] eqn:E.
  - apply (new_object_stack_effect "app$N$Base" "C$.ctor" [ptr_type_node; int32_type_node]
      sample_class s'); [discriminate | vm_compute; reflexivity | vm_compute; discriminate
      | exact E].
  - vm_compute in E. discriminate.
Defined.

(** Two pops too many: [pop; pop; pop; pop]. *)
Lemma parse_instructions_stack_ok_witness :
  match parse_instructions [0x26; 0x26; 0x26; 0x26] sample_two with
  | Done _ s' => stack_ok s'
  | Failed _ => False
  end.
Proof.
  destruct (parse_instructions [0x26; 0x26; 0x26; 0x26] sample_two)
    as [[] s' | f] eqn:E.
  - apply (parse_instructions_stack_ok [0x26; 0x26; 0x26; 0x26] sample_two s');
      [reflexivity | exact E].
  - vm_compute in E. discriminate.
Defined.
End witnesses.
