(* ===== verification/ParseLoop.v ===== *)
(** * ParseLoop: labels, operands and the loop over a method body

    The names of labels, the targets of branches, and the loop of
    [parse_instructions], which is proved to cut the code into instructions
    without ever leaving the buffer. *)
From S2P Require Import Prelude Values Opcodes Trees CilState CilDecl EvalStack Records.
From S2P Require Import Program SampleProgram Frame Metadata Calls Statements StaticData.
From S2P Require Import Instr ParseInstr Assembly Reading Sample.
From S2P Require Import Effects StackEffect.

(** ** Hexadecimal names *)

Lemma length_hex_digits lower n x : String.length (hex_digits lower n x) = n.
Proof.
  revert x. induction n as [| n IH]; intros x; cbn -[Z.div Z.modulo]; [done |].
  rewrite string_length_app, IH. cbn. lia.
Qed.

Lemma hex_digit_inj lower a b :
  0 <= a < 16 -> 0 <= b < 16 -> hex_digit lower a = hex_digit lower b -> a = b.
Proof.
  intros Ha Hb. unfold hex_digit.
  destruct lower; repeat case_match; intros E;
    apply (f_equal Ascii.nat_of_ascii) in E;
    rewrite !Ascii.nat_ascii_embedding in E by lia; lia.
Qed.

Lemma hex_digits_inj lower n x y :
  0 <= x < 16 ^ Z.of_nat n -> 0 <= y < 16 ^ Z.of_nat n ->
  hex_digits lower n x = hex_digits lower n y -> x = y.
Proof.
  revert x y. induction n as [| n IH]; intros x y Hx Hy; [cbn in *; lia |].
  replace (Z.of_nat (S n)) with (1 + Z.of_nat n) in * by lia.
  rewrite Z.pow_add_r in * by lia. change (16 ^ 1) with 16 in *.
  cbn -[Z.div Z.modulo]. intros E. apply string_snoc_inj in E as [E1 E2];
    [| by rewrite !length_hex_digits].
  apply hex_digit_inj in E2; [| lia | lia].
  apply IH in E1; [lia | |];
    (split; [lia | apply Z.div_lt_upper_bound; lia]).
Qed.

Lemma hex_length_small x : 0 <= x < 2 ^ 32 -> (hex_length x <= 8)%nat.
Proof.
  intros Hx. unfold hex_length.
  assert (Z.log2 x < 32); [| lia].
  destruct (Z.eq_dec x 0) as [-> |]; [done |].
  apply Z.log2_lt_pow2; lia.
Qed.

Lemma hex_length_large x : 2 ^ 32 <= x -> (9 <= hex_length x)%nat.
Proof.
  intros Hx. unfold hex_length.
  assert (32 <= Z.log2 x); [| lia].
  apply Z.log2_le_pow2; lia.
Qed.

Section labels.
Context `{Host}.

Lemma label_string_small x :
  0 <= x < 2 ^ 32 -> label_string x = ("L_" +:+ hex_digits false 8 x)%string.
Proof.
  intros Hx. unfold label_string. pose proof (hex_length_small x Hx).
  by replace (Nat.max 8 (hex_length x)) with 8%nat by lia.
Qed.

Lemma get_label_name_small x s :
  0 <= x < 2 ^ 32 -> get_label_name x s = Done (label_string x) s.
Proof.
  intros Hx. unfold get_label_name. rewrite label_string_small by done.
  rewrite string_length_app, length_hex_digits. reflexivity.
Qed.

Lemma get_label_name_large x s :
  2 ^ 32 <= x -> get_label_name x s = Failed (Undefined "get_label_name: buffer").
Proof.
  intros Hx. unfold get_label_name, label_string. cbv zeta.
  rewrite string_length_app, length_hex_digits.
  pose proof (hex_length_large x Hx).
  change (String.length "L_") with 2%nat.
  destruct (Nat.leb_spec (2 + Nat.max 8 (hex_length x) + 1) 11); [lia | done].
Qed.

Lemma label_string_inj x y :
  0 <= x < 2 ^ 32 -> 0 <= y < 2 ^ 32 -> label_string x = label_string y -> x = y.
Proof.
  intros Hx Hy. rewrite !label_string_small by done. intros E%string_app_inj.
  by apply hex_digits_inj in E.
Qed.

(** Below 2^32 the name of an offset fills the eleven bytes of its buffer
    exactly, and two offsets never share a name, so a branch and the label it
    goes to meet only if the offsets are equal; from 2^32 on the name does not
    fit. *)
Theorem label_names x y s :
  0 <= x < 2 ^ 32 ->
  get_label_name x s = Done (label_string x) s /\
  String.length (label_string x) = 10%nat /\
  (0 <= y < 2 ^ 32 -> label_string x = label_string y -> x = y) /\
  (2 ^ 32 <= y -> get_label_name y s = Failed (Undefined "get_label_name: buffer")).
Proof.
  intros Hx. split; [by apply get_label_name_small |]. split; [| split].
  - rewrite label_string_small by done. by rewrite string_length_app, length_hex_digits.
  - intros Hy. by apply label_string_inj.
  - apply get_label_name_large.
Qed.
End labels.

Section operands.
Context `{Host, Target, MiddleEnd, Metadata}.

Lemma plain_char_byte b : is_byte b -> char_signed = true -> plain_char b = schar b.
Proof. unfold plain_char. by intros _ ->. Qed.

(** The displacement of a branch, from the end of the instruction. *)
Lemma short_target c b rest offset s :
  is_byte b -> 0 <= offset < 2 ^ 31 -> 0 <= offset + 2 + schar b ->
  parse_instr_arg (c :: b :: rest) IL_OPCODE_ARGS_SHORT_JUMP offset s
  = Done (Arg_label (label_string (offset + 2 + schar b))) s.
Proof.
  intros Hb Ho Hd. pose proof (to_signed_range 8 b ltac:(lia)) as Hs. fold (schar b) in Hs.
  unfold parse_instr_arg, code_byte, mbind, comp_bind.
  change (byte_at (c :: b :: rest) 1) with (Some b). cbn [lift mret comp_ret].
  rewrite long_small, ulong_small by zlia.
  by rewrite get_label_name_small by zlia.
Qed.

(** The operand bytes of an instruction of five bytes. *)
Lemma operand32 c v rest :
  is_byte c -> Forall is_byte rest ->
  IL_READ_UINT32 (c :: le_bytes 4 v ++ rest) 1 = Some (uint32 v).
Proof. intros. apply (IL_READ_UINT32_bytes [c]); [by constructor | done]. Qed.

Lemma long_target c d rest offset s :
  is_byte c -> Forall is_byte rest -> - 2 ^ 31 <= d < 2 ^ 31 ->
  long_bits = 32 \/ 0 <= d ->
  0 <= offset < 2 ^ 31 -> 0 <= offset + 5 + d < 2 ^ 31 ->
  parse_instr_arg (c :: le_bytes 4 d ++ rest) IL_OPCODE_ARGS_LONG_JUMP offset s
  = Done (Arg_label (label_string (offset + 5 + d))) s.
Proof.
  intros Hc Hr Hd Hb Ho Ht. unfold parse_instr_arg. rewrite operand32 by done.
  unfold mbind, comp_bind. cbn [lift mret comp_ret].
  assert (long (uint32 d) = d) as ->.
  { destruct Hb as [Hb | Hb].
    - unfold long, uint32. rewrite Hb. rewrite to_signed_unsigned by lia.
      apply to_signed_small; lia.
    - unfold uint32. rewrite (to_unsigned_small 32) by zlia. apply long_small. zlia. }
  rewrite long_small, ulong_small by zlia. by rewrite get_label_name_small by zlia.
Qed.

(** A branch goes to the label of the instruction at its displacement
    from the end of the branch: for the short form always, for the long form
    where [long] has 32 bits or the branch is forward. *)
Theorem branch_targets c b d rest offset s :
  is_byte c -> is_byte b -> Forall is_byte rest -> 0 <= offset < 2 ^ 31 ->
  (0 <= offset + 2 + schar b ->
   parse_instr_arg (c :: b :: rest) IL_OPCODE_ARGS_SHORT_JUMP offset s
     = Done (Arg_label (label_string (offset + 2 + schar b))) s) /\
  (- 2 ^ 31 <= d < 2 ^ 31 -> long_bits = 32 \/ 0 <= d ->
   0 <= offset + 5 + d < 2 ^ 31 ->
   parse_instr_arg (c :: le_bytes 4 d ++ rest) IL_OPCODE_ARGS_LONG_JUMP offset s
     = Done (Arg_label (label_string (offset + 5 + d))) s).
Proof.
  intros. split; intros; [by apply short_target | by apply long_target].
Qed.

(** Where [long] has 64 bits, the displacement of a long branch is not
    sign-extended, and every backward long branch overflows the buffer of the
    label name instead of reaching its target. *)
Theorem backward_long_branch_lp64 c d rest offset s :
  long_bits = 64 ->
  is_byte c -> Forall is_byte rest -> - 2 ^ 31 <= d < 0 ->
  0 <= offset < 2 ^ 31 -> 0 <= offset + 5 + d ->
  parse_instr_arg (c :: le_bytes 4 d ++ rest) IL_OPCODE_ARGS_LONG_JUMP offset s
  = Failed (Undefined "get_label_name: buffer").
Proof.
  intros Hb Hc Hr Hd Ho Ht. unfold parse_instr_arg. rewrite operand32 by done.
  unfold mbind, comp_bind. cbn [lift mret comp_ret].
  assert (uint32 d = 2 ^ 32 + d) as -> by (unfold uint32, to_unsigned; zlia).
  rewrite long_small by zlia. unfold long, ulong. rewrite Hb.
  rewrite to_signed_small by zlia. rewrite to_unsigned_small by zlia.
  by rewrite get_label_name_large by zlia.
Qed.

(** [ldc.i4.s] pushes its operand sign-extended where plain [char] is
    signed; elsewhere an operand of 128 or more is taken as positive.
    [ldc.i4] is right everywhere. *)
Theorem ldc_operands c b v rest offset s :
  is_byte c -> is_byte b -> Forall is_byte rest -> - 2 ^ 31 <= v < 2 ^ 31 ->
  parse_instr_arg (c :: b :: rest) IL_OPCODE_ARGS_INT8 offset s
    = Done (Arg_tree (INTEGER_CST int32_type_node
                        (if char_signed then schar b else b))) s /\
  parse_instr_arg (c :: le_bytes 4 v ++ rest) IL_OPCODE_ARGS_INT32 offset s
    = Done (Arg_tree (INTEGER_CST int32_type_node v)) s.
Proof.
  intros Hc Hb Hr Hv. unfold parse_instr_arg, code_byte, mbind, comp_bind, build_int_cst.
  change (byte_at (c :: b :: rest) 1) with (Some b). cbn [lift mret comp_ret]. split.
  - unfold plain_char, schar. destruct char_signed; [done |].
    by rewrite (to_unsigned_small 8).
  - rewrite IL_READ_INT32_spec
      by (constructor; [done |]; apply Forall_app; auto using le_bytes_byte).
    rewrite operand32 by done. cbn [fmap option_fmap option_map lift mret comp_ret].
    unfold int32, uint32. rewrite to_signed_unsigned by lia. by rewrite to_signed_small by lia.
Qed.

(** [ldc.r4] is an instruction of five bytes, but its operand is read as
    eight: with less than nine bytes of code left the read leaves the buffer.
    On a host with 64-bit [long], [ldc.r8] is undefined whatever the bytes. *)
Theorem ldc_float_operands code offset s :
  op_size (main_opcode (il_op_value IL_OP_LDC_R4)) = 5 /\
  (Z.of_nat (length code) < 9 ->
   parse_instr_arg code IL_OPCODE_ARGS_FLOAT32 offset s = Failed (Undefined "code")) /\
  (long_bits = 64 ->
   exists what, parse_instr_arg code IL_OPCODE_ARGS_FLOAT64 offset s
     = Failed (Undefined what)).
Proof.
  split; [reflexivity |]. unfold parse_instr_arg, mbind, comp_bind. split.
  - intros Hl. destruct (IL_READ_INT64 code 1) eqn:E; [| done].
    apply read_int64_length in E. lia.
  - intros Hb. destruct (IL_READ_INT64 code 1) eqn:E; cbn [lift mret comp_ret]; [| by eexists].
    unfold target_real, long_words. rewrite Hb. cbn. by eexists.
Qed.

(** No [switch] is ever compiled: with targets, the type of its first
    case constant is not the one asserted; without, the node is built with
    the wrong number of operands. *)
Theorem switch_not_compiled code offset s n s' :
  byte_at code 0 = Some (il_op_value IL_OP_SWITCH) ->
  parse_instr code offset s <> Done n s'.
Proof.
  intros Hc Hd.
  assert (wp any (parse_instr code offset) (fun _ _ => False) s) as Hw.
  { unfold parse_instr, code_byte. rewrite Hc. wp_step. wp_step; [| exact I].
    simplify_eq. wp_step.
    change (parse_instr_switch _ code ?i offset)
      with (a ← parse_instr_arg code (op_args i) offset;
            label_names ← arg_labels a; make_instr_switch label_names).
    repeat first [apply switch_fails | keeps_step]. }
  unfold wp in Hw. by rewrite Hd in Hw.
Qed.

(** ** The size of an instruction *)

Lemma uint32_read_range buf i v : IL_READ_UINT32 buf i = Some v -> 0 <= v < 2 ^ 32.
Proof.
  unfold IL_READ_UINT32. intros Hr.
  repeat match type of Hr with (?o ≫= _) = _ =>
    destruct o; [| discriminate Hr]; cbn [mbind option_bind] in Hr end.
  injection Hr as <-. by apply to_unsigned_range.
Qed.

Lemma special_size_bounds code csize s :
  wp any (get_special_size code csize)
    (fun n s' => s' = s /\ (n = 0 \/ 5 <= n <= csize)) s.
Proof.
  unfold get_special_size, code_byte. wp_step. wp_step; [| exact I].
  repeat (wp_step; try exact I);
    repeat match goal with H : IL_READ_UINT32 _ _ = Some _ |- _ =>
      apply uint32_read_range in H end; split; auto; right; lia.
Qed.

(** What reading an operand needs: the instruction is then in the code. *)
Definition arg_needs (a : il_args) : Z :=
  match a with
  | IL_OPCODE_ARGS_INT8 | IL_OPCODE_ARGS_SHORT_JUMP => 2
  | IL_OPCODE_ARGS_INT32 | IL_OPCODE_ARGS_LONG_JUMP | IL_OPCODE_ARGS_SWITCH => 5
  | IL_OPCODE_ARGS_FLOAT32 | IL_OPCODE_ARGS_FLOAT64 => 9
  | _ => 0
  end.

Lemma byte_reads code i s :
  wp any (code_byte code i) (fun _ _ => i + 1 <= Z.of_nat (length code)) s.
Proof.
  unfold code_byte. wp_step; [| exact I].
  match goal with Hb : byte_at _ _ = _ |- _ => apply byte_at_length in Hb end. lia.
Qed.

Lemma token_reads code s :
  wp any (read_token code) (fun _ _ => 5 <= Z.of_nat (length code)) s.
Proof.
  unfold read_token. wp_step; [| exact I].
  match goal with Hr : IL_READ_UINT32 _ _ = _ |- _ => by apply read_uint32_length in Hr end.
Qed.

(** Nothing more need be known of what follows a read. *)
Lemma wp_after {A} (P : Prop) (m : M A) s : P -> wp any m (fun _ _ => P) s.
Proof. intros HP. eapply wp_mono; [| apply keeps_or_any]. done. Qed.

Lemma arg_reads code a offset s :
  wp any (parse_instr_arg code a offset) (fun _ _ => arg_needs a <= Z.of_nat (length code)) s.
Proof.
  assert (forall A (m : Z -> M A) k n,
    n = k + 1 -> wp any (x ← code_byte code k; m x) (fun _ _ => n <= Z.of_nat (length code)) s)
    as Hbyte.
  { intros A m k n ->. apply wp_bind. eapply wp_mono; [| apply byte_reads].
    intros ? ? ?. by apply wp_after. }
  assert (forall A (m : Z -> M A) o n,
    (forall v, o = Some v -> n <= Z.of_nat (length code)) ->
    wp any (x ← lift "code" o; m x) (fun _ _ => n <= Z.of_nat (length code)) s) as Hread.
  { intros A m o n Ho. apply wp_bind, wp_lift; [| intros; exact I].
    intros v Hv. by apply wp_after, (Ho v). }
  destruct a; cbn [parse_instr_arg arg_needs]; try (apply wp_fail; exact I);
    try (apply wp_ret; lia); try (by apply Hbyte);
    apply Hread; intros v Hv;
    first [ by apply read_uint32_length in Hv | by apply read_int32_length in Hv
          | by apply read_int64_length in Hv ].
Qed.

Ltac reads_done := apply wp_after; lia.

(** What a handler read of the code before it ended. *)
Ltac operand_case :=
  match goal with |- wp _ _ (fun _ _ => ?p <= _) _ =>
    let p' := eval vm_compute in p in change p with p' end;
  cbn [parse_instr_switch parse_instr_1 parse_instr_2 parse_instr_3 parse_instr_4
       parse_instr_5 parse_instr_6 parse_instr_7 parse_instr_8 parse_instr_9
       parse_prefixed_switch parse_prefixed_instr_1 parse_prefixed_instr_2];
  first
    [ reads_done
    | exact I
    | apply wp_bind; eapply wp_mono;
      [| first [apply byte_reads | apply token_reads | apply arg_reads]];
      cbv beta; intros ? ? Hreads;
      repeat match type of Hreads with context [arg_needs ?a] =>
        let v := eval vm_compute in (arg_needs a) in change (arg_needs a) with v in Hreads end;
      reads_done ].

Lemma main_reads op code offset s :
  1 <= Z.of_nat (length code) ->
  wp any (parse_instr_switch (Some op) code (main_opcode (il_op_value op)) offset)
    (fun _ _ => op_size (main_opcode (il_op_value op)) <= Z.of_nat (length code)) s.
Proof.
  intros Hl. destruct op; operand_case.
Qed.

Lemma prefixed_reads op code offset s :
  1 <= Z.of_nat (length code) ->
  wp any (parse_prefixed_switch (Some op) code (prefix_opcode (il_prefix_op_value op)) offset)
    (fun _ _ => op_size (prefix_opcode (il_prefix_op_value op))
                <= 1 + Z.of_nat (length code)) s.
Proof. intros Hl. destruct op; operand_case. Qed.

Lemma main_size op : 0 <= op_size (main_opcode (il_op_value op)).
Proof. destruct op; vm_compute; first [reflexivity | discriminate]. Qed.

(** The one row of size 0 is of an opcode that is not supported. *)
Lemma prefix_size op code i offset s Q :
  0 < op_size (prefix_opcode (il_prefix_op_value op)) \/
  wp any (parse_prefixed_switch (Some op) code i offset) Q s.
Proof. destruct op; first [left; vm_compute; reflexivity | right; exact I]. Qed.

Lemma main_step code offset s :
  Forall is_byte code -> 1 <= Z.of_nat (length code) ->
  wp any (parse_instr code offset) (fun n _ => 0 <= n <= Z.of_nat (length code)) s.
Proof.
  intros Hb Hl. unfold parse_instr, code_byte. wp_step. wp_step; [| exact I]. cbv zeta.
  destruct (il_op_of_byte a) as [op |] eqn:Hop; [| exact I].
  apply il_op_of_byte_value in Hop; [| by eapply byte_at_is_byte]. subst a.
  wp_step. eapply wp_mono; [| by apply main_reads]. cbv beta. intros _ s' Hs.
  apply wp_ret. pose proof (main_size op). lia.
Qed.

Lemma prefixed_step code offset s :
  Forall is_byte code ->
  wp any (parse_prefixed_instr code offset) (fun n _ => 1 <= n <= Z.of_nat (length code)) s.
Proof.
  intros Hb. unfold parse_prefixed_instr, code_byte. cbv zeta. wp_step. wp_step; [| exact I].
  assert (Forall is_byte (drop 1 code)) as Hd by by apply Forall_drop.
  destruct (il_prefix_op_of_byte a) as [op |] eqn:Hop; [| exact I].
  match goal with Hb : byte_at _ _ = _ |- _ => pose proof (byte_at_length _ _ _ Hb) as Hl end.
  rewrite length_drop in Hl.
  apply il_prefix_op_of_byte_value in Hop; [| by eapply byte_at_is_byte]. subst a.
  wp_step. match goal with |- wp _ (parse_prefixed_switch _ ?c ?i ?o) ?Q ?s =>
    destruct (prefix_size op c i o s Q) as [Hp | Hp]; [| exact Hp] end.
  eapply wp_mono; [| apply prefixed_reads; rewrite length_drop; lia].
  cbv beta. intros _ s' Hs. rewrite length_drop in Hs. apply wp_ret. lia.
Qed.

(** Each turn of the loop moves on, and not past the end. *)
Lemma parse_one_size code offset s :
  Forall is_byte code -> 1 <= Z.of_nat (length code) ->
  wp any (parse_one code (Z.of_nat (length code)) offset)
    (fun n _ => 1 <= n <= Z.of_nat (length code)) s.
Proof.
  intros Hb Hl. unfold parse_one, code_byte.
  wp_step. eapply wp_mono; [| apply keeps_or_any]. intros name s1 _. cbv beta.
  wp_step. eapply wp_mono; [| apply keeps_or_any]. intros [] s2 _. cbv beta.
  wp_step. wp_step; [| exact I]. wp_step.
  eapply wp_mono with (Q := fun n _ => 0 <= n <= Z.of_nat (length code)).
  - intros n s' Hn. wp_step; [| wp_step; lia]. wp_step.
    eapply wp_mono; [| by apply special_size_bounds]. intros k s3 [-> Hk].
    wp_step; [exact I | wp_step; lia].
  - wp_step; [| by apply main_step].
    eapply wp_mono; [| by apply prefixed_step]. cbv beta. lia.
Qed.

(** ** The loop cuts the code into instructions *)

(** A method body as a sequence of instructions, each compiled at its own
    offset, with the code from it to the end in view. *)
Inductive parses : list Z -> Z -> cil_state -> cil_state -> Prop :=
| parses_end offset s : parses [] offset s s
| parses_instr instr rest offset s s1 s2 :
    instr <> [] ->
    parse_one (instr ++ rest) (Z.of_nat (length (instr ++ rest))) offset s
      = Done (Z.of_nat (length instr)) s1 ->
    parses rest (offset + Z.of_nat (length instr)) s1 s2 ->
    parses (instr ++ rest) offset s s2.

Lemma parses_nil offset s s' : parses [] offset s s' <-> s' = s.
Proof.
  split; [| intros ->; constructor].
  remember [] as code. destruct 1 as [| instr rest ? ? ? ? Hne]; [done |].
  by destruct instr.
Qed.

Lemma parse_loop_nil fuel offset s : parse_loop fuel [] 0 offset s = Done tt s.
Proof. by destruct fuel. Qed.

(** One turn, with the unsigned arithmetic of the loop resolved. *)
Lemma parse_loop_turn fuel code offset s n s1 :
  Forall is_byte code -> (0 < length code)%nat ->
  0 <= offset -> offset + Z.of_nat (length code) < 2 ^ 31 ->
  parse_one code (Z.of_nat (length code)) offset s = Done n s1 ->
  (1 <= Z.to_nat n <= length code)%nat /\ n = Z.of_nat (Z.to_nat n) /\
  parse_loop (S fuel) code (Z.of_nat (length code)) offset s
  = parse_loop fuel (drop (Z.to_nat n) code)
      (Z.of_nat (length (drop (Z.to_nat n) code))) (offset + n) s1.
Proof.
  intros Hb Hl Ho Hm Hone.
  pose proof (outcome_done _ _ _ _ _ _ Hone
                (parse_one_size code offset s Hb ltac:(lia))) as Hn. cbn beta in Hn.
  split; [lia |]. split; [lia |]. cbn [parse_loop].
  rewrite (proj2 (Z.ltb_lt 0 _)) by lia. unfold mbind, comp_bind. rewrite Hone.
  rewrite length_drop, !ulong_small by zlia. do 2 f_equal. lia.
Qed.

Lemma parse_loop_parses fuel : forall code offset s s',
  Forall is_byte code -> (length code <= fuel)%nat ->
  0 <= offset -> offset + Z.of_nat (length code) < 2 ^ 31 ->
  parse_loop fuel code (Z.of_nat (length code)) offset s = Done tt s' <->
  parses code offset s s'.
Proof.
  induction fuel as [| fuel IH]; intros code offset s s' Hb Hl Ho Hm;
    (destruct (decide (length code = 0%nat)) as [E | E];
     [ apply nil_length_inv in E as ->; cbn [length];
       rewrite parse_loop_nil, parses_nil; split; [by intros [= ->] | by intros ->]
     | try lia ]).
  destruct (parse_one code (Z.of_nat (length code)) offset s) as [n s1 | e] eqn:Hone.
  - destruct (parse_loop_turn fuel code offset s n s1) as (Hn & Hz & ->); [done || lia ..|].
    rewrite IH by (rewrite ?length_drop; auto using Forall_drop; lia).
    split; intros Hp.
    + rewrite <- (take_drop (Z.to_nat n) code) in Hone |- *.
      eapply parses_instr; [| by rewrite length_take, Nat.min_l, <- Hz by lia |].
      * intros Ht%(f_equal length). rewrite length_take in Ht. cbn in Ht. lia.
      * by rewrite length_take, Nat.min_l, <- Hz by lia.
    + inversion Hp as [| instr rest ? ? ? ? Hne Hone' Hp']; subst; [done |].
      rewrite Hone in Hone'. simplify_eq. rewrite Nat2Z.id. by rewrite drop_app_length.
  - split.
    + cbn [parse_loop]. rewrite (proj2 (Z.ltb_lt 0 _)) by lia.
      unfold mbind, comp_bind. by rewrite Hone.
    + intros Hp. inversion Hp as [| instr rest ? ? ? ? Hne Hone' Hp']; subst; [done |].
      congruence.
Qed.

Lemma parse_loop_fuel fuel : forall fuel' code offset s,
  Forall is_byte code -> (length code <= fuel)%nat -> (length code <= fuel')%nat ->
  0 <= offset -> offset + Z.of_nat (length code) < 2 ^ 31 ->
  parse_loop fuel code (Z.of_nat (length code)) offset s
  = parse_loop fuel' code (Z.of_nat (length code)) offset s.
Proof.
  induction fuel as [| fuel IH]; intros fuel' code offset s Hb Hl Hl' Ho Hm;
    (destruct (decide (length code = 0%nat)) as [E | E];
     [ apply nil_length_inv in E as ->; cbn [length]; by rewrite !parse_loop_nil
     | try lia ]).
  destruct fuel' as [| fuel']; [lia |].
  destruct (parse_one code (Z.of_nat (length code)) offset s) as [n s1 | e] eqn:Hone.
  - destruct (parse_loop_turn fuel code offset s n s1) as (Hn & Hz & ->); [done || lia ..|].
    destruct (parse_loop_turn fuel' code offset s n s1) as (_ & _ & ->); [done || lia ..|].
    apply IH; rewrite ?length_drop; auto using Forall_drop; lia.
  - cbn [parse_loop]. rewrite !(proj2 (Z.ltb_lt 0 _)) by lia.
    unfold mbind, comp_bind. by rewrite Hone.
Qed.

(** The instructions before are compiled, and the one that follows fails with
    [e]. *)
Inductive stops : list Z -> Z -> cil_state -> failure -> Prop :=
| stops_here code offset s e :
    code <> [] ->
    parse_one code (Z.of_nat (length code)) offset s = Failed e -> stops code offset s e
| stops_later instr rest offset s s1 e :
    instr <> [] ->
    parse_one (instr ++ rest) (Z.of_nat (length (instr ++ rest))) offset s
      = Done (Z.of_nat (length instr)) s1 ->
    stops rest (offset + Z.of_nat (length instr)) s1 e ->
    stops (instr ++ rest) offset s e.

(** Each turn consumes the instruction it compiled, so that the turns are at most
    as many as the bytes. *)
Lemma parse_loop_ends fuel : forall code offset s,
  Forall is_byte code -> (length code <= fuel)%nat ->
  0 <= offset -> offset + Z.of_nat (length code) < 2 ^ 31 ->
  match parse_loop fuel code (Z.of_nat (length code)) offset s with
  | Done _ s' => parses code offset s s'
  | Failed e => stops code offset s e
  end.
Proof.
  induction fuel as [| fuel IH]; intros code offset s Hb Hl Ho Hm;
    (destruct (decide (length code = 0%nat)) as [E | E];
     [ apply nil_length_inv in E as ->; cbn [length]; rewrite parse_loop_nil; constructor
     | try lia ]).
  destruct (parse_one code (Z.of_nat (length code)) offset s) as [n s1 | e] eqn:Hone.
  - destruct (parse_loop_turn fuel code offset s n s1) as (Hn & Hz & ->); [done || lia ..|].
    specialize (IH (drop (Z.to_nat n) code) (offset + n) s1).
    rewrite length_drop in IH. rewrite length_drop.
    specialize (IH ltac:(by apply Forall_drop) ltac:(lia) ltac:(lia) ltac:(lia)).
    rewrite <- (take_drop (Z.to_nat n) code) in Hone.
    assert (length (take (Z.to_nat n) code) = Z.to_nat n) as Ht
      by (rewrite length_take; lia).
    assert (take (Z.to_nat n) code <> []) as Hne by (intros E'; rewrite E' in Ht; cbn in Ht; lia).
    rewrite Hz, <- Ht in Hone. rewrite take_drop in Hone.
    destruct (parse_loop _ _ _ _ _); rewrite <- (take_drop (Z.to_nat n) code);
      (econstructor; [done | rewrite take_drop; exact Hone |]);
      rewrite Ht, <- Hz; exact IH.
  - cbn [parse_loop]. rewrite (proj2 (Z.ltb_lt 0 _)) by lia.
    unfold mbind, comp_bind. rewrite Hone. constructor; [| done].
    intros ->. done.
Qed.

(** C3: [parse_instructions] compiles the instructions of the body one after
    the other, each at its own offset, and nothing else: when it ends, the code
    was cut into non-empty instructions that fill it exactly, no instruction
    reading past the end, and conversely such a cut is what it does. *)
Theorem parse_instructions_refines code s s' :
  Forall is_byte code -> Z.of_nat (length code) < 2 ^ 31 ->
  parse_instructions code s = Done tt s' <-> parses code 0 s s'.
Proof. intros. unfold parse_instructions. apply parse_loop_parses; done || lia. Qed.

(** C18: the loop ends, whatever the bytes are, after at most as many turns as
    there are bytes: either the whole code has been cut into instructions that
    were compiled, or the loop stops at an instruction that fails, with its
    failure.  The loop itself never runs out of turns, however many more than the
    bytes it is given. *)
Theorem parse_instructions_terminates code s fuel :
  Forall is_byte code -> Z.of_nat (length code) < 2 ^ 31 -> (length code <= fuel)%nat ->
  parse_loop fuel code (Z.of_nat (length code)) 0 s = parse_instructions code s /\
  match parse_instructions code s with
  | Done _ s' => parses code 0 s s'
  | Failed e => stops code 0 s e
  end.
Proof.
  intros Hb Hm Hl. unfold parse_instructions.
  split; [apply parse_loop_fuel; done || lia | by apply parse_loop_ends].
Qed.

End operands.

Section witnesses.
#[local] Existing Instances ILP32 i386 plain_middle_end sample_program sample_types sample_image.

Ltac bytes := repeat constructor; unfold is_byte; lia.

Lemma label_names_witness :
  get_label_name 26 sample = Done "L_0000001A"%string sample.
Proof. apply (label_names 26 0 sample). lia. Defined.

(** [br.s -7] at offset 5 and [br -5] at offset 16. *)
Lemma branch_targets_witness :
  parse_instr_arg [0x2B; 0xF9] IL_OPCODE_ARGS_SHORT_JUMP 5 sample
    = Done (Arg_label "L_00000000"%string) sample /\
  parse_instr_arg [0x38; 0xFB; 0xFF; 0xFF; 0xFF] IL_OPCODE_ARGS_LONG_JUMP 16 sample
    = Done (Arg_label "L_00000010"%string) sample.
Proof.
  split.
  - refine (proj1 (branch_targets 0x2B 0xF9 0 [] 5 sample _ _ _ _) _);
      [bytes .. | lia | vm_compute; discriminate].
  - refine (proj2 (branch_targets 0x38 0 (-5) [] 16 sample _ _ _ _) _ _ _);
      [bytes .. | lia | lia | by left | lia].
Defined.

Lemma backward_long_branch_lp64_witness :
  @parse_instr_arg LP64 _ [0x38; 0xFB; 0xFF; 0xFF; 0xFF] IL_OPCODE_ARGS_LONG_JUMP 16 sample
  = Failed (Undefined "get_label_name: buffer").
Proof.
  apply (@backward_long_branch_lp64 LP64 _ 0x38 (-5) [] 16 sample);
    [reflexivity | bytes | bytes | lia | lia | lia].
Defined.

(** [ldc.i4.s -1] and [ldc.i4 1000]. *)
Lemma ldc_operands_witness :
  parse_instr_arg [0x1F; 0xFF] IL_OPCODE_ARGS_INT8 0 sample
    = Done (Arg_tree (INTEGER_CST int32_type_node (-1))) sample /\
  parse_instr_arg [0x20; 0xE8; 0x03; 0; 0] IL_OPCODE_ARGS_INT32 0 sample
    = Done (Arg_tree (INTEGER_CST int32_type_node 1000)) sample.
Proof.
  split.
  - refine (proj1 (ldc_operands 0x1F 0xFF 0 [] 0 sample _ _ _ _)); [bytes .. | lia].
  - refine (proj2 (ldc_operands 0x20 0 1000 [] 0 sample _ _ _ _)); [bytes .. | lia].
Defined.

Lemma switch_not_compiled_witness :
  ~ exists n s', parse_instr [0x45; 0; 0; 0; 0] 0 sample_two = Done n s'.
Proof.
  intros (n & s' & H). revert H. apply (switch_not_compiled _ 0 sample_two). reflexivity.
Defined.

Lemma parse_instructions_refines_witness :
  match sample_parse [0x02; 0x03; 0x58; 0x2A] with
  | Done _ s' => parses [0x02; 0x03; 0x58; 0x2A] 0 sample s'
  | Failed _ => False
  end.
Proof.
  destruct (sample_parse [0x02; 0x03; 0x58; 0x2A]) as [[] s' | f] eqn:E.
  - apply (parse_instructions_refines [0x02; 0x03; 0x58; 0x2A] sample s');
      [bytes | cbn; lia | exact E].
  - vm_compute in E. discriminate.
Defined.

(** In the second body the last instruction is cut off: the loop stops there. *)
Lemma parse_instructions_terminates_witness :
  let code := [0x02; 0x03; 0x58; 0x2A] in
  parse_loop 100 code (Z.of_nat (length code)) 0 sample = parse_instructions code sample /\
  stops [0x02; 0x20; 0x01] 0 sample (Undefined "code").
Proof.
  cbv zeta. split.
  - refine (proj1 (parse_instructions_terminates [0x02; 0x03; 0x58; 0x2A] sample 100 _ _ _));
      [bytes | cbn; lia | cbn; lia].
  - exact (proj2 (parse_instructions_terminates [0x02; 0x20; 0x01] sample 3
      ltac:(bytes) ltac:(cbn; lia) ltac:(cbn; lia))).
Defined.
End witnesses.
