(* ===== verification/MetaCompress.v ===== *)
(** * MetaCompress: the compressed integers of the metadata blobs

    Models src/gcc/cil/image/compress.c and src/gcc/cil/image/uncompress.c: the
    writer and the reader of the variable-length integers, tokens and signed
    integers that signatures and blobs are made of.

    A writer returns the bytes it stores in [buf]; the C return value is their
    number.  A reader takes and returns the [ILMetaDataRead] cursor; it returns
    [None] where the C code would read outside the buffer. *)
From S2P Require Import Prelude ILMeta.

(** The cursor.  [data] is the buffer from the current position on, [len] the
    number of bytes the reader may still use, [error] the error flag. *)
Record ILMetaDataRead := mk_meta {
  data : list Z;
  len : Z;
  error : bool
}.

(** The bytes the cursor may still use exist, and they are bytes. *)
Definition meta_wf (m : ILMetaDataRead) : Prop :=
  0 <= len m <= Z.of_nat (length (data m)) /\ Forall is_byte (data m).

(** The size of the buffers callers reserve for one item. *)
Definition IL_META_COMPRESS_MAX_SIZE : Z := 5.

Section codec.
Context `{Host}.

(** ** Writers *)

Definition ILMetaCompressData (d : Z) : list Z :=
  if d <? 0x80 then [uchar d]
  else if d <? Z.shiftl 1 14 then
    [uchar (Z.lor (Z.shiftr d 8) 0x80); uchar d]
  else if d <? Z.shiftl 1 29 then
    [uchar (Z.lor (Z.shiftr d 24) 0xC0); uchar (Z.shiftr d 16);
     uchar (Z.shiftr d 8); uchar d]
  else
    [uchar 0xE0; uchar (Z.shiftr d 24); uchar (Z.shiftr d 16);
     uchar (Z.shiftr d 8); uchar d].

Definition ILMetaCompressToken (d : Z) : list Z :=
  let tokenId := Z.land d 0x00FFFFFF in
  let tokenClass := Z.land d 0xFF000000 in
  if tokenClass =? IL_META_TOKEN_TYPE_DEF then
    ILMetaCompressData (ulong (Z.lor (Z.shiftl tokenId 2) 0x00))
  else if tokenClass =? IL_META_TOKEN_TYPE_REF then
    ILMetaCompressData (ulong (Z.lor (Z.shiftl tokenId 2) 0x01))
  else if tokenClass =? IL_META_TOKEN_TYPE_SPEC then
    ILMetaCompressData (ulong (Z.lor (Z.shiftl tokenId 2) 0x02))
  else if tokenClass =? IL_META_TOKEN_BASE_TYPE then
    ILMetaCompressData (ulong (Z.lor (Z.shiftl tokenId 2) 0x03))
  else [].

Definition ILMetaCompressInt (d : Z) : list Z :=
  if 0 <=? d then
    if d <? 0x40 then [uchar (Z.shiftl d 1)]
    else if d <? Z.shiftl 1 13 then
      [uchar (Z.lor (Z.land (Z.shiftr d 7) 0x3F) 0x80); uchar (Z.shiftl d 1)]
    else if d <? Z.shiftl 1 28 then
      [uchar (Z.lor (Z.shiftr d 23) 0xC0); uchar (Z.shiftr d 15);
       uchar (Z.shiftr d 7); uchar (Z.shiftl d 1)]
    else
      [uchar 0xE0; uchar (Z.shiftr d 23); uchar (Z.shiftr d 15);
       uchar (Z.shiftr d 7); uchar (Z.shiftl d 1)]
  else
    if -0x40 <=? d then [Z.lor (Z.land (uchar (Z.shiftl d 1)) 0x7E) 0x01]
    else if - Z.shiftl 1 13 <=? d then
      [uchar (Z.lor (Z.land (Z.shiftr d 7) 0x3F) 0x80);
       uchar (Z.lor (Z.shiftl d 1) 0x01)]
    else if - Z.shiftl 1 29 <=? d then
      [uchar (Z.lor (Z.land (Z.shiftr d 23) 0x1F) 0xC0); uchar (Z.shiftr d 15);
       uchar (Z.shiftr d 7); uchar (Z.lor (Z.shiftl d 1) 0x01)]
    else
      [uchar 0xE1; uchar (Z.shiftr d 23); uchar (Z.shiftr d 15);
       uchar (Z.shiftr d 7); uchar (Z.lor (Z.shiftl d 1) 0x01)].

(** ** Readers *)

Definition meta_error (m : ILMetaDataRead) : Z * ILMetaDataRead :=
  (0, mk_meta (data m) (len m) true).
Definition meta_error_stop (m : ILMetaDataRead) : Z * ILMetaDataRead :=
  (0, mk_meta (data m) 0 true).

(** [*((meta->data)++)], with [--(meta->len)]. *)
Definition meta_next (m : ILMetaDataRead) : option (Z * ILMetaDataRead) :=
  match data m with
  | [] => None
  | ch :: rest => Some (ch, mk_meta rest (len m - 1) (error m))
  end.

(** The fixed-size tail of the longer forms: [n] bytes at once, most
    significant first. *)
Definition meta_take3 (m : ILMetaDataRead) :
    option (Z * Z * Z * ILMetaDataRead) :=
  match data m with
  | ch2 :: ch3 :: ch4 :: rest =>
      Some (ch2, ch3, ch4, mk_meta rest (len m - 3) (error m))
  | _ => None
  end.
Definition meta_take4 (m : ILMetaDataRead) :
    option (Z * Z * Z * Z * ILMetaDataRead) :=
  match data m with
  | ch :: ch2 :: ch3 :: ch4 :: rest =>
      Some (ch, ch2, ch3, ch4, mk_meta rest (len m - 4) (error m))
  | _ => None
  end.

Definition ILMetaUncompressData (meta : ILMetaDataRead) :
    option (Z * ILMetaDataRead) :=
  if 0 <? len meta then
    '(ch, meta) ← meta_next meta;
    if ch <? 0x80 then Some (ch, meta)
    else if Z.land ch 0xC0 =? 0x80 then
      if 0 <? len meta then
        '(ch2, meta) ← meta_next meta;
        Some (Z.lor (Z.shiftl (Z.land ch 0x3F) 8) ch2, meta)
      else Some (meta_error meta)
    else if Z.land ch 0xE0 =? 0xC0 then
      if 3 <=? len meta then
        '(ch2, ch3, ch4, meta) ← meta_take3 meta;
        Some (Z.lor (Z.lor (Z.lor (Z.shiftl (Z.land ch 0x1F) 24)
                                  (Z.shiftl ch2 16))
                           (Z.shiftl ch3 8))
                    ch4, meta)
      else Some (meta_error_stop meta)
    else if Z.land ch 0xF0 =? 0xE0 then
      if 4 <=? len meta then
        '(ch, ch2, ch3, ch4, meta) ← meta_take4 meta;
        Some (Z.lor (Z.lor (Z.lor (Z.shiftl ch 24) (Z.shiftl ch2 16))
                           (Z.shiftl ch3 8))
                    ch4, meta)
      else Some (meta_error_stop meta)
    else Some (meta_error_stop meta)
  else Some (meta_error meta).

Definition ILMetaUncompressToken (meta : ILMetaDataRead) :
    option (Z * ILMetaDataRead) :=
  '(item, meta) ← ILMetaUncompressData meta;
  let type := Z.land item 0x03 in
  if negb (error meta) then
    if type =? 0x00 then
      Some (Z.lor (Z.shiftr item 2) IL_META_TOKEN_TYPE_DEF, meta)
    else if type =? 0x01 then
      Some (Z.lor (Z.shiftr item 2) IL_META_TOKEN_TYPE_REF, meta)
    else if type =? 0x02 then
      Some (Z.lor (Z.shiftr item 2) IL_META_TOKEN_TYPE_SPEC, meta)
    else
      Some (Z.lor (Z.shiftr item 2) IL_META_TOKEN_BASE_TYPE, meta)
  else Some (0, meta).

Definition ILMetaUncompressInt (meta : ILMetaDataRead) :
    option (Z * ILMetaDataRead) :=
  if 0 <? len meta then
    '(ch, meta) ← meta_next meta;
    if Z.land ch 0x80 =? 0x00 then
      if Z.land ch 0x01 =? 0x00 then Some (long (Z.shiftr ch 1), meta)
      else Some (long (schar (Z.lor (Z.shiftr ch 1) 0xC0)), meta)
    else if Z.land ch 0xC0 =? 0x80 then
      if 0 <? len meta then
        '(ch2, meta) ← meta_next meta;
        let value := Z.lor (Z.shiftl (Z.land ch 0x3F) 8) ch2 in
        if Z.land value 0x01 =? 0x00 then
          Some (long (Z.shiftr value 1), meta)
        else Some (long (int32 (Z.lor (Z.shiftr value 1) 0xFFFFE000)), meta)
      else Some (meta_error meta)
    else if Z.land ch 0xE0 =? 0xC0 then
      if 3 <=? len meta then
        '(ch2, ch3, ch4, meta) ← meta_take3 meta;
        let value := Z.lor (Z.lor (Z.lor (Z.shiftl (Z.land ch 0x1F) 24)
                                         (Z.shiftl ch2 16))
                                  (Z.shiftl ch3 8))
                           ch4 in
        if Z.land value 0x01 =? 0x00 then
          Some (long (Z.shiftr value 1), meta)
        else Some (long (int32 (Z.lor (Z.shiftr value 1) 0xF0000000)), meta)
      else Some (meta_error_stop meta)
    else
      if 4 <=? len meta then
        '(ch, ch2, ch3, ch4, meta) ← meta_take4 meta;
        let value := Z.lor (Z.lor (Z.lor (Z.shiftl ch 24) (Z.shiftl ch2 16))
                                  (Z.shiftl ch3 8))
                           ch4 in
        Some (long (int32 value), meta)
      else Some (meta_error_stop meta)
  else Some (meta_error meta).
End codec.

(** ** Facts about the lead byte *)

Lemma lead2_test ch :
  is_byte ch -> (Z.land ch 0xC0 =? 0x80) = (128 <=? ch) && (ch <? 192).
Proof. intros. by_bytes ch. Qed.
Lemma lead4_test ch :
  is_byte ch -> (Z.land ch 0xE0 =? 0xC0) = (192 <=? ch) && (ch <? 224).
Proof. intros. by_bytes ch. Qed.
Lemma lead5_test ch :
  is_byte ch -> (Z.land ch 0xF0 =? 0xE0) = (224 <=? ch) && (ch <? 240).
Proof. intros. by_bytes ch. Qed.
Lemma lead1_test ch :
  is_byte ch -> (Z.land ch 0x80 =? 0x00) = (ch <? 128).
Proof. intros. by_bytes ch. Qed.

Section facts.
Context `{Host}.

(** The writers' output bytes, as arithmetic. *)
Lemma CompressData_spec d :
  0 <= d < 2 ^ 32 ->
  ILMetaCompressData d =
    if d <? 2 ^ 7 then [d]
    else if d <? 2 ^ 14 then [128 + d / 2 ^ 8; d mod 2 ^ 8]
    else if d <? 2 ^ 29 then
      [192 + d / 2 ^ 24; d / 2 ^ 16 mod 2 ^ 8; d / 2 ^ 8 mod 2 ^ 8; d mod 2 ^ 8]
    else [224; d / 2 ^ 24; d / 2 ^ 16 mod 2 ^ 8; d / 2 ^ 8 mod 2 ^ 8; d mod 2 ^ 8].
Proof.
  intros Hd. unfold ILMetaCompressData.
  change (Z.shiftl 1 14) with (2 ^ 14). change (Z.shiftl 1 29) with (2 ^ 29).
  change 0x80 with (2 ^ 7).
  rewrite !shiftr_div by lia. rewrite !uchar_mod.
  destruct (Z.ltb_spec d (2 ^ 7)); [f_equal; lia |].
  destruct (Z.ltb_spec d (2 ^ 14)).
  { lor_at 7. list_zlia. }
  destruct (Z.ltb_spec d (2 ^ 29)).
  { lor_at 6. list_zlia. }
  list_zlia.
Qed.

(** The reader on each form of the encoding. *)
Lemma read_form1 ch rest n e :
  is_byte ch -> ch < 128 -> 0 < n ->
  ILMetaUncompressData (mk_meta (ch :: rest) n e)
  = Some (ch, mk_meta rest (n - 1) e).
Proof.
  intros. unfold ILMetaUncompressData. cbn [len].
  rewrite (proj2 (Z.ltb_lt 0 n)) by lia. cbn.
  by rewrite (proj2 (Z.ltb_lt ch 128)) by lia.
Qed.

Lemma read_form2 ch b rest n e :
  is_byte b -> 128 <= ch < 192 -> 2 <= n ->
  ILMetaUncompressData (mk_meta (ch :: b :: rest) n e)
  = Some ((ch - 128) * 2 ^ 8 + b, mk_meta rest (n - 2) e).
Proof.
  intros Hb Hch Hn. assert (is_byte ch) by (unfold is_byte; lia).
  unfold ILMetaUncompressData. cbn [len].
  rewrite (proj2 (Z.ltb_lt 0 n)) by lia. cbn.
  rewrite (proj2 (Z.ltb_ge ch 128)) by lia. rewrite lead2_test by done.
  rewrite (proj2 (Z.leb_le 128 ch)), (proj2 (Z.ltb_lt ch 192)) by lia.
  cbn -[Z.land Z.lor Z.shiftl Z.sub].
  rewrite (proj2 (Z.ltb_lt 0 (n - 1))) by lia.
  change (Z.land ch 63) with (Z.land ch (Z.ones 6)). rewrite land_low by lia.
  rewrite be2 by (done || zlia). do 3 f_equal; zlia.
Qed.

Lemma read_form4 ch b c d rest n e :
  is_byte b -> is_byte c -> is_byte d -> 192 <= ch < 224 -> 4 <= n ->
  ILMetaUncompressData (mk_meta (ch :: b :: c :: d :: rest) n e)
  = Some ((ch - 192) * 2 ^ 24 + b * 2 ^ 16 + c * 2 ^ 8 + d,
          mk_meta rest (n - 4) e).
Proof.
  intros Hb Hc Hd Hch Hn. assert (is_byte ch) by (unfold is_byte; lia).
  unfold ILMetaUncompressData. cbn [len].
  rewrite (proj2 (Z.ltb_lt 0 n)) by lia. cbn.
  rewrite (proj2 (Z.ltb_ge ch 128)) by lia.
  rewrite lead2_test, lead4_test by done.
  rewrite (proj2 (Z.ltb_ge ch 192)), (proj2 (Z.leb_le 192 ch)) by lia.
  rewrite (proj2 (Z.ltb_lt ch 224)), andb_false_r by lia.
  rewrite (proj2 (Z.leb_le 3 (n - 1))) by lia.
  cbn -[Z.land Z.lor Z.shiftl Z.sub Z.pow].
  change (Z.land ch 31) with (Z.land ch (Z.ones 5)). rewrite land_low by lia.
  rewrite be4 by (done || zlia). do 3 f_equal; zlia.
Qed.

Lemma read_form5 ch a b c d rest n e :
  is_byte a -> is_byte b -> is_byte c -> is_byte d ->
  224 <= ch < 240 -> 5 <= n ->
  ILMetaUncompressData (mk_meta (ch :: a :: b :: c :: d :: rest) n e)
  = Some (a * 2 ^ 24 + b * 2 ^ 16 + c * 2 ^ 8 + d, mk_meta rest (n - 5) e).
Proof.
  intros Ha Hb Hc Hd Hch Hn. assert (is_byte ch) by (unfold is_byte; lia).
  unfold ILMetaUncompressData. cbn [len].
  rewrite (proj2 (Z.ltb_lt 0 n)) by lia. cbn.
  rewrite (proj2 (Z.ltb_ge ch 128)) by lia.
  rewrite lead2_test, lead4_test, lead5_test by done.
  rewrite (proj2 (Z.ltb_ge ch 192)), (proj2 (Z.ltb_ge ch 224)) by lia.
  rewrite !andb_false_r.
  rewrite (proj2 (Z.leb_le 224 ch)), (proj2 (Z.ltb_lt ch 240)) by lia.
  rewrite (proj2 (Z.leb_le 4 (n - 1))) by lia.
  cbn -[Z.land Z.lor Z.shiftl Z.sub Z.pow].
  rewrite be4 by (done || unfold is_byte in *; zlia). do 2 f_equal; f_equal; lia.
Qed.

Lemma read_data_item d rest n e :
  0 <= d < 2 ^ 32 -> 0 <= n ->
  let out := ILMetaCompressData d in
  ILMetaUncompressData
    (mk_meta (out ++ rest) (Z.of_nat (length out) + n) e)
  = Some (d, mk_meta rest n e).
Proof.
  intros Hd Hn. cbv zeta. rewrite CompressData_spec by done.
  destruct (Z.ltb_spec d (2 ^ 7)).
  { cbn [app length]. rewrite read_form1 by (unfold is_byte; zlia).
    do 2 f_equal. f_equal; lia. }
  destruct (Z.ltb_spec d (2 ^ 14)).
  { cbn [app length]. rewrite read_form2 by (unfold is_byte; zlia).
    do 2 f_equal; [| f_equal]; zlia. }
  destruct (Z.ltb_spec d (2 ^ 29)).
  { cbn [app length]. rewrite read_form4 by (unfold is_byte; zlia).
    do 2 f_equal; [| f_equal]; zlia. }
  cbn [app length]. rewrite read_form5 by (unfold is_byte; zlia).
  do 2 f_equal; [| f_equal]; zlia.
Qed.

(** Every 32-bit value is read back as written, and the cursor ends just
    after the item. *)
Theorem uncompress_compress_data d rest n e :
  0 <= d < 2 ^ 32 -> 0 <= n ->
  let out := ILMetaCompressData d in
  ILMetaUncompressData
    (mk_meta (out ++ rest) (Z.of_nat (length out) + n) e)
  = Some (d, mk_meta rest n e).
Proof. apply read_data_item. Qed.

(** What a read may do to the cursor: advance by [k] bytes that it was
    allowed to use, or set the error flag and return 0. *)
Definition read_ok (m : ILMetaDataRead) (v : Z) (m' : ILMetaDataRead) : Prop :=
  exists k : nat,
    data m' = drop k (data m) /\ len m' <= len m - Z.of_nat k /\ meta_wf m' /\
    ((1 <= k)%nat /\ len m' = len m - Z.of_nat k /\ error m' = error m \/
     error m' = true /\ v = 0).

Lemma meta_wf_drop l n e k n' e' :
  meta_wf (mk_meta l n e) -> Z.of_nat k <= n -> 0 <= n' <= n - Z.of_nat k ->
  meta_wf (mk_meta (drop k l) n' e').
Proof.
  intros [Hn Hl] Hk Hn'. unfold meta_wf. cbn in *. rewrite length_drop.
  split; [lia |]. by apply Forall_drop.
Qed.

Lemma read_ok_advance l n e k v :
  meta_wf (mk_meta l n e) -> (1 <= k)%nat -> Z.of_nat k <= n ->
  read_ok (mk_meta l n e) v (mk_meta (drop k l) (n - Z.of_nat k) e).
Proof.
  intros Hwf Hk Hkn. exists k. split; [done |]. split; [cbn; lia |].
  split; [| by left]. apply (meta_wf_drop l n e); [done | lia |].
  destruct Hwf; cbn in *; lia.
Qed.

Lemma read_ok_error l n e k n' :
  meta_wf (mk_meta l n e) -> Z.of_nat k <= n -> 0 <= n' <= n - Z.of_nat k ->
  read_ok (mk_meta l n e) 0 (mk_meta (drop k l) n' true).
Proof.
  intros Hwf Hk Hn'. exists k. split; [done |]. split; [cbn; lia |].
  split; [| by right]. by apply (meta_wf_drop l n e).
Qed.

Lemma meta_wf_cons ch l n e :
  meta_wf (mk_meta (ch :: l) n e) -> is_byte ch /\ Forall is_byte l.
Proof. intros [_ Hl]. by apply Forall_cons. Qed.

(** Reading from a well-formed cursor never leaves the buffer, yields a 32-bit
    value, and either consumes the bytes of one item or raises the error flag
    and returns 0. *)
Lemma uncompress_data_safe m :
  meta_wf m ->
  exists v m', ILMetaUncompressData m = Some (v, m') /\
               0 <= v < 2 ^ 32 /\ read_ok m v m'.
Proof.
  destruct m as [l n e]. intros Hwf. pose proof Hwf as [Hn Hl]. cbn in Hn, Hl.
  destruct (Z.ltb_spec 0 n) as [Hpos | Hz]; cycle 1.
  { unfold ILMetaUncompressData. cbn [len].
    rewrite (proj2 (Z.ltb_ge 0 n)) by lia. eexists _, _. split; [done |].
    split; [zlia |]. apply (read_ok_error l n e 0 n); cbn; (done || lia). }
  destruct l as [| ch l]; [cbn in Hn; lia |].
  apply meta_wf_cons in Hwf as Hb. destruct Hb as [Hch Hrest].
  destruct (Z.ltb_spec ch 128).
  { rewrite read_form1 by done. eexists _, _. split; [done |].
    split; [unfold is_byte in Hch; zlia |].
    apply (read_ok_advance (ch :: l) n e 1); done || lia. }
  destruct (decide (ch < 192 /\ 2 <= n)) as [[? ?] |].
  { destruct l as [| b l]; [cbn in Hn; lia |]. decompose_Forall.
    rewrite read_form2 by (done || lia). eexists _, _. split; [done |].
    unfold is_byte in *. split; [zlia |].
    apply (read_ok_advance (ch :: b :: l) n e 2); done || lia. }
  destruct (decide (192 <= ch < 224 /\ 4 <= n)) as [[? ?] |].
  { destruct l as [| b [| c [| d l]]]; try (cbn in Hn; lia). decompose_Forall.
    rewrite read_form4 by (done || lia). eexists _, _. split; [done |].
    unfold is_byte in *. split; [zlia |].
    apply (read_ok_advance (ch :: b :: c :: d :: l) n e 4); done || lia. }
  destruct (decide (224 <= ch < 240 /\ 5 <= n)) as [[? ?] |].
  { destruct l as [| a [| b [| c [| d l]]]]; try (cbn in Hn; lia).
    decompose_Forall.
    rewrite read_form5 by (done || lia). eexists _, _. split; [done |].
    unfold is_byte in *. split; [zlia |].
    apply (read_ok_advance (ch :: a :: b :: c :: d :: l) n e 5); done || lia. }
  assert (exists n', 0 <= n' <= n - 1 /\
    ILMetaUncompressData (mk_meta (ch :: l) n e)
    = Some (0, mk_meta l n' true)) as (n' & Hn' & ->).
  { unfold ILMetaUncompressData. cbn [len].
    rewrite (proj2 (Z.ltb_lt 0 n)) by lia. cbn -[Z.land Z.lor Z.shiftl Z.sub].
    rewrite (proj2 (Z.ltb_ge ch 128)) by lia.
    rewrite lead2_test, lead4_test, lead5_test by done.
    repeat case_match; try (eexists; split; [|reflexivity]; cbn; lia);
      exfalso; simplify_eq/=; lia. }
  eexists _, _. split; [done |]. split; [zlia |].
  apply (read_ok_error (ch :: l) n e 1 n'); cbn; (done || lia).
Qed.

(** ** Tokens *)

Lemma token_class d :
  0 <= d < 2 ^ 32 -> Z.land d 0xFF000000 = d / 2 ^ 24 * 2 ^ 24.
Proof.
  intros. change 0xFF000000 with (Z.shiftl (Z.ones 8) 24).
  rewrite land_field by lia. zlia.
Qed.

Lemma CompressToken_spec d :
  0 <= d < 2 ^ 32 ->
  ILMetaCompressToken d =
    let id := d mod 2 ^ 24 in
    if d / 2 ^ 24 =? 0x02 then ILMetaCompressData (4 * id)
    else if d / 2 ^ 24 =? 0x01 then ILMetaCompressData (4 * id + 1)
    else if d / 2 ^ 24 =? 0x1B then ILMetaCompressData (4 * id + 2)
    else if d / 2 ^ 24 =? 0x72 then ILMetaCompressData (4 * id + 3)
    else [].
Proof.
  intros Hd. unfold ILMetaCompressToken. rewrite token_class by done.
  change 0x00FFFFFF with (Z.ones 24). rewrite land_low by lia. cbv zeta.
  rewrite shiftl_mul by lia.
  unfold IL_META_TOKEN_TYPE_DEF, IL_META_TOKEN_TYPE_REF,
    IL_META_TOKEN_TYPE_SPEC, IL_META_TOKEN_BASE_TYPE.
  rewrite !(lor_disjoint 2) by zlia. rewrite !ulong_small by zlia.
  assert (forall c, (d / 2 ^ 24 * 2 ^ 24 =? c * 2 ^ 24) = (d / 2 ^ 24 =? c)) as E.
  { intros c. destruct (Z.eqb_spec (d / 2 ^ 24) c) as [-> |].
    - by rewrite Z.eqb_refl.
    - apply Z.eqb_neq. zlia. }
  change 0x02000000 with (0x02 * 2 ^ 24). change 0x01000000 with (0x01 * 2 ^ 24).
  change 0x1B000000 with (0x1B * 2 ^ 24). change 0x72000000 with (0x72 * 2 ^ 24).
  rewrite !E.
  by repeat (case_match; [f_equal; zlia |]).
Qed.

(** Reading back one token item of class [c]. *)
Lemma read_token_item id k c rest n e :
  0 <= id < 2 ^ 24 -> 0 <= k < 4 -> 0 <= n ->
  c = match k with 0 => 0x02 | 1 => 0x01 | 2 => 0x1B | _ => 0x72 end ->
  e = false ->
  let out := ILMetaCompressData (4 * id + k) in
  ILMetaUncompressToken
    (mk_meta (out ++ rest) (Z.of_nat (length out) + n) e)
  = Some (c * 2 ^ 24 + id, mk_meta rest n e).
Proof.
  intros Hid Hk Hn Hc ->. cbv zeta. unfold ILMetaUncompressToken.
  rewrite read_data_item by zlia. cbn -[Z.land Z.lor Z.shiftr Z.pow].
  change (Z.land (4 * id + k) 3) with (Z.land (4 * id + k) (Z.ones 2)).
  rewrite land_low, shiftr_div by lia.
  replace ((4 * id + k) mod 2 ^ 2) with k by zlia.
  replace ((4 * id + k) / 2 ^ 2) with id by zlia.
  assert (k = 0 \/ k = 1 \/ k = 2 \/ k = 3) as [-> | [-> | [-> | ->]]] by lia;
    cbn -[Z.lor Z.pow]; subst c; do 2 f_equal; rewrite Z.lor_comm;
    apply (lor_disjoint 24); zlia || reflexivity.
Qed.

(** A token that was written is read back, and the cursor is behind it. *)
Lemma read_any_token d rest n :
  0 <= d < 2 ^ 32 -> 0 <= n ->
  let out := ILMetaCompressToken d in
  out <> [] ->
  ILMetaUncompressToken
    (mk_meta (out ++ rest) (Z.of_nat (length out) + n) false)
  = Some (d, mk_meta rest n false).
Proof.
  intros Hd Hn. cbv zeta. rewrite CompressToken_spec by done. cbv zeta.
  pose proof (Z.div_mod d (2 ^ 24) ltac:(zlia)) as Hdm.
  assert (0 <= d mod 2 ^ 24 < 2 ^ 24) by zlia.
  repeat (case_match; [match goal with H : (_ =? _) = true |- _ =>
            apply Z.eqb_eq in H as Hc end; intros _ |]); [.. | done].
  - rewrite <- (Z.add_0_r (4 * _)).
    rewrite (read_token_item _ 0 0x02) by (done || lia). do 2 f_equal; lia.
  - rewrite (read_token_item _ 1 0x01) by (done || lia). do 2 f_equal; lia.
  - rewrite (read_token_item _ 2 0x1B) by (done || lia). do 2 f_equal; lia.
  - rewrite (read_token_item _ 3 0x72) by (done || lia). do 2 f_equal; lia.
Qed.

(** Every token of the four classes the writer accepts is read back as
    written (for the others the writer stores nothing). *)
Theorem uncompress_compress_token d rest n :
  0 <= d < 2 ^ 32 -> 0 <= n ->
  let out := ILMetaCompressToken d in
  out <> [] ->
  ILMetaUncompressToken
    (mk_meta (out ++ rest) (Z.of_nat (length out) + n) false)
  = Some (d, mk_meta rest n false).
Proof. apply read_any_token. Qed.

(** ** Signed integers *)

(** The sign lives in the lowest bit of the written value. *)
Definition sign_bit (d : Z) : Z := if 0 <=? d then 0 else 1.

Lemma CompressInt_spec d :
  - 2 ^ 28 <= d < 2 ^ 28 ->
  ILMetaCompressInt d =
    let low := (2 * d + sign_bit d) mod 2 ^ 8 in
    if (- 2 ^ 6 <=? d) && (d <? 2 ^ 6) then [(2 * d + sign_bit d) mod 2 ^ 7]
    else if (- 2 ^ 13 <=? d) && (d <? 2 ^ 13) then
      [128 + d / 2 ^ 7 mod 2 ^ 6; low]
    else
      [192 + d / 2 ^ 23 mod 2 ^ 5; d / 2 ^ 15 mod 2 ^ 8; d / 2 ^ 7 mod 2 ^ 8; low].
Proof.
  intros Hd. unfold ILMetaCompressInt, sign_bit.
  change (Z.shiftl 1 13) with (2 ^ 13). change (Z.shiftl 1 28) with (2 ^ 28).
  change (Z.shiftl 1 29) with (2 ^ 29). change 0x40 with (2 ^ 6).
  change (-0x40) with (- 2 ^ 6).
  change 0x7E with (Z.shiftl (Z.ones 6) 1). rewrite land_field by lia.
  cbv zeta.
  change 0x3F with (Z.ones 6). change 0x1F with (Z.ones 5).
  rewrite !land_low by lia.
  rewrite !(shiftl_mul d) by lia. rewrite !(shiftr_div d) by lia.
  rewrite !(lor_disjoint 1 _ 1) by zlia.
  rewrite !(Z.lor_comm _ 0x80), !(Z.lor_comm _ 0xC0), !uchar_mod.
  destruct (Z.leb_spec 0 d).
  - rewrite (proj2 (Z.leb_le (- 2 ^ 6) d)), (proj2 (Z.leb_le (- 2 ^ 13) d)) by zlia.
    cbn [andb]. destruct (Z.ltb_spec d (2 ^ 6)); [list_zlia |].
    destruct (Z.ltb_spec d (2 ^ 13)).
    { rewrite (lor_disjoint 6 0x80) by zlia. list_zlia. }
    rewrite (proj2 (Z.ltb_lt d (2 ^ 28))) by lia.
    rewrite (lor_disjoint 6 0xC0) by zlia. list_zlia.
  - rewrite (proj2 (Z.ltb_lt d (2 ^ 6))), (proj2 (Z.ltb_lt d (2 ^ 13))) by zlia.
    rewrite !andb_true_r. destruct (Z.leb_spec (- 2 ^ 6) d); [list_zlia |].
    destruct (Z.leb_spec (- 2 ^ 13) d).
    { rewrite (lor_disjoint 6 0x80) by zlia. list_zlia. }
    rewrite (proj2 (Z.leb_le (- 2 ^ 29) d)) by zlia.
    rewrite (lor_disjoint 6 0xC0) by zlia. list_zlia.
Qed.

(** Sign extension of a [k+1]-bit value whose sign is in bit 0. *)
Lemma sign_extend32 v k :
  0 <= k < 32 -> 0 <= v < 2 ^ k ->
  int32 (Z.lor v (2 ^ 32 - 2 ^ k)) = v - 2 ^ k.
Proof.
  intros Hk Hv. pose proof (Z.pow_le_mono_r 2 k 31).
  rewrite Z.lor_comm, (lor_disjoint k) by
    (try lia; replace (2 ^ 32 - 2 ^ k) with ((2 ^ (32 - k) - 1) * 2 ^ k)
       by (rewrite Z.mul_sub_distr_r, <- Z.pow_add_r by lia;
           replace (32 - k + k) with 32 by lia; lia);
     apply Z.mod_mul; lia).
  unfold int32. rewrite (to_signed_eqm 32 _ (v - 2 ^ k)).
  - apply to_signed_small; zlia.
  - replace (2 ^ 32 - 2 ^ k + v) with (v - 2 ^ k + 1 * 2 ^ 32) by lia.
    apply Z_mod_plus_full.
Qed.

Lemma decode_signed v k m :
  1 <= k <= 28 -> 0 <= v < 2 ^ (k + 1) -> m = 2 ^ 32 - 2 ^ k ->
  (if Z.land v 0x01 =? 0x00 then long (Z.shiftr v 1)
   else long (int32 (Z.lor (Z.shiftr v 1) m)))
  = if v mod 2 =? 0 then v / 2 else v / 2 - 2 ^ k.
Proof.
  intros Hk Hv ->. change 1 with (Z.ones 1) at 1. rewrite land_low by lia.
  rewrite shiftr_div by lia. change (2 ^ 1) with 2.
  rewrite Z.pow_add_r in Hv by lia. change (2 ^ 1) with 2 in Hv.
  pose proof (Z.pow_le_mono_r 2 k 28).
  case_match; rewrite ?sign_extend32 by lia; apply long_small; zlia.
Qed.

Lemma read_int1 ch rest n e :
  is_byte ch -> ch < 128 -> 0 < n ->
  ILMetaUncompressInt (mk_meta (ch :: rest) n e)
  = Some (if ch mod 2 =? 0 then ch / 2 else ch / 2 - 2 ^ 6,
          mk_meta rest (n - 1) e).
Proof.
  intros Hch ? ?. unfold ILMetaUncompressInt. cbn [len].
  rewrite (proj2 (Z.ltb_lt 0 n)) by lia. cbn -[Z.land Z.lor Z.shiftr Z.sub Z.pow].
  rewrite lead1_test by done. rewrite (proj2 (Z.ltb_lt ch 128)) by lia.
  assert (E : long (schar (Z.lor (Z.shiftr ch 1) 192)) = schar (Z.lor (Z.shiftr ch 1) 192)).
  { apply long_small. pose proof (to_signed_range 8 (Z.lor (Z.shiftr ch 1) 192)).
    unfold schar. zlia. }
  rewrite E, long_small by (rewrite shiftr_div; unfold is_byte in Hch; zlia).
  assert ((if ch mod 2 =? 0 then ch / 2 else ch / 2 - 2 ^ 6)
    = if ch <? 128 then if Z.land ch 1 =? 0 then Z.shiftr ch 1
      else schar (Z.lor (Z.shiftr ch 1) 192) else
      if ch mod 2 =? 0 then ch / 2 else ch / 2 - 2 ^ 6) as ->
    by by_bytes ch.
  rewrite (proj2 (Z.ltb_lt ch 128)) by lia. by case_match.
Qed.

Lemma read_int2 ch b rest n e :
  is_byte b -> 128 <= ch < 192 -> 2 <= n ->
  ILMetaUncompressInt (mk_meta (ch :: b :: rest) n e)
  = let v := (ch - 128) * 2 ^ 8 + b in
    Some (if v mod 2 =? 0 then v / 2 else v / 2 - 2 ^ 13,
          mk_meta rest (n - 2) e).
Proof.
  intros Hb Hch Hn. assert (is_byte ch) by (unfold is_byte; lia).
  unfold ILMetaUncompressInt. cbn [len].
  rewrite (proj2 (Z.ltb_lt 0 n)) by lia. cbn -[Z.land Z.lor Z.shiftr Z.shiftl Z.sub Z.pow].
  rewrite lead1_test, lead2_test by done.
  rewrite (proj2 (Z.ltb_ge ch 128)), (proj2 (Z.leb_le 128 ch)),
    (proj2 (Z.ltb_lt ch 192)), (proj2 (Z.ltb_lt 0 (n - 1))) by lia.
  cbn [andb]. change (Z.land ch 63) with (Z.land ch (Z.ones 6)).
  rewrite land_low by lia. rewrite be2 by (done || zlia).
  replace (ch mod 2 ^ 6) with (ch - 128) by zlia.
  replace (n - 1 - 1) with (n - 2) by lia.
  rewrite <- (decode_signed _ 13 0xFFFFE000)
    by (reflexivity || unfold is_byte in *; zlia).
  by case_match.
Qed.

Lemma read_int4 ch b c d rest n e :
  is_byte b -> is_byte c -> is_byte d -> 192 <= ch < 224 -> 4 <= n ->
  ILMetaUncompressInt (mk_meta (ch :: b :: c :: d :: rest) n e)
  = let v := (ch - 192) * 2 ^ 24 + b * 2 ^ 16 + c * 2 ^ 8 + d in
    Some (if v mod 2 =? 0 then v / 2 else v / 2 - 2 ^ 28,
          mk_meta rest (n - 4) e).
Proof.
  intros Hb Hc Hd Hch Hn. assert (is_byte ch) by (unfold is_byte; lia).
  unfold ILMetaUncompressInt. cbn [len].
  rewrite (proj2 (Z.ltb_lt 0 n)) by lia. cbn -[Z.land Z.lor Z.shiftr Z.shiftl Z.sub Z.pow].
  rewrite lead1_test, lead2_test, lead4_test by done.
  rewrite (proj2 (Z.ltb_ge ch 128)), (proj2 (Z.ltb_ge ch 192)),
    (proj2 (Z.leb_le 192 ch)), (proj2 (Z.ltb_lt ch 224)), andb_false_r,
    (proj2 (Z.leb_le 3 (n - 1))) by lia.
  cbn [andb]. change (Z.land ch 31) with (Z.land ch (Z.ones 5)).
  rewrite land_low by lia. rewrite be4 by (done || zlia).
  replace (ch mod 2 ^ 5) with (ch - 192) by zlia.
  replace (n - 1 - 3) with (n - 4) by lia.
  rewrite <- (decode_signed _ 28 0xF0000000)
    by (reflexivity || unfold is_byte in *; zlia).
  by case_match.
Qed.

Lemma read_int5 ch a b c d rest n e :
  is_byte a -> is_byte b -> is_byte c -> is_byte d -> 224 <= ch < 256 ->
  5 <= n ->
  ILMetaUncompressInt (mk_meta (ch :: a :: b :: c :: d :: rest) n e)
  = Some (int32 (a * 2 ^ 24 + b * 2 ^ 16 + c * 2 ^ 8 + d), mk_meta rest (n - 5) e).
Proof.
  intros Ha Hb Hc Hd Hch Hn. assert (is_byte ch) by (unfold is_byte; lia).
  unfold ILMetaUncompressInt. cbn [len].
  rewrite (proj2 (Z.ltb_lt 0 n)) by lia.
  cbn -[Z.land Z.lor Z.shiftr Z.shiftl Z.sub Z.pow].
  rewrite lead1_test, lead2_test, lead4_test by done.
  rewrite (proj2 (Z.ltb_ge ch 128)), (proj2 (Z.ltb_ge ch 192)),
    (proj2 (Z.ltb_ge ch 224)), !andb_false_r, (proj2 (Z.leb_le 4 (n - 1))) by lia.
  cbn -[Z.land Z.lor Z.shiftr Z.shiftl Z.sub Z.pow].
  rewrite be4 by (done || unfold is_byte in *; zlia).
  rewrite long_small by (pose proof (to_signed_range 32
    (a * 2 ^ 24 + b * 2 ^ 16 + c * 2 ^ 8 + d)); unfold int32; zlia).
  replace (n - 1 - 4) with (n - 5) by lia. done.
Qed.

(** An integer that was written is read back, and the cursor is behind it. *)
Lemma read_int_item d rest n e :
  - 2 ^ 28 <= d < 2 ^ 28 -> 0 <= n ->
  let out := ILMetaCompressInt d in
  ILMetaUncompressInt
    (mk_meta (out ++ rest) (Z.of_nat (length out) + n) e)
  = Some (d, mk_meta rest n e).
Proof.
  intros Hd Hn. cbv zeta. rewrite CompressInt_spec by done. unfold sign_bit.
  destruct ((- 2 ^ 6 <=? d) && (d <? 2 ^ 6)) eqn:E1; cbn [app length].
  { rewrite read_int1 by (unfold is_byte; repeat case_match; zlia).
    do 2 f_equal; [repeat case_match; zlia | f_equal; lia]. }
  destruct ((- 2 ^ 13 <=? d) && (d <? 2 ^ 13)) eqn:E2; cbn [app length].
  { rewrite read_int2 by (unfold is_byte; repeat case_match; zlia). cbv zeta.
    do 2 f_equal; [repeat case_match; zlia | f_equal; lia]. }
  rewrite read_int4 by (unfold is_byte; repeat case_match; zlia). cbv zeta.
  do 2 f_equal; [repeat case_match; zlia | f_equal; lia].
Qed.

(** Signed integers of 29 bits (sign included) are read back as
    written. *)
Theorem uncompress_compress_int d rest n e :
  - 2 ^ 28 <= d < 2 ^ 28 -> 0 <= n ->
  let out := ILMetaCompressInt d in
  ILMetaUncompressInt
    (mk_meta (out ++ rest) (Z.of_nat (length out) + n) e)
  = Some (d, mk_meta rest n e).
Proof. apply read_int_item. Qed.

(** Where a reader may leave the cursor: behind bytes that it was allowed to
    use. *)
Definition cursor_ok (m m' : ILMetaDataRead) : Prop :=
  meta_wf m' /\ exists k : nat, data m' = drop k (data m) /\ len m' <= len m - Z.of_nat k.

Lemma read_ok_cursor m v m' : read_ok m v m' -> cursor_ok m m'.
Proof. intros (k & Hd & Hl & Hwf & _). split; [done |]. by exists k. Qed.

Lemma uncompress_token_safe m :
  meta_wf m -> exists v m', ILMetaUncompressToken m = Some (v, m') /\ cursor_ok m m'.
Proof.
  intros (v & m' & E & _ & Hm%read_ok_cursor)%uncompress_data_safe.
  unfold ILMetaUncompressToken. rewrite E. cbn -[Z.land Z.lor Z.shiftr].
  repeat case_match; by eexists _, _.
Qed.

(** An integer is a byte, two, four or five of them, or an error. *)
Lemma uncompress_int_safe m :
  meta_wf m -> exists v m', ILMetaUncompressInt m = Some (v, m') /\ cursor_ok m m'.
Proof.
  destruct m as [l n e]. intros Hwf. pose proof Hwf as [Hn Hl]. cbn in Hn, Hl.
  destruct (Z.ltb_spec 0 n) as [Hpos | Hz]; cycle 1.
  { unfold ILMetaUncompressInt. cbn [len]. rewrite (proj2 (Z.ltb_ge 0 n)) by lia.
    eexists _, _. split; [done |]. eapply (read_ok_cursor _ 0), (read_ok_error l n e 0 n); cbn; done || lia. }
  destruct l as [| ch l]; [cbn in Hn; lia |].
  apply meta_wf_cons in Hwf as Hb. destruct Hb as [Hch Hrest].
  destruct (Z.ltb_spec ch 128).
  { rewrite read_int1 by done. eexists _, _. split; [done |].
    eapply (read_ok_cursor _ 0), (read_ok_advance (ch :: l) n e 1); done || lia. }
  destruct (decide (ch < 192 /\ 2 <= n)) as [[? ?] |].
  { destruct l as [| b l]; [cbn in Hn; lia |]. decompose_Forall.
    rewrite read_int2 by (done || lia). eexists _, _. split; [done |].
    eapply (read_ok_cursor _ 0), (read_ok_advance (ch :: b :: l) n e 2); done || lia. }
  destruct (decide (192 <= ch < 224 /\ 4 <= n)) as [[? ?] |].
  { destruct l as [| b [| c [| d l]]]; try (cbn in Hn; lia). decompose_Forall.
    rewrite read_int4 by (done || lia). eexists _, _. split; [done |].
    eapply (read_ok_cursor _ 0), (read_ok_advance (ch :: b :: c :: d :: l) n e 4); done || lia. }
  destruct (decide (224 <= ch /\ 5 <= n)) as [[? ?] |].
  { destruct l as [| a [| b [| c [| d l]]]]; try (cbn in Hn; lia). decompose_Forall.
    unfold is_byte in Hch. rewrite read_int5 by (done || lia). eexists _, _. split; [done |].
    eapply (read_ok_cursor _ 0), (read_ok_advance (ch :: a :: b :: c :: d :: l) n e 5); done || lia. }
  assert (exists n', 0 <= n' <= n - 1 /\
    ILMetaUncompressInt (mk_meta (ch :: l) n e) = Some (0, mk_meta l n' true))
    as (n' & Hn' & ->).
  { unfold ILMetaUncompressInt. cbn [len]. rewrite (proj2 (Z.ltb_lt 0 n)) by lia.
    cbn -[Z.land Z.lor Z.shiftl Z.sub]. rewrite lead1_test, lead2_test, lead4_test by done.
    unfold is_byte in Hch.
    repeat case_match; try (eexists; split; [| reflexivity]; cbn; lia);
      exfalso; simplify_eq/=; lia. }
  eexists _, _. split; [done |].
  eapply (read_ok_cursor _ 0), (read_ok_error (ch :: l) n e 1 n'); cbn; (done || lia).
Qed.

(** No reader leaves the buffer, whatever the bytes: from a well-formed
    cursor each ends with a cursor that is well-formed and not before it. *)
Theorem uncompress_safe m :
  meta_wf m ->
  Forall (fun read => exists v m', read m = Some (v, m') /\ cursor_ok m m')
    [ILMetaUncompressData; ILMetaUncompressToken; ILMetaUncompressInt].
Proof.
  intros Hwf. repeat apply Forall_cons_2; [| | | apply Forall_nil_2].
  - destruct (uncompress_data_safe m Hwf) as (v & m2 & E & _ & Hm%read_ok_cursor).
    by exists v, m2.
  - by apply uncompress_token_safe.
  - by apply uncompress_int_safe.
Qed.

(** The five-byte form does not round-trip: the writer shifts the value
    left by one, the reader does not shift it back. *)
Theorem uncompress_compress_large_int d rest n e :
  2 ^ 28 <= d < 2 ^ 31 -> 0 <= n ->
  let out := ILMetaCompressInt d in
  ILMetaUncompressInt
    (mk_meta (out ++ rest) (Z.of_nat (length out) + n) e)
  = Some (int32 (2 * d), mk_meta rest n e) /\ int32 (2 * d) <> d.
Proof.
  intros Hd Hn. cbv zeta.
  assert (ILMetaCompressInt d = [0xE0; d / 2 ^ 23 mod 256; d / 2 ^ 15 mod 256;
    d / 2 ^ 7 mod 256; (2 * d) mod 256]) as ->.
  { unfold ILMetaCompressInt. change (Z.shiftl 1 13) with (2 ^ 13).
    change (Z.shiftl 1 28) with (2 ^ 28).
    rewrite (proj2 (Z.leb_le 0 d)), (proj2 (Z.ltb_ge d 0x40)),
      (proj2 (Z.ltb_ge d (2 ^ 13))), (proj2 (Z.ltb_ge d (2 ^ 28))) by zlia.
    rewrite !shiftr_div, !shiftl_mul, !uchar_mod by lia. list_zlia. }
  cbn [app length]. rewrite read_int5 by (unfold is_byte; zlia). split.
  - do 2 f_equal; [f_equal; zlia | f_equal; lia].
  - unfold int32, to_signed. zlia.
Qed.

Lemma CompressData_length d :
  (1 <= length (ILMetaCompressData d) <= 5)%nat /\
  Forall is_byte (ILMetaCompressData d).
Proof.
  unfold ILMetaCompressData.
  repeat case_match; (split; [cbn; lia |]); repeat constructor; apply uchar_byte.
Qed.

(** Every writer stores at most [IL_META_COMPRESS_MAX_SIZE] bytes, so the
    callers' fixed buffers are large enough. *)
Theorem compress_buffer_bound d :
  Forall (fun out => Z.of_nat (length out) <= IL_META_COMPRESS_MAX_SIZE /\
                     Forall is_byte out)
    [ILMetaCompressData d; ILMetaCompressToken d; ILMetaCompressInt d].
Proof.
  unfold IL_META_COMPRESS_MAX_SIZE. repeat apply Forall_cons_2; [.. | constructor].
  - pose proof (CompressData_length d) as [? ?]. split; [lia | done].
  - unfold ILMetaCompressToken. repeat case_match;
      try (split; [cbn; lia | constructor]);
      match goal with |- context [ILMetaCompressData ?x] =>
        pose proof (CompressData_length x) as [? ?] end; (split; [lia | done]).
  - unfold ILMetaCompressInt. repeat case_match; (split; [cbn; lia |]);
      repeat constructor; try apply uchar_byte.
    all: change 0x7E with (Z.shiftl (Z.ones 6) 1); rewrite land_field by lia;
      rewrite (lor_disjoint 1) by zlia; unfold uchar, to_unsigned; zlia.
Qed.
End facts.

(** ** The theorems at concrete inputs *)

Lemma uncompress_compress_data_witness :
  0 <= 0x1234 < 2 ^ 32 /\ 0 <= 1 /\
  @ILMetaUncompressData (mk_meta (ILMetaCompressData 0x1234 ++ [7]) 3 false)
  = Some (0x1234, mk_meta [7] 1 false).
Proof.
  split; [lia |]. split; [lia |].
  apply (uncompress_compress_data 0x1234 [7] 1 false); lia.
Defined.

Lemma uncompress_safe_witness :
  meta_wf (mk_meta [0xC0; 1] 2 false) /\
  Forall (fun read => exists v m', read (mk_meta [0xC0; 1] 2 false) = Some (v, m') /\
                                   cursor_ok (mk_meta [0xC0; 1] 2 false) m')
    [ILMetaUncompressData; ILMetaUncompressToken; @ILMetaUncompressInt LP64].
Proof.
  assert (meta_wf (mk_meta [0xC0; 1] 2 false)) as Hwf.
  { split; [cbn; lia |]. repeat constructor; unfold is_byte; lia. }
  split; [exact Hwf |]. apply uncompress_safe. exact Hwf.
Defined.

Lemma uncompress_compress_token_witness :
  @ILMetaCompressToken LP64 0x1B000005 <> [] /\
  ILMetaUncompressToken (mk_meta (@ILMetaCompressToken LP64 0x1B000005 ++ []) 1 false)
  = Some (0x1B000005, mk_meta [] 0 false).
Proof.
  split; [vm_compute; discriminate |].
  apply (@uncompress_compress_token LP64 0x1B000005 [] 0); [lia | lia |].
  vm_compute; discriminate.
Defined.

Lemma uncompress_compress_int_witness :
  - 2 ^ 28 <= -3000 < 2 ^ 28 /\
  @ILMetaUncompressInt ILP32 (mk_meta (ILMetaCompressInt (-3000) ++ []) 2 false)
  = Some (-3000, mk_meta [] 0 false).
Proof.
  split; [lia |]. apply (@uncompress_compress_int ILP32 (-3000) [] 0 false); lia.
Defined.

Lemma uncompress_compress_large_int_witness :
  2 ^ 28 <= 0x10000000 < 2 ^ 31 /\
  @ILMetaUncompressInt ILP32 (mk_meta (ILMetaCompressInt 0x10000000 ++ []) 5 false)
  = Some (int32 0x20000000, mk_meta [] 0 false) /\ int32 0x20000000 <> 0x10000000.
Proof.
  split; [lia |].
  apply (@uncompress_compress_large_int ILP32 0x10000000 [] 0 false); lia.
Defined.
