(* ===== verification/MetaHeader.v ===== *)
(** * MetaHeader: the directory of the metadata section

    Models src/gcc/cil/image/meta_header.c.  The metadata section of an image
    (ECMA-335, II.24.2) starts with a header and a directory of the streams in
    it, which are looked up by name.  A pointer into the section is the list of
    the bytes from it to the end of the section; an access behind the end is
    undefined. *)
From S2P Require Import Prelude Values.

(** The characters of a name. *)
Definition name_bytes (name : string) : list Z :=
  (fun c => Z.of_N (Ascii.N_of_ascii c)) <$> String.list_ascii_of_string name.

(** The arguments that [GetNextEntry] moves along, and those it fills. *)
Record directory := mkDirectory { addr : list Z; lenLeft : nat; offset : Z; numEntries : Z }.
Record meta_entry := mkEntry { entryOffset : Z; entrySize : Z; entryName : list Z }.

Section header.
Context `{Host} {S : Type}.

(** The number of entries and the length of the header, if there is one.  The
    section is what [ILImageGetSection] finds. *)
Definition GetMetadata (section : option (list Z)) : comp S (option (list Z * Z * Z)) :=
  match section with
  | None => mret None
  | Some addr =>
      let len := Z.of_nat (length addr) in
      if 16 <=? len then
        b0 ← lift "addr" (byte_at addr 0);
        b1 ← lift "addr" (byte_at addr 1);
        b2 ← lift "addr" (byte_at addr 2);
        b3 ← lift "addr" (byte_at addr 3);
        if (b0 =? 0x42) && (b1 =? 0x53) && (b2 =? 0x4A) && (b3 =? 0x42) then
          version ← lift "addr" (IL_READ_UINT32 addr 4);
          if negb (version =? 0x00010001) then mret None
          else
            versionLen ← lift "addr" (IL_READ_UINT32 addr 12);
            let versionLen :=
              if negb (versionLen mod 4 =? 0) then ulong (versionLen + (4 - versionLen mod 4))
              else versionLen in
            if ulong (len - 16) <? versionLen then mret None
            else if ulong (ulong (len - 16) - versionLen) <? 4 then mret None
            else
              n ← lift "addr" (IL_READ_UINT16 addr (16 + versionLen + 2));
              mret (Some (addr, 16 + versionLen + 4, n))
        else mret None
      else mret None
  end.

(** Past the name of an entry, up to the zero at its end. *)
Fixpoint skip_name (lenLeft : nat) (addr : list Z) (offset : Z)
    : comp S (list Z * (list Z * nat * Z)) :=
  match lenLeft with
  | O => mret ([], (addr, O, offset))
  | Datatypes.S n =>
      c ← lift "addr" (byte_at addr 0);
      if c =? 0 then mret ([], (addr, lenLeft, offset))
      else
        '(name, rest) ← skip_name n (drop 1 addr) (ulong (offset + 1));
        mret (c :: name, rest)
  end.

(** To the next multiple of four. *)
Fixpoint align_entry (lenLeft : nat) (addr : list Z) (offset : Z) : list Z * nat * Z :=
  match lenLeft with
  | O => (addr, O, offset)
  | Datatypes.S n =>
      if Z.land offset 3 =? 0 then (addr, lenLeft, offset)
      else align_entry n (drop 1 addr) (ulong (offset + 1))
  end.

Definition GetNextEntry (totalLen : Z) (d : directory)
    : comp S (option (meta_entry * directory)) :=
  if numEntries d =? 0 then mret None
  else if (lenLeft d <? 9)%nat then mret None
  else
    extOffset ← lift "addr" (IL_READ_UINT32 (addr d) 0);
    extSize ← lift "addr" (IL_READ_UINT32 (addr d) 4);
    if (totalLen <=? extOffset) || (extSize =? 0) || (totalLen <? ulong (extOffset + extSize))
       || (ulong (extOffset + extSize) <? extOffset) then mret None
    else
      '(name, (addr, leftover, offset)) ←
        skip_name (lenLeft d - 8) (drop 8 (addr d)) (ulong (offset d + 8));
      match leftover with
      | O => mret None
      | Datatypes.S leftover =>
          let '(addr, leftover, offset) := align_entry leftover (drop 1 addr) (ulong (offset + 1)) in
          mret (Some (mkEntry extOffset extSize name,
                      mkDirectory addr leftover offset (numEntries d - 1)))
      end.

(** The loop over the entries: the first of this name. *)
Fixpoint find_name (fuel : nat) (totalLen : Z) (name : list Z) (d : directory)
    : comp S (option meta_entry) :=
  match fuel with
  | O => fail Out_of_fuel
  | Datatypes.S fuel =>
      next ← GetNextEntry totalLen d;
      match next with
      | None => mret None
      | Some (e, d) =>
          if bool_decide (entryName e = name) then mret (Some e)
          else find_name fuel totalLen name d
      end
  end.

(** The entry of this number. *)
Fixpoint find_number (fuel : nat) (totalLen entry : Z) (d : directory)
    : comp S (option meta_entry) :=
  match fuel with
  | O => fail Out_of_fuel
  | Datatypes.S fuel =>
      next ← GetNextEntry totalLen d;
      match next with
      | None => mret None
      | Some (e, d) =>
          if entry =? 0 then mret (Some e) else find_number fuel totalLen (entry - 1) d
      end
  end.

Fixpoint last_offset (fuel : nat) (totalLen : Z) (d : directory) : comp S Z :=
  match fuel with
  | O => fail Out_of_fuel
  | Datatypes.S fuel =>
      next ← GetNextEntry totalLen d;
      match next with
      | None => mret (offset d)
      | Some (_, d) => last_offset fuel totalLen d
      end
  end.

(** The directory behind the header. *)
Definition first_entry (addr : list Z) (headerLen n : Z) : directory :=
  mkDirectory (drop (Z.to_nat headerLen) addr) (length addr - Z.to_nat headerLen) headerLen n.

(** Every turn of the loops takes an entry off the count. *)
Definition entry_fuel (n : Z) : nat := Datatypes.S (Z.to_nat n).

Definition entry_data (addr : list Z) (e : meta_entry) : list Z :=
  take (Z.to_nat (entrySize e)) (drop (Z.to_nat (entryOffset e)) addr).

Context (section : option (list Z)).

(** The bytes of the stream; their number is [*size]. *)
Definition ILImageGetMetaEntry (name : string) : comp S (option (list Z)) :=
  header ← GetMetadata section;
  match header with
  | None => mret None
  | Some (addr, headerLen, n) =>
      e ← find_name (entry_fuel n) (Z.of_nat (length addr)) (name_bytes name)
            (first_entry addr headerLen n);
      mret (entry_data addr <$> e)
  end.

Definition ILImageNumMetaEntries : comp S Z :=
  header ← GetMetadata section;
  mret (match header with None => 0 | Some (_, _, n) => n end).

(** Name, virtual address and bytes of a stream; [virtAddr] is the address of the
    section. *)
Definition ILImageMetaEntryInfo (virtAddr entry : Z) : comp S (option (list Z * Z * list Z)) :=
  header ← GetMetadata section;
  match header with
  | None => mret None
  | Some (addr, headerLen, n) =>
      e ← find_number (entry_fuel n) (Z.of_nat (length addr)) entry
            (first_entry addr headerLen n);
      mret ((fun e => (entryName e, ulong (virtAddr + entryOffset e), entry_data addr e)) <$> e)
  end.

Definition ILImageMetaHeaderSize : comp S Z :=
  header ← GetMetadata section;
  match header with
  | None => mret 0
  | Some (addr, headerLen, n) =>
      last_offset (entry_fuel n) (Z.of_nat (length addr)) (first_entry addr headerLen n)
  end.

(** Without the zeros at the end. *)
Fixpoint trim_version (versionLen : nat) (version : list Z) : comp S nat :=
  match versionLen with
  | O => mret O
  | Datatypes.S n =>
      c ← lift "version" (byte_at version (Z.of_nat n));
      if c =? 0 then trim_version n version else mret versionLen
  end.

Definition ILImageMetaRuntimeVersion : comp S (option (list Z)) :=
  header ← GetMetadata section;
  match header with
  | None => mret None
  | Some (addr, headerLen, _) =>
      let version := drop 16 addr in
      n ← trim_version (Z.to_nat (headerLen - 20)) version;
      mret (match n with O => None | _ => Some (take n version) end)
  end.
End header.

(** ** Computations without effect *)

Section total.
Context {S : Type}.

(** [m] leaves the state alone and has the result [a]; a result in [Q]. *)
Definition gives {A} (m : comp S A) (a : A) : Prop := forall s, m s = Done a s.
Definition total {A} (m : comp S A) (Q : A -> Prop) : Prop := forall s, exists a, m s = Done a s /\ Q a.

Lemma gives_ret {A} (a : A) : gives (mret a) a.
Proof. done. Qed.
Lemma gives_bind {A B} (m : comp S A) (f : A -> comp S B) a b :
  gives m a -> gives (f a) b -> gives (m ≫= f) b.
Proof. intros Hm Hf s. eapply bind_run; [apply Hm | apply Hf]. Qed.
Lemma gives_lift {A} w (o : option A) a : o = Some a -> gives (lift w o) a.
Proof. by intros ->. Qed.

Lemma total_ret {A} (a : A) (Q : A -> Prop) : Q a -> total (mret a) Q.
Proof. intros Ha s. by exists a. Qed.
Lemma total_bind {A B} (m : comp S A) (f : A -> comp S B) P Q :
  total m P -> (forall a, P a -> total (f a) Q) -> total (m ≫= f) Q.
Proof.
  intros Hm Hf s. destruct (Hm s) as (a & Ea & Ha). destruct (Hf a Ha s) as (b & Eb & Hb).
  exists b. split; [by eapply bind_run | done].
Qed.
Lemma total_lift {A} w (o : option A) Q : (exists a, o = Some a /\ Q a) -> total (lift w o) Q.
Proof. intros (a & -> & Ha). by apply total_ret. Qed.
Lemma total_lift_eq {A} w (o : option A) a : o = Some a -> total (lift w o) (fun r => r = a).
Proof. intros ->. by apply total_ret. Qed.
Lemma total_mono {A} (m : comp S A) (P Q : A -> Prop) :
  total m P -> (forall a, P a -> Q a) -> total m Q.
Proof. intros Hm HQ s. destruct (Hm s) as (a & E & Ha). eauto. Qed.
Lemma total_if {A} (b : bool) (m n : comp S A) Q :
  (b = true -> total m Q) -> (b = false -> total n Q) -> total (if b then m else n) Q.
Proof. destruct b; auto. Qed.
End total.

(** Reads of a field that is there. *)
Lemma read16_total buf i :
  0 <= i -> i + 2 <= Z.of_nat (length buf) -> exists v, IL_READ_UINT16 buf i = Some v /\ 0 <= v < 2 ^ 16.
Proof.
  intros. unfold IL_READ_UINT16, _IL_READ_BYTE, _IL_READ_BYTE_SHIFT.
  destruct (byte_at_in_range buf i) as [b0 ->]; [lia |].
  destruct (byte_at_in_range buf (i + 1)) as [b1 ->]; [lia |].
  eexists. split; [done | apply (to_unsigned_range 16); lia].
Qed.
Lemma read32_total buf i :
  0 <= i -> i + 4 <= Z.of_nat (length buf) -> exists v, IL_READ_UINT32 buf i = Some v /\ 0 <= v < 2 ^ 32.
Proof.
  intros. unfold IL_READ_UINT32, _IL_READ_BYTE, _IL_READ_BYTE_SHIFT.
  destruct (byte_at_in_range buf i) as [b0 ->]; [lia |].
  destruct (byte_at_in_range buf (i + 1)) as [b1 ->]; [lia |].
  destruct (byte_at_in_range buf (i + 2)) as [b2 ->]; [lia |].
  destruct (byte_at_in_range buf (i + 3)) as [b3 ->]; [lia |].
  eexists. split; [done | apply (to_unsigned_range 32); lia].
Qed.

Lemma read64_total buf i :
  0 <= i -> i + 8 <= Z.of_nat (length buf) -> exists v, IL_READ_UINT64 buf i = Some v.
Proof.
  intros. unfold IL_READ_UINT64. destruct (read32_total buf i) as (lo & -> & _); [lia | lia |].
  destruct (read32_total buf (i + 4)) as (hi & -> & _); [lia | lia |]. by eexists.
Qed.

(** ** The streams lie in the section *)

Section safe.
Context `{Host} {S : Type}.

Definition directory_ok (d : directory) : Prop :=
  lenLeft d = length (addr d) /\ 0 <= numEntries d.

Definition entry_ok (totalLen : Z) (e : meta_entry) : Prop :=
  0 <= entryOffset e /\ 0 < entrySize e /\ entryOffset e + entrySize e <= totalLen.

Lemma skip_name_total (n : nat) addr offset :
  n = length addr ->
  total (S := S) (skip_name n addr offset) (fun r => r.2.1.2 = length r.2.1.1).
Proof.
  revert addr offset. induction n as [| n IH]; intros addr offset Hn; cbn [skip_name].
  - by apply total_ret.
  - destruct addr as [| c addr]; [done |]. injection Hn as Hn.
    eapply total_bind; [by apply total_lift; exists c; split; [| exact I] |]. intros b _.
    apply total_if; intros _; [apply total_ret; cbn; by rewrite Hn |].
    eapply total_bind; [by apply IH |]. intros [name rest] Hr. by apply total_ret.
Qed.

Lemma align_entry_length n addr offset :
  n = length addr -> (align_entry n addr offset).1.2 = length (align_entry n addr offset).1.1.
Proof.
  revert addr offset. induction n as [| n IH]; intros addr offset Hn; cbn [align_entry]; [done |].
  case_match; [done |]. apply IH. rewrite length_drop. lia.
Qed.

Lemma next_entry_total totalLen d :
  directory_ok d -> 0 <= totalLen < 2 ^ 32 ->
  total (S := S) (GetNextEntry totalLen d) (fun r =>
    forall e d', r = Some (e, d') ->
      directory_ok d' /\ numEntries d' = numEntries d - 1 /\ entry_ok totalLen e).
Proof.
  intros [Hl Hn] Ht. unfold GetNextEntry.
  apply total_if; intros Hz; [by apply total_ret |]. apply Z.eqb_neq in Hz.
  apply total_if; intros Hlen; [by apply total_ret |]. apply Nat.ltb_ge in Hlen.
  eapply total_bind; [apply total_lift, read32_total; lia |]. intros extOffset Ho.
  eapply total_bind; [apply total_lift, read32_total; lia |]. intros extSize Hs.
  apply total_if; intros Hc; [by apply total_ret |].
  rewrite !orb_false_iff, Z.leb_gt, Z.eqb_neq, !Z.ltb_ge in Hc.
  destruct Hc as [[[Hot Hse] Het] Hw].
  eapply total_bind; [apply skip_name_total; rewrite length_drop; lia |].
  intros [name [[rest leftover] offset']] Hr. cbn [fst snd] in Hr.
  destruct leftover as [| leftover]; [by apply total_ret |].
  pose proof (align_entry_length leftover (drop 1 rest) (ulong (offset' + 1))) as Ha.
  destruct (align_entry _ _ _) as [[addr' left'] offset2].
  apply total_ret. intros e d' [= <- <-]. cbn [numEntries lenLeft addr entryOffset entrySize].
  split; [split; [apply Ha; rewrite length_drop; lia | cbn; lia] |]. split; [done |].
  cbv beta in Ho, Hs. unfold entry_ok. cbn [entryOffset entrySize].
  split; [lia |]. split; [lia |].
  assert (ulong (extOffset + extSize) = extOffset + extSize \/
          ulong (extOffset + extSize) = extOffset + extSize - 2 ^ 32) as [E | E]; [| lia | lia].
  unfold ulong, to_unsigned. destruct long_bits_cases as [-> | ->]; [zlia |].
  left. apply Z.mod_small. zlia.
Qed.

Lemma find_name_total fuel totalLen name d :
  directory_ok d -> 0 <= totalLen < 2 ^ 32 -> numEntries d < Z.of_nat fuel ->
  total (S := S) (find_name fuel totalLen name d) (fun r => forall e, r = Some e -> entry_ok totalLen e).
Proof.
  revert d. induction fuel as [| fuel IH]; intros d Hd Ht Hf; [destruct Hd; lia |].
  cbn [find_name]. eapply total_bind; [by apply next_entry_total |].
  intros [[e d'] |] Hr; [| by apply total_ret].
  destruct (Hr e d' eq_refl) as (Hd' & Hn & He).
  case_bool_decide; [apply total_ret; by intros ? [= <-] |]. apply IH; [done | done | lia].
Qed.

Lemma metadata_total section :
  Z.of_nat (length (default [] section)) < 2 ^ 32 ->
  total (S := S) (GetMetadata section) (fun r => forall addr headerLen n,
    r = Some (addr, headerLen, n) ->
    section = Some addr /\ 20 <= headerLen <= Z.of_nat (length addr) /\ 0 <= n < 2 ^ 16).
Proof.
  intros Hlen. destruct section as [addr |]; [| by apply total_ret]. cbn in Hlen.
  unfold GetMetadata. apply total_if; intros H16; [| by apply total_ret]. apply Z.leb_le in H16.
  do 4 (eapply total_bind;
    [apply total_lift; destruct (byte_at_in_range addr) with (i := 0) as [? _]; [lia |];
     edestruct (byte_at_in_range addr) as [b ->]; [| by exists b; split; [| exact I]]; lia |];
    intros ? _).
  apply total_if; intros _; [| by apply total_ret].
  eapply total_bind; [apply total_lift, read32_total; lia |]. intros version _.
  apply total_if; intros _; [by apply total_ret |].
  eapply total_bind; [apply total_lift, read32_total; lia |]. intros versionLen Hv. cbv beta in Hv.
  set (v := if negb _ then _ else _). assert (0 <= v) as Hv0.
  { subst v. case_match; [| lia]. apply to_unsigned_range. pose proof long_bits_ge. lia. }
  rewrite (ulong_small (_ - 16)) by lia.
  apply total_if; intros Hvl; [by apply total_ret |]. apply Z.ltb_ge in Hvl.
  rewrite ulong_small by lia.
  apply total_if; intros Hvr; [by apply total_ret |]. apply Z.ltb_ge in Hvr.
  eapply total_bind; [apply total_lift, read16_total; lia |]. intros n Hn. cbv beta in Hn.
  apply total_ret. intros ? ? ? [= <- <- <-]. split_and!; (done || lia).
Qed.

Lemma first_entry_ok addr headerLen n :
  0 <= headerLen <= Z.of_nat (length addr) -> 0 <= n -> directory_ok (first_entry addr headerLen n).
Proof. intros. split; cbn; [by rewrite length_drop | done]. Qed.

(** A stream is a run of bytes of the section. *)
Definition within (section : option (list Z)) (stream : list Z) : Prop :=
  exists bytes pre post, section = Some bytes /\ bytes = pre ++ stream ++ post /\ stream <> [].

Lemma entry_within addr e :
  entry_ok (Z.of_nat (length addr)) e -> within (Some addr) (entry_data addr e).
Proof.
  intros (Ho & Hs & Hle). unfold entry_data. set (o := Z.to_nat (entryOffset e)).
  set (n := Z.to_nat (entrySize e)). exists addr, (take o addr), (drop n (drop o addr)).
  split; [done |]. split; [by rewrite !take_drop |].
  intros E. apply (f_equal length) in E. rewrite length_take, length_drop in E. cbn in E. lia.
Qed.

(** Whatever the bytes of the metadata section are, looking up a stream
    comes to an end within the number of entries the header states, reads no
    byte outside the section, and finds a stream that lies in the section. *)
Lemma meta_entry_safe section name :
  Z.of_nat (length (default [] section)) < 2 ^ 32 ->
  total (S := S) (ILImageGetMetaEntry section name)
    (fun r => forall stream, r = Some stream -> within section stream).
Proof.
  intros Hlen. unfold ILImageGetMetaEntry. eapply total_bind; [by apply metadata_total |].
  intros [[[addr headerLen] n] |] Hr; [| by apply total_ret].
  destruct (Hr _ _ _ eq_refl) as (-> & Hh & Hn). cbn in Hlen.
  eapply total_bind; [apply find_name_total; [apply first_entry_ok; lia | lia |] |].
  { unfold entry_fuel, first_entry. cbn [numEntries]. lia. }
  intros [e |] He; apply total_ret; [| done]. intros stream [= <-]. by apply entry_within, He.
Qed.
End safe.

(** ** Looking up a stream of a well-formed section *)

Definition pad4 (l : list Z) : list Z := l ++ replicate (Z.to_nat (- Z.of_nat (length l) mod 4)) 0.

Definition entry_bytes (e : meta_entry) : list Z :=
  le_bytes 4 (entryOffset e) ++ le_bytes 4 (entrySize e) ++ pad4 (entryName e ++ [0]).

(** The header of the standard, up to the directory, and the whole section. *)
Definition header_bytes (version : list Z) (reserved flags n : Z) : list Z :=
  [0x42; 0x53; 0x4A; 0x42] ++ le_bytes 4 0x00010001 ++ le_bytes 4 reserved
  ++ le_bytes 4 (Z.of_nat (length (pad4 version))) ++ pad4 version
  ++ le_bytes 2 flags ++ le_bytes 2 n.
Definition section_bytes (version : list Z) (reserved flags : Z) (es : list meta_entry)
    (streams : list Z) : list Z :=
  header_bytes version reserved flags (Z.of_nat (length es))
  ++ @concat Z (entry_bytes <$> es) ++ streams.

(** A name has no zero in it. *)
Definition name_ok (name : list Z) : Prop := Forall (fun c => is_byte c /\ c <> 0) name.

Lemma pad4_length l : Z.of_nat (length (pad4 l)) mod 4 = 0.
Proof. unfold pad4. rewrite length_app, length_replicate. lia. Qed.

Lemma pad4_bytes l : Forall is_byte l -> Forall is_byte (pad4 l).
Proof. intros Hl. apply Forall_app_2; [done |]. by apply Forall_replicate. Qed.

Lemma name_ok_bytes name : name_ok name -> Forall is_byte (name ++ [0]).
Proof.
  intros Hn. apply Forall_app_2; [| by repeat constructor].
  eapply Forall_impl; [exact Hn |]. by intros c [? _].
Qed.

Lemma entry_bytes_byte e : name_ok (entryName e) -> Forall is_byte (entry_bytes e).
Proof.
  intros Hn. unfold entry_bytes. rewrite !Forall_app.
  split_and!; auto using le_bytes_byte, pad4_bytes, name_ok_bytes.
Qed.

Lemma entries_byte es :
  Forall (fun e => name_ok (entryName e)) es -> Forall is_byte (@concat Z (entry_bytes <$> es)).
Proof.
  induction 1; cbn [fmap list_fmap concat]; [done |].
  by apply Forall_app_2; [apply entry_bytes_byte |].
Qed.

Lemma entry_bytes_length e : Z.of_nat (length (entry_bytes e)) mod 4 = 0.
Proof.
  unfold entry_bytes. pose proof (pad4_length (entryName e ++ [0])).
  rewrite !length_app, !length_le_bytes in *. lia.
Qed.

(** Reads at the start of what is left. *)
Lemma read32_head v rest : Forall is_byte rest -> IL_READ_UINT32 (le_bytes 4 v ++ rest) 0 = Some (uint32 v).
Proof. intros Hr. apply (IL_READ_UINT32_bytes [] v rest); done. Qed.
Lemma read16_head v rest : Forall is_byte rest -> IL_READ_UINT16 (le_bytes 2 v ++ rest) 0 = Some (uint16 v).
Proof. intros Hr. apply (IL_READ_UINT16_bytes [] v rest); done. Qed.

(** Reads behind what is known. *)
Lemma read32_at buf pre v post i :
  buf = pre ++ le_bytes 4 v ++ post -> i = Z.of_nat (length pre) ->
  Forall is_byte pre -> Forall is_byte post -> IL_READ_UINT32 buf i = Some (uint32 v).
Proof. intros -> -> Hpre Hpost. by apply IL_READ_UINT32_bytes. Qed.
Lemma read16_at buf pre v post i :
  buf = pre ++ le_bytes 2 v ++ post -> i = Z.of_nat (length pre) ->
  Forall is_byte pre -> Forall is_byte post -> IL_READ_UINT16 buf i = Some (uint16 v).
Proof. intros -> -> Hpre Hpost. by apply IL_READ_UINT16_bytes. Qed.

Section found.
Context `{Host} {S : Type}.

Lemma skip_name_spec name rest offset :
  name_ok name -> 0 <= offset -> offset + Z.of_nat (length name) < 2 ^ 32 ->
  gives (S := S) (skip_name (length (name ++ 0 :: rest)) (name ++ 0 :: rest) offset)
    (name, (0 :: rest, length (0 :: rest), offset + Z.of_nat (length name))).
Proof.
  intros Hn. revert offset. induction Hn as [| c name [Hc Hc0] Hn IH]; intros offset Ho Hlt.
  - cbn [app length]. rewrite Z.add_0_r. apply gives_ret.
  - cbn [app length skip_name] in *. eapply gives_bind; [by apply gives_lift |].
    rewrite (proj2 (Z.eqb_neq c 0)) by done. rewrite ulong_small by lia.
    eapply gives_bind; [apply IH; lia |]. cbv beta iota.
    replace (offset + 1 + Z.of_nat (length name)) with (offset + Z.of_nat (Datatypes.S (length name))) by lia.
    apply gives_ret.
Qed.

Lemma align_entry_spec k rest offset :
  0 <= offset -> offset + Z.of_nat k < 2 ^ 32 -> Z.of_nat k = - offset mod 4 ->
  align_entry (length (replicate k 0 ++ rest)) (replicate k 0 ++ rest) offset
  = (rest, length rest, offset + Z.of_nat k).
Proof.
  revert offset. induction k as [| k IH]; intros offset Ho Hlt Hk; cbn [replicate app length align_entry].
  - rewrite Z.add_0_r. destruct rest; [done |]. cbn [length align_entry].
    change 3 with (Z.ones 2). rewrite land_low by lia. change (2 ^ 2) with 4.
    by replace (offset mod 4) with 0 by lia.
  - change 3 with (Z.ones 2). rewrite land_low by lia. change (2 ^ 2) with 4.
    rewrite (proj2 (Z.eqb_neq (offset mod 4) 0)) by lia. rewrite ulong_small by lia.
    cbn [drop]. rewrite IH by lia. f_equal. lia.
Qed.

Lemma next_entry_spec totalLen e rest offset n :
  entry_ok totalLen e -> totalLen < 2 ^ 32 -> name_ok (entryName e) -> Forall is_byte rest ->
  0 <= offset -> offset mod 4 = 0 -> offset + Z.of_nat (length (entry_bytes e ++ rest)) < 2 ^ 32 ->
  n <> 0 ->
  gives (S := S) (GetNextEntry totalLen
      (mkDirectory (entry_bytes e ++ rest) (length (entry_bytes e ++ rest)) offset n))
    (Some (e, mkDirectory rest (length rest) (offset + Z.of_nat (length (entry_bytes e))) (n - 1))).
Proof.
  intros (Ho & Hs & Hle) Ht Hname Hrest Hoff Hal Hlt Hn. unfold GetNextEntry.
  cbn [addr lenLeft numEntries MetaHeader.offset]. rewrite (proj2 (Z.eqb_neq n 0)) by done.
  set (k := Z.to_nat (- Z.of_nat (length (entryName e ++ [0])) mod 4)).
  assert (entry_bytes e ++ rest = le_bytes 4 (entryOffset e) ++ le_bytes 4 (entrySize e)
    ++ entryName e ++ 0 :: replicate k 0 ++ rest) as E.
  { unfold entry_bytes, pad4. rewrite <- !app_assoc. done. }
  assert (length (entry_bytes e) = 8 + length (entryName e) + 1 + k)%nat as El.
  { unfold entry_bytes, pad4. fold k. rewrite !length_app, !length_le_bytes, length_replicate. cbn. lia. }
  assert (Forall is_byte (entryName e ++ 0 :: replicate k 0 ++ rest)) as Hb.
  { apply Forall_app_2; [eapply Forall_impl; [exact Hname |]; by intros c [? _] |].
    constructor; [done |]. apply Forall_app_2; [by apply Forall_replicate | done]. }
  rewrite length_app in Hlt |- *. rewrite E.
  rewrite (proj2 (Nat.ltb_ge _ 9)) by lia.
  eapply gives_bind; [apply gives_lift, read32_head; apply Forall_app_2; [apply le_bytes_byte | done] |].
  eapply gives_bind.
  { apply gives_lift. pose proof (IL_READ_UINT32_bytes (le_bytes 4 (entryOffset e)) (entrySize e)
      (entryName e ++ 0 :: replicate k 0 ++ rest)) as Hr. rewrite length_le_bytes in Hr.
    apply Hr; [apply le_bytes_byte | done]. }
  rewrite !uint32_small, ulong_small by lia.
  rewrite (proj2 (Z.leb_gt _ _)), (proj2 (Z.eqb_neq (entrySize e) 0)), !(proj2 (Z.ltb_ge _ _)) by lia.
  cbn [orb].
  replace (drop 8 _) with (entryName e ++ 0 :: replicate k 0 ++ rest)
    by (rewrite app_assoc; symmetry; apply drop_app_length';
        by rewrite length_app, !length_le_bytes).
  replace (length (entry_bytes e) + length rest - 8)%nat
    with (length (entryName e ++ 0 :: replicate k 0 ++ rest))
    by (rewrite El, length_app; cbn [length]; rewrite length_app, length_replicate; lia).
  rewrite ulong_small by lia.
  eapply gives_bind; [apply skip_name_spec; (done || lia) |]. cbn [length drop].
  rewrite ulong_small by lia. rewrite align_entry_spec; [| lia | lia |].
  - replace (offset + 8 + Z.of_nat (length (entryName e)) + 1 + Z.of_nat k)
      with (offset + Z.of_nat (length (entry_bytes e))) by lia.
    destruct e. apply gives_ret.
  - unfold k. rewrite length_app. cbn [length]. lia.
Qed.

(** The search is the one in the list of the entries. *)
Lemma find_name_spec fuel totalLen name es streams offset :
  Forall (fun e => entry_ok totalLen e /\ name_ok (entryName e)) es -> totalLen < 2 ^ 32 ->
  Forall is_byte streams -> 0 <= offset -> offset mod 4 = 0 ->
  let bytes := @concat Z (entry_bytes <$> es) ++ streams in
  offset + Z.of_nat (length bytes) < 2 ^ 32 -> (length es < fuel)%nat ->
  gives (S := S) (find_name fuel totalLen name
      (mkDirectory bytes (length bytes) offset (Z.of_nat (length es))))
    (List.find (fun e => bool_decide (entryName e = name)) es).
Proof.
  intros Hes Ht Hst. revert fuel offset.
  induction Hes as [| e es [He Hn] Hes IH]; intros fuel offset Ho Hal bytes Hlt Hf;
    (destruct fuel as [| fuel]; [cbn in Hf; lia |]); cbn [find_name].
  - eapply gives_bind; apply gives_ret.
  - subst bytes. cbn [fmap list_fmap concat length List.find] in *. rewrite <- app_assoc in *.
    assert (Forall is_byte (@concat Z (entry_bytes <$> es) ++ streams)) as Hb.
    { apply Forall_app_2; [| done]. apply entries_byte. eapply Forall_impl; [exact Hes |].
      by intros ? [_ ?]. }
    eapply gives_bind; [apply next_entry_spec; (done || lia) |]. cbv beta iota.
    case_bool_decide; [apply gives_ret |].
    replace (Z.of_nat (Datatypes.S (length es)) - 1) with (Z.of_nat (length es)) by lia.
    rewrite length_app in Hlt. pose proof (entry_bytes_length e). apply IH; lia.
Qed.

Lemma metadata_spec version reserved flags n rest :
  Forall is_byte version -> Forall is_byte rest -> 0 <= n < 2 ^ 16 ->
  Z.of_nat (length (header_bytes version reserved flags n ++ rest)) < 2 ^ 32 ->
  let bytes := header_bytes version reserved flags n ++ rest in
  gives (S := S) (GetMetadata (Some bytes))
    (Some (bytes, Z.of_nat (length (header_bytes version reserved flags n)), n)).
Proof.
  intros Hv Hr Hn Hlen bytes. set (v := Z.of_nat (length (pad4 version))).
  assert (Z.of_nat (length (header_bytes version reserved flags n)) = 16 + v + 4) as Eh.
  { unfold header_bytes, v. rewrite !length_app, !length_le_bytes. cbn [length]. lia. }
  pose proof (pad4_length version) as Hp. fold v in Hp. rewrite length_app in Hlen.
  pose proof (pad4_bytes version Hv) as Hpv.
  set (magic := [0x42; 0x53; 0x4A; 0x42]).
  assert (Forall is_byte magic) as Hm by (repeat constructor; unfold is_byte; lia).
  assert (forall k x, Forall is_byte (le_bytes k x)) as Hle by (intros; apply le_bytes_byte).
  assert (Z.of_nat (length bytes) = 20 + v + Z.of_nat (length rest)) as El
    by (unfold bytes; rewrite length_app; lia).
  unfold GetMetadata. rewrite (proj2 (Z.leb_le 16 _)) by lia.
  do 4 (eapply gives_bind; [by apply gives_lift |]). cbn [Z.eqb Pos.eqb andb].
  eapply gives_bind.
  { apply gives_lift, (read32_at _ magic 0x00010001 (le_bytes 4 reserved ++ le_bytes 4 v
      ++ pad4 version ++ le_bytes 2 flags ++ le_bytes 2 n ++ rest)); [| done | done |].
    - unfold bytes, header_bytes. by rewrite <- !app_assoc.
    - rewrite !Forall_app. auto 10. }
  change (negb (uint32 0x00010001 =? 0x00010001)) with false. cbv iota.
  eapply gives_bind.
  { apply gives_lift, (read32_at _ (magic ++ le_bytes 4 0x00010001 ++ le_bytes 4 reserved) v
      (pad4 version ++ le_bytes 2 flags ++ le_bytes 2 n ++ rest)).
    - unfold bytes, header_bytes. by rewrite <- !app_assoc.
    - by rewrite !length_app, !length_le_bytes.
    - rewrite !Forall_app. auto 10.
    - rewrite !Forall_app. auto 10. }
  rewrite uint32_small by lia. rewrite Hp. cbn [Z.eqb negb]. cbv zeta.
  rewrite !ulong_small by (rewrite ?ulong_small; lia). rewrite !(proj2 (Z.ltb_ge _ _)) by lia.
  eapply gives_bind.
  { apply gives_lift, (read16_at _ (magic ++ le_bytes 4 0x00010001 ++ le_bytes 4 reserved
      ++ le_bytes 4 v ++ pad4 version ++ le_bytes 2 flags) n rest).
    - unfold bytes, header_bytes. by rewrite <- !app_assoc.
    - rewrite !length_app, !length_le_bytes. fold magic. unfold v. change (length magic) with 4%nat. lia.
    - rewrite !Forall_app. auto 10.
    - done. }
  unfold uint16. rewrite to_unsigned_small, Eh by lia. apply gives_ret.
Qed.

(** C34: in a section laid out as the standard says, looking up a name gives the
    bytes of the first stream of that name, and nothing if there is none. *)
Theorem meta_entry_found version reserved flags es streams name :
  let bytes := section_bytes version reserved flags es streams in
  Forall is_byte version -> Forall is_byte streams -> Z.of_nat (length bytes) < 2 ^ 32 ->
  Forall (fun e => entry_ok (Z.of_nat (length bytes)) e /\ name_ok (entryName e)) es ->
  Z.of_nat (length es) < 2 ^ 16 ->
  gives (S := S) (ILImageGetMetaEntry (Some bytes) name)
    (entry_data bytes <$> List.find (fun e => bool_decide (entryName e = name_bytes name)) es).
Proof.
  intros bytes Hv Hst Hlen Hes Hn.
  assert (Forall is_byte (@concat Z (entry_bytes <$> es) ++ streams)) as Hb.
  { apply Forall_app_2; [| done]. apply entries_byte. eapply Forall_impl; [exact Hes |].
    by intros ? [_ ?]. }
  assert (Z.of_nat (length (header_bytes version reserved flags (Z.of_nat (length es)))) mod 4 = 0) as Hh.
  { unfold header_bytes. rewrite !length_app, !length_le_bytes. cbn [length].
    pose proof (pad4_length version). lia. }
  unfold ILImageGetMetaEntry. unfold bytes, section_bytes in *.
  set (rest := @concat Z (entry_bytes <$> es) ++ streams) in *.
  eapply gives_bind; [apply metadata_spec; (done || lia) |]. cbv beta iota.
  rewrite length_app in Hlen.
  eapply gives_bind; [| apply gives_ret]. unfold first_entry. rewrite Nat2Z.id, drop_app_length.
  replace (length (_ ++ rest) - _)%nat with (length rest) by (rewrite length_app; lia).
  apply find_name_spec; [done | rewrite length_app; lia | done | lia | done | fold rest; lia |].
  unfold entry_fuel. lia.
Qed.
End found.

(** ** An example *)

(** Two streams of eight and four bytes behind the directory. *)
Definition sample_streams : list meta_entry :=
  [mkEntry 52 8 (name_bytes "#~"); mkEntry 60 4 (name_bytes "#Blob")].
Definition sample_section : list Z :=
  section_bytes (name_bytes "v1") 0 0 sample_streams (replicate 8 7 ++ [0; 1; 42; 0]).

Lemma sample_section_ok :
  Forall is_byte (name_bytes "v1") /\ Forall is_byte (replicate 8 7 ++ [0; 1; 42; 0]) /\
  Z.of_nat (length sample_section) < 2 ^ 32 /\
  Forall (fun e => entry_ok (Z.of_nat (length sample_section)) e /\ name_ok (entryName e)) sample_streams.
Proof.
  unfold entry_ok, name_ok, is_byte. split; [| split; [| split]];
    apply (bool_decide_unpack _); vm_compute; exact I.
Qed.

Lemma meta_entry_found_witness :
  gives (S := unit) (@ILImageGetMetaEntry LP64 unit (Some sample_section) "#Blob") (Some [0; 1; 42; 0]).
Proof.
  destruct sample_section_ok as (Hv & Hs & Hl & He).
  apply (@meta_entry_found LP64 unit (name_bytes "v1") 0 0 sample_streams
    (replicate 8 7 ++ [0; 1; 42; 0]) "#Blob" Hv Hs Hl He). by vm_compute.
Defined.
