(* ===== verification/Exceptions.v ===== *)
(** * Exceptions: the exception handlers of a method

    Models [ILMethodGetExceptions] of src/gcc/cil/image/member.c, which reads the sections
    behind the code of a method (ECMA-335, II.25.4.5); the Java branch is not compiled in.
    The sections that the standard lays out are read back, and no bytes lead out of the
    section of the image. *)
From S2P Require Import Prelude Values ILTypes Program SampleProgram MetaHeader MethodCode MethodHeader.

(** [struct _tagILException], without the fields for users of the library. *)
Record ILException := mkException {
  flags : Z;
  tryOffset : Z;
  tryLength : Z;
  handlerOffset : Z;
  handlerLength : Z;
  extraArg : Z
}.

(** The twelve bytes of a clause, and the twenty-four. *)
Definition tiny_clause (addr : list Z) (posn : Z) : option ILException :=
  flags ← IL_READ_UINT16 addr posn;
  tryOffset ← IL_READ_UINT16 addr (posn + 2);
  tryLength ← byte_at addr (posn + 4);
  handlerOffset ← IL_READ_UINT16 addr (posn + 5);
  handlerLength ← byte_at addr (posn + 7);
  extraArg ← IL_READ_UINT32 addr (posn + 8);
  Some (mkException flags tryOffset tryLength handlerOffset handlerLength extraArg).
Definition fat_clause (addr : list Z) (posn : Z) : option ILException :=
  flags ← IL_READ_UINT32 addr posn;
  tryOffset ← IL_READ_UINT32 addr (posn + 4);
  tryLength ← IL_READ_UINT32 addr (posn + 8);
  handlerOffset ← IL_READ_UINT32 addr (posn + 12);
  handlerLength ← IL_READ_UINT32 addr (posn + 16);
  extraArg ← IL_READ_UINT32 addr (posn + 20);
  Some (mkException flags tryOffset tryLength handlerOffset handlerLength extraArg).

(** A failure is an access outside of [addr]. *)
Definition lift_read {A} (o : option A) : failure + A :=
  match o with Some a => inr a | None => inl (Undefined "addr") end.
#[local] Instance failure_ret : MRet (sum failure) := fun A a => inr a.
#[local] Instance failure_bind : MBind (sum failure) := fun A B f m =>
  match m with inl e => inl e | inr a => f a end.

Section exceptions.
Context `{Host}.

(** The loop over the clauses of [size] bytes each. *)
Fixpoint read_clauses (fuel : nat) (size : Z) (clause : list Z -> Z -> option ILException)
    (addr : list Z) (sectSize posn : Z) : failure + list ILException :=
  if ulong (posn + size) <=? sectSize then
    match fuel with
    | O => inl Out_of_fuel
    | S fuel =>
        e ← lift_read (clause addr posn);
        rest ← read_clauses fuel size clause addr sectSize (ulong (posn + size));
        mret (e :: rest)
    end
  else mret [].

(** The header of a section: kind, size and whether it is a small one. *)
Definition section_header (addr : list Z) : option (Z * Z * bool) :=
  kind ← byte_at addr 0;
  b1 ← byte_at addr 1;
  if Z.land kind 0x40 =? 0 then Some (kind, b1, true)
  else
    b2 ← byte_at addr 2;
    b3 ← byte_at addr 3;
    Some (kind, Z.lor (Z.lor b1 (Z.shiftl b2 8)) (Z.shiftl b3 16), false).

(** The loop over the sections; [addr] is the bytes from the pointer on. *)
Fixpoint read_section_list (fuel : nat) (moreSections : bool) (addr : list Z) (len rva : Z)
    : failure + list ILException :=
  if moreSections then
    match fuel with
    | O => inl Out_of_fuel
    | S fuel =>
        let adjust := if Z.land rva 3 =? 0 then 0 else 4 - Z.land rva 3 in
        if len <? adjust then mret []
        else
          let addr := drop (Z.to_nat adjust) addr in
          let len := len - adjust in
          let rva := ulong (rva + adjust) in
          if len <? 4 then mret []
          else
            '(kind, sectSize, isTiny) ← lift_read (section_header addr);
            let moreSections := negb (Z.land kind 0x80 =? 0) in
            if (sectSize <? 4) || (len <? sectSize) then mret []
            else
              let kind := Z.land kind 0x3F in
              let addr := drop 4 addr in
              let sectSize := sectSize - 4 in
              es ← (if (kind =? 1) && isTiny then
                      read_clauses (Z.to_nat sectSize) 12 tiny_clause addr sectSize 0
                    else if (kind =? 1) && negb isTiny then
                      read_clauses (Z.to_nat sectSize) 24 fat_clause addr sectSize 0
                    else mret []);
              rest ← read_section_list fuel moreSections (drop (Z.to_nat sectSize) addr)
                       (len - 4 - sectSize) (ulong (ulong (rva + 4) + sectSize));
              mret (es ++ rest)
    end
  else mret [].

(** The list of exceptions of a method at [rva]; [addr] is the bytes from its header on. *)
Definition ILMethodGetExceptions (rva : Z) (addr : list Z) (c : ILMethodCode) : failure + list ILException :=
  read_section_list (S (Z.to_nat (remaining c))) (moreSections c)
    (drop (Z.to_nat (code c + codeLen c)) addr) (remaining c) (uint32 (rva + headerSize c + codeLen c)).

(** ** No access outside *)

Lemma read_clauses_safe fuel size clause addr sectSize posn :
  0 < size -> 0 <= posn <= sectSize -> sectSize < 2 ^ 30 -> size < 2 ^ 30 -> sectSize <= Z.of_nat (length addr) ->
  sectSize - posn <= Z.of_nat fuel ->
  (forall p, 0 <= p -> p + size <= Z.of_nat (length addr) -> exists e, clause addr p = Some e) ->
  exists es, read_clauses fuel size clause addr sectSize posn = inr es.
Proof.
  intros Hs Hp Hss Hs30 Hl Hf Hc. revert posn Hp Hf. induction fuel as [| fuel IH]; intros posn Hp Hf;
    cbn [read_clauses]; rewrite ulong_small by lia.
  - rewrite (proj2 (Z.leb_gt _ _)) by lia. by eexists.
  - destruct (Z.leb_spec (posn + size) sectSize) as [Hle | _]; [| by eexists].
    destruct (Hc posn) as [e ->]; [lia | lia |]. destruct (IH (posn + size)) as [es E]; [lia | lia |].
    cbn. rewrite E. by eexists.
Qed.

Ltac read_there := repeat match goal with
  | |- context [IL_READ_UINT16 ?l ?i] => let v := fresh in destruct (read16_total l i) as (v & -> & _); [lia | lia |]; cbn
  | |- context [IL_READ_UINT32 ?l ?i] => let v := fresh in destruct (read32_total l i) as (v & -> & _); [lia | lia |]; cbn
  | |- context [byte_at ?l ?i] => let v := fresh in destruct (byte_at_in_range l i) as [v ->]; [lia |]; cbn
  end.

Lemma tiny_clause_there addr p : 0 <= p -> p + 12 <= Z.of_nat (length addr) -> exists e, tiny_clause addr p = Some e.
Proof. intros H0 Hl. unfold tiny_clause. read_there. by eexists. Qed.
Lemma fat_clause_there addr p : 0 <= p -> p + 24 <= Z.of_nat (length addr) -> exists e, fat_clause addr p = Some e.
Proof. intros H0 Hl. unfold fat_clause. read_there. by eexists. Qed.

Lemma section_header_there addr :
  Forall is_byte addr -> 4 <= Z.of_nat (length addr) ->
  exists kind size tiny, section_header addr = Some (kind, size, tiny) /\ size < 2 ^ 24.
Proof.
  intros Hb Hl. unfold section_header.
  destruct (byte_at_in_range addr 0) as [b0 E0]; [lia |]. destruct (byte_at_in_range addr 1) as [b1 E1]; [lia |].
  destruct (byte_at_in_range addr 2) as [b2 E2]; [lia |]. destruct (byte_at_in_range addr 3) as [b3 E3]; [lia |].
  rewrite E0, E1, E2, E3. apply byte_at_Some in E1 as [_ E1], E2 as [_ E2], E3 as [_ E3].
  specialize (E1 Hb). specialize (E2 Hb). specialize (E3 Hb). unfold is_byte in *. cbn.
  case_match; eexists _, _, _; (split; [done |]); [zlia |].
  rewrite !shiftl_mul by lia. rewrite (Z.lor_comm b1), (lor_disjoint 8 (b2 * _) b1) by zlia.
  rewrite (Z.lor_comm (_ + _)), (lor_disjoint 16 (b3 * _)) by zlia. zlia.
Qed.

Lemma section_list_safe fuel more addr len rva :
  Forall is_byte addr -> 0 <= len <= Z.of_nat (length addr) -> len < Z.of_nat fuel ->
  exists es, read_section_list fuel more addr len rva = inr es.
Proof.
  revert more addr len rva. induction fuel as [| fuel IH]; intros more addr len rva Hb Hl Hf; [lia |].
  cbn [read_section_list]. destruct more; [| by eexists]. cbv zeta.
  assert (0 <= Z.land rva 3 < 4) as Hr by (change 3 with (Z.ones 2); rewrite Z.land_ones by lia; apply Z.mod_pos_bound; lia).
  set (adjust := if Z.land rva 3 =? 0 then 0 else 4 - Z.land rva 3).
  assert (0 <= adjust) as Ha by (unfold adjust; case_match; lia). clearbody adjust.
  destruct (Z.ltb_spec len adjust); [by eexists |]. destruct (Z.ltb_spec (len - adjust) 4); [by eexists |].
  set (addr1 := drop (Z.to_nat adjust) addr).
  assert (Forall is_byte addr1) as Hb1 by by apply Forall_drop.
  assert (len - adjust <= Z.of_nat (length addr1)) as Hl1 by (unfold addr1; rewrite length_drop; lia). clearbody addr1.
  destruct (section_header_there addr1) as (kind & size & tiny & -> & Hsize); [done | lia |].
  cbn -[Z.ltb Z.land Z.sub drop Z.to_nat ulong Z.add].
  destruct (Z.ltb_spec size 4); [by eexists |]. destruct (Z.ltb_spec (len - adjust) size); [by eexists |].
  cbn [orb]. set (addr2 := drop 4 addr1).
  assert (Forall is_byte addr2) as Hb2 by by apply Forall_drop.
  assert (len - adjust - 4 <= Z.of_nat (length addr2)) as Hl2 by (unfold addr2; rewrite length_drop; lia). clearbody addr2.
  match goal with |- context [if ?b then ?x else if ?c then ?y else ?z] =>
    assert (exists es, (if b then x else if c then y else z) = inr es) as [es ->] end.
  { case_match; [| case_match; [| by eexists]].
    - apply read_clauses_safe; [lia | lia | zlia | zlia | lia | lia |]. intros. by apply tiny_clause_there.
    - apply read_clauses_safe; [lia | lia | zlia | zlia | lia | lia |]. intros. by apply fat_clause_there. }
  match goal with |- context [read_section_list fuel ?m ?a ?l ?r] => destruct (IH m a l r) as [rest E] end;
    [by apply Forall_drop | rewrite length_drop; lia | lia |].
  cbn -[read_section_list Z.land Z.sub drop Z.to_nat ulong Z.add]. rewrite E. by eexists.
Qed.

(** ** The sections of the standard *)

Definition tiny_clause_bytes (e : ILException) : list Z :=
  le_bytes 2 (flags e) ++ le_bytes 2 (tryOffset e) ++ [tryLength e] ++ le_bytes 2 (handlerOffset e)
  ++ [handlerLength e] ++ le_bytes 4 (extraArg e).
Definition fat_clause_bytes (e : ILException) : list Z :=
  le_bytes 4 (flags e) ++ le_bytes 4 (tryOffset e) ++ le_bytes 4 (tryLength e) ++ le_bytes 4 (handlerOffset e)
  ++ le_bytes 4 (handlerLength e) ++ le_bytes 4 (extraArg e).

Definition tiny_clause_ok (e : ILException) : Prop :=
  0 <= flags e < 2 ^ 16 /\ 0 <= tryOffset e < 2 ^ 16 /\ is_byte (tryLength e) /\
  0 <= handlerOffset e < 2 ^ 16 /\ is_byte (handlerLength e) /\ 0 <= extraArg e < 2 ^ 32.
Definition fat_clause_ok (e : ILException) : Prop :=
  0 <= flags e < 2 ^ 32 /\ 0 <= tryOffset e < 2 ^ 32 /\ 0 <= tryLength e < 2 ^ 32 /\
  0 <= handlerOffset e < 2 ^ 32 /\ 0 <= handlerLength e < 2 ^ 32 /\ 0 <= extraArg e < 2 ^ 32.

(** Reads behind a prefix. *)
Lemma read16_shift pre l i : 0 <= i -> IL_READ_UINT16 (pre ++ l) (Z.of_nat (length pre) + i) = IL_READ_UINT16 l i.
Proof.
  intros Hi. unfold IL_READ_UINT16, _IL_READ_BYTE, _IL_READ_BYTE_SHIFT. rewrite <- !Z.add_assoc.
  by rewrite !byte_at_app_r by lia.
Qed.
Lemma read32_shift pre l i : 0 <= i -> IL_READ_UINT32 (pre ++ l) (Z.of_nat (length pre) + i) = IL_READ_UINT32 l i.
Proof.
  intros Hi. unfold IL_READ_UINT32, _IL_READ_BYTE, _IL_READ_BYTE_SHIFT. rewrite <- !Z.add_assoc.
  by rewrite !byte_at_app_r by lia.
Qed.

(** A field of a clause, at its place. *)
Lemma field16 pre v post i :
  Forall is_byte post -> 0 <= v < 2 ^ 16 -> i = Z.of_nat (length pre) -> IL_READ_UINT16 (pre ++ le_bytes 2 v ++ post) i = Some v.
Proof.
  intros Hb Hv ->. rewrite <- (Z.add_0_r (Z.of_nat _)), read16_shift by lia.
  pose proof (IL_READ_UINT16_bytes [] v post) as E. cbn [app length] in E. change (Z.of_nat 0) with 0 in E.
  rewrite E by (constructor || done). unfold uint16. by rewrite to_unsigned_small.
Qed.
Lemma field32 pre v post i :
  Forall is_byte post -> 0 <= v < 2 ^ 32 -> i = Z.of_nat (length pre) -> IL_READ_UINT32 (pre ++ le_bytes 4 v ++ post) i = Some v.
Proof.
  intros Hb Hv ->. rewrite <- (Z.add_0_r (Z.of_nat _)), read32_shift by lia.
  pose proof (IL_READ_UINT32_bytes [] v post) as E. cbn [app length] in E. change (Z.of_nat 0) with 0 in E.
  rewrite E by (constructor || done). unfold uint32. by rewrite to_unsigned_small.
Qed.

Lemma tiny_bytes_bytes e : tiny_clause_ok e -> Forall is_byte (tiny_clause_bytes e).
Proof. intros (? & ? & ? & ? & ? & ?). unfold tiny_clause_bytes. rewrite !Forall_app, !Forall_singleton. auto 10 using le_bytes_byte. Qed.
Lemma fat_bytes_bytes e : Forall is_byte (fat_clause_bytes e).
Proof. unfold fat_clause_bytes. rewrite !Forall_app. auto 10 using le_bytes_byte. Qed.

Ltac field_bytes := rewrite ?Forall_app, ?Forall_singleton; auto 12.

Lemma tiny_clause_read pre e post :
  tiny_clause_ok e -> Forall is_byte post -> tiny_clause (pre ++ tiny_clause_bytes e ++ post) (Z.of_nat (length pre)) = Some e.
Proof.
  intros (H1 & H2 & H3 & H4 & H5 & H6) Hb. unfold tiny_clause.
  rewrite <- (Z.add_0_r (Z.of_nat (length pre))) at 1. rewrite !read16_shift, read32_shift, !byte_at_app_r by lia.
  set (f := le_bytes 2 (flags e)). set (t := le_bytes 2 (tryOffset e)). set (h := le_bytes 2 (handlerOffset e)).
  set (x := le_bytes 4 (extraArg e)). set (l := tiny_clause_bytes e ++ post).
  assert (Forall is_byte f /\ Forall is_byte t /\ Forall is_byte h /\ Forall is_byte x) as (? & ? & ? & ?) by (split_and!; apply le_bytes_byte).
  assert (IL_READ_UINT16 l 0 = Some (flags e)) as ->
    by (apply (field16 [] _ (t ++ [tryLength e] ++ h ++ [handlerLength e] ++ x ++ post)); done || field_bytes).
  assert (IL_READ_UINT16 l 2 = Some (tryOffset e)) as ->
    by (apply (field16 f _ ([tryLength e] ++ h ++ [handlerLength e] ++ x ++ post)); done || field_bytes).
  assert (IL_READ_UINT16 l 5 = Some (handlerOffset e)) as ->
    by (apply (field16 (f ++ t ++ [tryLength e]) _ ([handlerLength e] ++ x ++ post)); done || field_bytes).
  assert (IL_READ_UINT32 l 8 = Some (extraArg e)) as ->
    by (apply (field32 (f ++ t ++ [tryLength e] ++ h ++ [handlerLength e]) _ post); done || field_bytes).
  cbn [mbind option_bind]. change (byte_at l 4) with (Some (tryLength e)).
  change (byte_at l 7) with (Some (handlerLength e)). by destruct e.
Qed.

Lemma fat_clause_read pre e post :
  fat_clause_ok e -> Forall is_byte post -> fat_clause (pre ++ fat_clause_bytes e ++ post) (Z.of_nat (length pre)) = Some e.
Proof.
  intros (H1 & H2 & H3 & H4 & H5 & H6) Hb. unfold fat_clause.
  rewrite <- (Z.add_0_r (Z.of_nat (length pre))) at 1. rewrite !read32_shift by lia.
  set (f := le_bytes 4 (flags e)). set (t := le_bytes 4 (tryOffset e)). set (n := le_bytes 4 (tryLength e)).
  set (h := le_bytes 4 (handlerOffset e)). set (k := le_bytes 4 (handlerLength e)). set (x := le_bytes 4 (extraArg e)).
  set (l := fat_clause_bytes e ++ post).
  assert (Forall is_byte f /\ Forall is_byte t /\ Forall is_byte n /\ Forall is_byte h /\ Forall is_byte k /\ Forall is_byte x)
    as (? & ? & ? & ? & ? & ?) by (split_and!; apply le_bytes_byte).
  assert (IL_READ_UINT32 l 0 = Some (flags e)) as ->
    by (apply (field32 [] _ (t ++ n ++ h ++ k ++ x ++ post)); done || field_bytes).
  assert (IL_READ_UINT32 l 4 = Some (tryOffset e)) as ->
    by (apply (field32 f _ (n ++ h ++ k ++ x ++ post)); done || field_bytes).
  assert (IL_READ_UINT32 l 8 = Some (tryLength e)) as ->
    by (apply (field32 (f ++ t) _ (h ++ k ++ x ++ post)); done || field_bytes).
  assert (IL_READ_UINT32 l 12 = Some (handlerOffset e)) as ->
    by (apply (field32 (f ++ t ++ n) _ (k ++ x ++ post)); done || field_bytes).
  assert (IL_READ_UINT32 l 16 = Some (handlerLength e)) as ->
    by (apply (field32 (f ++ t ++ n ++ h) _ (x ++ post)); done || field_bytes).
  assert (IL_READ_UINT32 l 20 = Some (extraArg e)) as ->
    by (apply (field32 (f ++ t ++ n ++ h ++ k) _ post); done || field_bytes).
  by destruct e.
Qed.

(** The clauses of a section. *)
Lemma read_clauses_run size clause (bytes : ILException -> list Z) ok pre l post fuel :
  0 < size -> (forall e, Z.of_nat (length (bytes e)) = size) -> (forall e, ok e -> Forall is_byte (bytes e)) ->
  (forall pre e post, ok e -> Forall is_byte post -> clause (pre ++ bytes e ++ post) (Z.of_nat (length pre)) = Some e) ->
  Forall ok l -> Forall is_byte post -> (length l <= fuel)%nat ->
  Z.of_nat (length pre) + size * (Z.of_nat (length l) + 1) < 2 ^ 32 ->
  read_clauses fuel size clause (pre ++ concat (bytes <$> l) ++ post)
    (Z.of_nat (length pre) + size * Z.of_nat (length l)) (Z.of_nat (length pre)) = inr l.
Proof.
  intros Hs Hlen Hbytes Hc Hl Hpost. revert pre fuel. induction Hl as [| e l He Hl IH]; intros pre fuel Hf Hbig.
  - destruct fuel; cbn [read_clauses length]; rewrite ulong_small by lia; by rewrite (proj2 (Z.leb_gt _ _)) by lia.
  - cbn [length] in *. destruct fuel as [| fuel]; [lia |]. cbn [read_clauses]. rewrite ulong_small by lia.
    rewrite (proj2 (Z.leb_le _ _)) by lia. cbn [fmap list_fmap concat]. rewrite <- app_assoc.
    rewrite Hc; [| done |].
    2: { apply Forall_app. split; [| done]. clear - Hl Hbytes. induction Hl; [constructor | cbn; apply Forall_app; auto]. }
    cbn [lift_read mbind failure_bind].
    specialize (IH (pre ++ bytes e) fuel). rewrite length_app, Nat2Z.inj_add, Hlen, <- app_assoc in IH.
    replace (Z.of_nat (length pre) + size * Z.of_nat (S (length l))) with (Z.of_nat (length pre) + size + size * Z.of_nat (length l)) by lia.
    rewrite IH by lia. done.
Qed.

Inductive method_section :=
| Small_clauses (l : list ILException)
| Fat_clauses (l : list ILException)
| Other_section (fat : bool) (kind : Z) (data : list Z).

Definition section_clauses (s : method_section) : list ILException :=
  match s with Small_clauses l | Fat_clauses l => l | Other_section _ _ _ => [] end.

Definition section_fat (s : method_section) : bool :=
  match s with Small_clauses _ => false | Fat_clauses _ => true | Other_section fat _ _ => fat end.
Definition section_kind (s : method_section) : Z :=
  match s with Other_section _ kind _ => kind | _ => 1 end.
Definition section_data (s : method_section) : list Z :=
  match s with
  | Small_clauses l => concat (tiny_clause_bytes <$> l)
  | Fat_clauses l => concat (fat_clause_bytes <$> l)
  | Other_section _ _ data => data
  end.

(** A section, its size with the header; [more] is whether another one follows. *)
Definition section_bytes (more : bool) (s : method_section) : list Z :=
  let size := 4 + Z.of_nat (length (section_data s)) in
  (section_kind s + (if section_fat s then 0x40 else 0) + (if more then 0x80 else 0))
  :: (if section_fat s then le_bytes 3 size else [size; 0; 0]) ++ section_data s.

Definition method_section_ok (s : method_section) : Prop :=
  4 + Z.of_nat (length (section_data s)) < (if section_fat s then 2 ^ 24 else 2 ^ 8) /\
  match s with
  | Small_clauses l => Forall tiny_clause_ok l
  | Fat_clauses l => Forall fat_clause_ok l
  | Other_section _ kind data => 0 <= kind < 0x40 /\ kind <> 1 /\ Forall is_byte data
  end.

(** Sections start at multiples of four. *)
Definition padding (rva : Z) : list Z := replicate (Z.to_nat ((- rva) mod 4)) 0.
Fixpoint section_list_bytes (rva : Z) (l : list method_section) : list Z :=
  match l with
  | [] => []
  | s :: l =>
      padding rva ++ section_bytes (match l with [] => false | _ => true end) s
      ++ section_list_bytes (rva + Z.of_nat (length (padding rva)) + 4 + Z.of_nat (length (section_data s))) l
  end.

(** ** Reading the sections *)

Lemma adjust_padding rva :
  (if Z.land rva 3 =? 0 then 0 else 4 - Z.land rva 3) = Z.of_nat (length (padding rva)).
Proof.
  unfold padding. rewrite length_replicate, Z2Nat.id by (apply Z.mod_pos_bound; lia).
  change 3 with (Z.ones 2). rewrite Z.land_ones by lia. change (2 ^ 2) with 4.
  destruct (Z.eqb_spec (rva mod 4) 0); lia.
Qed.
Lemma padding_eqm rva rva' : rva mod 4 = rva' mod 4 -> padding rva = padding rva'.
Proof. intros E. unfold padding. do 2 f_equal. lia. Qed.
Lemma ulong_mod4 x : ulong x mod 4 = x mod 4.
Proof. unfold ulong, to_unsigned. destruct long_bits_cases as [-> | ->]; zlia. Qed.

Lemma ulong_add_mod4 a b : (ulong a + b) mod 4 = (a + b) mod 4.
Proof. by rewrite <- Zplus_mod_idemp_l, ulong_mod4, Zplus_mod_idemp_l. Qed.

Lemma concat_bytes {A} (bytes : A -> list Z) (ok : A -> Prop) l :
  (forall e, ok e -> Forall is_byte (bytes e)) -> Forall ok l -> Forall is_byte (concat (bytes <$> l)).
Proof. intros Hb Hl. induction Hl; [constructor | cbn; apply Forall_app; auto]. Qed.

Lemma concat_length (bytes : ILException -> list Z) size l :
  (forall e, Z.of_nat (length (bytes e)) = size) -> Z.of_nat (length (concat (bytes <$> l))) = size * Z.of_nat (length l).
Proof. intros Hs. induction l as [| e l IH]; [cbn; lia |]. cbn. rewrite length_app, Nat2Z.inj_add, IH, Hs. lia. Qed.

Lemma tiny_length e : Z.of_nat (length (tiny_clause_bytes e)) = 12.
Proof. reflexivity. Qed.
Lemma fat_length e : Z.of_nat (length (fat_clause_bytes e)) = 24.
Proof. reflexivity. Qed.

Lemma section_data_bytes s : method_section_ok s -> Forall is_byte (section_data s).
Proof.
  intros [_ Hs]. destruct s as [l | l | fat kind d]; cbn.
  - exact (concat_bytes _ _ _ tiny_bytes_bytes Hs).
  - apply (concat_bytes _ (fun _ => True)); [intros; apply fat_bytes_bytes | by apply Forall_true].
  - apply Hs.
Qed.

Lemma section_bytes_bytes more s : method_section_ok s -> Forall is_byte (section_bytes more s).
Proof.
  intros Hs. pose proof (section_data_bytes s Hs) as Hd. destruct Hs as [Hsize Hs]. unfold section_bytes. constructor.
  - unfold is_byte, section_kind, section_fat. destruct s, more; try destruct fat; lia.
  - apply Forall_app. split; [| done]. destruct (section_fat s); [apply le_bytes_byte |].
    repeat constructor; zlia.
Qed.

Lemma section_list_bytes_bytes rva l : Forall method_section_ok l -> Forall is_byte (section_list_bytes rva l).
Proof.
  intros Hl. revert rva. induction Hl as [| s l Hs Hl IH]; intros rva; [constructor |]. cbn [section_list_bytes].
  rewrite !Forall_app. split_and!; [| by apply section_bytes_bytes | apply IH].
  apply Forall_replicate. unfold is_byte. lia.
Qed.

(** The header of a section that was written. *)
Lemma section_header_run more s post :
  method_section_ok s ->
  section_header (section_bytes more s ++ post)
  = Some (section_kind s + (if section_fat s then 0x40 else 0) + (if more then 0x80 else 0),
          4 + Z.of_nat (length (section_data s)), negb (section_fat s)).
Proof.
  intros [Hsize Hs]. unfold section_bytes. set (n := 4 + Z.of_nat (length (section_data s))) in *.
  set (k := section_kind s + _ + _).
  assert ((Z.land k 0x40 =? 0) = negb (section_fat s)) as Hk.
  { assert (forall kind, 0 <= kind < 64 -> forall fat more : bool,
      (Z.land (kind + (if fat then 0x40 else 0) + (if more then 0x80 else 0)) 0x40 =? 0) = negb fat) as Hall.
    { intros kind Hkind fat mr. assert (exists j, (j < 64)%nat /\ kind = Z.of_nat j) as (j & Hj & ->)
        by (exists (Z.to_nat kind); lia).
      do 64 (destruct j as [| j]; [by destruct fat, mr |]). lia. }
    apply Hall. destruct s; cbn; lia. }
  unfold section_header. cbn [app]. change (byte_at (k :: ?r) 0) with (Some k). cbn [mbind option_bind].
  destruct (section_fat s).
  - change (le_bytes 3 n) with [n mod 256; n / 256 mod 256; n / 256 / 256 mod 256]. cbn [app].
    change (byte_at _ 1) with (Some (n mod 256)). cbn [mbind option_bind]. rewrite Hk. cbn [negb].
    change (byte_at _ 2) with (Some (n / 256 mod 256)). change (byte_at _ 3) with (Some (n / 256 / 256 mod 256)).
    cbn [mbind option_bind]. rewrite !shiftl_mul by lia.
    rewrite (Z.lor_comm (n mod 256)), (lor_disjoint 8 (_ * _)) by zlia.
    rewrite (Z.lor_comm (_ + _)), (lor_disjoint 16 (_ * 2 ^ 16)) by zlia. do 3 f_equal. zlia.
  - cbn [app]. change (byte_at _ 1) with (Some n). cbn [mbind option_bind]. by rewrite Hk.
Qed.

Lemma kind_bits kind (fat more : bool) :
  0 <= kind < 64 ->
  Z.land (kind + (if fat then 0x40 else 0) + (if more then 0x80 else 0)) 0x3F = kind /\
  negb (Z.land (kind + (if fat then 0x40 else 0) + (if more then 0x80 else 0)) 0x80 =? 0) = more.
Proof.
  intros Hkind. assert (exists j, (j < 64)%nat /\ kind = Z.of_nat j) as (j & Hj & ->) by (exists (Z.to_nat kind); lia).
  do 64 (destruct j as [| j]; [by destruct fat, more |]). lia.
Qed.

(** The clauses of a section that was written. *)
Lemma section_clauses_run s post :
  method_section_ok s -> Forall is_byte post ->
  let size := Z.of_nat (length (section_data s)) in
  (if (section_kind s =? 1) && negb (section_fat s) then
     read_clauses (Z.to_nat size) 12 tiny_clause (section_data s ++ post) size 0
   else if (section_kind s =? 1) && negb (negb (section_fat s)) then
     read_clauses (Z.to_nat size) 24 fat_clause (section_data s ++ post) size 0
   else mret []) = inr (section_clauses s).
Proof.
  intros [Hsize Hs] Hpost size. destruct s as [l | l | fat kind d]; cbn in Hsize, size |- *.
  - pose proof (read_clauses_run 12 tiny_clause tiny_clause_bytes tiny_clause_ok [] l post (Z.to_nat size)) as E.
    subst size. rewrite (concat_length _ 12) in * by apply tiny_length. cbn [app length] in E.
    change (Z.of_nat 0) with 0 in E. rewrite Z.add_0_l in E. apply E; try done; try zlia.
    + apply tiny_bytes_bytes.
    + intros. by apply tiny_clause_read.
  - pose proof (read_clauses_run 24 fat_clause fat_clause_bytes fat_clause_ok [] l post (Z.to_nat size)) as E.
    subst size. rewrite (concat_length _ 24) in * by apply fat_length. cbn [app length] in E.
    change (Z.of_nat 0) with 0 in E. rewrite Z.add_0_l in E. apply E; try done; try zlia.
    + intros e _. apply fat_bytes_bytes.
    + intros. by apply fat_clause_read.
  - destruct Hs as (_ & Hk & _). by rewrite (proj2 (Z.eqb_neq kind 1)).
Qed.

Lemma section_kind_range s : method_section_ok s -> 0 <= section_kind s < 64.
Proof. intros [_ Hs]. destruct s; cbn in *; lia. Qed.

Lemma section_list_run fuel l rva rva' post :
  Forall method_section_ok l -> Forall is_byte post -> rva mod 4 = rva' mod 4 -> (length l <= fuel)%nat ->
  read_section_list fuel (match l with [] => false | _ => true end) (section_list_bytes rva l ++ post)
    (Z.of_nat (length (section_list_bytes rva l ++ post))) rva'
  = inr (concat (section_clauses <$> l)).
Proof.
  intros Hl Hpost. revert rva rva' fuel. induction Hl as [| s l Hs Hl IH]; intros rva rva' fuel Hr Hf.
  { by destruct fuel. }
  cbn [length] in Hf. destruct fuel as [| fuel]; [lia |].
  cbn [read_section_list section_list_bytes]. cbv zeta.
  rewrite adjust_padding, <- (padding_eqm rva rva') by done.
  set (more := match l with [] => false | _ => true end). set (size := Z.of_nat (length (section_data s))).
  set (next := section_list_bytes _ l).
  assert (Z.of_nat (length (section_bytes more s)) = 4 + size) as Hsb.
  { unfold section_bytes. cbn [length]. rewrite length_app. destruct (section_fat s); cbn [length le_bytes]; lia. }
  rewrite <- !app_assoc, length_app, Nat2Z.inj_add.
  rewrite (proj2 (Z.ltb_ge _ _)) by lia. rewrite Nat2Z.id, drop_app_length.
  rewrite length_app, Nat2Z.inj_add, Hsb. rewrite (proj2 (Z.ltb_ge _ 4)) by lia.
  rewrite section_header_run by done. cbn [lift_read mbind failure_bind]. fold size.
  pose proof (section_kind_range s Hs) as Hk. destruct (kind_bits (section_kind s) (section_fat s) more Hk) as [-> ->].
  rewrite (proj2 (Z.ltb_ge _ 4)), (proj2 (Z.ltb_ge _ (4 + size))) by lia. cbn [orb].
  replace (4 + size - 4) with size by lia.
  assert (drop 4 (section_bytes more s ++ next ++ post) = section_data s ++ next ++ post) as ->.
  { unfold section_bytes. destruct (section_fat s); reflexivity. }
  rewrite section_clauses_run by (done || (apply Forall_app; split; [by apply section_list_bytes_bytes | done])).
  cbn [mbind failure_bind]. replace (Z.to_nat size) with (length (section_data s)) by (unfold size; lia). rewrite drop_app_length.
  match goal with |- context [read_section_list fuel more (next ++ post) ?n ?r] =>
    replace n with (Z.of_nat (length (next ++ post))) by (rewrite length_app; lia);
    assert (read_section_list fuel more (next ++ post) (Z.of_nat (length (next ++ post))) r
            = inr (concat (section_clauses <$> l))) as ->; [| done] end.
  apply IH; [| lia].
  rewrite ulong_mod4, ulong_add_mod4, <- (Z.add_assoc (ulong _)), ulong_add_mod4. zlia.
Qed.

Context `{Program}.

(** C27: A method that is laid out as the standard says, with a fat header, its code and
    sections of exception clauses or of other kinds, small or fat, at multiples of four,
    is read with the clauses of all its sections in order. *)
Theorem exceptions_roundtrip rva init stack localVars body sections rest locals :
  0 <= stack < 2 ^ 16 -> 0 <= localVars < 2 ^ 32 -> body <> [] ->
  Forall is_byte (body ++ rest) -> Forall method_section_ok sections -> local_signature localVars = Some locals ->
  let n := Z.of_nat (length body) in
  let behind := section_list_bytes (rva + 12 + n) sections ++ rest in
  let more := match sections with [] => false | _ => true end in
  let method := fat_bytes more init stack n localVars ++ body ++ behind in
  n + Z.of_nat (length behind) < 2 ^ 31 ->
  exists c, read_header method = Some c /\ locals = localVarSig c /\
    ILMethodGetExceptions rva method c = inr (concat (section_clauses <$> sections)).
Proof.
  intros Hst Hlv Hbody Hb Hs Hloc n behind more method Hn. apply Forall_app in Hb as [Hb Hrest].
  destruct (method_header_roundtrip more init stack localVars body behind locals) as [E _]; try done.
  { apply Forall_app. split; [done |]. apply Forall_app. split; [by apply section_list_bytes_bytes | done]. }
  eexists. split; [exact E |]. split; [done |]. unfold ILMethodGetExceptions.
  cbn [remaining moreSections code codeLen headerSize]. fold n.
  assert (drop (Z.to_nat (12 + n)) method = behind) as ->.
  { unfold method. rewrite app_assoc. replace (Z.to_nat (12 + n)) with (length (fat_bytes more init stack n localVars ++ body));
      [apply drop_app_length |]. rewrite length_app. change (length (fat_bytes _ _ _ _ _)) with 12%nat. lia. }
  apply section_list_run; [done | done | |].
  - unfold uint32, to_unsigned. zlia.
  - assert (forall r, (length sections <= length (section_list_bytes r sections))%nat) as Hlen.
    { clear. induction sections as [| s l IH]; intros r; [cbn; lia |]. cbn [section_list_bytes length].
      rewrite !length_app. unfold section_bytes at 1. cbn [length]. specialize (IH (r + Z.of_nat (length (padding r)) + 4 + Z.of_nat (length (section_data s)))). lia. }
    unfold behind. rewrite length_app. specialize (Hlen (rva + 12 + n)). lia.
Qed.

(** Whatever the bytes of a method are: if its code and what remains behind it are
    there, the sections are read to their end without an access outside of them. *)
Theorem exceptions_safe rva addr c :
  Forall is_byte addr -> 0 <= remaining c -> 0 <= code c + codeLen c ->
  code c + codeLen c + remaining c <= Z.of_nat (length addr) ->
  exists es, ILMethodGetExceptions rva addr c = inr es.
Proof.
  intros Hb Hr Hc Hl. unfold ILMethodGetExceptions. apply section_list_safe; [by apply Forall_drop | | lia].
  rewrite length_drop. lia.
Qed.
End exceptions.

Section witnesses.
#[local] Existing Instances ILP32 sample_program.

(** [ldc.i4.s 42; ret], a small section with a catch clause and a fat one with a finally clause. *)
Definition sample_clauses : list method_section :=
  [Small_clauses [mkException 0 0 2 2 1 0x01000001]; Other_section true 2 [7; 7; 7]; Fat_clauses [mkException 2 0 2 2 70000 0]].

Lemma exceptions_roundtrip_witness :
  exists c, read_header (fat_bytes true true 8 3 0 ++ [0x1F; 42; 0x2A] ++ section_list_bytes (0x2051 + 12 + 3) sample_clauses ++ [0]) = Some c /\
    ILMethodGetExceptions 0x2051 (fat_bytes true true 8 3 0 ++ [0x1F; 42; 0x2A] ++ section_list_bytes (0x2051 + 12 + 3) sample_clauses ++ [0]) c
    = inr [mkException 0 0 2 2 1 0x01000001; mkException 2 0 2 2 70000 0].
Proof.
  destruct (exceptions_roundtrip 0x2051 true 8 0 [0x1F; 42; 0x2A] sample_clauses [0] None) as (c & E & _ & Hc);
    [lia | lia | done | repeat constructor; unfold is_byte; lia | | done | by vm_compute | by exists c].
  unfold sample_clauses, method_section_ok. repeat constructor; try done; cbn; unfold is_byte; lia.
Defined.

Lemma exceptions_safe_witness :
  exists es, ILMethodGetExceptions 0x2051 [0x1E; 0x2A; 0x01; 0xFF] (mkCode 1 8 1 1 None false true 2) = inr es.
Proof. apply exceptions_safe; [repeat constructor; unfold is_byte; lia | cbn; lia ..]. Defined.
End witnesses.
