(* ===== verification/PeCoff.v ===== *)
(** * PeCoff: the loader of images

    Models src/gcc/cil/image/pecoff_loader.c, and of image.c what finds the sections of
    an image.  A PE/COFF file is read from a stream of bytes; [buffer] is the array of the
    function that reads it, as far as it was written.  Compressed files and those of
    Java are not compiled in (IL_CONFIG_GZIP, IL_CONFIG_JAVA).  Memory does not run out.

    A pointer into the data of an image is its offset. *)
From S2P Require Import Prelude Values.

Definition IL_LOADERR_TRUNCATED := 1.
Definition IL_LOADERR_NOT_PE := 2.
Definition IL_LOADERR_NOT_IL := 3.
Definition IL_LOADERR_VERSION := 4.
Definition IL_LOADERR_32BIT_ONLY := 5.
Definition IL_LOADERR_BACKWARDS := 6.
Definition IL_LOADERR_BAD_ADDR := 8.
Definition IL_LOADERR_ARCHIVE := 12.
Definition IL_LOADFLAG_FORCE_32BIT := 1.
Definition IL_LOADFLAG_NO_METADATA := 2.
Definition IL_LOADFLAG_INSECURE := 16.
Definition IL_LOADFLAG_NO_MAP := 32.
Definition IL_LOADFLAG_IN_PLACE := 64.
Definition IL_LOADFLAG_IGNORE_ERRORS := 128.
Definition IL_IMAGETYPE_DLL := 0.
Definition IL_IMAGETYPE_EXE := 1.
Definition IL_IMAGETYPE_OBJ := 2.
Definition IL_IMAGETYPE_BUILDING := 3.
Definition IL_SECTION_HEADER := 0.
Definition IL_SECTION_CODE := 1.
Definition IL_SECTION_METADATA := 2.
Definition IL_SECTION_RESOURCES := 3.
Definition IL_SECTION_STRONG_NAMES := 4.
Definition IL_SECTION_CODE_MANAGER := 5.
Definition IL_SECTION_DEBUG := 6.
Definition IL_SECTION_DATA := 7.
Definition IL_SECTION_TLS := 8.
Definition IL_SECTION_WINRES := 9.

(** A section: its address and size when the program runs, and those in the file.  A map
    is a list of them. *)
Record ILSectionMap := mkSection { virtAddr : Z; virtSize : Z; realAddr : Z; realSize : Z }.
Definition IL_BAD_ADDRESS := 0xFFFFFFFF.

Section pecoff.
Context `{Host}.

(** ** Reading *)

Record ILInputContext := mkInput { input : list Z; buffer : list Z }.

(** The read function of the context, into [buffer + pos]. *)
Definition read_buffer (pos len : Z) : comp ILInputContext Z :=
  ctx ← get id;
  let bytes := take (Z.to_nat len) (input ctx) in
  if (1024 <? pos + len) || (Z.of_nat (length (buffer ctx)) <? pos) then fail (Undefined "buffer")
  else
    _ ← modify (fun ctx => mkInput (drop (Z.to_nat len) (input ctx))
                  (take (Z.to_nat pos) (buffer ctx) ++ bytes ++ drop (Z.to_nat pos + length bytes) (buffer ctx)));
    mret (Z.of_nat (length bytes)).

Definition buffer_byte (i : Z) : comp ILInputContext Z := b ← get buffer; lift "buffer" (byte_at b i).
Definition buffer_uint16 (i : Z) : comp ILInputContext Z := b ← get buffer; lift "buffer" (IL_READ_UINT16 b i).
Definition buffer_uint32 (i : Z) : comp ILInputContext Z := b ← get buffer; lift "buffer" (IL_READ_UINT32 b i).

(** Reading and discarding, in pieces of 1024 bytes. *)
Fixpoint seek_loop (fuel : nat) (currentOffset destOffset : Z) : comp ILInputContext bool :=
  if currentOffset <? destOffset then
    match fuel with
    | O => fail Out_of_fuel
    | S fuel =>
        let size := if 1024 <? destOffset - currentOffset then 1024 else destOffset - currentOffset in
        n ← read_buffer 0 size;
        if negb (n =? size) then mret false else seek_loop fuel (currentOffset + size) destOffset
    end
  else mret (currentOffset =? destOffset).
Definition SeekWithinStream (currentOffset destOffset : Z) : comp ILInputContext bool :=
  seek_loop (Z.to_nat (destOffset - currentOffset)) currentOffset destOffset.

(** ** Addresses *)

Definition in_section (map : ILSectionMap) (addr : Z) : bool :=
  (virtAddr map <=? addr) && (addr <? ulong (virtAddr map + virtSize map)).

Fixpoint ConvertVirtAddrToReal (map : list ILSectionMap) (addr : Z) : Z :=
  match map with
  | [] => IL_BAD_ADDRESS
  | s :: map => if in_section s addr then ulong (addr - virtAddr s + realAddr s) else ConvertVirtAddrToReal map addr
  end.

Fixpoint TopOfVirtualRange (map : list ILSectionMap) (addr : Z) : Z :=
  match map with
  | [] => 0
  | s :: map => if in_section s addr then ulong (virtAddr s + virtSize s) else TopOfVirtualRange map addr
  end.

(** ** The headers *)

(** What is known of a file before the section table: the offset behind the header in
    [buffer], whether it is an object file, and the fields of the header. *)
Record pe_header := mkHeader {
  offset : Z;
  isOBJ : bool;
  isDLL : bool;
  numSections : Z;
  base : Z;
  runtimeHdrSize : Z
}.

Definition truncated {A} : comp ILInputContext (Z + A) := mret (inl IL_LOADERR_TRUNCATED).

(** Up to the PE/COFF header, which is then in [buffer]: its end, and [isOBJ]. *)
Definition find_header : comp ILInputContext (Z + Z * bool) :=
  n ← read_buffer 0 2;
  if negb (n =? 2) then truncated else
  b0 ← buffer_byte 0;
  b1 ← buffer_byte 1;
  if (b0 =? 0x4D) && (b1 =? 0x5A) then
    n ← read_buffer 2 62;
    if negb (n =? 62) then truncated else
    base ← buffer_uint32 60;
    if base <? 64 then mret (inl IL_LOADERR_BACKWARDS) else
    ok ← SeekWithinStream 64 base;
    if negb ok then truncated else
    n ← read_buffer 0 4;
    if negb (n =? 4) then truncated else
    c0 ← buffer_byte 0;
    c1 ← buffer_byte 1;
    c2 ← buffer_byte 2;
    c3 ← buffer_byte 3;
    if negb (c0 =? 0x50) || negb (c1 =? 0x45) || negb (c2 =? 0) || negb (c3 =? 0) then mret (inl IL_LOADERR_NOT_PE) else
    n ← read_buffer 0 20;
    if negb (n =? 20) then truncated else mret (inr (ulong (base + 24), false))
  else if (b0 =? 0x4C) && (b1 =? 0x01) then
    n ← read_buffer 2 18;
    if negb (n =? 18) then truncated else mret (inr (20, true))
  else if (b0 =? 0x21) && (b1 =? 0x3C) then
    n ← read_buffer 0 6;
    if negb (n =? 6) then mret (inl IL_LOADERR_NOT_PE) else
    c ← get buffer;
    if bool_decide (take 6 c = [0x61; 0x72; 0x63; 0x68; 0x3E; 0x0A]) then mret (inl IL_LOADERR_ARCHIVE)
    else mret (inl IL_LOADERR_NOT_PE)
  else mret (inl IL_LOADERR_NOT_PE).

(** The headers: the optional one has the place of the runtime header. *)
Definition read_headers : comp ILInputContext (Z + pe_header) :=
  r ← find_header;
  match r with
  | inl e => mret (inl e)
  | inr (offset, isOBJ) =>
      flags ← buffer_uint16 18;
      headerSize ← buffer_uint16 16;
      numSections ← buffer_uint16 2;
      let isDLL := negb (Z.land flags 0x2000 =? 0) in
      if negb (headerSize =? 0) && ((headerSize <? 216) || (1024 <? headerSize)) then mret (inl IL_LOADERR_NOT_IL)
      else if numSections =? 0 then mret (inl IL_LOADERR_NOT_IL)
      else if negb (headerSize =? 0) then
        n ← read_buffer 0 headerSize;
        if negb (n =? headerSize) then truncated else
        b0 ← buffer_byte 0;
        b1 ← buffer_byte 1;
        if negb (b0 =? 0x0B) || negb (b1 =? 0x01) then mret (inl IL_LOADERR_NOT_PE) else
        numDirectories ← buffer_uint32 92;
        if numDirectories <? 15 then mret (inl IL_LOADERR_NOT_IL) else
        base ← buffer_uint32 208;
        runtimeHdrSize ← buffer_uint32 212;
        if (runtimeHdrSize <? 48) || (1024 <? runtimeHdrSize) then mret (inl IL_LOADERR_NOT_IL)
        else mret (inr (mkHeader (ulong (offset + headerSize)) isOBJ isDLL numSections base runtimeHdrSize))
      else mret (inr (mkHeader offset isOBJ isDLL numSections 0 0))
  end.

(** ** The section table *)

(** Where the sections with a name of their own are, when the program runs. *)
Record named_sections := mkNamed {
  debugRVA : Z; debugSize : Z;
  dataRVA : Z; dataSize : Z;
  tlsRVA : Z; tlsSize : Z;
  rsrcRVA : Z; rsrcSize : Z
}.

(** What the loop over the section table collects. *)
Record section_table := mkTable {
  sections : list ILSectionMap;
  minAddress : Z;
  maxAddress : Z;
  table_base : Z;
  isCorMeta : bool;
  named : named_sections
}.
Definition empty_table (base : Z) : section_table :=
  mkTable [] 0xFFFFFFFF 0 base false (mkNamed 0 0 0 0 0 0 0 0).

(** The entry in the buffer, with the sizes and the address put right. *)
Definition read_section : comp ILInputContext ILSectionMap :=
  virtAddr ← buffer_uint32 12;
  virtSize ← buffer_uint32 8;
  realAddr ← buffer_uint32 20;
  realSize ← buffer_uint32 16;
  mret (if realSize <? virtSize then mkSection virtAddr realSize realAddr realSize
        else if virtSize =? 0 then
          mkSection (if virtAddr =? 0 then realAddr else virtAddr) realSize realAddr realSize
        else mkSection virtAddr virtSize realAddr realSize).

(** The sum of an address and a size wraps around at 32 bits. *)
Definition too_big (addr size : Z) : bool := Z.land (ulong (addr + size)) 0xFFFFFFFF <? addr.

(** The name in the buffer, with the zeros at its end. *)
Definition name_is (name : string) (zeros : nat) (b : list Z) : bool :=
  bool_decide (take 8 b =
    ((fun c => Z.of_N (Ascii.N_of_ascii c)) <$> String.list_ascii_of_string name) ++ replicate zeros 0).

(** The part of the file that is loaded has the section. *)
Definition set_place (s : ILSectionMap) (t : section_table) : section_table :=
  if 0 <? realSize s then
    mkTable (sections t) (if realAddr s <? minAddress t then realAddr s else minAddress t)
      (if maxAddress t <? ulong (realAddr s + realSize s) then ulong (realAddr s + realSize s) else maxAddress t)
      (table_base t) (isCorMeta t) (named t)
  else t.
Definition set_base (b : Z) (corMeta : bool) (t : section_table) : section_table :=
  mkTable (sections t) (minAddress t) (maxAddress t) b corMeta (named t).
Definition set_named (n : named_sections) (t : section_table) : section_table :=
  mkTable (sections t) (minAddress t) (maxAddress t) (table_base t) (isCorMeta t) n.
Definition set_debug (s : ILSectionMap) (n : named_sections) : named_sections :=
  mkNamed (virtAddr s) (virtSize s) (dataRVA n) (dataSize n) (tlsRVA n) (tlsSize n) (rsrcRVA n) (rsrcSize n).
Definition set_data_section (s : ILSectionMap) (n : named_sections) : named_sections :=
  mkNamed (debugRVA n) (debugSize n) (virtAddr s) (virtSize s) (tlsRVA n) (tlsSize n) (rsrcRVA n) (rsrcSize n).
Definition set_tls (s : ILSectionMap) (n : named_sections) : named_sections :=
  mkNamed (debugRVA n) (debugSize n) (dataRVA n) (dataSize n) (virtAddr s) (virtSize s) (rsrcRVA n) (rsrcSize n).
Definition set_rsrc (s : ILSectionMap) (n : named_sections) : named_sections :=
  mkNamed (debugRVA n) (debugSize n) (dataRVA n) (dataSize n) (tlsRVA n) (tlsSize n) (virtAddr s) (virtSize s).
Definition add_section (s : ILSectionMap) (t : section_table) : section_table :=
  mkTable (s :: sections t) (minAddress t) (maxAddress t) (table_base t) (isCorMeta t) (named t).

(** What a section is, by the name in the buffer.  The uninitialised data of an object
    file has no place in the file. *)
Definition add_named (runtimeHdrSize : Z) (b : list Z) (s : ILSectionMap) (t : section_table) : section_table :=
  let t := add_section s t in
  if (runtimeHdrSize =? 0) && name_is ".text$il" 0 b then set_place s (set_base (virtAddr s) (isCorMeta t) t)
  else if (runtimeHdrSize =? 0) && name_is ".cormeta" 0 b then set_place s (set_base (virtAddr s) true t)
  else if name_is ".ildebug" 0 b then set_place s (set_named (set_debug s (named t)) t)
  else if name_is ".sdata" 2 b && (dataRVA (named t) =? 0) then set_place s (set_named (set_data_section s (named t)) t)
  else if name_is ".data" 3 b && (dataRVA (named t) =? 0) then set_place s (set_named (set_data_section s (named t)) t)
  else if name_is ".tls" 4 b then set_place s (set_named (set_tls s (named t)) t)
  else if name_is ".rsrc" 3 b then set_place s (set_named (set_rsrc s (named t)) t)
  else if name_is ".bss" 4 b && (realAddr s =? 0) then t
  else set_place s t.

(** The loop over the section table, and the offset behind it. *)
Fixpoint read_sections (n : nat) (runtimeHdrSize offset : Z) (t : section_table)
    : comp ILInputContext (Z + Z * section_table) :=
  match n with
  | O => mret (inr (offset, t))
  | S n =>
      k ← read_buffer 0 40;
      if negb (k =? 40) then truncated else
      s ← read_section;
      if too_big (virtAddr s) (virtSize s) || too_big (realAddr s) (realSize s) then mret (inl IL_LOADERR_NOT_PE) else
      b ← get buffer;
      read_sections n runtimeHdrSize (ulong (offset + 40)) (add_named runtimeHdrSize b s t)
  end.

(** The headers and the section table, up to the first byte of a section. *)
Definition read_table : comp ILInputContext (Z + pe_header * section_table) :=
  h ← read_headers;
  match h with
  | inl e => mret (inl e)
  | inr h =>
      r ← read_sections (Z.to_nat (numSections h)) (runtimeHdrSize h) (offset h) (empty_table (base h));
      match r with
      | inl e => mret (inl e)
      | inr (offset, t) =>
          if maxAddress t <=? minAddress t then mret (inl IL_LOADERR_NOT_IL)
          else if (runtimeHdrSize h =? 0) && (table_base t =? 0) then mret (inl IL_LOADERR_NOT_IL)
          else
            ok ← SeekWithinStream offset (minAddress t);
            if negb ok then truncated else mret (inr (h, t))
      end
  end.

(** ** Loading *)

(** The fields of [ILImage] that the loader sets; [data] is what can be read there. *)
Record loaded_image := mkLoaded {
  loadFlags : Z;
  image_type : Z;
  secure : bool;
  hadNative : bool;
  only32Bit : bool;
  mapped : bool;
  inPlace : bool;
  image_map : list ILSectionMap;
  data : list Z;
  image_len : Z;
  headerAddr : Z;
  headerSize : Z;
  realStart : Z;
  image_named : named_sections
}.

(** The context of the loader, without its images. *)
Record ILContext := mkContext { redoLevel : Z; numRedoItems : Z }.

Section load.

(** Mapping the file from an address to another one into memory. *)
Context (ILMapFileToMemory : Z -> Z -> option (list Z)).

(** The contents of the sections: whether they are mapped, whether they are in place, and
    the bytes. *)
Definition load_data (stream : bool) (flags : Z) (t : section_table)
    : comp ILInputContext (Z + bool * bool * list Z) :=
  let size := maxAddress t - minAddress t in
  match (if Z.land flags IL_LOADFLAG_NO_MAP =? 0 then ILMapFileToMemory (minAddress t) (maxAddress t) else None) with
  | Some data => mret (inr (true, false, data))
  | None =>
      if negb stream && negb (Z.land flags IL_LOADFLAG_IN_PLACE =? 0) then
        data ← get input;
        mret (inr (false, true, data))
      else
        data ← get (fun ctx => take (Z.to_nat size) (input ctx));
        _ ← modify (fun ctx => mkInput (drop (Z.to_nat size) (input ctx)) (buffer ctx));
        if negb (ulong (int32 (Z.of_nat (length data))) =? size) then truncated
        else mret (inr (false, false, data))
  end.

Definition adjust (minAddress : Z) (s : ILSectionMap) : ILSectionMap :=
  mkSection (virtAddr s) (virtSize s)
    (if realAddr s =? 0 then 0 else ulong (realAddr s - minAddress)) (realSize s).

(** The version and the flags of a runtime header of this size. *)
Definition check_version (flags runtimeHdrSize : Z) (data : list Z) (base : Z)
    : comp ILInputContext (Z + Z * bool * bool) :=
  version ← lift "runtimeHdr" (IL_READ_UINT16 data (base + 4));
  if negb (version =? 2) then mret (inl IL_LOADERR_VERSION) else
  w ← lift "runtimeHdr" (IL_READ_UINT32 data (base + 16));
  let hadNative := Z.land w 1 =? 0 in
  if (long_bits =? 64) && negb (Z.land w 2 =? 0) then
    if negb (Z.land flags IL_LOADFLAG_FORCE_32BIT =? 0) then mret (inr (runtimeHdrSize, hadNative, true))
    else mret (inl IL_LOADERR_32BIT_ONLY)
  else mret (inr (runtimeHdrSize, hadNative, false)).

(** The runtime header at [base], with [size] bytes up to the end: its size, and the
    fields of the image that come from it. *)
Definition runtime_header (flags size runtimeHdrSize : Z) (isCorMeta : bool) (data : list Z) (base : Z)
    : comp ILInputContext (Z + Z * bool * bool) :=
  if negb (runtimeHdrSize =? 0) then
    if size <? runtimeHdrSize then truncated else
    v ← lift "runtimeHdr" (IL_READ_UINT32 data base);
    if negb (v =? runtimeHdrSize) then mret (inl IL_LOADERR_NOT_IL)
    else check_version flags runtimeHdrSize data base
  else if isCorMeta then mret (inr (0, false, false))
  else
    if size <? 4 then truncated else
    runtimeHdrSize ← lift "runtimeHdr" (IL_READ_UINT32 data base);
    if (runtimeHdrSize <? 48) || (1024 <? runtimeHdrSize) then mret (inl IL_LOADERR_NOT_IL)
    else if size <? runtimeHdrSize then truncated
    else check_version flags runtimeHdrSize data base.

(** With the section table read: the image. *)
Definition load_sections (stream : bool) (flags : Z) (h : pe_header) (t : section_table)
    : comp ILInputContext (Z + loaded_image) :=
  d ← load_data stream flags t;
  match d with
  | inl e => mret (inl e)
  | inr (isMapped, isInPlace, data) =>
      let map := adjust (minAddress t) <$> sections t in
      let base := ConvertVirtAddrToReal map (table_base t) in
      if base =? IL_BAD_ADDRESS then mret (inl IL_LOADERR_BAD_ADDR) else
      let len := maxAddress t - minAddress t in
      r ← runtime_header flags (ulong (len - base)) (runtimeHdrSize h) (isCorMeta t) data base;
      match r with
      | inl e => mret (inl e)
      | inr (runtimeHdrSize, hadNative, only32Bit) =>
          mret (inr (mkLoaded flags
            (if isOBJ h then IL_IMAGETYPE_OBJ else if isDLL h then IL_IMAGETYPE_DLL else IL_IMAGETYPE_EXE)
            (Z.land flags IL_LOADFLAG_INSECURE =? 0) hadNative only32Bit isMapped isInPlace map data len
            (table_base t) runtimeHdrSize (minAddress t) (named t)))
      end
  end.

Definition read_image (stream : bool) (flags : Z) : comp ILInputContext (Z + loaded_image) :=
  r ← read_table;
  match r with
  | inl e => mret (inl e)
  | inr (h, t) => load_sections stream flags h t
  end.

(** What reads the metadata of an image, and what looks again for the references that it
    put off. *)
Context (_ILImageParseMeta : loaded_image -> comp ILContext Z) (_ILImageRedoReferences : comp ILContext Z).

(** The metadata of an image that is made: an error, or 0. *)
Definition load_metadata (image : loaded_image) : comp ILContext Z :=
  let flags := loadFlags image in
  _ ← modify (fun c => mkContext (redoLevel c + 1) (numRedoItems c));
  error ← (if Z.land flags IL_LOADFLAG_NO_METADATA =? 0 then _ILImageParseMeta image else mret 0);
  _ ← modify (fun c => mkContext (redoLevel c - 1) (numRedoItems c));
  c ← get id;
  error ← (if (redoLevel c =? 0) && (0 <? numRedoItems c) then
             error ← (if (error =? 0) || negb (Z.land flags IL_LOADFLAG_IGNORE_ERRORS =? 0)
                      then _ILImageRedoReferences else mret error);
             _ ← modify (fun c => mkContext (redoLevel c) 0);
             mret error
           else mret error);
  mret (if negb (Z.land flags IL_LOADFLAG_IGNORE_ERRORS =? 0) then 0 else error).

(** The error, and the image, if it is kept. *)
Definition ImageLoad (stream : bool) (flags : Z) (bytes : list Z) : comp ILContext (Z * option loaded_image) :=
  match read_image stream flags (mkInput bytes []) with
  | Failed f => fail f
  | Done (inl e) _ => mret (e, None)
  | Done (inr image) _ =>
      error ← load_metadata image;
      mret (error, if error =? 0 then Some image else None)
  end.

Definition ILImageLoad (flags : Z) (file : list Z) := ImageLoad true flags file.
Definition ILImageLoadFromMemory (flags : Z) (buffer : list Z) := ImageLoad false (Z.lor flags IL_LOADFLAG_NO_MAP) buffer.
End load.

(** ** Addresses of an image *)

Definition ILImageMapAddress (image : loaded_image) (address : Z) : option Z :=
  let realAddr := ConvertVirtAddrToReal (image_map image) address in
  if negb (realAddr =? IL_BAD_ADDRESS) then Some realAddr else None.

(** The address, and the number of bytes that are left in the section. *)
Fixpoint map_rva (map : list ILSectionMap) (rva : Z) : option (Z * Z) :=
  match map with
  | [] => None
  | s :: map =>
      if in_section s rva then
        let rva := ulong (rva - virtAddr s + realAddr s) in
        Some (rva, ulong (realSize s - (rva - realAddr s)))
      else map_rva map rva
  end.
Definition ILImageMapRVA (image : loaded_image) (rva : Z) : option (Z * Z) := map_rva (image_map image) rva.

Definition ILImageRealOffset (image : loaded_image) (address : Z) : Z :=
  let realAddr := ConvertVirtAddrToReal (image_map image) address in
  if negb (realAddr =? IL_BAD_ADDRESS) then ulong (realStart image + realAddr) else 0.

(** ** Ranges *)

Record ILRange := mkRange { start : Z; end_ : Z }.
Definition IL_MAX_RANGES : Z := 16.

(** The range [r] without the bytes from [s] to [e], and the range that is split off.
    [full] is whether there is no room for another one. *)
Definition subtract_one (full : bool) (s e : Z) (r : ILRange) : ILRange * option ILRange :=
  if (s <=? start r) && (start r <? e) then
    if end_ r <=? e then (mkRange (end_ r) (end_ r), None) else (mkRange e (end_ r), None)
  else if (s <? end_ r) && (end_ r <=? e) then
    if s <=? start r then (mkRange (start r) (start r), None) else (mkRange (start r) s, None)
  else if (start r <=? s) && (e <=? end_ r) then
    if full then (r, None) else (mkRange (start r) s, Some (mkRange e (end_ r)))
  else (r, None).

(** The loop from position [posn] on: the ranges before it, the other way round, and those from there. *)
Fixpoint subtract_loop (fuel : nat) (s e : Z) (before after : list ILRange) : comp unit (list ILRange) :=
  match after with
  | [] => mret (rev before)
  | r :: after =>
      match fuel with
      | O => fail Out_of_fuel
      | S fuel =>
          let full := IL_MAX_RANGES <=? Z.of_nat (length before + S (length after)) in
          let '(r, more) := subtract_one full s e r in
          subtract_loop fuel s e (r :: before) (after ++ match more with Some r => [r] | None => [] end)
      end
  end.
Definition SubtractFromRange (ranges : list ILRange) (start end_ : Z) : comp unit (list ILRange) :=
  subtract_loop (Z.to_nat IL_MAX_RANGES) start end_ [] ranges.

Definition TrimHighRange (ranges : list ILRange) (address : Z) : list ILRange :=
  (fun r => if end_ r =? address then mkRange (end_ r) (end_ r) else r) <$> ranges.

(** Start and size. *)
Definition FindLargestRange (ranges : list ILRange) : comp unit (Z * Z) :=
  match ranges with
  | [] => fail (Undefined "range")
  | r :: ranges =>
      let size := ulong (end_ r - start r) in
      mret (foldl (fun s r => if size <? ulong (end_ r - start r) then start r else s) (start r) ranges, size)
  end.

(** ** The sections of an image *)

(** The magic number of resources that are 128 bytes late. *)
Definition probe_resources (image : loaded_image) (address : Z) : comp unit bool :=
  match ILImageMapAddress image address with
  | None => mret false
  | Some probe =>
      b ← lift "probe" (byte_at (data image) (probe + 132));
      if negb (b =? 0xCE) then mret false else
      b ← lift "probe" (byte_at (data image) (probe + 133));
      if negb (b =? 0xCA) then mret false else
      b ← lift "probe" (byte_at (data image) (probe + 134));
      if negb (b =? 0xEF) then mret false else
      b ← lift "probe" (byte_at (data image) (probe + 135));
      mret (b =? 0xBE)
  end.

(** A field of the runtime header, which is at [runtimeHdr]. *)
Definition header_field (image : loaded_image) (runtimeHdr offset : Z) : comp unit Z :=
  lift "runtimeHdr" (IL_READ_UINT32 (data image) (runtimeHdr + offset)).

(** An address and the size behind it; they are taken off the ranges if there are both. *)
Definition subtract_field (image : loaded_image) (runtimeHdr offset : Z) (ranges : list ILRange)
    : comp unit (list ILRange) :=
  addrTest ← header_field image runtimeHdr offset;
  sizeTest ← header_field image runtimeHdr (offset + 4);
  if negb (addrTest =? 0) && negb (sizeTest =? 0) then
    SubtractFromRange ranges addrTest (ulong (addrTest + sizeTest))
  else mret ranges.

Fixpoint subtract_others (fuel : nat) (image : loaded_image) (runtimeHdr headerPosn : Z) (ranges : list ILRange)
    : comp unit (list ILRange) :=
  if ulong (headerPosn + 8) <=? headerSize image then
    match fuel with
    | O => fail Out_of_fuel
    | S fuel =>
        ranges ← subtract_field image runtimeHdr headerPosn ranges;
        subtract_others fuel image runtimeHdr (ulong (headerPosn + 8)) ranges
    end
  else mret ranges.

(** What is left of the section behind the runtime header. *)
Definition code_section (image : loaded_image) (runtimeHdr : Z) : comp unit (option (Z * Z)) :=
  let addrLowest := ulong (headerAddr image + headerSize image) in
  let addrHighest := TopOfVirtualRange (image_map image) addrLowest in
  let ranges := [mkRange addrLowest addrHighest] in
  '(addrTest, sizeTest) ← (if 0 <? headerSize image then
                             addrTest ← header_field image runtimeHdr 24;
                             sizeTest ← header_field image runtimeHdr 28;
                             mret (addrTest, sizeTest)
                           else mret (0, 0));
  found ← (if negb (addrTest =? 0) && negb (sizeTest =? 0) && (addrTest <? addrHighest)
              && (ulong (addrTest + 136) <=? addrHighest) && (136 <=? sizeTest)
           then probe_resources image addrTest else mret false);
  let '(addrTest, sizeTest) :=
    if (found : bool) then (ulong (addrTest + 128), sizeTest - 128) else (addrTest, sizeTest) in
  ranges ← SubtractFromRange ranges addrTest (ulong (addrTest + sizeTest));
  ranges ← (if 0 <? headerSize image then subtract_field image runtimeHdr 8 ranges else mret ranges);
  ranges ← subtract_others (Z.to_nat (headerSize image)) image runtimeHdr 32 ranges;
  '(addrTest, sizeTest) ← FindLargestRange (TrimHighRange ranges addrHighest);
  let '(addrTest, sizeTest) :=
    if sizeTest =? 0 then (addrLowest, ulong (addrHighest - addrLowest)) else (addrTest, sizeTest) in
  mret (if negb (sizeTest =? 0) then Some (addrTest, sizeTest) else None).

(** Both are there. *)
Definition section_present (address size : Z) : option (Z * Z) :=
  if negb (address =? 0) && negb (size =? 0) then Some (address, size) else None.

(** A pair of fields, in an image with a runtime header. *)
Definition header_section (image : loaded_image) (runtimeHdr offset : Z) : comp unit (option (Z * Z)) :=
  if headerSize image =? 0 then mret None else
  address ← header_field image runtimeHdr offset;
  size ← header_field image runtimeHdr (offset + 4);
  mret (section_present address size).

(** Address and size of a section when the program runs; [None] if the result is 0. *)
Definition _ILImageGetSection (image : loaded_image) (section : Z) : comp unit (option (Z * Z)) :=
  let n := image_named image in
  match ILImageMapAddress image (headerAddr image) with
  | None => mret None
  | Some runtimeHdr =>
      if section =? IL_SECTION_HEADER then mret (section_present (headerAddr image) (headerSize image))
      else if section =? IL_SECTION_CODE then code_section image runtimeHdr
      else if section =? IL_SECTION_METADATA then
        if negb (headerSize image =? 0) then header_section image runtimeHdr 8
        else
          let top := TopOfVirtualRange (image_map image) (headerAddr image) in
          mret (section_present (headerAddr image) (if 0 <? top then ulong (top - headerAddr image) else top))
      else if section =? IL_SECTION_RESOURCES then
        if headerSize image =? 0 then mret None else
        address ← header_field image runtimeHdr 24;
        size ← header_field image runtimeHdr 28;
        found ← (if 136 <=? size then probe_resources image address else mret false);
        mret (if (found : bool) then section_present (ulong (address + 128)) (size - 128) else section_present address size)
      else if section =? IL_SECTION_STRONG_NAMES then header_section image runtimeHdr 32
      else if section =? IL_SECTION_CODE_MANAGER then header_section image runtimeHdr 40
      else if section =? IL_SECTION_DEBUG then mret (section_present (debugRVA n) (debugSize n))
      else if section =? IL_SECTION_DATA then mret (section_present (dataRVA n) (dataSize n))
      else if section =? IL_SECTION_TLS then mret (section_present (tlsRVA n) (tlsSize n))
      else if section =? IL_SECTION_WINRES then mret (section_present (rsrcRVA n) (rsrcSize n))
      else mret None
  end.

Definition ILImageGetSectionAddr (image : loaded_image) (section : Z) : comp unit Z :=
  r ← _ILImageGetSection image section;
  mret (match r with None => 0 | Some (virtAddr, _) => virtAddr end).
Definition ILImageGetSectionSize (image : loaded_image) (section : Z) : comp unit Z :=
  r ← _ILImageGetSection image section;
  mret (match r with None => 0 | Some (_, virtSize) => virtSize end).

(** Where the section is in the data, and its size. *)
Definition ILImageGetSection (image : loaded_image) (section : Z) : comp unit (option (Z * Z)) :=
  if image_type image =? IL_IMAGETYPE_BUILDING then mret None else
  r ← _ILImageGetSection image section;
  mret (match r with
        | None => None
        | Some (virtAddr, virtSize) => (fun address => (address, virtSize)) <$> ILImageMapAddress image virtAddr
        end).

Definition ILImageGetEntryPoint (image : loaded_image) : comp unit Z :=
  if negb (image_type image =? IL_IMAGETYPE_BUILDING) then
    match ILImageMapAddress image (headerAddr image) with
    | Some runtimeHdr => header_field image runtimeHdr 20
    | None => mret 0
    end
  else mret 0.
End pecoff.
