(* ===== verification/PeCoffSafe.v ===== *)
(** * PeCoffSafe: an image that is loaded has its sections

    What the loader of PeCoff promises for any file: reading the headers stays inside the
    buffer, and the addresses of an image that is copied into memory are mapped into the
    copy.  The exception is the uninitialised data of an object file, [holes_fit]; where
    the code does not keep more than that, a theorem at the end shows it. *)
From S2P Require Import Prelude Values MetaHeader PeCoff.

(** ** Reading *)

Section reading.
Context `{Host}.

(** The bytes that are read, and those in the buffer. *)
Definition ctx_ok (c : ILInputContext) : Prop := Forall is_byte (input c) /\ Forall is_byte (buffer c).

(** The buffer has been written up to [n]. *)
Definition filled (n : Z) (c : ILInputContext) : Prop := ctx_ok c /\ n <= Z.of_nat (length (buffer c)).

(** A computation that does not fail. *)
Definition runs {A} (m : comp ILInputContext A) (Q : A -> ILInputContext -> Prop) (c : ILInputContext) : Prop :=
  wp (fun _ => False) m Q c.

Lemma read_buffer_runs pos len n c :
  filled n c -> 0 <= pos <= n -> 0 <= len -> pos + len <= 1024 ->
  runs (read_buffer pos len) (fun k c' => filled n c' /\ filled (pos + k) c' /\ 0 <= k <= len) c.
Proof.
  intros [[Hi Hb] Hn] Hp Hl Hend. unfold runs, read_buffer. apply wp_bind, wp_get. cbv zeta.
  rewrite (proj2 (Z.ltb_ge 1024 _)), (proj2 (Z.ltb_ge _ pos)) by (unfold id; lia). cbn [orb].
  apply wp_bind, wp_modify, wp_ret. unfold id, filled, ctx_ok. cbn [input buffer].
  assert (length (take (Z.to_nat len) (input c)) <= Z.to_nat len)%nat as Ht by (rewrite length_take; lia).
  rewrite !length_app, length_drop, !length_take.
  rewrite !Forall_app. split_and!; first [lia | by eauto using Forall_take, Forall_drop].
Qed.

(** The bytes that were read are there if their number is the one asked for. *)
Lemma read_exact pos len n c (Q : bool -> ILInputContext -> Prop) :
  filled n c -> 0 <= pos <= n -> 0 <= len -> pos + len <= 1024 ->
  (forall c', filled n c' -> Q true c') -> (forall c', filled n c' -> filled (pos + len) c' -> Q false c') ->
  runs (read_buffer pos len) (fun k c' => Q (negb (k =? len)) c') c.
Proof.
  intros Hc Hp Hl He Ht Hf. eapply wp_mono; [| by apply (read_buffer_runs pos len n)].
  intros k c' (Hn & Hk & _). destruct (Z.eqb_spec k len) as [-> |]; [by apply Hf | by apply Ht].
Qed.

Lemma buffer_byte_runs i n c : filled n c -> 0 <= i < n -> runs (buffer_byte i) (fun b c' => is_byte b /\ c' = c) c.
Proof.
  intros [[_ Hb] Hn] Hi. unfold runs, buffer_byte. apply wp_bind, wp_get.
  destruct (byte_at_in_range (buffer c) i) as [b E]; [lia |]. rewrite E. apply wp_ret.
  split; [by apply byte_at_Some in E as [_ E]; apply E | done].
Qed.
Lemma buffer_uint16_runs i n c :
  filled n c -> 0 <= i -> i + 2 <= n -> runs (buffer_uint16 i) (fun v c' => 0 <= v < 2 ^ 16 /\ c' = c) c.
Proof.
  intros [_ Hn] Hi He. unfold runs, buffer_uint16. apply wp_bind, wp_get.
  destruct (read16_total (buffer c) i) as (v & -> & Hv); [lia | lia |]. by apply wp_ret.
Qed.
Lemma buffer_uint32_runs i n c :
  filled n c -> 0 <= i -> i + 4 <= n -> runs (buffer_uint32 i) (fun v c' => 0 <= v < 2 ^ 32 /\ c' = c) c.
Proof.
  intros [_ Hn] Hi He. unfold runs, buffer_uint32. apply wp_bind, wp_get.
  destruct (read32_total (buffer c) i) as (v & -> & Hv); [lia | lia |]. by apply wp_ret.
Qed.

Lemma runs_bind {A B} (m : comp ILInputContext A) (f : A -> comp ILInputContext B) P Q c :
  runs m P c -> (forall a c', P a c' -> runs (f a) Q c') -> runs (m ≫= f) Q c.
Proof. intros Hm Hf. apply wp_bind. by eapply wp_mono. Qed.
Lemma runs_ret {A} (a : A) (Q : A -> ILInputContext -> Prop) c : Q a c -> runs (mret a) Q c.
Proof. by apply wp_ret. Qed.
Lemma runs_if {A} (b : bool) (m n : comp ILInputContext A) Q c :
  (b = true -> runs m Q c) -> (b = false -> runs n Q c) -> runs (if b then m else n) Q c.
Proof. by apply wp_if. Qed.

Lemma seek_loop_runs fuel cur dest n c :
  filled n c -> 0 <= n -> dest - cur <= Z.of_nat fuel -> runs (seek_loop fuel cur dest) (fun _ c' => filled n c') c.
Proof.
  revert cur c. induction fuel as [| fuel IH]; intros cur c Hc Hn Hf; cbn [seek_loop].
  - rewrite (proj2 (Z.ltb_ge cur dest)) by lia. by apply runs_ret.
  - apply runs_if; intros Hlt; [| by apply runs_ret]. apply Z.ltb_lt in Hlt. cbv zeta.
    eapply runs_bind; [apply (read_buffer_runs 0 _ n c Hc); [lia | |]; destruct (Z.ltb_spec 1024 (dest - cur)); lia |].
    intros k c' (Hc' & _ & _). apply runs_if; intros _; [by apply runs_ret |].
    apply IH; [done | done |]. destruct (Z.ltb_spec 1024 (dest - cur)); lia.
Qed.
Lemma SeekWithinStream_runs cur dest n c :
  filled n c -> 0 <= n -> runs (SeekWithinStream cur dest) (fun _ c' => filled n c') c.
Proof. intros Hc Hn. apply seek_loop_runs; [done | done | lia]. Qed.

(** A read that has to give all its bytes, and what follows. *)
Lemma read_or {A} pos len n (m1 m2 : comp ILInputContext A) Q c :
  filled n c -> 0 <= pos <= n -> 0 <= len -> pos + len <= 1024 ->
  (forall c', filled n c' -> runs m1 Q c') ->
  (forall c', filled n c' -> filled (pos + len) c' -> runs m2 Q c') ->
  runs (k ← read_buffer pos len; if negb (k =? len) then m1 else m2) Q c.
Proof.
  intros Hc Hp Hl He H1 H2. eapply runs_bind; [by apply (read_buffer_runs pos len n) |].
  intros k c' (Hn & Hk & _). destruct (Z.eqb_spec k len) as [-> |]; [by apply H2 | by apply H1].
Qed.

Lemma filled_le n m c : filled n c -> m <= n -> filled m c.
Proof. intros [Hc Hn] Hm. split; [done | lia]. Qed.
Lemma truncated_runs {A} (Q : Z + A -> ILInputContext -> Prop) c : Q (inl IL_LOADERR_TRUNCATED) c -> runs truncated Q c.
Proof. by apply wp_ret. Qed.

(** Errors are errors. *)
Definition good {A} (P : A -> Prop) (r : Z + A) : Prop :=
  match r with inl e => e <> 0 | inr a => P a end.

Ltac weaken := eapply filled_le; [eassumption | lia].
(** The error results of a reader with the buffer filled up to [n]. *)
Ltac ends := first [apply truncated_runs | apply runs_ret]; split; [weaken | cbn; discriminate].

(** The PE header behind a DOS stub, of which two bytes are read. *)
Lemma find_header_runs c :
  ctx_ok c ->
  runs find_header (fun r c' => filled 0 c' /\ good (fun _ => filled 20 c') r) c.
Proof.
  intros Hc0. assert (filled 0 c) as Hc by (split; [done | lia]). clear Hc0. unfold find_header.
  apply (read_or 0 2 0); [done | lia | lia | lia | intros; ends |]. clear c Hc. intros c _ Hc. simpl (0 + 2) in Hc.
  eapply runs_bind; [apply (buffer_byte_runs 0 2); [done | lia] |]. intros b0 ? [_ ->].
  eapply runs_bind; [apply (buffer_byte_runs 1 2); [done | lia] |]. intros b1 ? [_ ->].
  apply runs_if; intros _; [| apply runs_if; intros _; [| apply runs_if; intros _; [| ends]]].
  - apply (read_or 2 62 2); [done | lia | lia | lia | intros; ends |]. clear c Hc. intros c _ Hc. simpl (2 + 62) in Hc.
    eapply runs_bind; [apply (buffer_uint32_runs 60 64); [done | lia | lia] |]. intros base ? [_ ->].
    apply runs_if; intros _; [ends |].
    eapply runs_bind; [apply (SeekWithinStream_runs _ _ 64); [done | lia] |]. clear c Hc. intros ok c Hc; cbv beta in Hc.
    apply runs_if; intros _; [ends |].
    apply (read_or 0 4 64); [done | lia | lia | lia | intros; ends |]. clear c Hc. intros c Hc _.
    do 4 (eapply runs_bind; [apply (buffer_byte_runs _ 64); [done | lia] |]; intros ? ? [_ ->]).
    apply runs_if; intros _; [ends |].
    apply (read_or 0 20 64); [done | lia | lia | lia | intros; ends |].
    clear c Hc. intros c Hc _. apply runs_ret. split; weaken.
  - apply (read_or 2 18 2); [done | lia | lia | lia | intros; ends |]. clear c Hc. intros c _ Hc. simpl (2 + 18) in Hc.
    apply runs_ret. split; weaken.
  - apply (read_or 0 6 2); [done | lia | lia | lia | intros; ends |].
    clear c Hc. intros c Hc _. apply wp_bind, wp_get. apply runs_if; intros _; ends.
Qed.

(** The fields of the headers that the rest of the loader relies on. *)
Definition header_ok (h : pe_header) : Prop :=
  0 <= base h < 2 ^ 32 /\ (runtimeHdrSize h = 0 \/ 48 <= runtimeHdrSize h <= 1024).

Lemma read_headers_runs c :
  ctx_ok c -> runs read_headers (fun r c' => filled 0 c' /\ good header_ok r) c.
Proof.
  intros Hc. unfold read_headers. eapply runs_bind; [by apply find_header_runs |]. clear c Hc.
  intros [e | [off isOBJ]] c [H0 Hc]; cbn [good] in Hc; [by apply runs_ret |].
  eapply runs_bind; [apply (buffer_uint16_runs 18 20); [done | lia | lia] |]. intros flags ? [_ ->].
  eapply runs_bind; [apply (buffer_uint16_runs 16 20); [done | lia | lia] |]. intros size ? [Hs ->].
  eapply runs_bind; [apply (buffer_uint16_runs 2 20); [done | lia | lia] |]. intros num ? [_ ->]. cbv zeta.
  apply runs_if; intros Hsize; [ends |]. apply runs_if; intros _; [ends |].
  apply runs_if; intros Hz; [| apply runs_ret; split; [weaken | split; cbn; lia]].
  rewrite Hz in Hsize. cbn [andb] in Hsize. apply orb_false_iff in Hsize as [Hlo Hhi].
  apply Z.ltb_ge in Hlo, Hhi.
  apply (read_or 0 size 20); [done | lia | lia | lia | intros; ends |]. clear c H0 Hc. intros c _ Hc.
  eapply runs_bind; [apply (buffer_byte_runs 0 (0 + size)); [done | lia] |]. intros b0 ? [_ ->].
  eapply runs_bind; [apply (buffer_byte_runs 1 (0 + size)); [done | lia] |]. intros b1 ? [_ ->].
  apply runs_if; intros _; [ends |].
  eapply runs_bind; [apply (buffer_uint32_runs 92 (0 + size)); [done | lia | lia] |]. intros num' ? [_ ->].
  apply runs_if; intros _; [ends |].
  eapply runs_bind; [apply (buffer_uint32_runs 208 (0 + size)); [done | lia | lia] |]. intros base ? [Hbase ->].
  eapply runs_bind; [apply (buffer_uint32_runs 212 (0 + size)); [done | lia | lia] |]. intros hdr ? [_ ->].
  apply runs_if; intros Hh; [ends |]. apply orb_false_iff in Hh as [Hl Hg]. apply Z.ltb_ge in Hl, Hg.
  apply runs_ret. split; [weaken | split; cbn [PeCoff.base PeCoff.runtimeHdrSize]; lia].
Qed.

(** ** The section table *)

(** A section has 32-bit fields, and what it is loaded from fits 32 bits. *)
Definition section_ok (s : ILSectionMap) : Prop :=
  0 <= virtAddr s /\ 0 <= virtSize s <= realSize s /\ virtAddr s + virtSize s < 2 ^ 32 /\
  0 <= realAddr s /\ realAddr s + realSize s < 2 ^ 32.

(** The bytes of a section are loaded, unless it has none or is thought to have none. *)
Definition placed (t : section_table) (s : ILSectionMap) : Prop :=
  realSize s = 0 \/ realAddr s = 0 \/ minAddress t <= realAddr s /\ realAddr s + realSize s <= maxAddress t.

Definition table_ok (t : section_table) : Prop :=
  Forall (fun s => section_ok s /\ placed t s) (sections t) /\
  0 <= minAddress t < 2 ^ 32 /\ 0 <= maxAddress t < 2 ^ 32 /\ 0 <= table_base t < 2 ^ 32.

Lemma too_big_fits a n : 0 <= a < 2 ^ 32 -> 0 <= n < 2 ^ 32 -> too_big a n = false -> a + n < 2 ^ 32.
Proof.
  unfold too_big. change 0xFFFFFFFF with (Z.ones 32). rewrite Z.land_ones, Z.ltb_ge by lia. intros Ha Hn Hb.
  unfold ulong, to_unsigned in Hb.
  destruct (decide (a + n < 2 ^ 32)); [done | exfalso].
  destruct long_bits_cases as [E | E]; rewrite E in Hb; zlia.
Qed.

(** The entry, but for the wrap-around. *)
Lemma read_section_runs n c :
  filled n c -> 40 <= n ->
  runs read_section (fun s c' => c' = c /\ 0 <= virtAddr s < 2 ^ 32 /\ 0 <= virtSize s <= realSize s /\
    realSize s < 2 ^ 32 /\ 0 <= realAddr s < 2 ^ 32) c.
Proof.
  intros Hc Hn. unfold read_section.
  eapply runs_bind; [apply (buffer_uint32_runs 12 n); [done | lia | lia] |]. intros va ? [Hva ->].
  eapply runs_bind; [apply (buffer_uint32_runs 8 n); [done | lia | lia] |]. intros vs ? [Hvs ->].
  eapply runs_bind; [apply (buffer_uint32_runs 20 n); [done | lia | lia] |]. intros ra ? [Hra ->].
  eapply runs_bind; [apply (buffer_uint32_runs 16 n); [done | lia | lia] |]. intros rs ? [Hrs ->].
  apply runs_ret. split; [done |].
  destruct (Z.ltb_spec rs vs); [| destruct (Z.eqb_spec vs 0); [destruct (Z.eqb_spec va 0) |]]; cbn; lia.
Qed.

(** Taking a section in. *)
Lemma set_place_ok s t :
  Forall (fun s => section_ok s /\ placed t s) (tail (sections t)) -> head (sections t) = Some s -> section_ok s ->
  0 <= minAddress t < 2 ^ 32 /\ 0 <= maxAddress t < 2 ^ 32 /\ 0 <= table_base t < 2 ^ 32 ->
  table_ok (set_place s t).
Proof.
  intros Hl Hh Hs Hb. pose proof Hs as (? & ? & ? & ? & ?). unfold table_ok, set_place.
  destruct (sections t) as [| s' sl] eqn:El; [done |]. injection Hh as ->. cbn [tail] in Hl.
  destruct (Z.ltb_spec 0 (realSize s)) as [Hp | Hp].
  - cbn [sections minAddress maxAddress table_base]. rewrite ulong_small by lia.
    split.
    + constructor; [split; [done |] | eapply Forall_impl; [exact Hl |]].
      * right; right. cbn. destruct (Z.ltb_spec (realAddr s) (minAddress t)), (Z.ltb_spec (maxAddress t) (realAddr s + realSize s)); lia.
      * intros r [Hr Hpr]. split; [done |]. unfold placed in *. cbn [minAddress maxAddress].
        destruct Hpr as [| [|]]; [by left | by right; left | right; right].
        destruct (Z.ltb_spec (realAddr s) (minAddress t)), (Z.ltb_spec (maxAddress t) (realAddr s + realSize s)); lia.
    + destruct (Z.ltb_spec (realAddr s) (minAddress t)), (Z.ltb_spec (maxAddress t) (realAddr s + realSize s)); lia.
  - split; [| done]. rewrite ?El. constructor; [split; [done | left; lia] | done].
Qed.

Lemma add_named_ok hdr b s t : table_ok t -> section_ok s -> table_ok (add_named hdr b s t).
Proof.
  intros (Hl & Hmin & Hmax & Hbase) Hs. pose proof Hs as (? & ? & ? & ? & ?). unfold add_named. cbv zeta.
  repeat match goal with |- table_ok (if ?c then _ else _) => destruct c eqn:? end;
    try (apply set_place_ok; [exact Hl | done | done | cbn; lia]).
  apply andb_true_iff in Heqb7 as [_ Hz%Z.eqb_eq]. split; [| done].
  constructor; [split; [done | by right; left] | done].
Qed.

Lemma read_sections_runs num hdr off t c :
  filled 0 c -> table_ok t ->
  runs (read_sections num hdr off t) (fun r c' => filled 0 c' /\ good (fun '(_, t) => table_ok t) r) c.
Proof.
  revert off t c. induction num as [| num IH]; intros off t c Hc Ht; cbn [read_sections]; [by apply runs_ret |].
  apply (read_or 0 40 0); [done | lia | lia | lia | intros; ends |]. clear c Hc. intros c _ Hc. simpl (0 + 40) in Hc.
  eapply runs_bind; [by apply (read_section_runs 40) |]. intros s ? (-> & Hva & Hvs & Hrs & Hra).
  apply runs_if; intros Hbig; [ends |]. apply orb_false_iff in Hbig as [Hv Hr].
  apply too_big_fits in Hv, Hr; [| lia ..].
  apply wp_bind, wp_get. apply IH; [weaken |]. apply add_named_ok; [done |]. unfold section_ok. lia.
Qed.

(** The table that is read is good, and the header it goes with. *)
Lemma read_table_runs c :
  ctx_ok c ->
  runs read_table (fun r c' => ctx_ok c' /\
    good (fun '(h, t) => header_ok h /\ table_ok t /\ minAddress t < maxAddress t) r) c.
Proof.
  intros Hc. unfold read_table. eapply runs_bind; [by apply read_headers_runs |]. clear c Hc.
  intros [e | h] c [Hc Hh]; cbn [good] in Hh; [apply runs_ret; split; [apply Hc | done] |].
  eapply runs_bind; [apply read_sections_runs; [done |] |].
  { destruct Hh as [Hb _]. split; [constructor |]. cbn. lia. }
  clear c Hc. intros [e | [off t]] c [Hc Ht]; cbn [good] in Ht; [apply runs_ret; split; [apply Hc | done] |].
  apply runs_if; intros Hm; [apply runs_ret; split; [apply Hc | done] |]. apply Z.leb_gt in Hm.
  apply runs_if; intros _; [apply runs_ret; split; [apply Hc | done] |].
  eapply runs_bind; [apply (SeekWithinStream_runs _ _ 0); [done | lia] |]. clear c Hc. intros ok c Hc; cbv beta in Hc.
  apply runs_if; intros _; [apply truncated_runs; split; [apply Hc | done] |].
  apply runs_ret. split; [apply Hc | by split].
Qed.

(** ** The contents *)

(** The sections at address 0 of the file are no longer than what is loaded. *)
Definition holes_fit (t : section_table) : bool :=
  forallb (fun s => negb (realAddr s =? 0) || (realSize s <=? maxAddress t - minAddress t)) (sections t).

(** A section whose bytes are among [len] bytes of data. *)
Definition inside (len : Z) (s : ILSectionMap) : Prop :=
  0 <= virtAddr s /\ 0 <= virtSize s <= realSize s /\ virtAddr s + virtSize s < 2 ^ 32 /\
  (0 < virtSize s -> 0 <= realAddr s /\ realAddr s + realSize s <= len).

Lemma adjust_inside t s :
  section_ok s -> placed t s -> 0 <= minAddress t < maxAddress t -> maxAddress t < 2 ^ 32 ->
  (realAddr s = 0 -> realSize s <= maxAddress t - minAddress t) ->
  inside (maxAddress t - minAddress t) (adjust (minAddress t) s).
Proof.
  intros (? & ? & ? & ? & ?) Hp Hm Hmax Hh. unfold inside, adjust. cbn [virtAddr virtSize realAddr realSize].
  split_and!; [done | lia | lia | done |]. intros Hv.
  destruct (Z.eqb_spec (realAddr s) 0) as [E | E]; [specialize (Hh E); lia |].
  destruct Hp as [| [|]]; [lia | done |]. rewrite ulong_small; lia.
Qed.

Lemma table_inside t :
  table_ok t -> minAddress t < maxAddress t -> holes_fit t = true ->
  Forall (inside (maxAddress t - minAddress t)) (adjust (minAddress t) <$> sections t).
Proof.
  intros (Hl & Hmin & Hmax & _) Hm Hh. unfold holes_fit in Hh. rewrite forallb_forall in Hh.
  apply Forall_fmap, Forall_forall. intros s Hs. rewrite Forall_forall in Hl.
  destruct (Hl s Hs) as [Hok Hp]. apply adjust_inside; [done | done | lia | lia |]. intros E.
  specialize (Hh s (proj1 (list_elem_of_In _ _) Hs)). rewrite E in Hh. cbn in Hh. by apply Z.leb_le in Hh.
Qed.

(** The address of a byte of a section. *)
Lemma in_section_real len s a :
  inside len s -> len < 2 ^ 32 -> in_section s a = true ->
  0 <= a - virtAddr s < virtSize s /\ 0 <= realAddr s /\ realAddr s + realSize s <= len /\
  virtAddr s <= a < 2 ^ 32 /\ ulong (a - virtAddr s + realAddr s) = a - virtAddr s + realAddr s.
Proof.
  intros (Hv & Hs & Hw & Hin) Hlen Ha. unfold in_section in Ha.
  apply andb_true_iff in Ha as [Hlo%Z.leb_le Hhi%Z.ltb_lt]. rewrite ulong_small in Hhi by lia.
  destruct Hin as [Hr Hl]; [lia |]. rewrite ulong_small by lia. lia.
Qed.

Lemma convert_inside len map a :
  Forall (inside len) map -> len < 2 ^ 32 ->
  ConvertVirtAddrToReal map a = IL_BAD_ADDRESS \/ 0 <= ConvertVirtAddrToReal map a < len.
Proof.
  intros Hm Hlen. induction Hm as [| s map Hs Hm IH]; cbn [ConvertVirtAddrToReal]; [by left |].
  destruct (in_section s a) eqn:E; [| done]. right.
  destruct (in_section_real len s a Hs Hlen E) as (H1 & H2 & H3 & _ & ->). destruct Hs as (_ & Hs & _). lia.
Qed.

Lemma map_rva_inside len map a p n :
  Forall (inside len) map -> len < 2 ^ 32 -> map_rva map a = Some (p, n) -> 0 <= p /\ 0 < n /\ p + n <= len.
Proof.
  intros Hm Hlen. induction Hm as [| s map Hs Hm IH]; cbn [map_rva]; [done |].
  destruct (in_section s a) eqn:E; [| done]. cbv zeta. intros [= <- <-].
  destruct (in_section_real len s a Hs Hlen E) as (H1 & H2 & H3 & H4 & ->). destruct Hs as (_ & Hs & _).
  rewrite ulong_small; lia.
Qed.

(** An image whose addresses are mapped into its data. *)
Record image_inside (image : loaded_image) : Prop := {
  inside_map : Forall (inside (image_len image)) (image_map image);
  inside_len : image_len image = Z.of_nat (length (data image)) /\ image_len image < 2 ^ 32;
  inside_header : exists p, ILImageMapAddress image (headerAddr image) = Some p /\
    (headerSize image = 0 \/ 48 <= headerSize image <= 1024 /\ p + headerSize image <= image_len image)
}.

Lemma image_maps_address image a p :
  image_inside image -> ILImageMapAddress image a = Some p -> 0 <= p < Z.of_nat (length (data image)).
Proof.
  intros [Hm [<- Hl] _]. unfold ILImageMapAddress.
  destruct (convert_inside _ _ a Hm Hl) as [-> | Hc]; [done |].
  destruct (_ =? IL_BAD_ADDRESS); [done |]. by intros [= <-].
Qed.
Lemma image_maps_rva image a p n :
  image_inside image -> ILImageMapRVA image a = Some (p, n) ->
  0 <= p /\ 0 < n /\ p + n <= Z.of_nat (length (data image)).
Proof. intros [Hm [<- Hl] _]. by apply map_rva_inside. Qed.

(** The version and the flags, in data that has them. *)
Lemma check_version_runs flags n bytes p c :
  0 <= p -> 48 <= n <= 1024 -> p + n <= Z.of_nat (length bytes) ->
  runs (check_version flags n bytes p) (fun r _ => good (fun '(size, _, _) => size = n) r) c.
Proof.
  intros Hp Hn Hl. unfold check_version.
  destruct (read16_total bytes (p + 4)) as (v & -> & _); [lia | lia |]. apply wp_bind, wp_ret.
  apply runs_if; intros _; [by apply runs_ret |].
  destruct (read32_total bytes (p + 16)) as (w & -> & _); [lia | lia |]. apply wp_bind, wp_ret. cbv zeta.
  apply runs_if; intros _; [apply runs_if; intros _ |]; by apply runs_ret.
Qed.

Lemma runtime_header_runs flags n corMeta bytes p c :
  0 <= p < Z.of_nat (length bytes) -> n = 0 \/ 48 <= n <= 1024 ->
  runs (runtime_header flags (Z.of_nat (length bytes) - p) n corMeta bytes p)
    (fun r _ => good (fun '(size, _, _) =>
       size = 0 \/ 48 <= size <= 1024 /\ p + size <= Z.of_nat (length bytes)) r) c.
Proof.
  intros Hp Hn. unfold runtime_header. apply runs_if; intros Hz.
  - apply negb_true_iff, Z.eqb_neq in Hz. apply runs_if; intros Hs; [by apply runs_ret |]. apply Z.ltb_ge in Hs.
    destruct (read32_total bytes p) as (v & -> & _); [lia | lia |]. apply wp_bind, wp_ret.
    apply runs_if; intros _; [by apply runs_ret |].
    eapply wp_mono; [| apply check_version_runs; lia].
    intros [e | [[size ?] ?]] c'; [done |]. cbn. intros ->. lia.
  - apply runs_if; intros _; [apply runs_ret; by left |].
    apply runs_if; intros Hs; [by apply runs_ret |]. apply Z.ltb_ge in Hs.
    destruct (read32_total bytes p) as (v & -> & _); [lia | lia |]. apply wp_bind, wp_ret.
    apply runs_if; intros Hv; [by apply runs_ret |]. apply orb_false_iff in Hv as [Hlo%Z.ltb_ge Hhi%Z.ltb_ge].
    apply runs_if; intros Hc; [by apply runs_ret |]. apply Z.ltb_ge in Hc.
    eapply wp_mono; [| apply check_version_runs; lia].
    intros [e | [[size ?] ?]] c'; [done |]. cbn. intros ->. lia.
Qed.

(** The contents are read into memory. *)
Definition copies (stream : bool) (flags : Z) : Prop := stream = true \/ Z.land flags IL_LOADFLAG_IN_PLACE = 0.

Lemma load_data_runs stream flags t c :
  copies stream flags -> 0 <= minAddress t < maxAddress t -> maxAddress t < 2 ^ 32 ->
  runs (load_data (fun _ _ => None) stream flags t)
    (fun r _ => good (fun '(m, i, bytes) => m = false /\ i = false /\
       Z.of_nat (length bytes) = maxAddress t - minAddress t) r) c.
Proof.
  intros Hcopy Hm Hmax. unfold load_data. cbv zeta.
  assert ((if Z.land flags IL_LOADFLAG_NO_MAP =? 0 then None else None) = @None (list Z)) as -> by by destruct (_ =? 0).
  apply runs_if; intros Hi.
  { apply andb_true_iff in Hi as [Hs Hf]. destruct Hcopy as [-> | E]; [done |]. by rewrite E in Hf. }
  apply wp_bind, wp_get. apply wp_bind, wp_modify. apply runs_if; intros Hn; [by apply runs_ret |].
  apply runs_ret. split_and!; [done | done |]. apply negb_false_iff, Z.eqb_eq in Hn.
  set (l := length _) in *.
  assert (Z.of_nat l <= maxAddress t - minAddress t) as Hl by (subst l; rewrite length_take; lia).
  unfold ulong, int32, to_unsigned, to_signed in Hn. destruct long_bits_cases as [E | E]; rewrite E in Hn; zlia.
Qed.

Lemma load_sections_runs stream flags h t c :
  copies stream flags -> header_ok h -> table_ok t -> minAddress t < maxAddress t -> holes_fit t = true ->
  runs (load_sections (fun _ _ => None) stream flags h t) (fun r _ => good image_inside r) c.
Proof.
  intros Hcopy [_ Hh] Ht Hm Hfit. pose proof Ht as (_ & Hmin & Hmax & _). unfold load_sections.
  eapply runs_bind; [apply load_data_runs; [done | lia | lia] |].
  intros [e | [[m i] bytes]] c' Hd; cbn [good] in Hd; [by apply runs_ret |]. destruct Hd as (-> & -> & Hlen). cbv zeta.
  pose proof (table_inside t Ht Hm Hfit) as Hin.
  destruct (convert_inside _ _ (table_base t) Hin) as [E | Hc]; [lia | rewrite E; by apply runs_ret |].
  apply runs_if; intros Hb; [by apply runs_ret |].
  rewrite ulong_small, <- Hlen by lia. rewrite <- Hlen in Hc.
  eapply runs_bind; [by apply runtime_header_runs |].
  intros [e | [[n native] only]] c'' Hr; cbn [good] in Hr; [by apply runs_ret |]. apply runs_ret. split.
  - cbn [image_len image_map]. by rewrite Hlen.
  - cbn [image_len data]. lia.
  - eexists. unfold ILImageMapAddress. cbn [image_map headerAddr headerSize image_len]. rewrite Hb. split; [done | exact Hr].
Qed.

(** ** Ranges *)

(** The addresses of ranges. *)
Definition covers (r : ILRange) (x : Z) : Prop := start r <= x < end_ r.
Definition covered (l : list ILRange) (x : Z) : Prop := Exists (fun r => covers r x) l.
Definition apart (r1 r2 : ILRange) : Prop := forall x, ~ (covers r1 x /\ covers r2 x).

Section subtract.
Context (s e : Z).

(** A range without the addresses from [s] to [e], and the part behind them. *)
Definition shrink (r : ILRange) : ILRange := (subtract_one false s e r).1.
Definition split_off (r : ILRange) : option ILRange := (subtract_one false s e r).2.

Lemma split_off_some r r2 : split_off r = Some r2 -> start r <= s /\ e <= end_ r /\ r2 = mkRange e (end_ r).
Proof.
  unfold split_off, subtract_one.
  destruct (Z.leb_spec s (start r)), (Z.ltb_spec (start r) e), (Z.ltb_spec s (end_ r)), (Z.leb_spec (end_ r) e),
    (Z.leb_spec (start r) s), (Z.leb_spec e (end_ r)); cbn; intros [= <-]; lia || done.
Qed.

(** What is split off is not changed again. *)
Lemma split_off_fixed full r r2 : s < e -> split_off r = Some r2 -> subtract_one full s e r2 = (r2, None).
Proof.
  intros Hse (H1 & H2 & ->)%split_off_some. unfold subtract_one. cbn [start end_].
  rewrite (proj2 (Z.ltb_ge e e)), andb_false_r, (proj2 (Z.leb_gt e s)), (proj2 (Z.leb_le s e)) by lia. cbn [andb].
  destruct (Z.ltb_spec s (end_ r)), (Z.leb_spec (end_ r) e); cbn [andb]; try done. do 2 f_equal. lia.
Qed.

Lemma subtract_one_room full r : full = false \/ split_off r = None -> subtract_one full s e r = (shrink r, split_off r).
Proof.
  intros [-> | Hn]; [unfold shrink, split_off; apply surjective_pairing |].
  unfold shrink, split_off, subtract_one in *. repeat case_match; done.
Qed.

(** The loop, with room for what is split off; [extra] was split off before. *)
Lemma subtract_loop_run fuel before after extra :
  s < e ->
  Forall (fun r2 => exists r, split_off r = Some r2) extra ->
  (length before + length after + length extra + length (omap split_off after) <= 16)%nat ->
  (length after + length extra + length (omap split_off after) <= fuel)%nat ->
  subtract_loop fuel s e before (after ++ extra) tt
  = Done (rev before ++ (shrink <$> after) ++ extra ++ omap split_off after) tt.
Proof.
  intros Hse. revert before after extra. induction fuel as [| fuel IH]; intros before after extra Hx Hn Hf.
  - destruct after, extra; cbn [length] in Hf; try lia. cbn. by rewrite app_nil_r.
  - destruct after as [| r after]; cbn [app].
    + destruct extra as [| r extra]; cbn [subtract_loop]; [cbn; by rewrite app_nil_r |].
      apply Forall_cons in Hx as [[r0 Hr] Hx]. rewrite (split_off_fixed _ r0) by done. rewrite app_nil_r.
      pose proof (IH (r :: before) [] extra Hx) as IHe. cbn [app length] in IHe, Hn, Hf. rewrite IHe by (cbn in *; lia).
      cbn. by rewrite <- app_assoc.
    + cbn [subtract_loop]. cbv zeta. cbn [length] in Hn, Hf.
      change (omap split_off (r :: after)) with (match split_off r with Some y => y :: omap split_off after | None => omap split_off after end) in *.
      rewrite (subtract_one_room _ r); cycle 1.
      { destruct (split_off r); [left | by right]. cbn [length] in Hn. apply Z.leb_gt. rewrite length_app.
        unfold IL_MAX_RANGES. lia. }
      destruct (split_off r) as [r2 |] eqn:E; cbn [length] in Hn, Hf.
      * rewrite <- app_assoc. rewrite IH; cbn [length].
        -- cbn. by rewrite <- !app_assoc.
        -- apply Forall_app. split; [done |]. constructor; [by exists r | done].
        -- rewrite length_app. cbn [length]. lia.
        -- rewrite length_app. cbn [length]. lia.
      * rewrite app_nil_r, IH; cbn [length]; [| done | lia | lia]. cbn. by rewrite <- app_assoc.
Qed.

(** What is covered. *)
Lemma shrink_covers r x :
  s < e -> covers (shrink r) x \/ (exists r2, split_off r = Some r2 /\ covers r2 x) <-> covers r x /\ ~ (s <= x < e).
Proof.
  intros Hse. unfold shrink, split_off, subtract_one, covers.
  destruct (Z.leb_spec s (start r)), (Z.ltb_spec (start r) e), (Z.ltb_spec s (end_ r)), (Z.leb_spec (end_ r) e),
    (Z.leb_spec (start r) s), (Z.leb_spec e (end_ r)); cbn;
    (split; [intros [? | (? & [= <-] & ?)]; cbn in *; lia |]; intros [? ?]; try (left; lia); exfalso; lia)
    || (split; [intros [? | (? & [=] & ?)]; cbn in *; lia |]; intros [? ?]; try (left; lia); exfalso; lia)
    || (split; [intros [? | (? & [= <-] & ?)]; cbn in *; lia |]; intros [? ?];
        destruct (decide (x < s)); [left; lia | right; eexists; split; [done | cbn; lia]]).
Qed.
End subtract.

Section disjoint.
Context (s e : Z) (Hse : s < e).

Lemma shrink_sub r x : covers (shrink s e r) x -> covers r x.
Proof. intros Hx. apply (shrink_covers s e r x Hse). by left. Qed.
Lemma split_off_sub r r2 x : split_off s e r = Some r2 -> covers r2 x -> covers r x.
Proof. intros Hr Hx. apply (shrink_covers s e r x Hse). right. eauto. Qed.

Lemma shrink_apart r r2 : split_off s e r = Some r2 -> apart (shrink s e r) r2.
Proof.
  unfold shrink, split_off, subtract_one. intros E x. unfold covers.
  destruct (Z.leb_spec s (start r)), (Z.ltb_spec (start r) e), (Z.ltb_spec s (end_ r)), (Z.leb_spec (end_ r) e),
    (Z.leb_spec (start r) s), (Z.leb_spec e (end_ r)); cbn in *; simplify_eq; cbn; lia.
Qed.

(** Only one of the ranges can be split. *)
Lemma split_off_length l : ForallOrdPairs apart l -> (length (omap (split_off s e) l) <= 1)%nat.
Proof.
  induction 1 as [| r l Hr _ IH]; [cbn; lia |].
  change (omap (split_off s e) (r :: l)) with
    (match split_off s e r with Some y => y :: omap (split_off s e) l | None => omap (split_off s e) l end).
  destruct (split_off s e r) as [r2 |] eqn:E; [| done].
  assert (omap (split_off s e) l = []) as ->; [| cbn; lia].
  apply elem_of_nil_inv. intros r3 Hr3. apply list_elem_of_omap in Hr3 as (r' & Hin & E').
  rewrite Forall_forall in Hr. apply (Hr r' Hin s).
  apply split_off_some in E as (? & ? & _), E' as (? & ? & _). unfold covers. lia.
Qed.

Lemma pieces_covered l x :
  covered ((shrink s e <$> l) ++ omap (split_off s e) l) x <-> covered l x /\ ~ (s <= x < e).
Proof.
  unfold covered. rewrite Exists_app, !Exists_exists. setoid_rewrite list_elem_of_fmap. setoid_rewrite list_elem_of_omap.
  split.
  - intros [(? & (r & -> & Hr) & Hx) | (r2 & (r & Hr & E) & Hx)].
    + destruct (proj1 (shrink_covers s e r x Hse)) as [H1 H2]; [by left | eauto].
    + destruct (proj1 (shrink_covers s e r x Hse)) as [H1 H2]; [right; eauto | eauto].
  - intros [(r & Hr & Hx) Hn]. destruct (proj2 (shrink_covers s e r x Hse) (conj Hx Hn)) as [H1 | (r2 & E & H1)]; eauto 8.
Qed.

Lemma shrunk_apart l : ForallOrdPairs apart l -> ForallOrdPairs apart (shrink s e <$> l).
Proof.
  induction 1 as [| r l Hr Hl IH]; cbn; constructor; [| done]. apply Forall_fmap. eapply Forall_impl; [exact Hr |].
  intros r' Ha x [H1%shrink_sub H2%shrink_sub]. by apply (Ha x).
Qed.

Lemma apart_app l1 l2 :
  ForallOrdPairs apart l1 -> ForallOrdPairs apart l2 -> (forall r1 r2, r1 ∈ l1 -> r2 ∈ l2 -> apart r1 r2) ->
  ForallOrdPairs apart (l1 ++ l2).
Proof.
  intros H1 H2. induction H1 as [| r l Hr Hl IH]; intros Ha; [done |]. cbn [app]. constructor.
  - apply Forall_app. split; [done |]. apply Forall_forall. intros r2 Hr2. apply Ha; [by left | done].
  - apply IH. intros r1 r2 Hr1. apply Ha. by right.
Qed.

Lemma in_pairs l r1 r2 : ForallOrdPairs apart l -> r1 ∈ l -> r2 ∈ l -> r1 = r2 \/ apart r1 r2.
Proof.
  intros Hl H1 H2. apply list_elem_of_In in H1, H2. destruct (ForallOrdPairs_In Hl _ _ H1 H2) as [| [|Ha]]; [by left | by right |].
  right. intros x [? ?]. by apply (Ha x).
Qed.

Lemma pieces_apart l :
  ForallOrdPairs apart l -> ForallOrdPairs apart ((shrink s e <$> l) ++ omap (split_off s e) l).
Proof.
  intros Hl. apply apart_app; [by apply shrunk_apart | |].
  - pose proof (split_off_length l Hl). destruct (omap _ l) as [| r [| ? ?]]; [constructor | repeat constructor | cbn in *; lia].
  - intros r1 r2 Hr1 Hr2 x [Hx1 Hx2]. apply list_elem_of_fmap in Hr1 as (r & -> & Hr).
    apply list_elem_of_omap in Hr2 as (r' & Hr' & E).
    destruct (in_pairs l r r' Hl Hr Hr') as [-> | Ha].
    + by apply (shrink_apart r' r2 E x).
    + apply (Ha x). split; [by apply shrink_sub | by eapply split_off_sub].
Qed.
End disjoint.

(** C37: Taking the addresses from [start] to [end] off ranges that are apart, while there
    is room for one more, leaves ranges that are apart and have exactly the other
    addresses. *)
Theorem subtract_from_range ranges s e :
  s < e -> ForallOrdPairs apart ranges -> (length ranges < 16)%nat ->
  exists ranges', SubtractFromRange ranges s e tt = Done ranges' tt /\
    ForallOrdPairs apart ranges' /\ (length ranges' <= length ranges + 1)%nat /\
    forall x, covered ranges' x <-> covered ranges x /\ ~ (s <= x < e).
Proof.
  intros Hse Ha Hl. pose proof (split_off_length s e Hse ranges Ha) as Hs.
  exists ((shrink s e <$> ranges) ++ omap (split_off s e) ranges). split_and!.
  - unfold SubtractFromRange. pose proof (subtract_loop_run s e (Z.to_nat IL_MAX_RANGES) [] ranges [] Hse) as Hrun.
    rewrite app_nil_r in Hrun. cbn [rev app length] in Hrun. change (Z.to_nat IL_MAX_RANGES) with 16%nat in *.
    apply Hrun; [constructor | lia | lia].
  - by apply pieces_apart.
  - rewrite length_app, length_fmap. lia.
  - intros x. by apply pieces_covered.
Qed.

(** Whatever is taken off, the loop ends with one to 16 ranges. *)
Lemma subtract_loop_bound fuel s e before after :
  (16 - length before <= fuel)%nat -> (length before + length after <= 16)%nat ->
  exists l, subtract_loop fuel s e before after tt = Done l tt /\ (length before + length after <= length l <= 16)%nat.
Proof.
  revert before after. induction fuel as [| fuel IH]; intros before after Hf Hl; destruct after as [| r after];
    cbn [subtract_loop length] in *; try lia; try (eexists; split; [done |]; rewrite length_rev; lia).
  cbv zeta. destruct (subtract_one _ s e r) as [r1 more] eqn:E.
  destruct (IH (r1 :: before) (after ++ match more with Some r2 => [r2] | None => [] end)) as (l & -> & Hb).
  - cbn [length]. lia.
  - cbn [length]. rewrite length_app. destruct more; cbn [length]; [| lia].
    unfold subtract_one in E. repeat case_match; simplify_eq. unfold IL_MAX_RANGES in *.
    match goal with Hc : (16 <=? _) = false |- _ => apply Z.leb_gt in Hc end. lia.
  - eexists. split; [done |]. cbn [length] in Hb. rewrite length_app in Hb. lia.
Qed.

(** ** The sections of an image *)

Section image.
Context (image : loaded_image) (Hi : image_inside image).

(** A computation on the image: a result in [Q], or a failure at the probe of the resources. *)
Definition probes {A} (m : comp unit A) (Q : A -> Prop) : Prop :=
  wp (fun f => f = Undefined "probe") m (fun a _ => Q a) tt.

Lemma header_field_total p offset :
  ILImageMapAddress image (headerAddr image) = Some p ->
  0 <= offset -> offset + 4 <= headerSize image -> total (header_field image p offset) (fun v => 0 <= v < 2 ^ 32).
Proof.
  intros Hp H0 Hs. unfold header_field. destruct Hi as [_ [Hl _] (p' & Hp' & Hsize)].
  rewrite Hp in Hp'. injection Hp' as <-. pose proof (image_maps_address image _ p Hi Hp).
  apply total_lift, read32_total; lia.
Qed.

Lemma total_probes {A} (m : comp unit A) P (Q : A -> Prop) : total m P -> (forall a, P a -> Q a) -> probes m Q.
Proof. intros Hm HQ. destruct (Hm tt) as (a & E & Ha). unfold probes, wp. rewrite E. by apply HQ. Qed.

Lemma header_section_total p offset :
  ILImageMapAddress image (headerAddr image) = Some p ->
  0 <= offset <= 40 -> total (header_section image p offset) (fun _ => True).
Proof.
  intros Hp Ho. unfold header_section.
  destruct Hi as [_ _ (p' & Hp' & Hsize)].
  apply total_if; intros Hz; [by apply total_ret |]. apply Z.eqb_neq in Hz.
  eapply total_bind; [apply header_field_total; [done | lia | lia] |]. intros address _.
  eapply total_bind; [apply header_field_total; [done | lia | lia] |]. intros size _. by apply total_ret.
Qed.

Lemma probe_resources_probes a : probes (probe_resources image a) (fun _ => True).
Proof. unfold probes, probe_resources. by wp_run; wp_run. Qed.

Definition room (l : list ILRange) : Prop := (1 <= length l <= 16)%nat.

Lemma SubtractFromRange_total l s e : room l -> total (SubtractFromRange l s e) room.
Proof.
  intros Hl []. destruct (subtract_loop_bound (Z.to_nat IL_MAX_RANGES) s e [] l) as (l' & E & Hb);
    [change (Z.to_nat IL_MAX_RANGES) with 16%nat; lia | unfold room in Hl; cbn; lia |].
  exists l'. split; [done |]. unfold room in *. cbn in Hb. lia.
Qed.

Lemma subtract_field_total p offset l :
  ILImageMapAddress image (headerAddr image) = Some p -> room l ->
  0 <= offset -> offset + 8 <= headerSize image -> total (subtract_field image p offset l) room.
Proof.
  intros Hp Hl H0 Hs. unfold subtract_field.
  eapply total_bind; [apply header_field_total; [done | lia | lia] |]. intros a _.
  eapply total_bind; [apply header_field_total; [done | lia | lia] |]. intros n _.
  apply total_if; intros _; [by apply SubtractFromRange_total | by apply total_ret].
Qed.

Lemma subtract_others_total fuel p posn l :
  ILImageMapAddress image (headerAddr image) = Some p -> room l ->
  0 <= posn < 2 ^ 31 -> headerSize image - posn <= Z.of_nat fuel -> total (subtract_others fuel image p posn l) room.
Proof.
  intros Hp. destruct Hi as [_ _ (p' & _ & Hsize)]. revert posn l.
  induction fuel as [| fuel IH]; intros posn l Hl Hposn Hf; cbn [subtract_others]; rewrite ulong_small by lia;
    apply total_if; intros Hc; try (by apply total_ret); apply Z.leb_le in Hc; [lia |].
  eapply total_bind; [apply subtract_field_total; [done | done | lia | lia] |]. intros l' Hl'. apply IH; [done | lia | lia].
Qed.

Lemma FindLargestRange_total l : room l -> total (FindLargestRange l) (fun _ => True).
Proof. intros Hl. destruct l; [unfold room in Hl; cbn in Hl; lia |]. by apply total_ret. Qed.

Lemma probes_bind {A B} (m : comp unit A) (f : A -> comp unit B) P Q :
  probes m P -> (forall a, P a -> probes (f a) Q) -> probes (m ≫= f) Q.
Proof. intros Hm Hf. apply wp_bind. eapply wp_mono; [| exact Hm]. intros a []. apply Hf. Qed.

Lemma code_section_probes p :
  ILImageMapAddress image (headerAddr image) = Some p -> probes (code_section image p) (fun _ => True).
Proof.
  intros Hp. assert (headerSize image = 0 \/ 48 <= headerSize image <= 1024) as Hsize
    by (destruct Hi as [_ _ (? & _ & ?)]; lia).
  unfold code_section. cbv zeta.
  assert (total (if 0 <? headerSize image
                 then addrTest ← header_field image p 24; sizeTest ← header_field image p 28; mret (addrTest, sizeTest)
                 else mret (0, 0)) (fun _ => True)) as Hres.
  { apply total_if; intros Hz; [apply Z.ltb_lt in Hz | by apply total_ret].
    eapply total_bind; [apply header_field_total; [done | lia | lia] |]. intros a _.
    eapply total_bind; [apply header_field_total; [done | lia | lia] |]. intros n _. by apply total_ret. }
  eapply probes_bind; [by eapply total_probes |]. intros [a n] _.
  eapply (probes_bind _ _ (fun _ => True)).
  { apply wp_if; intros _; [apply probe_resources_probes | by apply wp_ret]. }
  intros found _. destruct (if found then _ else _) as [a' n'] eqn:E. clear E.
  eapply probes_bind; [eapply (total_probes _ room), (fun a H => H); apply SubtractFromRange_total; unfold room; cbn; lia |].
  intros l1 Hl1. eapply (probes_bind _ _ room).
  { eapply (total_probes _ room), (fun a H => H). apply total_if; intros Hz; [apply Z.ltb_lt in Hz | by apply total_ret].
    apply subtract_field_total; [done | done | lia | lia]. }
  intros l2 Hl2. eapply probes_bind; [eapply (total_probes _ room), (fun a H => H); apply subtract_others_total; try done; lia |].
  intros l3 Hl3. eapply probes_bind.
  { eapply total_probes, (fun a H => H). apply FindLargestRange_total. unfold room, TrimHighRange in *. by rewrite length_fmap. }
  intros [a3 n3] _. destruct (if n3 =? 0 then _ else _) as [a4 n4]. by apply wp_ret.
Qed.

(** The sections with a probe. *)
Definition probe_of (section : Z) (f : failure) : Prop :=
  f = Undefined "probe" /\ (section = IL_SECTION_CODE \/ section = IL_SECTION_RESOURCES).

Lemma probe_of_wp {A} section (m : comp unit A) Q :
  section = IL_SECTION_CODE \/ section = IL_SECTION_RESOURCES -> probes m Q -> wp (probe_of section) m (fun a _ => Q a) tt.
Proof. unfold probes, wp, probe_of. intros Hs. by destruct (m tt). Qed.
Lemma total_wp {A} E (m : comp unit A) P : total m P -> wp E m (fun _ _ => True) tt.
Proof. intros Hm. destruct (Hm tt) as (a & Ea & _). unfold wp. by rewrite Ea. Qed.

Lemma resources_probes p :
  ILImageMapAddress image (headerAddr image) = Some p -> 48 <= headerSize image ->
  probes (address ← header_field image p 24;
          size ← header_field image p 28;
          found ← (if 136 <=? size then probe_resources image address else mret false);
          mret (if (found : bool) then section_present (ulong (address + 128)) (size - 128) else section_present address size))
    (fun _ => True).
Proof.
  intros Hp Hs.
  eapply probes_bind; [eapply total_probes, (fun a H => H); apply header_field_total; [done | lia | lia] |]. intros a _.
  eapply probes_bind; [eapply total_probes, (fun a H => H); apply header_field_total; [done | lia | lia] |]. intros n _.
  eapply (probes_bind _ _ (fun _ => True)); [| intros ? _; by apply wp_ret].
  apply wp_if; intros _; [apply probe_resources_probes | by apply wp_ret].
Qed.

Lemma get_section_wp section : wp (probe_of section) (_ILImageGetSection image section) (fun _ _ => True) tt.
Proof.
  unfold _ILImageGetSection. cbv zeta. destruct (ILImageMapAddress image (headerAddr image)) as [p |] eqn:Hp; [| by apply wp_ret].
  assert (headerSize image = 0 \/ 48 <= headerSize image <= 1024) as Hsize
    by (destruct Hi as [_ _ (? & _ & ?)]; lia).
  assert (forall offset, 0 <= offset <= 40 -> wp (probe_of section) (header_section image p offset) (fun _ _ => True) tt) as Hsec.
  { intros offset Ho. eapply total_wp. by apply header_section_total. }
  repeat (lazymatch goal with |- wp _ (if _ then _ else _) _ _ => apply wp_if; intros ? end;
          first [by apply wp_ret | by apply Hsec; lia | idtac]).
  - apply probe_of_wp, code_section_probes; [left; lia | done].
  - apply probe_of_wp, resources_probes; [right; lia | done | lia].
Qed.
End image.

(** ** The loader *)

(** C15: Reading the headers and the section table of any file stays inside the buffer and
    ends.  If the sections at address 0 of the file fit what is loaded, then loading a copy
    of the contents ends with an error or with an image whose addresses and whose runtime
    header are inside the data. *)
Theorem image_load_safe stream flags bytes :
  Forall is_byte bytes -> copies stream flags ->
  let load := read_image (fun _ _ => None) stream flags (mkInput bytes []) in
  exists r c, read_table (mkInput bytes []) = Done r c /\
    match r with
    | inl e => e <> 0 /\ load = Done (inl e) c
    | inr (h, t) =>
        holes_fit t = true ->
        exists r' c', load = Done r' c' /\
          match r' with
          | inl e => e <> 0
          | inr image =>
              image_inside image /\
              (forall a p, ILImageMapAddress image a = Some p -> 0 <= p < Z.of_nat (length (data image))) /\
              (forall a p n, ILImageMapRVA image a = Some (p, n) ->
                 0 <= p /\ 0 < n /\ p + n <= Z.of_nat (length (data image)))
          end
    end.
Proof.
  intros Hb Hcopy load. assert (ctx_ok (mkInput bytes [])) as Hc by (split; [done | constructor]).
  pose proof (read_table_runs _ Hc) as Ht. unfold runs, wp in Ht.
  destruct (read_table (mkInput bytes [])) as [r c | f] eqn:E; [| done]. exists r, c. split; [done |].
  destruct Ht as [_ Ht]. destruct r as [e | [h t]]; cbn [good] in Ht.
  { split; [done |]. unfold load, read_image. by rewrite (bind_done _ _ _ _ _ E). }
  destruct Ht as (Hh & Htab & Hm). intros Hfit.
  pose proof (load_sections_runs stream flags h t c Hcopy Hh Htab Hm Hfit) as Hl. unfold runs, wp in Hl.
  destruct (load_sections (fun _ _ => None) stream flags h t c) as [r' c' | f] eqn:E'; [| done].
  exists r', c'. split; [unfold load, read_image; by rewrite (bind_done _ _ _ _ _ E) |].
  destruct r' as [e | image]; [done |]. cbn [good] in Hl.
  split; [done |]. split; [intros a p; by apply image_maps_address | intros a p n; by apply image_maps_rva].
Qed.

(** C16: The sections of such an image are found without an access outside its data, but
    for the probe of the resources, and where a section starts is in the data. *)
Theorem image_sections_safe image section :
  image_inside image ->
  match ILImageGetSection image section tt with
  | Done (Some (address, _)) _ => 0 <= address < Z.of_nat (length (data image))
  | Done None _ => True
  | Failed f => f = Undefined "probe" /\ (section = IL_SECTION_CODE \/ section = IL_SECTION_RESOURCES)
  end.
Proof.
  intros Hi. unfold ILImageGetSection. destruct (_ =? IL_IMAGETYPE_BUILDING); [done |].
  pose proof (get_section_wp image Hi section) as Hs. unfold wp in Hs.
  destruct (_ILImageGetSection image section tt) as [r [] | f] eqn:E; [| by unfold mbind, comp_bind; rewrite E].
  erewrite bind_done by exact E. cbn. destruct r as [[a n] |]; [| done].
  destruct (ILImageMapAddress image a) eqn:Ea; [cbn; eauto using image_maps_address | done].
Qed.
End reading.

(** ** Files *)

Definition zeros (n : nat) : list Z := replicate n 0.

(** An object file of some sections, without optional header. *)
Definition obj_file (sections : list (list Z)) (contents : list Z) : list Z :=
  [0x4C; 0x01] ++ le_bytes 2 (Z.of_nat (length sections)) ++ zeros 16 ++ concat sections ++ contents.
Definition section_entry (name : list Z) (va vs ra rs : Z) : list Z :=
  name ++ le_bytes 4 vs ++ le_bytes 4 va ++ le_bytes 4 rs ++ le_bytes 4 ra ++ zeros 16.
Definition text_il : list Z := [0x2E; 0x74; 0x65; 0x78; 0x74; 0x24; 0x69; 0x6C].
Definition cormeta : list Z := [0x2E; 0x63; 0x6F; 0x72; 0x6D; 0x65; 0x74; 0x61].
Definition bss : list Z := [0x2E; 0x62; 0x73; 0x73; 0; 0; 0; 0].

(** A runtime header of 48 bytes: metadata, entry point and resources. *)
Definition runtime_bytes (metaAddr metaSize entry resAddr resSize : Z) : list Z :=
  le_bytes 4 48 ++ le_bytes 2 2 ++ le_bytes 2 0 ++ le_bytes 4 metaAddr ++ le_bytes 4 metaSize ++ le_bytes 4 1
  ++ le_bytes 4 entry ++ le_bytes 4 resAddr ++ le_bytes 4 resSize ++ zeros 16.

(** One section, from address 60 of the file on, with 16 bytes of metadata behind the
    runtime header. *)
Definition sample_file : list Z :=
  obj_file [section_entry text_il 0x1000 64 60 64] (runtime_bytes 0x1030 16 0x06000001 0 0 ++ zeros 16).
#[local] Existing Instance LP64.

Definition load_file (flags : Z) (bytes : list Z) : outcome ILInputContext (Z + loaded_image) :=
  read_image (fun _ _ => None) false flags (mkInput bytes []).
Definition with_image {A} (o : outcome ILInputContext (Z + loaded_image)) (f : loaded_image -> A) : option A :=
  match o with Done (inr image) _ => Some (f image) | _ => None end.

Example sample_sections :
  with_image (load_file 0 sample_file) (fun image =>
    (ILImageGetSection image IL_SECTION_HEADER tt, ILImageGetSection image IL_SECTION_METADATA tt,
     ILImageGetEntryPoint image tt))
  = Some (Done (Some (0, 48)) tt, Done (Some (48, 16)) tt, Done 0x06000001 tt).
Proof. by vm_compute. Qed.

Lemma sample_bytes : Forall is_byte sample_file.
Proof.
  apply Forall_forall. intros b Hb. apply list_elem_of_In in Hb.
  assert (forallb (fun b => (0 <=? b) && (b <? 256)) sample_file = true) as Hall by by vm_compute.
  rewrite forallb_forall in Hall. specialize (Hall b Hb). unfold is_byte. lia.
Qed.

Lemma image_load_safe_witness :
  exists image c, load_file 0 sample_file = Done (inr image) c /\ image_inside image.
Proof.
  destruct (image_load_safe false 0 sample_file sample_bytes ltac:(by right)) as (r & c & E & Hr).
  vm_compute in E. injection E as <- <-. destruct Hr as (r' & c' & E' & Hr); [by vm_compute |].
  vm_compute in E'. injection E' as <- <-. destruct Hr as [Hr _].
  eexists _, _. split; [by vm_compute | exact Hr].
Defined.

Definition sample_image : loaded_image :=
  default (mkLoaded 0 0 true true false false false [] [] 0 0 0 0 (mkNamed 0 0 0 0 0 0 0 0))
    (with_image (load_file 0 sample_file) id).
Lemma sample_image_inside : image_inside sample_image.
Proof.
  let v := eval vm_compute in sample_image in change sample_image with v. split.
  - constructor; [| constructor]. unfold inside. cbn. zlia.
  - cbn. zlia.
  - exists 0. split; [by vm_compute |]. cbn. zlia.
Qed.

Lemma image_sections_safe_witness :
  match ILImageGetSection sample_image IL_SECTION_METADATA tt with
  | Done (Some (address, _)) _ => 0 <= address < 64
  | Done None _ => True
  | Failed f => f = Undefined "probe" /\ (IL_SECTION_METADATA = IL_SECTION_CODE \/ IL_SECTION_METADATA = IL_SECTION_RESOURCES)
  end.
Proof. exact (image_sections_safe sample_image IL_SECTION_METADATA sample_image_inside). Defined.

Lemma subtract_from_range_witness :
  exists ranges, SubtractFromRange [mkRange 0 100] 20 30 tt = Done ranges tt /\ forall x, covered ranges x <-> covered [mkRange 0 100] x /\ ~ (20 <= x < 30).
Proof.
  destruct (subtract_from_range [mkRange 0 100] 20 30) as (l & E & _ & _ & Hl);
    [lia | repeat constructor | cbn; lia | by exists l].
Defined.

(** ** Where the code does otherwise *)

(** The uninitialised data of an object file can be longer than what is loaded; the runtime
    header is then read outside of it. *)
Example hole_read_outside :
  load_file 0 (obj_file [section_entry text_il 0x1000 48 100 48; section_entry bss 0 0x2000 0 0x2000]
                 (runtime_bytes 0 0 0 0 0))
  = Failed (Undefined "runtimeHdr").
Proof. by vm_compute. Qed.

(** The size of the metadata is the one in the runtime header, whatever is loaded. *)
Example metadata_size_unchecked :
  with_image (load_file 0 (obj_file [section_entry text_il 0x1000 64 60 64] (runtime_bytes 0x1030 0xFFFFFF 0 0 0 ++ zeros 16)))
    (fun image => (ILImageGetSection image IL_SECTION_METADATA tt, length (data image)))
  = Some (Done (Some (48, 0xFFFFFF)) tt, 64%nat).
Proof. by vm_compute. Qed.

(** The resources are probed behind the end of the data. *)
Example probe_outside :
  with_image (load_file 0 (obj_file [section_entry text_il 0x1000 64 60 64] (runtime_bytes 0 0 0 0x1030 200 ++ zeros 16)))
    (fun image => ILImageGetSection image IL_SECTION_RESOURCES tt)
  = Some (Failed (Undefined "probe")).
Proof. by vm_compute. Qed.

(** Metadata without a runtime header can be shorter than one. *)
Example entry_point_outside :
  with_image (load_file 0 (obj_file [section_entry cormeta 0x1000 16 60 16] (zeros 16))) (fun image => ILImageGetEntryPoint image tt)
  = Some (Failed (Undefined "runtimeHdr")).
Proof. by vm_compute. Qed.

(** A buffer that is used in place is not as long as the sections say. *)
Example in_place_truncated :
  with_image (load_file IL_LOADFLAG_IN_PLACE (obj_file [section_entry text_il 0x1000 1000 60 1000] (runtime_bytes 0 0 0 0 0)))
    (fun image => (image_len image, length (data image)))
  = Some (1000, 48%nat).
Proof. by vm_compute. Qed.

(** The largest range has the size of the first one. *)
Example largest_range_size : FindLargestRange [mkRange 0 10; mkRange 20 100; mkRange 200 215] tt = Done (200, 10) tt.
Proof. by vm_compute. Qed.

(** Nothing, taken off a range, takes the room of all others. *)
Example nothing_fills_ranges :
  match SubtractFromRange [mkRange 0 10] 5 5 tt with Done l _ => length l | Failed _ => 0%nat end = 16%nat.
Proof. by vm_compute. Qed.
