(* ===== verification/MetaIndex.v ===== *)
(** * MetaIndex: the tables of the metadata

    Models src/gcc/cil/image/meta_index.c.  The "#~" stream of the metadata
    (ECMA-335, II.24.2.6) is a header, the number of rows of every table, and
    the tables.  A row is a sequence of fields whose widths depend on the sizes of
    the pools and of the tables that they point into.  The rows are unpacked when a
    token is used ([ParseToken]), and packed when an image is written
    ([_ILImageRawTokenEncode]).

    A pointer into a stream or a pool is the list of the bytes from it to the
    end of the stream or pool; an access behind the end is undefined.  A load
    error is the left side of a sum. *)
From S2P Require Import Prelude Values ILMeta MetaCompress MetaHeader.

(** The values of the arguments of [FIELD_FIELD] and its like, and the pointers to
    the descriptions of references into more than one table: the bits of the code
    of the table, and the tables in the order of their codes, where 1 is no table
    and 2 a name that is a string. *)
Inductive field_type :=
| STRREF_FIELD
| BLOBREF_FIELD
| GUIDREF_FIELD
| UINT16_FIELD
| UINT32_FIELD
| FIELD_FIELD
| METHOD_FIELD
| PARAM_FIELD
| OPTGEN_FIELD
| TKREF_FIELD (token : Z)
| Mixed (bits : Z) (types : list Z).

Definition ScopeRef_Desc : field_type := Mixed 2
  [IL_META_TOKEN_MODULE; IL_META_TOKEN_MODULE_REF; IL_META_TOKEN_ASSEMBLY_REF;
   IL_META_TOKEN_TYPE_REF].
Definition TypeDefRefOrSpec_Desc : field_type := Mixed 2
  [IL_META_TOKEN_TYPE_DEF; IL_META_TOKEN_TYPE_REF; IL_META_TOKEN_TYPE_SPEC; 1].
Definition MemberRefParent_Desc : field_type := Mixed 3
  [IL_META_TOKEN_TYPE_DEF; IL_META_TOKEN_TYPE_REF; IL_META_TOKEN_MODULE_REF;
   IL_META_TOKEN_METHOD_DEF; IL_META_TOKEN_TYPE_SPEC; 1; 1; 1].
Definition ConstantRef_Desc : field_type := Mixed 2
  [IL_META_TOKEN_FIELD_DEF; IL_META_TOKEN_PARAM_DEF; IL_META_TOKEN_PROPERTY; 1].
Definition CustomOwner_Desc : field_type := Mixed 5
  [IL_META_TOKEN_METHOD_DEF; IL_META_TOKEN_FIELD_DEF; IL_META_TOKEN_TYPE_REF;
   IL_META_TOKEN_TYPE_DEF; IL_META_TOKEN_PARAM_DEF; IL_META_TOKEN_INTERFACE_IMPL;
   IL_META_TOKEN_MEMBER_REF; IL_META_TOKEN_MODULE; IL_META_TOKEN_DECL_SECURITY;
   IL_META_TOKEN_PROPERTY; IL_META_TOKEN_EVENT; IL_META_TOKEN_STAND_ALONE_SIG;
   IL_META_TOKEN_MODULE_REF; IL_META_TOKEN_TYPE_SPEC; IL_META_TOKEN_ASSEMBLY;
   IL_META_TOKEN_ASSEMBLY_REF; IL_META_TOKEN_FILE; IL_META_TOKEN_EXPORTED_TYPE;
   IL_META_TOKEN_MANIFEST_RESOURCE; 1; 1; 1; 1; 1; 1; 1; 1; 1; 1; 1; 1; 1].
Definition CustomName_Desc : field_type := Mixed 3
  [IL_META_TOKEN_TYPE_REF; IL_META_TOKEN_TYPE_DEF; IL_META_TOKEN_METHOD_DEF;
   IL_META_TOKEN_MEMBER_REF; 2; 1; 1; 1].
Definition MarshalDef_Desc : field_type := Mixed 1
  [IL_META_TOKEN_FIELD_DEF; IL_META_TOKEN_PARAM_DEF].
Definition HasDeclSecurity_Desc : field_type := Mixed 2
  [IL_META_TOKEN_TYPE_DEF; IL_META_TOKEN_METHOD_DEF; IL_META_TOKEN_ASSEMBLY; 1].
Definition EventOrProperty_Desc : field_type := Mixed 1
  [IL_META_TOKEN_EVENT; IL_META_TOKEN_PROPERTY].
Definition MethodDefOrRef_Desc : field_type := Mixed 1
  [IL_META_TOKEN_METHOD_DEF; IL_META_TOKEN_MEMBER_REF].
Definition FieldOrMethod_Desc : field_type := Mixed 1
  [IL_META_TOKEN_FIELD_DEF; IL_META_TOKEN_METHOD_DEF].
Definition ExportedType_Desc : field_type := Mixed 2
  [IL_META_TOKEN_FILE; IL_META_TOKEN_ASSEMBLY_REF; IL_META_TOKEN_EXPORTED_TYPE; 1].
Definition GenericParOwner_Desc : field_type := Mixed 1
  [IL_META_TOKEN_TYPE_DEF; IL_META_TOKEN_METHOD_DEF].
Definition Fields_Module : list field_type :=
  [UINT16_FIELD; STRREF_FIELD; GUIDREF_FIELD; GUIDREF_FIELD; GUIDREF_FIELD].
Definition Fields_TypeRef : list field_type :=
  [ScopeRef_Desc; STRREF_FIELD; STRREF_FIELD].
Definition Fields_TypeDef : list field_type :=
  [UINT32_FIELD; STRREF_FIELD; STRREF_FIELD; TypeDefRefOrSpec_Desc; FIELD_FIELD;
   METHOD_FIELD].
Definition Fields_FieldDef : list field_type :=
  [UINT16_FIELD; STRREF_FIELD; BLOBREF_FIELD].
Definition Fields_MethodDef : list field_type :=
  [UINT32_FIELD; UINT16_FIELD; UINT16_FIELD; STRREF_FIELD; BLOBREF_FIELD; PARAM_FIELD].
Definition Fields_ParamDef : list field_type :=
  [UINT16_FIELD; UINT16_FIELD; STRREF_FIELD].
Definition Fields_InterfaceImpl : list field_type :=
  [TKREF_FIELD IL_META_TOKEN_TYPE_DEF; TypeDefRefOrSpec_Desc].
Definition Fields_MemberRef : list field_type :=
  [MemberRefParent_Desc; STRREF_FIELD; BLOBREF_FIELD].
Definition Fields_Constant : list field_type :=
  [UINT16_FIELD; ConstantRef_Desc; BLOBREF_FIELD].
Definition Fields_CustomAttr : list field_type :=
  [CustomOwner_Desc; CustomName_Desc; BLOBREF_FIELD].
Definition Fields_FieldMarshal : list field_type :=
  [MarshalDef_Desc; BLOBREF_FIELD].
Definition Fields_DeclSecurity : list field_type :=
  [UINT16_FIELD; HasDeclSecurity_Desc; BLOBREF_FIELD].
Definition Fields_ClassLayout : list field_type :=
  [UINT16_FIELD; UINT32_FIELD; TKREF_FIELD IL_META_TOKEN_TYPE_DEF].
Definition Fields_FieldLayout : list field_type :=
  [UINT32_FIELD; TKREF_FIELD IL_META_TOKEN_FIELD_DEF].
Definition Fields_StandAloneSig : list field_type :=
  [BLOBREF_FIELD].
Definition Fields_EventMap : list field_type :=
  [TKREF_FIELD IL_META_TOKEN_TYPE_DEF; TKREF_FIELD IL_META_TOKEN_EVENT].
Definition Fields_Event : list field_type :=
  [UINT16_FIELD; STRREF_FIELD; TypeDefRefOrSpec_Desc].
Definition Fields_PropertyMap : list field_type :=
  [TKREF_FIELD IL_META_TOKEN_TYPE_DEF; TKREF_FIELD IL_META_TOKEN_PROPERTY].
Definition Fields_Property : list field_type :=
  [UINT16_FIELD; STRREF_FIELD; BLOBREF_FIELD].
Definition Fields_MethodSemantics : list field_type :=
  [UINT16_FIELD; TKREF_FIELD IL_META_TOKEN_METHOD_DEF; EventOrProperty_Desc].
Definition Fields_MethodImpl : list field_type :=
  [TKREF_FIELD IL_META_TOKEN_TYPE_DEF; MethodDefOrRef_Desc; MethodDefOrRef_Desc].
Definition Fields_ModuleRef : list field_type :=
  [STRREF_FIELD].
Definition Fields_TypeSpec : list field_type :=
  [BLOBREF_FIELD].
Definition Fields_ImplMap : list field_type :=
  [UINT16_FIELD; FieldOrMethod_Desc; STRREF_FIELD; TKREF_FIELD IL_META_TOKEN_MODULE_REF].
Definition Fields_FieldRVA : list field_type :=
  [UINT32_FIELD; TKREF_FIELD IL_META_TOKEN_FIELD_DEF].
Definition Fields_Assembly : list field_type :=
  [UINT32_FIELD; UINT16_FIELD; UINT16_FIELD; UINT16_FIELD; UINT16_FIELD; UINT32_FIELD;
   BLOBREF_FIELD; STRREF_FIELD; STRREF_FIELD].
Definition Fields_ProcessorDef : list field_type :=
  [UINT32_FIELD].
Definition Fields_OSDef : list field_type :=
  [UINT32_FIELD; UINT32_FIELD; UINT32_FIELD].
Definition Fields_AssemblyRef : list field_type :=
  [UINT16_FIELD; UINT16_FIELD; UINT16_FIELD; UINT16_FIELD; UINT32_FIELD; BLOBREF_FIELD;
   STRREF_FIELD; STRREF_FIELD; BLOBREF_FIELD].
Definition Fields_ProcessorRef : list field_type :=
  [UINT32_FIELD; TKREF_FIELD IL_META_TOKEN_ASSEMBLY_REF].
Definition Fields_OSRef : list field_type :=
  [UINT32_FIELD; UINT32_FIELD; UINT32_FIELD; TKREF_FIELD IL_META_TOKEN_ASSEMBLY_REF].
Definition Fields_File : list field_type :=
  [UINT32_FIELD; STRREF_FIELD; BLOBREF_FIELD].
Definition Fields_ExportedType : list field_type :=
  [UINT32_FIELD; UINT32_FIELD; STRREF_FIELD; STRREF_FIELD; ExportedType_Desc].
Definition Fields_ManifestResource : list field_type :=
  [UINT32_FIELD; UINT32_FIELD; STRREF_FIELD; ExportedType_Desc].
Definition Fields_ExeLocation : list field_type :=
  [UINT32_FIELD; STRREF_FIELD; STRREF_FIELD; STRREF_FIELD].
Definition Fields_NestedClass : list field_type :=
  [TKREF_FIELD IL_META_TOKEN_TYPE_DEF; TKREF_FIELD IL_META_TOKEN_TYPE_DEF].
Definition Fields_GenericPar : list field_type :=
  [UINT16_FIELD; UINT16_FIELD; GenericParOwner_Desc; STRREF_FIELD].
Definition Fields_MethodSpec : list field_type :=
  [MethodDefOrRef_Desc; BLOBREF_FIELD].
Definition Fields_GenericConstraint : list field_type :=
  [TKREF_FIELD IL_META_TOKEN_GENERIC_PAR; TypeDefRefOrSpec_Desc].
Definition FieldDescriptions : list (option (list field_type)) :=
  [Some Fields_Module; Some Fields_TypeRef; Some Fields_TypeDef; None;
   Some Fields_FieldDef; None; Some Fields_MethodDef; None;
   Some Fields_ParamDef; Some Fields_InterfaceImpl; Some Fields_MemberRef; Some Fields_Constant;
   Some Fields_CustomAttr; Some Fields_FieldMarshal; Some Fields_DeclSecurity; Some Fields_ClassLayout;
   Some Fields_FieldLayout; Some Fields_StandAloneSig; Some Fields_EventMap; None;
   Some Fields_Event; Some Fields_PropertyMap; None; Some Fields_Property;
   Some Fields_MethodSemantics; Some Fields_MethodImpl; Some Fields_ModuleRef; Some Fields_TypeSpec;
   Some Fields_ImplMap; Some Fields_FieldRVA; None; None;
   Some Fields_Assembly; Some Fields_ProcessorDef; Some Fields_OSDef; Some Fields_AssemblyRef;
   Some Fields_ProcessorRef; Some Fields_OSRef; Some Fields_File; Some Fields_ExportedType;
   Some Fields_ManifestResource; Some Fields_NestedClass; Some Fields_GenericPar; Some Fields_MethodSpec;
   Some Fields_GenericConstraint; None; None; None;
   None; None; None; None;
   None; None; None; None;
   None; None; None; None;
   None; None; None; None].

Definition IL_LOADERR_BAD_META : Z := 9.
Definition IL_LOADERR_UNDOC_META : Z := 10.
Definition IL_LOADFLAG_PRE_VALIDATE : Z := 4.
Definition IL_IMAGE_TOKEN_COLUMNS : Z := 16.
Definition IL_MAX_UINT32 : Z := 0xFFFFFFFF.

(** The fields of [ILImage] that this file uses.  [section] is the metadata section,
    and [building] whether [type] is [IL_IMAGETYPE_BUILDING]; the arrays over the 64
    tables are functions of the number of the table.  An item of [tokenData] is a
    pointer, and allocating the arrays succeeds. *)
Record ILImage := mkImage {
  section : option (list Z);
  building : bool;
  strRefBig : bool;
  blobRefBig : bool;
  guidRefBig : bool;
  stringPoolSize : Z;
  blobPool : list Z;
  blobPoolSize : Z;
  userStringPoolSize : Z;
  tokenCount : Z -> Z;
  tokenSize : Z -> Z;
  tokenStart : Z -> list Z;
  tokenData : Z -> option (list (option Z));
  sorted : Z
}.

(** [a[i] = x] of an array over the tables. *)
Definition array_set {A} (a : Z -> A) (i : Z) (x : A) : Z -> A :=
  fun j => if j =? i then x else a j.

Definition set_counts (im : ILImage) (c : Z -> Z) (sortedTables : Z) : ILImage :=
  mkImage (section im) (building im) (strRefBig im) (blobRefBig im) (guidRefBig im)
    (stringPoolSize im) (blobPool im) (blobPoolSize im) (userStringPoolSize im)
    c (tokenSize im) (tokenStart im) (tokenData im) sortedTables.
Definition set_token_count (im : ILImage) (type n : Z) : ILImage :=
  set_counts im (array_set (tokenCount im) type n) (sorted im).
Definition set_size (im : ILImage) (type n : Z) : ILImage :=
  mkImage (section im) (building im) (strRefBig im) (blobRefBig im) (guidRefBig im)
    (stringPoolSize im) (blobPool im) (blobPoolSize im) (userStringPoolSize im)
    (tokenCount im) (array_set (tokenSize im) type n) (tokenStart im) (tokenData im) (sorted im).
Definition set_start (im : ILImage) (type : Z) (index : list Z) : ILImage :=
  mkImage (section im) (building im) (strRefBig im) (blobRefBig im) (guidRefBig im)
    (stringPoolSize im) (blobPool im) (blobPoolSize im) (userStringPoolSize im)
    (tokenCount im) (tokenSize im) (array_set (tokenStart im) type index) (tokenData im) (sorted im).
Definition set_data (im : ILImage) (type : Z) (data : list (option Z)) : ILImage :=
  mkImage (section im) (building im) (strRefBig im) (blobRefBig im) (guidRefBig im)
    (stringPoolSize im) (blobPool im) (blobPoolSize im) (userStringPoolSize im)
    (tokenCount im) (tokenSize im) (tokenStart im) (array_set (tokenData im) type (Some data))
    (sorted im).
Definition set_ref_sizes (im : ILImage) (str blob guid : bool) : ILImage :=
  mkImage (section im) (building im) str blob guid
    (stringPoolSize im) (blobPool im) (blobPoolSize im) (userStringPoolSize im)
    (tokenCount im) (tokenSize im) (tokenStart im) (tokenData im) (sorted im).
Definition set_pools (im : ILImage) (strings : Z) (blob : list Z) (userStrings : Z) : ILImage :=
  mkImage (section im) (building im) (strRefBig im) (blobRefBig im) (guidRefBig im)
    strings blob (Z.of_nat (length blob)) userStrings
    (tokenCount im) (tokenSize im) (tokenStart im) (tokenData im) (sorted im).

(** [image->tokenCount[token >> 24]]. *)
Definition count (im : ILImage) (token : Z) : Z := tokenCount im (Z.shiftr token 24).

Definition tokenId (token : Z) : Z := Z.land token 0x00FFFFFF.
Definition tokenType (token : Z) : Z := Z.shiftr token 24.

(** The token is one of a table. *)
Definition valid_token (im : ILImage) (token : Z) : bool :=
  (token <? 0x40000000) && (1 <=? tokenId token) && (tokenId token <=? tokenCount im (tokenType token)).

(** ** The sizes of the rows *)

Section sizes.
Context (im : ILImage) (strRefSize blobRefSize guidRefSize : Z).

(** The references of this type are 32 bits wide. *)
Definition big_mixed (bits : Z) (types : list Z) : bool :=
  existsb (fun token => negb (token =? 1) && negb (token =? 2)
                        && (Z.shiftr 0xFFFF bits <? count im token)) types.
Definition big_ref (type : field_type) : bool :=
  match type with
  | FIELD_FIELD => 0xFFFE <? count im IL_META_TOKEN_FIELD_DEF
  | METHOD_FIELD => 0xFFFE <? count im IL_META_TOKEN_METHOD_DEF
  | PARAM_FIELD => 0xFFFE <? count im IL_META_TOKEN_PARAM_DEF
  | TKREF_FIELD token => 0xFFFF <? count im token
  | Mixed bits types => big_mixed bits types
  | _ => false
  end.

Definition field_size (type : field_type) : Z :=
  match type with
  | STRREF_FIELD => strRefSize
  | BLOBREF_FIELD => blobRefSize
  | GUIDREF_FIELD => guidRefSize
  | UINT16_FIELD => 2
  | UINT32_FIELD => 4
  | OPTGEN_FIELD => 0
  | _ => if big_ref type then 4 else 2
  end.

(** The next field is left out. *)
Definition optional (type : field_type) : bool :=
  match type with
  | OPTGEN_FIELD => 0 <? count im IL_META_TOKEN_GENERIC_CONSTRAINT
  | _ => false
  end.

(** The loop over the fields; no description ends in [OPTGEN_FIELD]. *)
Fixpoint fields_size (desc : list field_type) : Z :=
  match desc with
  | [] => 0
  | type :: desc =>
      if optional type then match desc with [] => 0 | _ :: desc => fields_size desc end
      else field_size type + fields_size desc
  end.

Definition TokenSize (desc : option (list field_type)) : Z :=
  match desc with None => 0 | Some desc => fields_size desc end.
End sizes.

(** ** Reading a row *)

Section parse.
Context `{Host} {S : Type}.

(** An index of two or four bytes. *)
Definition read_index (big : bool) (ptr : list Z) : comp S (Z * list Z) :=
  if big then
    temp ← lift "ptr" (IL_READ_UINT32 ptr 0);
    mret (temp, drop 4 ptr)
  else
    temp ← lift "ptr" (IL_READ_UINT16 ptr 0);
    mret (temp, drop 2 ptr).

(** The values that a field adds to the row. *)
Definition parsed : Type := Z + list Z.
Definition row_app (vs : list Z) (r : parsed) : parsed :=
  match r with inl e => inl e | inr ws => inr (vs ++ ws) end.
Definition bad_meta : comp S parsed := mret (inl IL_LOADERR_BAD_META).

Section row.
Context (im : ILImage) (strRefSize blobRefSize guidRefSize : Z).

(** A blob: the index, the place of its bytes and their number. *)
Definition parse_blob (temp : Z) : comp S parsed :=
  if negb (temp =? 0) && (blobPoolSize im <=? temp) then bad_meta
  else if temp =? 0 then mret (inr [temp; temp; 0])
  else
    '(len, reader) ← lift "reader"
      (ILMetaUncompressData
         (mk_meta (drop (Z.to_nat temp) (blobPool im)) (ulong (blobPoolSize im - temp)) false));
    let len := uint32 len in
    if (MetaCompress.len reader <? len) || error reader then bad_meta
    else mret (inr [temp; uint32 (blobPoolSize im - MetaCompress.len reader); len]).

Definition parse_guid (temp : Z) : comp S parsed :=
  if temp =? 0 then mret (inr [IL_MAX_UINT32])
  else if 0x10000000 <=? temp then bad_meta
  else
    guids ← ILImageGetMetaEntry (section im) "#GUID";
    match guids with
    | None => bad_meta
    | Some guids =>
        let size := Z.of_nat (length guids) in
        if (size <? 16) || (uint32 size <? uint32 (temp * 16)) then bad_meta
        else mret (inr [uint32 (uint32 (temp - 1) * 16)])
    end.

(** The first row of a list; one behind the last is an empty list. *)
Definition parse_list (token temp : Z) : comp S parsed :=
  let limit := count im token in
  if temp =? ulong (limit + 1) then mret (inr [0])
  else if (0 <? temp) && (temp <=? uint32 limit) then mret (inr [Z.lor token temp])
  else bad_meta.

Definition parse_tkref (token temp : Z) : comp S parsed :=
  let limit := count im token in
  if (0 <? temp) && (temp <=? uint32 limit) then mret (inr [Z.lor (Z.land token 0xFF000000) temp])
  else bad_meta.

Definition parse_mixed (bits : Z) (types : list Z) (temp : Z) : comp S parsed :=
  let value := Z.shiftr temp bits in
  code ← array_get "start" types (Z.land temp (Z.shiftl 1 bits - 1));
  if negb (code =? 1) && negb (code =? 2) then
    if value =? 0 then mret (inr [0])
    else if value <=? count im code then mret (inr [Z.lor value code])
    else bad_meta
  else if negb (code =? 2) then bad_meta
  else mret (inr [IL_META_TOKEN_STRING]).

(** The field at [ptr], and the place behind it. *)
Definition parse_row_field (type : field_type) (ptr : list Z) : comp S (parsed * list Z) :=
  match type with
  | STRREF_FIELD =>
      '(temp, ptr) ← read_index (negb (strRefSize =? 2)) ptr;
      mret (if stringPoolSize im <=? temp then inl IL_LOADERR_BAD_META else inr [temp], ptr)
  | BLOBREF_FIELD =>
      '(temp, ptr) ← read_index (negb (blobRefSize =? 2)) ptr;
      r ← parse_blob temp; mret (r, ptr)
  | GUIDREF_FIELD =>
      '(temp, ptr) ← read_index (negb (guidRefSize =? 2)) ptr;
      r ← parse_guid temp; mret (r, ptr)
  | UINT16_FIELD => '(temp, ptr) ← read_index false ptr; mret (inr [temp], ptr)
  | UINT32_FIELD => '(temp, ptr) ← read_index true ptr; mret (inr [temp], ptr)
  | FIELD_FIELD =>
      '(temp, ptr) ← read_index (big_ref im type) ptr;
      r ← parse_list IL_META_TOKEN_FIELD_DEF temp; mret (r, ptr)
  | METHOD_FIELD =>
      '(temp, ptr) ← read_index (big_ref im type) ptr;
      r ← parse_list IL_META_TOKEN_METHOD_DEF temp; mret (r, ptr)
  | PARAM_FIELD =>
      '(temp, ptr) ← read_index (big_ref im type) ptr;
      r ← parse_list IL_META_TOKEN_PARAM_DEF temp; mret (r, ptr)
  | OPTGEN_FIELD => mret (inr [], ptr)
  | TKREF_FIELD token =>
      '(temp, ptr) ← read_index (big_ref im type) ptr;
      r ← parse_tkref token temp; mret (r, ptr)
  | Mixed bits types =>
      '(temp, ptr) ← read_index (big_ref im type) ptr;
      r ← parse_mixed bits types temp; mret (r, ptr)
  end.

(** The loop over the fields, which ends with the first that is not valid. *)
Fixpoint parse_row_fields (desc : list field_type) (ptr : list Z) : comp S parsed :=
  match desc with
  | [] => mret (inr [])
  | type :: desc =>
      if optional im type then
        match desc with
        | [] => fail (Undefined "desc")
        | _ :: desc => r ← parse_row_fields desc ptr; mret (row_app [0] r)
        end
      else
        '(r, ptr) ← parse_row_field type ptr;
        match r with
        | inl e => mret (inl e)
        | inr vs => r ← parse_row_fields desc ptr; mret (row_app vs r)
        end
  end.

(** The values that the row sets, or a load error. *)
Definition ParseToken (desc : option (list field_type)) (item : list Z) : comp S parsed :=
  match desc with
  | None => mret (inl IL_LOADERR_UNDOC_META)
  | Some desc => parse_row_fields desc item
  end.
End row.

(** ** The index *)

(** The tables. *)
Definition all_types : list Z := seqZ 0 64.
Definition present (typesPresent type : Z) : bool := negb (Z.land typesPresent (Z.shiftl 1 type) =? 0).

(** The numbers of rows, behind the header. *)
Fixpoint read_counts (types : list Z) (typesPresent : Z) (im : ILImage) (index : list Z) (size : Z)
    : comp S (Z + ILImage * list Z * Z) :=
  match types with
  | [] => mret (inr (im, index, size))
  | type :: types =>
      if negb (present typesPresent type) then read_counts types typesPresent im index size
      else if size <? 4 then mret (inl IL_LOADERR_BAD_META)
      else
        n ← lift "index" (IL_READ_UINT32 index 0);
        if 0x00FFFFFF <=? n then mret (inl IL_LOADERR_BAD_META)
        else read_counts types typesPresent (set_token_count im type n) (drop 4 index) (ulong (size - 4))
  end.

(** Forget the tables that are left. *)
Fixpoint clear_types (types : list Z) (typesPresent : Z) (im : ILImage) : Z * ILImage :=
  match types with
  | [] => (typesPresent, im)
  | type :: types =>
      clear_types types (Z.ldiff typesPresent (Z.shiftl 1 type)) (set_size (set_token_count im type 0) type 0)
  end.

(** The sizes of the rows.  A table that is not documented is an error, or, when its
    number is above that of the nested classes, the end of the tables that are used. *)
Fixpoint read_sizes (strRefSize blobRefSize guidRefSize : Z) (types : list Z)
    (typesPresent : Z) (im : ILImage) : comp S (Z + Z * ILImage) :=
  match types with
  | [] => mret (inr (typesPresent, im))
  | type :: rest =>
      if present typesPresent type then
        desc ← array_get "FieldDescriptions" FieldDescriptions type;
        let n := uchar (TokenSize im strRefSize blobRefSize guidRefSize desc) in
        let im := set_size im type n in
        if n =? 0 then
          if type <=? Z.shiftr IL_META_TOKEN_NESTED_CLASS 24 then mret (inl IL_LOADERR_UNDOC_META)
          else mret (inr (clear_types types typesPresent im))
        else read_sizes strRefSize blobRefSize guidRefSize rest typesPresent im
      else read_sizes strRefSize blobRefSize guidRefSize rest typesPresent im
  end.

(** Where the tables start. *)
Fixpoint read_starts (types : list Z) (typesPresent : Z) (im : ILImage) (index : list Z) (size : Z)
    : comp S (Z + ILImage) :=
  match types with
  | [] => mret (inr im)
  | type :: types =>
      if present typesPresent type then
        if tokenSize im type =? 0 then fail (Undefined "division by zero")
        else if size / tokenSize im type <? tokenCount im type then mret (inl IL_LOADERR_BAD_META)
        else
          let len := ulong (tokenSize im type * tokenCount im type) in
          read_starts types typesPresent (set_start im type index)
            (drop (Z.to_nat len) index) (ulong (size - len))
      else read_starts types typesPresent im index size
  end.

(** Row [token] of a table. *)
Definition row_at (im : ILImage) (type token : Z) : list Z :=
  drop (Z.to_nat (ulong (token * tokenSize im type))) (tokenStart im type).

(** The check of all rows: [n] rows from row [token] on; then all tables.  The error
    is the first. *)
Fixpoint validate_rows (im : ILImage) (strRefSize blobRefSize guidRefSize type : Z) (n : nat)
    (token err : Z) : comp S Z :=
  match n with
  | O => mret err
  | Datatypes.S n =>
      desc ← array_get "FieldDescriptions" FieldDescriptions type;
      r ← ParseToken im strRefSize blobRefSize guidRefSize desc (row_at im type token);
      let err := if negb (err =? 0) then err else match r with inl e => e | inr _ => 0 end in
      validate_rows im strRefSize blobRefSize guidRefSize type n (token + 1) err
  end.
Fixpoint validate_types (im : ILImage) (strRefSize blobRefSize guidRefSize : Z) (types : list Z)
    (err : Z) : comp S Z :=
  match types with
  | [] => mret err
  | type :: types =>
      err ← validate_rows im strRefSize blobRefSize guidRefSize type (Z.to_nat (tokenCount im type)) 0 err;
      validate_types im strRefSize blobRefSize guidRefSize types err
  end.

Definition ParseMetaIndex (im : ILImage) (loadFlags : Z) : comp S (Z + ILImage) :=
  index ← ILImageGetMetaEntry (section im) "#~";
  index ← match index with
          | Some _ => mret index
          | None => ILImageGetMetaEntry (section im) "#-"
          end;
  match index with
  | None => mret (inl IL_LOADERR_BAD_META)
  | Some index =>
      let size := Z.of_nat (length index) in
      if size <? 24 then mret (inl IL_LOADERR_BAD_META)
      else
        sizeBits ← lift "index" (byte_at index 6);
        typesPresent ← lift "index" (IL_READ_UINT64 index 8);
        sortedTables ← lift "index" (IL_READ_UINT64 index 16);
        let im := set_counts im (tokenCount im) sortedTables in
        r ← read_counts all_types typesPresent im (drop 24 index) (ulong (size - 24));
        match r with
        | inl e => mret (inl e)
        | inr (im, index, size) =>
            let strRefSize := if negb (Z.land sizeBits IL_META_SIZE_FLAG_STRREF =? 0) then 4 else 2 in
            let guidRefSize := if negb (Z.land sizeBits IL_META_SIZE_FLAG_GUIDREF =? 0) then 4 else 2 in
            let blobRefSize := if negb (Z.land sizeBits IL_META_SIZE_FLAG_BLOBREF =? 0) then 4 else 2 in
            r ← read_sizes strRefSize blobRefSize guidRefSize all_types typesPresent im;
            match r with
            | inl e => mret (inl e)
            | inr (typesPresent, im) =>
                r ← read_starts all_types typesPresent im index size;
                match r with
                | inl e => mret (inl e)
                | inr im =>
                    err ← (if negb (Z.land loadFlags IL_LOADFLAG_PRE_VALIDATE =? 0)
                           then validate_types im strRefSize blobRefSize guidRefSize all_types 0
                           else mret 0);
                    if negb (err =? 0) then mret (inl err)
                    else mret (inr (set_ref_sizes im (strRefSize =? 4) (blobRefSize =? 4)
                                      (guidRefSize =? 4)))
                end
            end
        end
  end.

(** Load the pools and the index.  The structures that are built from the tables then
    are those of the program ([_ILImageBuildMetaStructures]). *)
Definition _ILImageParseMeta (build : ILImage -> comp S Z) (im : ILImage) (flags : Z)
    : comp S (Z + ILImage) :=
  strings ← ILImageGetMetaEntry (section im) "#Strings";
  let stringPool := default [] strings in
  let size := Z.of_nat (length stringPool) in
  last ← (if 0 <? size then lift "stringPool" (byte_at stringPool (size - 1)) else mret 0);
  if negb (last =? 0) then mret (inl IL_LOADERR_BAD_META)
  else
    blobs ← ILImageGetMetaEntry (section im) "#Blob";
    userStrings ← ILImageGetMetaEntry (section im) "#US";
    r ← ParseMetaIndex (set_pools im size (default [] blobs)
                          (Z.of_nat (length (default [] userStrings)))) flags;
    match r with
    | inl e => mret (inl e)
    | inr im =>
        err ← build im;
        if negb (err =? 0) then mret (inl err) else mret (inr im)
    end.

(** The values of the row of a token, if it has one that is valid. *)
Definition _ILImageRawTokenData (im : ILImage) (token : Z) : comp S (option (list Z)) :=
  if valid_token im token then
    desc ← array_get "FieldDescriptions" FieldDescriptions (tokenType token);
    r ← ParseToken im (if strRefBig im then 4 else 2) (if blobRefBig im then 4 else 2)
          (if guidRefBig im then 4 else 2) desc (row_at im (tokenType token) (tokenId token - 1));
    mret (match r with inl _ => None | inr values => Some values end)
  else mret None.

Definition ILImageNumTokens (im : ILImage) (tokenType : Z) : Z :=
  if tokenType <? 0x40000000 then tokenCount im (Z.shiftr tokenType 24) else 0.
End parse.

(** ** The items of the tokens *)

(** The image, and the token of every item. *)
Record token_state := mkTokens { image : ILImage; item_token : Z -> Z }.
Definition set_image (im : ILImage) (st : token_state) : token_state := mkTokens im (item_token st).
Definition set_item_token (item token : Z) (st : token_state) : token_state :=
  mkTokens (image st) (array_set (item_token st) item token).

(** Whether a binary search came to an item, to the end, or to a token without item. *)
Inductive search_result := Found (item : Z) | Absent | Gap.

Section tokens.
Context (_ILImageLoadOnDemand : Z -> comp token_state (option Z)).

(** The item that is in memory. *)
Definition loaded_item (token : Z) : comp token_state (option Z) :=
  im ← get image;
  match tokenData im (tokenType token) with
  | None => mret None
  | Some data => array_get "data" data (tokenId token - 1)
  end.

Definition ILImageTokenInfo (token : Z) : comp token_state (option Z) :=
  im ← get image;
  if valid_token im token then
    item ← loaded_item token;
    match item with
    | Some item => mret (Some item)
    | None => if building im then mret None else _ILImageLoadOnDemand token
    end
  else mret None.

Definition _ILImageTokenAlreadyLoaded (token : Z) : comp token_state bool :=
  im ← get image;
  if valid_token im token then
    item ← loaded_item token;
    mret (bool_decide (is_Some item))
  else mret false.

Definition ILImageNextToken (tokenType : Z) (prev : option Z) : comp token_state (option Z) :=
  match prev with
  | Some item => token ← get (fun st => item_token st item); ILImageTokenInfo (uint32 (token + 1))
  | None => ILImageTokenInfo (Z.lor tokenType 1)
  end.

Section search.
Context (compareFunc : Z -> comp token_state Z).

Fixpoint binary_search (fuel : nat) (left right : Z) : comp token_state search_result :=
  match fuel with
  | O => fail Out_of_fuel
  | Datatypes.S fuel =>
      if right <? left then mret Absent
      else
        let token := uint32 (left + right) / 2 in
        item ← ILImageTokenInfo token;
        match item with
        | None => mret Gap
        | Some item =>
            cmp ← compareFunc item;
            if cmp =? 0 then mret (Found item)
            else if cmp <? 0 then binary_search fuel (uint32 (token + 1)) right
            else binary_search fuel left (uint32 (token - 1))
        end
  end.

(** [data] is whether the table had items when the search began. *)
Definition search_item (data : bool) (token : Z) : comp token_state (option Z) :=
  item ← (if data then loaded_item token else mret None);
  match item with
  | Some item => mret (Some item)
  | None => ILImageTokenInfo token
  end.
Fixpoint linear_search (n : nat) (data : bool) (token : Z) : comp token_state (option Z) :=
  match n with
  | O => mret None
  | Datatypes.S n =>
      item ← search_item data token;
      match item with
      | None => linear_search n data (uint32 (token + 1))
      | Some item =>
          cmp ← compareFunc item;
          if cmp =? 0 then mret (Some item) else linear_search n data (uint32 (token + 1))
      end
  end.

(** The tokens from [tokenType | 1] to [maxToken]. *)
Definition ILImageSearchForToken (tokenType : Z) : comp token_state (option Z) :=
  im ← get image;
  let maxToken := uint32 (Z.lor tokenType (count im tokenType)) in
  let data := bool_decide (is_Some (tokenData im (Z.shiftr tokenType 24))) in
  let n := Z.to_nat (maxToken - Z.lor tokenType 1 + 1) in
  if negb (Z.land (sorted im) (Z.shiftl 1 (Z.shiftr tokenType 24)) =? 0) then
    r ← binary_search (Datatypes.S n) (Z.lor tokenType 1) maxToken;
    match r with
    | Found item => mret (Some item)
    | Absent => mret None
    | Gap => linear_search n data (Z.lor tokenType 1)
    end
  else linear_search n data (Z.lor tokenType 1).
End search.

(** [data[i] = item]. *)
Definition store_item (type i item : Z) : comp token_state unit :=
  im ← get image;
  match tokenData im type with
  | None => fail (Undefined "data")
  | Some data =>
      if (0 <=? i) && (i <? Z.of_nat (length data)) then
        modify (set_image (set_data im type (<[Z.to_nat i := Some item]> data)))
      else fail (Undefined "data")
  end.

(** Enter an item; it is the token [token] of an image that is loaded, and a new one
    of the kind [tokenKind] of an image that is built. *)
Definition _ILImageSetToken `{Host} (item token tokenKind : Z) : comp token_state bool :=
  im ← get image;
  if negb (building im) then
    old ← get (fun st => item_token st item);
    _ ← (if old =? 0 then modify (set_item_token item (uint32 token)) else mret tt);
    if valid_token im token then
      _ ← (match tokenData im (tokenType token) with
           | Some _ => mret tt
           | None => modify (set_image (set_data im (tokenType token)
                       (replicate (Z.to_nat (tokenCount im (tokenType token))) None)))
           end);
      _ ← store_item (tokenType token) (tokenId token - 1) item;
      mret true
    else mret false
  else
    let type := Z.shiftr tokenKind 24 in
    let count := tokenCount im type in
    _ ← modify (set_item_token item (uint32 (Z.lor tokenKind (ulong (count + 1)))));
    _ ← (if Z.land count 0x3F =? 0 then
           modify (set_image (set_data im type
             (resize (Z.to_nat (count + 64)) None (default [] (tokenData im type)))))
         else mret tt);
    _ ← store_item type count item;
    im ← get image;
    _ ← modify (set_image (set_token_count im type (ulong (count + 1))));
    mret true.

(** ** The sizes of an image that is written *)

Context (ILModule_MVID ILModule_EncId ILModule_EncBaseId : Z -> bool).

Fixpoint count_guids `{Host} (fuel : nat) (module : option Z) (numGUIDs : Z) : comp token_state Z :=
  match fuel with
  | O => fail Out_of_fuel
  | Datatypes.S fuel =>
      module ← ILImageNextToken IL_META_TOKEN_MODULE module;
      match module with
      | None => mret numGUIDs
      | Some m =>
          count_guids fuel module
            (ulong (numGUIDs + Z.b2z (ILModule_MVID m) + Z.b2z (ILModule_EncId m)
                    + Z.b2z (ILModule_EncBaseId m)))
      end
  end.

Fixpoint set_sizes (strRefSize blobRefSize guidRefSize : Z) (types : list Z) (im : ILImage)
    : comp token_state ILImage :=
  match types with
  | [] => mret im
  | type :: types =>
      desc ← array_get "FieldDescriptions" FieldDescriptions type;
      set_sizes strRefSize blobRefSize guidRefSize types
        (set_size im type (uchar (TokenSize im strRefSize blobRefSize guidRefSize desc)))
  end.

Definition _ILImageComputeTokenSizes `{Host} : comp token_state unit :=
  im ← get image;
  let strRefSize := if 0xFFFF <? stringPoolSize im then 4 else 2 in
  let blobRefSize := if 0xFFFF <? blobPoolSize im then 4 else 2 in
  numGUIDs ← count_guids (Datatypes.S (Z.to_nat (count im IL_META_TOKEN_MODULE))) None 0;
  let guidRefSize := if 0xFFFF <? numGUIDs then 4 else 2 in
  im ← get image;
  im ← set_sizes strRefSize blobRefSize guidRefSize all_types
         (set_ref_sizes im (strRefSize =? 4) (blobRefSize =? 4) (guidRefSize =? 4));
  modify (set_image im).
End tokens.

(** ** Writing a row *)

Definition WRITE16 (value : Z) : list Z := [uchar value; uchar (Z.shiftr value 8)].
Definition WRITE32 (value : Z) : list Z :=
  [uchar value; uchar (Z.shiftr value 8); uchar (Z.shiftr value 16); uchar (Z.shiftr value 24)].
Definition write_index (big : bool) (val : Z) : list Z := if big then WRITE32 val else WRITE16 val.

Section encode.
Context {S : Type} (im : ILImage) (values : list Z).

(** The code of the table of a reference; [val2] is the code of the first of [types]. *)
Fixpoint mixed_code (types : list Z) (value val val2 : Z) : Z :=
  match types with
  | [] => val
  | temp :: types =>
      let kind := Z.land value IL_META_TOKEN_MASK in
      let val := if temp =? kind then val2 else val in
      let val := if (temp =? 2) && (kind =? IL_META_TOKEN_STRING) then val2 else val in
      mixed_code types value val (val2 + 1)
  end.

Definition encode_list (type : field_type) (token val : Z) : list Z :=
  write_index (big_ref im type)
    (if val =? 0 then uint32 (Z.lor token (count im token)) else val).

(** The bytes of the value at [index], and the number of values they use. *)
Definition encode_field (type : field_type) (index : Z) : comp S (list Z * Z) :=
  match type with
  | STRREF_FIELD => val ← array_get "values" values index; mret (write_index (strRefBig im) val, 1)
  | BLOBREF_FIELD => val ← array_get "values" values index; mret (write_index (blobRefBig im) val, 3)
  | GUIDREF_FIELD =>
      val ← array_get "values" values index;
      mret (write_index (guidRefBig im) (if val =? IL_MAX_UINT32 then 0 else val / 16 + 1), 1)
  | UINT16_FIELD => val ← array_get "values" values index; mret (WRITE16 val, 1)
  | UINT32_FIELD => val ← array_get "values" values index; mret (WRITE32 val, 1)
  | FIELD_FIELD =>
      val ← array_get "values" values index; mret (encode_list type IL_META_TOKEN_FIELD_DEF val, 1)
  | METHOD_FIELD =>
      val ← array_get "values" values index; mret (encode_list type IL_META_TOKEN_METHOD_DEF val, 1)
  | PARAM_FIELD =>
      val ← array_get "values" values index; mret (encode_list type IL_META_TOKEN_PARAM_DEF val, 1)
  | OPTGEN_FIELD => mret ([], 0)
  | TKREF_FIELD token =>
      val ← array_get "values" values index; mret (write_index (big_ref im type) val, 1)
  | Mixed bits types =>
      val ← array_get "values" values index;
      mret (write_index (big_ref im type)
              (Z.lor (mixed_code types val 0 0)
                 (uint32 (Z.shiftl (Z.ldiff val IL_META_TOKEN_MASK) bits))), 1)
  end.

Fixpoint encode_fields (desc : list field_type) (index : Z) : comp S (list Z) :=
  match desc with
  | [] => mret []
  | type :: desc =>
      if optional im type then
        match desc with
        | [] => fail (Undefined "desc")
        | _ :: desc => encode_fields desc (index + 1)
        end
      else
        '(bytes, n) ← encode_field type index;
        rest ← encode_fields desc (index + n);
        mret (bytes ++ rest)
  end.

(** The bytes of a row. *)
Definition _ILImageRawTokenEncode (token : Z) : comp S (list Z) :=
  desc ← array_get "FieldDescriptions" FieldDescriptions (Z.shiftr token 24);
  match desc with
  | None => mret []
  | Some desc => encode_fields desc 0
  end.
End encode.
