(* ===== verification/MetaIndexSafe.v ===== *)
(** * MetaIndexSafe: the tables that are loaded can be read

    Whatever the bytes of the metadata are: an image whose index is accepted has
    its tables inside the index, and a row that is unpacked has references that are
    in range. *)
From S2P Require Import Prelude Values ILMeta MetaCompress MetaHeader MetaIndex.

(** ** The descriptions *)

(** The kind of a token that the tables refer to; there are no documented tables
    from [0x2D] on. *)
Definition kind_ok (token : Z) : bool :=
  (token =? Z.shiftl (tokenType token) 24) && (0 <=? token) && (token <? 0x2D000000).
Definition field_ok (type : field_type) : bool :=
  match type with
  | OPTGEN_FIELD => false
  | TKREF_FIELD token => kind_ok token
  | Mixed bits types =>
      (0 <=? bits) && (2 ^ bits =? Z.of_nat (length types))
      && forallb (fun token => (token =? 1) || (token =? 2) || kind_ok token) types
  | _ => true
  end.
Definition desc_ok (desc : list field_type) : bool :=
  forallb field_ok desc && negb (bool_decide (desc = [])) && (length desc <=? 16)%nat.

#[export] Instance field_type_eq_dec : EqDecision field_type.
Proof. solve_decision. Defined.

Lemma descriptions_ok :
  forallb (fun desc => match desc with None => true | Some desc => desc_ok desc end) FieldDescriptions = true.
Proof. by vm_compute. Qed.

Lemma description_ok type desc : FieldDescriptions !! type = Some (Some desc) -> desc_ok desc = true.
Proof.
  intros Hd. pose proof descriptions_ok as Hok.
  rewrite forallb_forall in Hok. apply list_elem_of_lookup_2, list_elem_of_In, Hok in Hd. done.
Qed.

Lemma descriptions_in_range : forall type, 0 <= type < 64 -> exists desc, FieldDescriptions !! Z.to_nat type = Some desc.
Proof.
  intros type Hd. destruct (FieldDescriptions !! Z.to_nat type) eqn:E; [eauto |].
  apply lookup_ge_None in E. change (length FieldDescriptions) with 64%nat in E. lia.
Qed.

(** The tables without description are above all that are referred to. *)
Lemma undocumented_above type :
  0 <= type -> FieldDescriptions !! Z.to_nat type = Some None -> 0x29 < type -> 0x2D <= type.
Proof.
  intros H0 Hd Ht. destruct (decide (0x2D <= type)); [done |].
  assert (type = 0x2A \/ type = 0x2B \/ type = 0x2C) as [-> | [-> | ->]] by lia;
    vm_compute in Hd; discriminate.
Qed.

Lemma desc_fields_ok desc : desc_ok desc = true -> Forall (fun t => field_ok t = true) desc.
Proof.
  unfold desc_ok. rewrite !andb_true_iff. intros [[H _] _].
  rewrite forallb_forall in H. apply Forall_forall. intros x Hx. by apply H, list_elem_of_In.
Qed.

(** ** The values of a row *)

(** The counts of the rows fit the numbers in tokens. *)
Definition counts_ok (im : ILImage) : Prop := forall type, 0 <= tokenCount im type < 0x00FFFFFF.
Definition pools_ok (im : ILImage) : Prop :=
  blobPoolSize im = Z.of_nat (length (blobPool im)) /\ Forall is_byte (blobPool im) /\
  blobPoolSize im < 2 ^ 32.
Definition section_ok (im : ILImage) : Prop := Z.of_nat (length (default [] (section im))) < 2 ^ 32.

Section values.
Context (im : ILImage).

(** A GUID of the "#GUID" stream. *)
Definition guid_ok (v : Z) : Prop :=
  v = IL_MAX_UINT32 \/
  exists guids, within (section im) guids /\ 0 <= v /\ v + 16 <= Z.of_nat (length guids).

(** What the values of a field promise. *)
Definition field_value (type : field_type) (vs : list Z) : Prop :=
  match type with
  | STRREF_FIELD => exists v, vs = [v] /\ 0 <= v < stringPoolSize im
  | BLOBREF_FIELD =>
      exists i pos len, vs = [i; pos; len] /\ 0 <= pos /\ 0 <= len /\ pos + len <= blobPoolSize im
  | GUIDREF_FIELD => exists v, vs = [v] /\ guid_ok v
  | UINT16_FIELD => exists v, vs = [v] /\ 0 <= v < 2 ^ 16
  | UINT32_FIELD => exists v, vs = [v] /\ 0 <= v < 2 ^ 32
  | FIELD_FIELD => exists v, vs = [v] /\ (v = 0 \/ valid_token im v = true /\ tokenType v = 0x04)
  | METHOD_FIELD => exists v, vs = [v] /\ (v = 0 \/ valid_token im v = true /\ tokenType v = 0x06)
  | PARAM_FIELD => exists v, vs = [v] /\ (v = 0 \/ valid_token im v = true /\ tokenType v = 0x08)
  | OPTGEN_FIELD => vs = []
  | TKREF_FIELD token =>
      exists v, vs = [v] /\ valid_token im v = true /\ tokenType v = tokenType token
  | Mixed _ types =>
      exists v, vs = [v] /\
        (v = 0 \/ v = IL_META_TOKEN_STRING \/
         valid_token im v = true /\ Z.shiftl (tokenType v) 24 ∈ types)
  end.

Inductive row_values : list field_type -> list Z -> Prop :=
| row_nil : row_values [] []
| row_skip type skipped desc vs :
    optional im type = true -> row_values desc vs -> row_values (type :: skipped :: desc) (0 :: vs)
| row_field type desc us vs :
    optional im type = false -> field_value type us -> row_values desc vs ->
    row_values (type :: desc) (us ++ vs).

(** A token from the number of its row. *)
Lemma token_parts token rid :
  kind_ok token = true -> 0 <= rid < 2 ^ 24 ->
  tokenId (Z.lor token rid) = rid /\ tokenType (Z.lor token rid) = tokenType token /\
  0 <= Z.lor token rid < 0x2D000000.
Proof.
  unfold kind_ok. rewrite !andb_true_iff, Z.eqb_eq, Z.leb_le, Z.ltb_lt. intros [[Ht H0] Hl] Hr.
  assert (Z.land token (2 ^ 24 - 1) = 0) as Hz.
  { rewrite Ht. change (2 ^ 24 - 1) with (Z.ones 24). rewrite Z.land_ones, Z.shiftl_mul_pow2 by lia.
    apply Z.mod_mul. lia. }
  assert (Z.land token rid = 0) as Hd.
  { rewrite <- (Z.mod_small rid (2 ^ 24)), <- Z.land_ones by lia.
    rewrite (Z.land_comm rid), Z.land_assoc. change (Z.ones 24) with (2 ^ 24 - 1). by rewrite Hz. }
  split_and!.
  - unfold tokenId. change 0x00FFFFFF with (2 ^ 24 - 1). rewrite Z.land_lor_distr_l, Hz, Z.lor_0_l.
    change (2 ^ 24 - 1) with (Z.ones 24). rewrite Z.land_ones by lia. apply Z.mod_small. lia.
  - unfold tokenType. rewrite Z.shiftr_lor. rewrite (Z.shiftr_div_pow2 rid), Z.div_small by lia.
    apply Z.lor_0_r.
  - apply Z.lor_nonneg. split; lia.
  - rewrite <- Z.lxor_lor, <- Z.add_nocarry_lxor by done.
    assert (token = 2 ^ 24 * tokenType token) as Hm by (rewrite Z.shiftl_mul_pow2 in Ht; lia). lia.
Qed.

Lemma valid_row token rid :
  kind_ok token = true -> 1 <= rid <= count im token -> rid < 2 ^ 24 ->
  valid_token im (Z.lor token rid) = true /\ tokenType (Z.lor token rid) = tokenType token.
Proof.
  intros Hk Hr H24. destruct (token_parts token rid) as (Hi & Ht & Hb); [done | lia |].
  split; [| done]. unfold valid_token. rewrite Hi, Ht, !andb_true_iff, Z.ltb_lt, !Z.leb_le.
  unfold count in Hr. fold (tokenType token) in Hr. lia.
Qed.
End values.

(** The number of values. *)
Definition field_width (type : field_type) : nat :=
  match type with BLOBREF_FIELD => 3 | OPTGEN_FIELD => 0 | _ => 1 end.

Lemma row_length im desc vs :
  Forall (fun t => field_ok t = true) desc -> row_values im desc vs ->
  length vs = sum_list (field_width <$> desc).
Proof.
  intros Hd Hrow. induction Hrow as [| type skipped desc vs Ho | type desc us vs Ho Hus Hvs IH]; [done | |];
    apply Forall_cons in Hd as [Ht Hd].
  - by destruct type.
  - rewrite length_app, IH by done. cbn [fmap list_fmap sum_list]. f_equal.
    destruct type; cbn [field_value field_width] in *; 
      first [by rewrite Hus | by destruct Hus as (v & -> & _) | by destruct Hus as (i & pos & len & -> & _)].
Qed.

Lemma description_width type desc :
  FieldDescriptions !! type = Some (Some desc) ->
  Z.of_nat (sum_list (field_width <$> desc)) <= IL_IMAGE_TOKEN_COLUMNS.
Proof.
  intros Hd. assert (forallb (fun desc => match desc with
    | None => true
    | Some desc => Z.of_nat (sum_list (field_width <$> desc)) <=? IL_IMAGE_TOKEN_COLUMNS
    end) FieldDescriptions = true) as Hall by by vm_compute.
  rewrite forallb_forall in Hall.
  apply list_elem_of_lookup_2, list_elem_of_In, Hall in Hd. by apply Z.leb_le in Hd.
Qed.

(** ** Unpacking a row *)

Section parse.
Context `{Host} {S : Type} (im : ILImage) (strRefSize blobRefSize guidRefSize : Z).
Context (Hcounts : counts_ok im) (Hpools : pools_ok im) (Hsection : section_ok im).
Context (Hstr : strRefSize = 2 \/ strRefSize = 4) (Hblob : blobRefSize = 2 \/ blobRefSize = 4)
        (Hguid : guidRefSize = 2 \/ guidRefSize = 4).

Definition good_values (type : field_type) (r : parsed) : Prop :=
  match r with inl e => e <> 0 | inr vs => field_value im type vs end.

Lemma good_bad type : total (S := S) bad_meta (good_values type).
Proof. by apply total_ret. Qed.
Lemma good_ret type vs : field_value im type vs -> total (S := S) (mret (inr vs)) (good_values type).
Proof. intros Hv. by apply total_ret. Qed.

Lemma read_index_total (big : bool) ptr n :
  n = (if big then 4 else 2) -> n <= Z.of_nat (length ptr) ->
  total (S := S) (read_index big ptr) (fun r =>
    0 <= r.1 < (if big then 2 ^ 32 else 2 ^ 16) /\ r.2 = drop (Z.to_nat n) ptr).
Proof.
  intros -> Hn. unfold read_index.
  destruct big; cbv iota in Hn |- *.
  - eapply total_bind; [apply total_lift, read32_total; lia |]. intros temp Ht. by apply total_ret.
  - eapply total_bind; [apply total_lift, read16_total; lia |]. intros temp Ht. by apply total_ret.
Qed.

Lemma parse_blob_total temp : 0 <= temp < 2 ^ 32 -> total (S := S) (parse_blob im temp) (good_values BLOBREF_FIELD).
Proof.
  intros Ht. destruct Hpools as (Hs & Hb & H32). unfold parse_blob.
  apply total_if; intros Hc; [apply good_bad |]. rewrite andb_false_iff, negb_false_iff, Z.eqb_eq, Z.leb_gt in Hc.
  apply total_if; intros Hz; [apply good_ret; exists temp, temp, 0; split; [done |]; lia |].
  apply Z.eqb_neq in Hz. destruct Hc as [? | Hc]; [done |].
  rewrite ulong_small by lia.
  set (m := mk_meta _ _ _).
  destruct (uncompress_data_safe m) as (v & m' & E & Hv & k & Hd & Hl & Hwf & _).
  { subst m. split; cbn; [rewrite length_drop; lia | by apply Forall_drop]. }
  eapply total_bind; [by apply (total_lift_eq _ _ (v, m')) |]. intros ? ->.
  cbv zeta. destruct Hwf as [Hlen _].
  assert (len m' <= blobPoolSize im - temp) as Hle.
  { rewrite Hd in Hlen. cbn in Hlen. rewrite !length_drop in Hlen. lia. }
  apply total_if; intros Hbad; [apply good_bad |]. rewrite orb_false_iff, Z.ltb_ge in Hbad.
  apply good_ret. eexists _, _, _. split; [done |].
  unfold uint32 in *. rewrite (to_unsigned_small _ v) in * by lia. rewrite to_unsigned_small by lia. lia.
Qed.

Lemma parse_guid_total temp : 0 <= temp < 2 ^ 32 -> total (S := S) (parse_guid im temp) (good_values GUIDREF_FIELD).
Proof.
  intros Ht. unfold parse_guid.
  apply total_if; intros Hz; [apply good_ret; eexists; split; [done |]; by left |]. apply Z.eqb_neq in Hz.
  apply total_if; intros Hb; [apply good_bad |]. apply Z.leb_gt in Hb.
  eapply total_bind; [by apply meta_entry_safe |]. intros [guids |] Hg; [| apply good_bad].
  specialize (Hg guids eq_refl).
  assert (Z.of_nat (length guids) < 2 ^ 32) as Hlen.
  { destruct Hg as (bytes & pre & post & E & -> & _). unfold section_ok in Hsection.
    rewrite E in Hsection. cbn in Hsection. rewrite !length_app in Hsection. lia. }
  cbv zeta. unfold uint32. rewrite !to_unsigned_small by (rewrite ?to_unsigned_small by lia; lia).
  apply total_if; intros Hc; [apply good_bad |]. rewrite orb_false_iff, !Z.ltb_ge in Hc.
  apply good_ret. eexists; split; [done |]. right. exists guids. split; [done | lia].
Qed.

Lemma parse_list_total type token temp :
  kind_ok token = true -> 0 <= temp < 2 ^ 32 ->
  (forall v, v = 0 \/ valid_token im v = true /\ tokenType v = tokenType token -> field_value im type [v]) ->
  total (S := S) (parse_list im token temp) (good_values type).
Proof.
  intros Hk Ht Hv. unfold parse_list. cbv zeta. pose proof (Hcounts (Z.shiftr token 24)) as Hc.
  fold (count im token) in Hc.
  apply total_if; intros Hz; [apply good_ret, Hv; by left |].
  apply total_if; intros Hr; [| apply good_bad].
  rewrite andb_true_iff, Z.ltb_lt, Z.leb_le in Hr. unfold uint32 in Hr. rewrite to_unsigned_small in Hr by lia.
  apply good_ret, Hv. right. apply valid_row; [done | lia | lia].
Qed.

Lemma kind_masked token : kind_ok token = true -> Z.land token 0xFF000000 = token.
Proof.
  unfold kind_ok. rewrite !andb_true_iff, Z.eqb_eq, Z.leb_le, Z.ltb_lt. intros [[Ht H0] Hl].
  rewrite Ht. change 0xFF000000 with (Z.shiftl (Z.ones 8) 24). rewrite <- Z.shiftl_land. f_equal.
  rewrite Z.land_ones by lia. apply Z.mod_small. unfold tokenType in *. rewrite Z.shiftr_div_pow2 by lia. lia.
Qed.

Lemma parse_tkref_total token temp :
  kind_ok token = true -> 0 <= temp < 2 ^ 32 ->
  total (S := S) (parse_tkref im token temp) (good_values (TKREF_FIELD token)).
Proof.
  intros Hk Ht. unfold parse_tkref. cbv zeta. pose proof (Hcounts (Z.shiftr token 24)) as Hc.
  fold (count im token) in Hc. apply total_if; intros Hr; [| apply good_bad].
  rewrite andb_true_iff, Z.ltb_lt, Z.leb_le in Hr. unfold uint32 in Hr. rewrite to_unsigned_small in Hr by lia.
  apply good_ret. eexists; split; [done |]. rewrite kind_masked by done. apply valid_row; [done | lia | lia].
Qed.

Lemma parse_mixed_total bits types temp :
  field_ok (Mixed bits types) = true -> 0 <= temp < 2 ^ 32 ->
  total (S := S) (parse_mixed im bits types temp) (good_values (Mixed bits types)).
Proof.
  cbn [field_ok]. rewrite !andb_true_iff, Z.leb_le, Z.eqb_eq. intros [[Hb Hn] Hk] Ht.
  unfold parse_mixed. cbv zeta.
  assert (0 <= Z.land temp (Z.shiftl 1 bits - 1) < Z.of_nat (length types)) as Hi.
  { rewrite Z.shiftl_1_l, Z.sub_1_r. change (Z.pred (2 ^ bits)) with (Z.pred (2 ^ bits)).
    rewrite <- Z.ones_equiv, Z.land_ones, <- Hn by lia. apply Z.mod_pos_bound, Z.pow_pos_nonneg; lia. }
  destruct (lookup_lt_is_Some_2 types (Z.to_nat (Z.land temp (Z.shiftl 1 bits - 1)))) as [code Hcode]; [lia |].
  eapply total_bind.
  { unfold array_get. rewrite (proj2 (Z.leb_le _ _)), Hcode by lia. by apply (total_ret code (fun c => c = code)). }
  intros ? ->. pose proof (list_elem_of_lookup_2 _ _ _ Hcode) as Hin.
  rewrite forallb_forall in Hk. specialize (Hk code (proj1 (list_elem_of_In _ _) Hin)).
  apply total_if; intros Hreal.
  - rewrite andb_true_iff, !negb_true_iff in Hreal. destruct Hreal as [H1 H2]. rewrite H1, H2 in Hk. cbn in Hk.
    assert (0 <= Z.shiftr temp bits) as H0 by (apply Z.shiftr_nonneg; lia).
    apply total_if; intros Hz; [apply good_ret; eexists; split; [done | by left] |]. apply Z.eqb_neq in Hz.
    apply total_if; intros Hr; [| apply good_bad]. apply Z.leb_le in Hr.
    pose proof (Hcounts (Z.shiftr code 24)) as Hc. fold (count im code) in Hc.
    apply good_ret. eexists; split; [done |]. right; right. rewrite Z.lor_comm.
    destruct (valid_row im code (Z.shiftr temp bits)) as [Hv ->]; [done | lia | lia |].
    split; [done |]. unfold kind_ok in Hk. rewrite !andb_true_iff, Z.eqb_eq in Hk.
    by destruct Hk as [[<- _] _].
  - apply total_if; intros H2; [apply good_bad |]. apply good_ret. eexists; split; [done |]. by right; left.
Qed.

(** The index at the start of a field, then the check of it. *)
Lemma parse_index_total type (big : bool) ptr (check : Z -> comp S parsed) n :
  n = (if big then 4 else 2) -> n <= Z.of_nat (length ptr) ->
  (forall temp, 0 <= temp < (if big then 2 ^ 32 else 2 ^ 16) -> total (check temp) (good_values type)) ->
  total (S := S) ('(temp, ptr) ← read_index big ptr; r ← check temp; mret (r, ptr)) (fun r =>
    good_values type r.1 /\ r.2 = drop (Z.to_nat n) ptr).
Proof.
  intros Hn Hl Hcheck. eapply total_bind; [by apply read_index_total |]. intros [temp ptr'] [Ht Hp]. cbn [fst snd] in *.
  eapply total_bind; [by apply Hcheck |]. intros r Hr. by apply total_ret.
Qed.

Lemma parse_field_total type ptr :
  field_ok type = true ->
  field_size im strRefSize blobRefSize guidRefSize type <= Z.of_nat (length ptr) ->
  total (S := S) (parse_row_field im strRefSize blobRefSize guidRefSize type ptr) (fun r =>
    good_values type r.1 /\
    r.2 = drop (Z.to_nat (field_size im strRefSize blobRefSize guidRefSize type)) ptr).
Proof.
  assert (forall b : bool, 2 ^ 16 <= (if b then 2 ^ 32 else 2 ^ 16) <= 2 ^ 32) as Hb by (intros []; lia).
  destruct type; cbn [parse_row_field]; intros Hok Hl; cbn [field_size] in *.
  - eapply total_bind; [eapply (read_index_total _ _ strRefSize); [by destruct Hstr as [-> | ->] | done] |].
    intros [temp ptr'] [Ht Hp]. apply total_ret. split; [| done]. cbn [fst] in *.
    destruct (stringPoolSize im <=? temp) eqn:E; [done |]. apply Z.leb_gt in E. exists temp. split; [done |]. 
    destruct (negb _); cbv iota in *; lia.
  - apply parse_index_total; [by destruct Hblob as [-> | ->] | done |].
    intros. apply parse_blob_total. destruct (negb _); lia.
  - apply parse_index_total; [by destruct Hguid as [-> | ->] | done |].
    intros. apply parse_guid_total. destruct (negb _); lia.
  - eapply total_bind; [by apply (read_index_total false ptr 2) |].
    intros [temp ptr'] [Ht Hp]. apply total_ret. split; [| done]. by exists temp.
  - eapply total_bind; [by apply (read_index_total true ptr 4) |].
    intros [temp ptr'] [Ht Hp]. apply total_ret. split; [| done]. by exists temp.
  - apply parse_index_total; [done | done |]. intros temp Ht. specialize (Hb (big_ref im FIELD_FIELD)).
    apply parse_list_total; [done | lia |]. intros v Hv. by exists v.
  - apply parse_index_total; [done | done |]. intros temp Ht. specialize (Hb (big_ref im METHOD_FIELD)).
    apply parse_list_total; [done | lia |]. intros v Hv. by exists v.
  - apply parse_index_total; [done | done |]. intros temp Ht. specialize (Hb (big_ref im PARAM_FIELD)).
    apply parse_list_total; [done | lia |]. intros v Hv. by exists v.
  - done.
  - apply parse_index_total; [done | done |]. intros temp Ht. specialize (Hb (big_ref im (TKREF_FIELD token))).
    apply parse_tkref_total; [done | lia].
  - apply parse_index_total; [done | done |]. intros temp Ht. specialize (Hb (big_ref im (Mixed bits types))).
    apply parse_mixed_total; [done | lia].
Qed.

Lemma field_size_bounds type :
  field_ok type = true -> 2 <= field_size im strRefSize blobRefSize guidRefSize type <= 4.
Proof. destruct type; cbn [field_ok field_size]; intros; (done || lia || (case_match; lia)). Qed.

Lemma fields_size_nonneg desc :
  Forall (fun t => field_ok t = true) desc ->
  2 * Z.of_nat (length desc) <= fields_size im strRefSize blobRefSize guidRefSize desc <= 4 * Z.of_nat (length desc).
Proof.
  induction 1 as [| type desc Ht Hd IH]; [done |]. pose proof (field_size_bounds type Ht).
  cbn [fields_size length]. replace (optional im type) with false by (by destruct type). lia.
Qed.

Lemma parse_fields_total desc ptr :
  Forall (fun t => field_ok t = true) desc ->
  fields_size im strRefSize blobRefSize guidRefSize desc <= Z.of_nat (length ptr) ->
  total (S := S) (parse_row_fields im strRefSize blobRefSize guidRefSize desc ptr)
    (fun r => match r with inl e => e <> 0 | inr vs => row_values im desc vs end).
Proof.
  intros Hd. revert ptr. induction Hd as [| type desc Ht Hd IH]; intros ptr Hl.
  { apply total_ret. constructor. }
  pose proof (fields_size_nonneg desc Hd). pose proof (field_size_bounds type Ht).
  cbn [parse_row_fields fields_size] in *.
  assert (optional im type = false) as Ho by (by destruct type). rewrite Ho in *.
  eapply total_bind; [apply parse_field_total; [done | lia] |]. intros [[e | us] ptr'] [Hg Hp]; cbn [fst snd] in *.
  { by apply total_ret. }
  eapply total_bind; [apply IH; rewrite Hp, length_drop; lia |].
  intros [e | vs] Hr; apply total_ret; [done |]. by apply row_field.
Qed.
End parse.

(** ** Loading the index *)

Lemma present_testbit typesPresent type : 0 <= type -> present typesPresent type = Z.testbit typesPresent type.
Proof.
  intros H0. unfold present. rewrite Z.shiftl_1_l.
  assert (Z.land typesPresent (2 ^ type) = if Z.testbit typesPresent type then 2 ^ type else 0) as ->.
  { apply Z.bits_inj'. intros i Hi. rewrite Z.land_spec, Z.pow2_bits_eqb by done.
    destruct (Z.eqb_spec type i) as [<- |]; [| rewrite andb_false_r];
      destruct (Z.testbit typesPresent type); rewrite ?Z.pow2_bits_eqb, ?Z.testbit_0_l by done; try done.
    - by rewrite Z.eqb_refl.
    - symmetry. by apply Z.eqb_neq. }
  destruct (Z.testbit _ _); [| done]. by rewrite (proj2 (Z.eqb_neq _ _)) by (apply Z.pow_nonzero; lia).
Qed.

Lemma present_clear typesPresent type t :
  0 <= type -> 0 <= t ->
  present (Z.ldiff typesPresent (Z.shiftl 1 type)) t = present typesPresent t && negb (type =? t).
Proof.
  intros. rewrite !present_testbit, Z.ldiff_spec, Z.shiftl_1_l, Z.pow2_bits_eqb by done. done.
Qed.

(** What the loops leave as it is. *)
Definition same_pools (im im' : ILImage) : Prop :=
  section im' = section im /\ stringPoolSize im' = stringPoolSize im /\
  blobPool im' = blobPool im /\ blobPoolSize im' = blobPoolSize im.
#[export] Instance same_pools_refl : Reflexive same_pools.
Proof. by repeat split. Qed.
#[export] Instance same_pools_trans : Transitive same_pools.
Proof. intros im1 im2 im3 (E1 & E2 & E3 & E4) (F1 & F2 & F3 & F4). repeat split; congruence. Qed.

Lemma same_pools_ok im im' : same_pools im im' -> pools_ok im -> section_ok im -> pools_ok im' /\ section_ok im'.
Proof. intros (E1 & E2 & E3 & E4). unfold pools_ok, section_ok. by rewrite E1, E3, E4. Qed.

Section sizes.
Context (im im' : ILImage) (strRefSize blobRefSize guidRefSize : Z).
Context (Hagree : forall t, 0 <= t < 0x2D -> tokenCount im' t = tokenCount im t).

Lemma kind_bound token : kind_ok token = true -> 0 <= Z.shiftr token 24 < 0x2D.
Proof.
  unfold kind_ok. rewrite !andb_true_iff, Z.eqb_eq, Z.leb_le, Z.ltb_lt. intros [[Ht H0] Hl].
  rewrite Z.shiftr_div_pow2 by lia. lia.
Qed.

Lemma count_agree token : kind_ok token = true -> count im' token = count im token.
Proof. intros Hk%kind_bound. by apply Hagree. Qed.

Lemma existsb_ext {A} (f g : A -> bool) l : (forall x, In x l -> f x = g x) -> existsb f l = existsb g l.
Proof.
  induction l as [| x l IH]; intros Hfg; [done |]. cbn [existsb].
  rewrite Hfg by (by left). f_equal. apply IH. intros. apply Hfg. by right.
Qed.

Lemma big_ref_agree type : field_ok type = true -> big_ref im' type = big_ref im type.
Proof.
  destruct type; cbn [big_ref field_ok]; intros Hok; rewrite ?count_agree by done; try done.
  rewrite !andb_true_iff in Hok. destruct Hok as [_ Hk]. rewrite forallb_forall in Hk.
  apply existsb_ext. intros token Hin%Hk.
  destruct (token =? 1); [done |]. destruct (token =? 2); [done |]. by rewrite count_agree.
Qed.

Lemma fields_size_agree desc :
  Forall (fun t => field_ok t = true) desc ->
  fields_size im' strRefSize blobRefSize guidRefSize desc = fields_size im strRefSize blobRefSize guidRefSize desc.
Proof.
  induction 1 as [| type desc Ht Hd IH]; [done |]. cbn [fields_size].
  replace (optional im' type) with false by (by destruct type).
  replace (optional im type) with false by (by destruct type).
  rewrite IH. f_equal. pose proof (big_ref_agree type Ht) as Hb. destruct type; cbn [field_size]; rewrite ?Hb; done.
Qed.
End sizes.

Section load.
Context `{Host} {S : Type}.

Lemma read_counts_total types typesPresent im index size :
  size = Z.of_nat (length index) -> size < 2 ^ 32 -> counts_ok im ->
  total (S := S) (read_counts types typesPresent im index size) (fun r =>
    forall im' index' size', r = inr (im', index', size') ->
    same_pools im im' /\ counts_ok im' /\ size' = Z.of_nat (length index') /\ size' < 2 ^ 32 /\
    (forall t, present typesPresent t = false -> tokenCount im' t = tokenCount im t)).
Proof.
  revert im index size. induction types as [| type types IH]; intros im index size Hs H32 Hc; cbn [read_counts].
  { apply total_ret. intros ? ? ? [= <- <- <-]. done. }
  apply total_if; intros Hp; [by apply IH |]. apply negb_false_iff in Hp.
  apply total_if; intros H4; [by apply total_ret |]. apply Z.ltb_ge in H4.
  eapply total_bind; [apply total_lift, read32_total; lia |]. intros n Hn. cbv beta in Hn.
  apply total_if; intros Hmax; [by apply total_ret |]. apply Z.leb_gt in Hmax.
  rewrite ulong_small by lia.
  eapply total_mono; [apply (IH (set_token_count im type n) (drop 4 index)) |].
  - rewrite length_drop. lia.
  - lia.
  - intros t. cbn. unfold array_set. case_match; [lia | apply Hc].
  - intros r Hr im' index' size' E. destruct (Hr _ _ _ E) as (Hsame & Hc' & Hs' & H32' & Hsome).
    split_and!; [exact Hsame | done | done | done |]. intros t Ht. rewrite Hsome by done. cbn. unfold array_set.
    destruct (Z.eqb_spec t type) as [-> |]; [congruence | done].
Qed.

Lemma clear_types_spec n k typesPresent im :
  0 <= k ->
  let r := clear_types (seqZ k (Z.of_nat n)) typesPresent im in
  same_pools im r.2 /\
  (forall t, 0 <= t < k -> present r.1 t = present typesPresent t /\ tokenCount r.2 t = tokenCount im t
                           /\ tokenSize r.2 t = tokenSize im t) /\
  (forall t, k <= t < k + Z.of_nat n -> present r.1 t = false /\ tokenCount r.2 t = 0) /\
  (forall t, tokenCount r.2 t = tokenCount im t \/ k <= t /\ tokenCount r.2 t = 0).
Proof.
  revert k typesPresent im. induction n as [| n IH]; intros k typesPresent im Hk.
  { rewrite seqZ_nil by lia. cbn. split; [done |]. split_and!; auto; intros; lia. }
  rewrite seqZ_cons by lia. replace (Z.pred (Z.of_nat (Datatypes.S n))) with (Z.of_nat n) by lia.
  cbn [clear_types].
  destruct (IH (Z.succ k) (Z.ldiff typesPresent (Z.shiftl 1 k)) (set_size (set_token_count im k 0) k 0))
    as (Hsame & Hlow & Hhigh & Hcount); [lia |].
  set (r := clear_types _ _ _) in *. cbv zeta. cbn in Hlow, Hcount. unfold array_set in *.
  assert (forall t, 0 <= t < k -> (t =? k) = false) as Hne by (intros; apply Z.eqb_neq; lia).
  split_and!.
  - exact Hsame.
  - intros t Ht. destruct (Hlow t) as (-> & -> & ->); [lia |]. rewrite present_clear, !Hne by lia.
    rewrite Z.eqb_sym, Hne, andb_true_r by lia. done.
  - intros t Ht. destruct (Z.eqb_spec t k) as [-> |]; [| apply Hhigh; lia].
    destruct (Hlow k) as (-> & -> & _); [lia |]. rewrite present_clear, Z.eqb_refl, andb_false_r by lia. done.
  - intros t. destruct (Hcount t) as [-> | [? ->]]; [| right; lia].
    destruct (Z.eqb_spec t k); [right; lia | by left].
Qed.

Context (strRefSize blobRefSize guidRefSize : Z).
Context (Hstr : strRefSize = 2 \/ strRefSize = 4) (Hblob : blobRefSize = 2 \/ blobRefSize = 4)
        (Hguid : guidRefSize = 2 \/ guidRefSize = 4).

(** The size of the rows of a table. *)
Definition size_ok (im : ILImage) (type : Z) : Prop :=
  exists desc, FieldDescriptions !! Z.to_nat type = Some (Some desc) /\
    tokenSize im type = fields_size im strRefSize blobRefSize guidRefSize desc.

Lemma token_size_fits im desc :
  desc_ok desc = true -> 0 < fields_size im strRefSize blobRefSize guidRefSize desc < 256.
Proof.
  intros Hd. pose proof (fields_size_nonneg im strRefSize blobRefSize guidRefSize Hstr Hblob Hguid desc
    (desc_fields_ok desc Hd)) as Hf.
  unfold desc_ok in Hd. rewrite !andb_true_iff, negb_true_iff, Nat.leb_le in Hd.
  destruct Hd as [[_ Hn] Hl]. destruct desc; [done |]. cbn [length] in *. lia.
Qed.

Lemma read_sizes_total n k typesPresent im :
  0 <= k -> k + Z.of_nat n = 64 ->
  total (S := S) (read_sizes strRefSize blobRefSize guidRefSize (seqZ k (Z.of_nat n)) typesPresent im) (fun r =>
    forall typesPresent' im', r = inr (typesPresent', im') ->
    same_pools im im' /\
    (forall t, tokenCount im' t = tokenCount im t \/ 0x2D <= t /\ tokenCount im' t = 0) /\
    (forall t, 0 <= t < k -> present typesPresent' t = present typesPresent t /\
       tokenCount im' t = tokenCount im t /\ tokenSize im' t = tokenSize im t) /\
    (forall t, k <= t < 64 ->
       if present typesPresent' t then size_ok im' t
       else present typesPresent t = false /\ tokenCount im' t = tokenCount im t \/ tokenCount im' t = 0)).
Proof.
  revert k typesPresent im. induction n as [| n IH]; intros k typesPresent im Hk Hn.
  { rewrite seqZ_nil by lia. apply total_ret. intros ? ? [= <- <-]. split; [done |].
    split_and!; auto; intros; lia. }
  assert (seqZ k (Z.of_nat (Datatypes.S n)) = k :: seqZ (Z.succ k) (Z.of_nat n)) as Hseq.
  { rewrite seqZ_cons by lia. f_equal. f_equal. lia. }
  rewrite Hseq. cbn [read_sizes].
  apply total_if; intros Hp.
  - destruct (descriptions_in_range k) as [desc Hdesc]; [lia |].
    eapply total_bind.
    { unfold array_get. rewrite (proj2 (Z.leb_le _ _)), Hdesc by lia. by apply (total_ret desc (fun d => d = desc)). }
    intros ? ->. cbv zeta. set (size := uchar _).
    apply total_if; intros Hz.
    + apply total_if; intros Hn0; [by apply total_ret |]. apply Z.leb_gt in Hn0.
      change (Z.shiftr IL_META_TOKEN_NESTED_CLASS 24) with 0x29 in Hn0.
      assert (0x2D <= k) as Hk2D.
      { destruct desc as [desc |]; [| by apply undocumented_above]. apply Z.eqb_eq in Hz.
        pose proof (token_size_fits im desc (description_ok _ _ Hdesc)).
        subst size. cbn [TokenSize] in Hz. unfold uchar in Hz. rewrite to_unsigned_small in Hz by lia. lia. }
      rewrite <- Hseq. apply total_ret. intros tp' im' [= E].
      destruct (clear_types_spec (Datatypes.S n) k typesPresent (set_size im k size) Hk)
        as (Hsame & Hlow & Hhigh & Hcount). rewrite E in *. cbn in Hsame, Hlow, Hhigh, Hcount. unfold array_set in Hlow.
      split_and!.
      * exact Hsame.
      * intros t. destruct (Hcount t) as [-> | [? ->]]; [by left | right; lia].
      * intros t Ht. destruct (Hlow t Ht) as (-> & -> & ->). by rewrite (proj2 (Z.eqb_neq _ _)) by lia.
      * intros t Ht. destruct (Hhigh t) as [-> ->]; [lia |]. by right.
    + apply Z.eqb_neq in Hz.
      eapply total_mono; [apply (IH (Z.succ k)); lia |]. intros r Hr tp' im' E.
      destruct (Hr _ _ E) as (Hsame & Hcount & Hlow & Hhigh). cbn in Hcount, Hlow. unfold array_set in Hlow.
      split_and!.
      * exact Hsame.
      * exact Hcount.
      * intros t Ht. destruct (Hlow t) as (-> & -> & ->); [lia |]. by rewrite (proj2 (Z.eqb_neq _ _)) by lia.
      * intros t Ht. destruct (decide (t = k)) as [-> |]; [| apply Hhigh; lia].
        destruct (Hlow k) as (-> & _ & Hsz); [lia |]. rewrite Hp. rewrite Z.eqb_refl in Hsz.
        destruct desc as [desc |]; [| done]. exists desc. split; [done |]. rewrite Hsz. subst size.
        pose proof (description_ok _ _ Hdesc) as Hd. cbn [TokenSize]. unfold uchar.
        rewrite to_unsigned_small by (pose proof (token_size_fits im desc Hd); lia).
        symmetry. apply fields_size_agree; [| by apply desc_fields_ok].
        intros t Hlt. destruct (Hcount t) as [-> | [? _]]; [done | lia].
  - eapply total_mono; [apply (IH (Z.succ k)); lia |]. intros r Hr tp' im' E.
    destruct (Hr _ _ E) as (Hsame & Hcount & Hlow & Hhigh). split_and!; [done | done | |].
    + intros t Ht. apply Hlow. lia.
    + intros t Ht. destruct (decide (t = k)) as [-> |]; [| apply Hhigh; lia].
      destruct (Hlow k) as (-> & -> & _); [lia |]. rewrite Hp. by left.
Qed.

Lemma read_starts_total n k typesPresent im index size :
  0 <= k -> size = Z.of_nat (length index) -> size < 2 ^ 32 -> counts_ok im ->
  (forall t, k <= t < k + Z.of_nat n -> present typesPresent t = true -> 0 < tokenSize im t < 256) ->
  total (S := S) (read_starts (seqZ k (Z.of_nat n)) typesPresent im index size) (fun r =>
    forall im', r = inr im' ->
    same_pools im im' /\ tokenCount im' = tokenCount im /\ tokenSize im' = tokenSize im /\
    (forall t, t < k -> tokenStart im' t = tokenStart im t) /\
    (forall t, k <= t < k + Z.of_nat n -> present typesPresent t = true ->
       tokenSize im t * tokenCount im t <= Z.of_nat (length (tokenStart im' t)))).
Proof.
  revert k im index size. induction n as [| n IH]; intros k im index size Hk Hs H32 Hc Hsize.
  { rewrite seqZ_nil by lia. apply total_ret. intros ? [= <-]. split; [done |].
    split_and!; auto; intros; lia. }
  rewrite seqZ_cons by lia. replace (Z.pred (Z.of_nat (Datatypes.S n))) with (Z.of_nat n) by lia.
  cbn [read_starts]. apply total_if; intros Hp.
  - pose proof (Hsize k ltac:(lia) Hp) as Hk0. rewrite (proj2 (Z.eqb_neq _ _)) by lia.
    apply total_if; intros Hlen; [by apply total_ret |]. apply Z.ltb_ge in Hlen. cbv zeta.
    pose proof (Hc k) as Hck.
    assert (tokenSize im k * tokenCount im k <= size) as Hfit.
    { pose proof (Z.mul_div_le size (tokenSize im k)). nia. }
    assert (0 <= tokenSize im k * tokenCount im k) by nia.
    rewrite (ulong_small (_ * _)), ulong_small by lia.
    eapply total_mono; [apply (IH (Z.succ k)) |].
    + lia.
    + rewrite length_drop. lia.
    + lia.
    + exact Hc.
    + intros t Ht. apply Hsize. lia.
    + intros r Hr im' E. destruct (Hr _ E) as (Hsame & Hcount & Hsz & Hlow & Hhigh).
      cbn in Hcount, Hsz, Hlow, Hhigh. unfold array_set in Hlow.
      split_and!; [exact Hsame | done | done | |].
      * intros t Ht. rewrite Hlow by lia. by rewrite (proj2 (Z.eqb_neq _ _)) by lia.
      * intros t Ht Hpt. destruct (decide (t = k)) as [-> |]; [| apply Hhigh; (done || lia)].
        rewrite Hlow, Z.eqb_refl by lia. lia.
  - eapply total_mono; [apply (IH (Z.succ k)); (done || lia || (intros; apply Hsize; (done || lia))) |].
    intros r Hr im' E. destruct (Hr _ E) as (Hsame & Hcount & Hsz & Hlow & Hhigh).
    split_and!; [done | done | done | intros; apply Hlow; lia |].
    intros t Ht Hpt. destruct (decide (t = k)) as [-> |]; [congruence | apply Hhigh; (done || lia)].
Qed.
End load.

(** ** The tables *)

Section tables.
Context `{Host} {S : Type}.

(** The tables of an image whose references have these sizes. *)
Definition tables_ok (strRefSize blobRefSize guidRefSize : Z) (im : ILImage) : Prop :=
  forall type, 0 <= type < 64 -> 0 < tokenCount im type ->
    size_ok strRefSize blobRefSize guidRefSize im type /\
    tokenSize im type * tokenCount im type <= Z.of_nat (length (tokenStart im type)).

Definition row_result (im : ILImage) (desc : option (list field_type)) (r : parsed) : Prop :=
  match r with inl e => e <> 0 | inr vs => exists d, desc = Some d /\ row_values im d vs end.

(** The conditions that unpacking a row needs. *)
Record image_ok (strRefSize blobRefSize guidRefSize : Z) (im : ILImage) : Prop := {
  ok_counts : counts_ok im;
  ok_pools : pools_ok im;
  ok_section : section_ok im;
  ok_tables : tables_ok strRefSize blobRefSize guidRefSize im;
  ok_str : strRefSize = 2 \/ strRefSize = 4;
  ok_blob : blobRefSize = 2 \/ blobRefSize = 4;
  ok_guid : guidRefSize = 2 \/ guidRefSize = 4
}.

Lemma parse_row_total a b c im type token :
  image_ok a b c im -> 0 <= type < 64 -> 0 <= token < tokenCount im type ->
  total (S := S) (desc ← array_get "FieldDescriptions" FieldDescriptions type;
                  r ← ParseToken im a b c desc (row_at im type token); mret (desc, r))
    (fun r => row_result im r.1 r.2).
Proof.
  intros [Hc Hp Hs Ht Ha Hb Hg] Htype Htoken.
  destruct (Ht type) as ((desc & Hdesc & Hsize) & Hlen); [done | lia |]. pose proof (Hc type) as Hct.
  eapply total_bind.
  { unfold array_get. rewrite (proj2 (Z.leb_le _ _)), Hdesc by lia. by apply (total_ret _ (fun d => d = Some desc)). }
  intros ? ->. cbn [ParseToken].
  pose proof (description_ok _ _ Hdesc) as Hd. pose proof (token_size_fits a b c Ha Hb Hg im desc Hd) as Hf.
  eapply total_bind.
  { apply (parse_fields_total im a b c Hc Hp Hs Ha Hb Hg); [by apply desc_fields_ok |].
    unfold row_at. rewrite <- Hsize in *.
    assert (token * tokenSize im type + tokenSize im type <= tokenSize im type * tokenCount im type) by nia.
    rewrite ulong_small, length_drop by nia. lia. }
  intros [e | vs] Hr; apply total_ret; [done | by exists desc].
Qed.

(** The same row, in one state. *)
Lemma parse_row_run a b c im type token s :
  image_ok a b c im -> 0 <= type < 64 -> 0 <= token < tokenCount im type ->
  exists desc r, array_get "FieldDescriptions" FieldDescriptions type s = Done desc s /\
    ParseToken (S := S) im a b c desc (row_at im type token) s = Done r s /\ row_result im desc r.
Proof.
  intros Hok Ht Hn. destruct (parse_row_total a b c im type token Hok Ht Hn s) as ([desc r] & E & Hr).
  unfold array_get, mbind, comp_bind in *. destruct (if 0 <=? type then _ else _) as [desc0 |]; [| done].
  cbn [mret comp_ret] in *. destruct (ParseToken _ _ _ _ _ _ s) as [r0 s0 |] eqn:E0; [| done].
  injection E as -> -> ->. by exists desc, r.
Qed.

(** The rows of a table that have been checked. *)
Definition rows_valid (a b c : Z) (im : ILImage) (type lo hi : Z) (s : S) : Prop :=
  forall token, lo <= token < hi -> exists desc vs,
    array_get "FieldDescriptions" FieldDescriptions type s = Done desc s /\
    ParseToken im a b c desc (row_at im type token) s = Done (inr vs) s.

Lemma validate_rows_run a b c im type n token err s :
  image_ok a b c im -> 0 <= type < 64 -> 0 <= token -> token + Z.of_nat n = tokenCount im type ->
  exists e, validate_rows (S := S) im a b c type n token err s = Done e s /\
    (e = 0 -> err = 0 /\ rows_valid a b c im type token (tokenCount im type) s).
Proof.
  intros Hok Ht. revert token err. induction n as [| n IH]; intros token err H0 Hn.
  { exists err. split; [done |]. intros ->. split; [done |]. intros t; lia. }
  destruct (parse_row_run a b c im type token s Hok Ht) as (desc & r & Edesc & Er & Hr); [lia |].
  set (e1 := if negb (err =? 0) then err else match r with inl e => e | inr _ => 0 end).
  destruct (IH (token + 1) e1) as (e & E & He); [lia | lia |].
  exists e. split.
  { cbn [validate_rows]. eapply bind_run; [exact Edesc |]. eapply bind_run; [exact Er |]. exact E. }
  intros Hz. destruct (He Hz) as [H1 Hrows]. subst e1.
  destruct (Z.eqb_spec err 0) as [-> |]; cbn [negb] in H1; [| done].
  split; [done |]. intros t Hlt. destruct (decide (t = token)) as [-> |]; [| apply Hrows; lia].
  destruct r as [e' | vs]; [done |]. by exists desc, vs.
Qed.

Lemma validate_types_run a b c im types err s :
  image_ok a b c im -> Forall (fun t => 0 <= t < 64) types ->
  exists e, validate_types (S := S) im a b c types err s = Done e s /\
    (e = 0 -> err = 0 /\ Forall (fun type => rows_valid a b c im type 0 (tokenCount im type) s) types).
Proof.
  intros Hok Htypes. revert err. induction Htypes as [| type types Ht Htypes IH]; intros err.
  { exists err. by split. }
  pose proof (ok_counts _ _ _ _ Hok type).
  destruct (validate_rows_run a b c im type (Z.to_nat (tokenCount im type)) 0 err s Hok Ht)
    as (e1 & E1 & H1); [lia | lia |].
  destruct (IH e1) as (e & E & He). exists e. split; [cbn [validate_types]; by eapply bind_run |].
  intros H2. destruct (He H2) as [H3 Hall]. destruct (H1 H3) as [-> Hrows]. by repeat constructor.
Qed.

(** No counts, no tables. *)
Definition fresh_image (im : ILImage) : Prop := forall type, tokenCount im type = 0.

Definition ref_size (big : bool) : Z := if big then 4 else 2.
Definition loaded_ok (im : ILImage) : Prop :=
  image_ok (ref_size (strRefBig im)) (ref_size (blobRefBig im)) (ref_size (guidRefBig im)) im.
(** All rows are valid. *)
Definition all_valid (im : ILImage) (s : S) : Prop :=
  forall type, 0 <= type < 64 ->
  rows_valid (ref_size (strRefBig im)) (ref_size (blobRefBig im)) (ref_size (guidRefBig im)) im type 0
    (tokenCount im type) s.

Definition prevalidate (loadFlags : Z) : bool := negb (Z.land loadFlags IL_LOADFLAG_PRE_VALIDATE =? 0).

(** In one state. *)
Definition total_at {A} (s : S) (m : comp S A) (Q : A -> Prop) : Prop := exists a, m s = Done a s /\ Q a.
Lemma total_at_ret {A} s (a : A) (Q : A -> Prop) : Q a -> total_at s (mret a) Q.
Proof. by exists a. Qed.
Lemma total_at_bind {A B} s (m : comp S A) (f : A -> comp S B) P Q :
  total_at s m P -> (forall a, P a -> total_at s (f a) Q) -> total_at s (m ≫= f) Q.
Proof.
  intros (a & Ea & Ha) Hf. destruct (Hf a Ha) as (b & Eb & Hb). exists b. split; [by eapply bind_run | done].
Qed.
Lemma total_at_if {A} s (b : bool) (m n : comp S A) Q :
  (b = true -> total_at s m Q) -> (b = false -> total_at s n Q) -> total_at s (if b then m else n) Q.
Proof. destruct b; auto. Qed.

Lemma within_length sec (stream : list Z) :
  Z.of_nat (length (default [] sec)) < 2 ^ 32 -> within sec stream -> Z.of_nat (length stream) < 2 ^ 32.
Proof. intros Hl (bytes & pre & post & -> & -> & _). cbn in Hl. rewrite !length_app in Hl. lia. Qed.

(** What the index promises when it has been accepted. *)
Definition index_result (im : ILImage) (loadFlags : Z) (s : S) (r : Z + ILImage) : Prop :=
  match r with
  | inl _ => True
  | inr im' => same_pools im im' /\ loaded_ok im' /\ (prevalidate loadFlags = true -> all_valid im' s)
  end.

(** The last part: the tables have been found. *)
Lemma finish_index a b c im0 im loadFlags s :
  image_ok a b c im -> same_pools im0 im ->
  total_at s
    (err ← (if prevalidate loadFlags then validate_types im a b c all_types 0 else mret 0);
     if negb (err =? 0) then mret (inl err)
     else mret (inr (set_ref_sizes im (a =? 4) (b =? 4) (c =? 4))))
    (index_result im0 loadFlags s).
Proof.
  intros Hok Hsame.
  assert (Forall (fun t => 0 <= t < 64) all_types) as Hall.
  { apply Forall_forall. intros t Ht%elem_of_seqZ. lia. }
  apply total_at_bind with (P := fun e => e = 0 -> prevalidate loadFlags = true ->
    Forall (fun type => rows_valid a b c im type 0 (tokenCount im type) s) all_types).
  { apply total_at_if; intros Hp; [| apply total_at_ret; intros _ ?; congruence].
    destruct (validate_types_run a b c im all_types 0 s Hok Hall) as (e & E & He).
    exists e. split; [done |]. intros Hz _. by apply He. }
  intros e He. apply total_at_if; intros Hz; apply total_at_ret; [done |].
  apply negb_false_iff, Z.eqb_eq in Hz.
  pose proof (ok_str _ _ _ _ Hok) as Ha. pose proof (ok_blob _ _ _ _ Hok) as Hb. pose proof (ok_guid _ _ _ _ Hok) as Hg.
  assert (forall x, x = 2 \/ x = 4 -> ref_size (x =? 4) = x) as Hx by (intros ? [-> | ->]; done).
  split; [exact Hsame |]. unfold loaded_ok, all_valid. cbn [strRefBig blobRefBig guidRefBig set_ref_sizes].
  rewrite !Hx by done. split; [by destruct Hok |].
  intros Hp type Ht. specialize (He Hz Hp). rewrite Forall_forall in He.
  apply (He type), elem_of_seqZ. lia.
Qed.

(** From the counts on. *)
Lemma parse_counts_run im loadFlags a b c typesPresent index s :
  a = 2 \/ a = 4 -> b = 2 \/ b = 4 -> c = 2 \/ c = 4 ->
  pools_ok im -> section_ok im -> fresh_image im -> Z.of_nat (length index) < 2 ^ 32 ->
  total_at s
    (r ← read_counts all_types typesPresent im index (Z.of_nat (length index));
     match r with
     | inl e => mret (inl e)
     | inr (im, index, size) =>
         r ← read_sizes a b c all_types typesPresent im;
         match r with
         | inl e => mret (inl e)
         | inr (typesPresent, im) =>
             r ← read_starts all_types typesPresent im index size;
             match r with
             | inl e => mret (inl e)
             | inr im =>
                 err ← (if prevalidate loadFlags then validate_types im a b c all_types 0 else mret 0);
                 if negb (err =? 0) then mret (inl err)
                 else mret (inr (set_ref_sizes im (a =? 4) (b =? 4) (c =? 4)))
             end
         end
     end) (index_result im loadFlags s).
Proof.
  intros Ha Hb Hc Hpools Hsec Hfresh H32.
  eapply total_at_bind; [apply read_counts_total; [done | done | intros t; rewrite Hfresh; lia] |].
  intros [e | [[im1 index1] size1]] H1; [by apply total_at_ret |].
  destruct (H1 _ _ _ eq_refl) as (Hsame1 & Hc1 & Hs1 & Hb1 & Habsent). clear H1.
  eapply total_at_bind; [apply (read_sizes_total a b c Ha Hb Hc 64 0); lia |].
  intros [e | [tp2 im2]] H2; [by apply total_at_ret |].
  destruct (H2 _ _ eq_refl) as (Hsame2 & Hc2 & _ & Hsize). clear H2.
  assert (counts_ok im2) as Hcounts2.
  { intros t. destruct (Hc2 t) as [-> | [_ ->]]; [apply Hc1 | lia]. }
  assert (forall t, 0 <= t < 64 -> present tp2 t = true -> 0 < tokenSize im2 t < 256) as Hpos.
  { intros t Ht Hp. specialize (Hsize t Ht). rewrite Hp in Hsize. destruct Hsize as (d & Hd & ->).
    apply token_size_fits; try done. by eapply description_ok. }
  eapply total_at_bind; [apply (read_starts_total 64 0); (done || lia) |].
  intros [e | im3] H3; [by apply total_at_ret |].
  destruct (H3 _ eq_refl) as (Hsame3 & Hc3 & Hs3 & _ & Hstart). clear H3.
  apply finish_index; [| by etrans; [| etrans]].
  destruct (same_pools_ok im im3) as [Hp3 Hsec3]; [by etrans; [| etrans] | done | done |].
  constructor; try done.
  - intros t. rewrite Hc3. apply Hcounts2.
  - intros t Ht Hn. rewrite Hc3 in Hn. specialize (Hsize t Ht).
    destruct (present tp2 t) eqn:Hp.
    + destruct Hsize as (d & Hd & Hsz). split; [exists d; split; [done |] |].
      * rewrite Hs3, Hsz. symmetry. apply fields_size_agree; [by intros ? _; rewrite Hc3 |].
        by eapply desc_fields_ok, description_ok.
      * rewrite Hs3, Hc3. by apply Hstart.
    + destruct Hsize as [[Hp1 Hct] | ?]; [| lia].
      destruct (present typesPresent t) eqn:?; [done |]. rewrite Hct, Habsent, Hfresh in Hn by done. lia.
Qed.

Lemma parse_index_run im loadFlags s :
  pools_ok im -> section_ok im -> fresh_image im ->
  total_at s (ParseMetaIndex im loadFlags) (index_result im loadFlags s).
Proof.
  intros Hpools Hsec Hfresh. unfold ParseMetaIndex.
  eapply total_at_bind; [by apply meta_entry_safe |]. intros index0 Hi0.
  apply total_at_bind with (P := fun r => forall index, r = Some index -> within (section im) index).
  { destruct index0; [by apply total_at_ret | by apply meta_entry_safe]. }
  intros [index |] Hi; [| by apply total_at_ret].
  pose proof (within_length _ _ Hsec (Hi _ eq_refl)) as H32. cbv zeta.
  apply total_at_if; intros H24; [by apply total_at_ret |]. apply Z.ltb_ge in H24.
  destruct (byte_at_in_range index 6) as [sizeBits Eb]; [lia |].
  eapply total_at_bind; [by apply (total_lift_eq _ _ sizeBits) |]. intros ? _.
  destruct (read64_total index 8) as [typesPresent Ep]; [lia | lia |].
  eapply total_at_bind; [by apply (total_lift_eq _ _ typesPresent) |]. intros ? _.
  destruct (read64_total index 16) as [sortedTables Es]; [lia | lia |].
  eapply total_at_bind; [by apply (total_lift_eq _ _ sortedTables) |]. intros sorted' _.
  rewrite ulong_small by lia.
  replace (Z.of_nat (length index) - 24) with (Z.of_nat (length (drop 24 index))) by (rewrite length_drop; lia).
  apply (parse_counts_run (set_counts im (tokenCount im) sorted')); try done;
    try (case_match; (by left) || (by right)). rewrite length_drop. lia.
Qed.

Lemma within_bytes sec stream : Forall is_byte (default [] sec) -> within sec stream -> Forall is_byte stream.
Proof. intros Hb (bytes & pre & post & -> & -> & _). cbn in Hb. rewrite !Forall_app in Hb. by destruct Hb as (_ & ? & _). Qed.

Definition row_safe (im : ILImage) (token : Z) (row : option (list Z)) : Prop :=
  forall values, row = Some values ->
    valid_token im token = true /\ Z.of_nat (length values) <= IL_IMAGE_TOKEN_COLUMNS /\
    exists desc, FieldDescriptions !! Z.to_nat (tokenType token) = Some (Some desc) /\ row_values im desc values.

Lemma raw_token_run im loadFlags token s :
  loaded_ok im -> (prevalidate loadFlags = true -> all_valid im s) -> 0 <= token ->
  total_at s (_ILImageRawTokenData im token) (fun row =>
    (prevalidate loadFlags = true -> valid_token im token = true -> is_Some row) /\ row_safe im token row).
Proof.
  intros Hok Hall H0. unfold _ILImageRawTokenData.
  apply total_at_if; intros Hv; [| apply total_at_ret; split; [congruence | done]].
  assert (0 <= tokenType token < 64 /\ 0 <= tokenId token - 1 < tokenCount im (tokenType token)) as [Ht Hi].
  { unfold valid_token in Hv. rewrite !andb_true_iff, Z.ltb_lt, !Z.leb_le in Hv. split; [| lia].
    unfold tokenType. rewrite Z.shiftr_div_pow2 by lia. lia. }
  fold (ref_size (strRefBig im)) (ref_size (blobRefBig im)) (ref_size (guidRefBig im)).
  destruct (parse_row_run _ _ _ im _ (tokenId token - 1) s Hok Ht Hi) as (desc & r & Ed & Er & Hr).
  apply total_at_bind with (P := fun d => d = desc); [by exists desc |]. intros ? ->.
  apply total_at_bind with (P := fun x => x = r); [by exists r |]. intros ? ->.
  apply total_at_ret. split.
  - intros Hp _. destruct (Hall Hp _ Ht (tokenId token - 1)) as (desc' & vs & Ed' & Er'); [done |].
    rewrite Ed in Ed'. injection Ed' as <-. rewrite Er in Er'. injection Er' as ->. done.
  - destruct r as [e | vs]; [done |]. intros ? [= <-]. destruct Hr as (d & -> & Hrow).
    assert (FieldDescriptions !! Z.to_nat (tokenType token) = Some (Some d)) as Hd.
    { unfold array_get in Ed. rewrite (proj2 (Z.leb_le _ _)) in Ed by lia.
      destruct (FieldDescriptions !! _) as [d' |]; [| done]. by injection Ed as ->. }
    split; [done |]. split; [| by exists d].
    rewrite (row_length im d vs) by (try done; by eapply desc_fields_ok, description_ok).
    by eapply description_width.
Qed.

(** C14: whatever the bytes of the metadata are, loading them and then unpacking the
    row of any token comes to an end without an access outside the streams.  The
    values of a row that is accepted are at most sixteen and in range: strings, blobs
    and GUIDs lie in their pools, and references are tokens of the table that the
    field names.  If the rows were validated when the image was loaded, unpacking
    the row of a valid token succeeds. *)
Theorem token_tables_safe (build : ILImage -> comp S Z) im flags s :
  Z.of_nat (length (default [] (section im))) < 2 ^ 32 -> Forall is_byte (default [] (section im)) ->
  fresh_image im -> (forall im', total (build im') (fun _ => True)) ->
  total_at s (_ILImageParseMeta build im flags) (fun r => forall im', r = inr im' ->
    forall token, 0 <= token ->
    total_at s (_ILImageRawTokenData im' token) (fun row =>
      (prevalidate flags = true -> valid_token im' token = true -> is_Some row) /\
      forall values, row = Some values ->
        valid_token im' token = true /\ Z.of_nat (length values) <= IL_IMAGE_TOKEN_COLUMNS /\
        exists desc, FieldDescriptions !! Z.to_nat (tokenType token) = Some (Some desc) /\
                     row_values im' desc values)).
Proof.
  intros Hlen Hbytes Hfresh Hbuild. unfold _ILImageParseMeta.
  eapply total_at_bind; [by apply meta_entry_safe |]. intros strings Hs. cbv zeta.
  apply total_at_bind with (P := fun _ => True).
  { apply total_at_if; intros Hz; [| by apply total_at_ret]. apply Z.ltb_lt in Hz.
    destruct (byte_at_in_range (default [] strings) (Z.of_nat (length (default [] strings)) - 1))
      as [last ->]; [lia |]. by apply total_at_ret. }
  intros last _. apply total_at_if; intros _; [by apply total_at_ret |].
  eapply total_at_bind; [by apply meta_entry_safe |]. intros blobs Hb.
  eapply total_at_bind; [by apply meta_entry_safe |]. intros userStrings Hu.
  eapply total_at_bind.
  { apply parse_index_run; [| done | done]. split; [done |]. cbn. destruct blobs as [blobs |]; [| by split].
    specialize (Hb _ eq_refl). split; [by eapply within_bytes | by eapply within_length]. }
  intros [e | im'] Hr; [by apply total_at_ret |]. destruct Hr as (Hsame & Hok & Hvalid).
  eapply total_at_bind; [by apply Hbuild |]. intros err _.
  apply total_at_if; intros _; apply total_at_ret; [done |]. intros ? [= <-] token H0.
  by apply raw_token_run.
Qed.
End tables.

(** ** An example *)

(** A module, a class and its field. *)
Definition sample_index : list Z :=
  [0; 0; 0; 0; 1; 0; 0; 0] ++ le_bytes 8 0x15 ++ le_bytes 8 0
  ++ le_bytes 4 1 ++ le_bytes 4 1 ++ le_bytes 4 1
  ++ [0; 0; 1; 0; 0; 0; 0; 0; 0; 0] ++ [1; 0; 0; 0; 3; 0; 0; 0; 0; 0; 1; 0; 1; 0] ++ [6; 0; 3; 0; 1; 0].
Definition sample_metadata : list Z :=
  section_bytes (name_bytes "v1") 0 0
    [mkEntry 72 66 (name_bytes "#~"); mkEntry 138 5 (name_bytes "#Strings"); mkEntry 143 4 (name_bytes "#Blob")]
    (sample_index ++ [0; 77; 0; 67; 0] ++ [0; 2; 6; 8]).
Definition sample_metadata_image : ILImage :=
  mkImage (Some sample_metadata) false false false false 0 [] 0 0 (fun _ => 0) (fun _ => 0) (fun _ => [])
    (fun _ => None) 0.

Lemma token_tables_safe_witness :
  (exists im', @_ILImageParseMeta LP64 unit (fun _ => mret 0) sample_metadata_image IL_LOADFLAG_PRE_VALIDATE tt
                 = Done (inr im') tt /\
     @_ILImageRawTokenData LP64 unit im' 0x02000001 tt = Done (Some [1; 3; 0; 0; 0x04000001; 0]) tt /\
     @_ILImageRawTokenData LP64 unit im' 0x04000001 tt = Done (Some [6; 3; 1; 2; 2]) tt) /\
  total_at tt (@_ILImageParseMeta LP64 unit (fun _ => mret 0) sample_metadata_image IL_LOADFLAG_PRE_VALIDATE)
    (fun r => forall im', r = inr im' -> forall token, 0 <= token ->
    total_at tt (@_ILImageRawTokenData LP64 unit im' token) (fun row =>
      (prevalidate IL_LOADFLAG_PRE_VALIDATE = true -> valid_token im' token = true -> is_Some row) /\
      forall values, row = Some values ->
        valid_token im' token = true /\ Z.of_nat (length values) <= IL_IMAGE_TOKEN_COLUMNS /\
        exists desc, FieldDescriptions !! Z.to_nat (tokenType token) = Some (Some desc) /\
                     row_values im' desc values)).
Proof.
  split; [eexists; split; [vm_compute; reflexivity | by vm_compute] |].
  apply (@token_tables_safe LP64 unit (fun _ => mret 0) sample_metadata_image IL_LOADFLAG_PRE_VALIDATE tt).
  - by vm_compute.
  - unfold is_byte. apply (bool_decide_unpack _). vm_compute. exact I.
  - intros type. reflexivity.
  - intros im' s. by exists 0.
Defined.
