(* ===== verification/MetaIndexRows.v ===== *)
(** * MetaIndexRows: rows that are written can be read

    The round trip of one row of a metadata table: what [_ILImageRawTokenEncode]
    packs, [ParseToken] unpacks to the same values. *)
From S2P Require Import Prelude Values ILMeta MetaCompress MetaHeader MetaIndex MetaIndexSafe.

(** ** Indices *)

Lemma write16_bytes v : WRITE16 v = le_bytes 2 v.
Proof. unfold WRITE16, uchar, to_unsigned. cbn [le_bytes]. by rewrite Z.shiftr_div_pow2 by lia. Qed.
Lemma write32_bytes v : WRITE32 v = le_bytes 4 v.
Proof.
  unfold WRITE32, uchar, to_unsigned. cbn [le_bytes]. rewrite !Z.shiftr_div_pow2, !Z.div_div by lia. done.
Qed.

Definition index_bytes (big : bool) : nat := if big then 4 else 2.
Lemma write_index_bytes big v : write_index big v = le_bytes (index_bytes big) v.
Proof. destruct big; [apply write32_bytes | apply write16_bytes]. Qed.
Lemma length_write_index big v : length (write_index big v) = index_bytes big.
Proof. rewrite write_index_bytes. apply length_le_bytes. Qed.

(** The value fits an index of this width. *)
Definition index_fits (big : bool) (v : Z) : Prop := 0 <= v < (if big then 2 ^ 32 else 2 ^ 16).

Lemma read_index_written {S} (big : bool) v w rest :
  v mod (if big then 2 ^ 32 else 2 ^ 16) = w -> Forall is_byte rest ->
  gives (S := S) (read_index big (write_index big v ++ rest)) (w, rest).
Proof.
  intros <- Hr. rewrite write_index_bytes. unfold read_index. destruct big; cbn [index_bytes].
  - eapply gives_bind; [by apply gives_lift, read32_head |]. apply gives_ret.
  - eapply gives_bind; [by apply gives_lift, read16_head |]. apply gives_ret.
Qed.

Lemma index_fits_mod big v : index_fits big v -> v mod (if big then 2 ^ 32 else 2 ^ 16) = v.
Proof. intros Hv. by apply Z.mod_small. Qed.

(** ** The values of one field *)

Section rows.
Context `{Host} {S : Type} (im : ILImage).
Context (Hcounts : counts_ok im) (Hpools : pools_ok im) (Hsection : section_ok im).

Definition str_size : Z := ref_size (strRefBig im).
Definition blob_size : Z := ref_size (blobRefBig im).
Definition guid_size : Z := ref_size (guidRefBig im).

(** A blob of the pool: its length, compressed, and its bytes. *)
Definition blob_at (i pos len : Z) : Prop :=
  (i = 0 /\ pos = 0 /\ len = 0) \/
  exists pre bytes post,
    blobPool im = pre ++ ILMetaCompressData len ++ bytes ++ post /\ 0 < i /\
    i = Z.of_nat (length pre) /\ pos = Z.of_nat (length (pre ++ ILMetaCompressData len)) /\
    len = Z.of_nat (length bytes).

(** What a writer may put in a field that names the first row of a list: a row, or the
    one behind the last, which is read as 0. *)
Definition list_written (token v w : Z) : Prop :=
  exists rid, v = Z.lor token rid /\ 0 < rid <= count im token + 1 /\ count im token <= 0xFFFE /\
    w = if rid <=? count im token then v else 0.

(** The values [us] that a field is written with, and those [vs] it is read with. *)
Definition field_written (type : field_type) (us vs : list Z) : Prop :=
  match type with
  | STRREF_FIELD => exists v, us = [v] /\ vs = us /\ 0 <= v < stringPoolSize im /\ index_fits (strRefBig im) v
  | BLOBREF_FIELD =>
      exists i x y pos len, us = [i; x; y] /\ vs = [i; pos; len] /\ blob_at i pos len /\
        index_fits (blobRefBig im) i
  | GUIDREF_FIELD =>
      exists v, us = [v] /\ vs = us /\
        (v = IL_MAX_UINT32 \/
         exists guids, gives (S := S) (ILImageGetMetaEntry (section im) "#GUID") (Some guids) /\
           0 <= v /\ v mod 16 = 0 /\ v + 16 <= Z.of_nat (length guids) /\ v < 0x10000000 /\
           Z.of_nat (length guids) < 2 ^ 32 /\ index_fits (guidRefBig im) (v / 16 + 1))
  | UINT16_FIELD => exists v, us = [v] /\ vs = us /\ 0 <= v < 2 ^ 16
  | UINT32_FIELD => exists v, us = [v] /\ vs = us /\ 0 <= v < 2 ^ 32
  | FIELD_FIELD => exists v w, us = [v] /\ vs = [w] /\ list_written IL_META_TOKEN_FIELD_DEF v w
  | METHOD_FIELD => exists v w, us = [v] /\ vs = [w] /\ list_written IL_META_TOKEN_METHOD_DEF v w
  | PARAM_FIELD => exists v w, us = [v] /\ vs = [w] /\ list_written IL_META_TOKEN_PARAM_DEF v w
  | OPTGEN_FIELD => us = [] /\ vs = []
  | TKREF_FIELD token =>
      exists rid, us = [Z.lor token rid] /\ vs = us /\ 0 < rid <= count im token /\ count im token <= 0xFFFF
  | Mixed _ types =>
      exists v, us = [v] /\ vs = us /\
        (v = 0 \/ (v = IL_META_TOKEN_STRING /\ 2 ∈ types) \/
         exists code rid, v = Z.lor code rid /\ code ∈ types /\ kind_ok code = true /\ code <> 1 /\ code <> 2 /\
                     0 < rid <= count im code)
  end.

(** The rows of a table. *)
Inductive row_written : list field_type -> list Z -> list Z -> Prop :=
| written_nil : row_written [] [] []
| written_cons type desc us vs us' vs' :
    field_written type us us' -> row_written desc vs vs' ->
    row_written (type :: desc) (us ++ vs) (us' ++ vs').

(** *** References into several tables *)

Lemma mask_bit i : 0 <= i -> Z.testbit IL_META_TOKEN_MASK i = (24 <=? i) && (i <? 32).
Proof.
  intros Hi. change IL_META_TOKEN_MASK with (Z.shiftl (Z.ones 8) 24). rewrite Z.shiftl_spec by done.
  destruct (Z.leb_spec 24 i); cbn [andb].
  - rewrite Z.testbit_ones by lia. destruct (Z.leb_spec 0 (i - 24)); [| lia]. cbn [andb].
    destruct (Z.ltb_spec (i - 24) 8), (Z.ltb_spec i 32); (done || lia).
  - apply Z.testbit_neg_r. lia.
Qed.

Lemma small_high_bit x n i : 0 <= x < 2 ^ n -> 0 <= n <= i -> Z.testbit x i = false.
Proof. intros Hx Hi. rewrite <- (Z.mod_small x (2 ^ n)) by done. by apply Z.mod_pow2_bits_high. Qed.

Lemma ldiff_mask code rid :
  kind_ok code = true -> 0 <= rid < 2 ^ 24 -> Z.ldiff (Z.lor code rid) IL_META_TOKEN_MASK = rid.
Proof.
  intros Hk Hr. pose proof (kind_masked code Hk) as Hm. change 0xFF000000 with IL_META_TOKEN_MASK in Hm.
  apply Z.bits_inj'. intros i Hi. rewrite Z.ldiff_spec, Z.lor_spec, <- Hm, Z.land_spec, mask_bit by done.
  destruct (Z.leb_spec 24 i); cbn [andb negb orb].
  - rewrite (small_high_bit rid 24) by lia. destruct (i <? 32); cbn; by rewrite ?andb_false_r, ?andb_true_r, ?orb_false_r.
  - by rewrite andb_false_r, andb_true_r.
Qed.

Lemma land_mask code rid :
  kind_ok code = true -> 0 <= rid < 2 ^ 24 -> Z.land (Z.lor code rid) IL_META_TOKEN_MASK = code.
Proof.
  intros Hk Hr. rewrite Z.land_lor_distr_l. rewrite (kind_masked code Hk : Z.land code IL_META_TOKEN_MASK = code).
  assert (Z.land rid IL_META_TOKEN_MASK = 0) as ->; [| apply Z.lor_0_r].
  apply Z.bits_inj'. intros i Hi. rewrite Z.land_spec, mask_bit, Z.testbit_0_l by done.
  destruct (Z.leb_spec 24 i); cbn [andb]; [| apply andb_false_r]. by rewrite (small_high_bit rid 24) by lia.
Qed.

(** The table of the code that is chosen. *)
Definition hit (kind temp : Z) : bool := (temp =? kind) || (temp =? 2) && (kind =? IL_META_TOKEN_STRING).

Lemma mixed_code_spec types value val val2 :
  let kind := Z.land value IL_META_TOKEN_MASK in
  (existsb (hit kind) types = false /\ mixed_code types value val val2 = val) \/
  exists i t, types !! i = Some t /\ hit kind t = true /\ mixed_code types value val val2 = val2 + Z.of_nat i.
Proof.
  cbv zeta. set (kind := Z.land value _). revert val val2.
  induction types as [| t types IH]; intros val val2; [by left |].
  cbn [mixed_code existsb]. cbv zeta. fold kind.
  assert ((if (t =? 2) && (kind =? IL_META_TOKEN_STRING) then val2 else if t =? kind then val2 else val)
          = if hit kind t then val2 else val) as ->.
  { unfold hit. by destruct (t =? kind), ((t =? 2) && _). }
  destruct (IH (if hit kind t then val2 else val) (val2 + 1)) as [[Ha ->] | (i & t' & Hi & Ht & ->)].
  - rewrite Ha, orb_false_r. destruct (hit kind t) eqn:Ht; [right | by left]. exists O, t. split; [done |]. split; [done | lia].
  - right. exists (Datatypes.S i), t'. split; [done |]. split; [done | lia].
Qed.

(** Codes and indices in one number. *)
Lemma mixed_parts bits j rid :
  0 <= bits -> 0 <= j < 2 ^ bits -> 0 <= rid ->
  let temp := Z.lor j (Z.shiftl rid bits) in
  Z.shiftr temp bits = rid /\ Z.land temp (Z.shiftl 1 bits - 1) = j /\ temp = rid * 2 ^ bits + j.
Proof.
  intros Hb Hj Hr temp.
  assert (temp = rid * 2 ^ bits + j) as Et.
  { subst temp. rewrite Z.lor_comm, Z.shiftl_mul_pow2 by done.
    apply (lor_disjoint bits); [done | apply Z.mod_mul; lia | done]. }
  rewrite Z.shiftr_div_pow2, Z.shiftl_1_l, Z.sub_1_r by done.
  rewrite <- Z.ones_equiv, Z.land_ones, Et by done. split_and!; [| | done].
  - rewrite Z.div_add_l, Z.div_small; lia.
  - rewrite Z.add_comm, Z.mod_add, Z.mod_small; lia.
Qed.

(** The tables of a reference have codes that fit, and the first is a table. *)
Definition mixed_ok (bits : Z) (types : list Z) : bool :=
  field_ok (Mixed bits types) && (bits <=? 5) && match types with [] => false | t :: _ => kind_ok t end.

Lemma kind_real code : kind_ok code = true -> (code =? 1) = false /\ (code =? 2) = false.
Proof.
  intros Hk. unfold kind_ok, tokenType in Hk. rewrite !andb_true_iff, Z.eqb_eq in Hk.
  destruct Hk as [[Hk _] _]. split; apply Z.eqb_neq; intros ->; discriminate Hk.
Qed.

Definition read_mixed (bits : Z) (types : list Z) (value : Z) : Z :=
  Z.lor (mixed_code types value 0 0) (uint32 (Z.shiftl (Z.ldiff value IL_META_TOKEN_MASK) bits)).

Lemma mixed_roundtrip bits types value code rid :
  mixed_ok bits types = true -> 0 <= rid < 2 ^ 24 -> Z.ldiff value IL_META_TOKEN_MASK = rid ->
  code ∈ types -> (forall t, t ∈ types -> hit (Z.land value IL_META_TOKEN_MASK) t = true -> t = code) ->
  hit (Z.land value IL_META_TOKEN_MASK) code = true \/ (code = List.hd 0 types /\ existsb (hit (Z.land value IL_META_TOKEN_MASK)) types = false) ->
  exists j, 0 <= j < 2 ^ bits /\ types !! Z.to_nat j = Some code /\
    read_mixed bits types value = Z.lor j (Z.shiftl rid bits).
Proof.
  intros Hok Hr Hv Hin Huniq Hhit. unfold mixed_ok in Hok. rewrite !andb_true_iff in Hok.
  destruct Hok as [[Hf H5] Hhd]. apply Z.leb_le in H5. cbn [field_ok] in Hf.
  rewrite !andb_true_iff, Z.leb_le, Z.eqb_eq in Hf. destruct Hf as [[Hb Hlen] _].
  unfold read_mixed. rewrite Hv. assert (2 ^ bits <= 2 ^ 5) by (by apply Z.pow_le_mono_r).
  unfold uint32. rewrite to_unsigned_small by (rewrite Z.shiftl_mul_pow2 by done; nia).
  destruct (mixed_code_spec types value 0 0) as [[Hnone ->] | (i & t & Hi & Ht & ->)].
  - destruct Hhit as [Hhit | [-> _]].
    { assert (existsb (hit (Z.land value IL_META_TOKEN_MASK)) types = true) as Hyes; [| congruence].
      apply existsb_exists. exists code. split; [by apply list_elem_of_In | done]. }
    exists 0. destruct types as [| t types]; [done |]. split; [| done].
    split; [lia |]. apply Z.pow_pos_nonneg; lia.
  - exists (Z.of_nat i). rewrite Nat2Z.id. pose proof (lookup_lt_Some _ _ _ Hi).
    rewrite Hi. rewrite (Huniq t) by (by try eapply list_elem_of_lookup_2). split; [lia |]. done.
Qed.

(** *** One field *)

Lemma ref_size_big (big : bool) : negb (ref_size big =? 2) = big.
Proof. by destruct big. Qed.
Lemma index_bytes_size (big : bool) : Z.of_nat (index_bytes big) = ref_size big.
Proof. by destruct big. Qed.

Lemma value_at {A} what (pre : list A) v post :
  gives (S := S) (array_get what (pre ++ v :: post) (Z.of_nat (length pre))) v.
Proof.
  intros s. unfold array_get. rewrite (proj2 (Z.leb_le _ _)), Nat2Z.id, list_lookup_middle by (done || lia). done.
Qed.

(** An index that is written, read, and checked. *)
Lemma index_roundtrip (big : bool) v w rest (check : Z -> comp S parsed) vs :
  v mod (if big then 2 ^ 32 else 2 ^ 16) = w -> Forall is_byte rest -> gives (check w) (inr vs) ->
  gives ('(temp, ptr) ← read_index big (write_index big v ++ rest); r ← check temp; mret (r, ptr)) (inr vs, rest).
Proof.
  intros Hv Hr Hc. eapply gives_bind; [by apply read_index_written |]. cbv beta iota.
  eapply gives_bind; [exact Hc | apply gives_ret].
Qed.

Lemma parse_blob_written i pos len :
  blob_at i pos len -> 0 <= i -> gives (S := S) (parse_blob im i) (inr [i; pos; len]).
Proof.
  intros Hat H0. destruct Hpools as (Hs & Hb & H32). unfold parse_blob.
  destruct Hat as [(-> & -> & ->) | (pre & bytes & post & Epool & Hi & Ei & Epos & El)].
  - apply gives_ret.
  - rewrite Epool, !length_app in Hs.
    assert (i <= blobPoolSize im - Z.of_nat (length (ILMetaCompressData len))) by lia.
    assert (0 <= len < 2 ^ 32) as Hlen by lia.
    assert (0 < length (ILMetaCompressData len))%nat by (unfold ILMetaCompressData; repeat case_match; cbn; lia).
    rewrite (proj2 (Z.leb_gt _ _)) by lia. rewrite andb_false_r, (proj2 (Z.eqb_neq _ _)) by lia.
    eapply gives_bind.
    { apply gives_lift. rewrite Epool, Ei, Nat2Z.id, drop_app_length, ulong_small by lia.
      replace (blobPoolSize im - Z.of_nat (length pre))
        with (Z.of_nat (length (ILMetaCompressData len)) + Z.of_nat (length (bytes ++ post)))
        by (rewrite length_app; lia).
      apply read_data_item; [done | lia]. }
    cbv beta iota zeta. unfold uint32. rewrite (to_unsigned_small _ len) by lia. cbn [MetaCompress.len error].
    rewrite length_app. rewrite (proj2 (Z.ltb_ge _ _)) by lia. cbn [orb].
    rewrite length_app in Epos. rewrite to_unsigned_small by lia.
    replace (blobPoolSize im - Z.of_nat (length bytes + length post)) with pos by lia. apply gives_ret.
Qed.

Lemma kind_low token : kind_ok token = true -> token mod 2 ^ 24 = 0 /\ 0 <= token < 0x2D000000.
Proof.
  unfold kind_ok. rewrite !andb_true_iff, Z.eqb_eq, Z.leb_le, Z.ltb_lt. intros [[E ?] ?]. split; [| lia].
  rewrite E, Z.shiftl_mul_pow2 by lia. apply Z.mod_mul. lia.
Qed.

Lemma parse_list_written token v w :
  kind_ok token = true -> list_written token v w ->
  gives (S := S) (parse_list im token (v mod 2 ^ 16)) (inr [w]) /\ (0xFFFE <? count im token) = false /\ 0 < v.
Proof.
  intros Hk (rid & -> & Hr & Hl & ->). pose proof (Hcounts (Z.shiftr token 24)) as Hc. fold (count im token) in Hc.
  pose proof (lor_disjoint 24 token rid) as Hlor.
  destruct (kind_low token Hk) as [Hm H0].
  rewrite Hlor by lia. clear Hlor.
  assert ((token + rid) mod 2 ^ 16 = rid) as -> by zlia.
  split; [| split; [apply Z.ltb_ge; lia | lia]]. unfold parse_list. cbv zeta.
  rewrite ulong_small by lia. unfold uint32. rewrite to_unsigned_small by lia.
  destruct (Z.eqb_spec rid (count im token + 1)) as [-> | Hne].
  - rewrite (proj2 (Z.leb_gt _ _)) by lia. apply gives_ret.
  - rewrite (proj2 (Z.ltb_lt _ _)), (proj2 (Z.leb_le _ _)) by lia. cbn [andb].
    rewrite (lor_disjoint 24) by lia. apply gives_ret.
Qed.

Lemma parse_tkref_written token rid :
  kind_ok token = true -> 0 < rid <= count im token -> count im token <= 0xFFFF ->
  gives (S := S) (parse_tkref im token (Z.lor token rid mod 2 ^ 16)) (inr [Z.lor token rid]).
Proof.
  intros Hk Hr Hl.
  destruct (kind_low token Hk) as [Hm H0]. pose proof (Hcounts (Z.shiftr token 24)) as Hc. fold (count im token) in Hc.
  assert (Z.lor token rid mod 2 ^ 16 = rid) as -> by (rewrite (lor_disjoint 24) by lia; zlia).
  unfold parse_tkref. cbv zeta. unfold uint32. rewrite to_unsigned_small by lia.
  rewrite (proj2 (Z.ltb_lt _ _)), (proj2 (Z.leb_le _ _)) by lia. cbn [andb]. rewrite kind_masked by done. apply gives_ret.
Qed.

Lemma parse_mixed_written bits types code rid j :
  0 <= bits -> 0 <= j < 2 ^ bits -> 0 <= rid -> types !! Z.to_nat j = Some code ->
  gives (S := S) (parse_mixed im bits types (Z.lor j (Z.shiftl rid bits)))
    (if (code =? 1) || (code =? 2)
     then if code =? 2 then inr [IL_META_TOKEN_STRING] else inl IL_LOADERR_BAD_META
     else if rid =? 0 then inr [0]
     else if rid <=? count im code then inr [Z.lor rid code] else inl IL_LOADERR_BAD_META).
Proof.
  intros Hb Hj Hr Hc. destruct (mixed_parts bits j rid Hb Hj Hr) as (E1 & E2 & _).
  unfold parse_mixed. cbv zeta. rewrite E1, E2. eapply gives_bind.
  { intros s. unfold array_get. rewrite (proj2 (Z.leb_le _ _)), Hc by lia. done. }
  cbv beta. destruct (code =? 1) eqn:?, (code =? 2) eqn:?; cbn [negb andb orb]; try apply gives_ret; [].
  destruct (rid =? 0); [apply gives_ret |]. destruct (rid <=? count im code); apply gives_ret.
Qed.

Definition written_ok (type : field_type) : bool :=
  match type with Mixed bits types => mixed_ok bits types | _ => field_ok type end.

Lemma written_field_ok type : written_ok type = true -> field_ok type = true.
Proof. destruct type; try done. cbn [written_ok]. unfold mixed_ok. by rewrite !andb_true_iff; intros [[? _] _]. Qed.

(** The bytes of a field, and what they are read as. *)
Definition field_roundtrip (type : field_type) (us vs : list Z) : Prop :=
  forall pre post rest, Forall is_byte rest ->
  exists bytes,
    gives (S := S) (encode_field im (pre ++ us ++ post) type (Z.of_nat (length pre)))
      (bytes, Z.of_nat (length us)) /\
    Forall is_byte bytes /\
    Z.of_nat (length bytes) = field_size im str_size blob_size guid_size type /\
    gives (S := S) (parse_row_field im str_size blob_size guid_size type (bytes ++ rest)) (inr vs, rest).

Lemma write_index_ok (big : bool) v :
  Forall is_byte (write_index big v) /\ Z.of_nat (length (write_index big v)) = ref_size big.
Proof.
  rewrite write_index_bytes, length_le_bytes. split; [apply le_bytes_byte | apply index_bytes_size].
Qed.

(** A field that is one index. *)
Lemma one_index_roundtrip type (big : bool) u v vs w (check : Z -> comp S parsed) :
  (forall pre post, gives (S := S) (encode_field im (pre ++ u :: post) type (Z.of_nat (length pre)))
     (write_index big v, 1)) ->
  ref_size big = field_size im str_size blob_size guid_size type ->
  (forall ptr, parse_row_field im str_size blob_size guid_size type ptr
     = ('(temp, ptr) ← read_index big ptr; r ← check temp; mret (r, ptr))) ->
  v mod (if big then 2 ^ 32 else 2 ^ 16) = w -> gives (check w) (inr vs) ->
  field_roundtrip type [u] vs.
Proof.
  intros Henc Hsize Hparse Hv Hcheck pre post rest Hrest. destruct (write_index_ok big v) as [Hb Hl].
  exists (write_index big v). split; [apply Henc |]. split; [done |]. split; [by rewrite Hl |].
  rewrite Hparse. by eapply index_roundtrip.
Qed.

Lemma encode_value type (f : Z -> list Z) pre u post :
  (forall values index, encode_field (S := S) im values type index
     = (val ← array_get "values" values index; mret (f val, 1))) ->
  gives (S := S) (encode_field im (pre ++ u :: post) type (Z.of_nat (length pre))) (f u, 1).
Proof. intros ->. eapply gives_bind; [apply value_at | apply gives_ret]. Qed.

Lemma str_roundtrip v :
  0 <= v < stringPoolSize im -> index_fits (strRefBig im) v -> field_roundtrip STRREF_FIELD [v] [v].
Proof.
  intros Hv Hf.
  apply (one_index_roundtrip _ (strRefBig im) v v _ v
    (fun temp => mret (if stringPoolSize im <=? temp then inl IL_LOADERR_BAD_META else inr [temp]))).
  - intros. by apply (encode_value _ (write_index (strRefBig im))).
  - done.
  - intros ptr. cbn [parse_row_field]. unfold str_size. by rewrite ref_size_big.
  - by apply index_fits_mod.
  - rewrite (proj2 (Z.leb_gt _ _)) by lia. apply gives_ret.
Qed.

Lemma blob_roundtrip i x y pos len :
  blob_at i pos len -> index_fits (blobRefBig im) i -> field_roundtrip BLOBREF_FIELD [i; x; y] [i; pos; len].
Proof.
  intros Hat Hf pre post rest Hrest. destruct (write_index_ok (blobRefBig im) i) as [Hb Hl].
  exists (write_index (blobRefBig im) i). split.
  { cbn [encode_field app]. eapply gives_bind; [apply value_at | apply gives_ret]. }
  split; [done |]. split; [done |]. cbn [parse_row_field]. unfold blob_size. rewrite ref_size_big.
  apply (index_roundtrip _ i i); [by apply index_fits_mod | done |]. apply parse_blob_written; [done | by destruct Hf].
Qed.

Lemma guid_roundtrip v :
  field_written GUIDREF_FIELD [v] [v] -> field_roundtrip GUIDREF_FIELD [v] [v].
Proof.
  intros (v' & [= <-] & _ & Hv).
  set (val := if v =? IL_MAX_UINT32 then 0 else v / 16 + 1).
  apply (one_index_roundtrip _ (guidRefBig im) v val _ val (parse_guid im)).
  - intros. by apply (encode_value _ (fun val => write_index (guidRefBig im) (if val =? IL_MAX_UINT32 then 0 else val / 16 + 1))).
  - done.
  - intros ptr. cbn [parse_row_field]. unfold guid_size. by rewrite ref_size_big.
  - subst val. destruct Hv as [-> | (guids & _ & _ & _ & _ & Hlt & _ & Hf)]; [by destruct (guidRefBig im) |].
    rewrite (proj2 (Z.eqb_neq _ _)) by (unfold IL_MAX_UINT32; lia). by apply index_fits_mod.
  - subst val. destruct Hv as [-> | (guids & Hg & H0 & Hm & Hle & Hlt & H32 & Hf)]; [apply gives_ret |].
    rewrite (proj2 (Z.eqb_neq _ _)) by (unfold IL_MAX_UINT32; lia). unfold parse_guid.
    rewrite (proj2 (Z.eqb_neq _ _)), (proj2 (Z.leb_gt _ _)) by lia.
    eapply gives_bind; [exact Hg |]. cbv beta iota zeta. unfold uint32.
    rewrite !to_unsigned_small by (rewrite ?to_unsigned_small by lia; lia).
    rewrite !(proj2 (Z.ltb_ge _ _)) by lia. cbn [orb].
    replace ((v / 16 + 1 - 1) * 16) with v by lia. apply gives_ret.
Qed.

Lemma list_roundtrip type token v w :
  kind_ok token = true -> big_ref im type = (0xFFFE <? count im token) ->
  (forall values index, encode_field (S := S) im values type index
     = (val ← array_get "values" values index; mret (encode_list im type token val, 1))) ->
  field_size im str_size blob_size guid_size type = ref_size (big_ref im type) ->
  (forall ptr, parse_row_field (S := S) im str_size blob_size guid_size type ptr
     = ('(temp, ptr) ← read_index (big_ref im type) ptr; r ← parse_list im token temp; mret (r, ptr))) ->
  list_written token v w -> field_roundtrip type [v] [w].
Proof.
  intros Hk Hbig Henc Hsize Hparse Hw. destruct (parse_list_written token v w Hk Hw) as (Hr & Hl & Hv).
  apply (one_index_roundtrip _ (big_ref im type) v v _ (v mod 2 ^ 16) (parse_list im token)); [| done | done | | done].
  - intros. replace (write_index (big_ref im type) v) with (encode_list im type token v).
    + by apply (encode_value _ (encode_list im type token)).
    + unfold encode_list. by rewrite (proj2 (Z.eqb_neq _ _)) by lia.
  - by rewrite Hbig, Hl.
Qed.

Lemma tkref_roundtrip token rid :
  kind_ok token = true -> 0 < rid <= count im token -> count im token <= 0xFFFF ->
  field_roundtrip (TKREF_FIELD token) [Z.lor token rid] [Z.lor token rid].
Proof.
  intros Hk Hr Hl.
  apply (one_index_roundtrip _ (big_ref im (TKREF_FIELD token)) _ (Z.lor token rid) _ (Z.lor token rid mod 2 ^ 16) (parse_tkref im token)); [| done | done | |].
  - intros. by apply (encode_value _ (write_index (big_ref im (TKREF_FIELD token)))).
  - cbn [big_ref]. by rewrite (proj2 (Z.ltb_ge _ _)) by lia.
  - by apply parse_tkref_written.
Qed.

(** The number of a row fits behind the code of its table. *)
Lemma mixed_fits bits types code rid j :
  0 <= bits <= 5 -> 0 <= j < 2 ^ bits -> 0 <= rid < 2 ^ 24 ->
  rid = 0 \/ code ∈ types /\ (code =? 1) || (code =? 2) = false /\ rid <= count im code ->
  index_fits (big_ref im (Mixed bits types)) (Z.lor j (Z.shiftl rid bits)).
Proof.
  intros Hb Hj Hr Hcode. destruct (mixed_parts bits j rid) as (_ & _ & ->); [lia | done | lia |].
  assert (2 ^ bits <= 2 ^ 5) by (apply Z.pow_le_mono_r; lia). cbn [big_ref].
  unfold index_fits. destruct (big_mixed im bits types) eqn:Ebig; [nia |].
  assert (rid * 2 ^ bits <= 0xFFFF - (2 ^ bits - 1)) as Hle; [| nia].
  destruct Hcode as [-> | (Hin & Hreal & Hle)]; [lia |].
  assert ((Z.shiftr 0xFFFF bits <? count im code) = false) as Hlim.
  { apply not_true_is_false. intros Hlt. apply (not_false_iff_true (big_mixed im bits types)); [| done].
    unfold big_mixed. apply existsb_exists. exists code. split; [by apply list_elem_of_In |].
    rewrite orb_false_iff in Hreal. destruct Hreal as [-> ->]. by rewrite Hlt. }
  apply Z.ltb_ge in Hlim.
  assert (bits = 0 \/ bits = 1 \/ bits = 2 \/ bits = 3 \/ bits = 4 \/ bits = 5) as Hcases by lia.
  rewrite Z.shiftr_div_pow2 in Hlim by lia. clear -Hcases Hle Hlim Hr.
  destruct Hcases as [-> | [-> | [-> | [-> | [-> | ->]]]]]; zlia.
Qed.

Lemma hit_kind kind t : kind <> IL_META_TOKEN_STRING -> hit kind t = true -> t = kind.
Proof.
  unfold hit. intros Hk. rewrite orb_true_iff, andb_true_iff, !Z.eqb_eq. by intros [-> | [_ ?]].
Qed.

Lemma mixed_types_ok bits types t :
  mixed_ok bits types = true -> t ∈ types -> t = 1 \/ t = 2 \/ kind_ok t = true.
Proof.
  unfold mixed_ok. rewrite !andb_true_iff. intros [[Hf _] _] Hin. cbn [field_ok] in Hf.
  rewrite !andb_true_iff in Hf. destruct Hf as [_ Hf]. rewrite forallb_forall in Hf.
  apply list_elem_of_In, Hf in Hin. rewrite !orb_true_iff, !Z.eqb_eq in Hin. tauto.
Qed.

Lemma head_table bits types : mixed_ok bits types = true -> kind_ok (List.hd 0 types) = true /\ List.hd 0 types ∈ types.
Proof.
  unfold mixed_ok. rewrite !andb_true_iff. intros [_ Hhd]. destruct types; [done |]. split; [done |]. by left.
Qed.

(** The table, the row and the value of a reference. *)
Lemma mixed_written bits types v :
  mixed_ok bits types = true -> field_written (Mixed bits types) [v] [v] ->
  exists code rid, code ∈ types /\ 0 <= rid < 2 ^ 24 /\ Z.ldiff v IL_META_TOKEN_MASK = rid /\
    (forall t, t ∈ types -> hit (Z.land v IL_META_TOKEN_MASK) t = true -> t = code) /\
    (hit (Z.land v IL_META_TOKEN_MASK) code = true \/
     code = List.hd 0 types /\ existsb (hit (Z.land v IL_META_TOKEN_MASK)) types = false) /\
    (rid = 0 \/ (code =? 1) || (code =? 2) = false /\ rid <= count im code) /\
    (if (code =? 1) || (code =? 2) then code = 2 /\ v = IL_META_TOKEN_STRING
     else if rid =? 0 then v = 0 else v = Z.lor rid code).
Proof.
  intros Hok (v' & [= <-] & _ & Hv). destruct (head_table bits types Hok) as [Hhd Hhdin].
  destruct Hv as [-> | [[-> H2] | (code & rid & -> & Hin & Hk & H1 & H2 & Hr)]].
  - destruct (existsb (hit 0) types) eqn:Eh.
    + apply existsb_exists in Eh as (t & Hin & Ht). assert (t = 0) as -> by (by apply (hit_kind 0)).
      exists 0, 0. split; [by apply list_elem_of_In |]. split_and!; try done; [| by left | by left].
      intros t _. by apply hit_kind.
    + exists (List.hd 0 types), 0. split; [done |]. destruct (kind_real _ Hhd) as [E1 E2].
      split_and!; try done; [| by right | by left | by rewrite E1, E2].
      intros t Hin Ht. exfalso. assert (existsb (hit 0) types = true); [| congruence].
      apply existsb_exists. exists t. split; [by apply list_elem_of_In | done].
  - exists 2, 0. split; [done |]. split_and!; try done; [| by left | by left].
    intros t Hin Ht. destruct (mixed_types_ok bits types t Hok Hin) as [-> | [-> | Hk]]; [by vm_compute in Ht | done |].
    unfold hit in Ht. rewrite orb_true_iff, andb_true_iff, !Z.eqb_eq in Ht. destruct Ht as [Ht | [-> _]]; [| done].
    subst t. by vm_compute in Hk.
  - pose proof (Hcounts (Z.shiftr code 24)) as Hc. fold (count im code) in Hc. destruct (kind_low code Hk) as [_ Hb].
    exists code, rid. rewrite ldiff_mask, land_mask by (done || lia).
    assert ((code =? 1) || (code =? 2) = false) as E by (destruct (kind_real code Hk) as [-> ->]; done).
    split; [done |]. split; [lia |]. split; [done |]. split; [| split; [| split]].
    + intros t _. apply hit_kind. unfold IL_META_TOKEN_STRING. lia.
    + left. unfold hit. by rewrite Z.eqb_refl.
    + right. split; [done | lia].
    + rewrite E, (proj2 (Z.eqb_neq _ _)) by lia. apply Z.lor_comm.
Qed.

Lemma mixed_field_roundtrip bits types v :
  mixed_ok bits types = true -> field_written (Mixed bits types) [v] [v] -> field_roundtrip (Mixed bits types) [v] [v].
Proof.
  intros Hok Hw. destruct (mixed_written bits types v Hok Hw) as (code & rid & Hin & Hr & Hld & Huniq & Hhit & Hrid & Hv).
  destruct (mixed_roundtrip bits types v code rid Hok Hr Hld Hin Huniq Hhit) as (j & Hj & Hjc & Etemp).
  assert (0 <= bits <= 5) as Hb.
  { unfold mixed_ok in Hok. cbn [field_ok] in Hok. rewrite !andb_true_iff, !Z.leb_le in Hok. tauto. }
  apply (one_index_roundtrip _ (big_ref im (Mixed bits types)) _ (read_mixed bits types v) _ (read_mixed bits types v)
           (parse_mixed im bits types)); [| done | done | |].
  - intros. by apply (encode_value _ (fun val => write_index (big_ref im (Mixed bits types)) (read_mixed bits types val))).
  - apply index_fits_mod. rewrite Etemp. apply (mixed_fits bits types code); [done | done | done |]. tauto.
  - rewrite Etemp. pose proof (parse_mixed_written bits types code rid j ltac:(lia) Hj ltac:(lia) Hjc) as Hp.
    destruct ((code =? 1) || (code =? 2)) eqn:E.
    + destruct Hv as [-> ->]. exact Hp.
    + destruct (rid =? 0) eqn:Ez; [by rewrite Hv |]. apply Z.eqb_neq in Ez.
      destruct Hrid as [? | [_ Hle]]; [done |]. rewrite (proj2 (Z.leb_le _ _)) in Hp by done. by rewrite Hv.
Qed.

Lemma written_roundtrip type us vs : written_ok type = true -> field_written type us vs -> field_roundtrip type us vs.
Proof.
  destruct type; intros Hok Hw; pose proof Hw as Hw'; cbn [field_written written_ok] in Hw'.
  - destruct Hw' as (v & -> & -> & Hv & Hf). by apply str_roundtrip.
  - destruct Hw' as (i & x & y & pos & len & -> & -> & Hat & Hf). by apply blob_roundtrip.
  - destruct Hw' as (v & -> & -> & _). by apply guid_roundtrip.
  - destruct Hw' as (v & -> & -> & Hv).
    intros pre post rest Hrest. destruct (write_index_ok false v) as [Hb Hl].
    exists (WRITE16 v). split; [by apply (encode_value _ WRITE16) |]. split; [done |]. split; [done |].
    cbn [parse_row_field]. eapply gives_bind; [apply (read_index_written false v v); [by apply Z.mod_small | done] | apply gives_ret].
  - destruct Hw' as (v & -> & -> & Hv).
    intros pre post rest Hrest. destruct (write_index_ok true v) as [Hb Hl].
    exists (WRITE32 v). split; [by apply (encode_value _ WRITE32) |]. split; [done |]. split; [done |].
    cbn [parse_row_field]. eapply gives_bind; [apply (read_index_written true v v); [by apply Z.mod_small | done] | apply gives_ret].
  - destruct Hw' as (v & w & -> & -> & Hw'). by apply (list_roundtrip _ IL_META_TOKEN_FIELD_DEF v w).
  - destruct Hw' as (v & w & -> & -> & Hw'). by apply (list_roundtrip _ IL_META_TOKEN_METHOD_DEF v w).
  - destruct Hw' as (v & w & -> & -> & Hw'). by apply (list_roundtrip _ IL_META_TOKEN_PARAM_DEF v w).
  - done.
  - destruct Hw' as (rid & -> & -> & Hr & Hl). by apply tkref_roundtrip.
  - destruct Hw' as (v & -> & -> & _). by apply mixed_field_roundtrip.
Qed.

(** ** The rows *)

Lemma description_written type desc :
  FieldDescriptions !! type = Some (Some desc) -> Forall (fun t => written_ok t = true) desc.
Proof.
  intros Hd. assert (forallb (fun desc => match desc with
    | None => true
    | Some desc => forallb written_ok desc
    end) FieldDescriptions = true) as Hall by by vm_compute.
  rewrite forallb_forall in Hall. apply list_elem_of_lookup_2, list_elem_of_In, Hall in Hd.
  rewrite forallb_forall in Hd. apply Forall_forall. intros t Ht. by apply Hd, list_elem_of_In.
Qed.

Lemma description_gives type desc :
  0 <= type -> FieldDescriptions !! Z.to_nat type = Some desc ->
  gives (S := S) (array_get "FieldDescriptions" FieldDescriptions type) desc.
Proof. intros H0 Hd s. unfold array_get. by rewrite (proj2 (Z.leb_le _ _)), Hd by done. Qed.

Lemma fields_roundtrip desc us vs pre post rest :
  Forall (fun t => written_ok t = true) desc -> row_written desc us vs -> Forall is_byte rest ->
  exists bytes,
    gives (S := S) (encode_fields im (pre ++ us ++ post) desc (Z.of_nat (length pre))) bytes /\
    Forall is_byte bytes /\
    Z.of_nat (length bytes) = fields_size im str_size blob_size guid_size desc /\
    gives (S := S) (parse_row_fields im str_size blob_size guid_size desc (bytes ++ rest)) (inr vs).
Proof.
  intros Hd Hw Hrest. revert pre Hd. induction Hw as [| type desc us1 us vs1 vs Hf Hw IH]; intros pre Hd.
  { exists []. split; [apply gives_ret |]. split; [done |]. split; [done |]. apply gives_ret. }
  apply Forall_cons in Hd as [Ht Hd]. destruct (IH (pre ++ us1) Hd) as (bytes2 & E2 & B2 & L2 & P2).
  destruct (written_roundtrip type us1 vs1 Ht Hf pre (us ++ post) (bytes2 ++ rest)) as (bytes1 & E1 & B1 & L1 & P1);
    [by apply Forall_app_2 |].
  exists (bytes1 ++ bytes2). cbn [encode_fields parse_row_fields fields_size].
  replace (optional im type) with false by (by destruct type).
  split; [| split; [by apply Forall_app_2 | split; [rewrite length_app; lia |]]].
  - rewrite <- app_assoc. eapply gives_bind; [exact E1 |]. cbv beta iota. rewrite <- app_assoc, length_app in E2.
    rewrite Nat2Z.inj_add in E2. eapply gives_bind; [exact E2 | apply gives_ret].
  - rewrite <- app_assoc. eapply gives_bind; [exact P1 |]. cbv beta iota.
    eapply gives_bind; [exact P2 | apply gives_ret].
Qed.

(** A row that is packed from values that the image has (strings, blobs and GUIDs of
    the pools, rows of the tables, and for a list the row behind the last when it is empty)
    fills the size that is computed for its table, and unpacking it gives the same
    values, with the place of a blob added and 0 for an empty list.  The array of values
    may be longer than the row. *)
Theorem raw_token_roundtrip token desc us post vs rest :
  0 <= token -> FieldDescriptions !! Z.to_nat (tokenType token) = Some (Some desc) ->
  row_written desc us vs -> Forall is_byte rest ->
  exists bytes,
    gives (S := S) (_ILImageRawTokenEncode im (us ++ post) token) bytes /\
    Z.of_nat (length bytes) = TokenSize im str_size blob_size guid_size (Some desc) /\
    gives (S := S) (ParseToken im str_size blob_size guid_size (Some desc) (bytes ++ rest)) (inr vs).
Proof.
  intros H0 Hdesc Hw Hrest.
  destruct (fields_roundtrip desc us vs [] post rest (description_written _ _ Hdesc) Hw Hrest)
    as (bytes & E & _ & L & P).
  exists bytes. split; [| done]. apply (gives_bind _ _ (Some desc)); [| exact E].
  apply description_gives; [by apply Z.shiftr_nonneg | exact Hdesc].
Qed.
End rows.

(** ** Examples *)

(** A module, a class with one field and no method. *)
Definition sample_counts : ILImage :=
  mkImage None false false false false 5 [0; 2; 6; 8] 4 0
    (fun type => if (type =? 0) || (type =? 2) || (type =? 4) then 1 else 0)
    (fun _ => 0) (fun _ => []) (fun _ => None) 0.

Lemma sample_row_written :
  @row_written LP64 unit sample_counts Fields_TypeDef [1; 3; 0; 0; 0x04000001; 0x06000001] [1; 3; 0; 0; 0x04000001; 0].
Proof.
  unfold Fields_TypeDef.
  apply (written_cons _ UINT32_FIELD _ [1] _ [1]); [by exists 1 |].
  apply (written_cons _ STRREF_FIELD _ [3] _ [3]); [by exists 3 |].
  apply (written_cons _ STRREF_FIELD _ [0] _ [0]); [by exists 0 |].
  apply (written_cons _ TypeDefRefOrSpec_Desc _ [0] _ [0]); [exists 0; auto |].
  apply (written_cons _ FIELD_FIELD _ [0x04000001] _ [0x04000001]);
    [exists 0x04000001, 0x04000001; split; [done |]; split; [done |]; by exists 1 |].
  apply (written_cons _ METHOD_FIELD _ [0x06000001] _ [0]); [| constructor].
  exists 0x06000001, 0. split; [done |]. split; [done |]. by exists 1.
Qed.

Lemma raw_token_roundtrip_witness :
  exists bytes,
    gives (S := unit) (_ILImageRawTokenEncode sample_counts [1; 3; 0; 0; 0x04000001; 0x06000001; 9] 0x02000001) bytes /\
    Z.of_nat (length bytes)
      = TokenSize sample_counts (str_size sample_counts) (blob_size sample_counts) (guid_size sample_counts)
          (Some Fields_TypeDef) /\
    gives (S := unit) (@ParseToken LP64 unit sample_counts (str_size sample_counts) (blob_size sample_counts)
        (guid_size sample_counts) (Some Fields_TypeDef) (bytes ++ [7; 7])) (inr [1; 3; 0; 0; 0x04000001; 0]).
Proof.
  apply (@raw_token_roundtrip LP64 unit sample_counts) with (us := [1; 3; 0; 0; 0x04000001; 0x06000001]) (post := [9]).
  - intros type. cbn. case_match; lia.
  - split; [done |]. split; [| done]. unfold is_byte. apply (bool_decide_unpack _). vm_compute. exact I.
  - done.
  - done.
  - exact sample_row_written.
  - unfold is_byte. apply (bool_decide_unpack _). vm_compute. exact I.
Defined.

(** A class list behind 0xFFFE fields: the kind of the token is written into the wide
    index, and the row is not read back. *)
Definition large_counts : ILImage :=
  mkImage None false false false false 5 [0; 2; 6; 8] 4 0
    (fun type => if type =? 4 then 0xFFFF else if type =? 2 then 1 else 0)
    (fun _ => 0) (fun _ => []) (fun _ => None) 0.
Lemma large_index_unreadable :
  exists bytes,
    _ILImageRawTokenEncode large_counts [1; 3; 0; 0; 0x04000001; 0x06000001] 0x02000001 tt = Done bytes tt /\
    @ParseToken LP64 unit large_counts 2 2 2 (Some Fields_TypeDef) bytes tt = Done (inl IL_LOADERR_BAD_META) tt.
Proof. eexists. split; [by vm_compute | by vm_compute]. Qed.

(** An empty list that is given as 0 is written as the last row of the table. *)
Lemma zero_list_misread :
  exists bytes,
    _ILImageRawTokenEncode sample_counts [1; 3; 0; 0; 0; 0x06000001] 0x02000001 tt = Done bytes tt /\
    @ParseToken LP64 unit sample_counts 2 2 2 (Some Fields_TypeDef) bytes tt
      = Done (inr [1; 3; 0; 0; 0x04000001; 0]) tt.
Proof. eexists. split; [by vm_compute | by vm_compute]. Qed.
