(* ===== verification/MetaIndexWriter.v ===== *)
(** * MetaIndexWriter: the index that is written can be loaded

    The part of [_ILWriteMetadataIndex] (src/gcc/scil/pnet/image/meta_writer.c) that
    writes the header, the numbers of rows and the tables of the "#~" stream, and the
    round trip: loading what is written gives the same tables.  The functions that
    fill the values of a row from an item ([Format_Module] and the others) are
    a parameter.  Writing the signatures and sorting the tables come before, and
    the list of the RVAs to be fixed is not part of the stream; none of them is
    modelled.  The buffer between the rows and the stream is not visible in what is
    written, and its allocation succeeds. *)
From S2P Require Import Prelude Values ILMeta MetaCompress MetaHeader MetaIndex MetaIndexSafe MetaIndexRows.

(** The tables that have an entry in [Formatters]. *)
Definition Formatters : list bool :=
  [true; true; true; false; true; false; true; false;
   true; true; true; true; true; true; true; true;
   true; true; true; false; true; true; false; true;
   true; true; true; true; true; true; false; false;
   true; true; true; true; true; true; true; true;
   true; true; true; true; true; false; false; false;
   false; false; false; false; false; false; false; false;
   false; false; false; false; false; false; false; false].

Definition IL_WRITE_UINT32 (value : Z) : list Z := WRITE32 value.
Definition IL_WRITE_UINT64 (value : Z) : list Z :=
  WRITE32 value
  ++ [uchar (Z.shiftr value 32); uchar (Z.shiftr value 40); uchar (Z.shiftr value 48); uchar (Z.shiftr value 56)].

Section writer.
Context {S : Type}.
(** The formatter of a table: the item, and the array of values before and behind it. *)
Context (format : Z -> Z -> list Z -> comp S (list Z)).

Definition size_flags (im : ILImage) : Z :=
  Z.lor (Z.lor (if 65535 <? stringPoolSize im then IL_META_SIZE_FLAG_STRREF else 0)
               (if 65535 <? blobPoolSize im then IL_META_SIZE_FLAG_BLOBREF else 0))
        (if 65535 / 3 <? count im IL_META_TOKEN_MODULE then IL_META_SIZE_FLAG_GUIDREF else 0).

(** The tables in use. *)
Definition token_flags (im : ILImage) : Z :=
  foldl (fun flags type =>
    if negb (tokenCount im type =? 0) && default false (Formatters !! Z.to_nat type)
    then Z.lor flags (Z.shiftl 1 type) else flags) 0 all_types.

Definition index_header (sizeFlags tokenFlags sortedFlags : Z) : list Z :=
  IL_WRITE_UINT32 0 ++ [0x01; 0x00; uchar sizeFlags; 0x00]
  ++ IL_WRITE_UINT64 tokenFlags ++ IL_WRITE_UINT64 sortedFlags.

(** The numbers of rows. *)
Fixpoint write_counts (types : list Z) (tokenFlags : Z) (im : ILImage) : list Z :=
  match types with
  | [] => []
  | type :: types =>
      (if present tokenFlags type then IL_WRITE_UINT32 (tokenCount im type) else [])
      ++ write_counts types tokenFlags im
  end.

(** [n] rows of a table from item [token] on; a missing item ends the writing.  What is
    behind the bytes of a row that does not fill its size is not modelled: there is
    no such row. *)
Fixpoint write_rows (im : ILImage) (type : Z) (n : nat) (token : Z) (values : list Z)
    : comp S (option (list Z * list Z)) :=
  match n with
  | O => mret (Some ([], values))
  | Datatypes.S n =>
      item ← match tokenData im type with
             | None => mret None
             | Some data => array_get "data" data token
             end;
      match item with
      | None => mret None
      | Some item =>
          values ← format type item values;
          bytes ← _ILImageRawTokenEncode im values (Z.lor (Z.shiftl type 24) (token + 1));
          _ ← (if Z.of_nat (length bytes) =? tokenSize im type then mret tt
               else fail (Undefined "buffer"));
          rest ← write_rows im type n (token + 1) values;
          mret ((fun '(rows, values) => (bytes ++ rows, values)) <$> rest)
      end
  end.
Fixpoint write_tables (im : ILImage) (types : list Z) (tokenFlags : Z) (values : list Z)
    : comp S (option (list Z)) :=
  match types with
  | [] => mret (Some [])
  | type :: types =>
      if present tokenFlags type then
        rows ← write_rows im type (Z.to_nat (tokenCount im type)) 0 values;
        match rows with
        | None => mret None
        | Some (rows, values) =>
            rest ← write_tables im types tokenFlags values;
            mret (app rows <$> rest)
        end
      else write_tables im types tokenFlags values
  end.

(** The stream; [sortedFlags] are the tables that have been sorted before, and [values] is
    the array on the stack.  The sizes of the rows have been computed. *)
Definition write_index_stream (im : ILImage) (sortedFlags : Z) (values : list Z)
    : comp S (option (list Z)) :=
  let tokenFlags := token_flags im in
  tables ← write_tables im all_types tokenFlags values;
  mret ((fun tables => index_header (size_flags im) tokenFlags sortedFlags
                       ++ write_counts all_types tokenFlags im ++ tables) <$> tables).
End writer.

(** ** Images that agree *)

Record agrees (im im' : ILImage) : Prop := {
  agree_pools : same_pools im im';
  agree_counts : forall t, 0 <= t < 0x2D -> tokenCount im' t = tokenCount im t;
  agree_str : strRefBig im' = strRefBig im;
  agree_blob : blobRefBig im' = blobRefBig im;
  agree_guid : guidRefBig im' = guidRefBig im
}.

Section agree.
Context `{Host} {S : Type} (im im' : ILImage) (Hag : agrees im im').

Lemma encode_field_agree type values index :
  field_ok type = true -> encode_field (S := S) im' values type index = encode_field im values type index.
Proof.
  intros Hok. pose proof (big_ref_agree im im' (agree_counts _ _ Hag) type Hok) as Hb.
  pose proof (count_agree im im' (agree_counts _ _ Hag)) as Hc.
  destruct Hag as [_ _ E1 E2 E3].
  destruct type; cbn [encode_field]; unfold encode_list; rewrite ?Hb, ?E1, ?E2, ?E3, ?Hc by done; done.
Qed.

Lemma bind_ext {A B} (m : comp S A) (f g : A -> comp S B) s :
  (forall a s, f a s = g a s) -> (m ≫= f) s = (m ≫= g) s.
Proof. intros Hfg. unfold mbind, comp_bind. destruct (m s); [apply Hfg | done]. Qed.

Lemma encode_fields_agree desc values index s :
  Forall (fun t => field_ok t = true) desc ->
  encode_fields (S := S) im' values desc index s = encode_fields im values desc index s.
Proof.
  intros Hd. revert index s. induction Hd as [| type desc Ht Hd IH]; intros index s; [done |].
  cbn [encode_fields]. replace (optional im' type) with false by (by destruct type).
  replace (optional im type) with false by (by destruct type).
  rewrite encode_field_agree by done. apply bind_ext. intros [bytes n] s'.
  unfold mbind, comp_bind. by rewrite IH.
Qed.

Lemma field_written_agree type us vs :
  written_ok type = true -> field_written (S := S) im type us vs -> field_written (S := S) im' type us vs.
Proof.
  intros Hok%written_field_ok. pose proof (count_agree im im' (agree_counts _ _ Hag)) as Hc.
  destruct Hag as [(P1 & P2 & P3 & P4) _ E1 E2 E3].
  destruct type; cbn [field_written]; unfold list_written, blob_at;
    rewrite ?P1, ?P2, ?P3, ?P4, ?E1, ?E2, ?E3, ?Hc by done; try done.
  intros (v & -> & -> & [-> | [[-> H2] | (code & rid & -> & Hin & Hk & H1 & H2 & Hr)]]);
    eexists; split_and!; try done; [by left | by right; left |].
  right; right. exists code, rid. by rewrite Hc.
Qed.

Lemma row_written_agree desc us vs :
  Forall (fun t => written_ok t = true) desc -> row_written (S := S) im desc us vs -> row_written (S := S) im' desc us vs.
Proof.
  intros Hd Hw. induction Hw; [constructor |]. apply Forall_cons in Hd as [Ht Hd].
  apply written_cons; [by apply field_written_agree | auto].
Qed.
End agree.

(** ** The tables that are written *)

Lemma seqZ_step k n : seqZ k (Z.of_nat (Datatypes.S n)) = k :: seqZ (Z.succ k) (Z.of_nat n).
Proof. rewrite seqZ_cons by lia. f_equal. f_equal. lia. Qed.

Section roundtrip.
Context `{Host} {S : Type} (format : Z -> Z -> list Z -> comp S (list Z)).
Context (im : ILImage) (row : Z -> Z -> list Z).
Context (Hcounts : counts_ok im) (Hpools : pools_ok im) (Hsection : section_ok im).

(** The rows of a table can be written, and are read as [row]. *)
Definition rows_writable (type : Z) : Prop :=
  exists desc data,
    FieldDescriptions !! Z.to_nat type = Some (Some desc) /\
    tokenSize im type = fields_size im (str_size im) (blob_size im) (guid_size im) desc /\
    tokenData im type = Some data /\
    forall i, 0 <= i < tokenCount im type -> exists item,
      data !! Z.to_nat i = Some (Some item) /\
      forall values, exists us, gives (format type item values) us /\
        exists vs post, us = vs ++ post /\ row_written (S := S) im desc vs (row type i).

(** The bytes of a table, and how they are read in an image with the same tables. *)
Definition table_bytes (type lo hi : Z) (b : list Z) : Prop :=
  Forall is_byte b /\ Z.of_nat (length b) = tokenSize im type * (hi - lo) /\
  forall desc, FieldDescriptions !! Z.to_nat type = Some (Some desc) ->
  forall im' i rest, agrees im im' -> counts_ok im' -> lo <= i < hi -> Forall is_byte rest ->
    gives (S := S) (parse_row_fields im' (str_size im) (blob_size im) (guid_size im) desc
             (drop (Z.to_nat (tokenSize im type * (i - lo))) (b ++ rest))) (inr (row type i)).

Lemma sizes_agree im' : agrees im im' -> str_size im' = str_size im /\ blob_size im' = blob_size im /\ guid_size im' = guid_size im.
Proof. intros [_ _ E1 E2 E3]. unfold str_size, blob_size, guid_size. by rewrite E1, E2, E3. Qed.

(** One row. *)
Lemma row_bytes type desc us vs post :
  FieldDescriptions !! Z.to_nat type = Some (Some desc) -> row_written (S := S) im desc us vs ->
  exists b,
    gives (S := S) (encode_fields im (us ++ post) desc 0) b /\ Forall is_byte b /\
    Z.of_nat (length b) = fields_size im (str_size im) (blob_size im) (guid_size im) desc /\
    forall im' rest, agrees im im' -> counts_ok im' -> Forall is_byte rest ->
      gives (S := S) (parse_row_fields im' (str_size im) (blob_size im) (guid_size im) desc (b ++ rest)) (inr vs).
Proof.
  intros Hdesc Hw. pose proof (description_written _ _ Hdesc) as Hd.
  assert (Forall (fun t => field_ok t = true) desc) as Hf by (by eapply desc_fields_ok, description_ok).
  destruct (fields_roundtrip (S := S) im Hcounts Hpools desc us vs [] post [] Hd Hw) as (b & E & B & L & _); [done |].
  exists b. split; [exact E |]. split; [done |]. split; [done |]. intros im' rest Hag Hc' Hrest s.
  destruct (same_pools_ok im im' (agree_pools _ _ Hag) Hpools Hsection) as [Hp' _].
  destruct (fields_roundtrip (S := S) im' Hc' Hp' desc us vs [] post rest Hd) as (b' & E' & _ & _ & P);
    [by eapply row_written_agree | done |].
  specialize (E s). specialize (E' s). rewrite (encode_fields_agree im im' Hag) in E' by done.
  rewrite E in E'. injection E' as <-.
  destruct (sizes_agree im' Hag) as (<- & <- & <-). apply P.
Qed.

Lemma size_positive type desc :
  FieldDescriptions !! Z.to_nat type = Some (Some desc) ->
  tokenSize im type = fields_size im (str_size im) (blob_size im) (guid_size im) desc ->
  0 < tokenSize im type < 256.
Proof.
  intros Hdesc ->. apply token_size_fits; [| | | by eapply description_ok];
    unfold str_size, blob_size, guid_size, ref_size; case_match; auto.
Qed.

(** The rows from [token] on. *)
Lemma write_rows_spec type n token values :
  rows_writable type -> 0 <= type < 64 -> 0 <= token -> token + Z.of_nat n = tokenCount im type ->
  exists rows values',
    gives (S := S) (write_rows format im type n token values) (Some (rows, values')) /\
    table_bytes type token (tokenCount im type) rows.
Proof.
  intros (desc & data & Hdesc & Hsize & Hdata & Hrows) Ht.
  pose proof (size_positive type desc Hdesc Hsize) as Hpos.
  revert token values. induction n as [| n IH]; intros token values H0 Hn.
  { exists [], values. split; [apply gives_ret |]. split; [done |]. split; [cbn; lia |]. intros; lia. }
  destruct (Hrows token) as (item & Hitem & Hformat); [lia |].
  destruct (Hformat values) as (us & Hus & vs & post & -> & Hw).
  destruct (row_bytes type desc vs (row type token) post Hdesc Hw) as (b & E & B & L & P).
  destruct (IH (token + 1) (vs ++ post)) as (rows & values' & Er & Br & Lr & Pr); [lia | lia |].
  exists (b ++ rows), values'. split.
  - cbn [write_rows]. rewrite Hdata. eapply gives_bind.
    { intros s. unfold array_get. by rewrite (proj2 (Z.leb_le _ _)), Hitem by done. }
    cbv beta iota. eapply gives_bind; [exact Hus |]. eapply gives_bind.
    { unfold _ILImageRawTokenEncode. apply (gives_bind _ _ (Some desc)); [| exact E].
      assert (Z.shiftr (Z.lor (Z.shiftl type 24) (token + 1)) 24 = type) as ->; [| apply description_gives; [lia | done]].
      rewrite Z.shiftr_lor, Z.shiftr_shiftl_l, Z.sub_diag, Z.shiftl_0_r by lia.
      pose proof (Hcounts type). rewrite (Z.shiftr_div_pow2 (token + 1)), Z.div_small by lia. apply Z.lor_0_r. }
    cbv beta. rewrite L, Hsize, Z.eqb_refl. eapply gives_bind; [apply gives_ret |].
    eapply gives_bind; [exact Er | apply gives_ret].
  - split; [by apply Forall_app_2 |]. rewrite <- Hsize in L. split; [rewrite length_app; lia |].
    intros desc' Hdesc' im' i rest Hag Hc' Hi Hrest. rewrite Hdesc in Hdesc'. injection Hdesc' as <-.
    rewrite <- app_assoc. destruct (decide (i = token)) as [-> | Hne].
    + rewrite Z.sub_diag, Z.mul_0_r. cbn [Z.to_nat drop]. apply P; [done | done | by apply Forall_app_2].
    + rewrite drop_app_ge by nia.
      replace (Z.to_nat (tokenSize im type * (i - token)) - length b)%nat
        with (Z.to_nat (tokenSize im type * (i - (token + 1)))) by nia.
      apply (Pr desc Hdesc im' i rest); (done || lia).
Qed.

(** The bytes of the tables in use. *)
Fixpoint tables_bytes (types : list Z) (tokenFlags : Z) (tb : Z -> list Z) : list Z :=
  match types with
  | [] => []
  | type :: types => (if present tokenFlags type then tb type else []) ++ tables_bytes types tokenFlags tb
  end.

Lemma tables_bytes_ext types tokenFlags tb tb' :
  (forall type, type ∈ types -> tb type = tb' type) -> tables_bytes types tokenFlags tb = tables_bytes types tokenFlags tb'.
Proof.
  induction types as [| type types IH]; intros He; [done |]. cbn [tables_bytes].
  rewrite (He type) by (by left). f_equal. apply IH. intros. apply He. by right.
Qed.

Definition table_ok (type : Z) (b : list Z) : Prop := table_bytes type 0 (tokenCount im type) b.

Lemma write_tables_spec n k tokenFlags values :
  0 <= k -> k + Z.of_nat n = 64 ->
  (forall t, k <= t < 64 -> present tokenFlags t = true -> rows_writable t) ->
  exists tb,
    gives (S := S) (write_tables format im (seqZ k (Z.of_nat n)) tokenFlags values)
      (Some (tables_bytes (seqZ k (Z.of_nat n)) tokenFlags tb)) /\
    forall t, k <= t < 64 -> present tokenFlags t = true -> table_ok t (tb t).
Proof.
  revert k values. induction n as [| n IH]; intros k values Hk Hn Hw.
  { exists (fun _ => []). rewrite seqZ_nil by lia. split; [apply gives_ret | intros; lia]. }
  rewrite seqZ_step. cbn [write_tables]. destruct (present tokenFlags k) eqn:Hp.
  - pose proof (Hcounts k). destruct (write_rows_spec k (Z.to_nat (tokenCount im k)) 0 values)
      as (rows & values' & E & Hrows); [apply Hw; (done || lia) | lia | lia | lia |].
    destruct (IH (Z.succ k) values') as (tb & Et & Htb); [lia | lia | intros; apply Hw; (done || lia) |].
    exists (array_set tb k rows). split.
    + eapply gives_bind; [exact E |]. cbv beta iota. eapply gives_bind; [exact Et |].
      cbn [tables_bytes]. rewrite Hp.
      rewrite (tables_bytes_ext _ _ (array_set tb k rows) tb).
      * unfold array_set at 1. rewrite Z.eqb_refl. apply gives_ret.
      * intros t Hin%elem_of_seqZ. unfold array_set. by rewrite (proj2 (Z.eqb_neq _ _)) by lia.
    + intros t Ht Hpt. unfold array_set. destruct (Z.eqb_spec t k) as [-> |]; [exact Hrows | apply Htb; (done || lia)].
  - destruct (IH (Z.succ k) values) as (tb & Et & Htb); [lia | lia | intros; apply Hw; (done || lia) |].
    exists tb. cbn [tables_bytes]. rewrite Hp. split; [exact Et |].
    intros t Ht Hpt. destruct (decide (t = k)) as [-> |]; [congruence | apply Htb; (done || lia)].
Qed.

Lemma tables_bytes_byte n k tokenFlags tb :
  k + Z.of_nat n = 64 -> (forall t, k <= t < 64 -> present tokenFlags t = true -> table_ok t (tb t)) ->
  Forall is_byte (tables_bytes (seqZ k (Z.of_nat n)) tokenFlags tb).
Proof.
  revert k. induction n as [| n IH]; intros k Hn Hok; [by rewrite seqZ_nil by lia |].
  rewrite seqZ_step. cbn [tables_bytes]. apply Forall_app_2.
  - destruct (present tokenFlags k) eqn:Hp; [| done]. apply (Hok k); (done || lia).
  - apply IH; [lia |]. intros. apply Hok; (done || lia).
Qed.

(** ** Loading them *)

Lemma write_counts_byte types tokenFlags : Forall is_byte (write_counts types tokenFlags im).
Proof.
  induction types as [| type types IH]; [done |]. cbn [write_counts]. apply Forall_app_2; [| done].
  case_match; [| done]. unfold IL_WRITE_UINT32. rewrite write32_bytes. apply le_bytes_byte.
Qed.

Lemma read_counts_spec n k tokenFlags im0 rest :
  0 <= k -> Forall is_byte rest ->
  Z.of_nat (length (write_counts (seqZ k (Z.of_nat n)) tokenFlags im ++ rest)) < 2 ^ 32 ->
  exists im1,
    gives (S := S) (read_counts (seqZ k (Z.of_nat n)) tokenFlags im0
        (write_counts (seqZ k (Z.of_nat n)) tokenFlags im ++ rest)
        (Z.of_nat (length (write_counts (seqZ k (Z.of_nat n)) tokenFlags im ++ rest))))
      (inr (im1, rest, Z.of_nat (length rest))) /\
    same_pools im0 im1 /\
    forall t, tokenCount im1 t =
      if bool_decide (k <= t < k + Z.of_nat n) && present tokenFlags t then tokenCount im t else tokenCount im0 t.
Proof.
  intros Hk Hrest. revert k im0 Hk. induction n as [| n IH]; intros k im0 Hk Hlen.
  { exists im0. rewrite seqZ_nil by lia. split; [apply gives_ret |]. split; [done |].
    intros t. by rewrite bool_decide_eq_false_2 by lia. }
  rewrite seqZ_step in *. cbn [write_counts read_counts] in *.
  destruct (present tokenFlags k) eqn:Hp; cbn [negb app] in *.
  - unfold IL_WRITE_UINT32 in *. rewrite write32_bytes in *. rewrite <- !app_assoc in *.
    set (rest' := write_counts (seqZ (Z.succ k) (Z.of_nat n)) tokenFlags im ++ rest) in *.
    rewrite length_app, length_le_bytes in *.
    destruct (IH (Z.succ k) (set_token_count im0 k (tokenCount im k))) as (im1 & E & Hsame & Hc); [lia | fold rest'; lia |].
    exists im1. split; [| split; [exact Hsame |]].
    + rewrite (proj2 (Z.ltb_ge _ _)) by lia. eapply gives_bind.
      { apply gives_lift, read32_head. apply Forall_app_2; [apply write_counts_byte | done]. }
      pose proof (Hcounts k). unfold uint32. rewrite to_unsigned_small by lia.
      rewrite (proj2 (Z.leb_gt _ _)) by lia. rewrite ulong_small by lia.
      replace (Z.of_nat (4 + length rest') - 4) with (Z.of_nat (length rest')) by lia.
      rewrite (drop_app_length' (le_bytes 4 _)) by (by rewrite length_le_bytes). exact E.
    + intros t. rewrite Hc. cbn [tokenCount set_token_count set_counts]. unfold array_set.
      destruct (Z.eqb_spec t k) as [-> |].
      * rewrite bool_decide_eq_false_2 by lia. rewrite bool_decide_eq_true_2, Hp by lia. done.
      * rewrite (bool_decide_ext _ (k <= t < k + Z.of_nat (Datatypes.S n))) by lia. done.
  - destruct (IH (Z.succ k) im0) as (im1 & E & Hsame & Hc); [lia | done |].
    exists im1. split; [exact E |]. split; [done |]. intros t. rewrite Hc.
    destruct (decide (t = k)) as [-> |]; [by rewrite Hp, !andb_false_r |].
    rewrite (bool_decide_ext _ (k <= t < k + Z.of_nat (Datatypes.S n))) by lia. done.
Qed.

Section sizes.
Context (tokenFlags : Z).
Context (Hwritable : forall t, 0 <= t < 64 -> present tokenFlags t = true -> rows_writable t).

(** The counts of the tables in use. *)
Definition counts_read (im' : ILImage) : Prop :=
  forall t, 0 <= t < 64 -> tokenCount im' t = if present tokenFlags t then tokenCount im t else 0.

Lemma read_sizes_spec n k im1 :
  0 <= k -> k + Z.of_nat n = 64 ->
  (forall t, 0 <= t < 0x2D -> tokenCount im1 t = tokenCount im t) ->
  exists im2,
    gives (S := S) (read_sizes (str_size im) (blob_size im) (guid_size im) (seqZ k (Z.of_nat n)) tokenFlags im1)
      (inr (tokenFlags, im2)) /\
    same_pools im1 im2 /\ tokenCount im2 = tokenCount im1 /\
    (forall t, 0 <= t < k -> tokenSize im2 t = tokenSize im1 t) /\
    (forall t, k <= t < 64 -> present tokenFlags t = true -> tokenSize im2 t = tokenSize im t).
Proof.
  intros Hk Hn Hc. revert k im1 Hk Hn Hc. induction n as [| n IH]; intros k im1 Hk Hn Hc.
  { exists im1. rewrite seqZ_nil by lia. split; [apply gives_ret |]. split; [done |]. split_and!; auto; intros; lia. }
  rewrite seqZ_step. cbn [read_sizes]. destruct (present tokenFlags k) eqn:Hp.
  - destruct (Hwritable k) as (desc & data & Hdesc & Hsize & _); [lia | done |].
    set (size := uchar (TokenSize im1 (str_size im) (blob_size im) (guid_size im) (Some desc))).
    assert (size = tokenSize im k) as Es.
    { subst size. cbn [TokenSize]. pose proof (description_ok _ _ Hdesc) as Hd.
      rewrite (fields_size_agree im) by (by try apply desc_fields_ok). rewrite <- Hsize. unfold uchar.
      pose proof (size_positive k desc Hdesc Hsize). apply to_unsigned_small; lia. }
    pose proof (size_positive k desc Hdesc Hsize).
    destruct (IH (Z.succ k) (set_size im1 k size)) as (im2 & E & Hsame & Hc2 & Hlow & Hhigh); [lia | lia | exact Hc |].
    exists im2. split; [| split; [exact Hsame | split; [exact Hc2 |]]].
    + eapply gives_bind; [by apply description_gives |]. cbv zeta. fold size.
      rewrite (proj2 (Z.eqb_neq size 0)) by lia. exact E.
    + cbn [tokenSize set_size] in Hlow. unfold array_set in Hlow. split.
      * intros t Ht. rewrite Hlow by lia. by rewrite (proj2 (Z.eqb_neq _ _)) by lia.
      * intros t Ht Hpt. destruct (decide (t = k)) as [-> |]; [| apply Hhigh; (done || lia)].
        rewrite Hlow by lia. by rewrite Z.eqb_refl.
  - destruct (IH (Z.succ k) im1) as (im2 & E & Hsame & Hc2 & Hlow & Hhigh); [lia | lia | exact Hc |].
    exists im2. split; [exact E |]. split; [done |]. split; [done |]. split; [intros; apply Hlow; lia |].
    intros t Ht Hpt. destruct (decide (t = k)) as [-> |]; [congruence | apply Hhigh; (done || lia)].
Qed.

Lemma read_starts_spec n k im2 tb rest :
  0 <= k -> k + Z.of_nat n = 64 -> counts_read im2 ->
  (forall t, 0 <= t < 64 -> present tokenFlags t = true -> tokenSize im2 t = tokenSize im t) ->
  (forall t, 0 <= t < 64 -> present tokenFlags t = true -> table_ok t (tb t)) -> Forall is_byte rest ->
  Z.of_nat (length (tables_bytes (seqZ k (Z.of_nat n)) tokenFlags tb ++ rest)) < 2 ^ 32 ->
  exists im3,
    gives (S := S) (read_starts (seqZ k (Z.of_nat n)) tokenFlags im2
        (tables_bytes (seqZ k (Z.of_nat n)) tokenFlags tb ++ rest)
        (Z.of_nat (length (tables_bytes (seqZ k (Z.of_nat n)) tokenFlags tb ++ rest)))) (inr im3) /\
    same_pools im2 im3 /\ tokenCount im3 = tokenCount im2 /\ tokenSize im3 = tokenSize im2 /\
    (forall t, 0 <= t < k -> tokenStart im3 t = tokenStart im2 t) /\
    (forall t, k <= t < 64 -> present tokenFlags t = true ->
       exists rest', tokenStart im3 t = tb t ++ rest' /\ Forall is_byte rest').
Proof.
  intros Hk Hn Hc Hsz Htb Hrest. revert k im2 Hk Hn Hc Hsz. induction n as [| n IH]; intros k im2 Hk Hn Hc Hsz Hlen.
  { exists im2. rewrite seqZ_nil by lia. split; [apply gives_ret |]. split; [done |]. split_and!; auto; intros; lia. }
  rewrite seqZ_step in *. cbn [tables_bytes read_starts] in *.
  destruct (present tokenFlags k) eqn:Hp; cbn [app] in *.
  - rewrite <- !app_assoc in *. set (rest' := tables_bytes (seqZ (Z.succ k) (Z.of_nat n)) tokenFlags tb ++ rest) in *.
    destruct (Htb k) as (Hb & Hl & _); [lia | done |]. rewrite Z.sub_0_r in Hl. rewrite length_app in *.
    destruct (Hwritable k) as (desc & data & Hdesc & Hsize & _); [lia | done |].
    pose proof (size_positive k desc Hdesc Hsize). pose proof (Hcounts k).
    pose proof (Hsz k ltac:(lia) Hp) as Hszk. pose proof (Hc k ltac:(lia)) as Hck. rewrite Hp in Hck.
    destruct (IH (Z.succ k) (set_start im2 k (tb k ++ rest'))) as (im3 & E & Hsame & Hc3 & Hs3 & Hlow & Hhigh);
      [lia | lia | exact Hc | exact Hsz | fold rest'; lia |].
    exists im3. split; [| split; [exact Hsame | split; [exact Hc3 | split; [exact Hs3 |]]]].
    + rewrite Hszk, Hck. rewrite (proj2 (Z.eqb_neq _ _)) by lia.
      rewrite (proj2 (Z.ltb_ge _ _)) by (apply Z.div_le_lower_bound; lia). cbv zeta.
      rewrite (ulong_small (_ * _)) by nia. rewrite ulong_small by nia.
      rewrite drop_app_length' by lia.
      replace (Z.of_nat (length (tb k) + length rest') - tokenSize im k * tokenCount im k)
        with (Z.of_nat (length rest')) by lia. exact E.
    + cbn [tokenStart set_start] in Hlow. unfold array_set in Hlow. split.
      * intros t Ht. rewrite Hlow by lia. by rewrite (proj2 (Z.eqb_neq _ _)) by lia.
      * intros t Ht Hpt. destruct (decide (t = k)) as [-> |]; [| apply Hhigh; (done || lia)].
        rewrite Hlow, Z.eqb_refl by lia. exists rest'. split; [done |]. apply Forall_app_2; [| done].
        apply tables_bytes_byte; [lia |]. intros; apply Htb; (done || lia).
  - destruct (IH (Z.succ k) im2) as (im3 & E & Hsame & Hc3 & Hs3 & Hlow & Hhigh); [lia | lia | done | done | done |].
    exists im3. split; [exact E |]. split; [done |]. split; [done |]. split; [done |]. split; [intros; apply Hlow; lia |].
    intros t Ht Hpt. destruct (decide (t = k)) as [-> |]; [congruence | apply Hhigh; (done || lia)].
Qed.
End sizes.

(** ** The whole index *)

Lemma fold_flags types flags t (used : Z -> bool) :
  0 <= t -> Forall (fun t => 0 <= t) types ->
  Z.testbit (foldl (fun flags type => if used type then Z.lor flags (Z.shiftl 1 type) else flags) flags types) t
  = Z.testbit flags t || (bool_decide (t ∈ types) && used t).
Proof.
  intros Ht Htypes. revert flags. induction Htypes as [| type types H0 Htypes IH]; intros flags; cbn [foldl].
  { rewrite bool_decide_eq_false_2 by apply not_elem_of_nil. by rewrite orb_false_r. }
  rewrite IH. destruct (decide (t = type)) as [-> | Hne].
  - rewrite (bool_decide_eq_true_2 (type ∈ type :: types)) by (by left). cbn [andb].
    destruct (used type); [| by rewrite andb_false_r, !orb_false_r].
    rewrite Z.lor_spec, Z.shiftl_1_l, Z.pow2_bits_true by done. destruct (Z.testbit flags type); cbn; by rewrite ?orb_true_r.
  - rewrite (bool_decide_ext (t ∈ type :: types) (t ∈ types)) by (rewrite elem_of_cons; tauto). f_equal.
    destruct (used type); [| done]. rewrite Z.lor_spec, Z.shiftl_1_l, Z.pow2_bits_false by done. apply orb_false_r.
Qed.

Definition in_use (type : Z) : bool :=
  negb (tokenCount im type =? 0) && default false (Formatters !! Z.to_nat type).

Lemma elem_all_types t : t ∈ all_types <-> 0 <= t < 64.
Proof. unfold all_types. rewrite elem_of_seqZ. lia. Qed.

Lemma token_flags_testbit t :
  0 <= t -> Z.testbit (token_flags im) t = bool_decide (t ∈ all_types) && in_use t.
Proof.
  intros Ht. change (token_flags im) with
    (foldl (fun flags type => if in_use type then Z.lor flags (Z.shiftl 1 type) else flags) 0 all_types).
  rewrite (fold_flags all_types 0 t in_use) by
    (done || (apply Forall_forall; intros x Hx%elem_all_types; lia)).
  by rewrite Z.testbit_0_l.
Qed.

Lemma token_flags_present t : 0 <= t < 64 -> present (token_flags im) t = in_use t.
Proof.
  intros Ht. rewrite present_testbit, token_flags_testbit by lia.
  by rewrite bool_decide_eq_true_2 by (by apply elem_all_types).
Qed.

Lemma fold_flags_nonneg types flags (used : Z -> bool) :
  0 <= flags -> Forall (fun t => 0 <= t) types ->
  0 <= foldl (fun flags type => if used type then Z.lor flags (Z.shiftl 1 type) else flags) flags types.
Proof.
  intros Hf Htypes. revert flags Hf. induction Htypes as [| type types H0 Htypes IH]; intros flags Hf; [done |].
  cbn [foldl]. apply IH. destruct (used type); [| done]. apply Z.lor_nonneg. split; [done |].
  rewrite Z.shiftl_1_l. by apply Z.pow_nonneg.
Qed.

Lemma token_flags_range : 0 <= token_flags im < 2 ^ 64.
Proof.
  assert (0 <= token_flags im) as H0.
  { apply (fold_flags_nonneg all_types 0 in_use); [done |]. apply Forall_forall. intros x Hx%elem_all_types. lia. }
  split; [done |].
  assert (token_flags im = token_flags im mod 2 ^ 64) as ->; [| apply Z.mod_pos_bound; lia].
  apply Z.bits_inj'. intros i Hi. destruct (Z.lt_ge_cases i 64).
  - by rewrite Z.mod_pow2_bits_low.
  - rewrite Z.mod_pow2_bits_high, token_flags_testbit by lia.
    rewrite bool_decide_eq_false_2; [done |]. rewrite elem_all_types. lia.
Qed.

Lemma write64_bytes v : IL_WRITE_UINT64 v = le_bytes 8 v.
Proof.
  unfold IL_WRITE_UINT64, WRITE32, uchar, to_unsigned. cbn [le_bytes app].
  rewrite !Z.shiftr_div_pow2, !Z.div_div by lia. done.
Qed.

(** *** The header *)

Lemma header_reads sizeFlags flags sortedFlags rest :
  0 <= sizeFlags < 256 -> 0 <= flags < 2 ^ 64 -> 0 <= sortedFlags < 2 ^ 64 -> Forall is_byte rest ->
  let index := index_header sizeFlags flags sortedFlags ++ rest in
  byte_at index 6 = Some sizeFlags /\ IL_READ_UINT64 index 8 = Some flags /\
  IL_READ_UINT64 index 16 = Some sortedFlags /\ drop 24 index = rest /\
  Z.of_nat (length index) = 24 + Z.of_nat (length rest) /\ Forall is_byte index.
Proof.
  intros Hs Hf Hsf Hrest. cbv zeta. unfold index_header, IL_WRITE_UINT32. rewrite !write64_bytes, write32_bytes.
  set (pre := le_bytes 4 0 ++ [0x01; 0x00; uchar sizeFlags; 0x00]).
  assert (uchar sizeFlags = sizeFlags) as Eu by (unfold uchar; apply to_unsigned_small; lia).
  assert (Forall is_byte pre) as Hpre.
  { apply Forall_app_2; [apply le_bytes_byte |]. rewrite Eu. unfold is_byte. repeat constructor; lia. }
  assert ((le_bytes 4 0 ++ [0x01; 0x00; uchar sizeFlags; 0x00] ++ le_bytes 8 flags ++ le_bytes 8 sortedFlags) ++ rest
          = pre ++ le_bytes 8 flags ++ le_bytes 8 sortedFlags ++ rest) as ->
    by (subst pre; by rewrite <- !app_assoc).
  split_and!.
  - subst pre. rewrite <- Eu at 2. reflexivity.
  - assert (Forall is_byte (le_bytes 8 sortedFlags ++ rest)) as Hr by (apply Forall_app_2; [apply le_bytes_byte | done]).
    pose proof (IL_READ_UINT64_bytes pre flags _ Hpre Hr) as E. rewrite to_unsigned_small in E by lia. exact E.
  - assert (Forall is_byte (pre ++ le_bytes 8 flags)) as Hp by (apply Forall_app_2; [done | apply le_bytes_byte]).
    pose proof (IL_READ_UINT64_bytes _ sortedFlags _ Hp Hrest) as E. rewrite to_unsigned_small, <- app_assoc in E by lia. exact E.
  - rewrite !app_assoc. apply drop_app_length'. rewrite !length_app, !length_le_bytes. done.
  - rewrite !length_app, !length_le_bytes. change (length pre) with 8%nat. lia.
  - repeat (apply Forall_app_2; auto using le_bytes_byte).
Qed.

(** *** Rows of the image that is loaded *)

Lemma validate_rows_gives im' a b c type desc n token :
  0 <= type -> FieldDescriptions !! Z.to_nat type = Some (Some desc) -> 0 <= token ->
  (forall i, token <= i < token + Z.of_nat n -> exists vs,
     gives (S := S) (parse_row_fields im' a b c desc (row_at im' type i)) (inr vs)) ->
  gives (S := S) (validate_rows im' a b c type n token 0) 0.
Proof.
  intros Ht Hdesc. revert token. induction n as [| n IH]; intros token H0 Hrows; [apply gives_ret |].
  cbn [validate_rows]. eapply gives_bind; [by apply description_gives |].
  destruct (Hrows token) as [vs Hvs]; [lia |]. eapply gives_bind; [exact Hvs |]. cbv zeta. cbn [Z.eqb negb].
  apply IH; [lia |]. intros i Hi. apply Hrows. lia.
Qed.

Lemma validate_types_gives im' a b c types :
  (forall t, t ∈ types -> 0 <= t /\ forall i, 0 <= i < tokenCount im' t -> exists desc vs,
     FieldDescriptions !! Z.to_nat t = Some (Some desc) /\
     gives (S := S) (parse_row_fields im' a b c desc (row_at im' t i)) (inr vs)) ->
  gives (S := S) (validate_types im' a b c types 0) 0.
Proof.
  induction types as [| t types IH]; intros Hrows; [apply gives_ret |]. cbn [validate_types].
  destruct (Hrows t) as [Ht Ht']; [by left |].
  apply (gives_bind _ _ 0); [| apply IH; intros; apply Hrows; by right].
  destruct (Z.to_nat (tokenCount im' t)) as [| n] eqn:En; [apply gives_ret |].
  destruct (Ht' 0) as (desc & _ & Hdesc & _); [lia |].
  apply (validate_rows_gives im' a b c t desc); [done | done | lia |].
  intros i Hi. destruct (Ht' i) as (desc' & vs & Hdesc' & Hvs); [lia |].
  rewrite Hdesc in Hdesc'. injection Hdesc' as <-. eauto.
Qed.

(** The tables can be written, and the widths of the references are those of the pools. *)
Record index_writable : Prop := {
  writable_str : strRefBig im = (65535 <? stringPoolSize im);
  writable_blob : blobRefBig im = (65535 <? blobPoolSize im);
  writable_guid : guidRefBig im = (65535 / 3 <? count im IL_META_TOKEN_MODULE);
  writable_types : forall t, 0 <= t < 64 -> tokenCount im t <> 0 ->
    default false (Formatters !! Z.to_nat t) = true /\ rows_writable t
}.
Context (Hwrite : index_writable).

Lemma in_use_writable t : 0 <= t < 64 -> present (token_flags im) t = true -> rows_writable t.
Proof.
  intros Ht. rewrite token_flags_present by done. unfold in_use. rewrite andb_true_iff, negb_true_iff, Z.eqb_neq.
  intros [Hn _]. by apply (writable_types Hwrite).
Qed.

Lemma count_in_use t : 0 <= t < 64 -> (if present (token_flags im) t then tokenCount im t else 0) = tokenCount im t.
Proof.
  intros Ht. rewrite token_flags_present by done. unfold in_use.
  destruct (Z.eqb_spec (tokenCount im t) 0) as [-> | Hn]; [done |].
  destruct (writable_types Hwrite t Ht Hn) as [-> _]. done.
Qed.

Lemma size_flags_read :
  0 <= size_flags im < 256 /\
  (if negb (Z.land (size_flags im) IL_META_SIZE_FLAG_STRREF =? 0) then 4 else 2) = str_size im /\
  (if negb (Z.land (size_flags im) IL_META_SIZE_FLAG_BLOBREF =? 0) then 4 else 2) = blob_size im /\
  (if negb (Z.land (size_flags im) IL_META_SIZE_FLAG_GUIDREF =? 0) then 4 else 2) = guid_size im.
Proof.
  unfold size_flags, str_size, blob_size, guid_size, ref_size.
  rewrite (writable_str Hwrite), (writable_blob Hwrite), (writable_guid Hwrite).
  destruct (65535 <? stringPoolSize im), (65535 <? blobPoolSize im), (65535 / 3 <? _); split_and!; first [reflexivity | by vm_compute].
Qed.

(** What the image that is loaded has. *)
Record index_loaded (tb : Z -> list Z) (im' : ILImage) : Prop := {
  loaded_pools : same_pools im im';
  loaded_counts : forall t, 0 <= t < 64 -> tokenCount im' t = tokenCount im t;
  loaded_counts_ok : counts_ok im';
  loaded_rows : forall t, 0 <= t < 64 -> tokenCount im t <> 0 ->
    tokenSize im' t = tokenSize im t /\ exists rest, tokenStart im' t = tb t ++ rest /\ Forall is_byte rest
}.

Lemma loaded_row tb im' t i :
  index_loaded tb im' -> (forall t, 0 <= t < 64 -> present (token_flags im) t = true -> table_ok t (tb t)) ->
  0 <= t < 64 -> 0 <= i < tokenCount im t ->
  exists desc, FieldDescriptions !! Z.to_nat t = Some (Some desc) /\
    gives (S := S) (parse_row_fields im' (str_size im) (blob_size im) (guid_size im) desc (row_at im' t i)) (inr (row t i)).
Proof.
  intros [Hp Hc Hcok Hrows] Htb Ht Hi. destruct (Hrows t Ht) as (Hs & rest & Hstart & Hrest); [lia |].
  assert (present (token_flags im) t = true) as Hpt.
  { rewrite token_flags_present by done. unfold in_use.
    destruct (writable_types Hwrite t Ht) as [-> _]; [lia |]. by rewrite (proj2 (Z.eqb_neq _ _)) by lia. }
  destruct (in_use_writable t Ht Hpt) as (desc & data & Hdesc & Hsize & _).
  exists desc. split; [done |]. destruct (Htb t Ht Hpt) as (_ & _ & Hparse).
  pose proof (size_positive t desc Hdesc Hsize). pose proof (Hcounts t).
  unfold row_at. rewrite Hs, Hstart, ulong_small by nia.
  replace (i * tokenSize im t) with (tokenSize im t * (i - 0)) by lia.
  pose (im1 := set_ref_sizes im' (strRefBig im) (blobRefBig im) (guidRefBig im)).
  apply (Hparse desc Hdesc im1 i rest); [| exact Hcok | done | done].
  constructor; try done. intros t0 Ht0. apply Hc. lia.
Qed.

Lemma load_tables im0 tokenFlags tb :
  tokenFlags = token_flags im -> fresh_image im0 -> same_pools im im0 ->
  (forall t, 0 <= t < 64 -> present tokenFlags t = true -> table_ok t (tb t)) ->
  let index := write_counts all_types tokenFlags im ++ tables_bytes all_types tokenFlags tb in
  Z.of_nat (length index) < 2 ^ 32 ->
  exists im1 im2 im3,
    gives (S := S) (read_counts all_types tokenFlags im0 index (Z.of_nat (length index)))
      (inr (im1, tables_bytes all_types tokenFlags tb, Z.of_nat (length (tables_bytes all_types tokenFlags tb)))) /\
    gives (S := S) (read_sizes (str_size im) (blob_size im) (guid_size im) all_types tokenFlags im1)
      (inr (tokenFlags, im2)) /\
    gives (S := S) (read_starts all_types tokenFlags im2 (tables_bytes all_types tokenFlags tb)
      (Z.of_nat (length (tables_bytes all_types tokenFlags tb)))) (inr im3) /\
    index_loaded tb im3.
Proof.
  intros -> Hfresh Hsame Htb index Hlen. change all_types with (seqZ 0 (Z.of_nat 64)) in *.
  assert (Forall is_byte (tables_bytes (seqZ 0 (Z.of_nat 64)) (token_flags im) tb)) as Hbytes
    by (by apply tables_bytes_byte).
  destruct (read_counts_spec 64 0 (token_flags im) im0 _ ltac:(lia) Hbytes Hlen) as (im1 & E1 & S1 & C1).
  assert (forall t, 0 <= t < 64 -> tokenCount im1 t = tokenCount im t) as C1'.
  { intros t Ht. rewrite C1, bool_decide_eq_true_2, Hfresh by lia. by apply count_in_use. }
  destruct (read_sizes_spec (token_flags im) in_use_writable 64 0 im1) as (im2 & E2 & S2 & C2 & _ & Z2);
    [lia | lia | intros; apply C1'; lia |].
  destruct (read_starts_spec (token_flags im) in_use_writable 64 0 im2 tb []) as (im3 & E3 & S3 & C3 & Z3 & _ & T3);
    [lia | lia | | exact Z2 | exact Htb | done | |].
  { intros t Ht. rewrite C2, C1' by done. by rewrite count_in_use. }
  { rewrite app_nil_r. unfold index in Hlen. rewrite length_app in Hlen. lia. }
  rewrite app_nil_r in E3. exists im1, im2, im3. split; [exact E1 |]. split; [exact E2 |]. split; [exact E3 |].
  constructor.
  - etrans; [exact Hsame |]. etrans; [exact S1 |]. by etrans.
  - intros t Ht. by rewrite C3, C2, C1'.
  - intros t. rewrite C3, C2, C1. case_match; [apply Hcounts | rewrite Hfresh; lia].
  - intros t Ht Hn. assert (present (token_flags im) t = true) as Hpt.
    { rewrite token_flags_present by done. unfold in_use.
      destruct (writable_types Hwrite t Ht Hn) as [-> _]. by rewrite (proj2 (Z.eqb_neq _ _)) by done. }
    rewrite Z3, Z2 by done. split; [done |]. by apply T3.
Qed.

Lemma ref_size_four (big : bool) : (ref_size big =? 4) = big.
Proof. by destruct big. Qed.

(** Loading the stream. *)
Lemma parse_written_index im0 index sortedFlags tb loadFlags :
  fresh_image im0 -> same_pools im im0 -> 0 <= sortedFlags < 2 ^ 64 ->
  (forall t, 0 <= t < 64 -> present (token_flags im) t = true -> table_ok t (tb t)) ->
  index = index_header (size_flags im) (token_flags im) sortedFlags
          ++ write_counts all_types (token_flags im) im ++ tables_bytes all_types (token_flags im) tb ->
  gives (S := S) (ILImageGetMetaEntry (section im0) "#~") (Some index) -> Z.of_nat (length index) < 2 ^ 32 ->
  exists im', gives (S := S) (ParseMetaIndex im0 loadFlags) (inr im') /\ index_loaded tb im' /\
    strRefBig im' = strRefBig im /\ blobRefBig im' = blobRefBig im /\ guidRefBig im' = guidRefBig im.
Proof.
  intros Hfresh Hsame Hsorted Htb Eindex Hfind Hlen.
  destruct size_flags_read as (Hflags & Estr & Eblob & Eguid).
  set (tables := tables_bytes all_types (token_flags im) tb) in *.
  set (rest := write_counts all_types (token_flags im) im ++ tables) in *.
  assert (Forall is_byte rest) as Hrest.
  { apply Forall_app_2; [apply write_counts_byte |]. by apply (tables_bytes_byte 64 0). }
  destruct (header_reads (size_flags im) (token_flags im) sortedFlags rest Hflags token_flags_range Hsorted Hrest)
    as (H6 & H8 & H16 & Hdrop & Hl & _). rewrite <- Eindex in *.
  destruct (load_tables (set_counts im0 (tokenCount im0) sortedFlags) (token_flags im) tb)
    as (im1 & im2 & im3 & E1 & E2 & E3 & Hloaded); [done | exact Hfresh | exact Hsame | done | fold tables rest; lia |].
  fold tables in E1, E2, E3. fold rest in E1.
  exists (set_ref_sizes im3 (str_size im =? 4) (blob_size im =? 4) (guid_size im =? 4)).
  split; [| split; [by destruct Hloaded | cbn; unfold str_size, blob_size, guid_size; by rewrite !ref_size_four]].
  unfold ParseMetaIndex. eapply gives_bind; [exact Hfind |]. apply (gives_bind _ _ (Some index)); [apply gives_ret |].
  cbv beta iota zeta. rewrite (proj2 (Z.ltb_ge _ _)) by lia.
  eapply gives_bind; [apply gives_lift, H6 |]. eapply gives_bind; [apply gives_lift, H8 |].
  eapply gives_bind; [apply gives_lift, H16 |]. cbv zeta. rewrite Hdrop.
  replace (ulong (Z.of_nat (length index) - 24)) with (Z.of_nat (length rest)) by (rewrite ulong_small; lia).
  eapply gives_bind; [exact E1 |]. cbv beta iota. rewrite Estr, Eblob, Eguid.
  eapply gives_bind; [exact E2 |]. cbv beta iota. eapply gives_bind; [exact E3 |]. cbv beta iota.
  apply (gives_bind _ _ 0); [| apply gives_ret].
  destruct (negb (Z.land loadFlags _ =? 0)); [| apply gives_ret]. apply validate_types_gives. intros t Ht%elem_all_types.
  split; [lia |]. intros i Hi. rewrite (loaded_counts _ _ Hloaded) in Hi by done.
  destruct (loaded_row tb im3 t i Hloaded Htb Ht Hi) as (desc & Hdesc & Hrow). by exists desc, (row t i).
Qed.

Lemma type_token type rid :
  0 <= type < 64 -> 0 <= rid < 2 ^ 24 ->
  let token := Z.lor (Z.shiftl type 24) rid in
  tokenType token = type /\ tokenId token = rid /\ token < 0x40000000.
Proof.
  intros Ht Hr. cbv zeta. rewrite Z.shiftl_mul_pow2 by lia.
  rewrite (lor_disjoint 24) by (try lia; apply Z.mod_mul; lia).
  unfold tokenType, tokenId. change 0x00FFFFFF with (Z.ones 24).
  rewrite Z.shiftr_div_pow2, Z.land_ones by lia. lia.
Qed.

Lemma num_tokens_loaded im' type :
  0 <= type < 64 -> tokenCount im' type = tokenCount im type ->
  ILImageNumTokens im' (Z.shiftl type 24) = tokenCount im type.
Proof.
  intros Ht <-. destruct (type_token type 0 Ht) as (E & _ & Hb); [lia |]. rewrite Z.lor_0_r in *.
  unfold ILImageNumTokens. fold (tokenType (Z.shiftl type 24)). by rewrite (proj2 (Z.ltb_lt _ _)), E by done.
Qed.

Lemma raw_data_loaded tb im' type i :
  index_loaded tb im' -> (forall t, 0 <= t < 64 -> present (token_flags im) t = true -> table_ok t (tb t)) ->
  strRefBig im' = strRefBig im -> blobRefBig im' = blobRefBig im -> guidRefBig im' = guidRefBig im ->
  0 <= type < 64 -> 0 <= i < tokenCount im type ->
  gives (S := S) (_ILImageRawTokenData im' (Z.lor (Z.shiftl type 24) (i + 1))) (Some (row type i)).
Proof.
  intros Hloaded Htb E1 E2 E3 Ht Hi. pose proof (Hcounts type).
  destruct (type_token type (i + 1) Ht) as (Et & Ei & Hb); [lia |].
  destruct (loaded_row tb im' type i Hloaded Htb Ht Hi) as (desc & Hdesc & Hrow).
  unfold _ILImageRawTokenData. unfold valid_token. rewrite Et, Ei, (loaded_counts tb im' Hloaded) by done.
  rewrite (proj2 (Z.ltb_lt _ _)), !(proj2 (Z.leb_le _ _)) by lia. cbn [andb].
  eapply gives_bind; [apply description_gives; [lia | exact Hdesc] |].
  rewrite E1, E2, E3. replace (i + 1 - 1) with i by lia. eapply gives_bind; [exact Hrow | apply gives_ret].
Qed.

(** C13: an image whose items have rows that can be packed is written to an index that
    can be loaded again, with or without validation: every table has as many rows as
    before, and unpacking the row of a token gives the values its item was written
    with. *)
Theorem metadata_index_roundtrip values sortedFlags :
  0 <= sortedFlags < 2 ^ 64 ->
  exists index,
    gives (S := S) (write_index_stream format im sortedFlags values) (Some index) /\
    forall im0 loadFlags,
      fresh_image im0 -> same_pools im im0 ->
      gives (S := S) (ILImageGetMetaEntry (section im0) "#~") (Some index) -> Z.of_nat (length index) < 2 ^ 32 ->
      exists im', gives (S := S) (ParseMetaIndex im0 loadFlags) (inr im') /\
        forall type, 0 <= type < 64 ->
          ILImageNumTokens im' (Z.shiftl type 24) = tokenCount im type /\
          forall i, 0 <= i < tokenCount im type ->
          gives (S := S) (_ILImageRawTokenData im' (Z.lor (Z.shiftl type 24) (i + 1))) (Some (row type i)).
Proof.
  intros Hsorted.
  destruct (write_tables_spec 64 0 (token_flags im) values) as (tb & E & Htb); [lia | lia | exact in_use_writable |].
  eexists. split.
  { unfold write_index_stream. cbv zeta. eapply gives_bind; [exact E | apply gives_ret]. }
  intros im0 loadFlags Hfresh Hsame Hfind Hlen.
  destruct (parse_written_index im0 _ sortedFlags tb loadFlags Hfresh Hsame Hsorted Htb eq_refl Hfind Hlen)
    as (im' & Ep & Hloaded & E1 & E2 & E3).
  exists im'. split; [exact Ep |]. intros type Ht. split.
  - apply num_tokens_loaded; [done |]. by apply (loaded_counts tb).
  - intros i Hi. by apply (raw_data_loaded tb).
Qed.
End roundtrip.

(** ** An example *)

(** The module, the class and the field of [sample_metadata], and their formatter. *)
Definition sample_writer : ILImage :=
  mkImage (Some sample_metadata) true false false false 5 [0; 2; 6; 8] 4 0
    (fun type => if (type =? 0) || (type =? 2) || (type =? 4) then 1 else 0)
    (fun type => if type =? 0 then 10 else if type =? 2 then 14 else 6) (fun _ => [])
    (fun _ => Some [Some 1]) 0.
Definition sample_format (type item : Z) (values : list Z) : comp unit (list Z) :=
  mret (if type =? 0 then [0; 1; IL_MAX_UINT32; IL_MAX_UINT32; IL_MAX_UINT32]
        else if type =? 2 then [1; 3; 0; 0; 0x04000001; 0x06000001]
        else [6; 3; 1; 0; 0]).
Definition sample_row (type i : Z) : list Z :=
  if type =? 0 then [0; 1; IL_MAX_UINT32; IL_MAX_UINT32; IL_MAX_UINT32]
  else if type =? 2 then [1; 3; 0; 0; 0x04000001; 0]
  else [6; 3; 1; 2; 2].

Lemma sample_module_written :
  @row_written LP64 unit sample_writer Fields_Module (sample_row 0 0) (sample_row 0 0).
Proof.
  apply (written_cons _ UINT16_FIELD _ [0] _ [0]); [by exists 0 |].
  apply (written_cons _ STRREF_FIELD _ [1] _ [1]); [by exists 1 |].
  do 3 (apply (written_cons _ GUIDREF_FIELD _ [IL_MAX_UINT32] _ [IL_MAX_UINT32]);
    [exists IL_MAX_UINT32; split; [done |]; split; [done |]; by left |]).
  constructor.
Qed.

Lemma sample_class_written :
  @row_written LP64 unit sample_writer Fields_TypeDef [1; 3; 0; 0; 0x04000001; 0x06000001] (sample_row 2 0).
Proof.
  unfold Fields_TypeDef.
  apply (written_cons _ UINT32_FIELD _ [1] _ [1]); [by exists 1 |].
  apply (written_cons _ STRREF_FIELD _ [3] _ [3]); [by exists 3 |].
  apply (written_cons _ STRREF_FIELD _ [0] _ [0]); [by exists 0 |].
  apply (written_cons _ TypeDefRefOrSpec_Desc _ [0] _ [0]); [exists 0; auto |].
  apply (written_cons _ FIELD_FIELD _ [0x04000001] _ [0x04000001]);
    [exists 0x04000001, 0x04000001; split; [done |]; split; [done |]; by exists 1 |].
  apply (written_cons _ METHOD_FIELD _ [0x06000001] _ [0]); [| constructor].
  exists 0x06000001, 0. split; [done |]. split; [done |]. by exists 1.
Qed.

Lemma sample_field_written :
  @row_written LP64 unit sample_writer Fields_FieldDef [6; 3; 1; 0; 0] (sample_row 4 0).
Proof.
  apply (written_cons _ UINT16_FIELD _ [6] _ [6]); [by exists 6 |].
  apply (written_cons _ STRREF_FIELD _ [3] _ [3]); [by exists 3 |].
  apply (written_cons _ BLOBREF_FIELD [] [1; 0; 0] [] [1; 2; 2]); [| constructor].
  exists 1, 0, 0, 2, 2. split; [done |]. split; [done |]. split; [| done]. right. by exists [0], [6; 8], [].
Qed.

Lemma sample_table_writable type desc :
  FieldDescriptions !! Z.to_nat type = Some (Some desc) -> tokenCount sample_writer type = 1 ->
  tokenSize sample_writer type = fields_size sample_writer 2 2 2 desc ->
  (exists us post, sample_format type 1 [] tt = Done (us ++ post) tt /\
     @row_written LP64 unit sample_writer desc us (sample_row type 0)) ->
  @rows_writable LP64 unit sample_format sample_writer sample_row type.
Proof.
  intros Hdesc Hcount Hsize (us & post & Hus & Hw). exists desc, [Some 1].
  split; [done |]. split; [exact Hsize |]. split; [done |]. intros i Hi. rewrite Hcount in Hi.
  assert (i = 0) as -> by lia. exists 1. split; [done |]. intros values.
  exists (us ++ post). split; [| by exists us, post]. intros []. exact Hus.
Qed.

Lemma sample_index_writable : @index_writable LP64 unit sample_format sample_writer sample_row.
Proof.
  constructor; [done | done | done |]. intros type Ht Hn. cbn [tokenCount sample_writer] in Hn.
  assert (type = 0 \/ type = 2 \/ type = 4) as [-> | [-> | ->]].
  { destruct (Z.eqb_spec type 0), (Z.eqb_spec type 2), (Z.eqb_spec type 4); cbn in Hn; lia. }
  - split; [done |]. apply (sample_table_writable 0 Fields_Module); [done | done | done |].
    exists (sample_row 0 0), []. split; [done | exact sample_module_written].
  - split; [done |]. apply (sample_table_writable 2 Fields_TypeDef); [done | done | done |].
    exists [1; 3; 0; 0; 0x04000001; 0x06000001], []. split; [done | exact sample_class_written].
  - split; [done |]. apply (sample_table_writable 4 Fields_FieldDef); [done | done | done |].
    exists [6; 3; 1; 0; 0], []. split; [done | exact sample_field_written].
Qed.

(** It is the index of the example of MetaIndexSafe, and the section has it. *)
Lemma sample_index_written : write_index_stream sample_format sample_writer 0 [] tt = Done (Some sample_index) tt.
Proof. by vm_compute. Qed.
Lemma sample_index_found :
  let im0 := set_pools sample_metadata_image 5 [0; 2; 6; 8] 0 in
  fresh_image im0 /\ same_pools sample_writer im0 /\
  gives (S := unit) (@ILImageGetMetaEntry LP64 unit (section im0) "#~") (Some sample_index).
Proof. split; [done |]. split; [done |]. intros []. by vm_compute. Qed.

Lemma metadata_index_roundtrip_witness :
  exists index,
    gives (S := unit) (write_index_stream sample_format sample_writer 0 []) (Some index) /\
    forall im0 loadFlags,
      fresh_image im0 -> same_pools sample_writer im0 ->
      gives (S := unit) (@ILImageGetMetaEntry LP64 unit (section im0) "#~") (Some index) ->
      Z.of_nat (length index) < 2 ^ 32 ->
      exists im', gives (S := unit) (@ParseMetaIndex LP64 unit im0 loadFlags) (inr im') /\
        forall type, 0 <= type < 64 ->
          ILImageNumTokens im' (Z.shiftl type 24) = tokenCount sample_writer type /\
          forall i, 0 <= i < tokenCount sample_writer type ->
          gives (S := unit) (@_ILImageRawTokenData LP64 unit im' (Z.lor (Z.shiftl type 24) (i + 1)))
            (Some (sample_row type i)).
Proof.
  apply (@metadata_index_roundtrip LP64 unit sample_format sample_writer sample_row).
  - intros type. cbn. case_match; lia.
  - split; [done |]. split; [| done]. unfold is_byte. apply (bool_decide_unpack _). vm_compute. exact I.
  - by vm_compute.
  - exact sample_index_writable.
  - lia.
Defined.
