(* ===== verification/MetaTokens.v ===== *)
(** * MetaTokens: the items of the tokens

    The functions of src/gcc/cil/image/meta_index.c on the arrays [tokenData]: looking an
    item up, which loads it when it is not in memory, entering an item, searching a
    table, by bisection when it is sorted, and the sizes of the rows of an image that is
    written, which depend on the GUIDs of its modules. *)
From S2P Require Import Prelude Values ILMeta MetaCompress MetaHeader MetaIndex MetaIndexSafe MetaIndexRows MetaIndexWriter.

(** Token [i] of a table. *)
Definition tok (type i : Z) : Z := Z.lor (Z.shiftl type 24) i.

Lemma tok_sum type i : 0 <= i < 2 ^ 24 -> tok type i = type * 2 ^ 24 + i.
Proof.
  intros Hi. unfold tok. rewrite Z.shiftl_mul_pow2 by lia.
  apply (lor_disjoint 24); [lia | apply Z.mod_mul; lia | done].
Qed.

Section search.
Context (load : Z -> comp token_state (option Z)).
Context (type n : Z) (Htype : 0 <= type < 64) (Hn : 0 <= n < 0x00FFFFFF).
Context (isSorted : bool) (items : Z -> option Z).

(** The rows of the table have these items: the item of a row that is not in memory is
    what loading it gives, or there is none when the image is built. *)
Record table_items (st : token_state) : Prop := {
  items_count : tokenCount (image st) type = n;
  items_sorted : negb (Z.land (sorted (image st)) (Z.shiftl 1 type) =? 0) = isSorted;
  items_data : forall data, tokenData (image st) type = Some data ->
    n <= Z.of_nat (length data) /\
    forall i, 1 <= i <= n -> forall x, data !! Z.to_nat (i - 1) = Some (Some x) -> items i = Some x;
  items_built : building (image st) = true -> forall i, 1 <= i <= n -> items i <> None ->
    exists data, tokenData (image st) type = Some data /\ data !! Z.to_nat (i - 1) = Some (items i)
}.
Context (Hload : forall st i, table_items st -> 1 <= i <= n -> building (image st) = false ->
  exists st', load (tok type i) st = Done (items i) st' /\ table_items st').

Lemma tok_parts i : 0 <= i <= n -> tokenType (tok type i) = type /\ tokenId (tok type i) = i /\ tok type i < 0x40000000.
Proof. intros Hi. apply type_token; lia. Qed.

Lemma tok_valid st i : table_items st -> 1 <= i <= n -> valid_token (image st) (tok type i) = true.
Proof.
  intros Hst Hi. destruct (tok_parts i) as (Et & Ei & Hb); [lia |]. unfold valid_token.
  rewrite Et, Ei, (items_count _ Hst). rewrite !andb_true_iff, Z.ltb_lt, !Z.leb_le. lia.
Qed.

(** The item in memory is that of the row, or there is none. *)
Lemma loaded_item_run st i :
  table_items st -> 1 <= i <= n ->
  exists r, loaded_item (tok type i) st = Done r st /\
    (r = items i \/ r = None /\ (building (image st) = true -> items i = None)).
Proof.
  intros Hst Hi. destruct (tok_parts i) as (Et & Ei & _); [lia |]. unfold loaded_item, get, mbind, comp_bind.
  rewrite Et, Ei. destruct (tokenData (image st) type) as [data |] eqn:Ed.
  - destruct (items_data _ Hst data Ed) as [Hl Hx].
    destruct (lookup_lt_is_Some_2 data (Z.to_nat (i - 1))) as [r Er]; [lia |].
    exists r. unfold array_get. rewrite (proj2 (Z.leb_le _ _)), Er by lia. split; [done |].
    destruct r as [x |]; [left; by rewrite (Hx i Hi x Er) |]. right. split; [done |]. intros Hb.
    destruct (items i) as [x |] eqn:Ex; [| done].
    destruct (items_built _ Hst Hb i Hi) as (data' & Ed' & Ei'); [by rewrite Ex |]. congruence.
  - exists None. split; [done |]. right. split; [done |]. intros Hb.
    destruct (items i) as [x |] eqn:Ex; [| done].
    destruct (items_built _ Hst Hb i Hi) as (data' & Ed' & Ei'); [by rewrite Ex |]. congruence.
Qed.

Lemma token_info_run st i :
  table_items st -> 1 <= i <= n ->
  exists st', ILImageTokenInfo load (tok type i) st = Done (items i) st' /\ table_items st'.
Proof.
  intros Hst Hi. destruct (loaded_item_run st i Hst Hi) as (r & Er & Hr).
  unfold ILImageTokenInfo. rewrite (bind_done (get image) _ st (image st) st eq_refl), tok_valid by done.
  rewrite (bind_done _ _ _ _ _ Er). destruct r as [x |].
  - destruct Hr as [<- | [? _]]; [| done]. by exists st.
  - destruct (building (image st)) eqn:Hb; [| by apply Hload].
    exists st. split; [| done]. destruct Hr as [<- | [_ Hr]]; [done |]. by rewrite Hr.
Qed.

Context (compareFunc : Z -> comp token_state Z) (cmp : Z -> Z).
Context (Hcompare : forall item st, compareFunc item st = Done (cmp item) st).

Lemma search_item_run data st i :
  table_items st -> 1 <= i <= n ->
  exists st', search_item load data (tok type i) st = Done (items i) st' /\ table_items st'.
Proof.
  intros Hst Hi. unfold search_item. destruct data; [| by apply token_info_run].
  destruct (loaded_item_run st i Hst Hi) as (r & Er & Hr). rewrite (bind_done _ _ _ _ _ Er).
  destruct r as [x |]; [| by apply token_info_run]. destruct Hr as [<- | [? _]]; [by exists st | done].
Qed.

(** Row [i] is one that the search looks for. *)
Definition matches (i x : Z) : Prop := items i = Some x /\ cmp x = 0.

(** The result of a search of the rows from [lo] to [hi]. *)
Definition search_ok (lo hi : Z) (r : option Z) : Prop :=
  match r with
  | Some x => exists i, lo <= i <= hi /\ matches i x
  | None => forall i x, lo <= i <= hi -> ~ matches i x
  end.

Lemma next_tok i : 0 <= i <= n -> uint32 (tok type i + 1) = tok type (i + 1).
Proof. intros Hi. rewrite !tok_sum by lia. unfold uint32. rewrite to_unsigned_small; lia. Qed.

Lemma linear_search_run data m i st :
  table_items st -> 1 <= i -> i + Z.of_nat m = n + 1 ->
  exists r st', linear_search load compareFunc m data (tok type i) st = Done r st' /\ table_items st' /\
    search_ok i n r.
Proof.
  revert i st. induction m as [| m IH]; intros i st Hst H1 Hm.
  { exists None, st. split; [done |]. split; [done |]. intros j x Hj. lia. }
  destruct (search_item_run data st i Hst) as (st1 & E1 & Hst1); [lia |].
  cbn [linear_search]. rewrite (bind_done _ _ _ _ _ E1), next_tok by lia.
  destruct (IH (i + 1) st1 Hst1) as (r & st' & E & Hst' & Hr); [lia | lia |].
  assert (items i = None \/ (exists x, items i = Some x /\ cmp x <> 0) ->
          exists r st', linear_search load compareFunc m data (tok type (i + 1)) st1 = Done r st' /\
            table_items st' /\ search_ok i n r) as Hskip.
  { intros Hi. exists r, st'. split; [done |]. split; [done |]. destruct r as [x |]; cbn [search_ok] in *.
    - destruct Hr as (j & Hj & Hm'). exists j. split; [lia | done].
    - intros j x Hj [Hjx Hz]. destruct (decide (j = i)) as [-> |]; [| by apply (Hr j x); [lia | split]].
      destruct Hi as [Hi | (y & Hy & Hz')]; congruence. }
  destruct (items i) as [x |] eqn:Ei; [| apply Hskip; by left].
  rewrite (bind_done _ _ _ _ _ (Hcompare x st1)). destruct (Z.eqb_spec (cmp x) 0) as [Hz |].
  - exists (Some x), st1. split; [done |]. split; [done |]. exists i. split; [lia | by split].
  - apply Hskip. right. eauto.
Qed.

(** The items are in the order of the comparison. *)
Definition ordered : Prop :=
  forall i j x y, 1 <= i < j -> j <= n -> items i = Some x -> items j = Some y -> Z.sgn (cmp x) <= Z.sgn (cmp y).

Lemma binary_search_run fuel lo hi st :
  ordered -> table_items st -> 1 <= lo -> hi <= n -> lo <= hi + 1 -> hi - lo + 1 < Z.of_nat fuel ->
  exists r st', binary_search load compareFunc fuel (tok type lo) (tok type hi) st = Done r st' /\ table_items st' /\
    match r with
    | Found x => exists i, 1 <= i <= n /\ matches i x
    | Absent => forall i x, lo <= i <= hi -> ~ matches i x
    | Gap => True
    end.
Proof.
  intros Hord. revert lo hi st. induction fuel as [| fuel IH]; intros lo hi st Hst Hlo Hhi Hle Hf; [lia |].
  cbn [binary_search]. rewrite !tok_sum by lia. destruct (Z.ltb_spec (type * 2 ^ 24 + hi) (type * 2 ^ 24 + lo)).
  { exists Absent, st. split; [done |]. split; [done |]. intros; lia. }
  cbv zeta. set (mid := (lo + hi) / 2).
  assert (uint32 (type * 2 ^ 24 + lo + (type * 2 ^ 24 + hi)) / 2 = tok type mid) as ->.
  { rewrite tok_sum by lia. unfold uint32. rewrite to_unsigned_small by lia. lia. }
  assert (lo <= mid <= hi) as Hmid by lia.
  destruct (token_info_run st mid Hst) as (st1 & E1 & Hst1); [lia |]. rewrite (bind_done _ _ _ _ _ E1).
  destruct (items mid) as [x |] eqn:Em; [| exists Gap, st1; by split].
  rewrite (bind_done _ _ _ _ _ (Hcompare x st1)). destruct (Z.eqb_spec (cmp x) 0) as [Hz | Hz].
  { exists (Found x), st1. split; [done |]. split; [done |]. exists mid. split; [lia | by split]. }
  rewrite <- (tok_sum type hi), <- (tok_sum type lo) by lia.
  destruct (Z.ltb_spec (cmp x) 0).
  - rewrite next_tok by lia.
    destruct (IH (mid + 1) hi st1 Hst1) as (r & st' & E & Hst' & Hr); [lia | lia | lia | lia |].
    exists r, st'. split; [exact E |]. split; [done |]. destruct r as [y | |]; [done | | done].
    intros i y Hi [Hy Hyz]. destruct (Z.lt_trichotomy i mid) as [Hlt | [-> | Hgt]]; [| congruence |].
    + pose proof (Hord i mid y x ltac:(lia) ltac:(lia) Hy Em). lia.
    + apply (Hr i y); [lia | by split].
  - assert (uint32 (tok type mid - 1) = tok type (mid - 1)) as ->.
    { rewrite !tok_sum by lia. unfold uint32. rewrite to_unsigned_small; lia. }
    destruct (IH lo (mid - 1) st1 Hst1) as (r & st' & E & Hst' & Hr); [lia | lia | lia | lia |].
    exists r, st'. split; [exact E |]. split; [done |]. destruct r as [y | |]; [done | | done].
    intros i y Hi [Hy Hyz]. destruct (Z.lt_trichotomy i mid) as [Hlt | [-> | Hgt]]; [| congruence |].
    + apply (Hr i y); [lia | by split].
    + pose proof (Hord mid i x y ltac:(lia) ltac:(lia) Em Hy). lia.
Qed.

(** C35: searching a table comes to an end with an item that compares equal, and with
    none only if no row has one, whether the items are in memory or have to be loaded,
    and whether the table is searched in order or by bisection; a table that is
    marked as sorted has to be in the order of the comparison. *)
Theorem search_for_token_correct st :
  table_items st -> (isSorted = true -> ordered) ->
  exists r st', ILImageSearchForToken load compareFunc (Z.shiftl type 24) st = Done r st' /\
    table_items st' /\ search_ok 1 n r.
Proof.
  intros Hst Hord. destruct (tok_parts 0) as (Et & _ & _); [lia |]. unfold tok, tokenType in Et. rewrite Z.lor_0_r in Et.
  unfold ILImageSearchForToken. rewrite (bind_done (get image) _ st (image st) st eq_refl). cbv zeta. unfold count.
  rewrite Et, (items_count _ Hst), (items_sorted _ Hst). fold (tok type 1) (tok type n).
  assert (uint32 (tok type n) = tok type n) as ->.
  { rewrite tok_sum by lia. unfold uint32. apply to_unsigned_small; lia. }
  set (m := Z.to_nat (tok type n - tok type 1 + 1)).
  assert (m = Z.to_nat n) as Em by (subst m; rewrite !tok_sum by lia; lia).
  set (data := bool_decide _).
  assert (forall st, table_items st -> exists r st', linear_search load compareFunc m data (tok type 1) st = Done r st' /\
            table_items st' /\ search_ok 1 n r) as Hlinear.
  { intros st0 Hst0. apply linear_search_run; [done | lia | lia]. }
  destruct isSorted eqn:Es; [| by apply Hlinear].
  destruct (binary_search_run (Datatypes.S m) 1 n st) as (r & st1 & E & Hst1 & Hr);
    [by apply Hord | done | lia | lia | lia | lia |].
  rewrite (bind_done _ _ _ _ _ E). destruct r as [x | |].
  - exists (Some x), st1. done.
  - exists None, st1. done.
  - by apply Hlinear.
Qed.
End search.

(** ** Entering items *)

Section set_token.
Context `{Host} (load : Z -> comp token_state (option Z)).

(** A table of an image that is built is the list of its items; its array grows by 64
    entries at a time. *)
Record built_table (type : Z) (l : list Z) (st : token_state) : Prop := {
  built_count : tokenCount (image st) type = Z.of_nat (length l);
  built_small : Z.of_nat (length l) < 0x00FFFFFF;
  built_data : l = [] \/ exists data, tokenData (image st) type = Some data /\
    Z.of_nat (length data) = 64 * ((Z.of_nat (length l) + 63) / 64) /\
    forall i x, l !! i = Some x -> data !! i = Some (Some x)
}.

Lemma built_lookup type l st i :
  0 <= type < 64 -> building (image st) = true -> built_table type l st -> 1 <= i <= Z.of_nat (length l) ->
  ILImageTokenInfo load (tok type i) st = Done (l !! Z.to_nat (i - 1)) st.
Proof.
  intros Ht Hb [Hc Hs Hd] Hi. destruct (type_token type i Ht) as (Et & Ei & Hlt); [lia |].
  fold (tok type i) in Et, Ei, Hlt. destruct Hd as [-> | (data & Ed & Hl & Hx)]; [cbn in Hi; lia |].
  unfold ILImageTokenInfo. rewrite (bind_done (get image) _ st (image st) st eq_refl).
  assert (valid_token (image st) (tok type i) = true) as ->.
  { unfold valid_token. rewrite Et, Ei, Hc, !andb_true_iff, Z.ltb_lt, !Z.leb_le. lia. }
  destruct (lookup_lt_is_Some_2 l (Z.to_nat (i - 1))) as [x Ex]; [lia |]. rewrite Ex.
  eapply bind_run.
  { unfold loaded_item. rewrite (bind_done (get image) _ st (image st) st eq_refl), Et, Ed, Ei.
    unfold array_get. rewrite (proj2 (Z.leb_le _ _)), (Hx _ _ Ex) by lia. reflexivity. }
  reflexivity.
Qed.

(** The array, with room for one more item. *)
Lemma built_room type l st :
  0 <= type < 64 -> built_table type l st ->
  let im := image st in
  let count := tokenCount im type in
  let data := if Z.land count 0x3F =? 0 then Some (resize (Z.to_nat (count + 64)) None (default [] (tokenData im type)))
              else tokenData im type in
  exists d, data = Some d /\ Z.of_nat (length d) = 64 * ((Z.of_nat (length l) + 1 + 63) / 64) /\
    forall i x, l !! i = Some x -> d !! i = Some (Some x).
Proof.
  intros Ht [Hc Hs Hd] im count. subst im count. rewrite Hc.
  rewrite (Z.land_ones (Z.of_nat (length l)) 6 ltac:(lia) : Z.land (Z.of_nat (length l)) 0x3F = _).
  change (2 ^ 6) with 64.
  destruct (Z.eqb_spec (Z.of_nat (length l) mod 64) 0) as [Hz | Hz].
  - eexists. split; [done |]. rewrite length_resize. split; [lia |]. intros i x Hx.
    destruct Hd as [-> | (data & -> & Hl & Hdx)]; [done |]. change (default [] (Some data)) with data.
    pose proof (lookup_lt_Some _ _ _ Hx). pose proof (Hdx i x Hx) as Hi. pose proof (lookup_lt_Some _ _ _ Hi).
    rewrite lookup_resize by lia. done.
  - destruct Hd as [-> | (data & Ed & Hl & Hdx)]; [done |]. exists data. split; [done |]. split; [lia | done].
Qed.

(** Whatever happens to another table. *)
Lemma built_other type t l st st' :
  t <> type -> tokenCount (image st') t = tokenCount (image st) t ->
  tokenData (image st') t = tokenData (image st) t -> built_table t l st -> built_table t l st'.
Proof. intros Hne Ec Ed [Hc Hs Hd]. constructor; [congruence | done | by rewrite Ed]. Qed.

(** C36: entering an item in an image that is built appends it to its table: it gets
    the next token of its kind, all items of the table are found under their
    tokens, and the other tables and the tokens of the other items stay. *)
Theorem set_token_appends type l item token st :
  0 <= type < 64 -> building (image st) = true -> built_table type l st ->
  Z.of_nat (length l) + 1 < 0x00FFFFFF ->
  exists st',
    _ILImageSetToken item token (Z.shiftl type 24) st = Done true st' /\
    building (image st') = true /\ built_table type (l ++ [item]) st' /\
    item_token st' = array_set (item_token st) item (tok type (Z.of_nat (length l) + 1)) /\
    (forall t l', t <> type -> built_table t l' st -> built_table t l' st') /\
    forall i, 1 <= i <= Z.of_nat (length l) + 1 ->
      ILImageTokenInfo load (tok type i) st' = Done ((l ++ [item]) !! Z.to_nat (i - 1)) st'.
Proof.
  intros Ht Hb Hl Hroom. destruct (built_room type l st Ht Hl) as (d & Ed & Hd & Hdx).
  pose proof (built_count _ _ _ Hl) as Hc.
  destruct (type_token type 0 Ht) as (Et & _ & _); [lia |]. unfold tokenType in Et. rewrite Z.lor_0_r in Et.
  set (im := image st) in *. set (n := Z.of_nat (length l)) in *.
  set (data := <[Z.to_nat n := Some item]> d).
  set (st' := mkTokens (set_token_count (set_data (if Z.land n 0x3F =? 0 then set_data im type d else im) type data) type (n + 1))
                (array_set (item_token st) item (tok type (n + 1)))).
  exists st'.
  assert (_ILImageSetToken item token (Z.shiftl type 24) st = Done true st') as Erun.
  { unfold _ILImageSetToken. rewrite (bind_done (get image) _ st im st eq_refl), Hb. cbn [negb]. cbv zeta.
    rewrite Et, Hc, ulong_small by lia. fold n.
    assert (uint32 (Z.lor (Z.shiftl type 24) (n + 1)) = tok type (n + 1)) as ->.
    { fold (tok type (n + 1)). rewrite tok_sum by lia. unfold uint32. rewrite to_unsigned_small; lia. }
    rewrite Hc in Ed. fold n in Ed.
    assert (0 <= n < Z.of_nat (length d)) as Hroom' by lia.
    assert (forall im1, tokenData im1 type = Some d ->
      store_item type n item (mkTokens im1 (array_set (item_token st) item (tok type (n + 1))))
      = Done tt (mkTokens (set_data im1 type data) (array_set (item_token st) item (tok type (n + 1))))) as Hstore.
    { intros im1 E1. unfold store_item, mbind, comp_bind, get. cbn [image]. rewrite E1.
      by rewrite (proj2 (Z.leb_le _ _)), (proj2 (Z.ltb_lt _ _)) by lia. }
    unfold modify, mbind, comp_bind, get, mret, comp_ret. cbn [set_item_token image item_token]. fold im.
    destruct (Z.land n 0x3F =? 0).
    - injection Ed as Ed. rewrite Ed. unfold set_image. cbn [item_token].
      rewrite Hstore by (cbn; unfold array_set; by rewrite Z.eqb_refl). reflexivity.
    - change (set_item_token _ _ _) with (mkTokens im (array_set (item_token st) item (tok type (n + 1)))). rewrite (Hstore im Ed). reflexivity. }
  assert (building (image st') = true) as Hb' by (cbn; destruct (Z.land n 0x3F =? 0); exact Hb).
  assert (built_table type (l ++ [item]) st') as Hl'.
  { constructor.
    - rewrite length_app. cbn. unfold array_set. rewrite Z.eqb_refl. lia.
    - rewrite length_app. cbn. lia.
    - right. exists data. split; [cbn; unfold array_set; by rewrite Z.eqb_refl |].
      subst data. rewrite length_insert, Hd, length_app. split; [cbn; lia |].
      intros i x Hx. destruct (decide (i = length l)) as [-> |].
      + rewrite list_lookup_middle in Hx by done. injection Hx as <-. subst n. rewrite Nat2Z.id.
        apply list_lookup_insert_eq. lia.
      + pose proof (lookup_lt_Some _ _ _ Hx) as Hi. rewrite length_app in Hi. cbn in Hi.
        rewrite lookup_app_l in Hx by lia. rewrite list_lookup_insert_ne by lia. by apply Hdx. }
  split; [exact Erun |]. split; [exact Hb' |]. split; [exact Hl' |]. split; [done |]. split.
  - intros t l' Hne. apply (built_other type); [done | |]; cbn; unfold array_set;
      rewrite ?(proj2 (Z.eqb_neq _ _)) by done; destruct (Z.land n 0x3F =? 0); cbn; unfold array_set;
      by rewrite ?(proj2 (Z.eqb_neq _ _)) by done.
  - intros i Hi. apply built_lookup; [done | done | done |]. rewrite length_app. cbn. lia.
Qed.

(** An item that is loaded is found under its token, and keeps a token it had. *)
Theorem set_token_loaded item token kind st :
  0 <= token -> building (image st) = false -> valid_token (image st) token = true ->
  (forall data, tokenData (image st) (tokenType token) = Some data ->
     Z.of_nat (length data) = tokenCount (image st) (tokenType token)) ->
  exists st',
    _ILImageSetToken item token kind st = Done true st' /\
    item_token st' item = (if item_token st item =? 0 then uint32 token else item_token st item) /\
    ILImageTokenInfo load token st' = Done (Some item) st'.
Proof.
  intros H0 Hb Hv Hlen. set (im := image st) in *. set (type := tokenType token) in *.
  assert (1 <= tokenId token <= tokenCount im type) as Hid.
  { unfold valid_token in Hv. rewrite !andb_true_iff, !Z.leb_le in Hv. fold type in Hv. lia. }
  set (d := default (replicate (Z.to_nat (tokenCount im type)) None) (tokenData im type)).
  assert (Z.of_nat (length d) = tokenCount im type) as Hd.
  { subst d. destruct (tokenData im type) as [data |] eqn:E; [by apply Hlen |].
    change (default _ None) with (replicate (Z.to_nat (tokenCount im type)) (None : option Z)).
    rewrite length_replicate. lia. }
  set (tokens := if item_token st item =? 0 then array_set (item_token st) item (uint32 token) else item_token st).
  set (im1 := match tokenData im type with Some _ => im | None => set_data im type d end).
  assert (tokenData im1 type = Some d) as E1.
  { subst im1 d. destruct (tokenData im type) as [data |] eqn:E; [done |]. cbn. unfold array_set. by rewrite Z.eqb_refl. }
  set (im2 := set_data im1 type (<[Z.to_nat (tokenId token - 1) := Some item]> d)).
  exists (mkTokens im2 tokens). split; [| split].
  - unfold _ILImageSetToken. rewrite (bind_done (get image) _ st im st eq_refl), Hb. cbn [negb].
    rewrite (bind_done (get _) _ st (item_token st item) st eq_refl).
    rewrite (bind_done _ _ st tt (mkTokens im tokens)) by
      (subst tokens; destruct (item_token st item =? 0); [done | by destruct st]).
    rewrite Hv. fold type. rewrite (bind_done _ _ _ tt (mkTokens im1 tokens)) by
      (subst im1 d; destruct (tokenData im type); done).
    unfold store_item. unfold mbind, comp_bind, get. cbn [image]. rewrite E1.
    by rewrite (proj2 (Z.leb_le _ _)), (proj2 (Z.ltb_lt _ _)) by lia.
  - cbn. subst tokens. destruct (item_token st item =? 0); [| done]. unfold array_set. by rewrite Z.eqb_refl.
  - assert (tokenCount im2 = tokenCount im) as Ec by (subst im2 im1; by destruct (tokenData im type)).
    unfold ILImageTokenInfo. rewrite (bind_done (get image) _ (mkTokens im2 tokens) im2 (mkTokens im2 tokens) eq_refl).
    assert (valid_token im2 token = true) as -> by (unfold valid_token in *; by rewrite Ec).
    apply (bind_run _ _ _ (Some item) (mkTokens im2 tokens)); [| reflexivity]. unfold loaded_item.
    rewrite (bind_done (get image) _ (mkTokens im2 tokens) im2 (mkTokens im2 tokens) eq_refl). fold type.
    assert (tokenData im2 type = Some (<[Z.to_nat (tokenId token - 1) := Some item]> d)) as ->
      by (cbn; unfold array_set; by rewrite Z.eqb_refl).
    unfold array_get. rewrite (proj2 (Z.leb_le _ _)), list_lookup_insert_eq by lia. reflexivity.
Qed.
End set_token.

(** ** The sizes of an image that is written *)

Section sizes.
Context `{Host} (load : Z -> comp token_state (option Z)).
Context (ILModule_MVID ILModule_EncId ILModule_EncBaseId : Z -> bool).

(** The GUIDs of some modules. *)
Definition guids_of (modules : list Z) : Z :=
  foldr (fun m n => Z.b2z (ILModule_MVID m) + Z.b2z (ILModule_EncId m) + Z.b2z (ILModule_EncBaseId m) + n) 0 modules.

(** The modules of an image that is built, each with its token. *)
Definition built_modules (modules : list Z) (st : token_state) : Prop :=
  building (image st) = true /\ built_table 0 modules st /\
  forall i m, modules !! i = Some m -> item_token st m = tok 0 (Z.of_nat i + 1).

Lemma token_info_behind type l st :
  0 <= type < 64 -> built_table type l st ->
  ILImageTokenInfo load (tok type (Z.of_nat (length l) + 1)) st = Done None st.
Proof.
  intros Ht [Hc Hs _]. destruct (type_token type (Z.of_nat (length l) + 1) Ht) as (Et & Ei & Hlt); [lia |].
  unfold ILImageTokenInfo. rewrite (bind_done (get image) _ st (image st) st eq_refl).
  unfold valid_token. unfold tok. rewrite Et, Ei, Hc. rewrite (proj2 (Z.leb_gt (_ + 1) _)), andb_false_r by lia. done.
Qed.

Lemma next_module l1 l2 st :
  built_modules (l1 ++ l2) st ->
  ILImageNextToken load IL_META_TOKEN_MODULE (last l1) st = Done (head l2) st.
Proof.
  intros (Hb & Hl & Htok). pose proof (built_small _ _ _ Hl) as Hs.
  assert (ILImageTokenInfo load (tok 0 (Z.of_nat (length l1) + 1)) st = Done (head l2) st) as Hnext.
  { destruct l2 as [| m l2].
    - rewrite app_nil_r in *. by apply token_info_behind.
    - rewrite (built_lookup load 0 (l1 ++ m :: l2)) by (done || rewrite ?length_app; cbn; lia).
      replace (Z.to_nat (Z.of_nat (length l1) + 1 - 1)) with (length l1) by lia. by rewrite list_lookup_middle. }
  destruct l1 as [| m l1 _] using rev_ind; [exact Hnext |].
  rewrite last_snoc. cbn [ILImageNextToken].
  rewrite (bind_done (get _) _ st (item_token st m) st eq_refl).
  rewrite (Htok (length l1) m) by (rewrite <- app_assoc; by apply list_lookup_middle).
  rewrite !length_app in *. cbn [length] in *.
  assert (uint32 (tok 0 (Z.of_nat (length l1) + 1) + 1) = tok 0 (Z.of_nat (length l1 + 1) + 1)) as ->; [| exact Hnext].
  rewrite !tok_sum by lia. unfold uint32. rewrite to_unsigned_small; lia.
Qed.

Lemma count_guids_run fuel l1 l2 n st :
  built_modules (l1 ++ l2) st -> (length l2 < fuel)%nat -> 0 <= n -> n + 3 * Z.of_nat (length l2) < 2 ^ 32 ->
  count_guids load ILModule_MVID ILModule_EncId ILModule_EncBaseId fuel (last l1) n st = Done (n + guids_of l2) st.
Proof.
  revert l1 l2 n. induction fuel as [| fuel IH]; intros l1 l2 n Hm Hf H0 Hn; [lia |].
  cbn [count_guids]. rewrite (bind_done _ _ _ _ _ (next_module l1 l2 st Hm)).
  destruct l2 as [| m l2]; cbn [head hd_error]; [by rewrite Z.add_0_r |].
  unfold guids_of in *. cbn [foldr length] in *.
  assert (forall b, 0 <= Z.b2z b <= 1) as Hb by (intros []; cbn; lia).
  pose proof (Hb (ILModule_MVID m)). pose proof (Hb (ILModule_EncId m)). pose proof (Hb (ILModule_EncBaseId m)).
  rewrite ulong_small by lia.
  rewrite <- (last_snoc m l1) at 1. rewrite (IH (l1 ++ [m]) l2); [f_equal; lia | | lia | lia | lia].
  by rewrite <- app_assoc.
Qed.

Lemma set_sizes_run a b c n k im st :
  0 <= k -> k + Z.of_nat n = 64 ->
  exists im', set_sizes a b c (seqZ k (Z.of_nat n)) im st = Done im' st /\
    same_pools im im' /\ tokenCount im' = tokenCount im /\ tokenData im' = tokenData im /\
    strRefBig im' = strRefBig im /\ blobRefBig im' = blobRefBig im /\ guidRefBig im' = guidRefBig im /\
    (forall t, 0 <= t < k -> tokenSize im' t = tokenSize im t) /\
    (forall t desc, k <= t < 64 -> FieldDescriptions !! Z.to_nat t = Some desc ->
       tokenSize im' t = uchar (TokenSize im a b c desc)).
Proof.
  revert k im. induction n as [| n IH]; intros k im Hk Hn.
  { exists im. rewrite seqZ_nil by lia. split; [done |]. split; [done |]. split_and!; auto; intros; lia. }
  rewrite seqZ_step. cbn [set_sizes]. destruct (descriptions_in_range k) as [desc Hdesc]; [lia |].
  rewrite (bind_done _ _ _ _ _ (description_gives k desc Hk Hdesc st)).
  destruct (IH (Z.succ k) (set_size im k (uchar (TokenSize im a b c desc))))
    as (im' & E & Hsame & Hc & Hd & E1 & E2 & E3 & Hlow & Hhigh); [lia | lia |].
  exists im'. split; [exact E |]. split; [exact Hsame |]. split_and!; try done.
  - intros t Ht. rewrite Hlow by lia. cbn. unfold array_set. by rewrite (proj2 (Z.eqb_neq _ _)) by lia.
  - intros t desc' Ht Hdesc'. destruct (decide (t = k)) as [-> |]; [| by apply (Hhigh t desc'); [lia |]].
    rewrite Hlow by lia. cbn. unfold array_set. rewrite Z.eqb_refl. congruence.
Qed.

Lemma two_or_four (big : bool) : (if big then 4 else 2) = 2 \/ (if big then 4 else 2) = 4.
Proof. destruct big; [by right | by left]. Qed.

(** Before an image is written, the widths of its references are computed from the
    sizes of the pools and the number of GUIDs of the modules, and the sizes of the rows
    of all tables from them. *)
Theorem compute_token_sizes_spec modules st :
  built_modules modules st ->
  exists st', _ILImageComputeTokenSizes load ILModule_MVID ILModule_EncId ILModule_EncBaseId st = Done tt st' /\
    item_token st' = item_token st /\ same_pools (image st) (image st') /\
    tokenCount (image st') = tokenCount (image st) /\ tokenData (image st') = tokenData (image st) /\
    strRefBig (image st') = (0xFFFF <? stringPoolSize (image st)) /\
    blobRefBig (image st') = (0xFFFF <? blobPoolSize (image st)) /\
    guidRefBig (image st') = (0xFFFF <? guids_of modules) /\
    forall type desc, 0 <= type < 64 -> FieldDescriptions !! Z.to_nat type = Some (Some desc) ->
      tokenSize (image st') type
      = fields_size (image st') (str_size (image st')) (blob_size (image st')) (guid_size (image st')) desc.
Proof.
  intros Hm. pose proof Hm as (Hb & Hl & _). pose proof (built_count _ _ _ Hl) as Hc. pose proof (built_small _ _ _ Hl).
  unfold _ILImageComputeTokenSizes. set (im := image st) in *. cbv zeta.
  rewrite (bind_done (get image) _ st im st eq_refl).
  change (count im IL_META_TOKEN_MODULE) with (tokenCount im 0). rewrite Hc.
  rewrite (bind_done _ _ _ _ _ (count_guids_run (Datatypes.S (Z.to_nat (Z.of_nat (length modules)))) [] modules 0 st Hm ltac:(lia) ltac:(lia) ltac:(lia))).
  rewrite (bind_done (get image) _ st im st eq_refl). rewrite Z.add_0_l.
  set (a := if 0xFFFF <? stringPoolSize im then 4 else 2). set (b := if 0xFFFF <? blobPoolSize im then 4 else 2).
  set (c := if 0xFFFF <? guids_of modules then 4 else 2).
  assert ((a =? 4) = (0xFFFF <? stringPoolSize im) /\ (b =? 4) = (0xFFFF <? blobPoolSize im) /\
          (c =? 4) = (0xFFFF <? guids_of modules)) as (Ea & Ec & Eg).
  { subst a b c. by destruct (0xFFFF <? stringPoolSize im), (0xFFFF <? blobPoolSize im), (0xFFFF <? guids_of modules). }
  destruct (set_sizes_run a b c 64 0 (set_ref_sizes im (a =? 4) (b =? 4) (c =? 4)) st)
    as (im' & E & Hsame & Hct & Hd & E1 & E2 & E3 & _ & Hsz); [lia | lia |].
  cbn in Hct, Hd, E1, E2, E3. change (seqZ 0 (Z.of_nat 64)) with all_types in E.
  rewrite (bind_done _ _ _ _ _ E). exists (set_image im' st). split; [done |]. cbn [image set_image item_token].
  split_and!; try congruence; [exact Hsame |]. intros type desc Ht Hdesc.
  rewrite (Hsz type (Some desc)) by (done || lia). cbn [TokenSize].
  assert (str_size im' = a /\ blob_size im' = b /\ guid_size im' = c) as (-> & -> & ->).
  { unfold str_size, blob_size, guid_size. rewrite E1, E2, E3, Ea, Ec, Eg. unfold ref_size. repeat split; reflexivity. }
  pose proof (description_ok _ _ Hdesc) as Hok.
  pose proof (token_size_fits a b c (two_or_four _) (two_or_four _) (two_or_four _)
    (set_ref_sizes im (a =? 4) (b =? 4) (c =? 4)) desc Hok).
  unfold uchar. rewrite to_unsigned_small by lia. symmetry. apply fields_size_agree; [| by apply desc_fields_ok].
  intros t _. by rewrite Hct.
Qed.
End sizes.

(** ** Examples *)

(** A sorted table of three rows, the second of which has to be loaded. *)
Definition sample_tokens : token_state :=
  mkTokens
    (mkImage None false false false false 0 [] 0 0 (fun type => if type =? 4 then 3 else 0) (fun _ => 0) (fun _ => [])
      (fun type => if type =? 4 then Some [Some 10; None; Some 30] else None) 0x10)
    (fun _ => 0).
Definition sample_items (i : Z) : option Z := Some (10 * i).
Definition sample_load (token : Z) : comp token_state (option Z) := mret (Some (10 * tokenId token)).
Definition sample_compare (item : Z) : comp token_state Z := mret (item - 20).

Lemma sample_table_items : table_items 4 3 true sample_items sample_tokens.
Proof.
  constructor; [done | done | | done]. intros data [= <-]. split; [done |]. intros i Hi x Hx.
  assert (i = 1 \/ i = 2 \/ i = 3) as [-> | [-> | ->]] by lia; cbn in Hx; [by injection Hx as <- | done | by injection Hx as <-].
Qed.

Lemma search_for_token_correct_witness :
  exists r st', ILImageSearchForToken sample_load sample_compare (Z.shiftl 4 24) sample_tokens = Done r st' /\
    table_items 4 3 true sample_items st' /\ search_ok sample_items (fun item => item - 20) 1 3 r.
Proof.
  apply (search_for_token_correct sample_load 4 3 ltac:(lia) ltac:(lia) true sample_items) with (cmp := fun item => item - 20).
  - intros st i Hst Hi _. exists st. split; [| done]. unfold sample_load, sample_items.
    destruct (tok_parts 4 3 ltac:(lia) ltac:(lia) i) as (_ & -> & _); [lia | done].
  - done.
  - exact sample_table_items.
  - intros _ i j x y Hij Hj [= <-] [= <-]. lia.
Defined.

(** The first item of an image that is built. *)
Definition sample_building : token_state :=
  mkTokens
    (mkImage None true false false false 0 [] 0 0 (fun _ => 0) (fun _ => 0) (fun _ => []) (fun _ => None) 0)
    (fun _ => 0).
Lemma set_token_appends_witness :
  exists st',
    @_ILImageSetToken LP64 7 0 (Z.shiftl 4 24) sample_building = Done true st' /\
    building (image st') = true /\ built_table 4 [7] st' /\
    item_token st' = array_set (item_token sample_building) 7 (tok 4 1) /\
    (forall t l', t <> 4 -> built_table t l' sample_building -> built_table t l' st') /\
    forall i, 1 <= i <= 1 -> ILImageTokenInfo sample_load (tok 4 i) st' = Done ([7] !! Z.to_nat (i - 1)) st'.
Proof.
  apply (@set_token_appends LP64 sample_load 4 [] 7 0 sample_building).
  - lia.
  - done.
  - constructor; [done | done | by left].
  - done.
Defined.
