(* ===== verification/SigParse.v ===== *)
(** * SigParse: the reader of signature blobs

    Models src/gcc/cil/image/sig_parse.c, which turns the bytes of a signature
    (ECMA-335, II.23.2) into the types of ILTypes.  The reader works on the
    cursor of MetaCompress, which is the state of the computations here; a null
    type is the answer for a malformed signature. *)
From S2P Require Import Prelude ILMeta ILTypes MetaCompress.

(** What the reader asks of the image: the class of a token and the classes of
    the namespace [System]; [None] is a null pointer. *)
Class SigImage := {
  ILImageTokenInfo : Z -> option N;
  ILClassResolveSystem : string -> option N
}.

Abbreviation R := (comp ILMetaDataRead).

Definition IL_TYPE_RECURSION_DEPTH : nat := 20.

Definition CATEGORY_CMOD : Z := 1.
Definition CATEGORY_VOID : Z := 2.
Definition CATEGORY_BYREF : Z := 4.
Definition CATEGORY_TYPEDBYREF : Z := 8.
Definition CATEGORY_PINNED : Z := 16.
Definition CATEGORY_ALL : Z :=
  Z.lor CATEGORY_CMOD (Z.lor CATEGORY_VOID (Z.lor CATEGORY_BYREF CATEGORY_TYPEDBYREF)).

(** [(categories & category) != 0]. *)
Definition allows (categories category : Z) : bool := negb (Z.land categories category =? 0).

Definition SIGNATURE_METHOD_DEF : Z := 0.
Definition SIGNATURE_METHOD_REF : Z := 1.
Definition SIGNATURE_FIELD : Z := 2.
Definition SIGNATURE_PROPERTY : Z := 3.

(** ** Reading from the cursor *)

Section cursor.
Context `{Host}.

Definition cursor_read (read : ILMetaDataRead -> option (Z * ILMetaDataRead)) : R Z := fun m =>
  match read m with Some (v, m') => Done v m' | None => Failed (Undefined "meta->data") end.
Definition read_data : R Z := cursor_read ILMetaUncompressData.
Definition read_token : R Z := cursor_read ILMetaUncompressToken.
Definition read_int : R Z := cursor_read ILMetaUncompressInt.

(** One byte, with the test of the cursor; [None] sets the error flag. *)
Definition read_byte : R (option Z) := fun m =>
  if negb (error m) && (0 <? len m) then
    match meta_next m with
    | Some (b, m') => Done (Some b) m'
    | None => Failed (Undefined "meta->data")
    end
  else Done None (mk_meta (data m) (len m) true).

(** [reader->len >= 1 && reader->data[0] == value], and past the byte then. *)
Definition skip_byte (value : Z) : R bool := fun m =>
  if 1 <=? len m then
    match meta_next m with
    | Some (b, m') => if b =? value then Done true m' else Done false m
    | None => Failed (Undefined "meta->data")
    end
  else Done false m.

(** ** Array shapes *)

(** The sizes of the dimensions from [dim] on; [None] for a negative one. *)
Fixpoint parse_sizes (n dim : nat) (array : ILType) : R (option ILType) :=
  match n with
  | O => mret (Some array)
  | S n =>
      value ← read_int;
      if value <? 0 then mret None
      else array ← lift "array" (ILTypeSetSize array dim (int32 value));
           parse_sizes n (S dim) array
  end.

Fixpoint parse_low_bounds (n dim : nat) (array : ILType) : R ILType :=
  match n with
  | O => mret array
  | S n =>
      value ← read_int;
      array ← lift "array" (ILTypeSetLowBound array dim (int32 value));
      parse_low_bounds n (S dim) array
  end.

Definition ParseArrayShape (elemType : ILType) : R ILType :=
  rank ← read_data;
  if rank =? 0 then mret ILType_Invalid
  else
    let array := ILTypeCreateArray rank elemType in
    numSizes ← read_data;
    if rank <? numSizes then mret ILType_Invalid
    else
      array ← parse_sizes (Z.to_nat numSizes) 0 array;
      match array with
      | None => mret ILType_Invalid
      | Some array =>
          numLowBounds ← read_data;
          if rank <? numLowBounds then mret ILType_Invalid
          else parse_low_bounds (Z.to_nat numLowBounds) 0 array
      end.
End cursor.

(** ** Types and signatures *)

(** The two readers that call each other; the second returns the kind of the
    signature too. *)
Record parser := mkParser {
  parse_elem : Z -> R ILType;
  parse_sig : R (option (Z * ILType))
}.

Definition is_invalid (t : ILType) : bool :=
  match t with ILType_Invalid => true | _ => false end.

Section parse.
Context `{Host, SigImage}.

(** The modifiers before a type, from the first one, [value], on.  The result is
    the first number that is none and the list of modifiers. *)
Fixpoint parse_modifiers (fuel : nat) (categories value : Z) (modifiers : ILType)
    : R (option (Z * ILType)) :=
  if (value =? IL_META_ELEMTYPE_CMOD_REQD) || (value =? IL_META_ELEMTYPE_CMOD_OPT) then
    match fuel with
    | O => fail Out_of_fuel
    | S fuel =>
        if negb (allows categories CATEGORY_CMOD) then mret None
        else
          let kind := if value =? IL_META_ELEMTYPE_CMOD_REQD
                      then IL_TYPE_COMPLEX_CMOD_REQD else IL_TYPE_COMPLEX_CMOD_OPT in
          token ← read_token;
          match ILImageTokenInfo token with
          | None => mret None
          | Some info =>
              modifiers ← lift "modifiers" (ILTypeCreateModifier modifiers kind info);
              value ← read_data;
              parse_modifiers fuel categories value modifiers
          end
    end
  else mret (Some (value, modifiers)).

Definition simple_elements : list Z :=
  [IL_META_ELEMTYPE_BOOLEAN; IL_META_ELEMTYPE_CHAR; IL_META_ELEMTYPE_I1; IL_META_ELEMTYPE_U1;
   IL_META_ELEMTYPE_I2; IL_META_ELEMTYPE_U2; IL_META_ELEMTYPE_I4; IL_META_ELEMTYPE_U4;
   IL_META_ELEMTYPE_I8; IL_META_ELEMTYPE_U8; IL_META_ELEMTYPE_R4; IL_META_ELEMTYPE_R8;
   IL_META_ELEMTYPE_I; IL_META_ELEMTYPE_U; IL_META_ELEMTYPE_R].

Definition type_from_class (info : option N) : ILType :=
  match info with Some info => ClassType info | None => ILType_Invalid end.

(** The class of the token that follows. *)
Definition parse_class_token (make : N -> ILType) : R ILType :=
  value ← read_token;
  mret (if negb (value =? 0)
        then match ILImageTokenInfo value with Some info => make info | None => ILType_Invalid end
        else ILType_Invalid).

Definition parse_var (kind : Z) : R ILType :=
  value ← read_byte;
  mret (match value with Some n => ILTypeCreateVarNum kind n | None => ILType_Invalid end).

(** A type that wraps another one, unless that is null. *)
Definition wrap (inner : R ILType) (make : ILType -> ILType) : R ILType :=
  type ← inner; mret (if is_invalid type then ILType_Invalid else make type).

(** The parameters of a generic type. *)
Fixpoint parse_with_params (inner : R ILType) (n : nat) (type : ILType) : R ILType :=
  match n with
  | O => mret type
  | S n =>
      tempType ← inner;
      if is_invalid tempType then mret ILType_Invalid
      else type ← lift "type" (ILTypeAddWithParam type tempType);
           parse_with_params inner n type
  end.

Definition parse_with (inner : R ILType) : R ILType :=
  tempType ← inner;
  if is_invalid tempType then mret ILType_Invalid
  else
    value ← read_byte;
    match value with
    | None => mret ILType_Invalid
    | Some value => parse_with_params inner (Z.to_nat value) (ILTypeCreateWith tempType)
    end.

(** The cases of the switch; [inner] is the reader one level deeper, if the
    recursion depth allows for one. *)
Definition parse_main (inner : option parser) (categories value : Z) : R ILType :=
  let deeper (f : parser -> R ILType) :=
    match inner with Some p => f p | None => mret ILType_Invalid end in
  if value =? IL_META_ELEMTYPE_VOID then
    mret (if allows categories CATEGORY_VOID then Primitive value else ILType_Invalid)
  else if bool_decide (value ∈ simple_elements) then mret (Primitive value)
  else if value =? IL_META_ELEMTYPE_STRING then
    mret (type_from_class (ILClassResolveSystem "String"))
  else if value =? IL_META_ELEMTYPE_PTR then
    deeper (fun p => wrap (parse_elem p (Z.lor CATEGORY_CMOD CATEGORY_VOID))
                       (ILTypeCreateRef IL_TYPE_COMPLEX_PTR))
  else if value =? IL_META_ELEMTYPE_BYREF then
    if allows categories CATEGORY_BYREF then
      deeper (fun p => wrap (parse_elem p (Z.land categories (Z.lnot CATEGORY_BYREF)))
                         (ILTypeCreateRef IL_TYPE_COMPLEX_BYREF))
    else mret ILType_Invalid
  else if value =? IL_META_ELEMTYPE_VALUETYPE then parse_class_token ValueType
  else if value =? IL_META_ELEMTYPE_CLASS then parse_class_token ClassType
  else if value =? IL_META_ELEMTYPE_ARRAY then
    deeper (fun p =>
      type ← parse_elem p 0;
      if is_invalid type then mret ILType_Invalid else ParseArrayShape type)
  else if value =? IL_META_ELEMTYPE_SZARRAY then
    deeper (fun p => wrap (parse_elem p CATEGORY_CMOD) (ILTypeCreateArray 1))
  else if value =? IL_META_ELEMTYPE_TYPEDBYREF then
    mret (if allows categories CATEGORY_TYPEDBYREF then Primitive value else ILType_Invalid)
  else if value =? IL_META_ELEMTYPE_FNPTR then
    deeper (fun p =>
      result ← parse_sig p;
      mret (match result with
            | Some (kind, type) =>
                if (kind =? SIGNATURE_METHOD_DEF) || (kind =? SIGNATURE_METHOD_REF)
                then type else ILType_Invalid
            | None => ILType_Invalid
            end))
  else if value =? IL_META_ELEMTYPE_OBJECT then
    mret (type_from_class (ILClassResolveSystem "Object"))
  else if value =? IL_META_ELEMTYPE_PINNED then
    if allows categories CATEGORY_PINNED then
      deeper (fun p => wrap (parse_elem p categories) (ILTypeCreateRef IL_TYPE_COMPLEX_PINNED))
    else mret ILType_Invalid
  else if value =? IL_META_ELEMTYPE_WITH then deeper (fun p => parse_with (parse_elem p categories))
  else if value =? IL_META_ELEMTYPE_MVAR then parse_var IL_TYPE_COMPLEX_MVAR
  else if value =? IL_META_ELEMTYPE_VAR then parse_var IL_TYPE_COMPLEX_VAR
  else mret ILType_Invalid.

(** Every modifier takes at least one byte, so the length of the buffer is
    enough fuel for the loop. *)
Definition elem_body (inner : option parser) (categories : Z) : R ILType :=
  value ← read_data;
  fuel ← get (fun m => S (length (data m)));
  result ← parse_modifiers fuel categories value ILType_Invalid;
  match result with
  | None => mret ILType_Invalid
  | Some (value, modifiers) =>
      type ← parse_main inner categories value;
      if negb (is_invalid type) && negb (is_invalid modifiers)
      then lift "modifiers" (ILTypeAddModifiers modifiers type)
      else mret type
  end.

(** The parameters of a method and the sentinel before those of a vararg call;
    the result says whether there was one.  [None] is a malformed signature. *)
Fixpoint method_params (fuel : nat) (elem : R ILType) (numParams param : Z) (sawSentinel : bool)
    (type : ILType) : R (option (bool * ILType)) :=
  if param <? numParams then
    match fuel with
    | O => fail Out_of_fuel
    | S fuel =>
        sentinel ← skip_byte IL_META_ELEMTYPE_SENTINEL;
        if (sentinel : bool) then
          if sawSentinel || (0xFFFE <? numParams) then mret None
          else
            type ← lift "type" (ILTypeAddSentinel type);
            method_params fuel elem numParams param true type
        else
          paramType ← elem;
          if is_invalid paramType then mret None
          else
            type ← lift "type" (ILTypeAddParam type paramType);
            method_params fuel elem numParams (param + 1) sawSentinel type
    end
  else mret (Some (sawSentinel, type)).

Fixpoint property_params (n : nat) (elem : R ILType) (type : ILType) : R (option ILType) :=
  match n with
  | O => mret (Some type)
  | S n =>
      paramType ← elem;
      if is_invalid paramType then mret None
      else type ← lift "type" (ILTypeAddParam type paramType); property_params n elem type
  end.

Definition param_categories : Z :=
  Z.lor CATEGORY_CMOD (Z.lor CATEGORY_BYREF CATEGORY_TYPEDBYREF).

(** [((type->kind__ >> 8) & IL_META_CALLCONV_MASK)]. *)
Definition call_conv (type : ILType) : option Z :=
  (fun k => Z.land (Z.shiftr k 8) IL_META_CALLCONV_MASK) <$> kind__ type.

Definition method_kinds : list Z :=
  [IL_META_CALLCONV_DEFAULT; IL_META_CALLCONV_C; IL_META_CALLCONV_STDCALL;
   IL_META_CALLCONV_THISCALL; IL_META_CALLCONV_FASTCALL; IL_META_CALLCONV_VARARG;
   IL_META_CALLCONV_UNMGD; IL_META_CALLCONV_INSTANTIATION].

(** The method signature behind its numbers. *)
Definition parse_method_sig (elem : Z -> R ILType) (sigKind numGenericParams numParams : Z)
    : R (option (Z * ILType)) :=
  let instantiation := Z.land sigKind IL_META_CALLCONV_MASK =? IL_META_CALLCONV_INSTANTIATION in
  ret ← (if negb instantiation then
           elem (Z.lor CATEGORY_CMOD (Z.lor CATEGORY_VOID
                   (Z.lor CATEGORY_TYPEDBYREF CATEGORY_BYREF)))
         else mret ILType_Invalid);
  if negb instantiation && is_invalid ret then mret None
  else
    let type := ILType_SetNumGen (ILTypeSetCallConv (ILTypeCreateMethod ret) sigKind)
                  numGenericParams in
    result ← method_params (S (S (Z.to_nat numParams))) (elem param_categories) numParams 0
               false type;
    match result with
    | None => mret None
    | Some (sawSentinel, type) =>
        conv ← lift "type" (call_conv type);
        mret (if sawSentinel && negb (conv =? IL_META_CALLCONV_VARARG)
                 && negb (conv =? IL_META_CALLCONV_C)
              then None
              else Some (if sawSentinel then SIGNATURE_METHOD_REF else SIGNATURE_METHOD_DEF, type))
    end.

Definition sig_body (inner : option parser) : R (option (Z * ILType)) :=
  sigKind ← read_data;
  let kind := Z.land sigKind IL_META_CALLCONV_MASK in
  if bool_decide (kind ∈ method_kinds) then
    numGenericParams ← (if negb (Z.land sigKind IL_META_CALLCONV_GENERIC =? 0)
                        then read_data else mret 0);
    if 0xFF <? numGenericParams then mret None
    else
      numParams ← read_data;
      if 0xFFFF <? numParams then mret None
      else match inner with
           | None => mret None
           | Some p => parse_method_sig (parse_elem p) sigKind numGenericParams numParams
           end
  else if kind =? IL_META_CALLCONV_FIELD then
    match inner with
    | None => mret None
    | Some p =>
        type ← parse_elem p CATEGORY_ALL;
        mret (if is_invalid type then None else Some (SIGNATURE_FIELD, type))
    end
  else if kind =? IL_META_CALLCONV_PROPERTY then
    numParams ← read_data;
    if 0xFFFD <? numParams then mret None
    else match inner with
         | None => mret None
         | Some p =>
             type ← parse_elem p 0;
             if is_invalid type then mret None
             else
               type ← property_params (Z.to_nat numParams) (parse_elem p param_categories)
                        (ILTypeCreateProperty type);
               mret ((fun type => (SIGNATURE_PROPERTY, type)) <$> type)
         end
  else mret None.

Definition next_parser (inner : option parser) : parser :=
  mkParser (elem_body inner) (sig_body inner).
Fixpoint parser_at (depth : nat) : parser :=
  next_parser (match depth with O => None | S depth => Some (parser_at depth) end).

Definition ParseElemType (depth : nat) (categories : Z) : R ILType :=
  parse_elem (parser_at depth) categories.
Definition ParseSignature (depth : nat) : R (option (Z * ILType)) := parse_sig (parser_at depth).

(** ** The entry points

    Each is run on the bytes from the blob on and its length. *)

Definition run_sig (f : R ILType) (blob : list Z) (blobLen : Z) : outcome ILMetaDataRead ILType :=
  f (mk_meta blob blobLen false).

(** The signature, if there was no error and its kind is right. *)
Definition checked_sig (ok : Z -> ILType -> bool) : R ILType :=
  result ← ParseSignature IL_TYPE_RECURSION_DEPTH;
  err ← get error;
  mret (match result with
        | Some (kind, type) =>
            if negb (err : bool) && ok kind type then type else ILType_Invalid
        | None => ILType_Invalid
        end).

Definition is_method_kind (kind : Z) : bool :=
  (kind =? SIGNATURE_METHOD_DEF) || (kind =? SIGNATURE_METHOD_REF).

Definition ILTypeFromMethodDefSig : R ILType :=
  checked_sig (fun kind _ => kind =? SIGNATURE_METHOD_DEF).
Definition ILTypeFromMethodRefSig : R ILType :=
  checked_sig (fun kind type =>
    is_method_kind kind
    && match call_conv type with
       | Some conv => (conv =? IL_META_CALLCONV_DEFAULT) || (conv =? IL_META_CALLCONV_VARARG)
       | None => false
       end).
Definition ILTypeFromStandAloneMethodSig : R ILType :=
  checked_sig (fun kind _ => is_method_kind kind).
Definition ILTypeFromPropertySig : R ILType :=
  checked_sig (fun kind _ => kind =? SIGNATURE_PROPERTY).

(** The error flag is not looked at. *)
Definition ILTypeFromFieldSig : R ILType :=
  kind ← read_data;
  if negb (kind =? IL_META_CALLCONV_FIELD) then mret ILType_Invalid
  else ParseElemType IL_TYPE_RECURSION_DEPTH CATEGORY_ALL.

Definition ILTypeFromTypeSpec : R ILType :=
  type ← ParseElemType IL_TYPE_RECURSION_DEPTH (Z.lor CATEGORY_CMOD CATEGORY_VOID);
  err ← get error;
  mret (if negb (err : bool) then type else ILType_Invalid).

(** Whether there was a [PINNED] before the type. *)
Fixpoint skip_pinned (fuel : nat) (isPinned : bool) : R bool :=
  match fuel with
  | O => fail Out_of_fuel
  | S fuel =>
      pinned ← skip_byte IL_META_ELEMTYPE_PINNED;
      if (pinned : bool) then skip_pinned fuel true else mret isPinned
  end.

Fixpoint parse_locals_sig (n : nat) (locals : ILType) : R ILType :=
  match n with
  | O => mret locals
  | S n =>
      fuel ← get (fun m => S (length (data m)));
      isPinned ← skip_pinned fuel false;
      nextLocal ← ParseElemType IL_TYPE_RECURSION_DEPTH (Z.lor CATEGORY_ALL CATEGORY_PINNED);
      if is_invalid nextLocal then mret ILType_Invalid
      else
        locals ← lift "locals" (ILTypeAddLocal locals
          (if (isPinned : bool) then ILTypeCreateRef IL_TYPE_COMPLEX_PINNED nextLocal
           else nextLocal));
        parse_locals_sig n locals
  end.

Definition ILTypeFromLocalVarSig : R ILType :=
  kind ← read_data;
  err ← get error;
  if negb (kind =? IL_META_CALLCONV_LOCAL_SIG) || (err : bool) then mret ILType_Invalid
  else
    num ← read_data;
    err ← get error;
    if (err : bool) || (0xFFFF <? num) then mret ILType_Invalid
    else parse_locals_sig (Z.to_nat num) ILTypeCreateLocalList.
End parse.
