(* ===== verification/SigSafe.v ===== *)
(** * SigSafe: the reader of signatures is safe on every blob

    Whatever the bytes are, the functions of SigParse end, read only bytes that
    the cursor may use and follow no null pointer: they always have a result. *)
From S2P Require Import Prelude ILMeta ILTypes MetaCompress SigParse.

(** [m] has a result, which satisfies [Q], and leaves the cursor in order. *)
Definition safe {A} (Q : A -> Prop) (m : R A) : Prop :=
  forall s, meta_wf s -> wp (fun _ => False) m (fun a s' => cursor_ok s s' /\ Q a) s.

Lemma cursor_ok_refl s : meta_wf s -> cursor_ok s s.
Proof. split; [done |]. exists 0%nat. rewrite drop_0. split; [done | lia]. Qed.

Lemma cursor_ok_trans s1 s2 s3 : cursor_ok s1 s2 -> cursor_ok s2 s3 -> cursor_ok s1 s3.
Proof.
  intros (_ & k & Hd & Hl) (Hwf & k' & Hd' & Hl'). split; [done |].
  exists (k + k')%nat. rewrite Hd', Hd, drop_drop. split; [done | lia].
Qed.

Section safe.
Context `{Host}.

Lemma safe_ret {A} (Q : A -> Prop) a : Q a -> safe Q (mret a).
Proof. intros HQ s Hs. apply wp_ret. by split; [apply cursor_ok_refl |]. Qed.

Lemma safe_bind {A B} (P : A -> Prop) (Q : B -> Prop) (m : R A) (f : A -> R B) :
  safe P m -> (forall a, P a -> safe Q (f a)) -> safe Q (m ≫= f).
Proof.
  intros Hm Hf s Hs. apply wp_bind. eapply wp_mono; [| by apply Hm].
  intros a s' [Hc Ha]. eapply wp_mono; [| by apply (Hf a Ha), Hc].
  intros b s'' [Hc' Hb]. split; [by eapply cursor_ok_trans | done].
Qed.

Lemma safe_mono {A} (P Q : A -> Prop) (m : R A) :
  (forall a, P a -> Q a) -> safe P m -> safe Q m.
Proof.
  intros HPQ Hm s Hs. eapply wp_mono; [| by apply Hm]. intros a s' [? ?]. split; auto.
Qed.

Lemma safe_get {A} (f : ILMetaDataRead -> A) : safe (fun _ => True) (get f).
Proof. intros s Hs. apply wp_get. by split; [apply cursor_ok_refl |]. Qed.

Lemma safe_lift {A} w (o : option A) (Q : A -> Prop) a :
  o = Some a -> Q a -> safe Q (lift w o).
Proof. intros -> HQ. by apply safe_ret. Qed.

(** ** Reading from the cursor *)

Lemma safe_cursor_read read (Q : Z -> Prop) :
  (forall m, meta_wf m -> exists v m', read m = Some (v, m') /\ cursor_ok m m' /\ Q v) ->
  safe Q (cursor_read read).
Proof.
  intros Hr s Hs. destruct (Hr s Hs) as (v & s' & E & Hc & HQ).
  unfold cursor_read, wp. rewrite E. done.
Qed.

Lemma safe_read_data : safe (fun v => 0 <= v < 2 ^ 32) read_data.
Proof.
  apply safe_cursor_read. intros m Hm.
  destruct (uncompress_data_safe m Hm) as (v & m' & E & Hv & Hr%read_ok_cursor). eauto 10.
Qed.
Lemma safe_read_token : safe (fun _ => True) read_token.
Proof.
  apply safe_cursor_read. intros m Hm.
  destruct (uncompress_token_safe m Hm) as (v & m' & E & Hc). eauto 10.
Qed.
Lemma safe_read_int : safe (fun _ => True) read_int.
Proof.
  apply safe_cursor_read. intros m Hm.
  destruct (uncompress_int_safe m Hm) as (v & m' & E & Hc). eauto 10.
Qed.

(** The byte at a cursor that may use one. *)
Lemma next_byte s :
  meta_wf s -> 0 < len s ->
  exists b s', meta_next s = Some (b, s') /\ is_byte b /\ cursor_ok s s' /\
    (length (data s') < length (data s))%nat.
Proof.
  destruct s as [[| b l] n e]; intros [Hn Hl]; cbn in *; [lia |]. intros Hp.
  apply Forall_cons in Hl as [Hb Hl]. exists b, (mk_meta l (n - 1) e).
  split_and!; [done | done | | cbn; lia]. split; [split; [cbn; lia | done] |].
  exists 1%nat. split; [done | cbn; lia].
Qed.

Lemma safe_read_byte : safe (fun b => forall v, b = Some v -> is_byte v) read_byte.
Proof.
  intros s Hs. unfold read_byte, wp.
  destruct (error s); cbn [negb andb]; [| destruct (Z.ltb_spec 0 (len s))].
  2:{ destruct (next_byte s Hs) as (b & s' & -> & Hb & Hc & _); [done |].
      split; [done |]. by intros v [= <-]. }
  all: split; [| done]; destruct Hs as [Hn Hl]; split; [by split |]; exists 0%nat;
    split; [by rewrite drop_0 | cbn; lia].
Qed.

Lemma skip_byte_spec b s :
  meta_wf s ->
  wp (fun _ => False) (skip_byte b) (fun r s' =>
    if (r : bool) then cursor_ok s s' /\ (length (data s') < length (data s))%nat
    else s' = s) s.
Proof.
  intros Hs. unfold skip_byte, wp. destruct (Z.leb_spec 1 (len s)); [| done].
  destruct (next_byte s Hs) as (b' & s' & -> & _ & Hc & Hl); [lia |].
  by destruct (b' =? b).
Qed.
Lemma safe_skip_byte b : safe (fun _ => True) (skip_byte b).
Proof.
  intros s Hs. eapply wp_mono; [| by apply skip_byte_spec]. intros [] s'; [by intros [] |].
  intros ->. by split; [apply cursor_ok_refl |].
Qed.

(** ** Array shapes *)

Fixpoint array_dims (t : ILType) : nat :=
  match t with ArrayType _ elem _ _ => S (array_dims elem) | _ => O end.

Lemma set_size_dims t dim v :
  (dim < array_dims t)%nat ->
  exists t', ILTypeSetSize t dim v = Some t' /\ array_dims t' = array_dims t.
Proof.
  revert dim. induction t; intros dim Hd; cbn in Hd; try lia.
  destruct dim as [| dim]; cbn; [by eexists |].
  destruct (IHt dim) as (t' & -> & Ht'); [lia |]. eexists. split; [done |]. cbn. lia.
Qed.
Lemma set_low_dims t dim v :
  (dim < array_dims t)%nat ->
  exists t', ILTypeSetLowBound t dim v = Some t' /\ array_dims t' = array_dims t.
Proof.
  revert dim. induction t; intros dim Hd; cbn in Hd; try lia.
  destruct dim as [| dim]; cbn; [by eexists |].
  destruct (IHt dim) as (t' & -> & Ht'); [lia |]. eexists. split; [done |]. cbn. lia.
Qed.

Lemma create_array_dims rank e :
  1 <= rank -> (Z.to_nat rank <= array_dims (ILTypeCreateArray rank e))%nat.
Proof.
  intros Hr. unfold ILTypeCreateArray.
  assert (forall n t, (n + array_dims t <= array_dims (continue_array n t))%nat) as Hc.
  { induction n as [| n IH]; intros t; cbn; [lia |]. specialize (IH
      (ArrayType IL_TYPE_COMPLEX_ARRAY_CONTINUE t 0 0)). cbn in IH. lia. }
  specialize (Hc (Z.to_nat (rank - 1)) (ArrayType IL_TYPE_COMPLEX_ARRAY e 0 0)). cbn in Hc. lia.
Qed.

Lemma safe_parse_sizes n dim t :
  (dim + n <= array_dims t)%nat ->
  safe (fun r => forall t', r = Some t' -> array_dims t' = array_dims t) (parse_sizes n dim t).
Proof.
  revert dim t. induction n as [| n IH]; intros dim t Hd; cbn [parse_sizes].
  { apply safe_ret. by intros ? [= <-]. }
  eapply safe_bind; [apply safe_read_int |]. intros v _.
  destruct (v <? 0); [by apply safe_ret |].
  destruct (set_size_dims t dim (int32 v)) as (t' & E & Ht'); [lia |].
  eapply (safe_bind (fun a => array_dims a = array_dims t)); [by eapply safe_lift |].
  intros a Ha. cbv beta in Ha. rewrite <- Ha. apply IH. lia.
Qed.

Lemma safe_parse_low_bounds n dim t :
  (dim + n <= array_dims t)%nat -> safe (fun _ => True) (parse_low_bounds n dim t).
Proof.
  revert dim t. induction n as [| n IH]; intros dim t Hd; cbn [parse_low_bounds];
    [by apply safe_ret |].
  eapply safe_bind; [apply safe_read_int |]. intros v _.
  destruct (set_low_dims t dim (int32 v)) as (t' & E & Ht'); [lia |].
  eapply (safe_bind (fun a => array_dims a = array_dims t)); [by eapply safe_lift |].
  intros a Ha. cbv beta in Ha. apply IH. lia.
Qed.

Lemma safe_array_shape e : safe (fun _ => True) (ParseArrayShape e).
Proof.
  unfold ParseArrayShape. eapply safe_bind; [apply safe_read_data |]. intros rank Hr. cbv beta in Hr.
  destruct (Z.eqb_spec rank 0); [by apply safe_ret |].
  pose proof (create_array_dims rank e ltac:(lia)) as Hdims.
  eapply safe_bind; [apply safe_read_data |]. intros sizes Hs. cbv beta in Hs.
  destruct (Z.ltb_spec rank sizes); [by apply safe_ret |].
  eapply safe_bind; [apply (safe_parse_sizes _ 0); lia |]. intros [t |] Ht; [| by apply safe_ret].
  specialize (Ht t eq_refl). cbv beta in Ht.
  eapply safe_bind; [apply safe_read_data |]. intros lows Hl. cbv beta in Hl.
  destruct (Z.ltb_spec rank lows); [by apply safe_ret |].
  apply safe_parse_low_bounds. lia.
Qed.
End safe.

(** Follow the structure of a computation all of whose parts are safe. *)
Create HintDb sig_safe.
#[export] Hint Resolve safe_read_data safe_read_token safe_read_int safe_read_byte
  safe_skip_byte safe_array_shape safe_get : sig_safe.
Ltac safe_step :=
  match goal with
  | |- safe _ (mret _) => apply safe_ret; exact I
  | |- safe _ (_ ≫= _) => eapply safe_bind; [solve [eauto 2 with sig_safe] | intros ? ?]
  | |- safe _ (if ?b then _ else _) => destruct b
  | |- safe _ (match ?x with _ => _ end) => destruct x
  | |- safe _ (let _ := _ in _) => cbv zeta
  | |- safe _ _ => solve [eauto 2 with sig_safe]
  end.
Ltac solve_safe := intros; repeat safe_step.

(** ** Types and signatures *)

(** A list of modifiers. *)
Fixpoint is_modifiers (t : ILType) : bool :=
  match t with ModifierType _ _ next => is_modifiers next | ILType_Invalid => true | _ => false end.

Lemma add_modifiers_some l t :
  is_modifiers l = true -> is_invalid l = false -> exists l', ILTypeAddModifiers l t = Some l'.
Proof.
  induction l; try done. cbn [is_modifiers ILTypeAddModifiers]. intros Hl _.
  destruct l; try done; [by eexists |].
  destruct IHl as [l' ->]; [done .. |]. by eexists.
Qed.

Lemma create_modifier_ok l kind info :
  is_modifiers l = true ->
  exists l', ILTypeCreateModifier l kind info = Some l' /\ is_modifiers l' = true /\
    is_invalid l' = false.
Proof.
  unfold ILTypeCreateModifier. intros Hl.
  assert (is_invalid l = false -> exists l',
    ILTypeAddModifiers l (ModifierType kind info ILType_Invalid) = Some l' /\
    is_modifiers l' = true /\ is_invalid l' = false) as Hadd.
  { clear -Hl. induction l; try done. cbn [is_modifiers ILTypeAddModifiers] in *. intros _.
    destruct l; try done; [by eexists |].
    destruct IHl as (l' & -> & ? & _); [done .. |]. eexists. by split. }
  destruct l; try done; [by eexists | by apply Hadd].
Qed.

(** A method signature under construction, with [n] entries. *)
Definition method_ok (type : ILType) (n : Z) : Prop :=
  signature_ok type /\ ILType_IsMethod type = true /\ ILTypeNumParams type = n.

Lemma num_params_snoc t t' p :
  signature_ok t -> signature_ok t' -> signature_params t' = signature_params t ++ [p] ->
  ILTypeNumParams t' = ILTypeNumParams t + 1.
Proof.
  intros Ht Ht' E. rewrite <- !signature_params_length, E by done. rewrite length_app. cbn. lia.
Qed.

Lemma add_param_method t p n :
  method_ok t n -> n < 2 ^ 16 - 1 ->
  exists t', ILTypeAddParam t p = Some t' /\ method_ok t' (n + 1).
Proof.
  intros (Hok & Hm & Hn) Hlt.
  destruct (add_param_spec t p Hok) as (t' & E & Hok' & Hp & Hk & _); [lia |].
  exists t'. split; [done |]. split_and!; [done | |].
  - unfold ILType_IsMethod, kind_is in *. by rewrite Hk.
  - rewrite (num_params_snoc t t' p) by done. lia.
Qed.

Lemma land_lor_keep a b c : Z.land a c <> 0 -> Z.land (Z.lor a b) c <> 0.
Proof.
  intros Ha E. apply Ha. rewrite Z.land_lor_distr_l in E. by apply Z.lor_eq_0_iff in E as [? _].
Qed.

Lemma add_sentinel_method t n :
  method_ok t n -> n < 2 ^ 16 - 1 ->
  exists t', ILTypeAddSentinel t = Some t' /\ method_ok t' (n + 1).
Proof.
  intros (Hok & Hm & Hn) Hlt. unfold ILTypeAddSentinel.
  destruct t as [ | | | | | | kind num ret p0 p1 p2 next gen | | | | |]; try done.
  apply add_param_method; [| done].
  assert (forall a b c d e f, ILType_IsMethod
    (MethodType (Z.lor kind IL_TYPE_COMPLEX_METHOD_SENTINEL) a b c d e f gen) = true) as Hm'.
  { intros. unfold ILType_IsMethod, kind_is in *. cbn [kind__] in *.
    apply negb_true_iff, Z.eqb_neq. apply negb_true_iff, Z.eqb_neq in Hm.
    by apply land_lor_keep. }
  split_and!; [| apply Hm' |].
  - destruct Hok as (_ & ? & ?). split_and!; try lia; [| done].
    unfold has_signature. by rewrite Hm'.
  - unfold ILTypeNumParams, has_signature in *. rewrite Hm'. cbn [orb]. by rewrite Hm in Hn.
Qed.

Lemma land_small_mod a c w : 0 <= c < 2 ^ w -> 0 <= w -> Z.land a c = Z.land (a mod 2 ^ w) c.
Proof.
  intros Hc Hw. rewrite <- Z.land_ones, <- Z.land_assoc by done.
  by rewrite (Z.land_comm (Z.ones w)), Z.land_ones, (Z.mod_small c) by done.
Qed.

Lemma call_conv_method t conv :
  ILType_IsMethod t = true -> ILType_IsMethod (ILTypeSetCallConv t conv) = true.
Proof.
  destruct t as [ | | | | | | kind num ret p0 p1 p2 next gen | | | | |]; try done.
  intros Hm. unfold ILTypeSetCallConv. rewrite Hm. cbn [orb].
  unfold ILType_IsMethod, kind_is, kind__, IL_TYPE_COMPLEX_METHOD in *.
  apply negb_true_iff, Z.eqb_neq. apply negb_true_iff, Z.eqb_neq in Hm.
  rewrite (land_small_mod _ 16 16) by lia. rewrite to_signed_mod by lia.
  rewrite <- (land_small_mod _ 16 16) by lia. apply land_lor_keep.
  rewrite <- Z.land_assoc. exact Hm.
Qed.

Lemma method_start ret conv gen :
  method_ok (ILType_SetNumGen (ILTypeSetCallConv (ILTypeCreateMethod ret) conv) gen) 0.
Proof.
  pose proof (call_conv_method (ILTypeCreateMethod ret) conv eq_refl) as Hm.
  unfold ILTypeCreateMethod, ILTypeSetCallConv in *. cbn -[Z.land Z.lor Z.shiftl to_signed] in *.
  match goal with |- method_ok ?t _ => assert (has_signature t = true) as Hs end.
  { unfold has_signature. apply orb_true_iff. left. apply orb_true_iff. by left. }
  split; [split; [exact Hs | split; [lia | done]] |]. split; [exact Hm |].
  unfold ILTypeNumParams. by rewrite Hs.
Qed.

(** A number other than 0 takes at least a byte. *)
Lemma read_data_takes `{Host} s :
  meta_wf s ->
  wp (fun _ => False) read_data (fun v s' =>
    cursor_ok s s' /\ 0 <= v < 2 ^ 32 /\
    (v = 0 \/ (length (data s') < length (data s))%nat)) s.
Proof.
  intros Hs. unfold read_data, cursor_read, wp.
  destruct (uncompress_data_safe s Hs) as (v & s' & -> & Hv & Hr).
  split; [by eapply read_ok_cursor |]. split; [done |].
  destruct Hr as (k & Hd & Hl & [Hn' _] & [(Hk & Hl' & _) | [_ ->]]); [right | by left].
  rewrite Hd, length_drop. destruct Hs as [Hn _]. lia.
Qed.

Lemma cursor_ok_length s s' : cursor_ok s s' -> (length (data s') <= length (data s))%nat.
Proof. intros (_ & k & -> & _). rewrite length_drop. lia. Qed.

Section parsers.
Context `{Host, SigImage}.

Definition is_cmod (value : Z) : bool :=
  (value =? IL_META_ELEMTYPE_CMOD_REQD) || (value =? IL_META_ELEMTYPE_CMOD_OPT).

Lemma safe_modifiers fuel categories value modifiers s :
  meta_wf s -> is_modifiers modifiers = true ->
  (length (data s) < fuel)%nat \/ is_cmod value = false ->
  wp (fun _ => False) (parse_modifiers fuel categories value modifiers)
    (fun r s' => cursor_ok s s' /\ forall v l, r = Some (v, l) -> is_modifiers l = true) s.
Proof.
  revert value modifiers s. induction fuel as [| fuel IH]; intros value modifiers s Hs Hm Hf;
    cbn [parse_modifiers]; fold (is_cmod value); destruct (is_cmod value) eqn:Hv;
    try (apply wp_ret; split; [by apply cursor_ok_refl | by intros ? ? [= <- <-]]).
  { exfalso. destruct Hf; [lia | done]. }
  destruct (allows categories CATEGORY_CMOD); cbn [negb];
    [| apply wp_ret; split; [by apply cursor_ok_refl | done]].
  apply wp_bind. eapply wp_mono; [| by apply safe_read_token]. intros token s1 [C1 _].
  destruct (ILImageTokenInfo token) as [info |]; [| by apply wp_ret].
  destruct (create_modifier_ok modifiers
    (if value =? IL_META_ELEMTYPE_CMOD_REQD then IL_TYPE_COMPLEX_CMOD_REQD
     else IL_TYPE_COMPLEX_CMOD_OPT) info Hm) as (l & -> & Hl & _).
  apply wp_bind, wp_ret. apply wp_bind. eapply wp_mono; [| by apply read_data_takes, C1].
  intros v s2 (C2 & _ & Hd). pose proof (cursor_ok_length _ _ C1).
  eapply wp_mono; [| apply IH; [by apply C2 | done |]].
  - intros r s3 [C3 Hr]. split; [| done].
    eapply cursor_ok_trans; [exact C1 |]. by eapply cursor_ok_trans.
  - destruct Hd as [-> | Hd]; [by right |]. left. destruct Hf; [lia | done].
Qed.

Lemma safe_class_token make : safe (fun _ => True) (parse_class_token make).
Proof. unfold parse_class_token. solve_safe. Qed.
Lemma safe_var kind : safe (fun _ => True) (parse_var kind).
Proof. unfold parse_var. solve_safe. Qed.
Lemma safe_wrap inner make : safe (fun _ => True) inner -> safe (fun _ => True) (wrap inner make).
Proof. unfold wrap. intros. solve_safe. Qed.
Hint Resolve safe_class_token safe_var safe_wrap : sig_safe.

(** A signature of any kind under construction. *)
Definition entries_ok (type : ILType) (n : Z) : Prop :=
  signature_ok type /\ ILTypeNumParams type = n.

Lemma add_entry t p n :
  entries_ok t n -> n < 2 ^ 16 - 1 ->
  exists t', ILTypeAddParam t p = Some t' /\ entries_ok t' (n + 1).
Proof.
  intros (Hok & Hn) Hlt.
  destruct (add_param_spec t p Hok) as (t' & E & Hok' & Hp & _ & _); [lia |].
  exists t'. split; [done |]. split; [done |]. rewrite (num_params_snoc t t' p) by done. lia.
Qed.

Lemma safe_with_params inner n type m :
  safe (fun _ => True) inner -> entries_ok type m -> m + Z.of_nat n < 2 ^ 16 ->
  safe (fun _ => True) (parse_with_params inner n type).
Proof.
  intros Hi. revert type m. induction n as [| n IH]; intros type m Ht Hn;
    cbn [parse_with_params]; [by apply safe_ret |].
  eapply safe_bind; [exact Hi |]. intros t _. destruct (is_invalid t); [by apply safe_ret |].
  destruct (add_entry type t m Ht) as (type' & E & Ht'); [lia |].
  eapply (safe_bind (fun a => entries_ok a (m + 1))); [by eapply safe_lift |].
  intros a Ha. apply (IH a (m + 1)); [done | lia].
Qed.

Lemma safe_property_params inner n type m :
  safe (fun _ => True) inner -> entries_ok type m -> m + Z.of_nat n < 2 ^ 16 ->
  safe (fun _ => True) (property_params n inner type).
Proof.
  intros Hi. revert type m. induction n as [| n IH]; intros type m Ht Hn;
    cbn [property_params]; [by apply safe_ret |].
  eapply safe_bind; [exact Hi |]. intros t _. destruct (is_invalid t); [by apply safe_ret |].
  destruct (add_entry type t m Ht) as (type' & E & Ht'); [lia |].
  eapply (safe_bind (fun a => entries_ok a (m + 1))); [by eapply safe_lift |].
  intros a Ha. apply (IH a (m + 1)); [done | lia].
Qed.

Lemma safe_with inner : safe (fun _ => True) inner -> safe (fun _ => True) (parse_with inner).
Proof.
  intros Hi. unfold parse_with. eapply safe_bind; [exact Hi |]. intros t _.
  destruct (is_invalid t); [by apply safe_ret |].
  eapply safe_bind; [apply safe_read_byte |]. intros [n |] Hn; [| by apply safe_ret].
  specialize (Hn n eq_refl). unfold is_byte in Hn.
  apply (safe_with_params _ _ _ 0); [done | by repeat split | lia].
Qed.
Hint Resolve safe_with : sig_safe.

(** Each round adds an entry; there is one more than parameters if there is a
    sentinel. *)
Lemma safe_method_params fuel elem numParams param (saw : bool) type :
  safe (fun _ => True) elem -> 0 <= param <= numParams -> numParams <= 0xFFFF ->
  (saw = true -> numParams <= 0xFFFE) ->
  numParams - param + (if saw then 0 else 1) < Z.of_nat fuel ->
  method_ok type (param + if saw then 1 else 0) ->
  safe (fun r => forall b t, r = Some (b, t) -> ILType_IsMethod t = true)
    (method_params fuel elem numParams param saw type).
Proof.
  intros He. revert param saw type.
  induction fuel as [| fuel IH]; intros param saw type Hp Hn Hsaw Hf Ht; [destruct saw; lia |].
  cbn [method_params]. destruct (Z.ltb_spec param numParams).
  2:{ apply safe_ret. intros b t [= <- <-]. apply Ht. }
  eapply safe_bind; [apply safe_skip_byte |]. intros [] _.
  - destruct saw; cbn [orb]; [by apply safe_ret |].
    destruct (Z.ltb_spec 0xFFFE numParams); [by apply safe_ret |].
    destruct (add_sentinel_method type (param + 0) Ht) as (type' & E & Ht'); [lia |].
    eapply (safe_bind (fun a => method_ok a (param + 0 + 1))); [by eapply safe_lift |].
    intros a Ha. apply IH; [lia .. |]. by replace (param + 1) with (param + 0 + 1) by lia.
  - eapply safe_bind; [exact He |]. intros t _. destruct (is_invalid t); [by apply safe_ret |].
    destruct (add_param_method type t _ Ht) as (type' & E & Ht').
    { destruct saw; [specialize (Hsaw eq_refl) |]; lia. }
    eapply (safe_bind (fun a => method_ok a (param + (if saw then 1 else 0) + 1)));
      [by eapply safe_lift |].
    intros a Ha. apply IH; [lia | done | done | lia |].
    by replace (param + 1 + (if saw then 1 else 0)) with (param + (if saw then 1 else 0) + 1) by lia.
Qed.

Definition safe_parser (p : parser) : Prop :=
  (forall categories, safe (fun _ => True) (parse_elem p categories)) /\
  safe (fun _ => True) (parse_sig p).

Lemma safe_main inner categories value :
  (forall p, inner = Some p -> safe_parser p) ->
  safe (fun _ => True) (parse_main inner categories value).
Proof.
  intros Hi. unfold parse_main. destruct inner as [p |].
  - destruct (Hi p eq_refl) as [He Hs]. clear Hi. cbv beta zeta. solve_safe.
  - cbv beta zeta. solve_safe.
Qed.

Lemma safe_elem_body inner categories :
  (forall p, inner = Some p -> safe_parser p) -> safe (fun _ => True) (elem_body inner categories).
Proof.
  intros Hi. unfold elem_body. eapply safe_bind; [apply safe_read_data |]. intros value _ s Hs.
  apply wp_bind, wp_get. apply wp_bind.
  eapply wp_mono; [| apply safe_modifiers; [done | done | left; lia]].
  intros [[v l] |] s' [Hc Hl]; [| by apply wp_ret].
  specialize (Hl v l eq_refl).
  assert (safe (fun _ => True)
    (type ← parse_main inner categories v;
     if negb (is_invalid type) && negb (is_invalid l)
     then lift "modifiers" (ILTypeAddModifiers l type) else mret type)) as Hm.
  { eapply safe_bind; [by apply safe_main |]. intros t _.
    destruct (is_invalid l) eqn:El; [rewrite andb_false_r; by apply safe_ret |].
    destruct (negb (is_invalid t)); cbn [negb andb]; [| by apply safe_ret].
    destruct (add_modifiers_some l t Hl El) as [l' E]. by eapply safe_lift. }
  eapply wp_mono; [| apply Hm, Hc]. intros t s'' [Hc' _]. split; [by eapply cursor_ok_trans | done].
Qed.

Lemma safe_method_sig elem sigKind gen numParams :
  (forall categories, safe (fun _ => True) (elem categories)) -> 0 <= numParams <= 0xFFFF ->
  safe (fun _ => True) (parse_method_sig elem sigKind gen numParams).
Proof.
  intros He Hn. unfold parse_method_sig. cbv zeta.
  eapply (safe_bind (fun _ => True)); [destruct (negb _); [apply He | by apply safe_ret] |].
  intros ret _. destruct (_ && is_invalid ret); [by apply safe_ret |].
  eapply safe_bind.
  { apply safe_method_params; [apply He | lia .. | |]; [lia | apply method_start]. }
  intros [[saw t] |] Ht; [| by apply safe_ret]. specialize (Ht saw t eq_refl).
  unfold ILType_IsMethod, kind_is in Ht. destruct (kind__ t) eqn:E; [| done].
  eapply (safe_bind (fun _ => True)); [| intros; by apply safe_ret].
  eapply safe_lift; [unfold call_conv; by rewrite E | done].
Qed.

Lemma safe_sig_body inner :
  (forall p, inner = Some p -> safe_parser p) -> safe (fun _ => True) (sig_body inner).
Proof.
  intros Hi. unfold sig_body. eapply safe_bind; [apply safe_read_data |]. intros k _. cbv zeta.
  destruct (bool_decide _).
  { eapply (safe_bind (fun _ => True)); [destruct (negb _); [| by apply safe_ret] |].
    { eapply safe_mono; [| apply safe_read_data]. done. }
    intros gen _. destruct (0xFF <? gen); [by apply safe_ret |].
    eapply safe_bind; [apply safe_read_data |]. intros n Hn. cbv beta in Hn.
    destruct (Z.ltb_spec 0xFFFF n); [by apply safe_ret |].
    destruct inner as [p |]; [| by apply safe_ret].
    apply safe_method_sig; [apply (Hi p eq_refl) | lia]. }
  destruct (_ =? _).
  { destruct inner as [p |]; [| by apply safe_ret].
    eapply safe_bind; [apply (Hi p eq_refl) |]. intros; by apply safe_ret. }
  destruct (_ =? _); [| by apply safe_ret].
  eapply safe_bind; [apply safe_read_data |]. intros n Hn. cbv beta in Hn.
  destruct (Z.ltb_spec 0xFFFD n); [by apply safe_ret |].
  destruct inner as [p |]; [| by apply safe_ret].
  eapply safe_bind; [apply (Hi p eq_refl) |]. intros t _.
  destruct (is_invalid t); [by apply safe_ret |].
  eapply safe_bind; [| intros; by apply safe_ret].
  apply (safe_property_params _ _ _ 0); [apply (Hi p eq_refl) | by repeat split | lia].
Qed.

Lemma safe_parser_at depth : safe_parser (parser_at depth).
Proof.
  induction depth as [| depth IH]; (split; [intros c; apply safe_elem_body | apply safe_sig_body]);
    intros p [= <-]; done.
Qed.

(** ** The entry points *)

Lemma safe_checked_sig ok : safe (fun _ => True) (checked_sig ok).
Proof.
  unfold checked_sig. eapply safe_bind; [apply safe_parser_at |]. intros r _.
  eapply safe_bind; [apply safe_get |]. intros. by apply safe_ret.
Qed.

Lemma safe_skip_pinned fuel (b : bool) s :
  meta_wf s -> (length (data s) < fuel)%nat ->
  wp (fun _ => False) (skip_pinned fuel b) (fun _ s' => cursor_ok s s' /\ True) s.
Proof.
  revert b s. induction fuel as [| fuel IH]; intros b s Hs Hf; [lia |]. cbn [skip_pinned].
  apply wp_bind. eapply wp_mono; [| by apply skip_byte_spec]. intros [] s'.
  - intros [Hc Hl]. eapply wp_mono; [| apply IH; [apply Hc | lia]].
    intros r s'' [Hc' _]. split; [by eapply cursor_ok_trans | done].
  - intros ->. apply wp_ret. by split; [apply cursor_ok_refl |].
Qed.

Lemma safe_locals n locals :
  locals_ok locals -> Z.of_nat (length (locals_list locals)) + Z.of_nat n < 2 ^ 16 ->
  safe (fun _ => True) (parse_locals_sig n locals).
Proof.
  revert locals. induction n as [| n IH]; intros locals Hl Hn; cbn [parse_locals_sig];
    [by apply safe_ret |].
  intros s Hs. apply wp_bind, wp_get. revert s Hs.
  assert (forall s, meta_wf s -> wp (fun _ => False) (skip_pinned (S (length (data s))) false)
    (fun _ s' => cursor_ok s s' /\ True) s) as Hp by (intros; apply safe_skip_pinned; [done | lia]).
  intros s Hs. apply wp_bind. eapply wp_mono; [| by apply Hp]. intros pinned s1 [C1 _].
  eapply (wp_mono _ _ (fun _ s' => cursor_ok s1 s' /\ True)).
  { intros a s2 [C2 _]. split; [by eapply cursor_ok_trans | done]. }
  generalize (proj1 C1). generalize s1 as s0. clear -IH Hl Hn.
  change (safe (fun _ => True) (nextLocal ←
    ParseElemType IL_TYPE_RECURSION_DEPTH (Z.lor CATEGORY_ALL CATEGORY_PINNED);
    if is_invalid nextLocal then mret ILType_Invalid
    else
      locals ← lift "locals" (ILTypeAddLocal locals
        (if (pinned : bool) then ILTypeCreateRef IL_TYPE_COMPLEX_PINNED nextLocal else nextLocal));
      parse_locals_sig n locals)).
  eapply safe_bind; [apply safe_parser_at |]. intros t _.
  destruct (is_invalid t); [by apply safe_ret |].
  destruct (add_local_spec locals
    (if pinned then ILTypeCreateRef IL_TYPE_COMPLEX_PINNED t else t) Hl) as (l & E & Hl' & Hs);
    [lia |].
  eapply (safe_bind (fun a => locals_ok a /\
    length (locals_list a) = S (length (locals_list locals)))).
  { eapply safe_lift; [exact E |]. split; [done |]. rewrite Hs, length_app. cbn. lia. }
  intros a [Ha Hlen]. apply IH; [done | lia].
Qed.

Definition signature_readers : list (R ILType) :=
  [ILTypeFromMethodDefSig; ILTypeFromMethodRefSig; ILTypeFromStandAloneMethodSig;
   ILTypeFromFieldSig; ILTypeFromPropertySig; ILTypeFromTypeSpec; ILTypeFromLocalVarSig].

(** C9: every reader of signatures ends with a type or with the null type on
    every sequence of bytes, in bounds: it never reads a byte that is not of the
    blob, never follows a null pointer and never loops, whatever the counts, the
    nesting and the tokens in the blob say. *)
Theorem signature_readers_safe blob blobLen :
  0 <= blobLen <= Z.of_nat (length blob) -> Forall is_byte blob ->
  Forall (fun read => exists type m, run_sig read blob blobLen = Done type m /\
    cursor_ok (mk_meta blob blobLen false) m) signature_readers.
Proof.
  intros Hlen Hb.
  assert (Forall (safe (fun _ => True)) signature_readers) as Hsafe.
  { repeat apply Forall_cons_2; try apply Forall_nil_2; try apply safe_checked_sig.
    - eapply safe_bind; [apply safe_read_data |]. intros k _.
      destruct (negb _); [by apply safe_ret | apply safe_parser_at].
    - eapply safe_bind; [apply safe_parser_at |]. intros t _.
      eapply safe_bind; [apply safe_get |]. intros. by apply safe_ret.
    - eapply safe_bind; [apply safe_read_data |]. intros k _.
      eapply safe_bind; [apply safe_get |]. intros e _. destruct (_ || _); [by apply safe_ret |].
      eapply safe_bind; [apply safe_read_data |]. intros n Hn. cbv beta in Hn.
      eapply safe_bind; [apply safe_get |]. intros e' _.
      destruct e'; cbn [orb]; [by apply safe_ret |].
      destruct (Z.ltb_spec 0xFFFF n); [by apply safe_ret |].
      apply safe_locals; [by repeat split |].
      change (length (locals_list _)) with 0%nat. lia. }
  eapply Forall_impl; [exact Hsafe |]. intros read Hr.
  assert (meta_wf (mk_meta blob blobLen false)) as Hwf by by split.
  specialize (Hr _ Hwf). unfold run_sig, wp in *. destruct (read _) as [t m |]; [| done].
  exists t, m. by destruct Hr.
Qed.
End parsers.

(** No classes at all. *)
Definition no_image : SigImage := Build_SigImage (fun _ => None) (fun _ => None).

(** A method that claims to have 65535 parameters, cut off in the first. *)
Lemma signature_readers_safe_witness :
  0 <= 5 <= Z.of_nat (length [0x00; 0xC0; 0x00; 0xFF; 0xFF]) /\
  Forall (fun read => exists type m, run_sig read [0x00; 0xC0; 0x00; 0xFF; 0xFF] 5 = Done type m /\
    cursor_ok (mk_meta [0x00; 0xC0; 0x00; 0xFF; 0xFF] 5 false) m)
    (@signature_readers LP64 no_image).
Proof.
  split; [cbn; lia |]. apply signature_readers_safe; [cbn; lia |].
  repeat constructor; unfold is_byte; lia.
Defined.
