(* ===== verification/SigWriter.v ===== *)
(** * SigWriter: the writer of signature blobs

    Models src/gcc/scil/pnet/image/sig_writer.c: the counterpart of SigParse in
    the copy of the metadata library that the second front end (scil) is linked with.  The
    reader, the types and the compressed integers are the same files in both
    copies.  The bytes go to a buffer that grows; memory does not run out, so the
    writer fails only where it follows a null pointer, [None]. *)
From S2P Require Import Prelude ILMeta ILTypes Program MetaCompress.

(** The token of a class in the image that is written
    ([ILClassImport (image, ILClassResolve (info))]). *)
Class SigTokens := { class_token : N -> Z }.

(** One piece after the other. *)
Definition write_all (pieces : list (option (list Z))) : option (list Z) :=
  @concat Z <$> mapM id pieces.

Section blocks.
Context (WriteType : ILType -> option (list Z)).

(** The [num] types that start in a block of a chain. *)
Fixpoint WriteBlocks (block : ILType) (num : Z) : option (list Z) :=
  if num <=? 0 then Some []
  else
    match block with
    | ParamsBlock p0 p1 p2 p3 next =>
        write_all
          [WriteType p0;
           if 1 <? num then WriteType p1 else Some [];
           if 2 <? num then WriteType p2 else Some [];
           if 3 <? num then WriteType p3 else Some [];
           WriteBlocks next (num - 4)]
    | _ => None
    end.

Definition WriteMethodParams (p0 p1 p2 next : ILType) (num : Z) : option (list Z) :=
  write_all
    [if 0 <? num then WriteType p0 else Some [];
     if 1 <? num then WriteType p1 else Some [];
     if 2 <? num then WriteType p2 else Some [];
     if 3 <? num then WriteBlocks next (num - 3) else Some []].

Definition WriteLocalVars (l0 l1 l2 l3 next : ILType) (num : Z) : option (list Z) :=
  if num <=? 0 then Some []
  else
    write_all
      [WriteType l0;
       if 1 <? num then WriteType l1 else Some [];
       if 2 <? num then WriteType l2 else Some [];
       if 3 <? num then WriteType l3 else Some [];
       WriteBlocks next (num - 4)].

(** The element type behind the dimensions. *)
Fixpoint write_array_elem (t : ILType) : option (list Z) :=
  match t with
  | ArrayType kind elem _ _ =>
      if Z.land kind 0xFF =? IL_TYPE_COMPLEX_ARRAY_CONTINUE then write_array_elem elem
      else if Z.land kind 0xFF =? IL_TYPE_COMPLEX_ARRAY then WriteType elem
      else WriteType t
  | _ => WriteType t
  end.
End blocks.

(** The size and the lower bound of the dimensions, the outermost first; their
    number is the rank, and the loops that write them go through as many. *)
Fixpoint array_shape (t : ILType) : list (Z * Z) :=
  match t with
  | ArrayType kind elem size low =>
      if Z.land kind 0xFF =? IL_TYPE_COMPLEX_ARRAY_CONTINUE then (size, low) :: array_shape elem
      else if Z.land kind 0xFF =? IL_TYPE_COMPLEX_ARRAY then [(size, low)]
      else []
  | _ => []
  end.

Section write.
Context `{Host, Program, SigTokens}.

Definition WriteClassToken (info : N) : list Z := ILMetaCompressToken (class_token info).
Definition WriteValue (value : Z) : list Z := ILMetaCompressData value.
Definition WriteIntValue (value : Z) : list Z := ILMetaCompressInt value.

(** The class is the one of this name in [System], and not nested. *)
Definition is_system_class (info : N) (name : string) : bool :=
  bool_decide (ILClass_Namespace info = Some "System"%string)
  && bool_decide (ILClassGetNestedParent info = None)
  && String.eqb (ILClass_Name info) name.

Definition write_shape (t : ILType) : list Z :=
  let dims := array_shape t in
  let rank := Z.of_nat (length dims) in
  let needSizes := existsb (fun d => negb (d.2 =? 0) || negb (d.1 =? 0)) dims in
  WriteValue rank
  ++ WriteValue (if needSizes then rank else 0)
  ++ (if needSizes then @concat Z ((fun d => WriteIntValue d.1) <$> dims) else [])
  ++ WriteValue rank
  ++ @concat Z ((fun d => WriteIntValue d.2) <$> dims).

Definition is_method_code (kind : Z) : bool :=
  (Z.land kind 0xFF =? IL_TYPE_COMPLEX_METHOD)
  || (Z.land kind 0xFF =? Z.lor IL_TYPE_COMPLEX_METHOD IL_TYPE_COMPLEX_METHOD_SENTINEL).

(** The calling convention, the number of generic parameters if there are any,
    and that of the parameters without the sentinel. *)
Definition write_method_header (kind num gen : Z) : list Z :=
  let conv := uint32 (Z.shiftr kind 8) in
  [uchar conv]
  ++ (if negb (Z.land conv IL_META_CALLCONV_GENERIC =? 0) then WriteValue gen else [])
  ++ WriteValue (if negb (Z.land kind IL_TYPE_COMPLEX_METHOD_SENTINEL =? 0)
                 then ulong (num - 1) else num).

Fixpoint WriteType (type : ILType) (methodPtr : bool) : option (list Z) :=
  let write t := WriteType t true in
  match type with
  | ILType_Invalid => Some []
  | Primitive elem => Some [uchar elem]
  | ClassType info =>
      Some (if is_system_class info "Object" then [IL_META_ELEMTYPE_OBJECT]
            else if is_system_class info "String" then [IL_META_ELEMTYPE_STRING]
            else IL_META_ELEMTYPE_CLASS :: WriteClassToken info)
  | ValueType info =>
      Some (if is_system_class info "TypedReference" then [IL_META_ELEMTYPE_TYPEDBYREF]
            else IL_META_ELEMTYPE_VALUETYPE :: WriteClassToken info)
  | RefType kind ref =>
      let kind := Z.land kind 0xFF in
      if kind =? IL_TYPE_COMPLEX_BYREF then write_all [Some [IL_META_ELEMTYPE_BYREF]; write ref]
      else if kind =? IL_TYPE_COMPLEX_PTR then write_all [Some [IL_META_ELEMTYPE_PTR]; write ref]
      else if kind =? IL_TYPE_COMPLEX_PINNED then
        write_all [Some [IL_META_ELEMTYPE_PINNED]; write ref]
      else Some []
  | ArrayType kind elem size low =>
      if (kind =? IL_TYPE_COMPLEX_ARRAY) && (low =? 0) && (size =? 0) then
        write_all [Some [IL_META_ELEMTYPE_SZARRAY]; write elem]
      else if Z.land kind 0xFF =? IL_TYPE_COMPLEX_ARRAY then
        write_all [Some [IL_META_ELEMTYPE_ARRAY]; write elem; Some (write_shape type)]
      else if Z.land kind 0xFF =? IL_TYPE_COMPLEX_ARRAY_CONTINUE then
        write_all [Some [IL_META_ELEMTYPE_ARRAY]; write_array_elem write elem;
                   Some (write_shape type)]
      else Some []
  | ModifierType kind info t =>
      let kind := Z.land kind 0xFF in
      if kind =? IL_TYPE_COMPLEX_CMOD_REQD then
        write_all [Some (IL_META_ELEMTYPE_CMOD_REQD :: WriteClassToken info); write t]
      else if kind =? IL_TYPE_COMPLEX_CMOD_OPT then
        write_all [Some (IL_META_ELEMTYPE_CMOD_OPT :: WriteClassToken info); write t]
      else Some []
  | MethodType kind num ret p0 p1 p2 next gen =>
      if Z.land kind 0xFF =? IL_TYPE_COMPLEX_PROPERTY then
        write_all [Some (IL_META_CALLCONV_PROPERTY :: WriteValue num); write ret;
                   WriteMethodParams write p0 p1 p2 next num]
      else if Z.land kind 0xFF =? IL_TYPE_COMPLEX_WITH then
        write_all [Some [IL_META_ELEMTYPE_WITH]; write ret; Some [uchar num];
                   WriteMethodParams write p0 p1 p2 next num]
      else if is_method_code kind then
        write_all
          [Some (if methodPtr then [IL_META_ELEMTYPE_FNPTR] else []);
           Some (write_method_header kind num gen);
           if negb (Z.land (uint32 (Z.shiftr kind 8)) IL_META_CALLCONV_MASK
                    =? IL_META_CALLCONV_INSTANTIATION)
           then write ret else Some [];
           WriteMethodParams write p0 p1 p2 next num]
      else Some []
  | LocalsType num l0 l1 l2 l3 next =>
      write_all [Some (IL_META_CALLCONV_LOCAL_SIG :: WriteValue num);
                 WriteLocalVars write l0 l1 l2 l3 next num]
  | SentinelType => Some [IL_META_ELEMTYPE_SENTINEL]
  | VarType kind num =>
      let kind := Z.land kind 0xFF in
      if kind =? IL_TYPE_COMPLEX_MVAR then Some [IL_META_ELEMTYPE_MVAR; uchar num]
      else if kind =? IL_TYPE_COMPLEX_VAR then Some [IL_META_ELEMTYPE_VAR; uchar num]
      else Some []
  | ParamsBlock _ _ _ _ _ => Some []
  end.

(** The contents of the blobs. *)
Definition ILTypeToMethodSig (type : ILType) : option (list Z) := WriteType type false.
Definition ILTypeToFieldSig (type : ILType) : option (list Z) :=
  write_all [Some [IL_META_CALLCONV_FIELD]; WriteType type true].
Definition ILTypeToOtherSig (type : ILType) : option (list Z) := WriteType type true.
End write.
