(* ===== verification/SigRoundtrip.v ===== *)
(** * SigRoundtrip: signatures that are written are read back

    The reader of SigParse undoes the writer of SigWriter on the types that have
    an encoding: [encodable] says which they are, by the places where the reader
    accepts a type.  The list of all classes of the writer's image and what the
    reader finds for a token are hypotheses on the classes that occur. *)
From S2P Require Import Prelude ILMeta ILTypes Program SampleProgram MetaCompress SigParse SigSafe SigWriter.

(** ** Reading what is at the cursor *)

(** [m] reads [bytes] and has the result [a]. *)
Definition reads {A} (m : R A) (bytes : list Z) (a : A) : Prop :=
  forall rest n, 0 <= n ->
    m (mk_meta (bytes ++ rest) (Z.of_nat (length bytes) + n) false) = Done a (mk_meta rest n false).

Lemma reads_ret {A} (a : A) : reads (mret a) [] a.
Proof. done. Qed.

Lemma reads_bind {A B} (m : R A) (f : A -> R B) bytes bytes' a b :
  reads m bytes a -> reads (f a) bytes' b -> reads (m ≫= f) (bytes ++ bytes') b.
Proof.
  intros Hm Hf rest n Hn. rewrite <- app_assoc. eapply bind_run; [| by apply Hf].
  replace (Z.of_nat (length (bytes ++ bytes')) + n)
    with (Z.of_nat (length bytes) + (Z.of_nat (length bytes') + n)) by (rewrite length_app; lia).
  apply Hm. lia.
Qed.

(** The same with nothing read first or behind. *)
Lemma reads_bind_r {A B} (m : R A) (f : A -> R B) bytes a b :
  reads m bytes a -> reads (f a) [] b -> reads (m ≫= f) bytes b.
Proof. intros Hm Hf. rewrite <- (app_nil_r bytes). by eapply reads_bind. Qed.
Lemma reads_bind_l {A B} (m : R A) (f : A -> R B) bytes a b :
  reads m [] a -> reads (f a) bytes b -> reads (m ≫= f) bytes b.
Proof. intros Hm Hf. exact (reads_bind m f [] bytes a b Hm Hf). Qed.

Lemma reads_lift {A} w (o : option A) a : o = Some a -> reads (lift w o) [] a.
Proof. by intros ->. Qed.

(** The fuel is the number of bytes that are left. *)
Lemma reads_fuel {A} (f : nat -> R A) bytes a :
  (forall fuel, (length bytes < fuel)%nat -> reads (f fuel) bytes a) ->
  reads (fuel ← get (fun m => S (length (data m))); f fuel) bytes a.
Proof.
  intros Hf rest n Hn. unfold get, mbind, comp_bind. apply Hf; [| done].
  cbn [data]. rewrite length_app. lia.
Qed.

Section items.
Context `{Host}.

Lemma reads_data v : 0 <= v < 2 ^ 32 -> reads read_data (ILMetaCompressData v) v.
Proof.
  intros Hv rest n Hn. unfold read_data, cursor_read.
  by rewrite (read_data_item v rest n false Hv Hn).
Qed.
Lemma reads_small v : 0 <= v < 0x80 -> reads read_data [v] v.
Proof.
  intros Hv. pose proof (reads_data v ltac:(lia)) as Hr.
  rewrite CompressData_spec in Hr by lia. by rewrite (proj2 (Z.ltb_lt v (2 ^ 7))) in Hr by lia.
Qed.
Lemma reads_token v :
  0 <= v < 2 ^ 32 -> ILMetaCompressToken v <> [] -> reads read_token (ILMetaCompressToken v) v.
Proof.
  intros Hv Hne rest n Hn. unfold read_token, cursor_read.
  by rewrite (read_any_token v rest n Hv Hn Hne).
Qed.
Lemma reads_int v : - 2 ^ 28 <= v < 2 ^ 28 -> reads read_int (ILMetaCompressInt v) v.
Proof.
  intros Hv rest n Hn. unfold read_int, cursor_read. by rewrite (read_int_item v rest n false Hv Hn).
Qed.
Lemma reads_byte b : reads read_byte [b] (Some b).
Proof.
  intros rest n Hn. unfold read_byte. cbn -[Z.of_nat].
  destruct (Z.ltb_spec 0 (Z.of_nat 1 + n)); [| lia].
  by replace (Z.of_nat 1 + n - 1) with n by lia.
Qed.
Lemma reads_skip b : reads (skip_byte b) [b] true.
Proof.
  intros rest n Hn. unfold skip_byte. cbn -[Z.of_nat].
  destruct (Z.leb_spec 1 (Z.of_nat 1 + n)); [| lia].
  rewrite Z.eqb_refl. by replace (Z.of_nat 1 + n - 1) with n by lia.
Qed.
(** Before another byte nothing happens. *)
Lemma reads_not_skipped {B} b b' bytes (f : bool -> R B) r :
  b' <> b -> reads (f false) (b' :: bytes) r -> reads (skip_byte b ≫= f) (b' :: bytes) r.
Proof.
  intros Hb Hf rest n Hn. rewrite <- (Hf rest n Hn). unfold mbind, comp_bind, skip_byte.
  cbn [len data meta_next app]. destruct (Z.leb_spec 1 (Z.of_nat (length (b' :: bytes)) + n));
    [| cbn in *; lia].
  by rewrite (proj2 (Z.eqb_neq b' b)).
Qed.

(** ** Array shapes *)

(** The type with these dimensions, the outermost first. *)
Fixpoint array_chain (dims : list (Z * Z)) (elem : ILType) : ILType :=
  match dims with
  | [] => elem
  | [d] => ArrayType IL_TYPE_COMPLEX_ARRAY elem d.1 d.2
  | d :: dims => ArrayType IL_TYPE_COMPLEX_ARRAY_CONTINUE (array_chain dims elem) d.1 d.2
  end.

Definition chain_kind (dims : list (Z * Z)) : Z :=
  match dims with [] => IL_TYPE_COMPLEX_ARRAY | _ => IL_TYPE_COMPLEX_ARRAY_CONTINUE end.

Lemma array_chain_cons d dims elem :
  array_chain (d :: dims) elem
  = ArrayType (chain_kind dims) (array_chain dims elem) d.1 d.2.
Proof. by destruct dims. Qed.

Lemma chain_kind_insert i d dims : chain_kind (<[i := d]> dims) = chain_kind dims.
Proof. destruct dims; [done |]. by destruct i. Qed.

Lemma set_size_chain dims i v elem d :
  dims !! i = Some d ->
  ILTypeSetSize (array_chain dims elem) i v
  = Some (array_chain (<[i := (v, d.2)]> dims) elem).
Proof.
  revert i. induction dims as [| d' dims IH]; intros i Hi; [done |].
  rewrite array_chain_cons. destruct i as [| i]; cbn [ILTypeSetSize].
  - injection Hi as ->. cbn [insert list_insert].
    by rewrite array_chain_cons.
  - rewrite (IH i Hi). cbn [insert list_insert].
    by rewrite array_chain_cons, chain_kind_insert.
Qed.
Lemma set_low_chain dims i v elem d :
  dims !! i = Some d ->
  ILTypeSetLowBound (array_chain dims elem) i v
  = Some (array_chain (<[i := (d.1, v)]> dims) elem).
Proof.
  revert i. induction dims as [| d' dims IH]; intros i Hi; [done |].
  rewrite array_chain_cons. destruct i as [| i]; cbn [ILTypeSetLowBound].
  - injection Hi as ->. cbn [insert list_insert].
    by rewrite array_chain_cons.
  - rewrite (IH i Hi). cbn [insert list_insert].
    by rewrite array_chain_cons, chain_kind_insert.
Qed.

Lemma create_array_chain n elem :
  (0 < n)%nat -> ILTypeCreateArray (Z.of_nat n) elem = array_chain (replicate n (0, 0)) elem.
Proof.
  intros Hn. unfold ILTypeCreateArray.
  replace (Z.to_nat (Z.of_nat n - 1)) with (n - 1)%nat by lia.
  destruct n as [| n]; [lia |]. replace (S n - 1)%nat with n by lia. clear Hn.
  assert (forall n m, continue_array n (array_chain (replicate (S m) (0, 0)) elem)
    = array_chain (replicate (S (n + m)) (0, 0)) elem) as Hc.
  { clear. induction n as [| n IH]; intros m; [done |].
    replace (S (S n + m)) with (S (n + S m)) by lia. rewrite <- (IH (S m)). done. }
  rewrite (Hc n 0%nat : continue_array n (ArrayType IL_TYPE_COMPLEX_ARRAY elem 0 0) = _).
  by rewrite Nat.add_0_r.
Qed.

Definition dim_ok (d : Z * Z) : Prop := 0 <= d.1 < 2 ^ 28 /\ - 2 ^ 28 <= d.2 < 2 ^ 28.

Lemma int32_small v : - 2 ^ 28 <= v < 2 ^ 28 -> int32 v = v.
Proof. intros. apply to_signed_small; lia. Qed.

Lemma reads_sizes todo done elem :
  Forall dim_ok todo ->
  reads (parse_sizes (length todo) (length done)
      (array_chain (done ++ replicate (length todo) (0, 0)) elem))
    (@concat Z ((fun d => ILMetaCompressInt d.1) <$> todo))
    (Some (array_chain (done ++ ((fun d => (d.1, 0)) <$> todo)) elem)).
Proof.
  revert done. induction todo as [| d todo IH]; intros done Hok; [apply reads_ret |].
  apply Forall_cons in Hok as [[Hd _] Hok]. cbn [length parse_sizes fmap list_fmap concat].
  eapply reads_bind; [apply reads_int; lia |]. rewrite (proj2 (Z.ltb_ge d.1 0)) by lia.
  rewrite int32_small by lia. eapply reads_bind_l.
  { apply reads_lift. apply (set_size_chain _ _ _ _ (0, 0)), list_lookup_middle. done. }
  rewrite insert_app_r_alt, Nat.sub_diag by done. cbn [replicate insert list_insert snd].
  specialize (IH (done ++ [(d.1, 0)]) Hok). rewrite length_app, <- !app_assoc in IH.
  cbn [length app] in IH. by rewrite Nat.add_1_r in IH.
Qed.

Lemma reads_low_bounds todo done elem :
  Forall dim_ok todo ->
  reads (parse_low_bounds (length todo) (length done)
      (array_chain (done ++ ((fun d => (d.1, 0)) <$> todo)) elem))
    (@concat Z ((fun d => ILMetaCompressInt d.2) <$> todo))
    (array_chain (done ++ todo) elem).
Proof.
  revert done. induction todo as [| d todo IH]; intros done Hok; [apply reads_ret |].
  apply Forall_cons in Hok as [[_ Hd] Hok]. cbn [length parse_low_bounds fmap list_fmap concat].
  eapply reads_bind; [apply reads_int; lia |]. rewrite int32_small by lia.
  eapply reads_bind_l.
  { apply reads_lift. apply (set_low_chain _ _ _ _ (d.1, 0)), list_lookup_middle. done. }
  rewrite insert_app_r_alt, Nat.sub_diag by done. cbn [insert list_insert fst].
  specialize (IH (done ++ [d]) Hok). rewrite length_app, <- !app_assoc in IH.
  cbn [length app] in IH. rewrite Nat.add_1_r in IH. by destruct d.
Qed.

Lemma array_shape_chain dims elem : dims <> [] -> array_shape (array_chain dims elem) = dims.
Proof.
  induction dims as [| d dims IH]; intros Hne; [done |]. rewrite array_chain_cons.
  destruct dims as [| d' dims]; cbn [array_shape chain_kind].
  - by destruct d.
  - cbn -[array_chain]. rewrite IH by done. by destruct d.
Qed.

Lemma shape_sizes_zero (dims : list (Z * Z)) :
  existsb (fun d => negb (d.2 =? 0) || negb (d.1 =? 0)) dims = false ->
  (fun d => (d.1, 0)) <$> dims = replicate (length dims) (0, 0).
Proof.
  induction dims as [| [s l] dims IH]; [done |]. cbn. intros [Hd Ht]%orb_false_iff.
  apply orb_false_iff in Hd as [_ Hs%negb_false_iff%Z.eqb_eq]. cbn in Hs. subst s.
  by rewrite (IH Ht).
Qed.

Lemma reads_shape dims elem :
  dims <> [] -> Forall dim_ok dims -> Z.of_nat (length dims) < 2 ^ 32 ->
  reads (ParseArrayShape elem) (write_shape (array_chain dims elem)) (array_chain dims elem).
Proof.
  intros Hne Hok Hlen. unfold write_shape. rewrite array_shape_chain by done.
  set (rank := Z.of_nat (length dims)) in *.
  assert (0 < length dims)%nat as Hpos by (destruct dims; cbn; [done | lia]).
  unfold ParseArrayShape, WriteValue, WriteIntValue.
  eapply reads_bind; [apply reads_data; lia |].
  rewrite (proj2 (Z.eqb_neq rank 0)) by lia. cbv zeta.
  rewrite (create_array_chain (length dims) elem Hpos : ILTypeCreateArray rank elem = _).
  assert (reads (parse_low_bounds (length dims) 0
      (array_chain ((fun d => (d.1, 0)) <$> dims) elem))
    (@concat Z ((fun d => ILMetaCompressInt d.2) <$> dims)) (array_chain dims elem)) as Hlow
    by exact (reads_low_bounds dims [] elem Hok).
  assert (forall sizes bytes, 0 <= sizes <= rank ->
    reads (parse_sizes (Z.to_nat sizes) 0 (array_chain (replicate (length dims) (0, 0)) elem)) bytes
      (Some (array_chain ((fun d => (d.1, 0)) <$> dims) elem)) ->
    reads
      (numSizes ← read_data;
       if rank <? numSizes then mret ILType_Invalid
       else
         array ← parse_sizes (Z.to_nat numSizes) 0
                   (array_chain (replicate (length dims) (0, 0)) elem);
         match array with
         | Some array =>
             numLowBounds ← read_data;
             if rank <? numLowBounds then mret ILType_Invalid
             else parse_low_bounds (Z.to_nat numLowBounds) 0 array
         | None => mret ILType_Invalid
         end)
      (ILMetaCompressData sizes ++ bytes ++ ILMetaCompressData rank
       ++ @concat Z ((fun d => ILMetaCompressInt d.2) <$> dims)) (array_chain dims elem)) as Hrest.
  { intros sizes bytes Hs Hsizes. eapply reads_bind; [apply reads_data; lia |].
    rewrite (proj2 (Z.ltb_ge rank sizes)) by lia.
    eapply reads_bind; [exact Hsizes |]. eapply reads_bind; [apply reads_data; lia |].
    rewrite (proj2 (Z.ltb_ge rank rank)) by lia.
    by rewrite (Nat2Z.id _ : Z.to_nat rank = length dims). }
  destruct (existsb _ dims) eqn:En.
  - apply (Hrest rank); [lia |]. unfold rank. rewrite Nat2Z.id.
    exact (reads_sizes dims [] elem Hok).
  - apply (Hrest 0 []); [lia |]. rewrite (shape_sizes_zero dims En). apply reads_ret.
Qed.
End items.

(** ** Lists of entries *)

Lemma write_all_cons x l :
  write_all (x :: l) = (a ← x; b ← write_all l; Some (a ++ b)).
Proof.
  unfold write_all. cbn [mapM]. destruct x as [a |]; [| done]. cbn.
  by destruct (mapM id l).
Qed.

Lemma write_all_skip l : write_all (Some [] :: l) = write_all l.
Proof. rewrite write_all_cons. cbn. by destruct (write_all l). Qed.

Lemma write_all_nested l l' : write_all (l ++ [write_all l']) = write_all (l ++ l').
Proof.
  induction l as [| x l IH]; cbn [app].
  - rewrite write_all_cons. destruct (write_all l'); cbn; [| done]. by rewrite app_nil_r.
  - by rewrite !write_all_cons, IH.
Qed.

Section entries.
Context (W : ILType -> option (list Z)).

Definition write_list (l : list ILType) : option (list Z) := write_all (W <$> l).

(** The pieces of a list of known length. *)
Ltac solve_pieces :=
  change (Z.to_nat (1 - 4)) with 0%nat; change (Z.to_nat (2 - 4)) with 0%nat;
  change (Z.to_nat (3 - 4)) with 0%nat;
  change (Z.to_nat 0) with 0%nat; change (Z.to_nat 1) with 1%nat;
  change (Z.to_nat 2) with 2%nat; change (Z.to_nat 3) with 3%nat;
  rewrite ?take_0; cbn [firstn fmap list_fmap Z.ltb Z.compare Pos.compare Pos.compare_cont];
  rewrite ?write_all_cons; change (write_all []) with (Some (@nil Z));
  repeat (match goal with |- context [W ?p] => destruct (W p); cbn end);
  by rewrite ?app_nil_r.

(** The pieces of [num] entries are those of a list that is cut off. *)
Lemma write_four num p0 p1 p2 p3 rest l :
  0 < num -> rest = write_list (take (Z.to_nat (num - 4)) l) ->
  write_all [W p0; if 1 <? num then W p1 else Some []; if 2 <? num then W p2 else Some [];
             if 3 <? num then W p3 else Some []; rest]
  = write_list (take (Z.to_nat num) (p0 :: p1 :: p2 :: p3 :: l)).
Proof.
  intros Hn ->. unfold write_list.
  assert (num = 1 \/ num = 2 \/ num = 3 \/ 4 <= num) as [-> | [-> | [-> | Hm]]] by lia.
  1-3: solve_pieces.
  rewrite !(proj2 (Z.ltb_lt _ num)) by lia.
  replace (Z.to_nat num) with (S (S (S (S (Z.to_nat (num - 4)))))) by lia.
  exact (write_all_nested [_; _; _; _] _).
Qed.

Lemma write_blocks_spec block n :
  chain_ok block (Z.max 0 n) -> WriteBlocks W block n = write_list (take (Z.to_nat n) (slots block)).
Proof.
  revert n. induction block; intros n; cbn [chain_ok WriteBlocks slots]; try done.
  - intros Hn. rewrite (proj2 (Z.leb_le n 0)) by lia. by rewrite take_nil.
  - intros [Hp Hn]. rewrite (proj2 (Z.leb_gt n 0)) by lia. apply write_four; [lia |].
    apply IHblock5. by replace (Z.max 0 (n - 4)) with (Z.max 0 (Z.max 0 n - 4)) by lia.
Qed.

Lemma write_params_spec p0 p1 p2 next n :
  0 <= n -> chain_ok next (Z.max 0 (n - 3)) ->
  WriteMethodParams W p0 p1 p2 next n
  = write_list (take (Z.to_nat n) (p0 :: p1 :: p2 :: slots next)).
Proof.
  intros Hn Hc. unfold WriteMethodParams, write_list.
  assert (n = 0 \/ n = 1 \/ n = 2 \/ 3 <= n) as [-> | [-> | [-> | Hm]]] by lia.
  1-3: solve_pieces.
  rewrite !(proj2 (Z.ltb_lt _ n)) by lia.
  replace (Z.to_nat n) with (S (S (S (Z.to_nat (n - 3))))) by lia. cbn [take fmap list_fmap].
  pose proof (write_blocks_spec next (n - 3) Hc) as Hb.
  destruct (Z.ltb_spec 3 n); [rewrite Hb; exact (write_all_nested [_; _; _] _) |].
  replace n with 3 by lia. change (Z.to_nat (3 - 3)) with 0%nat. solve_pieces.
Qed.

Lemma write_locals_spec l0 l1 l2 l3 next n :
  0 <= n -> chain_ok next (Z.max 0 (n - 4)) ->
  WriteLocalVars W l0 l1 l2 l3 next n
  = write_list (take (Z.to_nat n) (l0 :: l1 :: l2 :: l3 :: slots next)).
Proof.
  intros Hn Hc. unfold WriteLocalVars. destruct (Z.leb_spec n 0).
  - by replace n with 0 by lia.
  - apply write_four; [done |]. by apply write_blocks_spec.
Qed.

Lemma write_list_app l l' :
  write_list (l ++ l') = (a ← write_list l; b ← write_list l'; Some (a ++ b)).
Proof.
  unfold write_list. induction l as [| x l IH]; cbn [app fmap list_fmap].
  - cbn. by destruct (write_all (W <$> l')).
  - rewrite !write_all_cons. change (list_fmap _ _ W (l ++ l')) with (W <$> (l ++ l')).
    rewrite IH. change (list_fmap _ _ W l) with (W <$> l).
    destruct (W x); cbn; [| done]. destruct (write_all (W <$> l)); cbn; [| done].
    destruct (write_all (W <$> l')); cbn; [| done]. by rewrite app_assoc.
Qed.
End entries.

(** ** The signatures that have an encoding *)

(** Append entries to a signature, the sentinel among them. *)
Fixpoint add_entries (type : ILType) (entries : list ILType) : option ILType :=
  match entries with
  | [] => Some type
  | p :: entries =>
      type ← (match p with SentinelType => ILTypeAddSentinel type | _ => ILTypeAddParam type p end);
      add_entries type entries
  end.

(** A method signature: the calling convention, the number of generic
    parameters, the return type, the parameters, and those behind the sentinel
    if there is one. *)
Record method_sig := mkMethodSig {
  sig_conv : Z;
  sig_gen : Z;
  sig_ret : ILType;
  sig_fixed : list ILType;
  sig_extra : option (list ILType)
}.

Definition new_method (ret : ILType) (conv gen : Z) : ILType :=
  ILType_SetNumGen (ILTypeSetCallConv (ILTypeCreateMethod ret) conv) gen.
Definition sig_entries (s : method_sig) : list ILType :=
  sig_fixed s ++ match sig_extra s with None => [] | Some l => SentinelType :: l end.
Definition sig_params (s : method_sig) : list ILType := sig_fixed s ++ default [] (sig_extra s).

(** Its type. *)
Definition method_type (s : method_sig) : option ILType :=
  add_entries (new_method (sig_ret s) (sig_conv s) (sig_gen s)) (sig_entries s).

Definition is_instantiation (conv : Z) : bool :=
  Z.land conv IL_META_CALLCONV_MASK =? IL_META_CALLCONV_INSTANTIATION.
Definition has_generics (conv : Z) : bool := negb (Z.land conv IL_META_CALLCONV_GENERIC =? 0).
Definition ret_categories : Z :=
  Z.lor CATEGORY_CMOD (Z.lor CATEGORY_VOID (Z.lor CATEGORY_TYPEDBYREF CATEGORY_BYREF)).

(** The numbers of the signature are those the reader accepts.  A sentinel has a
    parameter behind it. *)
Definition sig_numbers_ok (s : method_sig) : Prop :=
  0 <= sig_conv s < 128 /\ Z.land (sig_conv s) IL_META_CALLCONV_MASK ∈ method_kinds /\
  0 <= sig_gen s <= (if has_generics (sig_conv s) then 0xFF else 0) /\
  Z.of_nat (length (sig_params s)) <= 0xFFFE /\
  match sig_extra s with
  | None => True
  | Some l => l <> [] /\ (Z.land (sig_conv s) IL_META_CALLCONV_MASK = IL_META_CALLCONV_VARARG \/
                          Z.land (sig_conv s) IL_META_CALLCONV_MASK = IL_META_CALLCONV_C)
  end.

Section encodable.
Context `{Program, SigImage, SigTokens, Host}.

(** The token of the class can be written, and stands for the class. *)
Definition token_ok (info : N) : Prop :=
  0 <= class_token info < 2 ^ 32 /\ ILMetaCompressToken (class_token info) <> [] /\
  ILImageTokenInfo (class_token info) = Some info.

(** [System.Object] and [System.String] have codes of their own. *)
Definition class_ok (info : N) : Prop :=
  if is_system_class info "Object" then ILClassResolveSystem "Object" = Some info
  else if is_system_class info "String" then ILClassResolveSystem "String" = Some info
  else token_ok info.

(** The parts of a signature are [enc]odable. *)
Definition sig_ok (enc : Z -> ILType -> Prop) (s : method_sig) : Prop :=
  sig_numbers_ok s /\
  (is_instantiation (sig_conv s) = true /\ sig_ret s = ILType_Invalid \/
   is_instantiation (sig_conv s) = false /\ enc ret_categories (sig_ret s)) /\
  Forall (enc param_categories) (sig_params s).

(** The types that have an encoding where [categories] are allowed, with at most
    [depth] levels inside. *)
Inductive encodable : nat -> Z -> ILType -> Prop :=
| enc_simple d c e : e ∈ simple_elements -> encodable d c (Primitive e)
| enc_void d c : allows c CATEGORY_VOID = true -> encodable d c (Primitive IL_META_ELEMTYPE_VOID)
| enc_typed_ref d c :
    allows c CATEGORY_TYPEDBYREF = true -> encodable d c (Primitive IL_META_ELEMTYPE_TYPEDBYREF)
| enc_class d c info : class_ok info -> encodable d c (ClassType info)
| enc_value d c info :
    is_system_class info "TypedReference" = false -> token_ok info ->
    encodable d c (ValueType info)
| enc_ptr d c t :
    encodable d (Z.lor CATEGORY_CMOD CATEGORY_VOID) t ->
    encodable (S d) c (RefType IL_TYPE_COMPLEX_PTR t)
| enc_byref d c t :
    allows c CATEGORY_BYREF = true ->
    encodable d (Z.land c (Z.lnot CATEGORY_BYREF)) t ->
    encodable (S d) c (RefType IL_TYPE_COMPLEX_BYREF t)
| enc_pinned d c t :
    allows c CATEGORY_PINNED = true -> encodable d c t ->
    encodable (S d) c (RefType IL_TYPE_COMPLEX_PINNED t)
| enc_szarray d c t :
    encodable d CATEGORY_CMOD t -> encodable (S d) c (array_chain [(0, 0)] t)
| enc_array d c dims t :
    dims <> [] -> dims <> [(0, 0)] -> Forall dim_ok dims -> Z.of_nat (length dims) < 2 ^ 32 ->
    encodable d 0 t -> encodable (S d) c (array_chain dims t)
| enc_modifier d c kind info t :
    allows c CATEGORY_CMOD = true ->
    kind = IL_TYPE_COMPLEX_CMOD_REQD \/ kind = IL_TYPE_COMPLEX_CMOD_OPT -> token_ok info ->
    encodable d c t -> encodable d c (ModifierType kind info t)
| enc_var d c kind n :
    kind = IL_TYPE_COMPLEX_MVAR \/ kind = IL_TYPE_COMPLEX_VAR -> is_byte n ->
    encodable d c (VarType kind n)
| enc_with d c main args t :
    encodable d c main -> Forall (encodable d c) args -> (length args <= 255)%nat ->
    add_entries (ILTypeCreateWith main) args = Some t -> encodable (S d) c t
| enc_method d c s t :
    sig_ok (encodable d) s -> method_type s = Some t -> encodable (S (S d)) c t.
End encodable.

(** ** Modifiers *)

Section roundtrip.
Context `{Program, SigImage, SigTokens, Host}.

Fixpoint mod_chain (mods : list (Z * N)) (t : ILType) : ILType :=
  match mods with [] => t | (kind, info) :: mods => ModifierType kind info (mod_chain mods t) end.

Definition mod_ok (m : Z * N) : Prop :=
  (m.1 = IL_TYPE_COMPLEX_CMOD_REQD \/ m.1 = IL_TYPE_COMPLEX_CMOD_OPT) /\ token_ok m.2.

Definition cmod_code (kind : Z) : Z :=
  if kind =? IL_TYPE_COMPLEX_CMOD_REQD then IL_META_ELEMTYPE_CMOD_REQD else IL_META_ELEMTYPE_CMOD_OPT.

(** The first number of the modifiers and the type, and what is between it and
    the rest of the type; [v] is the first number of the type. *)
Definition first_value (mods : list (Z * N)) (v : Z) : Z :=
  match mods with [] => v | (kind, _) :: _ => cmod_code kind end.
Fixpoint mod_rest (mods : list (Z * N)) (v : Z) : list Z :=
  match mods with
  | [] => []
  | (_, info) :: mods => WriteClassToken info ++ first_value mods v :: mod_rest mods v
  end.

Lemma cmod_code_cases kind :
  cmod_code kind = IL_META_ELEMTYPE_CMOD_REQD \/ cmod_code kind = IL_META_ELEMTYPE_CMOD_OPT.
Proof. unfold cmod_code. case_match; auto. Qed.

Lemma first_value_small mods v : 0 <= v < 0x80 -> 0 <= first_value mods v < 0x80.
Proof.
  intros Hv. destruct mods as [| [kind info] mods]; cbn; [done |].
  destruct (cmod_code_cases kind) as [-> | ->]; done.
Qed.

Lemma reads_class_token info : token_ok info -> reads read_token (WriteClassToken info) (class_token info).
Proof. intros (Hr & Hne & _). by apply reads_token. Qed.

Lemma mod_rest_length mods v : (length mods <= length (mod_rest mods v))%nat.
Proof.
  induction mods as [| [kind info] mods IH]; cbn [mod_rest length]; [lia |].
  rewrite length_app. cbn [length]. lia.
Qed.

Lemma add_modifiers_chain mods t :
  mods <> [] -> ILTypeAddModifiers (mod_chain mods ILType_Invalid) t = Some (mod_chain mods t).
Proof.
  induction mods as [| [k i] mods IH]; [done |]. intros _.
  destruct mods as [| [k' i'] mods]; [done |].
  cbn [mod_chain ILTypeAddModifiers] in *. by rewrite IH.
Qed.

Lemma mod_chain_app mods mods' t : mod_chain (mods ++ mods') t = mod_chain mods (mod_chain mods' t).
Proof. induction mods as [| [k i] mods IH]; cbn; [done |]. by rewrite IH. Qed.

Lemma create_modifier_chain acc kind info :
  ILTypeCreateModifier (mod_chain acc ILType_Invalid) kind info
  = Some (mod_chain (acc ++ [(kind, info)]) ILType_Invalid).
Proof.
  rewrite mod_chain_app. destruct acc as [| [k i] acc]; [done |].
  by rewrite <- add_modifiers_chain.
Qed.

Lemma reads_modifiers fuel c acc mods v :
  (length mods <= fuel)%nat -> Forall mod_ok mods -> mods = [] \/ allows c CATEGORY_CMOD = true ->
  0 <= v < 0x80 -> is_cmod v = false ->
  reads (parse_modifiers fuel c (first_value mods v) (mod_chain acc ILType_Invalid))
    (mod_rest mods v) (Some (v, mod_chain (acc ++ mods) ILType_Invalid)).
Proof.
  intros Hf Hok Hc Hv Hcv. revert fuel acc Hf.
  induction mods as [| [kind info] mods IH]; intros fuel acc Hf.
  - rewrite app_nil_r. destruct fuel; cbn [parse_modifiers first_value mod_rest];
      fold (is_cmod v); rewrite Hcv; apply reads_ret.
  - cbn [length] in Hf. destruct fuel as [| fuel]; [lia |].
    destruct Hc as [| Hc]; [done |]. apply Forall_cons in Hok as [[Hkind Htok] Hok].
    cbn [fst snd] in *. cbn [parse_modifiers first_value mod_rest].
    fold (is_cmod (cmod_code kind)).
    assert (is_cmod (cmod_code kind) = true) as -> by (by destruct (cmod_code_cases kind) as [-> | ->]).
    rewrite Hc. cbn [negb].
    assert ((if cmod_code kind =? IL_META_ELEMTYPE_CMOD_REQD then IL_TYPE_COMPLEX_CMOD_REQD
             else IL_TYPE_COMPLEX_CMOD_OPT) = kind) as -> by (by destruct Hkind as [-> | ->]).
    eapply reads_bind; [by apply reads_class_token |].
    destruct Htok as (_ & _ & ->).
    eapply reads_bind_l; [apply reads_lift, create_modifier_chain |].
    change (first_value mods v :: mod_rest mods v) with ([first_value mods v] ++ mod_rest mods v).
    eapply reads_bind; [by apply reads_small, first_value_small |].
    replace (acc ++ (kind, info) :: mods) with ((acc ++ [(kind, info)]) ++ mods)
      by by rewrite <- app_assoc.
    apply IH; [done | by right | lia].
Qed.

(** ** Types behind their modifiers *)

(** What is written for [t] is read back by [m]. *)
Definition readable (m : R ILType) (t : ILType) : Prop :=
  exists b tail, WriteType t true = Some (b :: tail) /\ reads m (b :: tail) t /\
    b <> IL_META_ELEMTYPE_SENTINEL /\
    (b = IL_META_ELEMTYPE_PINNED -> exists r, t = RefType IL_TYPE_COMPLEX_PINNED r) /\
    is_invalid t = false /\ t <> SentinelType.

(** The same for a type without modifiers, behind its first byte. *)
Definition readable_main (inner : option parser) (c : Z) (t : ILType) : Prop :=
  exists v tail, WriteType t true = Some (v :: tail) /\ reads (parse_main inner c v) tail t /\
    (0 <= v < 0x80 /\ is_cmod v = false) /\ v <> IL_META_ELEMTYPE_SENTINEL /\
    (v = IL_META_ELEMTYPE_PINNED -> exists r, t = RefType IL_TYPE_COMPLEX_PINNED r) /\
    is_invalid t = false /\ t <> SentinelType.

Lemma write_chain mods t v tail :
  Forall mod_ok mods -> WriteType t true = Some (v :: tail) ->
  WriteType (mod_chain mods t) true = Some (first_value mods v :: mod_rest mods v ++ tail).
Proof.
  intros Hok Ht. induction Hok as [| [kind info] mods [Hk _] Hok IH]; [done |].
  cbn [mod_chain WriteType first_value mod_rest]. rewrite IH. cbn [fst] in Hk.
  rewrite <- app_assoc. by destruct Hk as [-> | ->]; cbn; rewrite app_nil_r.
Qed.

Lemma readable_body inner c mods t :
  readable_main inner c t -> Forall mod_ok mods -> mods = [] \/ allows c CATEGORY_CMOD = true ->
  readable (elem_body inner c) (mod_chain mods t).
Proof.
  intros (v & tail & Hw & Hr & [Hv Hcv] & Hs & Hp & Hi & Hse) Hok Hc.
  exists (first_value mods v), (mod_rest mods v ++ tail).
  split; [by apply write_chain |]. split_and!.
  - change (first_value mods v :: mod_rest mods v ++ tail)
      with ([first_value mods v] ++ (mod_rest mods v ++ tail)).
    unfold elem_body. eapply reads_bind; [by apply reads_small, first_value_small |].
    apply reads_fuel. intros fuel Hf. rewrite length_app in Hf.
    pose proof (mod_rest_length mods v).
    eapply reads_bind; [apply (reads_modifiers fuel c [] mods v); (done || lia) |].
    cbn [app]. eapply reads_bind_r; [exact Hr |]. rewrite Hi. cbn [negb andb].
    destruct mods as [| [k i] mods]; [apply reads_ret |].
    apply reads_lift. by apply add_modifiers_chain.
  - destruct mods as [| [k i] mods]; cbn; [done |].
    destruct (cmod_code_cases k) as [-> | ->]; done.
  - destruct mods as [| [k i] mods]; cbn; [done |].
    destruct (cmod_code_cases k) as [-> | ->]; done.
  - by destruct mods as [| [k i] mods].
  - by destruct mods as [| [k i] mods].
Qed.

(** Adding entries keeps the node of the signature. *)
Definition is_signature (t : ILType) : bool :=
  match t with MethodType _ _ _ _ _ _ _ _ => true | _ => false end.

Lemma add_param_signature t p t' : ILTypeAddParam t p = Some t' -> is_signature t' = true.
Proof.
  destruct t; try done. cbn. repeat case_match; try by intros [= <-].
  destruct (add_slot _ _ _); [by intros [= <-] | done].
Qed.
Lemma add_sentinel_signature t t' : ILTypeAddSentinel t = Some t' -> is_signature t' = true.
Proof. destruct t; try done. apply add_param_signature. Qed.
Lemma add_entries_signature entries t t' :
  add_entries t entries = Some t' -> is_signature t = true -> is_signature t' = true.
Proof.
  revert t. induction entries as [| p entries IH]; intros t E Ht; [by injection E as <- |].
  cbn in E. apply bind_Some in E as (t1 & E1 & E). apply (IH t1 E).
  destruct p; (by eapply add_param_signature) || by eapply add_sentinel_signature.
Qed.
Lemma method_type_signature s t : method_type s = Some t -> is_signature t = true.
Proof.
  intros E. eapply add_entries_signature; [exact E |].
  unfold new_method, ILTypeCreateMethod, ILTypeSetCallConv. by case_match.
Qed.

Lemma encodable_split d c t :
  encodable d c t ->
  exists mods core, t = mod_chain mods core /\ Forall mod_ok mods /\
    (mods = [] \/ allows c CATEGORY_CMOD = true) /\ encodable d c core /\
    (forall k i u, core <> ModifierType k i u).
Proof.
  induction t; intros Ht;
    try (eexists [], _; split_and!; [done | constructor | by left | exact Ht | done]).
  assert (allows c CATEGORY_CMOD = true /\ mod_ok (kind, info) /\ encodable d c t)
    as (Hc & Hm & Ht').
  { inversion Ht; subst; try done; try (destruct dims as [| ? []]; done).
    - match goal with E : add_entries _ _ = Some _ |- _ => by apply add_entries_signature in E end.
    - match goal with E : method_type _ = Some _ |- _ => by apply method_type_signature in E end. }
  destruct (IHt Ht') as (mods & core & -> & Hok & _ & He & Hne).
  exists ((kind, info) :: mods), core. split_and!; [done | by constructor | by right | done | done].
Qed.

(** ** The cases of a type *)

#[local] Abbreviation W := (fun t => WriteType t true).

(** The parser one level deeper. *)
Definition inner_of (d : nat) : option parser :=
  match d with O => None | S d => Some (parser_at d) end.

Lemma elem_at d c : ParseElemType d c = elem_body (inner_of d) c.
Proof. by destruct d. Qed.

(** A type of one byte. *)
Lemma readable_byte inner c v t :
  WriteType t true = Some [v] -> (forall m, parse_main inner c v m = Done t m) ->
  (0 <= v < 0x80 /\ is_cmod v = false) -> v <> IL_META_ELEMTYPE_SENTINEL ->
  v <> IL_META_ELEMTYPE_PINNED -> is_invalid t = false -> t <> SentinelType ->
  readable_main inner c t.
Proof.
  intros Hw Hp Hv Hs Hn Hi Ht. exists v, []. split_and!; try done; try apply Hv.
  - intros rest n Hr. rewrite Hp. by rewrite Z.add_0_l.
Qed.

Lemma readable_simple inner c e : e ∈ simple_elements -> readable_main inner c (Primitive e).
Proof.
  unfold simple_elements. intros He.
  repeat (apply elem_of_cons in He as [-> | He];
    [match goal with |- readable_main _ _ (Primitive ?v) => by apply (readable_byte _ _ v) end |]).
  by apply elem_of_nil in He.
Qed.

Lemma class_token_nonzero info : token_ok info -> class_token info <> 0.
Proof. intros (_ & Hne & _) E. apply Hne. by rewrite E. Qed.

Lemma reads_parse_class_token make info :
  token_ok info -> reads (parse_class_token make) (WriteClassToken info) (make info).
Proof.
  intros Hok. unfold parse_class_token. eapply reads_bind_r; [by apply reads_class_token |].
  rewrite (proj2 (Z.eqb_neq _ _) (class_token_nonzero info Hok)). cbn [negb].
  destruct Hok as (_ & _ & ->). apply reads_ret.
Qed.

Lemma readable_class inner c info : class_ok info -> readable_main inner c (ClassType info).
Proof.
  unfold class_ok. intros Hok. destruct (is_system_class info "Object") eqn:Eo.
  { apply readable_byte with (v := IL_META_ELEMTYPE_OBJECT); try done.
    - cbn [WriteType]. by rewrite Eo.
    - intros m. unfold parse_main. cbn -[type_from_class]. by rewrite Hok. }
  destruct (is_system_class info "String") eqn:Es.
  { apply readable_byte with (v := IL_META_ELEMTYPE_STRING); try done.
    - cbn [WriteType]. by rewrite Eo, Es.
    - intros m. unfold parse_main. cbn -[type_from_class]. by rewrite Hok. }
  exists IL_META_ELEMTYPE_CLASS, (WriteClassToken info). split_and!; try done.
  - cbn [WriteType]. by rewrite Eo, Es.
  - exact (reads_parse_class_token ClassType info Hok).
Qed.

Lemma readable_value inner c info :
  is_system_class info "TypedReference" = false -> token_ok info ->
  readable_main inner c (ValueType info).
Proof.
  intros Ht Hok. exists IL_META_ELEMTYPE_VALUETYPE, (WriteClassToken info). split_and!; try done.
  - cbn [WriteType]. by rewrite Ht.
  - exact (reads_parse_class_token ValueType info Hok).
Qed.

Lemma reads_parse_var kind n : reads (parse_var kind) [n] (VarType kind n).
Proof. unfold parse_var. eapply reads_bind_r; [apply reads_byte | apply reads_ret]. Qed.

Lemma readable_var inner c kind n :
  kind = IL_TYPE_COMPLEX_MVAR \/ kind = IL_TYPE_COMPLEX_VAR -> is_byte n ->
  readable_main inner c (VarType kind n).
Proof.
  intros Hk Hn. assert (uchar n = n) as Eu by (apply to_unsigned_small; exact Hn).
  exists (if kind =? IL_TYPE_COMPLEX_MVAR then IL_META_ELEMTYPE_MVAR else IL_META_ELEMTYPE_VAR), [n].
  destruct Hk as [-> | ->]; (split_and!; try done;
    [cbn [WriteType]; rewrite Eu; done |]);
    exact (reads_parse_var _ n).
Qed.

(** Types that wrap another one. *)
Lemma reads_wrap m make b tail t :
  reads m (b :: tail) t -> is_invalid t = false -> reads (wrap m make) (b :: tail) (make t).
Proof.
  intros Hr Hi. unfold wrap. eapply reads_bind_r; [exact Hr |]. rewrite Hi. apply reads_ret.
Qed.

Lemma readable_wrap inner c code m make t :
  readable m t -> WriteType (make t) true = write_all [Some [code]; WriteType t true] ->
  parse_main inner c code = wrap m make ->
  (0 <= code < 0x80 /\ is_cmod code = false) -> code <> IL_META_ELEMTYPE_SENTINEL ->
  (code = IL_META_ELEMTYPE_PINNED -> exists r, make t = RefType IL_TYPE_COMPLEX_PINNED r) ->
  is_invalid (make t) = false -> make t <> SentinelType ->
  readable_main inner c (make t).
Proof.
  intros (b & tail & Hw & Hr & _ & _ & Hi & _) Hm Hp Hv Hs Hn Hinv Hse.
  exists code, (b :: tail). split_and!; try done; try apply Hv.
  - rewrite Hm, Hw. unfold write_all. cbn. by rewrite app_nil_r.
  - rewrite Hp. by apply reads_wrap.
Qed.

Lemma readable_ptr p c t :
  readable (parse_elem p (Z.lor CATEGORY_CMOD CATEGORY_VOID)) t ->
  readable_main (Some p) c (RefType IL_TYPE_COMPLEX_PTR t).
Proof. intros Ht. by apply (readable_wrap _ _ IL_META_ELEMTYPE_PTR _ (RefType _) _ Ht). Qed.

Lemma readable_byref p c t :
  allows c CATEGORY_BYREF = true ->
  readable (parse_elem p (Z.land c (Z.lnot CATEGORY_BYREF))) t ->
  readable_main (Some p) c (RefType IL_TYPE_COMPLEX_BYREF t).
Proof.
  intros Hc Ht. apply (readable_wrap _ _ IL_META_ELEMTYPE_BYREF _ (RefType _) _ Ht); try done.
  unfold parse_main. cbn -[allows]. by rewrite Hc.
Qed.

Lemma readable_pinned p c t :
  allows c CATEGORY_PINNED = true -> readable (parse_elem p c) t ->
  readable_main (Some p) c (RefType IL_TYPE_COMPLEX_PINNED t).
Proof.
  intros Hc Ht. apply (readable_wrap _ _ IL_META_ELEMTYPE_PINNED _ (RefType _) _ Ht); try done.
  - unfold parse_main. cbn -[allows]. by rewrite Hc.
  - intros _. by eexists.
Qed.

Lemma readable_szarray p c t :
  readable (parse_elem p CATEGORY_CMOD) t -> readable_main (Some p) c (array_chain [(0, 0)] t).
Proof.
  intros Ht. by apply (readable_wrap _ _ IL_META_ELEMTYPE_SZARRAY _ (ILTypeCreateArray 1) _ Ht).
Qed.

(** ** Arrays *)

Lemma write_array_elem_chain f dims t :
  dims <> [] -> write_array_elem f (array_chain dims t) = f t.
Proof.
  induction dims as [| d dims IH]; [done |]. intros _. rewrite array_chain_cons.
  destruct dims as [| d' dims]; [done |]. cbn [write_array_elem chain_kind]. by apply IH.
Qed.

Lemma write_array dims t :
  dims <> [] -> dims <> [(0, 0)] ->
  WriteType (array_chain dims t) true
  = write_all [Some [IL_META_ELEMTYPE_ARRAY]; WriteType t true;
               Some (write_shape (array_chain dims t))].
Proof.
  intros Hne Hz. destruct dims as [| d dims]; [done |]. rewrite array_chain_cons.
  cbn [WriteType]. destruct dims as [| d' dims]; cbn [chain_kind].
  - destruct d as [size low].
    assert ((low =? 0) && (size =? 0) = false) as E.
    { apply andb_false_iff. destruct (Z.eqb_spec low 0), (Z.eqb_spec size 0); auto. by subst. }
    cbn [fst snd]. rewrite <- andb_assoc, E, andb_false_r. done.
  - by rewrite write_array_elem_chain.
Qed.

Lemma readable_array p c dims t :
  dims <> [] -> dims <> [(0, 0)] -> Forall dim_ok dims -> Z.of_nat (length dims) < 2 ^ 32 ->
  readable (parse_elem p 0) t -> readable_main (Some p) c (array_chain dims t).
Proof.
  intros Hne Hz Hok Hlen (b & tail & Hw & Hr & _ & _ & Hi & _).
  exists IL_META_ELEMTYPE_ARRAY, ((b :: tail) ++ write_shape (array_chain dims t)).
  split_and!; try done.
  - rewrite write_array, Hw by done. unfold write_all. cbn. by rewrite app_nil_r.
  - change (reads (type ← parse_elem p 0;
      if is_invalid type then mret ILType_Invalid else ParseArrayShape type)
      ((b :: tail) ++ write_shape (array_chain dims t)) (array_chain dims t)).
    eapply reads_bind; [exact Hr |]. rewrite Hi. by apply reads_shape.
  - destruct dims as [| d dims]; [done |]. by rewrite array_chain_cons.
  - destruct dims as [| d dims]; [done |]. by rewrite array_chain_cons.
Qed.

(** ** Entries of a signature *)

(** What adding the entries [l] to [t] makes of it, up to the kind. *)
Definition extends (t : ILType) (l : list ILType) (t' : ILType) : Prop :=
  signature_ok t' /\ signature_params t' = signature_params t ++ l /\
  ILTypeGetReturnWithPrefixes t' = ILTypeGetReturnWithPrefixes t /\
  ILType_NumGen t' = ILType_NumGen t.

Lemma add_param_gen t p t' : ILTypeAddParam t p = Some t' -> ILType_NumGen t' = ILType_NumGen t.
Proof.
  destruct t; try done. cbn. repeat case_match; try by intros [= <-].
  destruct (add_slot _ _ _); [by intros [= <-] | done].
Qed.

Lemma add_param_extends t p t' :
  signature_ok t -> ILTypeNumParams t < 2 ^ 16 - 1 -> ILTypeAddParam t p = Some t' ->
  extends t [p] t' /\ kind__ t' = kind__ t /\ ILTypeNumParams t' = ILTypeNumParams t + 1.
Proof.
  intros Hok Hn E. pose proof (add_param_gen t p t' E) as Hg.
  destruct (add_param_spec t p Hok Hn) as (t2 & E2 & Hok2 & Hp & Hk & Hr).
  rewrite E in E2. injection E2 as <-. split; [by split_and! |]. split; [done |].
  by apply (num_params_snoc t t' p).
Qed.

Lemma extends_trans t l t' l' t'' : extends t l t' -> extends t' l' t'' -> extends t (l ++ l') t''.
Proof.
  intros (_ & Hp & Hr & Hg) (Hok & Hp' & Hr' & Hg'). split_and!; [done | | congruence ..].
  by rewrite Hp', Hp, app_assoc.
Qed.

Lemma add_entries_extends l t t' :
  signature_ok t -> ILTypeNumParams t + Z.of_nat (length l) < 2 ^ 16 ->
  Forall (fun p => p <> SentinelType) l -> add_entries t l = Some t' ->
  extends t l t' /\ kind__ t' = kind__ t /\
  ILTypeNumParams t' = ILTypeNumParams t + Z.of_nat (length l).
Proof.
  revert t. induction l as [| p l IH]; intros t Hok Hn Hl E.
  { injection E as <-. split; [| split; [done | cbn; lia]].
    split_and!; [done | by rewrite app_nil_r | done ..]. }
  apply Forall_cons in Hl as [Hp Hl]. cbn [length] in Hn. cbn [add_entries] in E.
  apply bind_Some in E as (t1 & E1 & E).
  assert (ILTypeAddParam t p = Some t1) as Ea by (by destruct p).
  destruct (add_param_extends t p t1 Hok ltac:(lia) Ea) as (Hx & Hk & Hnum).
  destruct (IH t1) as (Hx' & Hk' & Hnum'); [apply Hx | lia | done | done |].
  split_and!; [by apply (extends_trans t [p] t1) | congruence | cbn [length]; lia].
Qed.

Lemma add_entries_app l l' t :
  add_entries t (l ++ l') = (t' ← add_entries t l; add_entries t' l').
Proof.
  revert t. induction l as [| p l IH]; intros t; [done |]. cbn [app add_entries].
  destruct (match p with SentinelType => _ | _ => _ end); [| done]. cbn. apply IH.
Qed.

Lemma add_sentinel_extends t t' :
  signature_ok t -> ILType_IsMethod t = true -> ILTypeNumParams t < 2 ^ 16 - 1 ->
  ILTypeAddSentinel t = Some t' ->
  extends t [SentinelType] t' /\
  kind__ t' = (fun k => Z.lor k IL_TYPE_COMPLEX_METHOD_SENTINEL) <$> kind__ t /\
  ILTypeNumParams t' = ILTypeNumParams t + 1.
Proof.
  intros Hok Hm Hn E.
  destruct (add_sentinel_method t (ILTypeNumParams t)) as (t2 & E2 & Hok2 & _ & Hnum2);
    [by split_and! | lia |].
  rewrite E in E2. injection E2 as <-.
  destruct t as [ | | | | | | kind num ret p0 p1 p2 next gen | | | | |]; try done.
  set (t1 := MethodType (Z.lor kind IL_TYPE_COMPLEX_METHOD_SENTINEL) num ret p0 p1 p2 next gen).
  assert (has_signature t1 = true) as Hs.
  { unfold has_signature. apply orb_true_iff. left. apply orb_true_iff. left.
    unfold ILType_IsMethod, kind_is in *. cbn [kind__ t1] in *.
    apply negb_true_iff, Z.eqb_neq. apply negb_true_iff, Z.eqb_neq in Hm. by apply land_lor_keep. }
  assert (signature_ok t1) as Hok1 by (destruct Hok as (_ & ? & ?); split; [exact Hs | by split]).
  destruct Hok as (Hs0 & _ & _).
  assert (ILTypeNumParams t1 = num) as Hn1.
  { change ((if has_signature t1 then num else 0) = num). by rewrite Hs. }
  unfold ILTypeNumParams in Hn. rewrite Hs0 in Hn.
  destruct (add_param_extends t1 SentinelType t' Hok1 ltac:(lia) E) as (Hx & Hk & _).
  split_and!; [| by rewrite Hk | done]. destruct Hx as (? & Hp & Hr & Hg).
  split_and!; [done | exact Hp | | exact Hg]. rewrite Hr.
  change ((if has_signature t1 then ret else ILType_Invalid)
    = ILTypeGetReturnWithPrefixes (MethodType kind num ret p0 p1 p2 next gen)).
  rewrite Hs. unfold ILTypeGetReturnWithPrefixes. by rewrite Hs0.
Qed.

(** Readable entries are not sentinels, and are written one after the other. *)
Lemma readable_plain m l : Forall (readable m) l -> Forall (fun p => p <> SentinelType) l.
Proof. intros Hl. eapply Forall_impl; [exact Hl |]. by intros p (? & ? & ? & ? & ? & ? & ? & ?). Qed.

Lemma write_readable m l :
  Forall (readable m) l -> exists bytes, write_list W l = Some bytes /\ (length l <= length bytes)%nat.
Proof.
  induction 1 as [| p l (b & tail & Hw & _) Hl (bytes & Hb & Hlen)]; [by exists [] |].
  exists ((b :: tail) ++ bytes). unfold write_list in *. cbn [fmap list_fmap].
  rewrite write_all_cons, Hw. change (list_fmap _ _ W l) with (W <$> l). rewrite Hb.
  split; [done |]. rewrite length_app. cbn [length]. lia.
Qed.

Lemma write_list_cons p l bytes :
  write_list W (p :: l) = Some bytes ->
  exists a b, WriteType p true = Some a /\ write_list W l = Some b /\ bytes = a ++ b.
Proof.
  unfold write_list. cbn [fmap list_fmap]. rewrite write_all_cons.
  intros (a & Ha & (b & Hb & [= <-])%bind_Some)%bind_Some. eauto.
Qed.

Lemma reads_with_params m l type t bytes :
  Forall (readable m) l -> add_entries type l = Some t -> write_list W l = Some bytes ->
  reads (parse_with_params m (length l) type) bytes t.
Proof.
  intros Hl. revert type bytes. induction Hl as [| p l Hp Hl IH]; intros type bytes E Hb.
  { injection E as <-. injection Hb as <-. apply reads_ret. }
  apply write_list_cons in Hb as (a & b & Ha & Hb & ->).
  destruct Hp as (x & tail & Hw & Hr & _ & _ & Hi & Hs). rewrite Hw in Ha. injection Ha as <-.
  cbn [add_entries] in E. apply bind_Some in E as (t1 & E1 & E).
  cbn [length parse_with_params]. eapply reads_bind; [exact Hr |]. rewrite Hi.
  eapply reads_bind_l; [apply reads_lift with (a := t1); by destruct p |]. by apply IH.
Qed.

Lemma reads_property_params m l type t bytes :
  Forall (readable m) l -> add_entries type l = Some t -> write_list W l = Some bytes ->
  reads (property_params (length l) m type) bytes (Some t).
Proof.
  intros Hl. revert type bytes. induction Hl as [| p l Hp Hl IH]; intros type bytes E Hb.
  { injection E as <-. injection Hb as <-. apply reads_ret. }
  apply write_list_cons in Hb as (a & b & Ha & Hb & ->).
  destruct Hp as (x & tail & Hw & Hr & _ & _ & Hi & Hs). rewrite Hw in Ha. injection Ha as <-.
  cbn [add_entries] in E. apply bind_Some in E as (t1 & E1 & E).
  cbn [length property_params]. eapply reads_bind; [exact Hr |]. rewrite Hi.
  eapply reads_bind_l; [apply reads_lift with (a := t1); by destruct p |]. by apply IH.
Qed.

(** A run of parameters of a method, and then what follows. *)
Lemma reads_method_run m l type t bytes bytes' fuel n param (saw : bool) r :
  Forall (readable m) l -> add_entries type l = Some t -> write_list W l = Some bytes ->
  param + Z.of_nat (length l) <= n ->
  reads (method_params fuel m n (param + Z.of_nat (length l)) saw t) bytes' r ->
  reads (method_params (length l + fuel) m n param saw type) (bytes ++ bytes') r.
Proof.
  intros Hl. revert type bytes param. induction Hl as [| p l Hp Hl IH]; intros type bytes param E Hb Hn Hr.
  { injection E as <-. injection Hb as <-. cbn [length app Nat.add] in *. by rewrite Z.add_0_r in Hr. }
  apply write_list_cons in Hb as (a & b & Ha & Hb & ->).
  destruct Hp as (x & tail & Hw & Hp & Hs & _ & Hi & Hse). rewrite Hw in Ha. injection Ha as <-.
  cbn [add_entries] in E. apply bind_Some in E as (t1 & E1 & E). cbn [length] in Hn, Hr.
  cbn [length Nat.add method_params]. rewrite (proj2 (Z.ltb_lt param n)) by lia.
  rewrite <- app_assoc. apply (reads_not_skipped _ x (tail ++ b ++ bytes')); [done |].
  cbv beta iota. change (x :: (tail ++ b ++ bytes')) with ((x :: tail) ++ (b ++ bytes')).
  eapply reads_bind; [exact Hp |]. rewrite Hi.
  eapply reads_bind_l; [apply reads_lift with (a := t1); by destruct p |].
  apply IH; [done .. | lia |]. by replace (param + 1 + Z.of_nat (length l))
    with (param + Z.of_nat (S (length l))) by lia.
Qed.

(** ** Generic types *)

(** How a signature is written, by its parts. *)
Lemma write_with t :
  signature_ok t -> kind__ t = Some IL_TYPE_COMPLEX_WITH ->
  WriteType t true
  = write_all [Some [IL_META_ELEMTYPE_WITH]; WriteType (ILTypeGetReturnWithPrefixes t) true;
               Some [uchar (ILTypeNumParams t)]; write_list W (signature_params t)].
Proof.
  destruct t as [ | | | | | | kind num ret p0 p1 p2 next gen | | | | |]; try done.
  intros (Hs & Hn & Hc) [= ->]. unfold ILTypeGetReturnWithPrefixes, ILTypeNumParams. rewrite Hs.
  cbn [WriteType signature_params]. by rewrite write_params_spec by (lia || done).
Qed.

Lemma write_property t :
  signature_ok t -> kind__ t = Some IL_TYPE_COMPLEX_PROPERTY ->
  WriteType t true
  = write_all [Some (IL_META_CALLCONV_PROPERTY :: WriteValue (ILTypeNumParams t));
               WriteType (ILTypeGetReturnWithPrefixes t) true; write_list W (signature_params t)].
Proof.
  destruct t as [ | | | | | | kind num ret p0 p1 p2 next gen | | | | |]; try done.
  intros (Hs & Hn & Hc) [= ->]. unfold ILTypeGetReturnWithPrefixes, ILTypeNumParams. rewrite Hs.
  cbn [WriteType signature_params]. by rewrite write_params_spec by (lia || done).
Qed.

Lemma readable_with p c main args t :
  readable (parse_elem p c) main -> Forall (readable (parse_elem p c)) args ->
  (length args <= 255)%nat -> add_entries (ILTypeCreateWith main) args = Some t ->
  readable_main (Some p) c t.
Proof.
  intros Hmain Hargs Hlen E.
  destruct (add_entries_extends args (ILTypeCreateWith main) t) as ((Hok & Hp & Hr & _) & Hk & Hn);
    [split; [done | split; [lia | done]]
     | change (ILTypeNumParams (ILTypeCreateWith main)) with 0; lia | by eapply readable_plain | done |].
  change (ILTypeNumParams (ILTypeCreateWith main)) with 0 in Hn. rewrite Z.add_0_l in Hn.
  change (signature_params t = args) in Hp. change (ILTypeGetReturnWithPrefixes t = main) in Hr.
  destruct (write_readable _ args Hargs) as (bytes & Hb & _).
  destruct Hmain as (b & tail & Hw & Hm & _ & _ & Hi & _).
  assert (uchar (ILTypeNumParams t) = Z.of_nat (length args)) as Hu
    by (rewrite Hn; apply to_unsigned_small; lia).
  exists IL_META_ELEMTYPE_WITH, ((b :: tail) ++ Z.of_nat (length args) :: bytes).
  assert (is_signature t = true) as Hsig by (by eapply add_entries_signature).
  split_and!; try done.
  - rewrite (write_with t Hok Hk), Hr, Hw, Hu, Hp, Hb. unfold write_all. cbn.
    by rewrite app_nil_r.
  - change (reads (parse_with (parse_elem p c)) ((b :: tail) ++ Z.of_nat (length args) :: bytes) t).
    unfold parse_with. eapply reads_bind; [exact Hm |]. rewrite Hi.
    change (Z.of_nat (length args) :: bytes) with ([Z.of_nat (length args)] ++ bytes).
    eapply reads_bind; [apply reads_byte |]. cbv beta iota. rewrite Nat2Z.id.
    by apply reads_with_params.
  - by destruct t.
  - by destruct t.
Qed.

(** ** Methods *)

(** The kind of a method signature, and what can be read off it. *)
Definition method_kind (conv : Z) (sentinel : bool) : Z :=
  let kind := Z.lor IL_TYPE_COMPLEX_METHOD (Z.shiftl conv 8) in
  if sentinel then Z.lor kind IL_TYPE_COMPLEX_METHOD_SENTINEL else kind.

Definition kind_facts (conv : Z) (sentinel : bool) : bool :=
  let kind := method_kind conv sentinel in
  (to_signed 16 (Z.lor (Z.land IL_TYPE_COMPLEX_METHOD 0xFF) (Z.shiftl conv 8))
     =? method_kind conv false)
  && (Z.land kind 0xFF =? (if sentinel then 17 else 16))
  && (Z.shiftr kind 8 =? conv)
  && Bool.eqb (Z.land kind IL_TYPE_COMPLEX_METHOD_SENTINEL =? 0) (negb sentinel)
  && (uint32 conv =? conv) && (uchar conv =? conv).

Lemma method_kind_spec conv sentinel : 0 <= conv < 128 -> kind_facts conv sentinel = true.
Proof.
  intros Hc.
  assert (forallb (fun conv => kind_facts conv true && kind_facts conv false) (seqZ 0 128) = true)
    as Ha by by vm_compute.
  rewrite forallb_forall in Ha. specialize (Ha conv).
  rewrite <- list_elem_of_In, elem_of_seqZ, andb_true_iff in Ha.
  destruct (Ha ltac:(lia)), sentinel; done.
Qed.

Definition has_sentinel (s : method_sig) : bool := bool_decide (is_Some (sig_extra s)).

Lemma method_type_spec s t :
  sig_numbers_ok s -> Forall (fun p => p <> SentinelType) (sig_params s) ->
  method_type s = Some t ->
  signature_ok t /\ kind__ t = Some (method_kind (sig_conv s) (has_sentinel s)) /\
  signature_params t = sig_entries s /\ ILTypeGetReturnWithPrefixes t = sig_ret s /\
  ILType_NumGen t = Some (sig_gen s) /\
  ILTypeNumParams t = Z.of_nat (length (sig_entries s)).
Proof.
  intros (Hc & _ & Hg & Hn & _) Hp E. unfold method_type, sig_entries in *.
  set (t0 := new_method (sig_ret s) (sig_conv s) (sig_gen s)) in *.
  destruct (method_start (sig_ret s) (sig_conv s) (sig_gen s) : method_ok t0 0) as (Hok0 & Hm0 & Hn0).
  pose proof (method_kind_spec (sig_conv s) false Hc) as Hk.
  unfold kind_facts in Hk. rewrite !andb_true_iff in Hk. destruct Hk as [[[[[Hk _] _] _] _] _].
  apply Z.eqb_eq in Hk.
  assert (t0 = MethodType (method_kind (sig_conv s) false) 0 (sig_ret s) ILType_Invalid
    ILType_Invalid ILType_Invalid ILType_Invalid (sig_gen s)) as Et0.
  { unfold t0, new_method, ILTypeSetCallConv, ILTypeCreateMethod.
    cbn -[Z.land Z.lor Z.shiftl to_signed uint32 method_kind]. rewrite <- Hk.
    change (negb (Z.land IL_TYPE_COMPLEX_METHOD IL_TYPE_COMPLEX_METHOD =? 0)) with true.
    cbn [orb ILType_SetNumGen]. rewrite uint32_small; [done |]. destruct (has_generics _); lia. }
  unfold sig_params, has_sentinel in *. rewrite add_entries_app in E.
  apply bind_Some in E as (t1 & E1 & E). rewrite length_app in Hn.
  apply Forall_app in Hp as [Hpf Hpe].
  destruct (add_entries_extends (sig_fixed s) t0 t1 Hok0 ltac:(lia) Hpf E1) as ((Hok1 & Hp1 & Hr1 & Hg1) & Hk1 & Hn1).
  assert (signature_params t0 = [] /\ ILTypeGetReturnWithPrefixes t0 = sig_ret s
    /\ kind__ t0 = Some (method_kind (sig_conv s) false) /\ ILType_NumGen t0 = Some (sig_gen s))
    as (Hp0 & Hr0 & Hk0 & Hg0).
  { clearbody t0. subst t0. split_and!; try done. unfold ILTypeGetReturnWithPrefixes.
    destruct Hok0 as [Hs0 _]. by rewrite Hs0. }
  rewrite Hp0 in Hp1. cbn [app] in Hp1.
  destruct (sig_extra s) as [extra |]; cbn [default id] in *.
  - cbn [add_entries] in E. apply bind_Some in E as (t2 & E2 & E).
    assert (ILType_IsMethod t1 = true) as Hm1 by (unfold ILType_IsMethod, kind_is in *; by rewrite Hk1).
    destruct (add_sentinel_extends t1 t2 Hok1 Hm1 ltac:(lia) E2) as ((Hok2 & Hp2 & Hr2 & Hg2) & Hk2 & Hn2).
    destruct (add_entries_extends extra t2 t Hok2 ltac:(lia) Hpe E) as ((Hok3 & Hp3 & Hr3 & Hg3) & Hk3 & Hn3).
    split_and!; [done | | | congruence | congruence | ].
    + rewrite Hk3, Hk2, Hk1, Hk0. done.
    + rewrite Hp3, Hp2, Hp1, <- app_assoc. done.
    + rewrite length_app. cbn [length]. lia.
  - injection E as <-. rewrite app_nil_r. split_and!; [done | | done | congruence | congruence | lia].
    by rewrite Hk1, Hk0.
Qed.

Lemma write_method t kind gen ptr :
  signature_ok t -> kind__ t = Some kind -> is_method_code kind = true ->
  ILType_NumGen t = Some gen ->
  WriteType t ptr
  = write_all
      [Some (if ptr then [IL_META_ELEMTYPE_FNPTR] else []);
       Some (write_method_header kind (ILTypeNumParams t) gen);
       if negb (Z.land (uint32 (Z.shiftr kind 8)) IL_META_CALLCONV_MASK
                =? IL_META_CALLCONV_INSTANTIATION)
       then WriteType (ILTypeGetReturnWithPrefixes t) true else Some [];
       write_list W (signature_params t)].
Proof.
  destruct t as [ | | | | | | k num ret p0 p1 p2 next g | | | | |]; try done.
  intros (Hs & Hn & Hc) [= ->] Hk [= ->]. unfold ILTypeGetReturnWithPrefixes, ILTypeNumParams.
  rewrite Hs. cbn [WriteType signature_params].
  assert ((Z.land kind 0xFF =? IL_TYPE_COMPLEX_PROPERTY) = false
    /\ (Z.land kind 0xFF =? IL_TYPE_COMPLEX_WITH) = false) as [-> ->].
  { unfold is_method_code in Hk. by apply orb_true_iff in Hk as [->%Z.eqb_eq | ->%Z.eqb_eq]. }
  rewrite Hk. by rewrite write_params_spec by (lia || done).
Qed.

(** The bytes of a signature behind its numbers. *)
Definition sig_header (s : method_sig) : list Z :=
  [sig_conv s]
  ++ (if has_generics (sig_conv s) then ILMetaCompressData (sig_gen s) else [])
  ++ ILMetaCompressData (Z.of_nat (length (sig_params s))).

Lemma sig_entries_length s :
  length (sig_entries s) = (length (sig_params s) + (if has_sentinel s then 1 else 0))%nat.
Proof.
  unfold sig_entries, sig_params, has_sentinel. rewrite !length_app.
  destruct (sig_extra s); cbn; lia.
Qed.

Lemma write_sig s t ptr :
  sig_numbers_ok s -> Forall (fun p => p <> SentinelType) (sig_params s) ->
  method_type s = Some t ->
  WriteType t ptr
  = write_all
      [Some (if ptr then [IL_META_ELEMTYPE_FNPTR] else []); Some (sig_header s);
       if negb (is_instantiation (sig_conv s)) then WriteType (sig_ret s) true else Some [];
       write_list W (sig_entries s)].
Proof.
  intros Hs Hp E. destruct (method_type_spec s t Hs Hp E) as (Hok & Hk & Hps & Hr & Hg & Hn).
  destruct Hs as (Hc & _ & Hgen & Hl & _).
  pose proof (method_kind_spec (sig_conv s) (has_sentinel s) Hc) as Hf.
  unfold kind_facts in Hf. rewrite !andb_true_iff, !Z.eqb_eq in Hf.
  destruct Hf as [[[[[_ Hcode] Hshift] Hsent%eqb_prop] Hu] Hb].
  assert (is_method_code (method_kind (sig_conv s) (has_sentinel s)) = true) as Hm
    by (unfold is_method_code; rewrite Hcode; by destruct (has_sentinel s)).
  rewrite (write_method t _ _ ptr Hok Hk Hm Hg), Hr, Hps, Hshift, Hu.
  fold (is_instantiation (sig_conv s)). f_equal. f_equal. f_equal. f_equal.
  unfold write_method_header, sig_header. rewrite Hshift, Hu, Hb, Hsent, negb_involutive.
  fold (has_generics (sig_conv s)). f_equal. f_equal. unfold WriteValue. f_equal.
  rewrite Hn, sig_entries_length. destruct (has_sentinel s); [| lia].
  unfold ulong. pose proof pow_long_ge. rewrite to_unsigned_small; lia.
Qed.

(** The parameters, with a sentinel among them. *)
Lemma reads_params m s t bytes :
  sig_numbers_ok s -> Forall (readable m) (sig_params s) -> method_type s = Some t ->
  write_list W (sig_entries s) = Some bytes ->
  let n := Z.of_nat (length (sig_params s)) in
  reads (method_params (S (S (Z.to_nat n))) m n 0 false
      (new_method (sig_ret s) (sig_conv s) (sig_gen s)))
    bytes (Some (has_sentinel s, t)).
Proof.
  intros (_ & _ & _ & Hlen & Hextra) Hp E Hb n. unfold method_type, sig_entries in *.
  rewrite add_entries_app in E. apply bind_Some in E as (t1 & E1 & E).
  unfold sig_params, has_sentinel in *. apply Forall_app in Hp as [Hpf Hpe].
  rewrite write_list_app in Hb. apply bind_Some in Hb as (fixed & Hfixed & Hb).
  apply bind_Some in Hb as (extra_bytes & Hextra_bytes & [= <-]).
  rewrite length_app in Hlen. subst n. rewrite Nat2Z.id, !length_app.
  destruct (sig_extra s) as [extra |]; cbn [default id length] in *.
  - replace (S (S (length (sig_fixed s) + length extra)))%nat
      with (length (sig_fixed s) + S (length extra + 1))%nat by lia.
    cbn [add_entries] in E. apply bind_Some in E as (t2 & E2 & E).
    apply write_list_cons in Hextra_bytes as (a & b & [= <-] & Hb & ->).
    destruct Hextra as [Hne _]. assert (0 < length extra)%nat by (destruct extra; cbn; [done | lia]).
    apply (reads_method_run m (sig_fixed s) _ t1); [done .. | lia |]. rewrite Z.add_0_l.
    cbn [method_params]. rewrite (proj2 (Z.ltb_lt (Z.of_nat (length (sig_fixed s))) _)) by lia.
    eapply reads_bind; [apply reads_skip |]. cbv beta iota.
    rewrite (proj2 (Z.ltb_ge 0xFFFE _)) by lia. cbn [orb].
    eapply reads_bind_l; [by apply reads_lift |].
    rewrite <- (app_nil_r b). apply (reads_method_run m extra _ t); [done .. | lia |].
    cbn [method_params]. rewrite (proj2 (Z.ltb_ge _ _)) by lia. apply reads_ret.
  - injection E as <-. injection Hextra_bytes as <-. rewrite Nat.add_0_r.
    replace (S (S (length (sig_fixed s)))) with (length (sig_fixed s) + 2)%nat by lia.
    apply (reads_method_run m (sig_fixed s) _ t1); [done .. | lia |]. rewrite Z.add_0_l.
    cbn [method_params]. rewrite Z.ltb_irrefl. apply reads_ret.
Qed.

(** A parser reads the parts of a signature. *)
Definition sig_readable (p : parser) (s : method_sig) : Prop :=
  sig_numbers_ok s /\
  (is_instantiation (sig_conv s) = true /\ sig_ret s = ILType_Invalid \/
   is_instantiation (sig_conv s) = false /\ readable (parse_elem p ret_categories) (sig_ret s)) /\
  Forall (readable (parse_elem p param_categories)) (sig_params s).

Lemma sentinel_conv s t :
  sig_numbers_ok s -> Forall (fun p => p <> SentinelType) (sig_params s) ->
  method_type s = Some t ->
  call_conv t = Some (Z.land (sig_conv s) IL_META_CALLCONV_MASK) /\
  (has_sentinel s && negb (Z.land (sig_conv s) IL_META_CALLCONV_MASK =? IL_META_CALLCONV_VARARG)
   && negb (Z.land (sig_conv s) IL_META_CALLCONV_MASK =? IL_META_CALLCONV_C)) = false.
Proof.
  intros Hs Hp E. destruct (method_type_spec s t Hs Hp E) as (_ & Hk & _).
  destruct Hs as (Hc & _ & _ & _ & Hx).
  pose proof (method_kind_spec (sig_conv s) (has_sentinel s) Hc) as Hf.
  unfold kind_facts in Hf. rewrite !andb_true_iff, !Z.eqb_eq in Hf.
  destruct Hf as [[[[[_ _] Hshift] _] _] _]. unfold call_conv. rewrite Hk. cbn [fmap option_fmap option_map].
  rewrite Hshift. split; [done |]. unfold has_sentinel.
  destruct (sig_extra s); [| done]. by destruct Hx as [_ [-> | ->]].
Qed.

Lemma reads_method_sig p s t :
  sig_readable p s -> method_type s = Some t ->
  exists bytes,
    (if negb (is_instantiation (sig_conv s)) then WriteType (sig_ret s) true else Some [])
      ≫= (fun a => b ← write_list W (sig_entries s); Some (a ++ b)) = Some bytes /\
    reads (parse_method_sig (parse_elem p) (sig_conv s) (sig_gen s)
             (Z.of_nat (length (sig_params s)))) bytes
      (Some (if has_sentinel s then SIGNATURE_METHOD_REF else SIGNATURE_METHOD_DEF, t)).
Proof.
  intros (Hs & Hret & Hp) E. pose proof (readable_plain _ _ Hp) as Hplain.
  destruct (sentinel_conv s t Hs Hplain E) as [Hconv Hsent].
  assert (exists bytes, write_list W (sig_entries s) = Some bytes) as [bytes Hb].
  { unfold sig_entries, sig_params in *. rewrite write_list_app.
    apply Forall_app in Hp as [Hpf Hpe].
    destruct (write_readable _ _ Hpf) as (a & -> & _). cbn.
    destruct (sig_extra s) as [l |]; cbn in Hpe; [| by eexists].
    destruct (write_readable _ _ Hpe) as (b & Hb & _). unfold write_list in *.
    cbn [fmap list_fmap]. rewrite write_all_cons. change (list_fmap _ _ W l) with (W <$> l).
    rewrite Hb. by eexists. }
  pose proof (reads_params _ s t bytes Hs Hp E Hb) as Hr. cbv zeta in Hr.
  unfold parse_method_sig. fold (is_instantiation (sig_conv s)). rewrite Hb.
  destruct Hret as [[-> Er] | [-> (b & tail & Hw & Hm & _ & _ & Hi & _)]]; cbn [negb andb].
  - exists bytes. split; [done |]. eapply reads_bind_l; [apply reads_ret |]. rewrite <- Er.
    eapply reads_bind_r; [exact Hr |]. cbv beta iota.
    eapply reads_bind_l; [by apply reads_lift |]. rewrite Hsent. apply reads_ret.
  - exists ((b :: tail) ++ bytes). rewrite Hw. split; [done |].
    eapply reads_bind; [exact Hm |]. rewrite Hi.
    eapply reads_bind_r; [exact Hr |]. cbv beta iota.
    eapply reads_bind_l; [by apply reads_lift |]. rewrite Hsent. apply reads_ret.
Qed.

(** A whole signature, by itself and as the type of a pointer. *)
Lemma reads_sig p s t :
  sig_readable p s -> method_type s = Some t ->
  exists bytes,
    WriteType t false = Some bytes /\
    WriteType t true = Some (IL_META_ELEMTYPE_FNPTR :: bytes) /\
    reads (sig_body (Some p)) bytes
      (Some (if has_sentinel s then SIGNATURE_METHOD_REF else SIGNATURE_METHOD_DEF, t)).
Proof.
  intros Hs E. destruct (reads_method_sig p s t Hs E) as (body & Hb & Hr).
  destruct Hs as (Hnum & _ & Hp). pose proof (readable_plain _ _ Hp) as Hplain.
  apply bind_Some in Hb as (a & Ha & (b & Hb & [= <-])%bind_Some).
  exists (sig_header s ++ a ++ b). rewrite !(write_sig s t) by done. rewrite Ha, Hb.
  split; [unfold write_all; cbn; by rewrite app_nil_r |].
  split; [unfold write_all; cbn; by rewrite app_nil_r |].
  destruct Hnum as (Hc & Hk & Hg & Hn & _). unfold sig_header, sig_body.
  rewrite <- !app_assoc. eapply reads_bind; [by apply reads_small |]. cbv zeta.
  rewrite bool_decide_true by done. fold (has_generics (sig_conv s)).
  eapply reads_bind with (a := sig_gen s).
  { destruct (has_generics (sig_conv s)); [apply reads_data; lia |].
    replace (sig_gen s) with 0 by lia. apply reads_ret. }
  rewrite (proj2 (Z.ltb_ge 0xFF _)) by (destruct (has_generics _); lia).
  eapply reads_bind; [apply reads_data; lia |].
  by rewrite (proj2 (Z.ltb_ge 0xFFFF _)) by lia.
Qed.

Lemma readable_fnptr p p' c s t :
  parse_sig p = sig_body (Some p') -> sig_readable p' s -> method_type s = Some t ->
  readable_main (Some p) c t.
Proof.
  intros Hsig Hs E. destruct (reads_sig p' s t Hs E) as (bytes & _ & Hw & Hr).
  pose proof (method_type_signature s t E) as Ht.
  exists IL_META_ELEMTYPE_FNPTR, bytes. split_and!; try done; [| by destruct t | by destruct t].
  match goal with |- reads ?m _ _ =>
    change m with (result ← parse_sig p;
      mret (match result with
            | Some (kind, type) =>
                if (kind =? SIGNATURE_METHOD_DEF) || (kind =? SIGNATURE_METHOD_REF)
                then type else ILType_Invalid
            | None => ILType_Invalid
            end) : R ILType) end.
  rewrite Hsig. eapply reads_bind_r; [exact Hr |].
  destruct (has_sentinel s); apply reads_ret.
Qed.

(** ** All types *)

Lemma sig_readable_at d s :
  (forall c t, encodable d c t -> readable (ParseElemType d c) t) ->
  sig_ok (encodable d) s -> sig_readable (parser_at d) s.
Proof.
  intros IH (Hs & Hret & Hp). split; [done |]. split.
  - destruct Hret as [? | [? ?]]; [by left | right; split; [done | by apply IH]].
  - eapply Forall_impl; [exact Hp |]. intros t. apply IH.
Qed.

Lemma encodable_readable d c t : encodable d c t -> readable (ParseElemType d c) t.
Proof.
  revert d c t. refine (well_founded_ind lt_wf _ _). intros d IH c t Ht. rewrite elem_at.
  destruct (encodable_split d c t Ht) as (mods & core & -> & Hok & Hc & He & Hne). clear Ht.
  apply readable_body; [| done ..].
  inversion He; subst; cbn [inner_of]; try by edestruct Hne.
  - by apply readable_simple.
  - apply readable_byte with (v := IL_META_ELEMTYPE_VOID); try done.
    intros m. unfold parse_main. cbn -[allows]. by match goal with E : allows _ _ = _ |- _ => rewrite E end.
  - apply readable_byte with (v := IL_META_ELEMTYPE_TYPEDBYREF); try done.
    intros m. unfold parse_main. cbn -[allows]. by match goal with E : allows _ _ = _ |- _ => rewrite E end.
  - by apply readable_class.
  - by apply readable_value.
  - apply readable_ptr. by apply IH; [lia |].
  - apply readable_byref; [done |]. by apply IH; [lia |].
  - apply readable_pinned; [done |]. by apply IH; [lia |].
  - apply readable_szarray. by apply IH; [lia |].
  - apply readable_array; try done. by apply IH; [lia |].
  - by apply readable_var.
  - match goal with E : add_entries _ _ = Some _ |- _ => eapply readable_with; [| | | exact E] end;
      [by apply IH; [lia |] | | done].
    eapply Forall_impl; [done |]. intros arg Ha. apply IH; [lia | exact Ha].
  - match goal with Hs : sig_ok (encodable ?d) ?s |- readable_main (Some (parser_at (S ?d))) _ _ =>
      apply (readable_fnptr (parser_at (S d)) (parser_at d) _ s); try done;
      apply sig_readable_at; [intros c' t'; apply IH; lia | done] end.
Qed.

(** ** Blobs *)

(** Nothing else of the blob is looked at for the answer. *)
Lemma reads_get_error {A} (f : bool -> R A) bytes a :
  reads (f false) bytes a -> reads (err ← get error; f err) bytes a.
Proof. intros Hf rest n Hn. exact (Hf rest n Hn). Qed.

Lemma reads_checked ok bytes kind t :
  reads (ParseSignature IL_TYPE_RECURSION_DEPTH) bytes (Some (kind, t)) -> ok kind t = true ->
  reads (checked_sig ok) bytes t.
Proof.
  intros Hr Hok. unfold checked_sig. eapply reads_bind_r; [exact Hr |].
  apply reads_get_error. rewrite Hok. apply reads_ret.
Qed.

(** C6: A method signature that is written is read back: [ILTypeToMethodSig]
    writes every signature whose types have an encoding, and its bytes are
    exactly what the readers of signatures take: the one of method definitions
    if there is no sentinel, the one of call sites in any case, and the one of
    method references if the calling convention is the default or vararg. *)
Theorem method_signature_roundtrip s t :
  sig_ok (encodable 19) s -> method_type s = Some t ->
  exists bytes,
    ILTypeToMethodSig t = Some bytes /\
    (has_sentinel s = false -> reads ILTypeFromMethodDefSig bytes t) /\
    reads ILTypeFromStandAloneMethodSig bytes t /\
    (Z.land (sig_conv s) IL_META_CALLCONV_MASK = IL_META_CALLCONV_DEFAULT \/
     Z.land (sig_conv s) IL_META_CALLCONV_MASK = IL_META_CALLCONV_VARARG ->
     reads ILTypeFromMethodRefSig bytes t).
Proof.
  intros Hs E. assert (sig_readable (parser_at 19) s) as Hr
    by (apply sig_readable_at; [apply encodable_readable | done]).
  destruct (reads_sig _ s t Hr E) as (bytes & Hw & _ & Hb). exists bytes. split; [exact Hw |].
  destruct Hr as (Hnum & _ & Hp). pose proof (readable_plain _ _ Hp) as Hplain.
  destruct (sentinel_conv s t Hnum Hplain E) as [Hconv _].
  split_and!.
  - intros Hse. rewrite Hse in Hb. by eapply reads_checked.
  - eapply reads_checked; [exact Hb |]. by destruct (has_sentinel s).
  - intros Hk. eapply reads_checked; [exact Hb |]. rewrite Hconv.
    apply andb_true_intro. split; [by destruct (has_sentinel s) | by destruct Hk as [-> | ->]].
Qed.

(** C7: The encodable types of fields, type specifications and properties are
    written, and what is written is read back.  Each place has its own
    conditions ([encodable]): the nesting is at most 20 levels, a type
    specification may be void or begin with a modifier but is no reference and no
    typed reference, and the type of a property has no modifier in front, for the
    writer writes one but the reader refuses it. *)
Theorem type_blobs_roundtrip t :
  (encodable 20 CATEGORY_ALL t ->
   exists bytes, ILTypeToFieldSig t = Some bytes /\ reads ILTypeFromFieldSig bytes t) /\
  (encodable 20 (Z.lor CATEGORY_CMOD CATEGORY_VOID) t ->
   exists bytes, ILTypeToOtherSig t = Some bytes /\ reads ILTypeFromTypeSpec bytes t) /\
  (forall type params,
   encodable 19 0 type -> Forall (encodable 19 param_categories) params ->
   Z.of_nat (length params) <= 0xFFFD -> add_entries (ILTypeCreateProperty type) params = Some t ->
   exists bytes, ILTypeToOtherSig t = Some bytes /\ reads ILTypeFromPropertySig bytes t).
Proof.
  split_and!.
  - intros (b & tail & Hw & Hr & _)%encodable_readable. exists (IL_META_CALLCONV_FIELD :: b :: tail).
    split; [unfold ILTypeToFieldSig, write_all; rewrite Hw; cbn; by rewrite app_nil_r |].
    exact (reads_bind read_data _ [_] _ _ _ (reads_small IL_META_CALLCONV_FIELD ltac:(done)) Hr).
  - intros (b & tail & Hw & Hr & _)%encodable_readable. exists (b :: tail). split; [exact Hw |].
    unfold ILTypeFromTypeSpec. eapply reads_bind_r; [exact Hr |].
    apply reads_get_error. apply reads_ret.
  - intros type params Ht Hp Hlen E.
    destruct (encodable_readable _ _ _ Ht) as (b & tail & Hw & Hr & _ & _ & Hi & _).
    assert (Forall (readable (parse_elem (parser_at 19) param_categories)) params) as Hps
      by (eapply Forall_impl; [exact Hp |]; intros p; apply encodable_readable).
    destruct (write_readable _ _ Hps) as (bytes & Hb & _).
    destruct (add_entries_extends params (ILTypeCreateProperty type) t)
      as ((Hok & Hpar & Hret & _) & Hk & Hn);
      [split; [done | split; [lia | done]]
       | change (ILTypeNumParams (ILTypeCreateProperty type)) with 0; lia
       | by eapply readable_plain | done |].
    change (ILTypeNumParams t = 0 + Z.of_nat (length params)) in Hn. rewrite Z.add_0_l in Hn.
    change (signature_params t = params) in Hpar. change (ILTypeGetReturnWithPrefixes t = type) in Hret.
    unfold ILTypeToOtherSig. rewrite (write_property t Hok Hk), Hret, Hpar, Hn, Hw, Hb.
    exists ([IL_META_CALLCONV_PROPERTY]
      ++ ILMetaCompressData (Z.of_nat (length params)) ++ (b :: tail) ++ bytes).
    split; [unfold write_all; cbn; by rewrite app_nil_r |].
    apply reads_checked with (kind := SIGNATURE_PROPERTY); [| done].
    change (ParseSignature IL_TYPE_RECURSION_DEPTH) with (sig_body (Some (parser_at 19))).
    unfold sig_body. eapply reads_bind; [by apply reads_small |]. cbv zeta.
    assert (bool_decide (Z.land IL_META_CALLCONV_PROPERTY IL_META_CALLCONV_MASK ∈ method_kinds)
      = false) as -> by (vm_compute; reflexivity).
    change (Z.land IL_META_CALLCONV_PROPERTY IL_META_CALLCONV_MASK) with IL_META_CALLCONV_PROPERTY.
    rewrite (eq_refl : (IL_META_CALLCONV_PROPERTY =? IL_META_CALLCONV_FIELD) = false), Z.eqb_refl.
    eapply reads_bind; [apply reads_data; lia |]. rewrite (proj2 (Z.ltb_ge 0xFFFD _)) by lia.
    eapply reads_bind; [exact Hr |]. rewrite Hi.
    eapply reads_bind_r; [rewrite Nat2Z.id; by apply reads_property_params | apply reads_ret].
Qed.

(** ** Locals *)

Fixpoint add_locals (locals : ILType) (l : list ILType) : option ILType :=
  match l with
  | [] => Some locals
  | t :: l => locals ← ILTypeAddLocal locals t; add_locals locals l
  end.

Definition is_pinned (t : ILType) : bool :=
  match t with RefType kind _ => kind =? IL_TYPE_COMPLEX_PINNED | _ => false end.

Definition local_categories : Z := Z.lor CATEGORY_ALL CATEGORY_PINNED.

(** The type of a local, and at most one pinning of it. *)
Definition local_ok (t : ILType) : Prop :=
  match t with
  | RefType kind t' =>
      if kind =? IL_TYPE_COMPLEX_PINNED then is_pinned t' = false /\ encodable 20 local_categories t'
      else encodable 20 local_categories t
  | _ => encodable 20 local_categories t
  end.

Definition unpinned (t : ILType) : ILType :=
  match t with
  | RefType kind t' => if kind =? IL_TYPE_COMPLEX_PINNED then t' else t
  | _ => t
  end.

Lemma local_ok_cases t :
  local_ok t ->
  is_pinned (unpinned t) = false /\ encodable 20 local_categories (unpinned t) /\
  (if is_pinned t then t = RefType IL_TYPE_COMPLEX_PINNED (unpinned t) else unpinned t = t).
Proof.
  destruct t; cbn; try done. destruct (Z.eqb_spec kind IL_TYPE_COMPLEX_PINNED) as [-> | Hk].
  - by intros [? ?].
  - intros Ht. split_and!; [| done | done]. by apply Z.eqb_neq.
Qed.

Lemma skip_pinned_none fuel pinned b l n :
  b <> IL_META_ELEMTYPE_PINNED -> 1 <= n ->
  skip_pinned (S fuel) pinned (mk_meta (b :: l) n false) = Done pinned (mk_meta (b :: l) n false).
Proof.
  intros Hb Hn. cbn [skip_pinned]. unfold mbind, comp_bind, skip_byte. cbn [len meta_next data].
  by rewrite (proj2 (Z.leb_le 1 n) Hn), (proj2 (Z.eqb_neq _ _) Hb).
Qed.

Lemma skip_pinned_one fuel b l n :
  b <> IL_META_ELEMTYPE_PINNED -> 2 <= n ->
  skip_pinned (S (S fuel)) false (mk_meta (IL_META_ELEMTYPE_PINNED :: b :: l) n false)
  = Done true (mk_meta (b :: l) (n - 1) false).
Proof.
  intros Hb Hn. rewrite <- (skip_pinned_none fuel true b l (n - 1)) by (done || lia).
  change (skip_pinned (S (S fuel)) false) with
    (pinned ← skip_byte IL_META_ELEMTYPE_PINNED;
     if (pinned : bool) then skip_pinned (S fuel) true else mret false).
  unfold mbind, comp_bind, skip_byte at 1. cbn [len meta_next data].
  by rewrite (proj2 (Z.leb_le 1 n)) by lia.
Qed.

(** One local: the bytes, and what is added for it. *)
Lemma reads_local {B} t (f : bool -> ILType -> R B) bytes r :
  local_ok t ->
  reads (f (is_pinned t) (unpinned t)) bytes r ->
  exists a, WriteType t true = Some a /\
    reads (fuel ← get (fun m => S (length (data m)));
           isPinned ← skip_pinned fuel false;
           nextLocal ← ParseElemType IL_TYPE_RECURSION_DEPTH local_categories;
           f isPinned nextLocal) (a ++ bytes) r.
Proof.
  intros Ht Hf. destruct (local_ok_cases t Ht) as (Hp & He & Hu). clear Ht.
  destruct (encodable_readable _ _ _ He) as (b & tail & Hw & Hr & _ & Hb & Hi & _).
  assert (b <> IL_META_ELEMTYPE_PINNED) as Hne.
  { intros ->. destruct (Hb eq_refl) as [r' E]. rewrite E in Hp. done. }
  pose proof (reads_bind _ _ _ _ _ _ Hr Hf) as Hread. clear Hr Hf.
  destruct (is_pinned t).
  - exists (IL_META_ELEMTYPE_PINNED :: b :: tail). rewrite Hu. cbn [WriteType].
    split; [rewrite Hw; unfold write_all; cbn; by rewrite app_nil_r |].
    intros rest n Hn. eapply bind_run; [done |].
    eapply bind_run; [apply skip_pinned_one; [done | cbn [length app]; lia] |].
    rewrite <- (Hread rest n Hn). f_equal. f_equal. cbn [length app]. lia.
  - exists (b :: tail). rewrite <- Hu. split; [exact Hw |]. 
    intros rest n Hn. eapply bind_run; [done |].
    eapply bind_run; [apply skip_pinned_none; [done | cbn [length app]; lia] |].
    apply (Hread rest n Hn).
Qed.

Lemma reads_locals l locals t :
  Forall local_ok l -> add_locals locals l = Some t ->
  exists bytes, write_list W l = Some bytes /\
    reads (parse_locals_sig (length l) locals) bytes t.
Proof.
  intros Hl. revert locals. induction Hl as [| x l Hx Hl IH]; intros locals E.
  { injection E as <-. exists []. split; [done | apply reads_ret]. }
  cbn [add_locals] in E. apply bind_Some in E as (t1 & E1 & E).
  destruct (IH t1 E) as (bytes & Hb & Hr). destruct (local_ok_cases x Hx) as (_ & He & Hu).
  destruct (encodable_readable _ _ _ He) as (_ & _ & _ & _ & _ & _ & Hi & _).
  destruct (reads_local x (fun (isPinned : bool) nextLocal =>
      if is_invalid nextLocal then mret ILType_Invalid
      else
        locals ← lift "locals" (ILTypeAddLocal locals
          (if isPinned then ILTypeCreateRef IL_TYPE_COMPLEX_PINNED nextLocal else nextLocal));
        parse_locals_sig (length l) locals) bytes t Hx) as (a & Ha & Hread).
  { rewrite Hi. eapply reads_bind_l; [| exact Hr]. apply reads_lift.
    unfold ILTypeCreateRef. destruct (is_pinned x); [by rewrite <- Hu | by rewrite Hu]. }
  exists (a ++ bytes). split; [| exact Hread].
  unfold write_list in *. cbn [fmap list_fmap]. rewrite write_all_cons, Ha.
  change (list_fmap _ _ W l) with (W <$> l). by rewrite Hb.
Qed.

(** Adding locals makes the list of them. *)
Lemma add_locals_spec l locals :
  locals_ok locals -> Z.of_nat (length (locals_list locals)) + Z.of_nat (length l) < 2 ^ 16 ->
  exists t, add_locals locals l = Some t /\ locals_ok t /\ locals_list t = locals_list locals ++ l.
Proof.
  revert locals. induction l as [| x l IH]; intros locals Hok Hn.
  { exists locals. by rewrite app_nil_r. }
  cbn [length] in Hn. destruct (add_local_spec locals x Hok) as (t1 & E1 & Hok1 & Hl1); [lia |].
  destruct (IH t1 Hok1) as (t & E & Hok' & Hl); [rewrite Hl1, length_app; cbn [length]; lia |].
  exists t. cbn [add_locals]. rewrite E1. split; [exact E |]. split; [done |].
  by rewrite Hl, Hl1, <- app_assoc.
Qed.

(** C8: Every list of up to 65535 local variables whose types are encodable
    within 20 levels, each pinned at most once ([local_ok]), has a type, the one
    that adding them one by one builds, and that type is written and read back. *)
Theorem locals_signature_roundtrip l :
  Forall local_ok l -> Z.of_nat (length l) <= 0xFFFF ->
  exists t bytes,
    add_locals ILTypeCreateLocalList l = Some t /\ locals_list t = l /\
    ILTypeToOtherSig t = Some bytes /\ reads ILTypeFromLocalVarSig bytes t.
Proof.
  intros Hl Hn.
  destruct (add_locals_spec l ILTypeCreateLocalList) as (t & E & Hok & Hlist);
    [by split | change (locals_list ILTypeCreateLocalList) with (@nil ILType); cbn [length]; lia |].
  change (locals_list t = l) in Hlist. destruct (reads_locals l _ t Hl E) as (bytes & Hb & Hr).
  exists t, ([IL_META_CALLCONV_LOCAL_SIG] ++ ILMetaCompressData (Z.of_nat (length l)) ++ bytes).
  split_and!; [done | done | |].
  - pose proof (locals_list_length t Hok) as Hlen.
    destruct t as [ | | | | | | | num l0 l1 l2 l3 next | | | |]; try done.
    destruct Hok as [Hnum Hc]. rewrite Hlist in Hlen. injection Hlen as ->.
    unfold ILTypeToOtherSig. cbn [WriteType]. rewrite write_locals_spec by (lia || done).
    change (take _ _) with (locals_list (LocalsType (Z.of_nat (length l)) l0 l1 l2 l3 next)).
    rewrite Hlist, Hb. unfold write_all. cbn. by rewrite app_nil_r.
  - unfold ILTypeFromLocalVarSig. eapply reads_bind; [by apply reads_small |].
    apply reads_get_error. cbn [Z.eqb]. rewrite Z.eqb_refl. cbn [negb orb].
    eapply reads_bind; [apply reads_data; lia |]. apply reads_get_error. cbn [orb].
    rewrite (proj2 (Z.ltb_ge 0xFFFF _)) by lia. by rewrite Nat2Z.id.
Qed.
End roundtrip.

(** ** Examples *)

(** The classes of the sample program, as rows of its table of definitions. *)
#[local] Instance sample_tokens : SigTokens := {| class_token k := 0x02000000 + Z.of_N k |}.
#[local] Instance sample_image : SigImage := {|
  ILImageTokenInfo token :=
    if token / 2 ^ 24 =? 2 then Some (Z.to_N (token mod 2 ^ 24)) else None;
  ILClassResolveSystem name := if String.eqb name "Object" then Some 1%N else None
|}.
#[local] Existing Instance sample_program.
#[local] Existing Instance LP64.

Lemma sample_token k : (k < 21)%N -> token_ok k.
Proof.
  intros Hk.
  assert (forallb (fun k => (0 <=? class_token (Z.to_N k)) && (class_token (Z.to_N k) <? 2 ^ 32)
    && negb (bool_decide (ILMetaCompressToken (class_token (Z.to_N k)) = []))
    && bool_decide (ILImageTokenInfo (class_token (Z.to_N k)) = Some (Z.to_N k))) (seqZ 0 21) = true)
    as Ha by (vm_compute; reflexivity).
  rewrite forallb_forall in Ha. specialize (Ha (Z.of_N k)).
  rewrite <- list_elem_of_In, elem_of_seqZ, N2Z.id, !andb_true_iff in Ha.
  destruct Ha as [[[Hl Hu] Hne] Hi]; [lia |]. split_and!; [lia | lia | |].
  - by apply negb_true_iff, bool_decide_eq_false in Hne.
  - by apply bool_decide_eq_true in Hi.
Qed.

Ltac solve_encodable :=
  repeat first
    [ apply enc_simple; apply (bool_decide_unpack _); vm_compute; exact I
    | apply enc_void; reflexivity
    | apply enc_class; vm_compute; reflexivity
    | apply enc_class; apply (sample_token 2); lia
    | apply enc_value; [reflexivity | apply sample_token; lia]
    | apply enc_ptr | apply enc_byref; [reflexivity |] | apply enc_szarray
    | apply enc_modifier; [reflexivity | by right | apply sample_token; lia |]
    | apply Forall_cons_2 | apply Forall_nil_2 ].

(** A vararg instance method of an [int32], an array with bounds for its second
    dimension and, behind the sentinel, a pointer to a modified [N.S]. *)
Definition sample_sig : method_sig :=
  mkMethodSig 0x25 0 (Primitive IL_META_ELEMTYPE_VOID)
    [Primitive 0x08; array_chain [(0, 0); (3, -1)] (Primitive 0x08)]
    (Some [RefType IL_TYPE_COMPLEX_PTR (ModifierType IL_TYPE_COMPLEX_CMOD_OPT 2 (ValueType 20))]).
Definition sample_sig_type : ILType := default ILType_Invalid (method_type sample_sig).

Lemma sample_sig_ok : sig_ok (encodable 19) sample_sig.
Proof.
  split; [| split; [right; split; [done |]; solve_encodable |]].
  - split; [cbn; lia |]. split; [apply (bool_decide_unpack _); vm_compute; exact I |].
    split; [by vm_compute |]. split; [by vm_compute |]. split; [done | by left].
  - cbn [sig_params sig_fixed sig_extra sample_sig default app id]. 
    repeat apply Forall_cons_2; [solve_encodable | | solve_encodable | by apply Forall_nil_2].
    apply enc_array; [done | done | | done | solve_encodable].
    repeat constructor; cbn; lia.
Qed.

Lemma method_signature_roundtrip_witness :
  sig_ok (encodable 19) sample_sig /\ method_type sample_sig = Some sample_sig_type /\
  exists bytes,
    ILTypeToMethodSig sample_sig_type = Some bytes /\
    (has_sentinel sample_sig = false -> reads ILTypeFromMethodDefSig bytes sample_sig_type) /\
    reads ILTypeFromStandAloneMethodSig bytes sample_sig_type /\
    (Z.land (sig_conv sample_sig) IL_META_CALLCONV_MASK = IL_META_CALLCONV_DEFAULT \/
     Z.land (sig_conv sample_sig) IL_META_CALLCONV_MASK = IL_META_CALLCONV_VARARG ->
     reads ILTypeFromMethodRefSig bytes sample_sig_type).
Proof.
  split; [apply sample_sig_ok |]. split; [reflexivity |].
  exact (method_signature_roundtrip sample_sig sample_sig_type sample_sig_ok eq_refl).
Defined.

(** A pinned array, and a reference to an object. *)
Definition sample_locals : list ILType :=
  [RefType IL_TYPE_COMPLEX_PINNED (array_chain [(0, 0)] (Primitive 0x08));
   RefType IL_TYPE_COMPLEX_BYREF (ClassType 1)].

Lemma sample_locals_ok : Forall local_ok sample_locals.
Proof.
  unfold sample_locals. apply Forall_cons_2; [| apply Forall_cons_2; [| by apply Forall_nil_2]].
  - split; [done | solve_encodable].
  - change (encodable 20 local_categories (RefType IL_TYPE_COMPLEX_BYREF (ClassType 1))).
    solve_encodable.
Qed.

Lemma locals_signature_roundtrip_witness :
  Forall local_ok sample_locals /\ Z.of_nat (length sample_locals) <= 0xFFFF /\
  exists t bytes,
    add_locals ILTypeCreateLocalList sample_locals = Some t /\ locals_list t = sample_locals /\
    ILTypeToOtherSig t = Some bytes /\ reads ILTypeFromLocalVarSig bytes t.
Proof.
  split; [apply sample_locals_ok |]. split; [cbn; lia |].
  apply (locals_signature_roundtrip sample_locals); [apply sample_locals_ok | cbn; lia].
Defined.

Lemma type_blobs_roundtrip_witness :
  encodable 20 CATEGORY_ALL (RefType IL_TYPE_COMPLEX_BYREF (ClassType 2)) /\
  exists bytes, ILTypeToFieldSig (RefType IL_TYPE_COMPLEX_BYREF (ClassType 2)) = Some bytes /\
    reads ILTypeFromFieldSig bytes (RefType IL_TYPE_COMPLEX_BYREF (ClassType 2)).
Proof.
  assert (encodable 20 CATEGORY_ALL (RefType IL_TYPE_COMPLEX_BYREF (ClassType 2))) as He
    by solve_encodable.
  split; [exact He |].
  exact (proj1 (type_blobs_roundtrip (RefType IL_TYPE_COMPLEX_BYREF (ClassType 2))) He).
Defined.

(** The reader of field signatures does not look at the error flag: a field
    of an array type that is cut off behind the rank gets the array type, with
    the error recorded, while the same bytes are no type specification. *)
Theorem truncated_field_accepted :
  (exists m, run_sig ILTypeFromFieldSig [0x06; 0x14; 0x08; 0x01] 4
     = Done (array_chain [(0, 0)] (Primitive 0x08)) m /\ error m = true) /\
  (exists m, run_sig ILTypeFromTypeSpec [0x14; 0x08; 0x01] 3 = Done ILType_Invalid m).
Proof. split; eexists; [split |]; vm_compute; reflexivity. Qed.
