(* ===== verification/Utf8.v ===== *)
(** * Utf8: the UTF-8 codec of the metadata library

    Models src/gcc/cil/support/utf8.c.  A string is the list of its bytes; the
    reader returns the character and the new position, or [None] where the C
    code would read outside the string. *)
From S2P Require Import Prelude.

Section codec.
Context `{Host}.

(** [str[i]], of type [char]. *)
Definition char_at (str : list Z) (i : Z) : option Z :=
  b ← byte_at str i; Some (plain_char b).

(** [(unsigned long)(str[i] & 0x3F)] *)
Definition cont_at (str : list Z) (i : Z) : option Z :=
  c ← char_at str i; Some (ulong (Z.land c 0x3F)).

Definition ILUTF8ReadChar (str : list Z) (len posn : Z) : option (Z * Z) :=
  ch ← char_at str posn;
  if Z.land ch 0x80 =? 0 then Some (ulong ch, posn + 1)
  else if (Z.land ch (plain_char 0xE0) =? plain_char 0xC0)
          && (posn + 2 <=? len) then
    c1 ← cont_at str (posn + 1);
    Some (Z.lor (Z.shiftl (ulong (Z.land ch 0x1F)) 6) c1, posn + 2)
  else if (Z.land ch (plain_char 0xF0) =? plain_char 0xE0)
          && (posn + 3 <=? len) then
    c1 ← cont_at str (posn + 1);
    c2 ← cont_at str (posn + 2);
    Some (Z.lor (Z.lor (Z.shiftl (ulong (Z.land ch 0x0F)) 12)
                       (Z.shiftl c1 6)) c2, posn + 3)
  else if (Z.land ch (plain_char 0xF8) =? plain_char 0xF0)
          && (posn + 4 <=? len) then
    c1 ← cont_at str (posn + 1);
    c2 ← cont_at str (posn + 2);
    c3 ← cont_at str (posn + 3);
    Some (Z.lor (Z.lor (Z.lor (Z.shiftl (ulong (Z.land ch 0x07)) 18)
                              (Z.shiftl c1 12))
                       (Z.shiftl c2 6)) c3, posn + 4)
  else if (Z.land ch (plain_char 0xFC) =? plain_char 0xF8)
          && (posn + 5 <=? len) then
    c1 ← cont_at str (posn + 1);
    c2 ← cont_at str (posn + 2);
    c3 ← cont_at str (posn + 3);
    c4 ← cont_at str (posn + 4);
    Some (Z.lor (Z.lor (Z.lor (Z.lor (Z.shiftl (ulong (Z.land ch 0x03)) 24)
                                     (Z.shiftl c1 18))
                              (Z.shiftl c2 12))
                       (Z.shiftl c3 6)) c4, posn + 5)
  else if (Z.land ch (plain_char 0xFC) =? plain_char 0xFC)
          && (posn + 6 <=? len) then
    c1 ← cont_at str (posn + 1);
    c2 ← cont_at str (posn + 2);
    c3 ← cont_at str (posn + 3);
    c4 ← cont_at str (posn + 4);
    c5 ← cont_at str (posn + 5);
    Some (Z.lor (Z.lor (Z.lor (Z.lor (Z.lor
                   (ulong (Z.shiftl (ulong (Z.land ch 0x03)) 30))
                   (Z.shiftl c1 24))
                   (Z.shiftl c2 18))
                   (Z.shiftl c3 12))
                   (Z.shiftl c4 6)) c5, posn + 6)
  else Some (Z.land (ulong ch) 0xFF, posn + 1).

(** The return value and the bytes stored; [str] tells whether a buffer is
    given (the C parameter is not NULL). *)
Definition ILUTF8WriteChar (str : bool) (ch : Z) : Z * list Z :=
  if str then
    if ch =? 0 then (2, [0xC0; 0x80])
    else if ch <? 0x80 then (1, [uchar ch])
    else if ch <? Z.shiftl 1 11 then
      (2, [uchar (Z.lor 0xC0 (Z.shiftr ch 6)); uchar (Z.lor 0x80 (Z.land ch 0x3F))])
    else if ch <? Z.shiftl 1 16 then
      (3, [uchar (Z.lor 0xE0 (Z.shiftr ch 12));
           uchar (Z.lor 0x80 (Z.land (Z.shiftr ch 6) 0x3F));
           uchar (Z.lor 0x80 (Z.land ch 0x3F))])
    else if ch <? Z.shiftl 1 21 then
      (4, [uchar (Z.lor 0xF0 (Z.shiftr ch 18));
           uchar (Z.lor 0x80 (Z.land (Z.shiftr ch 12) 0x3F));
           uchar (Z.lor 0x80 (Z.land (Z.shiftr ch 6) 0x3F));
           uchar (Z.lor 0x80 (Z.land ch 0x3F))])
    else if ch <? Z.shiftl 1 26 then
      (5, [uchar (Z.lor 0xF8 (Z.shiftr ch 24));
           uchar (Z.lor 0x80 (Z.land (Z.shiftr ch 18) 0x3F));
           uchar (Z.lor 0x80 (Z.land (Z.shiftr ch 12) 0x3F));
           uchar (Z.lor 0x80 (Z.land (Z.shiftr ch 6) 0x3F));
           uchar (Z.lor 0x80 (Z.land ch 0x3F))])
    else
      (6, [uchar (Z.lor 0xFC (Z.shiftr ch 30));
           uchar (Z.lor 0x80 (Z.land (Z.shiftr ch 24) 0x3F));
           uchar (Z.lor 0x80 (Z.land (Z.shiftr ch 18) 0x3F));
           uchar (Z.lor 0x80 (Z.land (Z.shiftr ch 12) 0x3F));
           uchar (Z.lor 0x80 (Z.land (Z.shiftr ch 6) 0x3F));
           uchar (Z.lor 0x80 (Z.land ch 0x3F))])
  else
    if ch =? 0 then (2, [])
    else if ch <? 0x80 then (1, [])
    else if ch <? Z.shiftl 1 11 then (2, [])
    else if ch <? Z.shiftl 1 16 then (3, [])
    else if ch <? Z.shiftl 1 21 then (4, [])
    else if ch <? Z.shiftl 1 26 then (5, [])
    else (6, []).

(** ** The reader as arithmetic *)

Ltac by_char b :=
  intros; unfold plain_char; destruct char_signed; by_bytes b.

Lemma lead1 b : is_byte b -> (Z.land (plain_char b) 0x80 =? 0) = (b <? 128).
Proof. by_char b. Qed.
Lemma lead2 b : is_byte b ->
  (Z.land (plain_char b) (plain_char 0xE0) =? plain_char 0xC0) = in_range 192 224 b.
Proof. by_char b. Qed.
Lemma lead3 b : is_byte b ->
  (Z.land (plain_char b) (plain_char 0xF0) =? plain_char 0xE0) = in_range 224 240 b.
Proof. by_char b. Qed.
Lemma lead4 b : is_byte b ->
  (Z.land (plain_char b) (plain_char 0xF8) =? plain_char 0xF0) = in_range 240 248 b.
Proof. by_char b. Qed.
Lemma lead5 b : is_byte b ->
  (Z.land (plain_char b) (plain_char 0xFC) =? plain_char 0xF8) = in_range 248 252 b.
Proof. by_char b. Qed.
Lemma lead6 b : is_byte b ->
  (Z.land (plain_char b) (plain_char 0xFC) =? plain_char 0xFC) = in_range 252 256 b.
Proof. by_char b. Qed.

(** A mask of low ones does not see the sign of [char]. *)
Lemma plain_char_low b n :
  is_byte b -> 0 <= n <= 8 -> Z.land (plain_char b) (Z.ones n) = b mod 2 ^ n.
Proof.
  intros Hb Hn. rewrite Z.land_ones by lia.
  assert (plain_char b mod 2 ^ 8 = b mod 2 ^ 8) as E.
  { unfold plain_char. destruct char_signed; [by apply to_signed_mod |].
    unfold to_unsigned. apply Zmod_mod. }
  assert (forall x, x mod 2 ^ 8 mod 2 ^ n = x mod 2 ^ n) as F.
  { intros x. apply Z.mod_mod_divide.
    exists (2 ^ (8 - n)). rewrite <- Z.pow_add_r by lia. f_equal; lia. }
  rewrite <- F, E, F. done.
Qed.

Lemma ulong_low x n : 0 <= n <= 8 -> ulong (x mod 2 ^ n) = x mod 2 ^ n.
Proof.
  intros. apply ulong_small. pose proof (Z.mod_pos_bound x (2 ^ n)).
  pose proof (Z.pow_le_mono_r 2 n 32). lia.
Qed.

Lemma char_at_eq str i : char_at str i = plain_char <$> byte_at str i.
Proof. unfold char_at. by destruct (byte_at str i). Qed.

Lemma cont_at_eq str i :
  Forall is_byte str -> cont_at str i = (fun b => b mod 64) <$> byte_at str i.
Proof.
  intros Hs. unfold cont_at. rewrite char_at_eq.
  destruct (byte_at str i) as [b |] eqn:E; [| done]. cbn -[Z.land Z.modulo].
  apply byte_at_Some in E as [_ Hb]. specialize (Hb Hs).
  change 63 with (Z.ones 6). rewrite plain_char_low by (done || lia).
  by rewrite (ulong_low b 6) by lia.
Qed.

(** The value of a lead byte keeping [n] payload bits. *)
Lemma lead_payload b n :
  is_byte b -> 0 <= n <= 8 ->
  ulong (Z.land (plain_char b) (Z.ones n)) = b mod 2 ^ n.
Proof. intros. rewrite plain_char_low by done. by apply ulong_low. Qed.

(** [digits64 a [c1; ...; ck]] is the number with the leading digit [a] and
    the base-64 digits [c1 ... ck]. *)
Definition digits64 (a : Z) (l : list Z) : Z :=
  fold_left (fun acc c => acc * 64 + c) l a.

(** The reader as a table: for each lead byte class, the number of payload
    bits of the lead byte and of the bytes that follow it. *)
Definition lead_class (b : Z) : option (Z * nat) :=
  if b <? 192 then None
  else if b <? 224 then Some (5, 1%nat)
  else if b <? 240 then Some (4, 2%nat)
  else if b <? 248 then Some (3, 3%nat)
  else if b <? 252 then Some (2, 4%nat)
  else Some (2, 5%nat).

Definition utf8_read (str : list Z) (len posn : Z) : option (Z * Z) :=
  b ← byte_at str posn;
  if b <? 128 then Some (b, posn + 1)
  else match lead_class b with
  | Some (bits, n) =>
      if posn + 1 + Z.of_nat n <=? len then
        cs ← mapM (fun i => byte_at str (posn + 1 + Z.of_nat i)) (seq 0 n);
        Some (digits64 (b mod 2 ^ bits) (map (fun c => c mod 64) cs),
              posn + 1 + Z.of_nat n)
      else Some (b, posn + 1)
  | None => Some (b, posn + 1)
  end.

Lemma latin1 b : is_byte b -> Z.land (ulong (plain_char b)) 0xFF = b.
Proof.
  intros Hb. change 0xFF with (Z.ones 8). rewrite Z.land_ones by lia.
  unfold ulong, to_unsigned. rewrite Z.mod_mod_divide.
  - rewrite <- Z.land_ones by lia. rewrite plain_char_low by (done || lia).
    unfold is_byte in Hb. zlia.
  - exists (2 ^ (long_bits - 8)). rewrite <- Z.pow_add_r by (pose proof long_bits_ge; lia).
    f_equal; lia.
Qed.

Lemma ascii_char b : is_byte b -> b < 128 -> ulong (plain_char b) = b.
Proof.
  intros Hb Hlt. unfold is_byte in Hb.
  assert (plain_char b = b) as ->.
  { unfold plain_char. case_match; [apply to_signed_small | apply to_unsigned_small]; zlia. }
  apply ulong_small. zlia.
Qed.

Ltac lors :=
  repeat match goal with
  | |- context [Z.lor ?a ?b] =>
      lazymatch a with context [Z.lor _ _] => fail | _ => idtac end;
      first [ rewrite (lor_disjoint 30 a b) by zlia
            | rewrite (lor_disjoint 24 a b) by zlia
            | rewrite (lor_disjoint 18 a b) by zlia
            | rewrite (lor_disjoint 12 a b) by zlia
            | rewrite (lor_disjoint 6 a b) by zlia ]
  end.

Lemma ILUTF8ReadChar_spec str len posn :
  Forall is_byte str -> ILUTF8ReadChar str len posn = utf8_read str len posn.
Proof.
  intros Hs. unfold ILUTF8ReadChar, utf8_read. rewrite char_at_eq.
  destruct (byte_at str posn) as [b |] eqn:E; [| done].
  apply byte_at_Some in E as [_ Hb]. specialize (Hb Hs).
  cbn -[Z.land Z.lor Z.shiftl Z.modulo plain_char Z.add seq].
  rewrite !cont_at_eq by done.
  rewrite lead1, lead2, lead3, lead4, lead5, lead6 by done.
  rewrite latin1 by done.
  destruct (Z.ltb_spec b 128); [by rewrite ascii_char by (done || lia) |].
  unfold lead_class, in_range.
  change (Z.land (plain_char b) 31) with (Z.land (plain_char b) (Z.ones 5)).
  change (Z.land (plain_char b) 15) with (Z.land (plain_char b) (Z.ones 4)).
  change (Z.land (plain_char b) 7) with (Z.land (plain_char b) (Z.ones 3)).
  change (Z.land (plain_char b) 3) with (Z.land (plain_char b) (Z.ones 2)).
  rewrite !lead_payload by (done || lia).
  unfold is_byte in Hb.
  destruct (Z.ltb_spec b 192); [|destruct (Z.ltb_spec b 224); [|destruct (Z.ltb_spec b 240);
    [| destruct (Z.ltb_spec b 248); [|destruct (Z.ltb_spec b 252)]]]];
    repeat match goal with |- context [?lo <=? b] =>
      first [ rewrite (proj2 (Z.leb_le lo b)) by lia
            | rewrite (proj2 (Z.leb_gt lo b)) by lia ] end;
    rewrite ?(proj2 (Z.ltb_lt b 256)) by lia; cbn [andb]; [done | ..].
  all: rewrite ?(shiftl_mul _ 30), ?ulong_small by (rewrite ?shiftl_mul; zlia).
  all: cbn -[Z.modulo Z.lor Z.shiftl Z.pow Z.mul Z.of_nat]; rewrite <- !Z.add_assoc.
  all: repeat match goal with |- context [1 + Z.of_nat ?k] =>
         let v := eval vm_compute in (1 + Z.of_nat k) in
         change (1 + Z.of_nat k) with v end.
  all: case_match; [| done].
  all: repeat match goal with |- context [byte_at ?s ?i] => destruct (byte_at s i) end.
  all: cbn -[Z.modulo Z.lor Z.shiftl Z.pow Z.mul]; try done.
  all: rewrite !shiftl_mul by lia; lors; unfold digits64; cbn [fold_left]; do 2 f_equal; zlia.
Qed.

(** ** The writer as arithmetic *)

Definition utf8_bytes (ch : Z) : list Z :=
  let c k := 128 + ch / 2 ^ k mod 64 in
  if ch =? 0 then [192; 128]
  else if ch <? 2 ^ 7 then [ch]
  else if ch <? 2 ^ 11 then [192 + ch / 2 ^ 6; c 0]
  else if ch <? 2 ^ 16 then [224 + ch / 2 ^ 12; c 6; c 0]
  else if ch <? 2 ^ 21 then [240 + ch / 2 ^ 18; c 12; c 6; c 0]
  else if ch <? 2 ^ 26 then [248 + ch / 2 ^ 24; c 18; c 12; c 6; c 0]
  else [252 + ch / 2 ^ 30; c 24; c 18; c 12; c 6; c 0].

Lemma ILUTF8WriteChar_spec ch :
  0 <= ch < 2 ^ 32 ->
  ILUTF8WriteChar true ch = (Z.of_nat (length (utf8_bytes ch)), utf8_bytes ch).
Proof.
  intros Hch. unfold ILUTF8WriteChar, utf8_bytes. cbv zeta.
  change 0x80 with (2 ^ 7) at 2.
  change (Z.shiftl 1 11) with (2 ^ 11). change (Z.shiftl 1 16) with (2 ^ 16).
  change (Z.shiftl 1 21) with (2 ^ 21). change (Z.shiftl 1 26) with (2 ^ 26).
  change 0x3F with (Z.ones 6). rewrite !(land_low 6) by lia.
  rewrite !shiftr_div by lia. rewrite !uchar_mod.
  rewrite !(lor_disjoint 6 128 _) by zlia.
  destruct (Z.eqb_spec ch 0); [done |].
  destruct (Z.ltb_spec ch (2 ^ 7)); [f_equal; list_zlia |].
  destruct (Z.ltb_spec ch (2 ^ 11)); [rewrite (lor_disjoint 6) by zlia; f_equal; list_zlia |].
  destruct (Z.ltb_spec ch (2 ^ 16)); [rewrite (lor_disjoint 5) by zlia; f_equal; list_zlia |].
  destruct (Z.ltb_spec ch (2 ^ 21)); [rewrite (lor_disjoint 4) by zlia; f_equal; list_zlia |].
  destruct (Z.ltb_spec ch (2 ^ 26)); [rewrite (lor_disjoint 3) by zlia; f_equal; list_zlia |].
  rewrite (lor_disjoint 2) by zlia; f_equal; list_zlia.
Qed.

Lemma utf8_bytes_ok ch :
  0 <= ch < 2 ^ 32 -> Forall (fun b => 0 < b < 256) (utf8_bytes ch).
Proof.
  intros Hch. unfold utf8_bytes. repeat case_match; repeat constructor; zlia.
Qed.

Lemma mapM_bytes pre cs rest :
  mapM (fun i => byte_at (pre ++ cs ++ rest)
                   (Z.of_nat (length pre) + Z.of_nat i)) (seq 0 (length cs))
  = Some cs.
Proof.
  apply mapM_Some_2, Forall2_same_length_lookup_2; [by rewrite length_seq |].
  intros i x y Hx Hy. apply lookup_seq in Hx as [-> Hi].
  rewrite byte_at_app_r by lia. unfold byte_at.
  rewrite (proj2 (Z.leb_le 0 _)) by lia. rewrite Nat2Z.id.
  by rewrite lookup_app_l by lia.
Qed.

(** Reading a lead byte and its continuation bytes. *)
Lemma utf8_read_form pre b cs rest len bits :
  128 <= b -> lead_class b = Some (bits, length cs) ->
  Z.of_nat (length pre) + 1 + Z.of_nat (length cs) <= len ->
  utf8_read (pre ++ (b :: cs) ++ rest) len (Z.of_nat (length pre))
  = Some (digits64 (b mod 2 ^ bits) (map (fun c => c mod 64) cs),
          Z.of_nat (length pre) + Z.of_nat (length (b :: cs))).
Proof.
  intros Hb Hc Hlen. unfold utf8_read.
  rewrite <- (Z.add_0_r (Z.of_nat (length pre))) at 1.
  rewrite byte_at_app_r by lia. cbn [app].
  change (byte_at (b :: cs ++ rest) 0) with (Some b). cbn [mbind option_bind].
  rewrite (proj2 (Z.ltb_ge b 128)), Hc by lia.
  rewrite (proj2 (Z.leb_le _ len)) by lia.
  pose proof (mapM_bytes (pre ++ [b]) cs rest) as Hm.
  rewrite length_app, Nat2Z.inj_add, <- app_assoc in Hm.
  change (Z.of_nat (length [b])) with 1 in Hm. cbn [app] in Hm. rewrite Hm.
  cbn [mbind option_bind]. do 2 f_equal. cbn [length]. lia.
Qed.

Ltac decide_ltb :=
  repeat match goal with
  | |- context [?x <? ?y] =>
      first [ rewrite (proj2 (Z.ltb_lt x y)) by zlia
            | rewrite (proj2 (Z.ltb_ge x y)) by zlia ]
  end.

(** C31: every character is read back as written, wherever it stands in the
    string, and the position moves to the byte after it. *)
Theorem utf8_read_write pre ch rest len :
  0 <= ch < 2 ^ 32 -> Forall is_byte pre -> Forall is_byte rest ->
  let '(n, out) := ILUTF8WriteChar true ch in
  let posn := Z.of_nat (length pre) in
  posn + n <= len ->
  ILUTF8ReadChar (pre ++ out ++ rest) len posn = Some (ch, posn + n).
Proof.
  intros Hch Hpre Hrest. rewrite ILUTF8WriteChar_spec by done. cbv zeta. intros Hlen.
  rewrite ILUTF8ReadChar_spec by (rewrite !Forall_app; repeat split; try done;
    eapply Forall_impl; [by apply utf8_bytes_ok | unfold is_byte; cbn; lia]).
  revert Hlen. unfold utf8_bytes. cbv zeta.
  destruct (Z.eqb_spec ch 0) as [-> |]; [| destruct (Z.ltb_spec ch (2 ^ 7))].
  { intros Hlen. cbn [length] in Hlen.
    rewrite (utf8_read_form pre 192 [128] rest len 5); [done | lia | done | cbn; lia]. }
  { intros Hlen. unfold utf8_read. rewrite <- (Z.add_0_r (Z.of_nat (length pre))) at 1.
    rewrite byte_at_app_r by lia. cbn [app].
    change (byte_at (ch :: rest) 0) with (Some ch). cbn [mbind option_bind].
    by rewrite (proj2 (Z.ltb_lt ch 128)) by zlia. }
  repeat case_match; intros Hlen;
    repeat match goal with
    | H : (_ <? _) = true |- _ => apply Z.ltb_lt in H
    | H : (_ <? _) = false |- _ => apply Z.ltb_ge in H end;
    (erewrite utf8_read_form;
      [| zlia | unfold lead_class; decide_ltb; reflexivity
       | revert Hlen; cbn [length]; lia]);
    unfold digits64; cbn [map fold_left]; do 2 f_equal; zlia.
Qed.

(** With or without a buffer the writer returns the same length, the
    number of bytes it stores, between 1 and 6; and it never stores a NUL
    byte, so encoded text can be kept in C strings. *)
Theorem utf8_write_length ch :
  0 <= ch < 2 ^ 32 ->
  fst (ILUTF8WriteChar false ch) = fst (ILUTF8WriteChar true ch) /\
  fst (ILUTF8WriteChar true ch)
    = Z.of_nat (length (snd (ILUTF8WriteChar true ch))) /\
  1 <= fst (ILUTF8WriteChar true ch) <= 6 /\
  Forall (fun b => 0 < b < 256) (snd (ILUTF8WriteChar true ch)).
Proof.
  intros Hch. split; [unfold ILUTF8WriteChar; by repeat case_match |].
  rewrite ILUTF8WriteChar_spec by done. split; [done |].
  split; [| by apply utf8_bytes_ok].
  unfold utf8_bytes. repeat case_match; cbn; lia.
Qed.

(** C32: reading inside a string of bytes never leaves the string, always
    moves forward, stops at [len] at the latest and yields a 32-bit value;
    ill-formed input is read as Latin-1. *)
Theorem utf8_read_safe str len posn :
  Forall is_byte str -> 0 <= posn < len -> len <= Z.of_nat (length str) ->
  exists v posn', ILUTF8ReadChar str len posn = Some (v, posn') /\
    posn < posn' <= len /\ 0 <= v < 2 ^ 32.
Proof.
  intros Hs Hp Hlen. rewrite ILUTF8ReadChar_spec by done. unfold utf8_read.
  destruct (byte_at_in_range str posn) as [b Hb]; [lia |].
  apply byte_at_Some in Hb as Hb'. destruct Hb' as [_ Hb'].
  specialize (Hb' Hs). unfold is_byte in Hb'. rewrite Hb. cbn [mbind option_bind].
  destruct (Z.ltb_spec b 128); [eexists _, _; split; [done |]; zlia |].
  destruct (lead_class b) as [[bits n] |] eqn:Hc;
    [| eexists _, _; split; [done |]; zlia].
  destruct (Z.leb_spec (posn + 1 + Z.of_nat n) len);
    [| eexists _, _; split; [done |]; zlia].
  assert (is_Some (mapM (fun i => byte_at str (posn + 1 + Z.of_nat i)) (seq 0 n)))
    as [cs Hcs].
  { apply mapM_is_Some_2, Forall_forall. intros i Hi%elem_of_seq.
    destruct (byte_at_in_range str (posn + 1 + Z.of_nat i)); [lia | eauto]. }
  rewrite Hcs. eexists _, _. split; [done |]. split; [lia |].
  apply length_mapM in Hcs. rewrite length_seq in Hcs.
  unfold lead_class in Hc. unfold digits64.
  repeat case_match; simplify_eq;
    repeat (destruct cs as [| ? cs]; try done; cbn [map fold_left]); zlia.
Qed.
End codec.

Lemma utf8_read_write_witness :
  @ILUTF8ReadChar LP64 ([65] ++ snd (ILUTF8WriteChar true 0x20AC) ++ [66]) 5 1
  = Some (0x20AC, 4).
Proof.
  apply (@utf8_read_write LP64 [65] 0x20AC [66] 5);
    [lia | repeat constructor; unfold is_byte; lia
    | repeat constructor; unfold is_byte; lia | vm_compute; discriminate].
Defined.

Lemma utf8_write_length_witness :
  fst (ILUTF8WriteChar true 0x1F600) = 4 /\
  1 <= fst (ILUTF8WriteChar true 0x1F600) <= 6.
Proof.
  destruct (utf8_write_length 0x1F600) as (_ & _ & Hlen & _); [lia |].
  split; [reflexivity | exact Hlen].
Defined.

Lemma utf8_read_safe_witness :
  exists v posn', @ILUTF8ReadChar ILP32 [0xE2; 0x82; 0xAC] 2 0 = Some (v, posn') /\
    0 < posn' <= 2 /\ 0 <= v < 2 ^ 32.
Proof.
  apply (@utf8_read_safe ILP32 [0xE2; 0x82; 0xAC] 2 0);
    [repeat constructor; unfold is_byte; lia | lia | cbn; lia].
Defined.
