(* ===== verification/Utf16.v ===== *)
(** * Utf16: the UTF-16 codec of the metadata library

    Models src/gcc/cil/support/utf16.c: the reader and the writer over arrays
    of 16-bit units, and the two that work on little-endian bytes.  A position
    outside the array is [None]. *)
From S2P Require Import Prelude Values.

(** The array of units is [str]; [str !! i] is [str[i]]. *)
Definition ILUTF16ReadChar (str : list Z) (len posn : Z) : option (Z * Z) :=
  ch ← byte_at str posn;
  if (ch <? 0xD800) || (0xDBFF <? ch) then Some (ch, posn + 1)
  else if posn + 2 <=? len then
    low ← byte_at str (posn + 1);
    if (0xDC00 <=? low) && (low <=? 0xDFFF) then
      Some (Z.shiftl (ch - 0xD800) 10 + Z.land low 0x03FF + 0x10000, posn + 2)
    else Some (ch, posn + 1)
  else Some (ch, posn + 1).

Definition ILUTF16ReadCharAsBytes (str : list Z) (len posn : Z) : option (Z * Z) :=
  if len <? posn + 2 then ch ← byte_at str posn; Some (ch, posn + 1)
  else
    ch ← IL_READ_UINT16 str posn;
    let posn := posn + 2 in
    if (ch <? 0xD800) || (0xDBFF <? ch) then Some (ch, posn)
    else if len <? posn + 2 then Some (ch, posn)
    else
      low ← IL_READ_UINT16 str posn;
      if (low <? 0xDC00) || (0xDFFF <? low) then Some (ch, posn)
      else Some (Z.shiftl (ch - 0xD800) 10 + Z.land low 0x03FF + 0x10000,
                 posn + 2).

(** The return value and the units stored; [buf] tells whether a buffer is
    given. *)
Definition ILUTF16WriteChar (buf : bool) (ch : Z) : Z * list Z :=
  if buf then
    if ch <? 0x10000 then (1, [uint16 ch])
    else if ch <? 0x110000 then
      let ch := ch - 0x10000 in
      (2, [uint16 (Z.shiftr ch 10 + 0xD800); uint16 (Z.land ch 0x03FF + 0xDC00)])
    else (0, [])
  else
    if ch <? 0x10000 then (1, [])
    else if ch <? 0x110000 then (2, [])
    else (0, []).

Definition ILUTF16WriteCharAsBytes (buf : bool) (ch : Z) : Z * list Z :=
  if buf then
    if ch <? 0x10000 then (2, [uchar ch; uchar (Z.shiftr ch 8)])
    else if ch <? 0x110000 then
      let ch := ch - 0x10000 in
      let hi := uint32 (Z.shiftr ch 10 + 0xD800) in
      let lo := uint32 (Z.land ch 0x03FF + 0xDC00) in
      (4, [uchar hi; uchar (Z.shiftr hi 8); uchar lo; uchar (Z.shiftr lo 8)])
    else (0, [])
  else
    if ch <? 0x10000 then (2, [])
    else if ch <? 0x110000 then (4, [])
    else (0, []).

(** ** Units and bytes *)

Definition is_unit (u : Z) : Prop := 0 <= u < 2 ^ 16.

(** The little-endian bytes of a list of units. *)
Definition unit_bytes (us : list Z) : list Z :=
  us ≫= (fun u => [u mod 256; u / 256]).

Lemma length_unit_bytes us : length (unit_bytes us) = (2 * length us)%nat.
Proof.
  induction us as [| u us IH]; [done |].
  unfold unit_bytes in *. rewrite bind_cons, length_app, IH. cbn. lia.
Qed.

Lemma unit_bytes_app us vs : unit_bytes (us ++ vs) = unit_bytes us ++ unit_bytes vs.
Proof. unfold unit_bytes. by rewrite bind_app. Qed.

Lemma byte_at_unit_bytes us i u :
  0 <= i -> byte_at us i = Some u ->
  byte_at (unit_bytes us) (2 * i) = Some (u mod 256) /\
  byte_at (unit_bytes us) (2 * i + 1) = Some (u / 256).
Proof.
  unfold byte_at. intros Hi. rewrite !(proj2 (Z.leb_le 0 _)) by lia.
  intros Hu. apply list_elem_of_split_length in Hu as (l1 & l2 & -> & Hl).
  rewrite unit_bytes_app. change (unit_bytes (u :: l2))
    with ([u mod 256; u / 256] ++ unit_bytes l2).
  pose proof (length_unit_bytes l1) as Hb.
  split; (rewrite lookup_app_r by lia);
    [replace (Z.to_nat (2 * i) - length (unit_bytes l1))%nat with 0%nat by lia
    |replace (Z.to_nat (2 * i + 1) - length (unit_bytes l1))%nat with 1%nat by lia];
    done.
Qed.

Lemma unit_bytes_byte us : Forall is_unit us -> Forall is_byte (unit_bytes us).
Proof.
  induction 1 as [| u us Hu _ IH]; [constructor |]. unfold is_unit in Hu.
  repeat (constructor; [unfold is_byte; zlia |]). done.
Qed.

Lemma is_unit_at us i u : Forall is_unit us -> byte_at us i = Some u -> is_unit u.
Proof.
  unfold byte_at. intros Hus Hu. case_match; [| done].
  by eapply Forall_lookup in Hu.
Qed.

Lemma read_uint16_unit us i u :
  Forall is_unit us -> 0 <= i -> byte_at us i = Some u ->
  IL_READ_UINT16 (unit_bytes us) (2 * i) = Some u.
Proof.
  intros Hus Hi Hu. rewrite IL_READ_UINT16_spec by by apply unit_bytes_byte.
  destruct (byte_at_unit_bytes us i u Hi Hu) as [E0 E1]. unfold bytes_at.
  cbn -[Z.add Z.mul le_value]. rewrite Z.add_0_r.
  change (Z.of_nat 1) with 1. rewrite E0, E1.
  apply is_unit_at in Hu; [| done]. unfold is_unit in Hu. cbn -[Z.modulo Z.div Z.mul].
  f_equal. zlia.
Qed.

Lemma byte_at_None us i :
  0 <= i -> Z.of_nat (length us) <= i -> byte_at us i = None.
Proof.
  intros. unfold byte_at. rewrite (proj2 (Z.leb_le 0 i)) by lia.
  apply lookup_ge_None. lia.
Qed.

Lemma byte_at_app_mid pre us post i :
  0 <= i < Z.of_nat (length us) ->
  byte_at (pre ++ us ++ post) (Z.of_nat (length pre) + i) = byte_at us i.
Proof.
  intros. rewrite byte_at_app_r by lia. unfold byte_at.
  rewrite (proj2 (Z.leb_le 0 i)) by lia. apply lookup_app_l. lia.
Qed.

(** The two units of a supplementary character. *)
Lemma surrogates ch :
  0x10000 <= ch < 0x110000 ->
  ILUTF16WriteChar true ch
  = (2, [0xD800 + (ch - 0x10000) / 2 ^ 10; 0xDC00 + (ch - 0x10000) mod 2 ^ 10]).
Proof.
  intros. unfold ILUTF16WriteChar.
  rewrite (proj2 (Z.ltb_ge ch _)), (proj2 (Z.ltb_lt ch _)) by lia.
  cbv zeta. cbits. unfold uint16, to_unsigned. f_equal. list_zlia.
Qed.

Lemma bmp ch : 0 <= ch < 0x10000 -> ILUTF16WriteChar true ch = (1, [ch]).
Proof.
  intros. unfold ILUTF16WriteChar. rewrite (proj2 (Z.ltb_lt ch _)) by lia.
  unfold uint16. by rewrite to_unsigned_small by zlia.
Qed.

Lemma write_units ch :
  0 <= ch -> Forall is_unit (snd (ILUTF16WriteChar true ch)).
Proof.
  intros. unfold ILUTF16WriteChar, is_unit.
  repeat case_match; repeat constructor; apply to_unsigned_range; lia.
Qed.

Lemma write_bytes_units ch :
  0 <= ch ->
  ILUTF16WriteCharAsBytes true ch
  = (2 * fst (ILUTF16WriteChar true ch), unit_bytes (snd (ILUTF16WriteChar true ch))).
Proof.
  intros Hch. destruct (Z.lt_ge_cases ch 0x10000).
  { rewrite bmp by lia. unfold ILUTF16WriteCharAsBytes.
    rewrite (proj2 (Z.ltb_lt ch _)) by lia. cbits. rewrite !uchar_mod.
    cbn -[Z.modulo Z.div Z.pow]. f_equal. list_zlia. }
  destruct (Z.lt_ge_cases ch 0x110000).
  - rewrite surrogates by lia. unfold ILUTF16WriteCharAsBytes.
    rewrite (proj2 (Z.ltb_ge ch _)), (proj2 (Z.ltb_lt ch _)) by lia.
    cbv zeta. cbits. rewrite !uchar_mod. unfold uint32, to_unsigned.
    cbn -[Z.modulo Z.div Z.pow Z.add Z.sub]. f_equal. list_zlia.
  - unfold ILUTF16WriteCharAsBytes, ILUTF16WriteChar.
    by rewrite !(proj2 (Z.ltb_ge ch _)) by lia.
Qed.

(** Reading the unit at [i] when it is followed by the unit [low]. *)
Lemma read_form us len i :
  Forall is_unit us -> 0 <= i < len -> len <= Z.of_nat (length us) ->
  exists ch, byte_at us i = Some ch /\ is_unit ch /\
    ILUTF16ReadChar us len i =
      if negb (in_range 0xD800 0xDC00 ch) then Some (ch, i + 1)
      else if i + 2 <=? len then
        low ← byte_at us (i + 1);
        if in_range 0xDC00 0xE000 low
        then Some ((ch - 0xD800) * 2 ^ 10 + (low - 0xDC00) + 0x10000, i + 2)
        else Some (ch, i + 1)
      else Some (ch, i + 1).
Proof.
  intros Hus Hi Hlen. destruct (byte_at_in_range us i) as [ch Hch]; [lia |].
  exists ch. split; [done |].
  assert (forall j u, byte_at us j = Some u -> is_unit u) as Hu by eauto using is_unit_at.
  split; [eauto |]. unfold ILUTF16ReadChar. rewrite Hch. cbn [mbind option_bind].
  replace ((ch <? 0xD800) || (0xDBFF <? ch)) with (negb (in_range 0xD800 0xDC00 ch))
    by (unfold in_range; lia).
  do 2 (case_match; [done || idtac |]); try done.
  destruct (byte_at us (i + 1)) as [low |] eqn:E; [| done].
  apply Hu in E. unfold is_unit in E. cbn [mbind option_bind].
  replace ((0xDC00 <=? low) && (low <=? 0xDFFF)) with (in_range 0xDC00 0xE000 low)
    by (unfold in_range; lia).
  destruct (in_range 0xDC00 0xE000 low) eqn:R; [| done].
  apply in_range_spec in R. cbits. do 2 f_equal. zlia.
Qed.

(** C33: every Unicode scalar value is read back as written, wherever it
    stands, and the position moves past its units. *)
Theorem utf16_read_write pre ch post len :
  0 <= ch < 0x110000 -> ~ 0xD800 <= ch < 0xE000 ->
  Forall is_unit pre -> Forall is_unit post ->
  let '(n, out) := ILUTF16WriteChar true ch in
  let posn := Z.of_nat (length pre) in
  posn + n <= len -> len <= Z.of_nat (length (pre ++ out ++ post)) ->
  ILUTF16ReadChar (pre ++ out ++ post) len posn = Some (ch, posn + n).
Proof.
  intros Hch Hs Hpre Hpost.
  pose proof (write_units ch ltac:(lia)) as Hw.
  destruct (Z.lt_ge_cases ch 0x10000).
  - rewrite bmp in * by lia. cbv zeta beta iota. intros Hlen Hlen'.
    destruct (read_form (pre ++ [ch] ++ post) len (Z.of_nat (length pre)))
      as (c & Hc & _ & ->); [rewrite !Forall_app; tauto | lia | done |].
    rewrite <- (Z.add_0_r (Z.of_nat (length pre))) in Hc at 1.
    rewrite byte_at_app_mid in Hc by (cbn; lia). 
    change (byte_at [ch] 0) with (Some ch) in Hc. injection Hc as <-.
    replace (in_range 0xD800 0xDC00 ch) with false; [done |].
    symmetry. apply not_true_is_false. rewrite in_range_spec. lia.
  - rewrite surrogates in * by lia. cbv zeta beta iota. intros Hlen Hlen'.
    set (hi := 0xD800 + _) in *. set (lo := 0xDC00 + _) in *.
    destruct (read_form (pre ++ [hi; lo] ++ post) len (Z.of_nat (length pre)))
      as (c & Hc & _ & ->); [rewrite !Forall_app; tauto | lia | done |].
    rewrite <- (Z.add_0_r (Z.of_nat (length pre))) in Hc at 1.
    rewrite byte_at_app_mid in Hc by (cbn; lia).
    change (byte_at [hi; lo] 0) with (Some hi) in Hc. injection Hc as <-.
    rewrite byte_at_app_mid by (cbn; lia).
    change (byte_at [hi; lo] 1) with (Some lo). cbn [mbind option_bind].
    assert (0 <= hi - 0xD800 < 2 ^ 10 /\ 0 <= lo - 0xDC00 < 2 ^ 10) as [] by (subst hi lo; zlia).
    rewrite (proj2 (in_range_spec _ _ hi)), (proj2 (in_range_spec _ _ lo)) by zlia.
    cbn [negb]. rewrite (proj2 (Z.leb_le _ len)) by lia.
    do 2 f_equal. subst hi lo. zlia.
Qed.

(** On the little-endian bytes of any array of units, well-formed or
    not, the byte reader returns what the unit reader returns, at twice the
    position. *)
Theorem utf16_read_bytes_units us i :
  Forall is_unit us -> 0 <= i < Z.of_nat (length us) ->
  ILUTF16ReadCharAsBytes (unit_bytes us) (2 * Z.of_nat (length us)) (2 * i)
  = (fun '(ch, p) => (ch, 2 * p))
      <$> ILUTF16ReadChar us (Z.of_nat (length us)) i.
Proof.
  intros Hus Hi.
  destruct (read_form us (Z.of_nat (length us)) i) as (ch & Hch & Hu & ->);
    [done | lia | lia |].
  unfold ILUTF16ReadCharAsBytes. rewrite (proj2 (Z.ltb_ge _ _)) by lia.
  rewrite (read_uint16_unit us i ch) by (done || lia). cbn [mbind option_bind].
  replace ((ch <? 0xD800) || (0xDBFF <? ch)) with (negb (in_range 0xD800 0xDC00 ch))
    by (unfold in_range; lia).
  destruct (in_range 0xD800 0xDC00 ch) eqn:R; cbn [negb];
    [| cbn [fmap option_fmap option_map]; do 2 f_equal; lia].
  destruct (Z.leb_spec (i + 2) (Z.of_nat (length us))) as [H |];
    [rewrite (proj2 (Z.ltb_ge _ _)) by lia
    | rewrite (proj2 (Z.ltb_lt _ _)) by lia; cbn; do 2 f_equal; lia].
  destruct (byte_at_in_range us (i + 1)) as [low Hl]; [lia |].
  replace (2 * i + 2) with (2 * (i + 1)) by lia.
  rewrite (read_uint16_unit us (i + 1) low) by (done || lia).
  rewrite Hl. cbn [mbind option_bind].
  assert (is_unit low) as Hlu by eauto using is_unit_at.
  unfold is_unit in Hlu.
  replace ((low <? 0xDC00) || (0xDFFF <? low)) with (negb (in_range 0xDC00 0xE000 low))
    by (unfold in_range; lia).
  destruct (in_range 0xDC00 0xE000 low) eqn:R'; cbn [negb fmap option_fmap option_map];
    do 2 f_equal; try lia.
  apply in_range_spec in R', R. cbits. zlia.
Qed.

(** The byte writer stores the little-endian bytes of what the unit
    writer stores; the sizes returned without a buffer are the same; and a
    value beyond U+10FFFF is rejected by both with length 0 and no store. *)
Theorem utf16_write_bytes_units ch :
  0 <= ch ->
  ILUTF16WriteCharAsBytes true ch
    = (2 * fst (ILUTF16WriteChar true ch),
       unit_bytes (snd (ILUTF16WriteChar true ch))) /\
  fst (ILUTF16WriteChar false ch) = fst (ILUTF16WriteChar true ch) /\
  fst (ILUTF16WriteCharAsBytes false ch) = fst (ILUTF16WriteCharAsBytes true ch) /\
  fst (ILUTF16WriteChar true ch)
    = Z.of_nat (length (snd (ILUTF16WriteChar true ch))) /\
  (fst (ILUTF16WriteChar true ch) = 0 <-> 0x110000 <= ch).
Proof.
  intros Hch. split; [by apply write_bytes_units |].
  unfold ILUTF16WriteChar, ILUTF16WriteCharAsBytes.
  repeat case_match; cbn; repeat split; lia.
Qed.

Lemma utf16_read_write_witness :
  ILUTF16ReadChar ([0x41] ++ snd (ILUTF16WriteChar true 0x1F600) ++ [0x42]) 4 1
  = Some (0x1F600, 3).
Proof.
  apply (utf16_read_write [0x41] 0x1F600 [0x42] 4);
    [lia | lia | repeat constructor; unfold is_unit; lia
    | repeat constructor; unfold is_unit; lia
    | vm_compute; discriminate | vm_compute; discriminate].
Defined.

(** A high surrogate followed by an ordinary unit. *)
Lemma utf16_read_bytes_units_witness :
  ILUTF16ReadCharAsBytes [0x00; 0xD8; 0x41; 0x00] 4 0 = Some (0xD800, 2).
Proof.
  exact (utf16_read_bytes_units [0xD800; 0x41] 0
    ltac:(repeat constructor; unfold is_unit; lia) ltac:(cbn; lia)).
Defined.

Lemma utf16_write_bytes_units_witness :
  fst (ILUTF16WriteChar true 0x110000) = 0 /\
  snd (ILUTF16WriteCharAsBytes true 0x10000) = [0x00; 0xD8; 0x00; 0xDC].
Proof.
  split.
  - apply (proj2 (proj2 (proj2 (proj2 (utf16_write_bytes_units 0x110000 ltac:(lia)))))). lia.
  - by rewrite (proj1 (utf16_write_bytes_units 0x10000 ltac:(lia))).
Defined.
