(* ===== verification/Semantics.v ===== *)
(** * Semantics: what the trees that the front end builds compute

    A reference semantics of the part of GENERIC the integer code of a method
    is compiled to: expressions over [int]-like variables, assignments, labels,
    jumps and returns.  It follows the descriptions of the nodes in
    src/gcc/tree.def; [wrapv] is the option of that name, without which signed
    overflow is undefined. *)
From S2P Require Import Prelude Trees CilState CilDecl.

(** The values of the variables, by [DECL_UID]. *)
Abbreviation env := (gmap N Z).

Section eval.
Context `{Target} (wrapv : bool).

(** Conversion of a value to a type. *)
Definition convert_value (ty : ttype) (z : Z) : option Z :=
  match ty with
  | INTEGER_TYPE k =>
      Some (if TYPE_UNSIGNED_int k then to_unsigned (TYPE_PRECISION ty) z
            else to_signed (TYPE_PRECISION ty) z)
  | BOOLEAN_TYPE => if in_range 0 2 z then Some z else None
  | _ => None
  end.

(** The result [z] of an arithmetic operation of type [ty]. *)
Definition arithmetic_value (ty : ttype) (z : Z) : option Z :=
  match ty with
  | INTEGER_TYPE k =>
      let p := TYPE_PRECISION ty in
      if TYPE_UNSIGNED_int k || wrapv || in_range (- 2 ^ (p - 1)) (2 ^ (p - 1)) z
      then convert_value ty z else None
  | _ => None
  end.

Definition unary_value (c : tree_code) (ty : ttype) (x : Z) : option Z :=
  match c with
  | NEGATE_EXPR => arithmetic_value ty (- x)
  | BIT_NOT_EXPR => convert_value ty (Z.lnot x)
  | CONVERT_EXPR | NOP_EXPR => convert_value ty x
  | NON_LVALUE_EXPR => Some x
  | _ => None
  end.

Definition binary_value (c : tree_code) (ty : ttype) (x y : Z) : option Z :=
  match c with
  | PLUS_EXPR => arithmetic_value ty (x + y)
  | MINUS_EXPR => arithmetic_value ty (x - y)
  | MULT_EXPR => arithmetic_value ty (x * y)
  | TRUNC_DIV_EXPR => if y =? 0 then None else arithmetic_value ty (Z.quot x y)
  | BIT_AND_EXPR => convert_value ty (Z.land x y)
  | BIT_IOR_EXPR => convert_value ty (Z.lor x y)
  | BIT_XOR_EXPR => convert_value ty (Z.lxor x y)
  | EQ_EXPR => Some (Z.b2z (x =? y))
  | NE_EXPR => Some (Z.b2z (negb (x =? y)))
  | LT_EXPR => Some (Z.b2z (x <? y))
  | LE_EXPR => Some (Z.b2z (x <=? y))
  | GT_EXPR => Some (Z.b2z (y <? x))
  | GE_EXPR => Some (Z.b2z (y <=? x))
  | _ => None
  end.

(** [None]: undefined, or an expression outside the fragment. *)
Fixpoint eval (rho : env) (t : tree) : option Z :=
  match t with
  | INTEGER_CST _ v => Some v
  | DECL d => rho !! DECL_UID d
  | EXPR c (Some ty) _ a b _ _ =>
      if bool_decide (TREE_CODE_CLASS c = tcc_unary) then
        x ← eval rho a; unary_value c ty x
      else
        x ← eval rho a; y ← eval rho b; binary_value c ty x y
  | _ => None
  end.

(** ** Statements *)

(** The statements after the label. *)
Fixpoint find_label (l : N) (body : list tree) : option (list tree) :=
  match body with
  | [] => None
  | EXPR LABEL_EXPR (Some VOID_TYPE) _ (DECL d) _ _ _ :: k =>
      if bool_decide (DECL_UID d = l) then Some k else find_label l k
  | _ :: k => find_label l k
  end.

(** A running function: the variables and the statements to come; or its
    result, which is [None] for a return without a value. *)
Inductive config :=
| Running (rho : env) (k : list tree)
| Returned (v : option Z).

Definition goto (body : list tree) (rho : env) (label : tree) : option config :=
  match label with
  | DECL d => Running rho <$> find_label (DECL_UID d) body
  | _ => None
  end.

(** The first statement, [k] being the rest. *)
Definition statement (body : list tree) (rho : env) (t : tree) (k : list tree)
    : option config :=
  match t with
  | EXPR LABEL_EXPR (Some VOID_TYPE) _ (DECL _) _ _ _ => Some (Running rho k)
  | EXPR GOTO_EXPR _ _ label _ _ _ => goto body rho label
  | EXPR COND_EXPR _ _ c (EXPR GOTO_EXPR _ _ label _ _ _) (EXPR NOP_EXPR _ _ _ _ _ _) _ =>
      v ← eval rho c; if v =? 0 then Some (Running rho k) else goto body rho label
  | EXPR COND_EXPR _ _ c (EXPR NOP_EXPR _ _ _ _ _ _) (EXPR GOTO_EXPR _ _ label _ _ _) _ =>
      v ← eval rho c; if v =? 0 then goto body rho label else Some (Running rho k)
  | EXPR MODIFY_EXPR _ _ (DECL d) e _ _ =>
      v ← eval rho e; Some (Running (<[DECL_UID d := v]> rho) k)
  | EXPR RETURN_EXPR _ _ NULL_TREE _ _ _ => Some (Returned None)
  | EXPR RETURN_EXPR _ _ (EXPR MODIFY_EXPR _ _ (DECL d) e _ _) _ _ _ =>
      if bool_decide (decl_code d = RESULT_DECL) then
        v ← eval rho e; Some (Returned (Some v))
      else None
  | _ => _ ← eval rho t; Some (Running rho k)
  end.

Definition step (body : list tree) (c : config) : option config :=
  match c with
  | Running rho (t :: k) => statement body rho t k
  | _ => None
  end.

(** At most [fuel] statements. *)
Fixpoint run (fuel : nat) (body : list tree) (c : config) : option (option Z) :=
  match c with
  | Returned v => Some v
  | Running _ _ =>
      match fuel with
      | O => None
      | S fuel => c ← step body c; run fuel body c
      end
  end.

(** The function with these statements. *)
Definition run_body (fuel : nat) (body : list tree) (rho : env) : option (option Z) :=
  run fuel body (Running rho body).

(** ** Steps in sequence *)

Definition tstep (body : list tree) (c c' : config) : Prop := step body c = Some c'.

Lemma run_steps body c c' :
  rtc (tstep body) c c' ->
  forall fuel v, run fuel body c' = Some v -> exists fuel', run fuel' body c = Some v.
Proof.
  induction 1 as [c | c1 c2 c3 Hs _ IH]; intros fuel v Hr; [by exists fuel |].
  destruct (IH fuel v Hr) as [n Hn]. exists (S n).
  destruct c1 as [rho k |]; [| done]. cbn [run]. unfold tstep in Hs. by rewrite Hs.
Qed.

(** More steps do not change the result. *)
Lemma run_more fuel fuel' body c v :
  (fuel <= fuel')%nat -> run fuel body c = Some v -> run fuel' body c = Some v.
Proof.
  revert fuel' c. induction fuel as [| fuel IH]; intros fuel' c Hl.
  - by destruct c, fuel'.
  - destruct c as [rho k |], fuel' as [| fuel']; [lia | | done ..].
    cbn [run]. destruct (step body (Running rho k)) as [c' |]; [| done].
    cbn. apply IH. lia.
Qed.
End eval.

(** ** What is asked of the middle end

    Folding and conversion keep the value of an expression that has one. *)
Class MiddleEndCorrect (wrapv : bool) `{Target, MiddleEnd} : Prop := {
  fold_eval rho t v : eval wrapv rho t = Some v -> eval wrapv rho (fold t) = Some v;
  convert_eval rho k t v :
    eval wrapv rho t = Some v ->
    eval wrapv rho (convert_to_integer (INTEGER_TYPE k) t) = convert_value (INTEGER_TYPE k) v
}.

#[export] Instance plain_middle_end_correct wrapv (T : Target) :
  @MiddleEndCorrect wrapv T plain_middle_end.
Proof.
  split; [done |]. intros rho k t v Hv. cbn. by rewrite Hv.
Qed.
