(* ===== verification/CilMachine.v ===== *)
(** * CilMachine: the execution of integer CIL code

    The abstract machine of the CIL standard (ECMA-335, partition III), for the
    instructions on [int32] values without calls and objects: the reference
    against which the compilation of a method body is proved correct.  It is
    independent of the compiler. *)
From S2P Require Import Prelude Values.

(** A variable of a method. *)
Inductive var := Arg (n : nat) | Local (n : nat).

#[export] Instance var_eq_dec : EqDecision var.
Proof. solve_decision. Defined.

Inductive cil_binop := Add | Sub | Mul | Div | And | Or | Xor | Ceq | Cgt | Clt.
Inductive cil_unop := Neg | Not.
Inductive cil_cond := Beq | Bge | Bgt | Ble | Blt | Bne_un | Bge_un | Bgt_un | Ble_un | Blt_un.

Inductive cil_instr :=
| Nop
| Load (x : var)
| Store (x : var)
| Const (v : Z)
| Binop (o : cil_binop)
| Unop (o : cil_unop)
| Pop
| Ret
(** The displacement is from the end of the instruction. *)
| Br (d : Z)
| Brfalse (d : Z)
| Brtrue (d : Z)
| Bcond (c : cil_cond) (d : Z).

(** ** Encoding *)

Definition cond_of (n : Z) : option cil_cond :=
  nth_error [Beq; Bge; Bgt; Ble; Blt; Bne_un; Bge_un; Bgt_un; Ble_un; Blt_un] (Z.to_nat n).

(** The operand of an opcode: none, an unsigned or a signed byte, four bytes. *)
Inductive form :=
| Plain (i : cil_instr)
| With_uint8 (f : nat -> cil_instr)
| With_int8 (f : Z -> cil_instr)
| With_int32 (f : Z -> cil_instr).

Definition opcode_form (b : Z) : option form :=
  if b =? 0x00 then Some (Plain Nop)
  else if in_range 0x02 0x06 b then Some (Plain (Load (Arg (Z.to_nat (b - 0x02)))))
  else if in_range 0x06 0x0A b then Some (Plain (Load (Local (Z.to_nat (b - 0x06)))))
  else if in_range 0x0A 0x0E b then Some (Plain (Store (Local (Z.to_nat (b - 0x0A)))))
  else if b =? 0x0E then Some (With_uint8 (fun n => Load (Arg n)))
  else if b =? 0x10 then Some (With_uint8 (fun n => Store (Arg n)))
  else if b =? 0x11 then Some (With_uint8 (fun n => Load (Local n)))
  else if b =? 0x13 then Some (With_uint8 (fun n => Store (Local n)))
  else if in_range 0x15 0x1F b then Some (Plain (Const (b - 0x16)))
  else if b =? 0x1F then Some (With_int8 Const)
  else if b =? 0x20 then Some (With_int32 Const)
  else if b =? 0x26 then Some (Plain Pop)
  else if b =? 0x2A then Some (Plain Ret)
  else if b =? 0x2B then Some (With_int8 Br)
  else if b =? 0x2C then Some (With_int8 Brfalse)
  else if b =? 0x2D then Some (With_int8 Brtrue)
  else if in_range 0x2E 0x38 b then c ← cond_of (b - 0x2E); Some (With_int8 (Bcond c))
  else if b =? 0x38 then Some (With_int32 Br)
  else if b =? 0x39 then Some (With_int32 Brfalse)
  else if b =? 0x3A then Some (With_int32 Brtrue)
  else if in_range 0x3B 0x45 b then c ← cond_of (b - 0x3B); Some (With_int32 (Bcond c))
  else if b =? 0x58 then Some (Plain (Binop Add))
  else if b =? 0x59 then Some (Plain (Binop Sub))
  else if b =? 0x5A then Some (Plain (Binop Mul))
  else if b =? 0x5B then Some (Plain (Binop Div))
  else if b =? 0x5F then Some (Plain (Binop And))
  else if b =? 0x60 then Some (Plain (Binop Or))
  else if b =? 0x61 then Some (Plain (Binop Xor))
  else if b =? 0x65 then Some (Plain (Unop Neg))
  else if b =? 0x66 then Some (Plain (Unop Not))
  else None.

(** The opcodes with the prefix [0xFE]. *)
Definition prefixed_form (b : Z) : option cil_instr :=
  if b =? 0x01 then Some (Binop Ceq)
  else if b =? 0x02 then Some (Binop Cgt)
  else if b =? 0x04 then Some (Binop Clt)
  else None.

(** The first instruction and its size. *)
Definition decode (code : list Z) : option (cil_instr * Z) :=
  b ← byte_at code 0;
  if b =? 0xFE then c ← byte_at code 1; i ← prefixed_form c; Some (i, 2)
  else
    f ← opcode_form b;
    match f with
    | Plain i => Some (i, 1)
    | With_uint8 f => n ← byte_at code 1; Some (f (Z.to_nat n), 2)
    | With_int8 f => n ← byte_at code 1; Some (f (schar n), 2)
    | With_int32 f => n ← IL_READ_INT32 code 1; Some (f n, 5)
    end.

(** The instruction is in the code. *)
Lemma decode_size code i n :
  decode code = Some (i, n) -> 1 <= n <= Z.of_nat (length code).
Proof.
  unfold decode. intros Hd.
  destruct (byte_at code 0) as [b |] eqn:Eb; [| done]. cbn [mbind option_bind] in Hd.
  apply byte_at_length in Eb.
  destruct (b =? 0xFE); [| destruct (opcode_form b) as [[]|]; [.. | done]];
    cbn [mbind option_bind] in Hd; [| simplify_eq; lia | | |].
  4: { destruct (IL_READ_INT32 code 1) eqn:E; [| done]. cbn in Hd. simplify_eq.
       apply read_int32_length in E. lia. }
  all: destruct (byte_at code 1) eqn:E; [| done]; apply byte_at_length in E;
    cbn [mbind option_bind] in Hd; try (simplify_eq; lia).
  destruct (prefixed_form z); [| done]. cbn in Hd. simplify_eq. lia.
Qed.

(** ** Execution *)

(** The values of the arguments and of the local variables. *)
Record store := mkStore { args : list Z; locals : list Z }.

Definition lookup_var (st : store) (x : var) : option Z :=
  match x with Arg n => args st !! n | Local n => locals st !! n end.

Definition update_var (st : store) (x : var) (v : Z) : store :=
  match x with
  | Arg n => mkStore (<[n := v]> (args st)) (locals st)
  | Local n => mkStore (args st) (<[n := v]> (locals st))
  end.

Section machine.
(** With [wrap] unset, the machine stops where an [int32] overflows. *)
Context (wrap : bool).

Definition int32_result (z : Z) : option Z :=
  if wrap || in_range (- 2 ^ 31) (2 ^ 31) z then Some (int32 z) else None.

(** [None] is an exception: a division by zero, or the quotient of the least
    integer by -1. *)
Definition binop (o : cil_binop) (x y : Z) : option Z :=
  match o with
  | Add => int32_result (x + y)
  | Sub => int32_result (x - y)
  | Mul => int32_result (x * y)
  | Div => if y =? 0 then None
           else if in_range (- 2 ^ 31) (2 ^ 31) (Z.quot x y) then Some (Z.quot x y) else None
  | And => Some (int32 (Z.land x y))
  | Or => Some (int32 (Z.lor x y))
  | Xor => Some (int32 (Z.lxor x y))
  | Ceq => Some (Z.b2z (x =? y))
  | Cgt => Some (Z.b2z (y <? x))
  | Clt => Some (Z.b2z (x <? y))
  end.

Definition unop (o : cil_unop) (x : Z) : option Z :=
  match o with
  | Neg => int32_result (- x)
  | Not => Some (int32 (Z.lnot x))
  end.

(** The [.un] conditions compare the values as unsigned. *)
Definition cond (c : cil_cond) (x y : Z) : bool :=
  match c with
  | Beq => x =? y
  | Bge => y <=? x
  | Bgt => y <? x
  | Ble => x <=? y
  | Blt => x <? y
  | Bne_un => negb (uint32 x =? uint32 y)
  | Bge_un => uint32 y <=? uint32 x
  | Bgt_un => uint32 y <? uint32 x
  | Ble_un => uint32 x <=? uint32 y
  | Blt_un => uint32 x <? uint32 y
  end.

(** A running method: the offset of the instruction, the variables and the
    evaluation stack; or the value it returned, if any. *)
Inductive machine :=
| At (pc : Z) (st : store) (stack : list Z)
| Result (v : option Z).

Definition cil_exec (i : cil_instr) (next : Z) (st : store) (stack : list Z)
    : option machine :=
  let jump (b : bool) d stack := Some (At (if b then next + d else next) st stack) in
  match i, stack with
  | Nop, _ => Some (At next st stack)
  | Load x, _ => v ← lookup_var st x; Some (At next st (v :: stack))
  | Store x, v :: stack => _ ← lookup_var st x; Some (At next (update_var st x v) stack)
  | Const v, _ => Some (At next st (v :: stack))
  | Binop o, y :: x :: stack => v ← binop o x y; Some (At next st (v :: stack))
  | Unop o, x :: stack => v ← unop o x; Some (At next st (v :: stack))
  | Pop, _ :: stack => Some (At next st stack)
  | Ret, [] => Some (Result None)
  | Ret, v :: _ => Some (Result (Some v))
  | Br d, _ => jump true d stack
  | Brfalse d, v :: stack => jump (v =? 0) d stack
  | Brtrue d, v :: stack => jump (negb (v =? 0)) d stack
  | Bcond c d, y :: x :: stack => jump (cond c x y) d stack
  | _, _ => None
  end.

Definition cil_step (code : list Z) (m : machine) : option machine :=
  match m with
  | At pc st stack =>
      if in_range 0 (Z.of_nat (length code)) pc then
        '(i, n) ← decode (drop (Z.to_nat pc) code);
        cil_exec i (pc + n) st stack
      else None
  | Result _ => None
  end.

Fixpoint cil_run (fuel : nat) (code : list Z) (m : machine) : option (option Z) :=
  match m with
  | Result v => Some v
  | At _ _ _ =>
      match fuel with
      | O => None
      | S fuel => m ← cil_step code m; cil_run fuel code m
      end
  end.
End machine.

(** ** Verification

    What the compiler relies on and does not check.  The stack is described by
    the variables each item depends on; an assignment to one of them while the
    item is on the stack is refused, and so is a branch that leaves something
    on the stack. *)

Abbreviation astack := (list (list var)).

Definition unread (x : var) (a : astack) : bool :=
  forallb (fun r => negb (bool_decide (x ∈ r))) a.

Section verify.
Context (nargs nlocals : nat).

Definition declared (x : var) : bool :=
  match x with Arg n => (n <? nargs)%nat | Local n => (n <? nlocals)%nat end.

Definition abstract_step (i : cil_instr) (a : astack) : option astack :=
  match i, a with
  | Nop, _ => Some a
  | Load x, _ => if declared x then Some ([x] :: a) else None
  | Store x, _ :: a => if declared x && unread x a then Some a else None
  | Const _, _ => Some ([] :: a)
  | Binop _, r2 :: r1 :: a => Some ((r1 ++ r2) :: a)
  | Unop _, r :: a => Some (r :: a)
  | Pop, _ :: a => Some a
  | Ret, [] => Some []
  | Ret, _ :: a => Some a
  | Br _, [] => Some []
  | Brfalse _, [_] | Brtrue _, [_] => Some []
  | Bcond _ _, [_; _] => Some []
  | _, _ => None
  end.

(** The instructions from [code] on, at [offset]: the offset and the stack
    before each of them. *)
Fixpoint scan (fuel : nat) (code : list Z) (offset : Z) (a : astack)
    : option (list (Z * astack)) :=
  match fuel, code with
  | _, [] => Some []
  | O, _ => None
  | S fuel, _ =>
      '(i, n) ← decode code;
      a' ← abstract_step i a;
      rest ← scan fuel (drop (Z.to_nat n) code) (offset + n) a';
      Some ((offset, a) :: rest)
  end.

Definition displacement (i : cil_instr) : option Z :=
  match i with
  | Br d | Brfalse d | Brtrue d | Bcond _ d => Some d
  | _ => None
  end.

(** Every branch goes to an instruction before which the stack is empty; with
    [back] unset, a branch of five bytes does not go back. *)
Definition branches_ok (back : bool) (code : list Z) (points : list (Z * astack)) : bool :=
  forallb (fun '(o, _) =>
    match decode (drop (Z.to_nat o) code) with
    | Some (i, n) =>
        match displacement i with
        | Some d => (back || (n =? 2) || (0 <=? d)) && bool_decide ((o + n + d, []) ∈ points)
        | None => true
        end
    | None => false
    end) points.

Definition verify (back : bool) (code : list Z) : bool :=
  match scan (length code) code 0 [] with
  | Some points => branches_ok back code points
  | None => false
  end.
End verify.
