(* ===== verification/Int32Handlers.v ===== *)
(** * Int32Handlers: which handler each integer instruction reaches

    The instructions of CilMachine, as bytes, against the [switch] of
    parse_instr.c: an instruction is compiled by the handler below, its operand
    read as the standard says. *)
From S2P Require Import Prelude Values Opcodes Trees CilState CilDecl EvalStack Records.
From S2P Require Import Program SampleProgram Frame Metadata Calls Statements StaticData.
From S2P Require Import Instr ParseInstr Assembly Reading Sample.
From S2P Require Import Effects StackEffect ParseLoop CilMachine.

Section handlers.
Context `{Host, Target, MiddleEnd, Metadata}.

Definition binop_code (o : cil_binop) : tree_code :=
  match o with
  | Add => PLUS_EXPR | Sub => MINUS_EXPR | Mul => MULT_EXPR | Div => TRUNC_DIV_EXPR
  | And => BIT_AND_EXPR | Or => BIT_IOR_EXPR | Xor => BIT_XOR_EXPR
  | Ceq => EQ_EXPR | Cgt => GT_EXPR | Clt => LT_EXPR
  end.

Definition binop_handler (o : cil_binop) : M unit :=
  match o with
  | Div =>
      t ← stack_top None;
      ty ← type_of t;
      if bool_decide (type_code ty = REAL_TYPE_) then make_arithmetic_expr RDIV_EXPR
      else make_arithmetic_expr TRUNC_DIV_EXPR
  | Ceq | Cgt | Clt =>
      make_arithmetic_expr (binop_code o);; stack_convert_top_item int32_type_node
  | _ => make_arithmetic_expr (binop_code o)
  end.

Definition unop_code (o : cil_unop) : tree_code :=
  match o with Neg => NEGATE_EXPR | Not => BIT_NOT_EXPR end.

(** The condition, the unordered one, and whether it is unsigned. *)
Definition cond_code (c : cil_cond) : tree_code * tree_code * bool :=
  match c with
  | Beq => (EQ_EXPR, UNEQ_EXPR, false)
  | Bge => (GE_EXPR, UNGE_EXPR, false)
  | Bgt => (GT_EXPR, UNGT_EXPR, false)
  | Ble => (LE_EXPR, UNLE_EXPR, false)
  | Blt => (LT_EXPR, UNLT_EXPR, false)
  | Bne_un => (NE_EXPR, NE_EXPR, true)
  | Bge_un => (GE_EXPR, UNGE_EXPR, true)
  | Bgt_un => (GT_EXPR, UNGT_EXPR, true)
  | Ble_un => (LE_EXPR, UNLE_EXPR, true)
  | Blt_un => (LT_EXPR, UNLT_EXPR, true)
  end.

Definition read_var (x : var) : M tree :=
  match x with
  | Arg n => array_read "formal_params" formal_params (Z.of_nat n)
  | Local n => array_read "local_vars" local_vars (Z.of_nat n)
  end.

Definition handler (i : cil_instr) (label : string) : M unit :=
  match i with
  | Nop => mret tt
  | Load x => v ← read_var x; stack_push v
  | Store x => v ← read_var x; make_assignment v
  | Const v => stack_push (INTEGER_CST int32_type_node v)
  | Binop o => binop_handler o
  | Unop o => make_unary_expr (unop_code o)
  | Pop => make_instr_pop
  | Ret => make_return_value
  | Br _ => make_branch_unconditional label
  | Brfalse _ => make_branch_on_false label
  | Brtrue _ => make_branch_on_true label
  | Bcond c _ =>
      let '(condition, unordered, unsignedp) := cond_code c in
      make_branch_comparison condition unordered label unsignedp
  end.

(** One instruction, in the way of [parse_one]. *)
Definition parse_any (code : list Z) (offset : Z) : M Z :=
  c ← code_byte code 0;
  if c =? il_op_value IL_OP_PREFIX then parse_prefixed_instr code offset
  else parse_instr code offset.

(** ** Operands *)

Lemma read_int32_uint32 code i v :
  Forall is_byte code -> IL_READ_INT32 code i = Some v ->
  exists u, IL_READ_UINT32 code i = Some u /\ v = int32 u /\ 0 <= u < 2 ^ 32.
Proof.
  intros Hb Hv. rewrite IL_READ_INT32_spec in Hv by done.
  destruct (IL_READ_UINT32 code i) as [u |] eqn:E; [| done].
  exists u. injection Hv as <-. split; [done |]. split; [done |].
  by eapply uint32_read_range.
Qed.

(** A long branch, its operand being [d]. *)
Lemma long_label code d offset s :
  Forall is_byte code -> IL_READ_INT32 code 1 = Some d ->
  long_bits = 32 \/ 0 <= d ->
  0 <= offset < 2 ^ 31 -> 0 <= offset + 5 + d < 2 ^ 31 ->
  parse_instr_arg code IL_OPCODE_ARGS_LONG_JUMP offset s
  = Done (Arg_label (label_string (offset + 5 + d))) s.
Proof.
  intros Hb Hv Hl Ho Ht.
  destruct (read_int32_uint32 _ _ _ Hb Hv) as (u & Hu & -> & Hr).
  unfold parse_instr_arg. rewrite Hu. unfold mbind, comp_bind. cbn [lift mret comp_ret].
  assert (long u = int32 u) as ->.
  { destruct Hl as [Hl | Hl]; [by unfold long, int32; rewrite Hl |].
    unfold int32, to_signed in *. rewrite long_small by zlia. zlia. }
  rewrite long_small, ulong_small by zlia. by rewrite get_label_name_small by zlia.
Qed.

Lemma code_shape code i b :
  byte_at code i = Some b -> i = 1 -> exists c rest, code = c :: b :: rest.
Proof.
  intros Hb ->. destruct code as [| c [| b' rest]]; try done.
  exists c, rest. by injection Hb as ->.
Qed.

(** ** Main opcodes *)

(** Where the branches of an instruction go is an offset. *)
Definition target_ok (i : cil_instr) (next : Z) : Prop :=
  forall d, displacement i = Some d -> 0 <= next + d < 2 ^ 31.

Definition label_of (i : cil_instr) (next : Z) : string :=
  label_string (next + default 0 (displacement i)).

Ltac opcode_case Hf :=
  vm_compute in Hf; first [discriminate Hf | injection Hf as <-].

Lemma plain_handler op i code offset label :
  opcode_form (il_op_value op) = Some (Plain i) ->
  parse_instr_switch (Some op) code (main_opcode (il_op_value op)) offset
  = handler i label.
Proof. intros Hf. destruct op; opcode_case Hf; reflexivity. Qed.

Lemma uint8_handler op f n code offset label :
  opcode_form (il_op_value op) = Some (With_uint8 f) ->
  byte_at code 1 = Some n -> is_byte n ->
  parse_instr_switch (Some op) code (main_opcode (il_op_value op)) offset
  = handler (f (Z.to_nat n)) label.
Proof.
  intros Hf Hn Hb. unfold is_byte in Hb.
  destruct op; opcode_case Hf; cbn [handler read_var]; rewrite Z2Nat.id by lia;
    change (parse_instr_switch (Some ?o) code ?i offset)
      with (parse_instr_1 o code i offset (mret tt)); cbn [parse_instr_1];
    unfold code_byte; rewrite Hn; reflexivity.
Qed.

(** A handler whose operand is a label. *)
Lemma label_handler (a : il_args) code offset label (k : string -> M unit) s :
  parse_instr_arg code a offset s = Done (Arg_label label) s ->
  (a ← parse_instr_arg code a offset; name ← arg_label a; k name) s = k label s.
Proof. intros Ha. unfold mbind, comp_bind. by rewrite Ha. Qed.

Lemma constant_handler (a : il_args) code offset t s :
  parse_instr_arg code a offset s = Done (Arg_tree t) s ->
  (a ← parse_instr_arg code a offset; t ← arg_tree a; stack_push t) s = stack_push t s.
Proof. intros Ha. unfold mbind, comp_bind. by rewrite Ha. Qed.

Lemma int8_handler op f n code offset s :
  char_signed = true -> Forall is_byte code ->
  opcode_form (il_op_value op) = Some (With_int8 f) ->
  byte_at code 1 = Some n ->
  0 <= offset < 2 ^ 31 -> target_ok (f (schar n)) (offset + 2) ->
  parse_instr_switch (Some op) code (main_opcode (il_op_value op)) offset s
  = handler (f (schar n)) (label_of (f (schar n)) (offset + 2)) s.
Proof.
  intros Hc Hb Hf Hn Ho Ht.
  assert (is_byte n) as Hbn by by eapply byte_at_is_byte.
  destruct (code_shape code 1 n Hn eq_refl) as (c & rest & Hcode).
  assert (parse_instr_arg code IL_OPCODE_ARGS_INT8 offset s
    = Done (Arg_tree (INTEGER_CST int32_type_node (schar n))) s) as Hconst.
  { subst code. unfold parse_instr_arg, code_byte, mbind, comp_bind, build_int_cst.
    rewrite Hn. cbn [lift mret comp_ret]. by rewrite plain_char_byte. }
  assert (0 <= offset + 2 + schar n ->
    parse_instr_arg code IL_OPCODE_ARGS_SHORT_JUMP offset s
    = Done (Arg_label (label_string (offset + 2 + schar n))) s) as Hlabel.
  { intros Hd. subst code. by apply short_target. }
  destruct op; opcode_case Hf;
    first [ exact (constant_handler _ code offset _ s Hconst)
          | specialize (Hlabel (proj1 (Ht _ eq_refl)));
            exact (label_handler _ code offset _ _ s Hlabel) ].
Qed.

Lemma int32_handler op f v code offset s :
  Forall is_byte code ->
  opcode_form (il_op_value op) = Some (With_int32 f) ->
  IL_READ_INT32 code 1 = Some v ->
  0 <= offset < 2 ^ 31 -> target_ok (f v) (offset + 5) ->
  (forall d, displacement (f v) = Some d -> long_bits = 32 \/ 0 <= d) ->
  parse_instr_switch (Some op) code (main_opcode (il_op_value op)) offset s
  = handler (f v) (label_of (f v) (offset + 5)) s.
Proof.
  intros Hb Hf Hv Ho Ht Hl.
  assert (parse_instr_arg code IL_OPCODE_ARGS_INT32 offset s
    = Done (Arg_tree (INTEGER_CST int32_type_node v)) s) as Hconst.
  { unfold parse_instr_arg, mbind, comp_bind, build_int_cst. by rewrite Hv. }
  assert (long_bits = 32 \/ 0 <= v -> 0 <= offset + 5 + v < 2 ^ 31 ->
    parse_instr_arg code IL_OPCODE_ARGS_LONG_JUMP offset s
    = Done (Arg_label (label_string (offset + 5 + v))) s) as Hlabel.
  { intros Hd Hr. by apply long_label. }
  destruct op; opcode_case Hf;
    first [ exact (constant_handler _ code offset _ s Hconst)
          | specialize (Hlabel (Hl _ eq_refl) (Ht _ eq_refl));
            exact (label_handler _ code offset _ _ s Hlabel) ].
Qed.

Lemma prefixed_handler op i code offset label :
  prefixed_form (il_prefix_op_value op) = Some i ->
  parse_prefixed_switch (Some op) code (prefix_opcode (il_prefix_op_value op)) offset
  = handler i label.
Proof. intros Hf. destruct op; opcode_case Hf; reflexivity. Qed.

(** ** The whole instruction *)

Definition form_size (f : form) : Z :=
  match f with Plain _ => 1 | With_uint8 _ | With_int8 _ => 2 | With_int32 _ => 5 end.

Lemma form_op_size op f :
  opcode_form (il_op_value op) = Some f ->
  op_size (main_opcode (il_op_value op)) = form_size f.
Proof. intros Hf. destruct op; opcode_case Hf; reflexivity. Qed.

Lemma prefixed_op_size op i :
  prefixed_form (il_prefix_op_value op) = Some i ->
  op_size (prefix_opcode (il_prefix_op_value op)) = 2.
Proof. intros Hf. destruct op; opcode_case Hf; reflexivity. Qed.

(** Every byte with a form is an opcode that the [switch] knows. *)
Lemma form_known b :
  is_byte b -> opcode_form b <> None -> il_op_of_byte b <> None /\ b <> 0xFE.
Proof.
  intros Hb Hf.
  pose proof (byte_forall (fun b => match opcode_form b, il_op_of_byte b with
    | Some _, None => false | Some _, _ => negb (b =? 0xFE) | None, _ => true end) b eq_refl Hb)
    as Hk. cbn beta in Hk.
  destruct (opcode_form b); [| done]. destruct (il_op_of_byte b); [| done].
  split; [done |]. lia.
Qed.

Lemma prefixed_form_known b :
  is_byte b -> prefixed_form b <> None -> il_prefix_op_of_byte b <> None.
Proof.
  intros Hb Hf.
  pose proof (byte_forall (fun b => match prefixed_form b, il_prefix_op_of_byte b with
    | Some _, None => false | _, _ => true end) b eq_refl Hb) as Hk. cbn beta in Hk.
  destruct (prefixed_form b); [| done]. by destruct (il_prefix_op_of_byte b).
Qed.

(** A long branch goes forward where [long] is wider than 32 bits. *)
Definition host_ok (i : cil_instr) (n : Z) : Prop :=
  forall d, displacement i = Some d -> long_bits = 32 \/ n = 2 \/ 0 <= d.

Lemma parse_any_decode code offset i n s :
  char_signed = true -> Forall is_byte code -> decode code = Some (i, n) ->
  0 <= offset < 2 ^ 31 -> target_ok i (offset + n) -> host_ok i n ->
  parse_any code offset s = (handler i (label_of i (offset + n));; mret n) s.
Proof.
  intros Hc Hb Hd Ho Ht Hh. unfold decode in Hd.
  destruct (byte_at code 0) as [b |] eqn:Eb; [| done]. cbn [mbind option_bind] in Hd.
  assert (is_byte b) as Hbb by by eapply byte_at_is_byte.
  unfold parse_any, parse_prefixed_instr, parse_instr, code_byte. rewrite Eb.
  change (il_op_value IL_OP_PREFIX) with 0xFE.
  cbn [lift]. rewrite !bind_ret.
  destruct (Z.eqb_spec b 0xFE) as [-> | Hne].
  - destruct (byte_at code 1) as [c |] eqn:Ec; [| done]. cbn [mbind option_bind] in Hd.
    destruct (prefixed_form c) as [i' |] eqn:Ei; [| done]. injection Hd as -> <-.
    assert (is_byte c) as Hcb by by eapply byte_at_is_byte.
    replace (byte_at (drop 1 code) 0) with (Some c) by by destruct code.
    destruct (il_prefix_op_of_byte c) as [op |] eqn:Eop;
      [| by destruct (prefixed_form_known c Hcb); [rewrite Ei |]].
    pose proof Eop as Eop'. apply il_prefix_op_of_byte_value in Eop'; [| done]. subst c.
    cbn [lift]. cbv zeta. rewrite bind_ret, Eop.
    rewrite (prefixed_handler _ _ _ _ (label_of i (offset + 2)) Ei).
    by rewrite (prefixed_op_size _ _ Ei).
  - destruct (opcode_form b) as [f |] eqn:Ef; [| done]. cbn [mbind option_bind] in Hd.
    destruct (il_op_of_byte b) as [op |] eqn:Eop;
      [| by destruct (form_known b Hbb) as [Hk _]; [rewrite Ef |]].
    pose proof Eop as Eop'. apply il_op_of_byte_value in Eop'; [| done]. subst b.
    rewrite (form_op_size _ _ Ef).
    assert (parse_instr_switch (Some op) code (main_opcode (il_op_value op)) offset s
            = handler i (label_of i (offset + n)) s /\ form_size f = n) as [Hsw ->];
      [| unfold mbind, comp_bind; by rewrite Hsw].
    destruct f as [j | g | g | g].
    + injection Hd as -> <-. split; [| done].
      by rewrite (plain_handler _ _ _ _ (label_of i (offset + 1)) Ef).
    + destruct (byte_at code 1) as [k |] eqn:Ek; [| done]. injection Hd as <- <-.
      split; [| done]. erewrite uint8_handler; [done | exact Ef | exact Ek |].
      by eapply byte_at_is_byte.
    + destruct (byte_at code 1) as [k |] eqn:Ek; [| done]. injection Hd as <- <-.
      split; [| done]. by apply int8_handler.
    + destruct (IL_READ_INT32 code 1) as [v |] eqn:Ev; [| done]. injection Hd as <- <-.
      split; [| done]. apply int32_handler; try done.
      intros d Hdd. destruct (Hh d Hdd) as [? | [? | ?]]; [by left | done | by right].
Qed.
End handlers.
