(* ===== verification/Int32Compile.v ===== *)
(** * Int32Compile: integer code is compiled correctly

    The compilation of a method body whose instructions are those of CilMachine
    is proved to succeed and to give statements that compute what the machine
    computes. *)
From S2P Require Import Prelude Values Opcodes Trees CilState CilDecl EvalStack Records.
From S2P Require Import Program SampleProgram Frame Metadata Calls Statements StaticData.
From S2P Require Import Instr ParseInstr Assembly Reading Sample.
From S2P Require Import Effects StackEffect ParseLoop Semantics CilMachine.
From S2P Require Import Int32Handlers.

(** No failure is allowed. *)
Definition never (_ : failure) : Prop := False.

Section types.
Context `{Target}.

Lemma convert_value_int32 z : convert_value int32_type_node z = Some (int32 z).
Proof.
  pose proof int32_precision as Hp. unfold int32_type_node in *.
  destruct (INT_TYPE_SIZE =? 32); cbn in *; by rewrite Hp.
Qed.

Lemma convert_value_uint32 z : convert_value uint32_type_node z = Some (uint32 z).
Proof.
  pose proof uint32_precision as Hp. unfold uint32_type_node in *.
  destruct (INT_TYPE_SIZE =? 32); cbn in *; by rewrite Hp.
Qed.

Lemma arithmetic_value_int32 wrapv z :
  arithmetic_value wrapv int32_type_node z = int32_result wrapv z.
Proof.
  pose proof int32_precision as Hp. pose proof (convert_value_int32 z) as Hc.
  unfold arithmetic_value, int32_result.
  unfold int32_type_node in *. destruct (INT_TYPE_SIZE =? 32);
    rewrite Hp; cbn [TYPE_UNSIGNED_int orb]; by rewrite Hc.
Qed.

Lemma uint32_kind : exists k, uint32_type_node = INTEGER_TYPE k.
Proof. unfold uint32_type_node. case_match; by eexists. Qed.

Lemma unsigned_int32 (s : cil_state) :
  cil_unsigned_type int32_type_node s = Done uint32_type_node s.
Proof.
  unfold cil_unsigned_type, cil_signed_or_unsigned_type.
  rewrite int32_not_native, andb_false_r, int32_precision. reflexivity.
Qed.
End types.

(** ** The state while a method is compiled *)

Section compile.
Context `{Host, Target, MiddleEnd, Metadata}.
(** The declarations of the variables, of the function and of its result. *)
Context (nargs nlocals : nat) (D : var -> decl) (fd result : decl).

Definition var_entry (s : cil_state) (x : var) : option tree :=
  match x with Arg n => formal_params s !! n | Local n => local_vars s !! n end.

(** The labels declared so far have distinct numbers. *)
Definition labels_ok (s : cil_state) : Prop :=
  (forall n t, LABEL_DECL_of s !! n = Some t ->
     t = NULL_TREE \/ exists d, t = DECL d /\ (DECL_UID d < next_uid s)%N) /\
  (forall n1 n2 d1 d2,
     LABEL_DECL_of s !! n1 = Some (DECL d1) -> LABEL_DECL_of s !! n2 = Some (DECL d2) ->
     DECL_UID d1 = DECL_UID d2 -> n1 = n2).

(** The current function returns [int32]. *)
Definition function_ok (s : cil_state) : Prop :=
  current_function_decl s = Some fd /\
  (exists tl, decl_type fd = Some (FUNCTION_TYPE int32_type_node tl)) /\
  DECL_RESULT (attrs_of s (DECL_UID fd)) = DECL result /\ decl_code result = RESULT_DECL.

Record compiling (s : cil_state) : Prop := {
  compiling_vars x : declared nargs nlocals x = true -> var_entry s x = Some (DECL (D x));
  compiling_types x : declared nargs nlocals x = true -> decl_type (D x) = Some int32_type_node;
  compiling_stack : stack_ok s;
  compiling_items : Forall (fun t => TREE_TYPE t = Some int32_type_node) (top_item s);
  compiling_labels : labels_ok s;
  compiling_function : function_ok s
}.

Definition label_decl (s : cil_state) (name : string) (d : decl) : Prop :=
  LABEL_DECL_of s !! name = Some (DECL d).

(** From [s] to [s'] the statements [stmts] were added, and the stack is now
    [stack]. *)
Record emits (s s' : cil_state) (stack stmts : list tree) : Prop := {
  emits_compiling : compiling s';
  emits_stack : top_item s' = stack;
  emits_body : current_function_body s' = current_function_body s ++ stmts;
  emits_labels name d : label_decl s name d -> label_decl s' name d
}.

Lemma emits_trans s1 s2 s3 k2 k3 b2 b3 :
  emits s1 s2 k2 b2 -> emits s2 s3 k3 b3 -> emits s1 s3 k3 (b2 ++ b3).
Proof.
  intros [C2 K2 B2 L2] [C3 K3 B3 L3]. split; [done | done | |].
  - by rewrite B3, B2, app_assoc.
  - intros name d Hd. by apply L3, L2.
Qed.

Lemma emits_refl s : compiling s -> emits s s (top_item s) [].
Proof. intros Hs. split; [done | done | by rewrite app_nil_r | done]. Qed.

(** [m] succeeds, leaving the stack and adding the statements that [Q] allows
    with its value. *)
Definition emit {A} (m : M A) (s : cil_state) (Q : A -> list tree -> list tree -> cil_state -> Prop)
    : Prop :=
  wp never m (fun a s' => exists stack stmts, emits s s' stack stmts /\ Q a stack stmts s') s.

Lemma emit_ret {A} (a : A) s (Q : A -> _) :
  compiling s -> Q a (top_item s) [] s -> emit (mret a) s Q.
Proof. intros Hs HQ. apply wp_ret. do 2 eexists. by split; [apply emits_refl |]. Qed.

Lemma emit_bind {A B} (m : M A) (f : A -> M B) s Q :
  emit m s (fun a stack stmts s' => top_item s' = stack -> compiling s' ->
    emit (f a) s' (fun b stack' stmts' s'' => Q b stack' (stmts ++ stmts') s'')) ->
  emit (m ≫= f) s Q.
Proof.
  intros Hm. apply wp_bind. eapply wp_mono; [| exact Hm].
  intros a s' (k & b & He & Hf). cbv beta in Hf.
  specialize (Hf (emits_stack _ _ _ _ He) (emits_compiling _ _ _ _ He)).
  eapply wp_mono; [| exact Hf]. intros c s'' (k' & b' & He' & HQ).
  exists k', (b ++ b'). split; [by eapply emits_trans | done].
Qed.

(** The same, keeping that the labels declared stay declared. *)
Lemma emit_bind_labels {A B} (m : M A) (f : A -> M B) s Q :
  emit m s (fun a stack stmts s' => top_item s' = stack -> compiling s' ->
    (forall name d, label_decl s name d -> label_decl s' name d) ->
    emit (f a) s' (fun b stack' stmts' s'' => Q b stack' (stmts ++ stmts') s'')) ->
  emit (m ≫= f) s Q.
Proof.
  intros Hm. apply emit_bind. eapply wp_mono; [| exact Hm].
  intros a s' (k & b & He & Hf). exists k, b. split; [done |].
  intros Hk Hs. apply Hf; [done | done |]. apply (emits_labels _ _ _ _ He).
Qed.

Lemma emit_mono {A} (m : M A) s (Q R : A -> _) :
  (forall a k b s', Q a k b s' -> R a k b s') -> emit m s Q -> emit m s R.
Proof.
  intros HQ. apply wp_mono. intros a s' (k & b & He & Ha). exists k, b. auto.
Qed.

(** A computation that does not touch the state. *)
Lemma emit_pure {A} (m : M A) a s (Q : A -> _) :
  compiling s -> m s = Done a s -> Q a (top_item s) [] s -> emit m s Q.
Proof.
  intros Hs Hm HQ. unfold emit, wp. rewrite Hm. do 2 eexists.
  by split; [apply emits_refl |].
Qed.

(** ** The builders *)

Lemma emits_change s s' stack :
  compiling s ->
  top_item s' = stack -> stack_ok s' ->
  Forall (fun t => TREE_TYPE t = Some int32_type_node) stack ->
  current_function_body s' = current_function_body s ->
  local_vars s' = local_vars s -> formal_params s' = formal_params s ->
  LABEL_DECL_of s' = LABEL_DECL_of s -> next_uid s' = next_uid s ->
  current_function_decl s' = current_function_decl s -> attrs s' = attrs s ->
  emits s s' stack [].
Proof.
  intros [Cv Ct Cs Ci Cl Cf] K Hs Hi B V P L U F A. split; [| done | by rewrite app_nil_r |].
  - split; try done.
    + intros x Hx. unfold var_entry. rewrite P, V. by apply Cv.
    + by rewrite K.
    + unfold labels_ok. by rewrite L, U.
    + unfold function_ok, attrs_of. by rewrite F, A.
  - intros name d. unfold label_decl. by rewrite L.
Qed.

Lemma stack_type_int32 t s :
  TREE_TYPE t = Some int32_type_node -> convert_to_stack_type t s = Done t s.
Proof.
  intros Ht. unfold convert_to_stack_type, type_of, mbind, comp_bind.
  rewrite Ht. destruct t; try discriminate; cbn [is_null lift mret comp_ret];
    rewrite int32_code, int32_precision; reflexivity.
Qed.

Lemma emit_push t s Q :
  compiling s -> TREE_TYPE t = Some int32_type_node ->
  (forall s', Q tt (t :: top_item s) [] s') -> emit (stack_push t) s Q.
Proof.
  intros Hs Ht HQ. unfold emit, stack_push. apply wp_bind.
  unfold wp at 1. rewrite stack_type_int32 by done.
  apply wp_bind, wp_modify, wp_modify. do 2 eexists. split; [| apply HQ].
  apply emits_change; try done.
  - pose proof (compiling_stack _ Hs). unfold stack_ok in *. cbn -[Z.of_nat]. lia.
  - constructor; [done | apply (compiling_items _ Hs)].
Qed.

(** What [stack_pop] gives for the item and the type asked for. *)
Lemma emit_pop ty t ts c s Q :
  compiling s -> top_item s = t :: ts ->
  (forall s', convert_item ty t s' = Done c s') ->
  (forall s', Q c ts [] s') -> emit (stack_pop ty) s Q.
Proof.
  intros Hs Hk Hc HQ. unfold emit, stack_pop. pose proof (compiling_stack _ Hs) as Hh.
  unfold stack_ok in Hh. rewrite Hk in Hh. cbn [length] in Hh.
  apply wp_bind, wp_get. rewrite (proj2 (Z.ltb_lt 0 (height s))) by lia.
  unfold top_node. apply wp_bind, wp_bind, wp_get. rewrite Hk. apply wp_ret. cbv beta iota.
  apply wp_bind, wp_modify, wp_bind, wp_modify. unfold wp. rewrite Hc.
  do 2 eexists. split; [| apply HQ]. apply emits_change; try done.
  - unfold stack_ok. cbn -[Z.of_nat]. lia.
  - pose proof (compiling_items _ Hs) as Hi. rewrite Hk in Hi. by inversion Hi.
Qed.

Lemma convert_item_none t s : convert_item None t s = Done t s.
Proof. reflexivity. Qed.

Lemma convert_item_same t ty s : TREE_TYPE t = Some ty -> convert_item (Some ty) t s = Done t s.
Proof.
  intros Ht. unfold convert_item. rewrite Ht.
  rewrite (bool_decide_eq_false_2 (Some ty <> Some ty)) by naive_solver.
  by rewrite andb_false_r.
Qed.

Lemma emit_append t s Q :
  compiling s -> is_null t = false -> TREE_SIDE_EFFECTS t = true ->
  (forall s', label_decl s' = label_decl s -> Q tt (top_item s) [t] s') ->
  emit (append_to_statement_list t) s Q.
Proof.
  intros Hs Hn Ht HQ. unfold emit, append_to_statement_list. rewrite Hn, Ht. cbn [andb negb].
  apply wp_modify. do 2 eexists. split; [| by apply HQ].
  destruct Hs. by split.
Qed.

(** ** Labels *)

(** Giving a label its function changes no label and no result. *)
Lemma compiling_update s d a :
  DECL_RESULT a = DECL_RESULT (attrs_of s (DECL_UID d)) -> compiling s ->
  compiling (set_attrs (<[DECL_UID d := a]> (attrs s)) s).
Proof.
  intros Hf [Cv Ct Cs Ci Cl Cf]. split; try done.
  destruct Cf as (Hd & Hty & Hr & Hcr). split_and!; try done.
  unfold attrs_of in *. cbn [attrs set_attrs].
  destruct (decide (DECL_UID d = DECL_UID fd)) as [E | E].
  - rewrite <- E, lookup_insert_eq. cbn. rewrite Hf, E. exact Hr.
  - by rewrite lookup_insert_ne.
Qed.

Lemma emit_label_context d s Q :
  compiling s -> (forall s', label_decl s' = label_decl s -> Q tt (top_item s) [] s') ->
  emit (set_label_context (DECL d)) s Q.
Proof.
  intros Hs HQ. unfold emit, set_label_context. apply wp_bind, wp_get.
  unfold set_DECL_CONTEXT, update_attrs. apply wp_modify. do 2 eexists. split; [| by apply HQ].
  split; [by apply compiling_update | done | by rewrite app_nil_r | done].
Qed.

Lemma lookup_tree_null m name : is_null (lookup_tree m name) = true ->
  m !! name = None \/ m !! name = Some NULL_TREE.
Proof.
  unfold lookup_tree. destruct (m !! name) as [t |]; [| by left]. cbn. intros E. right.
  by destruct t.
Qed.

(** A new label. *)
Lemma emits_new_label s name :
  compiling s -> is_null (lookup_tree (LABEL_DECL_of s) name) = true ->
  let d := mkDecl LABEL_DECL (next_uid s) (Some name) (Some void_type_node) false in
  let s' := set_local_labels (name :: local_labels s)
    (set_LABEL_DECL_of (<[name := DECL d]> (LABEL_DECL_of s))
      (set_next_uid (next_uid s + 1)%N s)) in
  emits s s' (top_item s) [] /\ label_decl s' name d.
Proof.
  intros Hs Hn d s'. apply lookup_tree_null in Hn. destruct Hs as [Cv Ct Cs Ci Cl Cf].
  split; [| by apply lookup_insert_eq].
  split; [split; try done | done | by rewrite app_nil_r |].
  - destruct Cl as [Cl1 Cl2]. split; cbn.
    + intros n t [[<- <-] | [Hne Hl]]%lookup_insert_Some.
      * right. eexists. split; [done |]. cbn. lia.
      * destruct (Cl1 n t Hl) as [? | (d' & -> & ?)]; [by left |].
        right. eexists. split; [done |]. lia.
    + assert (forall m e, LABEL_DECL_of s !! m = Some (DECL e) -> DECL_UID e <> next_uid s) as Hf.
      { intros m e He. destruct (Cl1 m _ He) as [? | (e' & [= <-] & ?)]; [done | lia]. }
      intros n1 n2 d1 d2 [[<- [= <-]] | [_ H1']]%lookup_insert_Some
        [[<- [= <-]] | [_ H2']]%lookup_insert_Some Hu; cbn in *; try done.
      * by apply Hf in H2'.
      * by apply Hf in H1'.
      * by eapply Cl2.
  - intros m e He. unfold label_decl in *. cbn.
    rewrite lookup_insert_ne; [done |]. intros ->. destruct Hn; congruence.
Qed.

Lemma emit_lookup_label name s Q :
  compiling s ->
  (forall d s', label_decl s' name d -> Q (DECL d) (top_item s) [] s') ->
  emit (lookup_label name) s Q.
Proof.
  intros Hs HQ. unfold lookup_label, emit. apply wp_bind, wp_get.
  destruct (is_null (lookup_tree (LABEL_DECL_of s) name)) eqn:E; cbn [negb].
  - unfold build_decl, fresh. do 2 apply wp_bind. apply wp_bind, wp_get, wp_bind, wp_modify.
    apply wp_ret, wp_ret. destruct (emits_new_label s name Hs E) as [He Hl].
    apply wp_bind. unfold set_label_context. apply wp_bind, wp_get. apply wp_modify.
    apply wp_bind, wp_modify, wp_bind, wp_modify, wp_ret.
    do 2 eexists. split; [| by apply HQ].
    destruct He as [Hc Hk Hb Hx]. split; [| done | done | done].
    eapply (compiling_update _ (mkDecl LABEL_DECL (next_uid s) (Some name)
      (Some void_type_node) false)) in Hc; [exact Hc | reflexivity].
  - destruct (compiling_labels _ Hs) as [Cl _]. unfold lookup_tree in *.
    destruct (LABEL_DECL_of s !! name) as [t |] eqn:Et; [| done].
    destruct (Cl _ _ Et) as [-> | (d & -> & _)]; [done |]. cbn [default] in *.
    apply emit_bind. apply emit_label_context; [done |].
    intros s' Hl Hk Hs'. apply emit_ret; [done |]. rewrite Hk. apply HQ.
    by rewrite Hl.
Qed.

(** ** The translation

    [translates i label k k' stmts s']: with the items [k] on the stack the
    instruction [i] leaves the items [k'] and adds the statements [stmts];
    [label] is the name of the label it branches to, declared in [s']. *)

Abbreviation NO := NULL_TREE (only parsing).

Definition truth (t : tree) : tree :=
  fold (build2_node NE_EXPR (Some boolean_type_node) t integer_zero_node).

Definition unsigned (t : tree) : tree := fold (convert_to_integer uint32_type_node t).

Definition comparison (c : cil_cond) (t1 t2 : tree) : tree :=
  let '(code, _, unsignedp) := cond_code c in
  if unsignedp then build2_node code (Some boolean_type_node) (unsigned t1) (unsigned t2)
  else build2_node code (Some boolean_type_node) t1 t2.

Inductive translates (label : string) (s' : cil_state)
    : cil_instr -> list tree -> list tree -> list tree -> Prop :=
| tr_nop k : translates label s' Nop k k []
| tr_load x k : translates label s' (Load x) k (DECL (D x) :: k) []
| tr_store x ty fl t k :
    translates label s' (Store x) (t :: k) k [EXPR MODIFY_EXPR ty fl (DECL (D x)) t NO NO]
| tr_const v k : translates label s' (Const v) k (INTEGER_CST int32_type_node v :: k) []
| tr_binop o t1 t2 k :
    translates label s' (Binop o) (t2 :: t1 :: k)
      (fold (build2_node (binop_code o) (Some int32_type_node) t1 t2) :: k) []
| tr_unop o fl t k :
    translates label s' (Unop o) (t :: k)
      (fold (EXPR (unop_code o) (Some int32_type_node) fl t NO NO NO) :: k) []
| tr_pop t k :
    translates label s' Pop (t :: k) k (if TREE_SIDE_EFFECTS t then [t] else [])
| tr_return_void ty fl : translates label s' Ret [] [] [EXPR RETURN_EXPR ty fl NO NO NO NO]
| tr_return ty fl ty' fl' r t k :
    decl_code r = RESULT_DECL ->
    translates label s' Ret (t :: k) k
      [EXPR RETURN_EXPR ty fl (EXPR MODIFY_EXPR ty' fl' (DECL r) t NO NO) NO NO NO]
| tr_br disp ty fl d k :
    label_decl s' label d ->
    translates label s' (Br disp) k k [EXPR GOTO_EXPR ty fl (DECL d) NO NO NO]
| tr_brtrue disp ty fl fl1 fl2 ty1 ty2 a d t k :
    label_decl s' label d ->
    translates label s' (Brtrue disp) (t :: k) k
      [EXPR COND_EXPR ty fl (truth t) (EXPR GOTO_EXPR ty1 fl1 (DECL d) NO NO NO)
         (EXPR NOP_EXPR ty2 fl2 a NO NO NO) NO]
| tr_brfalse disp ty fl fl1 fl2 ty1 ty2 a d t k :
    label_decl s' label d ->
    translates label s' (Brfalse disp) (t :: k) k
      [EXPR COND_EXPR ty fl (truth t) (EXPR NOP_EXPR ty2 fl2 a NO NO NO)
         (EXPR GOTO_EXPR ty1 fl1 (DECL d) NO NO NO) NO]
| tr_bcond c disp ty fl fl1 fl2 ty1 ty2 a d t1 t2 k :
    label_decl s' label d ->
    translates label s' (Bcond c disp) (t2 :: t1 :: k) k
      [EXPR COND_EXPR ty fl (comparison c t1 t2) (EXPR GOTO_EXPR ty1 fl1 (DECL d) NO NO NO)
         (EXPR NOP_EXPR ty2 fl2 a NO NO NO) NO].

Lemma emit_type_of t ty s Q :
  compiling s -> TREE_TYPE t = Some ty -> Q ty (top_item s) [] s -> emit (type_of t) s Q.
Proof.
  intros Hs Ht HQ. apply (emit_pure _ ty); [done | | done].
  unfold type_of. by rewrite Ht.
Qed.

Lemma emit_build1 code ty t s Q :
  compiling s -> TREE_CODE_LENGTH code = 1 ->
  (forall fl, (TREE_CODE_CLASS code = tcc_statement -> side_effects fl = true) ->
     Q (EXPR code ty fl t NO NO NO) (top_item s) [] s) ->
  emit (build1 code ty t) s Q.
Proof.
  intros Hs Hl HQ. apply (emit_pure _ (EXPR code ty (build1_flags s code t) t NO NO NO)); [done | |].
  - unfold build1. by rewrite Hl.
  - apply HQ. intros Hc. unfold build1_flags. by rewrite bool_decide_eq_true_2.
Qed.

Lemma emit_build2 code ty t u s Q :
  compiling s -> TREE_CODE_LENGTH code = 2 ->
  Q (build2_node code ty t u) (top_item s) [] s -> emit (build2 code ty t u) s Q.
Proof.
  intros Hs Hl HQ. apply (emit_pure _ (build2_node code ty t u)); [done | | done].
  unfold build2. by rewrite Hl.
Qed.

Lemma emit_fold t ty s Q :
  compiling s -> TREE_TYPE t = Some ty -> Q (fold t) (top_item s) [] s ->
  emit (fold_tree t) s Q.
Proof.
  intros Hs Ht HQ. apply (emit_pure _ (fold t)); [done | | done].
  unfold fold_tree. by destruct t.
Qed.

Lemma emit_bool_to_int32 t s Q :
  compiling s -> Q (t, INTEGER_TYPE_) (top_item s) [] s ->
  emit (bool_to_int32 t (type_code int32_type_node)) s Q.
Proof.
  intros Hs HQ. rewrite int32_code. by apply (emit_pure _ (t, INTEGER_TYPE_)).
Qed.

Lemma item_types s t k :
  compiling s -> top_item s = t :: k -> TREE_TYPE t = Some int32_type_node.
Proof.
  intros Hs Hk. pose proof (compiling_items _ Hs) as Hi. rewrite Hk in Hi. by inversion Hi.
Qed.

Lemma emit_arithmetic op t1 t2 k s Q :
  compiling s -> top_item s = t2 :: t1 :: k -> TREE_CODE_LENGTH op = 2 ->
  (forall s', Q tt (fold (build2_node op (Some int32_type_node) t1 t2) :: k) [] s') ->
  emit (make_arithmetic_expr op) s Q.
Proof.
  intros Hs Hk Hl HQ. pose proof (item_types _ _ _ Hs Hk) as Ht2.
  assert (TREE_TYPE t1 = Some int32_type_node) as Ht1.
  { pose proof (compiling_items _ Hs) as Hi. rewrite Hk in Hi.
    inversion Hi as [| ? ? _ Hi']. by inversion Hi'. }
  unfold make_arithmetic_expr.
  apply emit_bind, (emit_pop None t2 (t1 :: k) t2); [done | done | done |].
  intros s1 Hk1 Hs1. apply emit_bind, (emit_pop None t1 k t1); [done | done | done |].
  intros s2 Hk2 Hs2. cbn [app].
  apply emit_bind, (emit_type_of _ int32_type_node); [done | done |]. intros _ _.
  apply emit_bind, (emit_type_of _ int32_type_node); [done | done |]. intros _ _.
  apply emit_bind, emit_bool_to_int32; [done |]. intros _ _.
  apply emit_bind, emit_bool_to_int32; [done |]. intros _ _. cbv beta iota.
  rewrite (bool_decide_eq_false_2 (INTEGER_TYPE_ <> INTEGER_TYPE_)) by naive_solver.
  cbn [andb]. rewrite bool_decide_eq_true_2 by done. rewrite Ht1.
  apply emit_bind, emit_build2; [done | done |]. intros _ _.
  apply emit_bind, (emit_fold _ int32_type_node);
    [done | by rewrite TREE_TYPE_build2 |]. intros _ _.
  apply emit_push; [done | by rewrite fold_type, TREE_TYPE_build2 |].
  intros s3. rewrite Hk2. apply HQ.
Qed.

Lemma emit_unary op t k s Q :
  compiling s -> top_item s = t :: k -> TREE_CODE_LENGTH op = 1 ->
  (forall fl s', Q tt (fold (EXPR op (Some int32_type_node) fl t NO NO NO) :: k) [] s') ->
  emit (make_unary_expr op) s Q.
Proof.
  intros Hs Hk Hl HQ. pose proof (item_types _ _ _ Hs Hk) as Ht.
  unfold make_unary_expr.
  apply emit_bind, (emit_pop None t k t); [done | done | done |]. intros s1 Hk1 Hs1.
  apply emit_bind, (emit_type_of _ int32_type_node); [done | done |]. intros _ _.
  apply emit_bind, emit_bool_to_int32; [done |]. intros _ _. cbv beta iota.
  rewrite bool_decide_eq_true_2 by done. rewrite Ht.
  apply emit_bind, emit_build1; [done | done |]. intros fl _ _ _.
  apply emit_bind, (emit_fold _ int32_type_node); [done | done |]. intros _ _.
  apply emit_push; [done | by rewrite fold_type |].
  intros s2. rewrite Hk1. apply HQ.
Qed.

Lemma emit_read_var x s Q :
  compiling s -> declared nargs nlocals x = true -> Q (DECL (D x)) (top_item s) [] s ->
  emit (read_var x) s Q.
Proof.
  intros Hs Hx HQ. apply (emit_pure _ (DECL (D x))); [done | | done].
  pose proof (compiling_vars _ Hs x Hx) as Hv.
  destruct x; cbn [read_var var_entry] in *; unfold array_read, array_get, mbind, comp_bind, get;
    rewrite (proj2 (Z.leb_le 0 _)) by lia; rewrite Nat2Z.id, Hv; reflexivity.
Qed.

Lemma side_effects_build2 ty a b :
  TREE_SIDE_EFFECTS (set_side_effects (build2_node MODIFY_EXPR ty a b)) = true.
Proof. by destruct (build2_node_shape MODIFY_EXPR ty a b) as [fl ->]. Qed.

Lemma emit_assignment x t k s Q :
  compiling s -> top_item s = t :: k -> declared nargs nlocals x = true ->
  (forall ty fl s', Q tt k [EXPR MODIFY_EXPR ty fl (DECL (D x)) t NO NO] s') ->
  emit (make_assignment (DECL (D x))) s Q.
Proof.
  intros Hs Hk Hx HQ. pose proof (item_types _ _ _ Hs Hk) as Ht.
  unfold make_assignment.
  apply emit_bind, (emit_type_of _ int32_type_node);
    [done | by apply (compiling_types _ Hs) |]. intros _ _.
  apply emit_bind, (emit_pop _ t k t);
    [done | done | intros; by apply convert_item_same |]. intros s1 Hk1 Hs1.
  apply emit_bind, emit_build2; [done | done |]. intros _ _.
  destruct (build2_node_shape MODIFY_EXPR (Some int32_type_node) (DECL (D x)) t) as [fl E].
  apply emit_append; [done | by rewrite E | apply side_effects_build2 |].
  intros s2 _. rewrite E, Hk1. apply HQ.
Qed.

Lemma emit_instr_pop t k s Q :
  compiling s -> top_item s = t :: k ->
  (forall s', Q tt k (if TREE_SIDE_EFFECTS t then [t] else []) s') -> emit make_instr_pop s Q.
Proof.
  intros Hs Hk HQ. pose proof (item_types _ _ _ Hs Hk) as Ht. unfold make_instr_pop.
  apply emit_bind, (emit_pop None t k t); [done | done | done |]. intros s1 Hk1 Hs1.
  destruct (TREE_SIDE_EFFECTS t) eqn:Hse.
  - apply emit_append; [done | by destruct t | done |]. intros s2 _. rewrite Hk1. apply HQ.
  - apply (emit_pure _ tt); [done | | rewrite Hk1; apply HQ].
    unfold append_to_statement_list. by rewrite Hse, andb_false_r.
Qed.

Lemma emit_stack_height s Q :
  compiling s -> Q (Z.of_nat (length (top_item s))) (top_item s) [] s ->
  emit stack_height s Q.
Proof.
  intros Hs HQ. apply (emit_pure _ (Z.of_nat (length (top_item s)))); [done | | done].
  unfold stack_height, get. by rewrite (compiling_stack _ Hs).
Qed.

Lemma emit_get {A} (f : cil_state -> A) s (Q : A -> _) :
  compiling s -> Q (f s) (top_item s) [] s -> emit (get f) s Q.
Proof. intros Hs HQ. by apply (emit_pure _ (f s)). Qed.

Lemma emit_lift {A} w (a : A) s (Q : A -> _) :
  compiling s -> Q a (top_item s) [] s -> emit (lift w (Some a)) s Q.
Proof. intros Hs HQ. by apply (emit_pure _ a). Qed.

Lemma emit_return label s Q :
  compiling s ->
  (forall k stmts s', translates label s' Ret (top_item s) k stmts -> Q tt k stmts s') ->
  emit make_return_value s Q.
Proof.
  intros Hs HQ. destruct (compiling_function _ Hs) as (Hd & [tl Hty] & _ & Hc).
  unfold make_return_value.
  apply emit_bind, emit_get; [done |]. intros _ _. rewrite Hd.
  apply emit_bind, emit_lift; [done |]. intros _ _.
  apply emit_bind, (emit_type_of _ (FUNCTION_TYPE int32_type_node tl)); [done | done |].
  intros _ _. cbn [TREE_TYPE_of_type].
  apply emit_bind, emit_lift; [done |]. intros _ _.
  apply emit_bind, emit_stack_height; [done |]. intros _ _.
  destruct (top_item s) as [| t k] eqn:Hk; cbn [length].
  - cbn [Z.of_nat Z.ltb Z.compare]. apply emit_bind, emit_ret; [done |]. intros _ _.
    apply emit_bind, emit_build1; [done | done |]. intros fl Hfl _ _.
    apply emit_append; [done | done | by apply Hfl |]. intros s2 _. rewrite Hk. apply HQ.
    apply tr_return_void.
  - pose proof (item_types _ _ _ Hs Hk) as Ht.
    rewrite (proj2 (Z.ltb_lt 0 _)) by lia.
    apply emit_bind, emit_bind, (emit_pop _ t k t);
      [done | done | intros; by apply convert_item_same |]. intros s1 Hk1 Hs1.
    destruct (compiling_function _ Hs1) as (_ & _ & Hr & _).
    apply emit_bind, emit_get; [done |]. intros _ _. rewrite Hr.
    apply emit_bind, emit_build2; [done | done |]. intros _ _.
    apply emit_ret; [done |]. intros _ _.
    apply emit_bind, emit_build1; [done | done |]. intros fl Hfl _ _.
    apply emit_append; [done | done | by apply Hfl |]. intros s2 _. rewrite Hk1. apply HQ.
    destruct (build2_node_shape MODIFY_EXPR (Some int32_type_node) (DECL result) t) as [fl' ->].
    by apply tr_return.
Qed.

(** ** Branches *)

Lemma emit_goto d s Q :
  compiling s ->
  (forall ty fl, side_effects fl = true ->
     Q (EXPR GOTO_EXPR ty fl (DECL d) NO NO NO) (top_item s) [] s) ->
  emit (build1 GOTO_EXPR (Some void_type_node) (DECL d)) s Q.
Proof. intros Hs HQ. apply emit_build1; [done | done |]. intros fl Hfl. by apply HQ, Hfl. Qed.

(** The conditional statement of a branch, either way round. *)
Lemma side_effects_build3 ty c a b :
  TREE_SIDE_EFFECTS a = true \/ TREE_SIDE_EFFECTS b = true ->
  is_null a = false -> is_null b = false ->
  exists fl, build3_node COND_EXPR ty c a b = EXPR COND_EXPR ty fl c a b NO /\
    side_effects fl = true.
Proof.
  intros Hse Ha Hb. unfold build3_node, PROCESS_ARG. rewrite Ha, Hb.
  destruct (is_null c); eexists; (split; [reflexivity |]); cbn;
    destruct Hse as [-> | ->]; by rewrite ?orb_true_r.
Qed.

Lemma emit_cond c a b s Q :
  compiling s -> is_null a = false -> is_null b = false ->
  TREE_SIDE_EFFECTS a = true \/ TREE_SIDE_EFFECTS b = true ->
  (forall ty fl s', label_decl s' = label_decl s ->
     Q tt (top_item s) [EXPR COND_EXPR ty fl c a b NO] s') ->
  emit (t ← build3 COND_EXPR (Some void_type_node) c a b; append_to_statement_list t) s Q.
Proof.
  intros Hs Ha Hb Hse HQ.
  destruct (side_effects_build3 (Some void_type_node) c a b Hse Ha Hb) as (fl & E & Hfl).
  unfold emit. apply wp_bind. unfold build3. apply wp_bind, wp_ret, wp_ret. rewrite E.
  apply emit_append; [done | done | exact Hfl |]. intros s' Hl. by apply HQ.
Qed.

Lemma emit_empty_stmt s Q :
  compiling s ->
  (forall ty fl a, Q (EXPR NOP_EXPR ty fl a NO NO NO) (top_item s) [] s) ->
  emit build_empty_stmt s Q.
Proof. intros Hs HQ. apply emit_build1; [done | done |]. intros fl _. apply HQ. Qed.

Lemma convert_item_truth t s :
  TREE_TYPE t = Some int32_type_node ->
  convert_item (Some boolean_type_node) t s = Done (truth t) s.
Proof.
  intros Ht. unfold convert_item, type_of. rewrite Ht.
  assert (is_null t = false) as -> by by destruct t.
  assert (Some boolean_type_node <> Some int32_type_node) as Hne.
  { intros [= E]. pose proof int32_code as Hc. by rewrite <- E in Hc. }
  rewrite bool_decide_eq_true_2 by done. cbn [negb andb].
  unfold convert, type_of. rewrite Ht. cbn [type_code boolean_type_node lift].
  rewrite bool_decide_eq_true_2 by done. rewrite bind_ret, bind_ret, int32_code.
  unfold build2, fold_tree. cbn [TREE_CODE_LENGTH Z.eqb Pos.eqb gcc_assert].
  destruct (build2_node_shape NE_EXPR (Some boolean_type_node) t integer_zero_node) as [fl E].
  unfold truth. rewrite E. reflexivity.
Qed.


(** The end of every conditional branch. *)
Lemma emit_branch c name d ty1 fl1 (mk : tree -> tree * tree) s Q :
  compiling s -> label_decl s name d -> side_effects fl1 = true ->
  (forall e, is_null e = false ->
     mk e = (EXPR GOTO_EXPR ty1 fl1 (DECL d) NO NO NO, e) \/
     mk e = (e, EXPR GOTO_EXPR ty1 fl1 (DECL d) NO NO NO)) ->
  (forall ty ty2 fl fl2 a s', label_decl s' name d ->
     let e := EXPR NOP_EXPR ty2 fl2 a NO NO NO in
     Q tt (top_item s) [EXPR COND_EXPR ty fl c (mk e).1 (mk e).2 NO] s') ->
  emit (e ← build_empty_stmt;
        t ← build3 COND_EXPR (Some void_type_node) c (mk e).1 (mk e).2;
        append_to_statement_list t) s Q.
Proof.
  intros Hs Hd Hfl Hmk HQ.
  apply emit_bind, emit_empty_stmt; [done |]. intros ty2 fl2 a _ _.
  specialize (HQ) as HQ'. set (e := EXPR NOP_EXPR ty2 fl2 a NO NO NO).
  specialize (Hmk e eq_refl).
  apply emit_cond; [done | by destruct Hmk as [-> | ->] .. | |].
  - destruct Hmk as [-> | ->]; [by left | by right].
  - intros ty fl s' Hl. apply HQ. by rewrite Hl.
Qed.

Lemma emit_branch_true label disp t k s Q :
  compiling s -> top_item s = t :: k ->
  (forall stmts s', translates label s' (Brtrue disp) (t :: k) k stmts -> Q tt k stmts s') ->
  emit (make_branch_on_true label) s Q.
Proof.
  intros Hs Hk HQ. pose proof (item_types _ _ _ Hs Hk) as Ht. unfold make_branch_on_true.
  apply emit_bind, emit_lookup_label; [done |]. intros d s1 Hd Hk1 Hs1.
  apply emit_bind, emit_goto; [done |]. intros ty1 fl1 Hfl1 _ _.
  apply emit_bind_labels, (emit_pop _ t k (truth t));
    [done | by rewrite Hk1 | intros; by apply convert_item_truth |]. intros s2 Hk2 Hs2 Hl.
  apply (emit_branch (truth t) label d ty1 fl1
           (fun e => (EXPR GOTO_EXPR ty1 fl1 (DECL d) NO NO NO, e)));
    [done | by apply Hl | done | by left |].
  intros ty ty2 fl fl2 a s3 Hd3. rewrite Hk2. apply HQ. by apply tr_brtrue.
Qed.

Lemma emit_branch_false label disp t k s Q :
  compiling s -> top_item s = t :: k ->
  (forall stmts s', translates label s' (Brfalse disp) (t :: k) k stmts -> Q tt k stmts s') ->
  emit (make_branch_on_false label) s Q.
Proof.
  intros Hs Hk HQ. pose proof (item_types _ _ _ Hs Hk) as Ht. unfold make_branch_on_false.
  apply emit_bind, emit_lookup_label; [done |]. intros d s1 Hd Hk1 Hs1.
  apply emit_bind, emit_goto; [done |]. intros ty1 fl1 Hfl1 _ _.
  apply emit_bind_labels, (emit_pop _ t k (truth t));
    [done | by rewrite Hk1 | intros; by apply convert_item_truth |]. intros s2 Hk2 Hs2 Hl.
  apply (emit_branch (truth t) label d ty1 fl1
           (fun e => (e, EXPR GOTO_EXPR ty1 fl1 (DECL d) NO NO NO)));
    [done | by apply Hl | done | by right |].
  intros ty ty2 fl fl2 a s3 Hd3. rewrite Hk2. apply HQ. by apply tr_brfalse.
Qed.

Lemma emit_unconditional label disp s Q :
  compiling s ->
  (forall stmts s', translates label s' (Br disp) (top_item s) (top_item s) stmts ->
     Q tt (top_item s) stmts s') ->
  emit (make_branch_unconditional label) s Q.
Proof.
  intros Hs HQ. unfold make_branch_unconditional.
  apply emit_bind, emit_lookup_label; [done |]. intros d s1 Hd Hk1 Hs1.
  apply emit_bind, emit_goto; [done |]. intros ty1 fl1 Hfl1 _ _.
  apply emit_append; [done | done | done |]. intros s2 Hl. rewrite Hk1. apply HQ.
  apply tr_br. by rewrite Hl.
Qed.

(** The operands of an unsigned comparison. *)
Lemma emit_unsigned_operands c u t1 t2 s Q :
  compiling s ->
  TREE_TYPE t1 = Some int32_type_node -> TREE_TYPE t2 = Some int32_type_node ->
  Q (c, unsigned t1, unsigned t2) (top_item s) [] s ->
  emit (unsigned_operands c u int32_type_node t1 t2) s Q.
Proof.
  intros Hs Ht1 Ht2 HQ. apply (emit_pure _ (c, unsigned t1, unsigned t2)); [done | | done].
  assert (type_code uint32_type_node = INTEGER_TYPE_) as Hu.
  { by destruct uint32_kind as [k ->]. }
  unfold unsigned_operands, convert, type_of. rewrite int32_code.
  rewrite (bind_done _ _ _ _ _ (unsigned_int32 s)). rewrite Hu, Ht1. cbn [lift].
  rewrite !bind_ret. rewrite Ht2. cbn [lift]. rewrite bind_ret.
  rewrite (bind_done _ _ _ _ _ (unsigned_int32 s)). rewrite Hu, !bind_ret. reflexivity.
Qed.

Lemma cond_code_length c : TREE_CODE_LENGTH (cond_code c).1.1 = 2.
Proof. by destruct c. Qed.

Lemma emit_branch_comparison c disp label t1 t2 k s Q :
  compiling s -> top_item s = t2 :: t1 :: k ->
  (forall stmts s', translates label s' (Bcond c disp) (t2 :: t1 :: k) k stmts ->
     Q tt k stmts s') ->
  emit (let '(condition, unordered, unsignedp) := cond_code c in
        make_branch_comparison condition unordered label unsignedp) s Q.
Proof.
  intros Hs Hk HQ. pose proof (item_types _ _ _ Hs Hk) as Ht2.
  assert (TREE_TYPE t1 = Some int32_type_node) as Ht1.
  { pose proof (compiling_items _ Hs) as Hi. rewrite Hk in Hi.
    inversion Hi as [| ? ? _ Hi']. by inversion Hi'. }
  pose proof (cond_code_length c) as Hlen.
  destruct (cond_code c) as [[code u] unsignedp] eqn:Hc. cbn [fst] in Hlen.
  unfold make_branch_comparison.
  apply emit_bind, (emit_pop None t2 (t1 :: k) t2); [done | done | done |].
  intros s1 Hk1 Hs1. apply emit_bind, (emit_pop None t1 k t1); [done | done | done |].
  intros s2 Hk2 Hs2. cbn [app].
  apply emit_bind, (emit_type_of _ int32_type_node); [done | done |]. intros _ _.
  apply emit_bind, (emit_type_of _ int32_type_node); [done | done |]. intros _ _.
  rewrite bool_decide_eq_false_2 by naive_solver.
  set (a := if unsignedp then unsigned t1 else t1).
  set (b := if unsignedp then unsigned t2 else t2).
  assert (comparison c t1 t2 = build2_node code (Some boolean_type_node) a b) as Hcmp.
  { unfold comparison. rewrite Hc. unfold a, b. by destruct unsignedp. }
  apply emit_bind. apply (emit_mono _ _ (fun r stack stmts s' =>
    r = (code, a, b) /\ stack = top_item s2 /\ stmts = [])).
  2: { unfold a, b. destruct unsignedp.
       - by apply emit_unsigned_operands.
       - by apply emit_ret. }
  intros r ? ? s3 (-> & -> & ->) Hk3 Hs3. cbv beta iota.
  apply emit_bind, emit_lookup_label; [done |]. intros d s4 Hd Hk4 Hs4.
  apply emit_bind, emit_goto; [done |]. intros ty1 fl1 Hfl1 _ _.
  apply emit_bind, emit_build2; [done | done |]. intros _ _. rewrite <- Hcmp.
  apply (emit_branch (comparison c t1 t2) label d ty1 fl1
           (fun e => (EXPR GOTO_EXPR ty1 fl1 (DECL d) NO NO NO, e)));
    [done | done | done | by left |].
  intros ty ty2 fl fl2 a' s5 Hd5. rewrite Hk4, Hk3, Hk2. apply HQ. by apply tr_bcond.
Qed.

(** ** Every handler follows the translation *)

Lemma emit_binop o t1 t2 k s Q :
  compiling s -> top_item s = t2 :: t1 :: k ->
  (forall s', Q tt (fold (build2_node (binop_code o) (Some int32_type_node) t1 t2) :: k) [] s') ->
  emit (binop_handler o) s Q.
Proof.
  intros Hs Hk HQ.
  assert (forall op, TREE_CODE_LENGTH op = 2 -> op = binop_code o ->
    emit (make_arithmetic_expr op;; stack_convert_top_item int32_type_node) s Q) as Hcompare.
  { intros op Hl ->. apply emit_bind, (emit_arithmetic _ t1 t2 k); [done | done | done |].
    intros s1 Hk1 Hs1. unfold emit, stack_convert_top_item.
    pose proof (compiling_stack _ Hs1) as Hh. unfold stack_ok in Hh. rewrite Hk1 in Hh.
    apply wp_bind, wp_get. cbn [length] in Hh. rewrite (proj2 (Z.ltb_lt 0 _)) by lia.
    unfold top_node. apply wp_bind, wp_bind, wp_get. rewrite Hk1. apply wp_ret. cbv beta iota.
    apply wp_bind. pose proof (item_types _ _ _ Hs1 Hk1) as Ht. unfold wp at 1.
    rewrite convert_item_same by done. apply wp_modify. do 2 eexists.
    split; [| apply HQ]. apply emits_change; try done.
    rewrite <- Hk1. apply (compiling_items _ Hs1). }
  destruct o; cbn [binop_handler]; try (by apply (emit_arithmetic _ t1 t2 k));
    try (by apply Hcompare).
  pose proof (item_types _ _ _ Hs Hk) as Ht2.
  apply emit_bind, (emit_pure _ t2); [done | |].
  { unfold stack_top, top_node. pose proof (compiling_stack _ Hs) as Hh. unfold stack_ok in Hh.
    rewrite Hk in Hh. cbn [length] in Hh. unfold mbind, comp_bind, get.
    rewrite (proj2 (Z.ltb_lt 0 _)) by lia. by rewrite Hk. }
  intros _ _. apply emit_bind, (emit_type_of _ int32_type_node); [done | done |]. intros _ _.
  rewrite int32_code. cbn [app]. by apply (emit_arithmetic _ t1 t2 k).
Qed.

Lemma handler_translates i label a a' s :
  compiling s -> abstract_step nargs nlocals i a = Some a' ->
  length (top_item s) = length a ->
  emit (handler i label) s (fun _ k stmts s' => translates label s' i (top_item s) k stmts).
Proof.
  intros Hs Ha Hl. destruct i as [| x | x | v | o | o | | | d | d | d | c d];
    cbn [handler abstract_step] in *.
  - apply emit_ret; [done |]. constructor.
  - destruct (declared nargs nlocals x) eqn:Hx; [| done].
    apply emit_bind, emit_read_var; [done | done |]. intros _ _.
    apply emit_push; [done | by apply (compiling_types _ Hs) |]. constructor.
  - destruct a as [| r a]; [done |]. destruct (top_item s) as [| t k] eqn:Hk; [done |].
    destruct (declared nargs nlocals x) eqn:Hx; [| done].
    apply emit_bind, emit_read_var; [done | done |]. intros _ _.
    apply (emit_assignment x t k); [done | done | done |]. constructor.
  - apply emit_push; [done | done |]. constructor.
  - destruct a as [| r2 [| r1 a]]; try done.
    destruct (top_item s) as [| t2 [| t1 k]] eqn:Hk; try done.
    apply (emit_binop o t1 t2 k); [done | done |]. constructor.
  - destruct a as [| r a]; [done |]. destruct (top_item s) as [| t k] eqn:Hk; [done |].
    apply (emit_unary _ t k); [done | done | by destruct o |]. constructor.
  - destruct a as [| r a]; [done |]. destruct (top_item s) as [| t k] eqn:Hk; [done |].
    apply (emit_instr_pop t k); [done | done |]. constructor.
  - by eapply emit_return.
  - by eapply emit_unconditional.
  - destruct a as [| r [|]]; try done. destruct (top_item s) as [| t k] eqn:Hk; [done |].
    by eapply emit_branch_false.
  - destruct a as [| r [|]]; try done. destruct (top_item s) as [| t k] eqn:Hk; [done |].
    by eapply emit_branch_true.
  - destruct a as [| r2 [| r1 [|]]]; try done.
    destruct (top_item s) as [| t2 [| t1 k]] eqn:Hk; try done.
    by eapply emit_branch_comparison.
Qed.

Lemma emit_label name s Q :
  compiling s ->
  (top_item s <> [] -> Q tt (top_item s) [] s) ->
  (forall fl d s', top_item s = [] -> label_decl s' name d ->
     Q tt [] [EXPR LABEL_EXPR (Some VOID_TYPE) fl (DECL d) NO NO NO] s') ->
  emit (make_label name) s Q.
Proof.
  intros Hs HQ1 HQ2. unfold make_label.
  apply emit_bind, emit_stack_height; [done |]. intros _ _.
  destruct (top_item s) as [| t k] eqn:Hk; cbn [length].
  - cbn [Z.of_nat Z.eqb]. apply emit_bind, emit_lookup_label; [done |].
    intros d s1 Hd Hk1 Hs1. apply emit_bind, emit_build1; [done | done |].
    intros fl Hfl _ _. apply emit_append; [done | done | by apply Hfl |].
    intros s2 Hl. rewrite Hk1, Hk. apply HQ2; [done | by rewrite Hl].
  - rewrite (proj2 (Z.eqb_neq _ 0)) by lia. apply emit_ret; [done |]. rewrite Hk. by apply HQ1.
Qed.
End compile.
