(* ===== verification/Int32Correct.v ===== *)
(** * Int32Correct: the statements compute what the machine computes

    The translation of Int32Compile preserves the meaning of each instruction,
    and so does the compilation of a whole method body, branches included. *)
From S2P Require Import Prelude Values Opcodes Trees CilState CilDecl EvalStack Records.
From S2P Require Import Program SampleProgram Frame Metadata Calls Statements StaticData.
From S2P Require Import Instr ParseInstr Assembly Reading Sample.
From S2P Require Import Effects StackEffect ParseLoop Semantics CilMachine.
From S2P Require Import Int32Handlers Int32Compile.

Section correct.
Context `{Host, Target, MiddleEnd, Metadata} (wrapv : bool) `{!MiddleEndCorrect wrapv}.
Context (nargs nlocals : nat) (D : var -> decl) (fd result : decl).
Context (D_inj : forall x y, declared nargs nlocals x = true -> declared nargs nlocals y = true ->
  DECL_UID (D x) = DECL_UID (D y) -> x = y).

#[local] Abbreviation value := (eval wrapv).

(** The variables have the values of the store. *)
Definition env_rel (rho : env) (st : store) : Prop :=
  forall x v, declared nargs nlocals x = true -> lookup_var st x = Some v ->
    rho !! DECL_UID (D x) = Some v.

Definition agree (r : list var) (st st' : store) : Prop :=
  forall x, x ∈ r -> lookup_var st' x = lookup_var st x.

(** The tree [t] has the value [v], in this store and in every other in which
    the variables [r] are the same. *)
Definition tracks (st : store) (r : list var) (t : tree) (v : Z) : Prop :=
  forall rho st', agree r st st' -> env_rel rho st' -> value rho t = Some v.

Definition tracked (st : store) : astack -> list tree -> list Z -> Prop := Forall3 (tracks st).

(** ** Assignments *)

Lemma lookup_update st x y v w :
  lookup_var st x = Some w ->
  lookup_var (update_var st x v) y = if decide (y = x) then Some v else lookup_var st y.
Proof.
  intros Hx. destruct x as [n | n], y as [m | m]; cbn in *;
    (destruct (decide _) as [E | E]; try done);
    [injection E as -> | | injection E as -> |].
  1, 3: apply list_lookup_insert_eq; by apply lookup_lt_Some in Hx.
  all: apply list_lookup_insert_ne; congruence.
Qed.

Lemma env_rel_update rho st x v w :
  env_rel rho st -> declared nargs nlocals x = true -> lookup_var st x = Some w ->
  env_rel (<[DECL_UID (D x) := v]> rho) (update_var st x v).
Proof.
  intros He Hx Hw y u Hy Hu. rewrite (lookup_update _ _ _ _ _ Hw) in Hu.
  destruct (decide (y = x)) as [-> | Hne].
  - injection Hu as <-. by rewrite lookup_insert_eq.
  - rewrite lookup_insert_ne; [by apply He |]. intros E. by apply D_inj in E.
Qed.

Lemma tracks_update st x v w r t u :
  lookup_var st x = Some w -> x ∉ r -> tracks st r t u -> tracks (update_var st x v) r t u.
Proof.
  intros Hw Hx Ht rho st' Ha. apply Ht. intros y Hy. rewrite (Ha y Hy).
  rewrite (lookup_update _ _ _ _ _ Hw). by destruct (decide (y = x)) as [-> |].
Qed.

Lemma tracked_update st x v w a k vs :
  lookup_var st x = Some w -> unread x a = true -> tracked st a k vs ->
  tracked (update_var st x v) a k vs.
Proof.
  intros Hw Hx. induction 1 as [| r t u a k vs Ht Hk IH]; [constructor |].
  cbn in Hx. apply andb_true_iff in Hx as [Hr Ha].
  apply negb_true_iff, bool_decide_eq_false in Hr.
  constructor; [by eapply tracks_update | by apply IH].
Qed.

Lemma tracks_now st r t v rho : tracks st r t v -> env_rel rho st -> value rho t = Some v.
Proof. intros Ht. by apply Ht. Qed.

(** ** Expressions *)

Lemma tracks_load st x v :
  declared nargs nlocals x = true -> lookup_var st x = Some v -> tracks st [x] (DECL (D x)) v.
Proof.
  intros Hx Hv rho st' Ha He. cbn. apply He; [done |]. rewrite Ha; [done | set_solver].
Qed.

Lemma tracks_unop st o fl r t x v :
  tracks st r t x -> unop wrapv o x = Some v ->
  tracks st r (fold (EXPR (unop_code o) (Some int32_type_node) fl t
                       NULL_TREE NULL_TREE NULL_TREE)) v.
Proof.
  intros Ht Hv rho st' Ha He. apply fold_eval. specialize (Ht rho st' Ha He).
  destruct o; cbn in *; rewrite Ht; cbn.
  - by rewrite arithmetic_value_int32.
  - by rewrite convert_value_int32.
Qed.

Lemma binary_value_int32 o x y v :
  binop wrapv o x y = Some v -> binary_value wrapv (binop_code o) int32_type_node x y = Some v.
Proof.
  destruct o; cbn; rewrite ?arithmetic_value_int32, ?convert_value_int32; try done.
  case_match; [done |]. unfold int32_result.
  destruct (in_range (- 2 ^ 31) (2 ^ 31) (Z.quot x y)) eqn:E; [| done].
  rewrite orb_true_r. intros [= <-]. f_equal.
  apply in_range_spec in E. apply to_signed_small; lia.
Qed.

Lemma eval_binary rho code ty fl a b x y :
  TREE_CODE_CLASS code <> tcc_unary -> value rho a = Some x -> value rho b = Some y ->
  value rho (EXPR code (Some ty) fl a b NULL_TREE NULL_TREE) = binary_value wrapv code ty x y.
Proof.
  intros Hc Ha Hb. cbn. by rewrite bool_decide_eq_false_2, Ha, Hb by done.
Qed.

Lemma tracks_binop st o r1 r2 t1 t2 x y v :
  tracks st r1 t1 x -> tracks st r2 t2 y -> binop wrapv o x y = Some v ->
  tracks st (r1 ++ r2) (fold (build2_node (binop_code o) (Some int32_type_node) t1 t2)) v.
Proof.
  intros Ht1 Ht2 Hv rho st' Ha He. apply fold_eval.
  destruct (build2_node_shape (binop_code o) (Some int32_type_node) t1 t2) as [fl ->].
  rewrite (eval_binary _ _ _ _ _ _ x y); [by apply binary_value_int32 | by destruct o | |].
  - apply (Ht1 rho st'); [| done]. intros z Hz. apply Ha. set_solver.
  - apply (Ht2 rho st'); [| done]. intros z Hz. apply Ha. set_solver.
Qed.

Lemma eval_truth rho t x : value rho t = Some x -> value rho (truth t) = Some (Z.b2z (negb (x =? 0))).
Proof.
  intros Ht. unfold truth. apply fold_eval.
  destruct (build2_node_shape NE_EXPR (Some boolean_type_node) t integer_zero_node) as [fl ->].
  by rewrite (eval_binary _ _ _ _ _ _ x 0).
Qed.

Lemma eval_unsigned rho t x : value rho t = Some x -> value rho (unsigned t) = Some (uint32 x).
Proof.
  intros Ht. unfold unsigned. apply fold_eval. destruct uint32_kind as [k Hk]. rewrite Hk.
  rewrite (convert_eval _ _ _ _ Ht), <- Hk. apply convert_value_uint32.
Qed.

Lemma eval_comparison rho c t1 t2 x y :
  value rho t1 = Some x -> value rho t2 = Some y ->
  value rho (comparison c t1 t2) = Some (Z.b2z (cond c x y)).
Proof.
  intros Hx Hy. pose proof (eval_unsigned _ _ _ Hx) as Hux.
  pose proof (eval_unsigned _ _ _ Hy) as Huy.
  unfold comparison. destruct c; cbn [cond_code];
    match goal with |- context [build2_node ?c ?ty ?a ?b] =>
      destruct (build2_node_shape c ty a b) as [fl ->] end;
    (erewrite eval_binary; [reflexivity | done | eassumption | eassumption]).
Qed.

(** An expression that has a value is not a statement of another kind. *)
Lemma statement_expression body rho t k v :
  value rho t = Some v -> statement wrapv body rho t k = Some (Running rho k).
Proof.
  intros Hv.
  assert (statement wrapv body rho t k = (_ ← value rho t; Some (Running rho k))) as ->;
    [| by rewrite Hv].
  destruct t as [| | | | c ty fl a b d e | | | | | |]; try done.
  destruct c; try done; exfalso; cbn in Hv; destruct ty; try done;
    (destruct (value rho a); [| done]); (destruct (value rho b); done).
Qed.

(** ** One instruction *)

(** Where the statements are when the machine is at [m]: after those of the
    instruction, or after the label it branches to, or the value is returned. *)
Inductive lands (body rest : list tree) (s' : cil_state) (label : string) (a' : astack)
    (k' : list tree) (i : cil_instr) (next : Z) : config -> machine -> Prop :=
| lands_next rho st vs :
    env_rel rho st -> tracked st a' k' vs ->
    lands body rest s' label a' k' i next (Running rho rest) (At next st vs)
| lands_jump rho st d disp l :
    env_rel rho st -> displacement i = Some disp ->
    label_decl s' label d -> find_label (DECL_UID d) body = Some l ->
    lands body rest s' label a' k' i next (Running rho l) (At (next + disp) st [])
| lands_result v :
    lands body rest s' label a' k' i next (Returned v) (Result v).

Lemma one_step body c c' : step wrapv body c = Some c' -> rtc (tstep wrapv body) c c'.
Proof. intros Hs. by apply rtc_once. Qed.

(** A conditional branch, [b] saying whether it is taken. *)
Lemma branch_lands body rest s' label a' i next disp rho st d l (b : bool) :
  displacement i = Some disp -> env_rel rho st -> a' = [] ->
  label_decl s' label d -> find_label (DECL_UID d) body = Some l ->
  lands body rest s' label a' [] i next
    (Running rho (if b then l else rest)) (At (if b then next + disp else next) st []).
Proof.
  intros Hd He -> Hl Hf. destruct b.
  - by eapply lands_jump.
  - apply lands_next; [done | constructor].
Qed.

Lemma translation_correct i label s' a a' k k' stmts body rest rho st vs next m :
  translates D label s' i k k' stmts -> abstract_step nargs nlocals i a = Some a' ->
  env_rel rho st -> tracked st a k vs -> cil_exec wrapv i next st vs = Some m ->
  (forall d, displacement i <> None -> label_decl s' label d ->
     exists l, find_label (DECL_UID d) body = Some l) ->
  exists c, rtc (tstep wrapv body) (Running rho (stmts ++ rest)) c /\
    lands body rest s' label a' k' i next c m.
Proof.
  intros Htr Ha He Hk Hm Hlab.
  destruct Htr; cbn [abstract_step cil_exec app] in *.
  - (* Nop *) simplify_eq. eexists. split; [done |]. by apply lands_next.
  - (* Load *) destruct (declared nargs nlocals x) eqn:Hx; [| done].
    destruct (lookup_var st x) as [v |] eqn:Hv; [| done]. cbn in Hm. simplify_eq.
    eexists. split; [done |]. apply lands_next; [done |].
    constructor; [by apply tracks_load | done].
  - (* Store *) inversion Hk as [| r ? v ? ? vs' Ht Hk']; subst. cbn in Ha, Hm.
    destruct (declared nargs nlocals x) eqn:Hx; [| done]. cbn in Ha.
    destruct (unread x _) eqn:Hu; [| done].
    destruct (lookup_var st x) as [w |] eqn:Hw; [| done]. cbn in Hm. simplify_eq.
    eexists. split.
    + apply one_step. cbn. by rewrite (tracks_now _ _ _ _ _ Ht He).
    + apply lands_next; [by eapply env_rel_update | by eapply tracked_update].
  - (* Const *) simplify_eq. eexists. split; [done |]. apply lands_next; [done |].
    constructor; [| done]. by intros ? ? ? ?.
  - (* Binop *) inversion Hk as [| r2 ? y ? ? ? Ht2 Hk']; subst.
    inversion Hk' as [| r1 ? x ? ? ? Ht1 Hk'']; subst. cbn in Ha, Hm.
    destruct (binop wrapv o x y) as [v |] eqn:Hv; [| done]. cbn in Hm. simplify_eq.
    eexists. split; [done |]. apply lands_next; [done |].
    constructor; [by eapply tracks_binop | done].
  - (* Unop *) inversion Hk as [| r ? x ? ? ? Ht Hk']; subst. cbn in Ha, Hm.
    destruct (unop wrapv o x) as [v |] eqn:Hv; [| done]. cbn in Hm. simplify_eq.
    eexists. split; [done |]. apply lands_next; [done |].
    constructor; [by eapply tracks_unop | done].
  - (* Pop *) inversion Hk as [| r ? x ? ? ? Ht Hk']; subst. cbn in Ha, Hm. simplify_eq.
    exists (Running rho rest). split; [| by apply lands_next].
    destruct (TREE_SIDE_EFFECTS t); [| done].
    apply one_step. cbn [app step].
    eapply statement_expression, tracks_now; [exact Ht | done].
  - (* Ret, void *) inversion Hk; subst. cbn in Hm. simplify_eq.
    eexists. split; [by apply one_step | constructor].
  - (* Ret *) inversion Hk as [| rr ? x ? ? ? Ht Hk']; subst. cbn in Hm. simplify_eq.
    eexists. split; [| constructor]. apply one_step. cbn.
    rewrite bool_decide_eq_true_2 by done. by rewrite (tracks_now _ _ _ _ _ Ht He).
  - (* Br *) destruct a; [| done]. inversion Hk; subst. simplify_eq.
    destruct (Hlab d) as [l Hl]; [done | done |].
    exists (Running rho l). split.
    + apply one_step. cbn. by rewrite Hl.
    + by apply (branch_lands body rest s' label [] (Br disp) next disp rho st d l true).
  - (* Brtrue *) destruct a as [| r [|]]; try done. inversion Hk as [| ? ? x ? ? ? Ht Hk']; subst.
    inversion Hk'; subst. cbn in Hm. simplify_eq.
    destruct (Hlab d) as [l Hl]; [done | done |].
    pose proof (eval_truth rho t x (tracks_now _ _ _ _ _ Ht He)) as Hv.
    exists (Running rho (if negb (x =? 0) then l else rest)). split.
    + apply one_step. cbn [step statement app]. rewrite Hv. cbn [mbind option_bind goto].
      rewrite Hl. by destruct (x =? 0).
    + by eapply branch_lands.
  - (* Brfalse *) destruct a as [| r [|]]; try done. inversion Hk as [| ? ? x ? ? ? Ht Hk']; subst.
    inversion Hk'; subst. cbn in Hm. simplify_eq.
    destruct (Hlab d) as [l Hl]; [done | done |].
    pose proof (eval_truth rho t x (tracks_now _ _ _ _ _ Ht He)) as Hv.
    exists (Running rho (if x =? 0 then l else rest)). split.
    + apply one_step. cbn [step statement app]. rewrite Hv. cbn [mbind option_bind goto].
      rewrite Hl. by destruct (x =? 0).
    + by eapply branch_lands.
  - (* Bcond *) destruct a as [| r2 [| r1 [|]]]; try done.
    inversion Hk as [| ? ? y ? ? ? Ht2 Hk']; subst.
    inversion Hk' as [| ? ? x ? ? ? Ht1 Hk'']; subst. inversion Hk''; subst.
    cbn in Hm. simplify_eq.
    destruct (Hlab d) as [l Hl]; [done | done |].
    pose proof (eval_comparison rho c t1 t2 x y (tracks_now _ _ _ _ _ Ht1 He)
      (tracks_now _ _ _ _ _ Ht2 He)) as Hv.
    exists (Running rho (if cond c x y then l else rest)). split.
    + apply one_step. cbn [step statement app]. rewrite Hv. cbn [mbind option_bind goto].
      rewrite Hl. by destruct (cond c x y).
    + by eapply branch_lands.
Qed.

(** ** A method body *)

Abbreviation compiling := (Int32Compile.compiling nargs nlocals D fd result).
Abbreviation emits := (Int32Compile.emits nargs nlocals D fd result).
Abbreviation body := current_function_body.

Context (code0 : list Z) (code_bytes : Forall is_byte code0)
  (code_length : Z.of_nat (length code0) < 2 ^ 31).

(** The code from an offset on. *)
Definition code_at (offset : Z) : list Z := drop (Z.to_nat offset) code0.

Definition label_stmt (t : tree) : option decl :=
  match t with
  | EXPR LABEL_EXPR (Some VOID_TYPE) _ (DECL d) _ _ _ => Some d
  | _ => None
  end.

Lemma find_label_cons l t k :
  find_label l (t :: k)
  = match label_stmt t with
    | Some d => if bool_decide (DECL_UID d = l) then Some k else find_label l k
    | None => find_label l k
    end.
Proof.
  destruct t as [| | | | c ty ? a | | | | | |]; try done. destruct c; try done.
  destruct ty as [[]|]; try done. by destruct a.
Qed.

(** Between [s] and [s1] the label of the offset was added, when the stack was
    empty. *)
Definition labelled (offset : Z) (s s1 : cil_state) : Prop :=
  (top_item s <> [] /\ emits s s1 (top_item s) []) \/
  (top_item s = [] /\ exists t d, label_stmt t = Some d /\ emits s s1 [] [t] /\
     label_decl s1 (label_string offset) d).

(** How the statements of [sf], the state at the end, were laid out from the
    offset on, where the state is [s] and the stack [a]. *)
Inductive layout (sf : cil_state) : Z -> astack -> cil_state -> list (Z * astack) -> Prop :=
| layout_end offset a : code_at offset = [] -> layout sf offset a sf []
| layout_instr offset i n a a' s s1 s2 k' stmts points :
    decode (code_at offset) = Some (i, n) ->
    abstract_step nargs nlocals i a = Some a' ->
    labelled offset s s1 -> length (top_item s) = length a ->
    emits s1 s2 k' stmts ->
    translates D (label_of i (offset + n)) s2 i (top_item s1) k' stmts ->
    layout sf (offset + n) a' s2 points ->
    layout sf offset a s ((offset, a) :: points).

Lemma translates_length label s' i a a' k k' stmts :
  translates D label s' i k k' stmts -> abstract_step nargs nlocals i a = Some a' ->
  length k = length a -> length k' = length a'.
Proof.
  intros Htr Ha Hl.
  destruct Htr; cbn [abstract_step] in *;
    repeat match goal with
    | H : context [match ?a with [] => _ | _ :: _ => _ end] |- _ => destruct a; try done
    | H : (if ?b then _ else _) = Some _ |- _ => destruct b; [| done]
    end; simplify_eq; cbn in *; lia.
Qed.

(** One turn of the loop. *)
Lemma parse_one_layout offset i n a a' s :
  char_signed = true -> 0 <= offset < 2 ^ 31 ->
  decode (code_at offset) = Some (i, n) -> abstract_step nargs nlocals i a = Some a' ->
  target_ok i (offset + n) -> host_ok i n ->
  compiling s -> length (top_item s) = length a ->
  wp never (parse_one (code_at offset) (Z.of_nat (length (code_at offset))) offset)
    (fun isize s2 => isize = n /\ exists s1 k' stmts,
       labelled offset s s1 /\ emits s1 s2 k' stmts /\
       translates D (label_of i (offset + n)) s2 i (top_item s1) k' stmts) s.
Proof.
  intros Hc Ho Hd Ha Ht Hh Hs Hl. pose proof (decode_size _ _ _ Hd) as Hn.
  unfold parse_one. apply wp_bind. unfold wp at 1.
  rewrite get_label_name_small by zlia. apply wp_bind.
  eapply wp_mono with (Q := fun _ s1 => labelled offset s s1).
  2: { assert (emit nargs nlocals D fd result (make_label (label_string offset)) s
         (fun _ k lab s1 => k = top_item s /\
            ((top_item s <> [] /\ lab = []) \/
             (top_item s = [] /\ exists t d, label_stmt t = Some d /\ lab = [t] /\
                label_decl s1 (label_string offset) d)))) as Hm.
       { apply emit_label; [done | |].
         - intros Hne. split; [done |]. by left.
         - intros fl d s' Hk Hd'. rewrite Hk. split; [done |]. right. split; [done |].
           by repeat eexists. }
       eapply wp_mono; [| exact Hm].
       intros _ s1 (k & lab & He & -> & [[Hne ->] | (Hk & t & d & Ht' & -> & Hd')]).
       - by left.
       - right. split; [done |]. exists t, d. rewrite Hk in He. done. }
  intros _ s1 Hlab.
  assert (compiling s1 /\ top_item s1 = top_item s) as [Hs1 Hk1].
  { destruct Hlab as [[_ He] | (Hk & t & d & _ & He & _)];
      (split; [apply (emits_compiling _ _ _ _ _ _ _ _ _ He) |]);
      rewrite (emits_stack _ _ _ _ _ _ _ _ _ He); done. }
  eapply wp_mono with (Q := fun isize s2 => isize = n /\ exists k' stmts,
    emits s1 s2 k' stmts /\
    translates D (label_of i (offset + n)) s2 i (top_item s1) k' stmts).
  { intros isize s2 [-> (k' & stmts & He & Htr)]. split; [done |]. by exists s1, k', stmts. }
  pose proof (handler_translates nargs nlocals D fd result i (label_of i (offset + n))
    a a' s1 Hs1 Ha ltac:(by rewrite Hk1)) as Hm.
  unfold emit, wp in Hm. unfold wp. rewrite <- bind_assoc.
  fold (parse_any (code_at offset) offset).
  pose proof (parse_any_decode (code_at offset) offset i n s1 Hc
    ltac:(by apply Forall_drop) Hd Ho Ht Hh) as Hp.
  destruct (handler i (label_of i (offset + n)) s1) as [[] s2 |] eqn:Eh; [| done].
  rewrite (bind_done _ _ _ _ _ Eh) in Hp. rewrite (bind_done _ _ _ _ _ Hp).
  rewrite (proj2 (Z.eqb_neq n 0)) by lia. cbn [mret comp_ret].
  split; [done |]. destruct Hm as (k' & stmts & He & Htr). by exists k', stmts.
Qed.

Lemma code_at_next offset i n :
  0 <= offset -> decode (code_at offset) = Some (i, n) ->
  drop (Z.to_nat n) (code_at offset) = code_at (offset + n).
Proof.
  intros Ho Hd. apply decode_size in Hd. unfold code_at. rewrite drop_drop. f_equal. lia.
Qed.

(** What the branch of each point needs. *)
Definition point_ok (p : Z * astack) : Prop :=
  forall i n, decode (code_at p.1) = Some (i, n) -> target_ok i (p.1 + n) /\ host_ok i n.

Lemma compile_layout fuel : forall offset a points s,
  char_signed = true ->
  scan nargs nlocals fuel (code_at offset) offset a = Some points -> Forall point_ok points ->
  0 <= offset -> offset + Z.of_nat (length (code_at offset)) < 2 ^ 31 ->
  compiling s -> length (top_item s) = length a ->
  exists sf, parse_loop fuel (code_at offset) (Z.of_nat (length (code_at offset))) offset s
             = Done tt sf /\ layout sf offset a s points.
Proof.
  induction fuel as [| fuel IH]; intros offset a points s Hc Hscan Hp Ho Hb Hs Hl.
  - destruct (code_at offset) eqn:E; [| done]. injection Hscan as <-. exists s.
    cbn [length]. rewrite parse_loop_nil. split; [done | by constructor].
  - destruct (decide (code_at offset = [])) as [E | E].
    { rewrite E in *. injection Hscan as <-. exists s.
      cbn [length]. rewrite parse_loop_nil. split; [done | by constructor]. }
    assert (exists i n a' rest, decode (code_at offset) = Some (i, n) /\
      abstract_step nargs nlocals i a = Some a' /\
      scan nargs nlocals fuel (code_at (offset + n)) (offset + n) a' = Some rest /\
      points = (offset, a) :: rest) as (i & n & a' & rest & Hd & Ha & Hr & ->).
    { cbn [scan] in Hscan. destruct (code_at offset) as [| b0 l] eqn:Ecode; [done |].
      rewrite <- Ecode in *.
      destruct (decode (code_at offset)) as [[i n] |] eqn:Hd; [| done].
      cbn [mbind option_bind] in Hscan.
      destruct (abstract_step nargs nlocals i a) as [a' |] eqn:Ha; [| done].
      cbn [mbind option_bind] in Hscan. rewrite (code_at_next _ _ _ Ho Hd) in Hscan.
      destruct (scan _ _ _ _ _ a') as [rest |] eqn:Hr; [| done].
      injection Hscan as <-. by exists i, n, a', rest. }
    inversion Hp as [| ? ? Hp1 Hp2]; subst. destruct (Hp1 i n Hd) as [Ht Hh]. cbn [fst] in *.
    pose proof (decode_size _ _ _ Hd) as Hn.
    pose proof (parse_one_layout offset i n a a' s Hc ltac:(lia) Hd Ha Ht Hh Hs Hl) as Hone.
    unfold wp in Hone. destruct (parse_one _ _ _ s) as [isize s2 |] eqn:Eone; [| done].
    destruct Hone as [-> (s1 & k' & stmts & Hlab & He & Htr)].
    destruct (parse_loop_turn fuel (code_at offset) offset s n s2) as (Hn' & _ & Eq);
      [by apply Forall_drop | lia .. | done |].
    rewrite Eq, (code_at_next _ _ _ Ho Hd).
    assert (length (code_at (offset + n)) = length (code_at offset) - Z.to_nat n)%nat as Hlen.
    { rewrite <- (code_at_next _ _ _ Ho Hd). apply length_drop. }
    assert (length (top_item s1) = length (top_item s)) as Hk1.
    { destruct Hlab as [[_ He1] | (Hk & t & d & _ & He1 & _)];
        rewrite (emits_stack _ _ _ _ _ _ _ _ _ He1); by rewrite ?Hk. }
    destruct (IH (offset + n) a' rest s2) as (sf & Hsf & Hlay); try done; try lia.
    + apply (emits_compiling _ _ _ _ _ _ _ _ _ He).
    + rewrite (emits_stack _ _ _ _ _ _ _ _ _ He).
      eapply translates_length; [done | done | lia].
    + exists sf. split; [done |]. by eapply layout_instr.
Qed.

(** The statements and the labels only grow. *)
Lemma labelled_grows offset s s1 :
  labelled offset s s1 -> exists lab, emits s s1 (top_item s) lab.
Proof.
  intros [[_ He] | (Hk & t & d & _ & He & _)]; [by eexists | rewrite Hk; by eexists].
Qed.

Lemma layout_grows sf offset a s points :
  layout sf offset a s points ->
  (exists k, body sf = body s ++ k) /\
  (forall name d, label_decl s name d -> label_decl sf name d).
Proof.
  induction 1 as [| offset i n a a' s s1 s2 k' stmts points Hd Ha Hlab Hl He Htr Hlay [[k Hk] IH]].
  - split; [exists []; by rewrite app_nil_r | done].
  - destruct (labelled_grows _ _ _ Hlab) as [lab He1].
    split.
    + exists (lab ++ stmts ++ k). rewrite Hk.
      rewrite (emits_body _ _ _ _ _ _ _ _ _ He), (emits_body _ _ _ _ _ _ _ _ _ He1).
      by rewrite !app_assoc.
    + intros name d Hnd. apply IH, (emits_labels _ _ _ _ _ _ _ _ _ He),
        (emits_labels _ _ _ _ _ _ _ _ _ He1), Hnd.
Qed.

(** ** Labels are where they should be *)

Definition labels_before (o : Z) (s : cil_state) : Prop :=
  forall t d, t ∈ body s -> label_stmt t = Some d ->
    exists o', 0 <= o' < o /\ label_decl s (label_string o') d.

Lemma translates_no_label label s' i k k' stmts :
  translates D label s' i k k' stmts ->
  Forall (fun t => TREE_TYPE t = Some int32_type_node) k ->
  Forall (fun t => label_stmt t = None) stmts.
Proof.
  intros Htr Hk. destruct Htr; repeat constructor.
  destruct (TREE_SIDE_EFFECTS t); [| constructor]. constructor; [| constructor].
  inversion Hk as [| ? ? Ht]; subst. destruct (label_stmt t) as [d |] eqn:E; [| done].
  exfalso. destruct t as [| | | | c ty ? a | | | | | |]; try done. destruct c; try done.
  destruct ty as [[]|]; try done. cbn in Ht. pose proof int32_code as Hc.
  injection Ht as Ht. by rewrite <- Ht in Hc.
Qed.

Lemma labels_before_next o o' s s1 s2 k' stmts :
  0 <= o < o' -> labels_before o s -> labelled o s s1 -> emits s1 s2 k' stmts ->
  Forall (fun t => label_stmt t = None) stmts -> labels_before o' s2.
Proof.
  intros Ho Hs Hlab He Hn t d Ht Hd.
  rewrite (emits_body _ _ _ _ _ _ _ _ _ He) in Ht.
  apply elem_of_app in Ht as [Ht | Ht];
    [| rewrite Forall_forall in Hn; by rewrite (Hn t Ht) in Hd].
  assert (exists o1, 0 <= o1 <= o /\ label_decl s1 (label_string o1) d) as (o1 & Ho1 & Hl).
  { destruct Hlab as [[_ He1] | (_ & u & du & Hu & He1 & Hdu)];
      rewrite (emits_body _ _ _ _ _ _ _ _ _ He1) in Ht; apply elem_of_app in Ht as [Ht | Ht].
    1, 3: destruct (Hs t d Ht Hd) as (o1 & Ho1 & Hl); exists o1;
      (split; [lia |]); by apply (emits_labels _ _ _ _ _ _ _ _ _ He1).
    - by apply elem_of_nil in Ht.
    - apply list_elem_of_singleton in Ht as ->. exists o. split; [lia | congruence]. }
  exists o1. split; [lia |]. by apply (emits_labels _ _ _ _ _ _ _ _ _ He).
Qed.

Lemma find_label_skip l b k :
  (forall t d, t ∈ b -> label_stmt t = Some d -> DECL_UID d <> l) ->
  find_label l (b ++ k) = find_label l k.
Proof.
  induction b as [| t b IH]; intros Hb; [done |]. cbn [app]. rewrite find_label_cons.
  destruct (label_stmt t) as [d |] eqn:E.
  - rewrite bool_decide_eq_false_2 by (apply (Hb t); [set_solver | done]).
    apply IH. intros u du Hu. apply Hb. set_solver.
  - apply IH. intros u du Hu. apply Hb. set_solver.
Qed.

(** ** The machine at an instruction, the function after its label *)

Inductive at_point (sf : cil_state) (points : list (Z * astack)) (pc : Z) (a : astack)
    (items k : list tree) : Prop :=
| at_point_intro i n a' s1 s2 k' stmts rest :
    0 <= pc ->
    decode (code_at pc) = Some (i, n) -> abstract_step nargs nlocals i a = Some a' ->
    top_item s1 = items -> emits s1 s2 k' stmts ->
    translates D (label_of i (pc + n)) s2 i items k' stmts ->
    layout sf (pc + n) a' s2 rest -> (forall p, p ∈ rest -> p ∈ points) ->
    labels_before (pc + n) s2 ->
    body sf = body s1 ++ k ->
    at_point sf points pc a items k.

Lemma code_at_small pc : code_at pc <> [] -> 0 <= pc -> pc < 2 ^ 31.
Proof.
  intros Hne Hpc. destruct (Z.lt_ge_cases pc (Z.of_nat (length code0))); [lia |].
  exfalso. apply Hne. unfold code_at. apply drop_ge. lia.
Qed.

(** Entering an instruction: its label is passed. *)
Lemma layout_enter sf pc a s p rest points rho :
  layout sf pc a s (p :: rest) -> labels_before pc s -> 0 <= pc ->
  (forall q, q ∈ rest -> q ∈ points) ->
  p = (pc, a) /\ exists kb k, body sf = body s ++ kb /\
    rtc (tstep wrapv (body sf)) (Running rho kb) (Running rho k) /\
    at_point sf points pc a (top_item s) k /\
    (a = [] -> exists d, label_decl sf (label_string pc) d /\
       find_label (DECL_UID d) (body sf) = Some k).
Proof.
  intros Hlay Hb Hpc Hsub. inversion Hlay as
    [| ? i n ? a' ? s1 s2 k' stmts ? Hd Ha Hlab Hl He Htr Hlay']; subst.
  split; [done |]. pose proof (decode_size _ _ _ Hd) as Hn.
  assert (top_item s1 = top_item s) as Hk1.
  { destruct Hlab as [[_ He1] | (Hk & t & d & _ & He1 & _)];
      rewrite (emits_stack _ _ _ _ _ _ _ _ _ He1); by rewrite ?Hk. }
  assert (compiling s1) as Hs1.
  { destruct Hlab as [[_ He1] | (Hk & t & d & _ & He1 & _)];
      by apply (emits_compiling _ _ _ _ _ _ _ _ _ He1). }
  pose proof (translates_no_label _ _ _ _ _ _ Htr
    (compiling_items _ _ _ _ _ _ Hs1)) as Hnl.
  destruct (layout_grows _ _ _ _ _ Hlay') as [[k2 Hk2] Hmono].
  assert (body sf = body s1 ++ stmts ++ k2) as Hbody.
  { by rewrite Hk2, (emits_body _ _ _ _ _ _ _ _ _ He), app_assoc. }
  assert (at_point sf points pc a (top_item s) (stmts ++ k2)) as Hat.
  { eapply at_point_intro; try done; [by rewrite <- Hk1 |].
    eapply labels_before_next; [| done | done | done | done]. lia. }
  destruct Hlab as [[Hne He1] | (Hk & t & d & Ht & He1 & Hld)].
  - exists (stmts ++ k2), (stmts ++ k2). split_and!; [| done | done |].
    + rewrite Hbody. by rewrite (emits_body _ _ _ _ _ _ _ _ _ He1), app_nil_r.
    + intros ->. by destruct (top_item s).
  - exists (t :: stmts ++ k2), (stmts ++ k2). split_and!; [| | done |].
    + rewrite Hbody. by rewrite (emits_body _ _ _ _ _ _ _ _ _ He1), <- app_assoc.
    + apply one_step. cbn [step].
      destruct t as [| | | | c ty ? u | | | | | |]; try done. destruct c; try done.
      destruct ty as [[]|]; try done. by destruct u.
    + intros ->. exists d. split; [apply Hmono, (emits_labels _ _ _ _ _ _ _ _ _ He), Hld |].
      rewrite Hbody, (emits_body _ _ _ _ _ _ _ _ _ He1), <- app_assoc. cbn [app].
      rewrite find_label_skip.
      * rewrite find_label_cons, Ht. by rewrite bool_decide_eq_true_2.
      * intros u du Hu Hdu E. destruct (Hb u du Hu Hdu) as (o' & Ho' & Hlo).
        apply (emits_labels _ _ _ _ _ _ _ _ _ He1) in Hlo.
        destruct (compiling_labels _ _ _ _ _ _ Hs1) as [_ Hinj].
        pose proof (code_at_small pc ltac:(intros E'; rewrite E' in Hn; cbn in Hn; lia) Hpc).
        pose proof (Hinj _ _ _ _ Hlo Hld E) as Hname.
        apply label_string_inj in Hname; zlia.
Qed.

(** The state at any point. *)
Lemma layout_point sf o a s points pc ap :
  layout sf o a s points -> labels_before o s -> 0 <= o -> (pc, ap) ∈ points ->
  exists s' rest, layout sf pc ap s' ((pc, ap) :: rest) /\ labels_before pc s' /\ 0 <= pc /\
    (forall q, q ∈ rest -> q ∈ points).
Proof.
  induction 1 as [| offset i n a a' s s1 s2 k' stmts points Hd Ha Hlab Hl He Htr Hlay IH];
    intros Hb Ho Hin; [by apply elem_of_nil in Hin |].
  apply elem_of_cons in Hin as [[= -> ->] | Hin].
  - exists s, points. split_and!; [by eapply layout_instr | done | done | set_solver].
  - pose proof (decode_size _ _ _ Hd) as Hn.
    destruct IH as (s' & rest & Hl' & Hb' & Hpc & Hsub); [| lia | done |].
    + assert (compiling s1) as Hs1.
      { destruct (labelled_grows _ _ _ Hlab) as [lab He1].
        apply (emits_compiling _ _ _ _ _ _ _ _ _ He1). }
      eapply labels_before_next; [| done | done | done |]; [lia |].
      eapply translates_no_label; [done | apply (compiling_items _ _ _ _ _ _ Hs1)].
    + exists s', rest. split_and!; [done | done | done |]. intros q Hq.
      apply elem_of_cons. right. by apply Hsub.
Qed.

(** ** Simulation *)

Context (back : bool) (points : list (Z * astack)).

(** Every branch goes to a point with an empty stack. *)
Definition targets_at_points : Prop :=
  forall o a i n d, (o, a) ∈ points -> decode (code_at o) = Some (i, n) ->
    displacement i = Some d -> (o + n + d, []) ∈ points.

Lemma simulate sf s0 (Hlay : layout sf 0 [] s0 points) (Hb0 : labels_before 0 s0)
    (Ht : targets_at_points) fuel :
  forall pc a items st vs rho k v,
    at_point sf points pc a items k -> (pc, a) ∈ points ->
    env_rel rho st -> tracked st a items vs ->
    cil_run wrapv fuel code0 (At pc st vs) = Some v ->
    rtc (tstep wrapv (body sf)) (Running rho k) (Returned v).
Proof.
  induction fuel as [| fuel IH]; intros pc a items st vs rho k v Hat Hin He Hk Hrun; [done |].
  destruct Hat as [i n a' s1 s2 k' stmts rest Hpc Hd Ha <- Hem Htr Hlay' Hsub Hlb Hbody].
  cbn [cil_run] in Hrun.
  destruct (cil_step wrapv code0 (At pc st vs)) as [m |] eqn:Hstep; [| done].
  cbn [mbind option_bind] in Hrun. cbn [cil_step] in Hstep.
  destruct (in_range _ _ pc); [| done]. fold (code_at pc) in Hstep. rewrite Hd in Hstep.
  cbn [mbind option_bind] in Hstep.
  destruct (layout_grows _ _ _ _ _ Hlay') as [[k2 Hk2] Hmono].
  assert (k = stmts ++ k2) as ->.
  { rewrite (emits_body _ _ _ _ _ _ _ _ _ Hem), Hbody in Hk2. rewrite <- app_assoc in Hk2.
    by apply app_inv_head in Hk2. }
  (* the targets of this instruction *)
  assert (forall disp d, displacement i = Some disp ->
    label_decl s2 (label_of i (pc + n)) d ->
    exists l, find_label (DECL_UID d) (body sf) = Some l /\
      at_point sf points (pc + n + disp) [] [] l /\ (pc + n + disp, []) ∈ points) as Htgt.
  { intros disp d Hdisp Hd'. pose proof (Ht pc a i n disp Hin Hd Hdisp) as Htin.
    destruct (layout_point _ _ _ _ _ _ _ Hlay Hb0 ltac:(done) Htin)
      as (s' & rest' & Hl' & Hb' & Hpc' & Hsub').
    destruct (layout_enter _ _ _ _ _ _ points rho Hl' Hb' Hpc' Hsub')
      as (_ & kb & l & Hbl & _ & Hat & Hlab).
    destruct (Hlab eq_refl) as (d' & Hld & Hf). exists l.
    assert (d' = d) as <-.
    { apply Hmono in Hd'. unfold label_of in Hd'. rewrite Hdisp in Hd'.
      change (default 0 (Some disp)) with disp in Hd'.
      unfold label_decl in *. congruence. }
    split_and!; [done | | done].
    inversion Hl' as [| ? ? ? ? ? ? ? ? ? ? ? ? ? ? Hlen]; subst.
    cbn [length] in Hlen. apply nil_length_inv in Hlen. by rewrite Hlen in Hat. }
  destruct (translation_correct i (label_of i (pc + n)) s2 a a' (top_item s1) k' stmts
    (body sf) k2 rho st vs (pc + n) m Htr Ha He Hk Hstep) as (c & Hc & Hland).
  { intros d Hdisp Hd'. destruct (displacement i) as [disp |]; [| done].
    destruct (Htgt disp d eq_refl Hd') as (l & Hl & _). by exists l. }
  etrans; [exact Hc |].
  destruct Hland as [rho' st' vs' He' Hk' | rho' st' d disp l He' Hdisp Hd' Hl | v'].
  - (* the next instruction *)
    destruct rest as [| p rest].
    { exfalso. inversion Hlay' as [? ? Hend |]; subst.
      destruct fuel as [| fuel]; [done |]. cbn [cil_run cil_step] in Hrun.
      fold (code_at (pc + n)) in Hrun. rewrite Hend in Hrun.
      by destruct (in_range _ _ _). }
    pose proof (decode_size _ _ _ Hd) as Hn.
    destruct (layout_enter _ _ _ _ _ _ points rho' Hlay' Hlb ltac:(lia))
      as (-> & kb & l & Hbl & Hpass & Hat & _).
    { intros q Hq. apply Hsub, elem_of_cons. by right. }
    assert (kb = k2) as -> by (rewrite Hk2 in Hbl; by apply app_inv_head in Hbl).
    etrans; [exact Hpass |].
    rewrite (emits_stack _ _ _ _ _ _ _ _ _ Hem) in Hat.
    eapply IH; [exact Hat | apply Hsub, elem_of_cons; by left | done | done | exact Hrun].
  - (* a branch *)
    destruct (Htgt disp d Hdisp Hd') as (l' & Hl' & Hat & Hin'). simplify_eq.
    eapply IH; [exact Hat | done | done | constructor | exact Hrun].
  - (* the end *)
    destruct fuel; cbn in Hrun; by simplify_eq.
Qed.
End correct.

Section theorem.
Context `{Host, Target, MiddleEnd, Metadata} (wrapv : bool) `{!MiddleEndCorrect wrapv}.
Context (nargs nlocals : nat) (D : var -> decl) (fd result : decl).

Lemma scan_range fuel : forall code o a points p,
  scan nargs nlocals fuel code o a = Some points -> p ∈ points ->
  o <= p.1 < o + Z.of_nat (length code).
Proof.
  induction fuel as [| fuel IH]; intros code o a points p Hs Hp;
    (destruct code as [| b code]; [injection Hs as <-; by apply elem_of_nil in Hp |]); [done |].
  cbn [scan] in Hs. set (c := b :: code) in *.
  destruct (decode c) as [[i n] |] eqn:Hd; [| done]. cbn [mbind option_bind] in Hs.
  destruct (abstract_step nargs nlocals i a) as [a' |]; [| done]. cbn [mbind option_bind] in Hs.
  destruct (scan _ _ _ _ _ a') as [rest |] eqn:Hr; [| done]. injection Hs as <-.
  apply decode_size in Hd. apply elem_of_cons in Hp as [-> | Hp]; cbn [fst]; [lia |].
  pose proof (IH _ _ _ _ _ Hr Hp) as Hi. rewrite length_drop in Hi. lia.
Qed.

Lemma branches_ok_spec back code points o a i n d :
  branches_ok back code points = true -> (o, a) ∈ points ->
  decode (drop (Z.to_nat o) code) = Some (i, n) -> displacement i = Some d ->
  (back = true \/ n = 2 \/ 0 <= d) /\ (o + n + d, []) ∈ points.
Proof.
  intros Hb Hin Hd Hdisp. unfold branches_ok in Hb. rewrite forallb_forall in Hb.
  specialize (Hb (o, a) (proj1 (list_elem_of_In _ _) Hin)). cbn beta iota in Hb.
  rewrite Hd, Hdisp in Hb. apply andb_true_iff in Hb as [Hb Hp].
  apply bool_decide_eq_true in Hp. split; [| done].
  apply orb_true_iff in Hb as [Hb | Hb]; [apply orb_true_iff in Hb as [Hb | Hb] |];
    [by left | right; left; lia | right; right; lia].
Qed.

(** C1: a verified method body of integer instructions, loops and branches
    included, is always compiled, and the statements that the compiler emits
    return what the machine of the standard returns on it, for all values of
    the arguments and variables (under [-fwrapv]; without it, wherever no
    [int32] overflows).  [verify] asks for what the compiler does not check: no
    assignment to a variable that an item of the stack still depends on, and
    an empty stack at branches and at their targets. *)
Theorem compile_int32_correct code s :
  char_signed = true -> Forall is_byte code -> Z.of_nat (length code) < 2 ^ 31 ->
  (forall x y, declared nargs nlocals x = true -> declared nargs nlocals y = true ->
     DECL_UID (D x) = DECL_UID (D y) -> x = y) ->
  compiling nargs nlocals D fd result s ->
  top_item s = [] -> current_function_body s = [] ->
  verify nargs nlocals (long_bits =? 32) code = true ->
  exists s', parse_instructions code s = Done tt s' /\
    forall st rho fuel v,
      env_rel nargs nlocals D rho st ->
      cil_run wrapv fuel code (At 0 st []) = Some v ->
      exists fuel', run_body wrapv fuel' (current_function_body s') rho = Some v.
Proof.
  intros Hc Hb Hlen Hinj Hs Hk Hbody Hv. unfold verify in Hv.
  destruct (scan nargs nlocals (length code) code 0 []) as [points |] eqn:Hscan; [| done].
  assert (forall o a i n d, (o, a) ∈ points -> decode (code_at code o) = Some (i, n) ->
    displacement i = Some d -> (o + n + d, []) ∈ points) as Htgt.
  { intros o a i n d Hin Hd Hdisp. by eapply branches_ok_spec. }
  destruct (compile_layout nargs nlocals D fd result code Hb (length code) 0 [] points s)
    as (sf & Hparse & Hlay); try done; try (unfold code_at; cbn; lia).
  { apply Forall_forall. intros [o a] Hin i n Hd. cbn [fst] in *. split.
    - intros d Hdisp. pose proof (Htgt o a i n d Hin Hd Hdisp) as Hin'.
      apply (scan_range _ _ _ _ _ _ Hscan) in Hin'. cbn [fst] in Hin'. lia.
    - intros d Hdisp. destruct (branches_ok_spec _ _ _ _ _ _ _ _ Hv Hin Hd Hdisp) as [Hbk _].
      destruct Hbk as [Hbk | ?]; [left; lia | by right]. }
  { by rewrite Hk. }
  exists sf. split; [exact Hparse |]. intros st rho fuel v He Hrun.
  assert (labels_before 0 s) as Hlb by (intros t d Ht; rewrite Hbody in Ht; by apply elem_of_nil in Ht).
  destruct points as [| p points].
  { exfalso. inversion Hlay as [? ? Hend |]; subst. assert (code = []) as E by exact Hend. rewrite E in Hrun.
    by destruct fuel. }
  destruct (layout_enter wrapv nargs nlocals D fd result Hinj code Hb Hlen sf 0 [] s p points
    (p :: points) rho Hlay Hlb ltac:(done) ltac:(set_solver)) as (-> & kb & l & Hkb & Hpass & Hat & _).
  rewrite Hk in Hat. rewrite Hbody in Hkb. cbn [app] in Hkb. subst kb.
  assert (rtc (tstep wrapv (current_function_body sf)) (Running rho l) (Returned v)) as Hrtc.
  { eapply (simulate wrapv nargs nlocals D fd result Hinj code Hb Hlen ((0, []) :: points) sf s
      Hlay Hlb Htgt fuel 0 [] [] st [] rho l v Hat); [by left | done | constructor | exact Hrun]. }
  destruct (run_steps wrapv (current_function_body sf) (Running rho (current_function_body sf))
    (Returned v) ltac:(by etrans) 0 v eq_refl) as [fuel' Hf].
  by exists fuel'.
Qed.
End theorem.

(** ** A loop compiled and run *)

Section witness.
#[local] Existing Instances ILP32 i386 plain_middle_end sample_program sample_types sample_image.

(** The variables, the function and the result of [sample]. *)
Definition sample_var (x : var) : decl :=
  match var_entry sample x with
  | Some (DECL d) => d
  | _ => mkDecl VAR_DECL 0 None None false
  end.
Definition sample_function : decl :=
  default (sample_var (Local 0)) (current_function_decl sample).
Definition sample_result : decl :=
  match DECL_RESULT (attrs_of sample (DECL_UID sample_function)) with
  | DECL d => d
  | _ => sample_function
  end.

(** [x = 0; while (a != 0) { x = x + b; a = a - 1; } return x;] *)
Definition sample_loop : list Z :=
  [0x16; 0x0A; 0x02; 0x2C; 0x0B; 0x06; 0x03; 0x58; 0x0A; 0x02; 0x17; 0x59; 0x10; 0x00;
   0x2B; 0xF2; 0x06; 0x2A].

Definition sample_env (a b : Z) : env :=
  <[DECL_UID (sample_var (Arg 0)) := a]> (<[DECL_UID (sample_var (Arg 1)) := b]>
    (<[DECL_UID (sample_var (Local 0)) := 0]> (<[DECL_UID (sample_var (Local 1)) := 0]> ∅))).

Lemma sample_vars x :
  declared 2 2 x = true -> x = Arg 0 \/ x = Arg 1 \/ x = Local 0 \/ x = Local 1.
Proof. destruct x as [[| [|]] | [| [|]]]; cbn; naive_solver. Qed.

Lemma sample_labels : LABEL_DECL_of sample = ∅.
Proof. vm_compute. reflexivity. Qed.

Lemma sample_compiling : compiling 2 2 sample_var sample_function sample_result sample.
Proof.
  split.
  - intros x Hx. destruct (sample_vars x Hx) as [-> | [-> | [-> | ->]]]; vm_compute; reflexivity.
  - intros x Hx. destruct (sample_vars x Hx) as [-> | [-> | [-> | ->]]]; vm_compute; reflexivity.
  - vm_compute. reflexivity.
  - vm_compute. constructor.
  - split.
    + intros n t Hn. rewrite sample_labels, lookup_empty in Hn. discriminate Hn.
    + intros n1 n2 d1 d2 Hn. rewrite sample_labels, lookup_empty in Hn. discriminate Hn.
  - split; [vm_compute; reflexivity |]. split; [| split; vm_compute; reflexivity].
    eexists. vm_compute. reflexivity.
Qed.

Lemma sample_distinct x y :
  declared 2 2 x = true -> declared 2 2 y = true ->
  DECL_UID (sample_var x) = DECL_UID (sample_var y) -> x = y.
Proof.
  intros Hx Hy. destruct (sample_vars x Hx) as [-> | [-> | [-> | ->]]],
    (sample_vars y Hy) as [-> | [-> | [-> | ->]]]; vm_compute; done.
Qed.

(** 3 * 14, by the loop. *)
Lemma compile_int32_correct_witness :
  match sample_parse sample_loop with
  | Done _ s' => exists fuel,
      run_body true fuel (current_function_body s') (sample_env 3 14) = Some (Some 42)
  | Failed _ => False
  end.
Proof.
  destruct (compile_int32_correct true 2 2 sample_var sample_function sample_result
    sample_loop sample) as (s' & Hs' & Hrun).
  - reflexivity.
  - repeat constructor; unfold is_byte; lia.
  - cbn. lia.
  - exact sample_distinct.
  - exact sample_compiling.
  - vm_compute. reflexivity.
  - vm_compute. reflexivity.
  - vm_compute. reflexivity.
  - unfold sample_parse. rewrite Hs'. apply (Hrun (mkStore [3; 14] [0; 0]) _ 100%nat).
    + intros x v Hx. destruct (sample_vars x Hx) as [-> | [-> | [-> | ->]]]; intros Hv;
        vm_compute in Hv; first [discriminate Hv | vm_compute; exact Hv].
    + vm_compute. reflexivity.
Defined.
End witness.
