(* ===== verification/StackTypes.v ===== *)
(** * StackTypes: what the evaluation stack promises

    The operations of EvalStack against a specification: the type that an item
    has once it is pushed, and the last-in first-out order. *)
From S2P Require Import Prelude Values Opcodes Trees CilState CilDecl EvalStack Records.
From S2P Require Import Program SampleProgram Frame Metadata Calls Statements StaticData.
From S2P Require Import Instr ParseInstr Assembly Reading Sample.
From S2P Require Import Effects.

Section stack.
Context `{Target, MiddleEnd}.

(** The type of an item of type [ty] on the stack; [None] is not supported. *)
Definition stack_type (ty : ttype) : option ttype :=
  match ty with
  | INTEGER_TYPE k =>
      if 32 <? TYPE_PRECISION ty then Some int64_type_node
      else if (TYPE_PRECISION ty <? 32) && negb (CIL_TYPE_NATIVE ty) then Some int32_type_node
      else Some ty
  | BOOLEAN_TYPE | POINTER_TYPE _ | REAL_TYPE _ | RECORD_TYPE _ => Some ty
  | _ => None
  end.

(** [node] pushed onto [s]. *)
Definition pushed (node : tree) (s : cil_state) : cil_state :=
  set_height (height s + 1) (set_top_item (node :: top_item s) s).

Lemma convert_integer k node s ty :
  TREE_TYPE node = Some ty ->
  convert (INTEGER_TYPE k) node s
  = Done (fold (convert_to_integer (INTEGER_TYPE k) node)) s.
Proof. intros Hn. unfold convert, type_of. cbn [type_code]. by rewrite Hn. Qed.

Lemma int32_kind : exists k, int32_type_node = INTEGER_TYPE k.
Proof. unfold int32_type_node. case_match; by eexists. Qed.

(** The conversion of a pushed item, as a function. *)
Definition on_stack (node : tree) (ty : ttype) : tree :=
  match ty with
  | INTEGER_TYPE k =>
      if 32 <? TYPE_PRECISION ty then
        fold (convert_to_integer int64_type_node node)
      else if (TYPE_PRECISION ty <? 32) && negb (CIL_TYPE_NATIVE ty) then
        fold (convert_to_integer int32_type_node node)
      else node
  | _ => node
  end.

Lemma convert_to_stack_type_spec node ty s :
  TREE_TYPE node = Some ty ->
  convert_to_stack_type node s
  = match stack_type ty with
    | Some _ => Done (on_stack node ty) s
    | None => Failed (Internal_error "stack type not supported yet")
    end.
Proof.
  intros Hn. assert (is_null node = false) as Hnull by by destruct node.
  unfold convert_to_stack_type, type_of. rewrite Hnull, Hn. cbn [lift]. rewrite bind_ret.
  destruct ty; try reflexivity. cbn [type_code stack_type on_stack].
  destruct int32_kind as [k32 E32].
  destruct (Z.ltb_spec 32 (TYPE_PRECISION (INTEGER_TYPE k))) as [Hl | Hl].
  - rewrite (proj2 (Z.ltb_ge _ 32)) by lia. cbn [andb]. rewrite bind_ret.
    by apply (convert_integer _ _ _ (INTEGER_TYPE k)).
  - destruct ((TYPE_PRECISION (INTEGER_TYPE k) <? 32) && negb (CIL_TYPE_NATIVE (INTEGER_TYPE k)));
      [| reflexivity].
    rewrite E32. by rewrite (bind_done _ _ _ _ _ (convert_integer k32 _ s _ Hn)).
Qed.

Lemma on_stack_type node ty ty' :
  TREE_TYPE node = Some ty -> stack_type ty = Some ty' -> TREE_TYPE (on_stack node ty) = Some ty'.
Proof.
  intros Hn. unfold stack_type, on_stack. destruct ty; try congruence.
  repeat case_match; intros [= <-]; try done;
    by rewrite fold_type, convert_to_integer_type.
Qed.

Lemma stack_push_spec node ty s :
  TREE_TYPE node = Some ty ->
  stack_push node s
  = match stack_type ty with
    | Some _ => Done tt (pushed (on_stack node ty) s)
    | None => Failed (Internal_error "stack type not supported yet")
    end.
Proof.
  intros Hn. unfold stack_push. unfold mbind at 1, comp_bind at 1.
  rewrite (convert_to_stack_type_spec _ _ _ Hn). by destruct (stack_type ty).
Qed.

(** C29: [stack_push] puts an item on top whose type is that of the standard's
    evaluation stack: an integer of less than 32 bits becomes [int32], one of
    more than 32 bits [int64], everything else that is supported stays what it
    is, and the rest is an internal error; nothing else in the state changes. *)
Theorem stack_push_type node ty s :
  TREE_TYPE node = Some ty ->
  match stack_type ty with
  | Some ty' =>
      exists item, stack_push node s = Done tt (pushed item s) /\
        TREE_TYPE item = Some ty' /\ is_stack_type ty' /\
        (ty' = ty -> ty <> int64_type_node -> item = node)
  | None => stack_push node s = Failed (Internal_error "stack type not supported yet")
  end.
Proof.
  intros Hn. rewrite (stack_push_spec _ _ _ Hn).
  destruct (stack_type ty) as [ty' |] eqn:E; [| done].
  exists (on_stack node ty). split; [done |].
  split; [by apply (on_stack_type node ty) |]. split.
  - unfold stack_type in E. destruct ty; try done; try (injection E as <-; exact I).
    destruct (Z.ltb_spec 32 (TYPE_PRECISION (INTEGER_TYPE k))); [injection E as <-; by right; right |].
    destruct (Z.ltb_spec (TYPE_PRECISION (INTEGER_TYPE k)) 32).
    + destruct (CIL_TYPE_NATIVE (INTEGER_TYPE k)) eqn:En; cbn in E; injection E as <-.
      * left. split; [done |]. by destruct k.
      * destruct int32_kind as [k' Ek]. pose proof int32_precision as Hp. rewrite Ek in *.
        right. by left.
    + cbn in E. injection E as <-. right; left. cbn [TYPE_PRECISION] in *. lia.
  - intros -> Hne. unfold stack_type, on_stack in *. destruct ty; try done.
    repeat case_match; try done; simplify_eq.
    exfalso. pose proof int32_precision as Hp. rewrite E in Hp.
    match goal with Hb : (_ <? 32) && _ = true |- _ => apply andb_true_iff in Hb as [Hb _] end.
    lia.
Qed.

Lemma pop_pushed node s :
  0 <= height s -> stack_pop None (pushed node s) = Done node s.
Proof.
  intros Hh. unfold stack_pop, pushed, top_node, mbind, comp_bind, get, modify.
  cbn [height set_height set_top_item top_item]. rewrite (proj2 (Z.ltb_lt _ _)) by lia.
  change (Done node (set_height (height s + 1 - 1) s) = Done node s).
  replace (height s + 1 - 1) with (height s) by lia. by destruct s.
Qed.

(** The types kept as they are. *)
Definition stays (t : tree) : Prop :=
  exists ty, TREE_TYPE t = Some ty /\ stack_type ty = Some ty /\ ty <> int64_type_node.

Lemma on_stack_stays t ty :
  TREE_TYPE t = Some ty -> stack_type ty = Some ty -> ty <> int64_type_node ->
  on_stack t ty = t.
Proof.
  intros Ht Hs Hne. unfold stack_type, on_stack in *. destruct ty; try done.
  repeat case_match; try done; simplify_eq.
  exfalso. pose proof int32_precision as Hp.
  match goal with E : int32_type_node = _ |- _ => rewrite E in Hp end.
  match goal with Hb : (_ <? 32) && _ = true |- _ => apply andb_true_iff in Hb as [Hb _] end.
  lia.
Qed.

Lemma push_stays t s : stays t -> stack_push t s = Done tt (pushed t s).
Proof.
  intros (ty & Ht & Hs & Hne). by rewrite (stack_push_spec _ _ _ Ht), Hs, on_stack_stays.
Qed.

Lemma push_args_stays l : forall s,
  Forall stays l -> push_args l s = Done tt (foldl (fun s t => pushed t s) s l).
Proof.
  induction l as [| t l IH]; intros s Hl; [done |]. inversion Hl as [| ? ? Ht Hl']; subst.
  cbn [push_args foldl]. unfold mbind, comp_bind. by rewrite push_stays, IH.
Qed.

Lemma pop_args_pushed l : forall acc s,
  0 <= height s ->
  pop_args (length l) acc (foldl (fun s t => pushed t s) s l) = Done (l ++ acc) s.
Proof.
  induction l as [| t l IH] using rev_ind; intros acc s Hh; [done |].
  rewrite foldl_app, length_app, Nat.add_comm. cbn [length Nat.add foldl pop_args].
  unfold mbind, comp_bind. rewrite pop_pushed, IH; [by rewrite <- app_assoc | done |].
  clear IH acc. revert s Hh. induction l as [| u l IHl]; intros s Hh; [done |].
  cbn [foldl]. apply IHl. cbn. lia.
Qed.

(** The arguments of a call are the items pushed for it, in order: what
    [push_args] pushes, [pop_args] gives back, and the state is as before. *)
Theorem push_pop_args l s :
  Forall stays l -> 0 <= height s ->
  (push_args l;; pop_args (length l) []) s = Done l s.
Proof.
  intros Hl Hh. unfold mbind, comp_bind. rewrite push_args_stays by done.
  by rewrite pop_args_pushed, app_nil_r.
Qed.

(** Popping an empty stack gives the null tree and changes nothing; with
    items, [stack_pop] takes the top one and converts it. *)
Theorem stack_pop_spec ty s :
  (height s <= 0 -> stack_pop ty s = Done NULL_TREE s) /\
  (forall t k, 0 < height s -> top_item s = t :: k ->
     stack_pop ty s
     = convert_item ty t (set_height (height s - 1) (set_top_item k s))).
Proof.
  unfold stack_pop, top_node, mbind, comp_bind, get, modify. split.
  - intros Hh. by rewrite (proj2 (Z.ltb_ge _ _)).
  - intros t k Hh Hk. by rewrite (proj2 (Z.ltb_lt _ _)), Hk.
Qed.

(** [conv.i1] and the like on an [int32]. *)
Lemma convert_item_narrow k a s :
  TREE_TYPE a = Some int32_type_node -> TYPE_PRECISION_int k <> 32 ->
  convert_item (Some (INTEGER_TYPE k)) a s
  = Done (EXPR CONVERT_EXPR (Some (INTEGER_TYPE k)) (build1_flags s CONVERT_EXPR a) a
            NULL_TREE NULL_TREE NULL_TREE) s.
Proof.
  intros Ha Hk. unfold convert_item. rewrite Ha.
  assert (is_null a = false) as -> by by destruct a.
  rewrite bool_decide_eq_true_2.
  2: { intros [= E]. pose proof int32_precision as Hp. by rewrite <- E in Hp. }
  cbn [negb andb]. unfold type_of. rewrite Ha. cbn [lift]. rewrite bind_ret, int32_code.
  reflexivity.
Qed.

Lemma convert_top_pushed ty a s :
  0 <= height s ->
  stack_convert_top_item ty (pushed a s)
  = (node ← convert_item (Some ty) a; modify (set_top_item (node :: top_item s))) (pushed a s).
Proof.
  intros Hh. unfold stack_convert_top_item, mbind at 1, comp_bind at 1, get.
  change (height (pushed a s)) with (height s + 1).
  by rewrite (proj2 (Z.ltb_lt _ _)) by lia.
Qed.

Lemma stack_type_of_int32 : stack_type int32_type_node = Some int32_type_node.
Proof.
  pose proof int32_precision as Hp. destruct int32_kind as [k E]. rewrite E in *.
  unfold stack_type. by rewrite Hp.
Qed.

Lemma int32_stays t : TREE_TYPE t = Some int32_type_node -> stays t.
Proof.
  intros Ht. exists int32_type_node. split; [done |]. split; [apply stack_type_of_int32 |].
  intros E. pose proof int32_precision as Hp. by rewrite E in Hp.
Qed.

(** [make_arithmetic_expr] on two integer items. *)
Lemma arithmetic_pushed op ka kb a b s :
  TREE_TYPE a = Some (INTEGER_TYPE ka) -> TREE_TYPE b = Some (INTEGER_TYPE kb) ->
  0 <= height s -> TREE_CODE_LENGTH op = 2 ->
  make_arithmetic_expr op (pushed b (pushed a s))
  = stack_push (fold (build2_node op (Some (INTEGER_TYPE ka)) a b)) s.
Proof.
  intros Ha Hb Hh Hop. unfold make_arithmetic_expr, type_of.
  rewrite (bind_done _ _ _ b (pushed a s)) by (apply pop_pushed; cbn; lia).
  rewrite (bind_done _ _ _ a s) by by apply pop_pushed.
  rewrite Ha, Hb. cbn [lift]. rewrite !bind_ret. cbn [type_code].
  unfold bool_to_int32. rewrite (bool_decide_eq_false_2 (INTEGER_TYPE_ = BOOLEAN_TYPE_)) by done.
  rewrite !bind_ret. cbv beta iota.
  rewrite (bool_decide_eq_false_2 (INTEGER_TYPE_ <> INTEGER_TYPE_)) by naive_solver.
  cbn [andb]. rewrite bool_decide_eq_true_2 by done. rewrite Ha.
  unfold build2, fold_tree. rewrite Hop.
  destruct (build2_node_shape op (Some (INTEGER_TYPE ka)) a b) as [fl ->]. reflexivity.
Qed.

(** A conversion to a narrow type ([conv.i1], [conv.u1], [conv.i2],
    [conv.u2]) leaves an item whose type is not one of the evaluation stack,
    and the operation on it and another item is then made in the narrow type,
    where the standard extends the item to [int32] first. *)
Theorem narrow_conversion_kept k a b s op :
  CIL_TYPE_NATIVE (INTEGER_TYPE k) = false -> TYPE_PRECISION_int k < 32 ->
  TREE_TYPE a = Some int32_type_node -> TREE_TYPE b = Some int32_type_node ->
  0 <= height s -> TREE_CODE_LENGTH op = 2 ->
  ~ is_stack_type (INTEGER_TYPE k) /\
  exists fl, let item := EXPR CONVERT_EXPR (Some (INTEGER_TYPE k)) fl a
                           NULL_TREE NULL_TREE NULL_TREE in
    (stack_push a;; stack_convert_top_item (INTEGER_TYPE k)) s = Done tt (pushed item s) /\
    (stack_push b;; make_arithmetic_expr op) (pushed item s)
    = Done tt (pushed (on_stack (fold (build2_node op (Some (INTEGER_TYPE k)) item b))
                         (INTEGER_TYPE k)) s).
Proof.
  intros Hn Hp Ha Hb Hh Hop. split.
  { intros [[? _] | [E | [= ->]]]; [congruence | cbn in E; lia | cbn in Hp; lia]. }
  exists (build1_flags (pushed a s) CONVERT_EXPR a). cbv zeta. split.
  - rewrite (bind_done _ _ _ tt (pushed a s)) by by apply push_stays, int32_stays.
    rewrite convert_top_pushed by done.
    by rewrite (bind_done _ _ _ _ _ (convert_item_narrow k a _ Ha ltac:(lia))).
  - destruct int32_kind as [k32 E32].
    rewrite (bind_done _ _ _ tt _ (push_stays _ _ (int32_stays _ Hb))).
    rewrite (arithmetic_pushed op k k32) by (done || congruence).
    rewrite (stack_push_spec _ (INTEGER_TYPE k)) by by rewrite fold_type, TREE_TYPE_build2.
    unfold stack_type. cbn [TYPE_PRECISION].
    rewrite (proj2 (Z.ltb_ge 32 _)), (proj2 (Z.ltb_lt _ 32)) by lia.
    by rewrite Hn.
Qed.
End stack.

Section witnesses.
#[local] Existing Instances ILP32 i386 plain_middle_end sample_program sample_types sample_image.

#[local] Abbreviation one := (INTEGER_CST (@int32_type_node i386) 1).
#[local] Abbreviation two := (INTEGER_CST (@int32_type_node i386) 2).

(** A [short] becomes an [int32]. *)
Lemma stack_push_type_witness :
  exists item, stack_push (INTEGER_CST int16_type_node 5) sample = Done tt (pushed item sample) /\
    TREE_TYPE item = Some int32_type_node.
Proof.
  destruct (stack_push_type (INTEGER_CST int16_type_node 5) int16_type_node sample eq_refl)
    as (item & Hp & Ht & _). exists item. split; [exact Hp | exact Ht].
Defined.

Lemma push_pop_args_witness :
  (push_args [one; two];; pop_args (length [one; two]) []) sample = Done [one; two] sample.
Proof.
  apply (push_pop_args [one; two] sample); [| vm_compute; discriminate].
  repeat constructor; exists int32_type_node; (split; [reflexivity |]);
    (split; [reflexivity | discriminate]).
Defined.

Lemma narrow_conversion_kept_witness :
  exists fl, (stack_push one;; stack_convert_top_item uint8_type_node) sample
    = Done tt (pushed (EXPR CONVERT_EXPR (Some uint8_type_node) fl one
                         NULL_TREE NULL_TREE NULL_TREE) sample).
Proof.
  destruct (narrow_conversion_kept unsigned_char_type one two sample PLUS_EXPR)
    as (_ & fl & Hc & _); [reflexivity .. | vm_compute; discriminate | reflexivity |].
  exists fl. exact Hc.
Defined.

Lemma stack_pop_spec_witness :
  stack_pop None sample_two
  = Done (INTEGER_CST integer_type_node 2)
      (set_height (height sample_two - 1)
        (set_top_item [INTEGER_CST integer_type_node 1] sample_two)) /\
  stack_pop None sample = Done NULL_TREE sample.
Proof.
  split.
  - refine (proj2 (stack_pop_spec None sample_two) _ _ _ _); vm_compute; reflexivity.
  - refine (proj1 (stack_pop_spec None sample) _). vm_compute. discriminate.
Defined.
End witnesses.
