(* ===== verification/Functions.v ===== *)
(** * Functions: labels belong to one function

    The labels and the tables of a function, from the first use of a label to
    [compile_function], which hands the function over and forgets it. *)
From S2P Require Import Prelude Values Opcodes Trees CilState CilDecl EvalStack Records.
From S2P Require Import Program SampleProgram Frame Metadata Calls Statements StaticData.
From S2P Require Import Instr ParseInstr Assembly Reading Sample.
From S2P Require Import Effects StackEffect.

Section labels.
Context `{Target, MiddleEnd, Metadata}.

(** The labels known by name are labels of the current function, nodes made
    before, and distinct. *)
Record function_labels (s : cil_state) : Prop := {
  labels_local name :
    lookup_tree (LABEL_DECL_of s) name <> NULL_TREE -> name ∈ local_labels s;
  labels_old name d :
    lookup_tree (LABEL_DECL_of s) name = DECL d -> (DECL_UID d < next_uid s)%N;
  labels_distinct name name' d :
    lookup_tree (LABEL_DECL_of s) name = DECL d ->
    lookup_tree (LABEL_DECL_of s) name' = DECL d -> name = name'
}.

Lemma lookup_tree_insert m name t name' :
  lookup_tree (<[name := t]> m) name' = if decide (name' = name) then t else lookup_tree m name'.
Proof.
  unfold lookup_tree. destruct (decide (name' = name)) as [-> |].
  - by rewrite lookup_insert_eq.
  - by rewrite lookup_insert_ne.
Qed.

(** The declaration of a new label. *)
Definition new_label (name : string) (s : cil_state) : decl :=
  mkDecl LABEL_DECL (next_uid s) (Some name) (Some void_type_node) false.

(** A name has a label already, or a new one is declared. *)
Lemma lookup_label_cases name s t s' :
  lookup_label name s = Done t s' ->
  exists a d, t = DECL d /\
    ((lookup_tree (LABEL_DECL_of s) name = DECL d /\ s' = set_attrs a s) \/
     (lookup_tree (LABEL_DECL_of s) name = NULL_TREE /\ d = new_label name s /\
      s' = set_local_labels (name :: local_labels s)
        (set_LABEL_DECL_of (<[name := DECL d]> (LABEL_DECL_of s))
          (set_attrs a (set_next_uid (next_uid s + 1)%N s))))).
Proof.
  intros Hl.
  destruct (lookup_tree (LABEL_DECL_of s) name) as [| | | d | | | | | | |] eqn:Hn;
    unfold lookup_label, mbind at 1, comp_bind at 1, get in Hl; rewrite Hn in Hl;
    try discriminate; injection Hl as <- <-; eexists _, _; (split; [reflexivity |]).
  - by right.
  - by left.
Qed.

Lemma lookup_label_known name d s :
  lookup_tree (LABEL_DECL_of s) name = DECL d ->
  exists s', lookup_label name s = Done (DECL d) s'.
Proof.
  intros Hn. eexists. unfold lookup_label, mbind at 1, comp_bind at 1, get. rewrite Hn.
  reflexivity.
Qed.

(** The labels after a lookup. *)
Lemma lookup_label_after name s t s' :
  lookup_label name s = Done t s' ->
  lookup_tree (LABEL_DECL_of s') name = t /\
  (forall n d, lookup_tree (LABEL_DECL_of s) n = DECL d ->
     lookup_tree (LABEL_DECL_of s') n = DECL d).
Proof.
  intros (a & d & -> & [[Hn ->] | (Hn & -> & ->)])%lookup_label_cases; cbn; [done |].
  split; [by rewrite lookup_tree_insert, decide_True |].
  intros n e He. rewrite lookup_tree_insert. destruct (decide (n = name)); congruence.
Qed.

Lemma lookup_label_labels name s t s' :
  function_labels s -> lookup_label name s = Done t s' -> function_labels s'.
Proof.
  intros [Hloc Hold Hd] (a & d & -> & [[Hn ->] | (Hn & -> & ->)])%lookup_label_cases;
    [by split |].
  split; cbn; setoid_rewrite lookup_tree_insert.
  - intros n. destruct (decide (n = name)) as [-> |]; [by left |]. right. by apply Hloc.
  - intros n e. destruct (decide (n = name)); [intros [= <-]; cbn; lia |].
    intros He. apply Hold in He. lia.
  - intros n n' e. destruct (decide (n = name)), (decide (n' = name)); try congruence.
    + intros [= <-] He%Hold. cbn in He. lia.
    + intros He%Hold [= <-]. cbn in He. lia.
    + apply Hd.
Qed.

(** A label is declared at its first use, whether that is a branch or the
    instruction it stands for, and is the same node at every later use in the
    function, and no other name gives that node; it is recorded among the
    labels of the function, and these facts are kept. *)
Theorem lookup_label_unique name s t s' :
  function_labels s -> lookup_label name s = Done t s' ->
  function_labels s' /\ name ∈ local_labels s' /\
  (exists s'', lookup_label name s' = Done t s'') /\
  (forall name' s'', lookup_label name' s' = Done t s'' -> name' = name).
Proof.
  intros Hs Hl. pose proof (lookup_label_labels _ _ _ _ Hs Hl) as Hs'.
  pose proof Hl as (a & d & -> & _)%lookup_label_cases.
  destruct (lookup_label_after _ _ _ _ Hl) as [Hn _].
  split; [done |]. split; [by apply (labels_local _ Hs'); rewrite Hn |].
  split; [by apply lookup_label_known |].
  intros name' s'' Hl'. destruct (lookup_label_after _ _ _ _ Hl') as [Hn' Hkeep].
  eapply (labels_distinct _ (lookup_label_labels _ _ _ _ Hs' Hl')); [done |].
  by apply Hkeep.
Qed.

(** ** The end of a function *)

(** What the loops of [compile_function] that clear the variables leave as it
    is. *)
Record clears (s s' : cil_state) : Prop := {
  clears_stack : top_item s' = top_item s;
  clears_height : height s' = height s;
  clears_labels : LABEL_DECL_of s' = LABEL_DECL_of s;
  clears_local_labels : local_labels s' = local_labels s;
  clears_function : current_function_decl s' = current_function_decl s;
  clears_locals : current_function_locals s' = current_function_locals s;
  clears_body : current_function_body s' = current_function_body s;
  clears_attrs : attrs s' = attrs s;
  clears_compiled : compiled s' = compiled s;
  clears_num : num_of_local_vars s' = num_of_local_vars s;
  (** A name without a declaration stays without. *)
  clears_names n : lookup_tree (IDENTIFIER_DECL s) n = NULL_TREE ->
    lookup_tree (IDENTIFIER_DECL s') n = NULL_TREE
}.

#[local] Instance clears_preorder : PreOrder clears.
Proof.
  split; [by split |]. intros s1 s2 s3 [] []. split; try congruence. auto.
Qed.

(** An array of the state, [b] being another. *)
Record array_field (a : cil_state -> list tree) (set_a : list tree -> cil_state -> cil_state)
    (b : cil_state -> list tree) : Prop := {
  array_clears l s : clears s (set_a l s);
  array_set l s : a (set_a l s) = l;
  array_other l s : b (set_a l s) = b s;
  array_names m s : a (set_IDENTIFIER_DECL m s) = a s /\ b (set_IDENTIFIER_DECL m s) = b s
}.

Lemma local_vars_field : array_field local_vars set_local_vars formal_params.
Proof. by split. Qed.
Lemma formal_params_field : array_field formal_params set_formal_params local_vars.
Proof. by split. Qed.

(** The declaration [t] is not found by its name. *)
Definition forgotten (t : option tree) (s : cil_state) : Prop :=
  forall d n, t = Some (DECL d) -> DECL_NAME d = Some n ->
    lookup_tree (IDENTIFIER_DECL s) n = NULL_TREE.

Lemma forget_clears what a set_a b i s :
  array_field a set_a b -> 0 <= i ->
  wp any (forget what a set_a i) (fun _ s' => clears s s' /\ b s' = b s /\
    forgotten (a s !! Z.to_nat i) s' /\ a s' = <[Z.to_nat i := NULL_TREE]> (a s)) s.
Proof.
  intros [Hset Hget Hoth Hids] Hi. unfold forget. apply wp_bind, wp_get, wp_bind.
  unfold array_get. rewrite (proj2 (Z.leb_le 0 i)) by done.
  destruct (a s !! Z.to_nat i) as [d |] eqn:Ed; [| exact I].
  apply wp_ret, wp_bind. unfold name_of. destruct d as [| | | d | | | | | | |]; try exact I.
  destruct (DECL_NAME d) as [n |] eqn:En; [| exact I].
  apply wp_ret, wp_bind, wp_modify, wp_bind. unfold array_put.
  destruct ((0 <=? _) && _) eqn:Eb; [| exact I]. apply wp_ret, wp_modify.
  set (s1 := set_IDENTIFIER_DECL _ s).
  assert (clears s s1) as Hs1.
  { split; try done. intros m Hm. cbn. rewrite lookup_tree_insert.
    by destruct (decide (m = n)). }
  split; [by etrans |]. split; [rewrite Hoth; apply Hids |]. split; [| by rewrite Hget].
  intros d' n' [= <-] Hn'. assert (n' = n) as -> by congruence.
  apply (clears_names _ _ (Hset _ _)). cbn. by rewrite lookup_tree_insert, decide_True.
Qed.

Lemma forget_all what a set_a b n s :
  array_field a set_a b ->
  wp any (for_loop n 0 (fun i _ => forget what a set_a i) tt) (fun _ s' =>
    clears s s' /\ b s' = b s /\ forall j, (j < n)%nat -> forgotten (a s !! j) s') s.
Proof.
  intros Hf.
  eapply wp_mono; [| apply (wp_for_loop _ n 0 _ tt (fun i _ s' =>
    clears s s' /\ b s' = b s /\
    (forall j, Z.of_nat j < i -> forgotten (a s !! j) s') /\
    (forall j, i <= Z.of_nat j -> a s' !! j = a s !! j)))].
  - intros _ s' (Hc & Hb & Hj & _). split_and!; [done | done |]. intros j Hj'. apply Hj. lia.
  - intros i _ s1 Hi (Hc & Hb & Hj & Hrest).
    eapply wp_mono; [| by apply forget_clears; [| lia]].
    intros _ s2 (Hc' & Hb' & Hi' & Ha). cbv beta. split_and!; [by etrans | congruence | |].
    + intros j Hlt d m Hd Hm. destruct (decide (Z.of_nat j = i)) as [<- | Hne].
      * rewrite Nat2Z.id, (Hrest j) in Hi' by lia. by apply (Hi' d m).
      * apply (clears_names _ _ Hc'). apply (Hj j) with d; [lia | done | done].
    + intros j Hge. rewrite Ha, list_lookup_insert_ne by lia. apply Hrest. lia.
  - split_and!; [done | done | intros; lia | done].
Qed.

Lemma empty_stack_all fuel s :
  stack_ok s -> (length (top_item s) <= fuel)%nat ->
  empty_stack fuel s = Done tt (set_height 0 (set_top_item [] s)).
Proof.
  revert s. induction fuel as [| fuel IH]; intros s Hs Hl.
  - unfold stack_ok in Hs. destruct s as [k h]; cbn in *. destruct k; [| cbn in Hl; lia].
    cbn in Hs. subst h. reflexivity.
  - cbn [empty_stack]. unfold stack_height, mbind at 1, comp_bind at 1, get.
    unfold stack_ok in Hs. destruct (top_item s) as [| t k] eqn:Hk; cbn [length] in *.
    + rewrite Hs. cbn [Z.of_nat Z.ltb Z.compare]. destruct s; cbn in *. by subst.
    + rewrite (proj2 (Z.ltb_lt _ _)) by lia.
      rewrite (bind_done _ _ _ t (set_height (height s - 1) (set_top_item k s))).
      * rewrite IH; [reflexivity | unfold stack_ok; cbn -[Z.of_nat]; lia | cbn; lia].
      * unfold stack_pop, top_node, mbind, comp_bind, get, modify.
        rewrite (proj2 (Z.ltb_lt _ _)) by lia. by rewrite Hk.
Qed.

Lemma foldr_forget m labels n :
  lookup_tree (foldr (fun name m => <[name := NULL_TREE]> m) m labels) n
  = if decide (n ∈ labels) then NULL_TREE else lookup_tree m n.
Proof.
  induction labels as [| l labels IH]; [done |]. cbn. rewrite lookup_tree_insert, IH.
  destruct (decide (n = l)) as [-> | Hne].
  - by rewrite decide_True by by left.
  - destruct (decide (n ∈ labels)) as [Hin | Hin].
    + by rewrite decide_True by by right.
    + rewrite decide_False; [done |]. intros [? | ?]%elem_of_cons; done.
Qed.

(** The state in which the last part of [compile_function] runs. *)
Lemma compile_function_end s f :
  stack_ok s -> current_function_decl s = Some f ->
  wp any
    (labels ← get local_labels;
     modify (fun s => set_LABEL_DECL_of
       (foldr (fun name m => <[name := NULL_TREE]> m) (LABEL_DECL_of s) labels) s);;
     modify (set_local_labels []);;
     fuel ← get (fun s => length (top_item s));
     empty_stack fuel;;
     locals ← get current_function_locals;
     body ← get current_function_body;
     saved ← build3 BIND_EXPR (Some void_type_node) (TREE_LIST locals)
               (STATEMENT_LIST body) (BLOCK locals);
     set_DECL_SAVED_TREE f saved;;
     modify (fun s => set_compiled (compiled s ++ [(f, saved)]) s);;
     modify (set_current_function_decl None);;
     modify (set_current_function_locals []);;
     modify (set_current_function_body []))
    (fun _ s' =>
       (exists fl, let saved := EXPR BIND_EXPR (Some void_type_node) fl
           (TREE_LIST (current_function_locals s)) (STATEMENT_LIST (current_function_body s))
           (BLOCK (current_function_locals s)) NULL_TREE in
         compiled s' = compiled s ++ [(f, saved)] /\
         DECL_SAVED_TREE (attrs_of s' (DECL_UID f)) = saved) /\
       top_item s' = [] /\ height s' = 0 /\
       LABEL_DECL_of s' = foldr (fun name m => <[name := NULL_TREE]> m) (LABEL_DECL_of s)
                            (local_labels s) /\
       IDENTIFIER_DECL s' = IDENTIFIER_DECL s /\
       current_function_decl s' = None /\ current_function_body s' = [] /\
       current_function_locals s' = [] /\ num_of_local_vars s' = num_of_local_vars s /\
       local_labels s' = []) s.
Proof.
  intros Hs Hcur.
  apply wp_bind, wp_get, wp_bind, wp_modify, wp_bind, wp_modify, wp_bind, wp_get, wp_bind.
  unfold wp at 1. rewrite empty_stack_all by (done || lia).
  apply wp_bind, wp_get, wp_bind, wp_get.
  unfold build3. apply wp_bind, wp_bind. apply wp_ret, wp_ret.
  apply wp_bind, wp_modify, wp_bind, wp_modify, wp_bind, wp_modify, wp_bind, wp_modify, wp_modify.
  split_and!; try done.
  destruct (build3_node_shape BIND_EXPR (Some void_type_node)
    (TREE_LIST (current_function_locals s)) (STATEMENT_LIST (current_function_body s))
    (BLOCK (current_function_locals s))) as [fl E].
  exists fl. cbv zeta. rewrite <- E. split; [done |].
  unfold attrs_of. cbn. by rewrite lookup_insert_eq.
Qed.

(** After the function [f] of [s] was handed over: [saved] is what the middle
    end gets. *)
Definition handed_over (s : cil_state) (f : decl) (s' : cil_state) : Prop :=
  (exists fl, let saved := EXPR BIND_EXPR (Some void_type_node) fl
      (TREE_LIST (current_function_locals s)) (STATEMENT_LIST (current_function_body s))
      (BLOCK (current_function_locals s)) NULL_TREE in
    compiled s' = compiled s ++ [(f, saved)] /\
    DECL_SAVED_TREE (attrs_of s' (DECL_UID f)) = saved) /\
  top_item s' = [] /\ height s' = 0 /\
  (forall name, lookup_tree (LABEL_DECL_of s') name =
     if decide (name ∈ local_labels s) then NULL_TREE
     else lookup_tree (LABEL_DECL_of s) name) /\
  (forall i, (Z.of_nat i < num_of_local_vars s) -> forgotten (local_vars s !! i) s') /\
  (forall i, (i < length (DECL_ARGUMENTS (attrs_of s (DECL_UID f))))%nat ->
     forgotten (formal_params s !! i) s') /\
  current_function_decl s' = None /\ current_function_body s' = [] /\
  current_function_locals s' = [] /\ num_of_local_vars s' = 0 /\ local_labels s' = [].

Lemma compile_function_wp s f :
  stack_ok s -> current_function_decl s = Some f ->
  wp any compile_function (fun _ s' => handed_over s f s') s.
Proof.
  intros Hs Hcur. unfold compile_function.
  apply wp_bind, wp_get, wp_bind.
  eapply wp_mono; [| apply (forget_all _ _ _ _ _ _ local_vars_field)].
  intros _ s1 (C1 & P1 & F1). cbv beta.
  apply wp_bind, wp_modify, wp_bind, wp_get.
  change (current_function_decl (set_num_of_local_vars 0 s1)) with (current_function_decl s1).
  rewrite (clears_function _ _ C1), Hcur. apply wp_bind, wp_ret, wp_bind, wp_get, wp_bind.
  eapply wp_mono; [| apply (forget_all _ _ _ _ _ _ formal_params_field)].
  intros _ s2 (C2 & P2 & F2). cbv beta. destruct C1, C2. cbn in *.
  eapply wp_mono; [| apply (compile_function_end s2 f);
    [unfold stack_ok in *; congruence | congruence]].
  intros _ s' (Hsaved & Hk & Hh & HL & HI & Hf & Hb & Hl & Hn & Hll).
  split_and!; try done; try congruence.
  - destruct Hsaved as (fl & Hc & Hsv). exists fl. cbv zeta in *.
    split; congruence.
  - intros name. rewrite HL, foldr_forget.
    replace (local_labels s2) with (local_labels s) by congruence.
    by replace (LABEL_DECL_of s2) with (LABEL_DECL_of s) by congruence.
  - intros i Hi d n Hd Hdn. rewrite HI. apply clears_names1. cbn.
    apply (F1 i ltac:(lia) d n Hd Hdn).
  - intros i Hi d n Hd Hdn. rewrite HI.
    apply (F2 i) with d; [| congruence | done]. unfold attrs_of in *.
    change (attrs (set_num_of_local_vars 0 s1)) with (attrs s1).
    by rewrite clears_attrs0.
Qed.

(** C30: [compile_function] gives the middle end the function with the locals
    and the statements collected for it, in order, and leaves nothing of the
    function behind: the stack is empty, no label recorded for the function can
    be found by its name any more, nor any of its variables or parameters; every
    other name keeps the label it had. *)
Theorem compile_function_spec s s' f :
  stack_ok s -> current_function_decl s = Some f ->
  compile_function s = Done tt s' -> handed_over s f s'.
Proof.
  intros Hs Hcur Hd. exact (outcome_done _ _ _ _ _ _ Hd (compile_function_wp s f Hs Hcur)).
Qed.
End labels.

Section witnesses.
#[local] Existing Instances ILP32 i386 plain_middle_end sample_program sample_types sample_image.

Lemma sample_function_labels : function_labels sample.
Proof.
  assert (forall n, lookup_tree (LABEL_DECL_of sample) n = NULL_TREE) as E.
  { intros n. replace (LABEL_DECL_of sample) with (∅ : gmap string tree)
      by (vm_compute; reflexivity). reflexivity. }
  split; intros *; rewrite ?E; congruence.
Qed.

Lemma lookup_label_unique_witness :
  match lookup_label "L_00000000" sample with
  | Done t s' => forall name s'', lookup_label name s' = Done t s'' ->
      name = "L_00000000"%string
  | Failed _ => False
  end.
Proof.
  destruct (lookup_label "L_00000000" sample) as [t s' |] eqn:E;
    [| vm_compute in E; discriminate E].
  exact (proj2 (proj2 (proj2
    (lookup_label_unique "L_00000000" sample t s' sample_function_labels E)))).
Defined.

(** The end of a function that has a label, while another name has one that is
    not recorded for it. *)
Definition two_labels : cil_state :=
  match lookup_label "L_00000007" sample with
  | Done t s =>
      set_local_labels ["L_00000000"%string]
        (set_LABEL_DECL_of (<["L_00000000"%string := t]> (LABEL_DECL_of s)) s)
  | Failed _ => sample
  end.

Lemma compile_function_spec_witness :
  match current_function_decl two_labels, compile_function two_labels with
  | Some f, Done _ s' => handed_over two_labels f s' /\
      lookup_tree (LABEL_DECL_of s') "L_00000000" = NULL_TREE /\
      lookup_tree (LABEL_DECL_of s') "L_00000007"
        = lookup_tree (LABEL_DECL_of two_labels) "L_00000007" /\
      lookup_tree (LABEL_DECL_of two_labels) "L_00000007" <> NULL_TREE
  | _, _ => False
  end.
Proof.
  destruct (current_function_decl two_labels) as [f |] eqn:Ef;
    [| vm_compute in Ef; discriminate Ef].
  destruct (compile_function two_labels) as [[] s' |] eqn:E; [| vm_compute in E; discriminate E].
  assert (handed_over two_labels f s') as Hh by
    (apply (compile_function_spec two_labels s' f); [reflexivity | exact Ef | exact E]).
  split; [exact Hh |]. destruct Hh as (_ & _ & _ & Hl & _).
  rewrite !Hl. split; [reflexivity |]. split; [reflexivity | vm_compute; discriminate].
Defined.
End witnesses.
