(* ===== verification/Strings.v ===== *)
(** * Strings: string literals and joined names

    The reads of [make_string] and the buffer of [make_complex_identifier]. *)
From S2P Require Import Prelude Values Opcodes Trees CilState CilDecl EvalStack Records.
From S2P Require Import Program SampleProgram Frame Metadata Calls Statements StaticData.
From S2P Require Import Instr ParseInstr Assembly Reading Sample.
From S2P Require Import Effects ParseLoop.

Section strings.
Context `{Target, MiddleEnd, Metadata}.

(** The bytes [2 * i] and [2 * i + 1] as a UTF-16 unit, low byte first. *)
Definition unit_at (str : list Z) (i : Z) : option Z :=
  b0 ← byte_at str (2 * i); b1 ← byte_at str (2 * i + 1); Some (b0 + 256 * b1).

Lemma char_read str i :
  Forall is_byte str -> 0 <= i -> 2 * i + 4 <= Z.of_nat (length str) ->
  exists v u, IL_READ_INT32 str (2 * i) = Some v /\ unit_at str i = Some u /\ uint16 v = u.
Proof.
  intros Hb Hi Hl.
  destruct (byte_at_in_range str (2 * i)) as [b0 E0]; [lia |].
  destruct (byte_at_in_range str (2 * i + 1)) as [b1 E1]; [lia |].
  destruct (byte_at_in_range str (2 * i + 2)) as [b2 E2]; [lia |].
  destruct (byte_at_in_range str (2 * i + 3)) as [b3 E3]; [lia |].
  pose proof E0 as [_ B0]%byte_at_Some. pose proof E1 as [_ B1]%byte_at_Some.
  pose proof E2 as [_ B2]%byte_at_Some. pose proof E3 as [_ B3]%byte_at_Some.
  specialize (B0 Hb). specialize (B1 Hb). specialize (B2 Hb). specialize (B3 Hb).
  unfold is_byte in *.
  exists (int32 (b0 + 256 * (b1 + 256 * (b2 + 256 * b3)))), (b0 + 256 * b1).
  rewrite IL_READ_INT32_spec, IL_READ_UINT32_spec by done. rewrite bytes_at_4, E0, E1, E2, E3.
  split; [cbn -[Z.mul Z.add int32]; do 3 f_equal; lia |].
  split; [unfold unit_at; by rewrite E0, E1 |].
  unfold uint16, int32, to_unsigned, to_signed. zlia.
Qed.

Lemma string_chars_loop str n : forall i acc (s : cil_state),
  Forall is_byte str -> 0 <= i -> 2 * (i + Z.of_nat n) + 2 <= Z.of_nat (length str) ->
  exists chars, for_loop n i (fun i chars =>
      v ← lift "make_string" (IL_READ_INT32 str (2 * i));
      mret (chars ++ [(build_int_cst integer_type_node i, build_int_cst int16_type_node v)]))
    acc s = Done (acc ++ chars) s /\
    length chars = n /\
    (forall k, (k < n)%nat -> exists v u,
       chars !! k = Some (INTEGER_CST integer_type_node (i + Z.of_nat k),
                          INTEGER_CST int16_type_node v) /\
       unit_at str (i + Z.of_nat k) = Some u /\ uint16 v = u).
Proof.
  induction n as [| n IH]; intros i acc s Hb Hi Hl.
  - exists []. rewrite app_nil_r. split; [done |]. split; [done |]. lia.
  - destruct (char_read str i) as (v & u & Hv & Hu & Huv); [done | done | lia |].
    set (c := (build_int_cst integer_type_node i, build_int_cst int16_type_node v)).
    destruct (IH (i + 1) (acc ++ [c]) s) as (chars & Hc & Hlen & Hk); [done | lia | lia |].
    exists (c :: chars). split; [| split; [cbn; lia |]].
    + cbn [for_loop]. rewrite Hv. unfold mbind at 1, comp_bind at 1.
      change ((acc ++ c :: chars)) with (acc ++ ([c] ++ chars)). rewrite app_assoc. exact Hc.
    + intros [| k] Hlt.
      * exists v, u. rewrite Z.add_0_r. done.
      * destruct (Hk k) as (v' & u' & Hv' & Hu' & E); [lia |]. exists v', u'.
        replace (i + Z.of_nat (S k)) with (i + 1 + Z.of_nat k) by lia. done.
Qed.

(** The array of a string literal has one element for each of the [len]
    characters, whose low 16 bits are the UTF-16 unit of the heap, little
    endian; this needs two bytes after the last character. *)
Theorem string_chars_units str len s :
  Forall is_byte str -> 0 <= len -> 2 * len + 2 <= Z.of_nat (length str) ->
  exists chars, string_chars str len s = Done chars s /\
    Z.of_nat (length chars) = len /\
    (forall k, Z.of_nat k < len -> exists v u,
       chars !! k = Some (INTEGER_CST integer_type_node (Z.of_nat k),
                          INTEGER_CST int16_type_node v) /\
       unit_at str (Z.of_nat k) = Some u /\ uint16 v = u).
Proof.
  intros Hb Hl Hs.
  destruct (string_chars_loop str (Z.to_nat len) 0 [] s) as (chars & Hc & Hlen & Hk);
    [done | lia | lia |].
  exists chars. split; [exact Hc |]. split; [lia |]. intros k Hlt. apply (Hk k). lia.
Qed.

(** On a string that is exactly its characters, the last read leaves it:
    the macro reads four bytes where a character has two. *)
Theorem string_over_read str len s :
  0 < len -> Z.of_nat (length str) = 2 * len ->
  string_chars str len s = Failed (Undefined "make_string").
Proof.
  intros Hl Hs. unfold string_chars.
  assert (forall n i acc, n = Z.to_nat (len - i) -> (0 < n)%nat -> 0 <= i ->
    for_loop n i (fun i chars =>
      v ← lift "make_string" (IL_READ_INT32 str (2 * i));
      mret (chars ++ [(build_int_cst integer_type_node i, build_int_cst int16_type_node v)]))
    acc s = Failed (Undefined "make_string")) as Hloop;
    [| apply Hloop; lia].
  induction n as [| n IH]; intros i acc Hn Hpos Hi; [lia |].
  cbn [for_loop]. unfold mbind at 1, comp_bind at 1. unfold mbind at 1, comp_bind at 1.
  destruct (IL_READ_INT32 str (2 * i)) eqn:E; [| done]. cbn [lift mret comp_ret].
  apply read_int32_length in E. apply IH; lia.
Qed.

(** ** Joined names *)

Lemma concat_dollar_length i l :
  Z.of_nat (String.length (concat_dollar (i :: l)))
  = foldr (fun i n => Z.of_nat (String.length i) + n) 0 (i :: l) + Z.of_nat (length l).
Proof.
  revert i. induction l as [| j l IH]; intros i; [cbn; lia |].
  change (concat_dollar (i :: j :: l)) with (i +:+ "$" +:+ concat_dollar (j :: l))%string.
  rewrite !string_length_app. specialize (IH j). cbn [String.length foldr length] in *. lia.
Qed.

(** The buffer of a joined name has exactly the room of the name and its
    terminator. *)
Theorem make_complex_identifier_fits ident idents s name :
  make_complex_identifier ident idents s = Done name s ->
  Z.of_nat (String.length name) + 1 = make_complex_identifier_alloca ident idents.
Proof.
  unfold make_complex_identifier. destruct (_ <? 2); [discriminate |]. intros Hd.
  replace name with (concat_dollar (ident :: idents)) by by injection Hd.
  rewrite concat_dollar_length. unfold make_complex_identifier_alloca. lia.
Qed.
End strings.

Section witnesses.
#[local] Existing Instances ILP32 i386 plain_middle_end sample_program sample_types sample_image.

(** "Hi" *)
Lemma string_chars_units_witness :
  exists chars, string_chars [0x48; 0; 0x69; 0; 0; 0] 2 sample = Done chars sample /\
    Z.of_nat (length chars) = 2.
Proof.
  destruct (string_chars_units [0x48; 0; 0x69; 0; 0; 0] 2 sample) as (chars & Hc & Hl & _).
  - repeat constructor; unfold is_byte; lia.
  - lia.
  - cbn. lia.
  - exists chars. split; [exact Hc | exact Hl].
Defined.

Lemma string_over_read_witness :
  string_chars [0x48; 0; 0x69; 0] 2 sample = Failed (Undefined "make_string").
Proof. apply string_over_read; [lia | reflexivity]. Defined.

Lemma make_complex_identifier_fits_witness :
  Z.of_nat (String.length "Main$run$2") + 1
  = make_complex_identifier_alloca "Main" ["run"; "2"]%string.
Proof. apply (make_complex_identifier_fits _ _ sample). reflexivity. Defined.
End witnesses.
