(* ===== verification/Int32Findings.v ===== *)
(** * Int32Findings: where the compiled code differs from the machine

    Bodies that the compiler accepts and compiles to something else than
    the standard asks for, each the reason of a premise of Int32Correct; the
    results are those of the sample function on i386. *)
From S2P Require Import Prelude Values Opcodes Trees CilState CilDecl EvalStack Records.
From S2P Require Import Program SampleProgram Frame Metadata Calls Statements StaticData.
From S2P Require Import Instr ParseInstr Assembly Reading Sample.
From S2P Require Import Effects StackEffect ParseLoop Semantics CilMachine.
From S2P Require Import Int32Handlers Int32Compile Int32Correct.

Section findings.
#[local] Existing Instances ILP32 i386 plain_middle_end sample_program sample_types sample_image.

(** The compiled body of the sample function, run. *)
Definition compiled_result (wrapv : bool) (code : list Z) (rho : env) : option (option Z) :=
  match sample_parse code with
  | Done _ s => run_body wrapv 50 (current_function_body s) rho
  | Failed _ => None
  end.

Definition machine_result (code : list Z) (a b : Z) : option (option Z) :=
  cil_run true 50 code (At 0 (mkStore [a; b] [0; 0]) []).

(** [ldarg.0; ldc.i4.1; starg.s 0; ret]: the old value of the argument is on
    the stack while the argument is assigned. *)
Definition stale_code : list Z := [0x02; 0x17; 0x10; 0x00; 0x2A].

(** An argument (or a local variable) is pushed as the variable itself and
    not as its value, so that an assignment made while it is on the stack
    changes the item: this body returns 1 where the machine returns the old
    value of the argument.  [verify] refuses it. *)
Theorem stale_load a b :
  compiled_result true stale_code (sample_env a b) = Some (Some 1) /\
  machine_result stale_code a b = Some (Some a) /\
  verify 2 2 true stale_code = false.
Proof. split; [| split]; vm_compute; reflexivity. Qed.

(** [ldarg.0; ldarg.1; add; ret] *)
Definition add_code : list Z := [0x02; 0x03; 0x58; 0x2A].

(** The compiler does not set [-fwrapv], and [add] is the addition of the
    C type [int]: where it overflows, the compiled body is undefined, and the
    machine wraps; with [-fwrapv] they agree. *)
Theorem add_overflow :
  compiled_result false add_code (sample_env (2 ^ 31 - 1) 1) = None /\
  compiled_result true add_code (sample_env (2 ^ 31 - 1) 1) = Some (Some (- 2 ^ 31)) /\
  machine_result add_code (2 ^ 31 - 1) 1 = Some (Some (- 2 ^ 31)).
Proof. split; [| split]; vm_compute; reflexivity. Qed.

(** [ldloc.0; ret], the local variable never assigned. *)
Definition uninitialised_code : list Z := [0x06; 0x2A].

(** Nothing initialises the local variables, which [.locals init] sets to
    zero: with the parameters only, a body that reads one is undefined. *)
Theorem uninitialised_local a b :
  let parameters := delete (DECL_UID (sample_var (Local 0)))
                      (delete (DECL_UID (sample_var (Local 1))) (sample_env a b)) in
  compiled_result true uninitialised_code parameters = None /\
  machine_result uninitialised_code a b = Some (Some 0) /\
  verify 2 2 true uninitialised_code = true.
Proof. split; [| split]; vm_compute; reflexivity. Qed.

(** [ldarg.0; conv.u1; ldc.i4.1; add; ret] *)
Definition narrow_code : list Z := [0x02; 0xD2; 0x17; 0x58; 0x2A].

(** An addition after [conv.u1] is made in eight bits: for 255 the result
    is 0, where the standard's is 256. *)
Theorem narrow_addition :
  compiled_result true narrow_code (sample_env 255 0) = Some (Some 0) /\
  compiled_result true narrow_code (sample_env 7 0) = Some (Some 8).
Proof. split; vm_compute; reflexivity. Qed.

End findings.
