(* ===== verification/ScilTrees.v ===== *)
(** * ScilTrees: the nodes and the state of the second front end

    Models the declarations of src/gcc/scil: the types of scil-builtins.c, the type hooks
    of scil-hooks.c, the GENERIC nodes that the instructions build, and the state that
    the functions of scil-evalstack.c, scil-method.c and scil-instructions.c work on.  The
    codes of the nodes are those of Trees; the types are nodes of their own, so the front
    end has its own trees. *)
From S2P Require Import Prelude Trees.

(** ** Types *)

(** The formats of the target that the front end reads. *)
Class ScilTarget := { scil_int_size : Z; scil_pointer_size : Z }.

(** The nodes that [build_integer_nodes], [build_float_nodes], [build_size_nodes] and
    [build_void_nodes] make. *)
Inductive scil_prim :=
| P_int8 | P_int16 | P_int32 | P_int64 | P_uint8 | P_uint16 | P_uint32 | P_uint64
| P_native_int | P_native_uint | P_size | P_bool | P_char | P_float32 | P_float64 | P_void.

#[export] Instance scil_prim_eq_dec : EqDecision scil_prim.
Proof. solve_decision. Defined.

(** A record is the number of its node; the types of functions are shared by their
    result and their arguments, which end with [void_type_node]. *)
Inductive scil_type :=
| SPrim (k : scil_prim)
| SPointer (to : scil_type)
| SRecord (node : N)
| SArray (elem : scil_type)
| SFunction (ret : scil_type) (arg_types : list scil_type)
| SError_type.

#[export] Instance scil_type_eq_dec : EqDecision scil_type.
Proof.
  refine (fix go x y := match x, y return Decision (x = y) with
    | SPrim k, SPrim k' => cast_if (decide (k = k'))
    | SPointer t, SPointer t' => cast_if (go t t')
    | SRecord n, SRecord n' => cast_if (decide (n = n'))
    | SArray t, SArray t' => cast_if (go t t')
    | SFunction r a, SFunction r' a' => cast_if_and (go r r') (@list_eq_dec _ go a a')
    | SError_type, SError_type => left _
    | _, _ => right _
    end); clear go; congruence.
Defined.

Definition scil_int8_type := SPrim P_int8.
Definition scil_int16_type := SPrim P_int16.
Definition scil_int32_type := SPrim P_int32.
Definition scil_int64_type := SPrim P_int64.
Definition scil_uint8_type := SPrim P_uint8.
Definition scil_uint16_type := SPrim P_uint16.
Definition scil_uint32_type := SPrim P_uint32.
Definition scil_uint64_type := SPrim P_uint64.
Definition scil_bool_type := SPrim P_bool.
Definition scil_char_type := SPrim P_char.
Definition scil_float32_type := SPrim P_float32.
Definition scil_float64_type := SPrim P_float64.
Definition scil_void_type := SPrim P_void.
Definition scil_size_type := SPrim P_size.
Definition scil_ptr_type := SPointer scil_void_type.
(** [scil_object_type] and [scil_string_type] are the first two records that are made. *)
Definition scil_object_type := SRecord 0.
Definition scil_string_type := SRecord 1.

Section types.
Context `{ScilTarget}.

Definition scil_native_int_type : scil_type :=
  if scil_int_size =? 8 then scil_int8_type
  else if scil_int_size =? 16 then scil_int16_type
  else if scil_int_size =? 32 then scil_int32_type
  else if scil_int_size =? 64 then scil_int64_type
  else SPrim P_native_int.
Definition scil_native_uint_type : scil_type :=
  if scil_int_size =? 8 then scil_uint8_type
  else if scil_int_size =? 16 then scil_uint16_type
  else if scil_int_size =? 32 then scil_uint32_type
  else if scil_int_size =? 64 then scil_uint64_type
  else SPrim P_native_uint.

(** [TYPE_PRECISION]; it is 0 where nothing sets it. *)
Definition scil_precision (t : scil_type) : Z :=
  match t with
  | SPrim (P_int8 | P_uint8) => 8
  | SPrim (P_int16 | P_uint16 | P_char) => 16
  | SPrim (P_int32 | P_uint32 | P_float32) => 32
  | SPrim (P_int64 | P_uint64 | P_float64) => 64
  | SPrim (P_native_int | P_native_uint) => scil_int_size
  | SPrim P_size | SPointer _ => scil_pointer_size
  | SPrim P_bool => 1
  | _ => 0
  end.
End types.

(** [TYPE_UNSIGNED]; [scil_char_type] is made with [make_signed_type]. *)
Definition scil_unsigned (t : scil_type) : bool :=
  match t with
  | SPrim (P_uint8 | P_uint16 | P_uint32 | P_uint64 | P_native_uint | P_bool) => true
  | _ => false
  end.

(** [TREE_CODE] of a type. *)
Definition scil_type_code (t : scil_type) : option tree_code :=
  match t with
  | SPrim (P_float32 | P_float64) => Some REAL_TYPE_
  | SPrim P_void => Some VOID_TYPE_
  | SPrim P_bool => Some BOOLEAN_TYPE_
  | SPrim _ => Some INTEGER_TYPE_
  | SPointer _ => Some POINTER_TYPE_
  | SRecord _ => Some RECORD_TYPE_
  | SArray _ => Some ARRAY_TYPE_
  | SFunction _ _ => Some FUNCTION_TYPE_
  | SError_type => None
  end.

(** ** Nodes *)

(** The identifiers that the front end makes with [sprintf], and others. *)
Inductive scil_name :=
| Stack_var_id (n : Z) | Method_var_id (n : Z) | Label_id (pc : Z) | String_id (n : Z)
| Name_id (name : string) | No_id.

(** A declaration: its code, number, name and type, and [DECL_CONTEXT] where that is a
    class. *)
Record scil_decl := mkScilDecl {
  sd_code : tree_code;
  sd_uid : N;
  sd_name : scil_name;
  sd_type : scil_type;
  sd_context : option scil_type
}.

(** A [SAVE_EXPR] is one node wherever it occurs, so it has a number; [SList] is the
    [TREE_VALUE]s of a [TREE_LIST]. *)
Inductive stree :=
| SNull
| SError
| SInt (ty : scil_type) (v : Z)
| SDecl (d : scil_decl)
| SSave (node : N) (ty : scil_type) (op : stree)
| SExpr (code : tree_code) (ty : scil_type) (ops : list stree)
| SList (values : list stree).

(** [TREE_TYPE]; [None] is a node without one. *)
Definition scil_TREE_TYPE (t : stree) : option scil_type :=
  match t with
  | SError => Some SError_type
  | SInt ty _ | SSave _ ty _ | SExpr _ ty _ => Some ty
  | SDecl d => Some (sd_type d)
  | _ => None
  end.

(** [build_empty_stmt] of tree.c. *)
Definition scil_empty_stmt : stree := SExpr NOP_EXPR scil_void_type [SInt scil_size_type 0].
Definition scil_null_pointer : stree := SInt scil_ptr_type 0.

(** ** State *)

(** The evaluation stack: how many items it has, and their variables, the top first. *)
Record stack_t := mkStack { top_index : Z; entries : list stree }.

(** The typed stacks. *)
Inductive slot_kind :=
| int8_stack | int16_stack | int32_stack | int64_stack | float_stack | address_stack.

#[export] Instance slot_kind_eq_dec : EqDecision slot_kind.
Proof. solve_decision. Defined.

(** [SCIL_DECL_DATA] of a label: null, the pointer 1, or a copy of the stack. *)
Inductive label_data := No_data | Passed | Saved (st : stack_t).
Record label := mkLabel { lb_decl : scil_decl; SCIL_DECL_DATA : label_data }.

(** What [scil_complete_method_def] hands to the middle end. *)
Record scil_function := mkFunction {
  fn_arguments : list scil_decl;
  fn_vars : list scil_decl;
  fn_body : list stree
}.

Record scil_state := mkScil {
  sc_stack : stack_t; (* the evaluation stack, scil-evalstack.c *)
  sc_typed : slot_kind -> list (option stree); (* the stack variables by type and depth *)
  sc_valuetypes : list (list (scil_type * stree)); (* those of value types: lists with the type as purpose *)
  sc_vars : list scil_decl; (* BLOCK_VARS of the block of the current function, the last one first *)
  sc_body : list stree; (* the statements of its BIND_EXPR *)
  sc_arguments : list scil_decl; (* DECL_ARGUMENTS, the last one first *)
  sc_param_types : list scil_type; (* current_param_type *)
  sc_function : option scil_decl; (* current_function_decl *)
  sc_labels : gmap (N * Z) label; (* labels by function and offset *)
  sc_results : gmap N scil_decl; (* DECL_RESULT of a function *)
  sc_started : gset N; (* the functions with a DECL_INITIAL *)
  sc_external : gset N; (* the functions with DECL_EXTERNAL *)
  sc_finished : gmap N scil_function; (* the functions that were handed over *)
  sc_main : list stree; (* the statements of main *)
  sc_alias : gmap N stree; (* SCIL_DECL_MEMORY_ALIAS *)
  sc_alias_parms : gset N; (* the parameters with SCIL_MEMORY_ALIAS_P *)
  sc_addressable : gset N; (* the declarations with TREE_ADDRESSABLE *)
  sc_forced : gset N; (* the labels with FORCED_LABEL *)
  sc_vtables : gmap N scil_decl; (* BINFO_VTABLE (TYPE_BINFO (type)) of a record *)
  sc_strings : gmap N (list Z); (* the elements of string literals *)
  sc_fields : gmap N (list scil_decl); (* TYPE_FIELDS of a record *)
  sc_next_uid : N; (* the next DECL_UID *)
  sc_stack_index : Z; (* the counter of scil_add_stack_variable *)
  sc_var_index : Z; (* the counter of scil_add_method_variable *)
  sc_string_index : Z; (* the counter of scil_instr_push_string *)
  sc_sorry : Z; (* how many errors sorry and error reported *)
  sc_code : list Z; (* code, of scil-pnet.c *)
  sc_pc : Z; (* pc *)
  sc_parameters : list (option stree); (* parameters; nothing where an entry was not set *)
  sc_locals : list (option stree) (* locals *)
}.

Definition set_sc_stack (x : stack_t) (s : scil_state) : scil_state :=
    mkScil x (sc_typed s) (sc_valuetypes s) (sc_vars s) (sc_body s) (sc_arguments s) (sc_param_types s)
    (sc_function s) (sc_labels s) (sc_results s) (sc_started s) (sc_external s) (sc_finished s) (sc_main s)
    (sc_alias s) (sc_alias_parms s) (sc_addressable s) (sc_forced s) (sc_vtables s) (sc_strings s)
    (sc_fields s) (sc_next_uid s) (sc_stack_index s) (sc_var_index s) (sc_string_index s) (sc_sorry s)
    (sc_code s) (sc_pc s) (sc_parameters s) (sc_locals s).
Definition set_sc_typed (x : slot_kind -> list (option stree)) (s : scil_state) : scil_state :=
    mkScil (sc_stack s) x (sc_valuetypes s) (sc_vars s) (sc_body s) (sc_arguments s) (sc_param_types s)
    (sc_function s) (sc_labels s) (sc_results s) (sc_started s) (sc_external s) (sc_finished s) (sc_main s)
    (sc_alias s) (sc_alias_parms s) (sc_addressable s) (sc_forced s) (sc_vtables s) (sc_strings s)
    (sc_fields s) (sc_next_uid s) (sc_stack_index s) (sc_var_index s) (sc_string_index s) (sc_sorry s)
    (sc_code s) (sc_pc s) (sc_parameters s) (sc_locals s).
Definition set_sc_valuetypes (x : list (list (scil_type * stree))) (s : scil_state) : scil_state :=
    mkScil (sc_stack s) (sc_typed s) x (sc_vars s) (sc_body s) (sc_arguments s) (sc_param_types s)
    (sc_function s) (sc_labels s) (sc_results s) (sc_started s) (sc_external s) (sc_finished s) (sc_main s)
    (sc_alias s) (sc_alias_parms s) (sc_addressable s) (sc_forced s) (sc_vtables s) (sc_strings s)
    (sc_fields s) (sc_next_uid s) (sc_stack_index s) (sc_var_index s) (sc_string_index s) (sc_sorry s)
    (sc_code s) (sc_pc s) (sc_parameters s) (sc_locals s).
Definition set_sc_vars (x : list scil_decl) (s : scil_state) : scil_state :=
    mkScil (sc_stack s) (sc_typed s) (sc_valuetypes s) x (sc_body s) (sc_arguments s) (sc_param_types s)
    (sc_function s) (sc_labels s) (sc_results s) (sc_started s) (sc_external s) (sc_finished s) (sc_main s)
    (sc_alias s) (sc_alias_parms s) (sc_addressable s) (sc_forced s) (sc_vtables s) (sc_strings s)
    (sc_fields s) (sc_next_uid s) (sc_stack_index s) (sc_var_index s) (sc_string_index s) (sc_sorry s)
    (sc_code s) (sc_pc s) (sc_parameters s) (sc_locals s).
Definition set_sc_body (x : list stree) (s : scil_state) : scil_state :=
    mkScil (sc_stack s) (sc_typed s) (sc_valuetypes s) (sc_vars s) x (sc_arguments s) (sc_param_types s)
    (sc_function s) (sc_labels s) (sc_results s) (sc_started s) (sc_external s) (sc_finished s) (sc_main s)
    (sc_alias s) (sc_alias_parms s) (sc_addressable s) (sc_forced s) (sc_vtables s) (sc_strings s)
    (sc_fields s) (sc_next_uid s) (sc_stack_index s) (sc_var_index s) (sc_string_index s) (sc_sorry s)
    (sc_code s) (sc_pc s) (sc_parameters s) (sc_locals s).
Definition set_sc_arguments (x : list scil_decl) (s : scil_state) : scil_state :=
    mkScil (sc_stack s) (sc_typed s) (sc_valuetypes s) (sc_vars s) (sc_body s) x (sc_param_types s)
    (sc_function s) (sc_labels s) (sc_results s) (sc_started s) (sc_external s) (sc_finished s) (sc_main s)
    (sc_alias s) (sc_alias_parms s) (sc_addressable s) (sc_forced s) (sc_vtables s) (sc_strings s)
    (sc_fields s) (sc_next_uid s) (sc_stack_index s) (sc_var_index s) (sc_string_index s) (sc_sorry s)
    (sc_code s) (sc_pc s) (sc_parameters s) (sc_locals s).
Definition set_sc_param_types (x : list scil_type) (s : scil_state) : scil_state :=
    mkScil (sc_stack s) (sc_typed s) (sc_valuetypes s) (sc_vars s) (sc_body s) (sc_arguments s) x
    (sc_function s) (sc_labels s) (sc_results s) (sc_started s) (sc_external s) (sc_finished s) (sc_main s)
    (sc_alias s) (sc_alias_parms s) (sc_addressable s) (sc_forced s) (sc_vtables s) (sc_strings s)
    (sc_fields s) (sc_next_uid s) (sc_stack_index s) (sc_var_index s) (sc_string_index s) (sc_sorry s)
    (sc_code s) (sc_pc s) (sc_parameters s) (sc_locals s).
Definition set_sc_function (x : option scil_decl) (s : scil_state) : scil_state :=
    mkScil (sc_stack s) (sc_typed s) (sc_valuetypes s) (sc_vars s) (sc_body s) (sc_arguments s)
    (sc_param_types s) x (sc_labels s) (sc_results s) (sc_started s) (sc_external s) (sc_finished s)
    (sc_main s) (sc_alias s) (sc_alias_parms s) (sc_addressable s) (sc_forced s) (sc_vtables s) (sc_strings
    s) (sc_fields s) (sc_next_uid s) (sc_stack_index s) (sc_var_index s) (sc_string_index s) (sc_sorry s)
    (sc_code s) (sc_pc s) (sc_parameters s) (sc_locals s).
Definition set_sc_labels (x : gmap (N * Z) label) (s : scil_state) : scil_state :=
    mkScil (sc_stack s) (sc_typed s) (sc_valuetypes s) (sc_vars s) (sc_body s) (sc_arguments s)
    (sc_param_types s) (sc_function s) x (sc_results s) (sc_started s) (sc_external s) (sc_finished s)
    (sc_main s) (sc_alias s) (sc_alias_parms s) (sc_addressable s) (sc_forced s) (sc_vtables s) (sc_strings
    s) (sc_fields s) (sc_next_uid s) (sc_stack_index s) (sc_var_index s) (sc_string_index s) (sc_sorry s)
    (sc_code s) (sc_pc s) (sc_parameters s) (sc_locals s).
Definition set_sc_results (x : gmap N scil_decl) (s : scil_state) : scil_state :=
    mkScil (sc_stack s) (sc_typed s) (sc_valuetypes s) (sc_vars s) (sc_body s) (sc_arguments s)
    (sc_param_types s) (sc_function s) (sc_labels s) x (sc_started s) (sc_external s) (sc_finished s)
    (sc_main s) (sc_alias s) (sc_alias_parms s) (sc_addressable s) (sc_forced s) (sc_vtables s) (sc_strings
    s) (sc_fields s) (sc_next_uid s) (sc_stack_index s) (sc_var_index s) (sc_string_index s) (sc_sorry s)
    (sc_code s) (sc_pc s) (sc_parameters s) (sc_locals s).
Definition set_sc_started (x : gset N) (s : scil_state) : scil_state :=
    mkScil (sc_stack s) (sc_typed s) (sc_valuetypes s) (sc_vars s) (sc_body s) (sc_arguments s)
    (sc_param_types s) (sc_function s) (sc_labels s) (sc_results s) x (sc_external s) (sc_finished s)
    (sc_main s) (sc_alias s) (sc_alias_parms s) (sc_addressable s) (sc_forced s) (sc_vtables s) (sc_strings
    s) (sc_fields s) (sc_next_uid s) (sc_stack_index s) (sc_var_index s) (sc_string_index s) (sc_sorry s)
    (sc_code s) (sc_pc s) (sc_parameters s) (sc_locals s).
Definition set_sc_external (x : gset N) (s : scil_state) : scil_state :=
    mkScil (sc_stack s) (sc_typed s) (sc_valuetypes s) (sc_vars s) (sc_body s) (sc_arguments s)
    (sc_param_types s) (sc_function s) (sc_labels s) (sc_results s) (sc_started s) x (sc_finished s)
    (sc_main s) (sc_alias s) (sc_alias_parms s) (sc_addressable s) (sc_forced s) (sc_vtables s) (sc_strings
    s) (sc_fields s) (sc_next_uid s) (sc_stack_index s) (sc_var_index s) (sc_string_index s) (sc_sorry s)
    (sc_code s) (sc_pc s) (sc_parameters s) (sc_locals s).
Definition set_sc_finished (x : gmap N scil_function) (s : scil_state) : scil_state :=
    mkScil (sc_stack s) (sc_typed s) (sc_valuetypes s) (sc_vars s) (sc_body s) (sc_arguments s)
    (sc_param_types s) (sc_function s) (sc_labels s) (sc_results s) (sc_started s) (sc_external s) x
    (sc_main s) (sc_alias s) (sc_alias_parms s) (sc_addressable s) (sc_forced s) (sc_vtables s) (sc_strings
    s) (sc_fields s) (sc_next_uid s) (sc_stack_index s) (sc_var_index s) (sc_string_index s) (sc_sorry s)
    (sc_code s) (sc_pc s) (sc_parameters s) (sc_locals s).
Definition set_sc_main (x : list stree) (s : scil_state) : scil_state :=
    mkScil (sc_stack s) (sc_typed s) (sc_valuetypes s) (sc_vars s) (sc_body s) (sc_arguments s)
    (sc_param_types s) (sc_function s) (sc_labels s) (sc_results s) (sc_started s) (sc_external s)
    (sc_finished s) x (sc_alias s) (sc_alias_parms s) (sc_addressable s) (sc_forced s) (sc_vtables s)
    (sc_strings s) (sc_fields s) (sc_next_uid s) (sc_stack_index s) (sc_var_index s) (sc_string_index s)
    (sc_sorry s) (sc_code s) (sc_pc s) (sc_parameters s) (sc_locals s).
Definition set_sc_alias (x : gmap N stree) (s : scil_state) : scil_state :=
    mkScil (sc_stack s) (sc_typed s) (sc_valuetypes s) (sc_vars s) (sc_body s) (sc_arguments s)
    (sc_param_types s) (sc_function s) (sc_labels s) (sc_results s) (sc_started s) (sc_external s)
    (sc_finished s) (sc_main s) x (sc_alias_parms s) (sc_addressable s) (sc_forced s) (sc_vtables s)
    (sc_strings s) (sc_fields s) (sc_next_uid s) (sc_stack_index s) (sc_var_index s) (sc_string_index s)
    (sc_sorry s) (sc_code s) (sc_pc s) (sc_parameters s) (sc_locals s).
Definition set_sc_alias_parms (x : gset N) (s : scil_state) : scil_state :=
    mkScil (sc_stack s) (sc_typed s) (sc_valuetypes s) (sc_vars s) (sc_body s) (sc_arguments s)
    (sc_param_types s) (sc_function s) (sc_labels s) (sc_results s) (sc_started s) (sc_external s)
    (sc_finished s) (sc_main s) (sc_alias s) x (sc_addressable s) (sc_forced s) (sc_vtables s) (sc_strings
    s) (sc_fields s) (sc_next_uid s) (sc_stack_index s) (sc_var_index s) (sc_string_index s) (sc_sorry s)
    (sc_code s) (sc_pc s) (sc_parameters s) (sc_locals s).
Definition set_sc_addressable (x : gset N) (s : scil_state) : scil_state :=
    mkScil (sc_stack s) (sc_typed s) (sc_valuetypes s) (sc_vars s) (sc_body s) (sc_arguments s)
    (sc_param_types s) (sc_function s) (sc_labels s) (sc_results s) (sc_started s) (sc_external s)
    (sc_finished s) (sc_main s) (sc_alias s) (sc_alias_parms s) x (sc_forced s) (sc_vtables s) (sc_strings
    s) (sc_fields s) (sc_next_uid s) (sc_stack_index s) (sc_var_index s) (sc_string_index s) (sc_sorry s)
    (sc_code s) (sc_pc s) (sc_parameters s) (sc_locals s).
Definition set_sc_forced (x : gset N) (s : scil_state) : scil_state :=
    mkScil (sc_stack s) (sc_typed s) (sc_valuetypes s) (sc_vars s) (sc_body s) (sc_arguments s)
    (sc_param_types s) (sc_function s) (sc_labels s) (sc_results s) (sc_started s) (sc_external s)
    (sc_finished s) (sc_main s) (sc_alias s) (sc_alias_parms s) (sc_addressable s) x (sc_vtables s)
    (sc_strings s) (sc_fields s) (sc_next_uid s) (sc_stack_index s) (sc_var_index s) (sc_string_index s)
    (sc_sorry s) (sc_code s) (sc_pc s) (sc_parameters s) (sc_locals s).
Definition set_sc_vtables (x : gmap N scil_decl) (s : scil_state) : scil_state :=
    mkScil (sc_stack s) (sc_typed s) (sc_valuetypes s) (sc_vars s) (sc_body s) (sc_arguments s)
    (sc_param_types s) (sc_function s) (sc_labels s) (sc_results s) (sc_started s) (sc_external s)
    (sc_finished s) (sc_main s) (sc_alias s) (sc_alias_parms s) (sc_addressable s) (sc_forced s) x
    (sc_strings s) (sc_fields s) (sc_next_uid s) (sc_stack_index s) (sc_var_index s) (sc_string_index s)
    (sc_sorry s) (sc_code s) (sc_pc s) (sc_parameters s) (sc_locals s).
Definition set_sc_strings (x : gmap N (list Z)) (s : scil_state) : scil_state :=
    mkScil (sc_stack s) (sc_typed s) (sc_valuetypes s) (sc_vars s) (sc_body s) (sc_arguments s)
    (sc_param_types s) (sc_function s) (sc_labels s) (sc_results s) (sc_started s) (sc_external s)
    (sc_finished s) (sc_main s) (sc_alias s) (sc_alias_parms s) (sc_addressable s) (sc_forced s) (sc_vtables
    s) x (sc_fields s) (sc_next_uid s) (sc_stack_index s) (sc_var_index s) (sc_string_index s) (sc_sorry s)
    (sc_code s) (sc_pc s) (sc_parameters s) (sc_locals s).
Definition set_sc_fields (x : gmap N (list scil_decl)) (s : scil_state) : scil_state :=
    mkScil (sc_stack s) (sc_typed s) (sc_valuetypes s) (sc_vars s) (sc_body s) (sc_arguments s)
    (sc_param_types s) (sc_function s) (sc_labels s) (sc_results s) (sc_started s) (sc_external s)
    (sc_finished s) (sc_main s) (sc_alias s) (sc_alias_parms s) (sc_addressable s) (sc_forced s) (sc_vtables
    s) (sc_strings s) x (sc_next_uid s) (sc_stack_index s) (sc_var_index s) (sc_string_index s) (sc_sorry s)
    (sc_code s) (sc_pc s) (sc_parameters s) (sc_locals s).
Definition set_sc_next_uid (x : N) (s : scil_state) : scil_state :=
    mkScil (sc_stack s) (sc_typed s) (sc_valuetypes s) (sc_vars s) (sc_body s) (sc_arguments s)
    (sc_param_types s) (sc_function s) (sc_labels s) (sc_results s) (sc_started s) (sc_external s)
    (sc_finished s) (sc_main s) (sc_alias s) (sc_alias_parms s) (sc_addressable s) (sc_forced s) (sc_vtables
    s) (sc_strings s) (sc_fields s) x (sc_stack_index s) (sc_var_index s) (sc_string_index s) (sc_sorry s)
    (sc_code s) (sc_pc s) (sc_parameters s) (sc_locals s).
Definition set_sc_stack_index (x : Z) (s : scil_state) : scil_state :=
    mkScil (sc_stack s) (sc_typed s) (sc_valuetypes s) (sc_vars s) (sc_body s) (sc_arguments s)
    (sc_param_types s) (sc_function s) (sc_labels s) (sc_results s) (sc_started s) (sc_external s)
    (sc_finished s) (sc_main s) (sc_alias s) (sc_alias_parms s) (sc_addressable s) (sc_forced s) (sc_vtables
    s) (sc_strings s) (sc_fields s) (sc_next_uid s) x (sc_var_index s) (sc_string_index s) (sc_sorry s)
    (sc_code s) (sc_pc s) (sc_parameters s) (sc_locals s).
Definition set_sc_var_index (x : Z) (s : scil_state) : scil_state :=
    mkScil (sc_stack s) (sc_typed s) (sc_valuetypes s) (sc_vars s) (sc_body s) (sc_arguments s)
    (sc_param_types s) (sc_function s) (sc_labels s) (sc_results s) (sc_started s) (sc_external s)
    (sc_finished s) (sc_main s) (sc_alias s) (sc_alias_parms s) (sc_addressable s) (sc_forced s) (sc_vtables
    s) (sc_strings s) (sc_fields s) (sc_next_uid s) (sc_stack_index s) x (sc_string_index s) (sc_sorry s)
    (sc_code s) (sc_pc s) (sc_parameters s) (sc_locals s).
Definition set_sc_string_index (x : Z) (s : scil_state) : scil_state :=
    mkScil (sc_stack s) (sc_typed s) (sc_valuetypes s) (sc_vars s) (sc_body s) (sc_arguments s)
    (sc_param_types s) (sc_function s) (sc_labels s) (sc_results s) (sc_started s) (sc_external s)
    (sc_finished s) (sc_main s) (sc_alias s) (sc_alias_parms s) (sc_addressable s) (sc_forced s) (sc_vtables
    s) (sc_strings s) (sc_fields s) (sc_next_uid s) (sc_stack_index s) (sc_var_index s) x (sc_sorry s)
    (sc_code s) (sc_pc s) (sc_parameters s) (sc_locals s).
Definition set_sc_sorry (x : Z) (s : scil_state) : scil_state :=
    mkScil (sc_stack s) (sc_typed s) (sc_valuetypes s) (sc_vars s) (sc_body s) (sc_arguments s)
    (sc_param_types s) (sc_function s) (sc_labels s) (sc_results s) (sc_started s) (sc_external s)
    (sc_finished s) (sc_main s) (sc_alias s) (sc_alias_parms s) (sc_addressable s) (sc_forced s) (sc_vtables
    s) (sc_strings s) (sc_fields s) (sc_next_uid s) (sc_stack_index s) (sc_var_index s) (sc_string_index s)
    x (sc_code s) (sc_pc s) (sc_parameters s) (sc_locals s).
Definition set_sc_code (x : list Z) (s : scil_state) : scil_state :=
    mkScil (sc_stack s) (sc_typed s) (sc_valuetypes s) (sc_vars s) (sc_body s) (sc_arguments s)
    (sc_param_types s) (sc_function s) (sc_labels s) (sc_results s) (sc_started s) (sc_external s)
    (sc_finished s) (sc_main s) (sc_alias s) (sc_alias_parms s) (sc_addressable s) (sc_forced s) (sc_vtables
    s) (sc_strings s) (sc_fields s) (sc_next_uid s) (sc_stack_index s) (sc_var_index s) (sc_string_index s)
    (sc_sorry s) x (sc_pc s) (sc_parameters s) (sc_locals s).
Definition set_sc_pc (x : Z) (s : scil_state) : scil_state :=
    mkScil (sc_stack s) (sc_typed s) (sc_valuetypes s) (sc_vars s) (sc_body s) (sc_arguments s)
    (sc_param_types s) (sc_function s) (sc_labels s) (sc_results s) (sc_started s) (sc_external s)
    (sc_finished s) (sc_main s) (sc_alias s) (sc_alias_parms s) (sc_addressable s) (sc_forced s) (sc_vtables
    s) (sc_strings s) (sc_fields s) (sc_next_uid s) (sc_stack_index s) (sc_var_index s) (sc_string_index s)
    (sc_sorry s) (sc_code s) x (sc_parameters s) (sc_locals s).
Definition set_sc_parameters (x : list (option stree)) (s : scil_state) : scil_state :=
    mkScil (sc_stack s) (sc_typed s) (sc_valuetypes s) (sc_vars s) (sc_body s) (sc_arguments s)
    (sc_param_types s) (sc_function s) (sc_labels s) (sc_results s) (sc_started s) (sc_external s)
    (sc_finished s) (sc_main s) (sc_alias s) (sc_alias_parms s) (sc_addressable s) (sc_forced s) (sc_vtables
    s) (sc_strings s) (sc_fields s) (sc_next_uid s) (sc_stack_index s) (sc_var_index s) (sc_string_index s)
    (sc_sorry s) (sc_code s) (sc_pc s) x (sc_locals s).
Definition set_sc_locals (x : list (option stree)) (s : scil_state) : scil_state :=
    mkScil (sc_stack s) (sc_typed s) (sc_valuetypes s) (sc_vars s) (sc_body s) (sc_arguments s)
    (sc_param_types s) (sc_function s) (sc_labels s) (sc_results s) (sc_started s) (sc_external s)
    (sc_finished s) (sc_main s) (sc_alias s) (sc_alias_parms s) (sc_addressable s) (sc_forced s) (sc_vtables
    s) (sc_strings s) (sc_fields s) (sc_next_uid s) (sc_stack_index s) (sc_var_index s) (sc_string_index s)
    (sc_sorry s) (sc_code s) (sc_pc s) (sc_parameters s) x.

Abbreviation SM := (comp scil_state).

(** A new declaration number. *)
Definition scil_fresh : SM N :=
  n ← get sc_next_uid; modify (set_sc_next_uid (n + 1)%N);; mret n.

(** [sorry]: the compiler goes on, and fails in the end. *)
Definition sorry : SM unit := modify (fun s => set_sc_sorry (sc_sorry s + 1) s).

(** [scil_build_decl] (scil-trees.c). *)
Definition scil_build_decl (code : tree_code) (id : scil_name) (type : scil_type)
    (context : option scil_type) : SM scil_decl :=
  uid ← scil_fresh; mret (mkScilDecl code uid id type context).

(** The type of a node that is dereferenced. *)
Definition scil_type_of (t : stree) : SM scil_type := lift "TREE_TYPE" (scil_TREE_TYPE t).

(** [DECL_P]: the alias of a declaration stands for it. *)
Definition scil_alias_of (s : scil_state) (t : stree) : option stree :=
  match t with SDecl d => sc_alias s !! sd_uid d | _ => None end.

(** [TREE_ADDRESSABLE (expr) = 1]: on an expression just built it is not read again. *)
Definition set_addressable (t : stree) : SM unit :=
  match t with
  | SDecl d => modify (fun s => set_sc_addressable ({[sd_uid d]} ∪ sc_addressable s) s)
  | _ => mret tt
  end.

(** ** The type hooks (scil-hooks.c) *)

Section hooks.
Context `{ScilTarget}.

Definition scil_hook_signed_type (type : scil_type) : SM scil_type :=
  if scil_precision type =? 8 then mret scil_int8_type
  else if scil_precision type =? 16 then mret scil_int16_type
  else if scil_precision type =? 32 then mret scil_int32_type
  else if scil_precision type =? 64 then mret scil_int64_type
  else sorry;; mret SError_type.

Definition scil_hook_unsigned_type (type : scil_type) : SM scil_type :=
  if scil_precision type =? 8 then mret scil_uint8_type
  else if scil_precision type =? 16 then mret scil_uint16_type
  else if scil_precision type =? 32 then mret scil_uint32_type
  else if scil_precision type =? 64 then mret scil_uint64_type
  else sorry;; mret SError_type.

Definition scil_hook_signed_or_unsigned_type (unsigned_p : bool) (type : scil_type) : SM scil_type :=
  if unsigned_p then scil_hook_unsigned_type type else scil_hook_signed_type type.
End hooks.

Definition scil_hook_type_for_size (precision : Z) (unsigned_p : bool) : SM scil_type :=
  if precision <=? 8 then mret (if unsigned_p then scil_uint8_type else scil_int8_type)
  else if precision <=? 16 then mret (if unsigned_p then scil_uint16_type else scil_int16_type)
  else if precision <=? 32 then mret (if unsigned_p then scil_uint32_type else scil_int32_type)
  else if precision <=? 64 then mret (if unsigned_p then scil_uint64_type else scil_int64_type)
  else sorry;; mret SError_type.

(** The modes that [scil_hook_type_for_mode] tells apart; [None] is a null type. *)
Inductive machine_mode := QImode | HImode | SImode | DImode | TImode | BImode | VOIDmode | Complex_mode | Other_mode.
Definition scil_hook_type_for_mode (mode : machine_mode) (unsigned_p : bool) : SM (option scil_type) :=
  match mode with
  | QImode => mret (Some (if unsigned_p then scil_uint8_type else scil_int8_type))
  | HImode => mret (Some (if unsigned_p then scil_uint16_type else scil_int16_type))
  | SImode => mret (Some (if unsigned_p then scil_uint32_type else scil_int32_type))
  | TImode => mret (Some (if unsigned_p then scil_uint64_type else scil_int64_type))
  | BImode => mret (Some scil_bool_type)
  | VOIDmode => mret (Some scil_void_type)
  | Complex_mode => mret None
  | DImode | Other_mode => sorry;; mret (Some SError_type)
  end.

(** ** Functions (scil-method.c) *)

(** [add_local]: a variable of the current function. *)
Definition add_local (type : scil_type) (id : scil_name) : SM stree :=
  decl ← scil_build_decl VAR_DECL id type None;
  modify (fun s => set_sc_vars (decl :: sc_vars s) s);;
  mret (SDecl decl).

Definition scil_add_stack_variable (type : scil_type) : SM stree :=
  index ← get sc_stack_index;
  modify (set_sc_stack_index (index + 1));;
  add_local type (Stack_var_id index).

Definition scil_add_method_variable (type : scil_type) : SM stree :=
  index ← get sc_var_index;
  modify (set_sc_var_index (index + 1));;
  add_local type (Method_var_id index).

(** [scil_append_stmt] (scil-instructions.c), [scil_append_statement_to_main]
    (scil-builtins.c): locations are not modelled. *)
Definition scil_append_stmt (stmt : stree) : SM unit :=
  modify (fun s => set_sc_body (sc_body s ++ [stmt]) s).
Definition scil_append_statement_to_main (stmt : stree) : SM unit :=
  modify (fun s => set_sc_main (sc_main s ++ [stmt]) s).
