(* ===== verification/ScilStack.v ===== *)
(** * ScilStack: the evaluation stack of the second front end

    Models src/gcc/scil/scil-evalstack.c.  An item of the stack at compile time is a
    variable of the function: for each type of the stack and each depth there is one, made
    when it is first needed.  The slots never clash: what is on the stack is kept when
    something is pushed. *)
From S2P Require Import Prelude Trees ScilTrees.

(** [make_stack]: an array of null pointers. *)
Definition make_stack {A} (size : Z) (x : A) : list A := replicate (Z.to_nat size) x.

(** [xmalloc] stops the compiler for the negative sizes. *)
Definition scil_init_stacks (size : Z) : SM unit :=
  gcc_assert (0 <=? size) "xmalloc";;
  modify (set_sc_stack (mkStack 0 []));;
  modify (set_sc_typed (fun _ => make_stack size None));;
  modify (set_sc_valuetypes (make_stack size [])).

(** The pointers dangle afterwards. *)
Definition scil_free_stacks : SM unit :=
  s ← get sc_stack;
  modify (set_sc_stack (mkStack (top_index s) []));;
  modify (set_sc_typed (fun _ => []));;
  modify (set_sc_valuetypes []).

(** The type of the variables of a typed stack. *)
Definition slot_type (k : slot_kind) : scil_type :=
  match k with
  | int8_stack => scil_int8_type
  | int16_stack => scil_int16_type
  | int32_stack => scil_int32_type
  | int64_stack => scil_int64_type
  | float_stack => scil_float64_type
  | address_stack => scil_ptr_type
  end.

(** [get_stack]; [None] is [valuetype_stack]. *)
Definition get_stack (type : scil_type) : option slot_kind :=
  match type with
  | SPrim (P_int32 | P_uint32) => Some int32_stack
  | SPointer _ => Some address_stack
  | SPrim (P_int8 | P_bool | P_uint8) => Some int8_stack
  | SPrim (P_int16 | P_char | P_uint16) => Some int16_stack
  | SPrim (P_int64 | P_uint64) => Some int64_stack
  | SPrim (P_float32 | P_float64) => Some float_stack
  | _ => None
  end.

(** [a[i] = x] of an array in bounds. *)
Definition put {A} (i : Z) (x : A) (l : list A) : list A := <[Z.to_nat i := x]> l.

(** The variable of the value type [type] in a list of them. *)
Fixpoint find_valuetype (type : scil_type) (l : list (scil_type * stree)) : option stree :=
  match l with
  | [] => None
  | (t, v) :: l => if decide (t = type) then Some v else find_valuetype type l
  end.

Definition scil_get_stack_variable (type : scil_type) : SM stree :=
  i ← get (fun s => top_index (sc_stack s));
  match get_stack type with
  | Some k =>
      typed ← get sc_typed;
      var ← array_get "typed_stack.stack" (typed k) i;
      match var with
      | Some var => mret var
      | None =>
          var ← scil_add_stack_variable (slot_type k);
          modify (fun s => set_sc_typed (fun k' =>
            if decide (k' = k) then put i (Some var) (sc_typed s k) else sc_typed s k') s);;
          mret var
      end
  | None =>
      vs ← get sc_valuetypes;
      var ← array_get "typed_stack.stack" vs i;
      match find_valuetype type var with
      | Some v => mret v
      | None =>
          v ← scil_add_stack_variable type;
          modify (fun s => set_sc_valuetypes (put i ((type, v) :: var) (sc_valuetypes s)) s);;
          mret v
      end
  end.

Definition scil_stack_is_empty : SM bool := get (fun s => top_index (sc_stack s) <=? 0).
Definition scil_clear_stack : SM unit := modify (set_sc_stack (mkStack 0 [])).

Definition scil_stack_push (stack_variable : stree) : SM unit :=
  modify (fun s => set_sc_stack
    (mkStack (top_index (sc_stack s) + 1) (stack_variable :: entries (sc_stack s))) s).

(** [TREE_VALUE] of a null list is undefined. *)
Definition scil_stack_pop : SM stree :=
  st ← get sc_stack;
  match entries st with
  | r :: rest => modify (set_sc_stack (mkStack (top_index st - 1) rest));; mret r
  | [] => fail (Undefined "scil_stack_pop")
  end.
Definition scil_stack_top : SM stree :=
  st ← get sc_stack;
  match entries st with
  | r :: _ => mret r
  | [] => fail (Undefined "scil_stack_top")
  end.

(** The lists are never changed in place, so a copy is the value. *)
Definition scil_copy_stack : SM stack_t := get sc_stack.
Definition scil_set_stack (save : stack_t) : SM unit := modify (set_sc_stack save).
