(* ===== verification/ScilMethod.v ===== *)
(** * ScilMethod: the functions of the second front end

    Models src/gcc/scil/scil-method.c from the start of the definition of a method to its
    end, and the runtime of scil-mono.c that the instructions call.  Registering methods
    and their types belongs to the reader of classes and is not modelled. *)
From S2P Require Import Prelude Trees ScilTrees ScilStack.

(** What the front end asks of the middle end: [fold], and [TYPE_SIZE_UNIT] of a type
    that was laid out. *)
Class ScilMiddleEnd := {
  scil_fold : stree -> stree;
  scil_size_unit : scil_state -> scil_type -> stree
}.

(** The function being defined. *)
Definition current_function : SM scil_decl :=
  f ← get sc_function; lift "current_function_decl" f.

(** The flags for inlining and linkage are not modelled. *)
Definition scil_start_method_def (method_decl : scil_decl) (max_stack : Z) : SM bool :=
  s ← get (fun s => s);
  if bool_decide (sd_uid method_decl ∈ sc_external s) then mret false
  else if bool_decide (sd_uid method_decl ∈ sc_started s) then mret false
  else
    modify (set_sc_addressable (sc_addressable s ∖ {[sd_uid method_decl]}));;
    modify (set_sc_started ({[sd_uid method_decl]} ∪ sc_started s));;
    modify (set_sc_vars []);;
    modify (set_sc_body []);;
    modify (set_sc_arguments []);;
    modify (set_sc_function (Some method_decl));;
    modify (set_sc_param_types (match sd_type method_decl with SFunction _ l => l | _ => [] end));;
    scil_init_stacks max_stack;;
    mret true.

(** [TYPE_FIELDS]; of a node that is no record the field is used for other things. *)
Definition scil_TYPE_FIELDS (type : scil_type) : SM (list scil_decl) :=
  match type with
  | SRecord n => get (fun s => default [] (sc_fields s !! n))
  | SPrim P_void | SPointer _ => mret []
  | _ => fail (Undefined "TYPE_FIELDS")
  end.

Definition scil_add_method_parameter (name : string) : SM stree :=
  types ← get sc_param_types;
  match types with
  | [] => fail (Undefined "current_param_type")
  | type :: rest =>
      modify (set_sc_param_types rest);;
      decl ← scil_build_decl PARM_DECL (Name_id name) type None;
      (match type with
       | SPointer to =>
           fields ← scil_TYPE_FIELDS to;
           match fields with
           | f :: _ =>
               modify (fun s => set_sc_alias_parms
                 (match sc_alias s !! sd_uid f with
                  | Some _ => {[sd_uid decl]} ∪ sc_alias_parms s
                  | None => sc_alias_parms s
                  end) s)
           | [] => mret tt
           end
       | _ => mret tt
       end);;
      modify (fun s => set_sc_arguments (decl :: sc_arguments s) s);;
      mret (SDecl decl)
  end.

(** Whether a statement is a label that nothing refers to. *)
Definition unreferenced_label (forced : gset N) (stmt : stree) : bool :=
  match stmt with
  | SExpr LABEL_EXPR _ (SDecl l :: _) => bool_decide (sd_uid l ∉ forced)
  | _ => false
  end.

(** The arguments and variables are put in order, and what is left of the statements is
    handed to the middle end.  Without a statement there is no list to iterate over. *)
Definition scil_complete_method_def : SM unit :=
  method ← current_function;
  stmts ← get sc_body;
  (match stmts with [] => fail (Undefined "tsi_start") | _ => mret tt end);;
  modify (fun s => set_sc_arguments (rev (sc_arguments s)) s);;
  modify (fun s => set_sc_vars (rev (sc_vars s)) s);;
  modify (fun s => set_sc_body
    (filter (fun stmt => unreferenced_label (sc_forced s) stmt = false) (sc_body s)) s);;
  modify (fun s => set_sc_finished
    (<[sd_uid method := mkFunction (sc_arguments s) (sc_vars s) (sc_body s)]> (sc_finished s)) s);;
  scil_free_stacks.

Section method.
Context `{ScilMiddleEnd}.

(** [build_function_call_expr] (builtins.c). *)
Definition scil_function_call (fn : scil_decl) (arglist : list stree) : SM stree :=
  match sd_type fn with
  | SFunction ret _ =>
      mret (scil_fold (SExpr CALL_EXPR ret
        [SExpr ADDR_EXPR (SPointer (sd_type fn)) [SDecl fn]; SList arglist; SNull]))
  | _ => fail (Undefined "build_function_call_expr")
  end.

Definition scil_set_entry_point (method_decl : scil_decl) : SM unit :=
  call ← scil_function_call method_decl []; scil_append_statement_to_main call.

(** [DECL_STATIC_CONSTRUCTOR] is the argument [marked]. *)
Definition scil_mark_class_constructor (marked : bool) (method_def : scil_decl) : SM unit :=
  if marked then mret tt
  else call ← scil_function_call method_def []; scil_append_statement_to_main call.

(** ** The runtime (scil-mono.c) *)

(** The allocator that [scil_rt_make_builtins] declares. *)
Definition scil_newobj : scil_decl :=
  mkScilDecl FUNCTION_DECL 0 (Name_id "newobj")
    (SFunction scil_ptr_type [scil_ptr_type; scil_size_type; scil_void_type]) None.

(** [TYPE_FIELDS (scil_object_type)], the field of the table of methods. *)
Definition vtable_field : SM stree :=
  fields ← scil_TYPE_FIELDS scil_object_type;
  mret (match fields with f :: _ => SDecl f | [] => SNull end).

Definition scil_rt_get_vtable_content (object : stree) (index : Z) : SM stree :=
  field ← vtable_field;
  let index_expr := SInt scil_size_type index in
  let atype := SArray scil_ptr_type in
  let vtable := SExpr NOP_EXPR (SPointer scil_object_type) [object] in
  let vtable := SExpr INDIRECT_REF scil_object_type [vtable] in
  let vtable := SExpr COMPONENT_REF scil_ptr_type [vtable; field; SNull] in
  let vtable := SExpr NOP_EXPR (SPointer atype) [vtable] in
  let vtable := SExpr INDIRECT_REF atype [vtable] in
  let ref := SExpr ARRAY_REF scil_ptr_type [vtable; index_expr; SNull; SNull] in
  mret (SExpr OBJ_TYPE_REF scil_ptr_type [ref; object; index_expr]).

Definition scil_rt_new_object (type : scil_type) (vtable : scil_decl) : SM stree :=
  let vtable := SExpr ADDR_EXPR (SPointer (sd_type vtable)) [SDecl vtable] in
  let vtable := SExpr NOP_EXPR scil_ptr_type [vtable] in
  let ptype := SPointer type in
  size ← get (fun s => scil_size_unit s type);
  object ← scil_function_call scil_newobj [vtable; size];
  let object := SExpr NOP_EXPR ptype [object] in
  node ← scil_fresh;
  let object := SSave node ptype object in
  field ← vtable_field;
  let expr := SExpr NOP_EXPR (SPointer scil_object_type) [object] in
  let expr := SExpr INDIRECT_REF scil_object_type [expr] in
  let expr := SExpr COMPONENT_REF scil_ptr_type [expr; field; SNull] in
  scil_append_stmt (SExpr MODIFY_EXPR scil_ptr_type [expr; vtable]);;
  mret object.

(** [scil_make_string_constant] (scil-trees.c): a static variable of the literal, of which
    the elements are kept; the header of the object is not modelled.  [content] is the
    16-bit units of the literal. *)
Definition scil_make_string_constant (id : scil_name) (content : list Z) (length : Z) : SM stree :=
  if Z.of_nat (List.length content) <? length then fail (Undefined "build_string_literal")
  else
    decl ← scil_build_decl VAR_DECL id scil_string_type None;
    modify (fun s => set_sc_addressable ({[sd_uid decl]} ∪ sc_addressable s) s);;
    modify (fun s => set_sc_strings (<[sd_uid decl := take (Z.to_nat length) content]> (sc_strings s)) s);;
    mret (SDecl decl).
End method.
