(* ===== verification/ScilInstr.v ===== *)
(** * ScilInstr: the instructions of the second front end

    Models src/gcc/scil/scil-instructions.c: every instruction pops variables of the stack,
    builds an expression of them and appends a statement, which assigns it to the variable
    of the new item.  Labels carry the stack from the first branch to them. *)
From S2P Require Import Prelude Trees ScilTrees ScilStack ScilMethod.

Section instr.
Context `{ScilTarget, ScilMiddleEnd}.

(** ** Labels *)

(** The identifier of a label is the name of the function and the offset. *)
Definition label_key (program_counter : Z) : SM (N * Z) :=
  f ← current_function; mret (sd_uid f, program_counter).

Definition scil_get_label (program_counter : Z) : SM label :=
  key ← label_key program_counter;
  labels ← get sc_labels;
  match labels !! key with
  | Some l => mret l
  | None =>
      decl ← scil_build_decl LABEL_DECL (Label_id program_counter) scil_void_type None;
      let l := mkLabel decl No_data in
      modify (fun s => set_sc_labels (<[key := l]> (sc_labels s)) s);;
      modify (fun s => set_sc_forced (sc_forced s ∖ {[sd_uid decl]}) s);;
      mret l
  end.

(** [SCIL_DECL_DATA (label) = data]. *)
Definition set_label_data (program_counter : Z) (l : label) (data : label_data) : SM unit :=
  key ← label_key program_counter;
  modify (fun s => set_sc_labels (<[key := mkLabel (lb_decl l) data]> (sc_labels s)) s).

Definition scil_set_label (program_counter : Z) : SM unit :=
  l ← scil_get_label program_counter;
  (match SCIL_DECL_DATA l with
   | Saved s => scil_set_stack s
   | Passed => mret tt
   | No_data => set_label_data program_counter l Passed
   end);;
  scil_append_stmt (SExpr LABEL_EXPR scil_void_type [SDecl (lb_decl l)]).

Definition instr_goto (target : Z) : SM stree :=
  l ← scil_get_label target;
  modify (fun s => set_sc_forced ({[sd_uid (lb_decl l)]} ∪ sc_forced s) s);;
  (match SCIL_DECL_DATA l with
   | No_data => s ← scil_copy_stack; set_label_data target l (Saved s)
   | _ => mret tt
   end);;
  mret (SExpr GOTO_EXPR scil_void_type [SDecl (lb_decl l)]).

(** ** Pushing and popping *)

Definition pop_convert (type : scil_type) : SM stree :=
  v ← scil_stack_pop; mret (SExpr CONVERT_EXPR type [v]).

Definition use_alias_if_any (expr : stree) : SM stree :=
  s ← get (fun s => s); mret (default expr (scil_alias_of s expr)).

(** [TYPE_MAIN_VARIANT] of the types that are pushed is the type itself. *)
Definition instr_push (type : scil_type) (expr : stree) : SM stree :=
  expr ← use_alias_if_any expr;
  stack_var ← scil_get_stack_variable type;
  stack_type ← scil_type_of stack_var;
  let convert_expr := SExpr CONVERT_EXPR stack_type [expr] in
  scil_stack_push stack_var;;
  mret (SExpr MODIFY_EXPR stack_type [stack_var; convert_expr]).

Definition is_pointer (t : scil_type) : bool := match t with SPointer _ => true | _ => false end.

Definition instr_resolve_field (field : scil_decl) : SM stree :=
  let type := sd_type field in
  object ← scil_stack_pop;
  aliases ← get sc_alias;
  match aliases !! sd_uid field with
  | Some alias =>
      ptr_type ← scil_type_of alias;
      let addr := SExpr ADDR_EXPR ptr_type [alias] in
      let expr := SExpr PLUS_EXPR ptr_type [object; addr] in
      mret (SExpr INDIRECT_REF type [expr])
  | None =>
      otype ← scil_type_of object;
      object ← (if is_pointer otype then
                  t ← lift "DECL_CONTEXT" (sd_context field);
                  mret (SExpr INDIRECT_REF t [SExpr NOP_EXPR (SPointer t) [object]])
                else mret object);
      mret (SExpr COMPONENT_REF type [object; SDecl field; SNull])
  end.

(** The second loop: from the last parameter to the first. *)
Fixpoint pop_parameters (types : list scil_type) (p : list stree) : SM (list stree) :=
  match types with
  | [] => mret p
  | ptype :: types =>
      if decide (ptype = scil_void_type) then pop_parameters types p
      else v ← pop_convert ptype; pop_parameters types (v :: p)
  end.
Definition instr_pop_parameters (parameter_types : list scil_type) : SM (list stree) :=
  pop_parameters (rev parameter_types) [].

(** ** Operations *)

Definition instr_unop (operation : tree_code) : SM stree :=
  op ← scil_stack_pop;
  type ← scil_type_of op;
  instr_push type (SExpr operation type [op]).

(** Both operands in the type of the more precise one, and this type. *)
Definition balance (op1 op2 : stree) (type1 type2 : scil_type) : stree * stree * scil_type :=
  if scil_precision type1 <? scil_precision type2 then (SExpr CONVERT_EXPR type2 [op1], op2, type2)
  else if scil_precision type2 <? scil_precision type1 then (op1, SExpr CONVERT_EXPR type1 [op2], type1)
  else (op1, op2, type1).

Definition pop_balanced : SM (stree * stree * scil_type) :=
  op2 ← scil_stack_pop;
  op1 ← scil_stack_pop;
  type1 ← scil_type_of op1;
  type2 ← scil_type_of op2;
  mret (balance op1 op2 type1 type2).

Definition instr_binop (operation : tree_code) : SM stree :=
  '(op1, op2, type1) ← (pop_balanced : SM (stree * stree * scil_type));
  instr_push type1 (SExpr operation type1 [op1; op2]).

Definition instr_binop_typed (operation : tree_code) (type : scil_type) : SM stree :=
  '(op1, op2, _) ← pop_balanced;
  instr_push type (SExpr operation type [op1; op2]).

Definition pop_unsigned : SM (stree * stree * scil_type) :=
  s ← scil_stack_top;
  stype ← scil_type_of s;
  type ← scil_hook_unsigned_type stype;
  op2 ← pop_convert type;
  op1 ← pop_convert type;
  mret (op1, op2, type).

Definition instr_binop_un (operation : tree_code) : SM stree :=
  '(op1, op2, type) ← pop_unsigned;
  instr_push type (SExpr operation type [op1; op2]).

Definition instr_binop_un_typed (operation : tree_code) (rtype : scil_type) : SM stree :=
  '(op1, op2, _) ← pop_unsigned;
  instr_push rtype (SExpr operation rtype [op1; op2]).

Definition append_stmt (e : SM stree) : SM unit := stmt ← e; scil_append_stmt stmt.

Definition append_unop (code : tree_code) : SM unit := append_stmt (instr_unop code).
Definition append_binop (code : tree_code) : SM unit := append_stmt (instr_binop code).
Definition append_binop_un (code : tree_code) : SM unit := append_stmt (instr_binop_un code).
Definition append_compare (code : tree_code) : SM unit :=
  append_stmt (instr_binop_typed code scil_bool_type).

(** Whether the item on the top of the stack is an integer. *)
Definition integer_on_top : SM bool :=
  top ← scil_stack_top;
  type ← scil_type_of top;
  mret (bool_decide (scil_type_code type = Some INTEGER_TYPE_)).

Definition append_compare_un (int_code real_code : tree_code) : SM unit :=
  b ← integer_on_top;
  append_stmt (if (b : bool) then instr_binop_un_typed int_code scil_bool_type
          else instr_binop_typed real_code scil_bool_type).

Definition append_binop_cases (int_code real_code : tree_code) : SM unit :=
  b ← integer_on_top;
  append_stmt (instr_binop (if (b : bool) then int_code else real_code)).

(** ** Instructions *)

Definition scil_instr_branch (target : Z) : SM unit :=
  append_stmt (instr_goto target);; scil_clear_stack.

Definition scil_instr_branch_true (target : Z) : SM unit :=
  conv_expr ← pop_convert scil_bool_type;
  goto_expr ← instr_goto target;
  scil_append_stmt (SExpr COND_EXPR scil_void_type [conv_expr; goto_expr; scil_empty_stmt]).

Definition scil_instr_branch_false (target : Z) : SM unit :=
  conv_expr ← pop_convert scil_bool_type;
  goto_expr ← instr_goto target;
  scil_append_stmt (SExpr COND_EXPR scil_void_type [conv_expr; scil_empty_stmt; goto_expr]).

Definition scil_instr_compare_eq : SM unit := append_compare EQ_EXPR.
Definition scil_instr_compare_gt : SM unit := append_compare GT_EXPR.
Definition scil_instr_compare_lt : SM unit := append_compare LT_EXPR.
Definition scil_instr_compare_gt_un : SM unit := append_compare_un GT_EXPR UNGT_EXPR.
Definition scil_instr_compare_lt_un : SM unit := append_compare_un LT_EXPR UNLT_EXPR.
Definition scil_instr_compare_ge : SM unit := append_compare GE_EXPR.
Definition scil_instr_compare_le : SM unit := append_compare LE_EXPR.
Definition scil_instr_compare_ge_un : SM unit := append_compare_un GE_EXPR UNGE_EXPR.
Definition scil_instr_compare_le_un : SM unit := append_compare_un LE_EXPR UNLE_EXPR.
Definition scil_instr_compare_ne_un : SM unit := append_compare_un NE_EXPR LTGT_EXPR.

Definition scil_instr_push (variable : stree) : SM unit :=
  type ← scil_type_of variable; append_stmt (instr_push type variable).

Definition scil_instr_dup : SM unit := top ← scil_stack_top; scil_instr_push top.
Definition scil_instr_pop : SM unit := _ ← scil_stack_pop; mret tt.

Definition scil_instr_pop_into (variable : stree) : SM unit :=
  variable ← use_alias_if_any variable;
  type ← scil_type_of variable;
  value ← pop_convert type;
  scil_append_stmt (SExpr MODIFY_EXPR type [variable; value]).

Definition scil_instr_pop_into_field (field : scil_decl) : SM unit :=
  value ← pop_convert (sd_type field);
  ref_expr ← instr_resolve_field field;
  type ← scil_type_of ref_expr;
  scil_append_stmt (SExpr MODIFY_EXPR type [ref_expr; value]).

Definition scil_instr_push_field (field : scil_decl) : SM unit :=
  e ← instr_resolve_field field; scil_instr_push e.

Definition scil_instr_push_address (expr : stree) : SM unit :=
  expr ← use_alias_if_any expr;
  type ← scil_type_of expr;
  let push_expr := SExpr ADDR_EXPR (SPointer type) [expr] in
  set_addressable expr;;
  append_stmt (instr_push (SPointer type) push_expr).

Definition scil_instr_push_field_address (field : scil_decl) : SM unit :=
  e ← instr_resolve_field field; scil_instr_push_address e.

Definition scil_instr_push_virtual_method (index : Z) : SM unit :=
  expr ← pop_convert (SPointer scil_object_type);
  expr ← scil_rt_get_vtable_content expr index;
  scil_instr_push expr.

Definition scil_instr_push_integer (constant : Z) (type : scil_type) : SM unit :=
  append_stmt (instr_push type (SInt type constant)).

Definition scil_instr_push_string (constant : list Z) (length : Z) : SM unit :=
  string_index ← get sc_string_index;
  modify (set_sc_string_index (string_index + 1));;
  c ← scil_make_string_constant (String_id string_index) constant length;
  scil_instr_push_address c.

(** The types of the arguments and of the result of a method. *)
Definition method_types (type : scil_type) : SM (scil_type * list scil_type) :=
  match type with
  | SFunction ret arg_types => mret (ret, arg_types)
  | _ => fail (Undefined "TYPE_ARG_TYPES")
  end.

(** The statement of a call: its value is pushed unless it is void. *)
Definition append_call (type : scil_type) (expr : stree) : SM unit :=
  append_stmt (if decide (type = scil_void_type) then mret expr else instr_push type expr).

Definition scil_instr_call (method : scil_decl) : SM unit :=
  '(_, arg_types) ← method_types (sd_type method);
  parameters ← instr_pop_parameters arg_types;
  expr ← scil_function_call method parameters;
  type ← scil_type_of expr;
  append_call type expr.

Definition scil_instr_callvirt (method : scil_decl) (index : Z) : SM unit :=
  '(type, arg_types) ← method_types (sd_type method);
  parameters ← instr_pop_parameters arg_types;
  match parameters with
  | [] => fail (Undefined "TREE_VALUE")
  | object :: others =>
      otype ← scil_type_of object;
      node ← scil_fresh;
      let object := SSave node otype object in
      let parameters := object :: others in
      expr ← scil_rt_get_vtable_content (SExpr NOP_EXPR (SPointer scil_object_type) [object]) index;
      let expr := SExpr NOP_EXPR (SPointer (sd_type method)) [expr] in
      append_call type (scil_fold (SExpr CALL_EXPR type [expr; SList parameters; SNull]))
  end.

Definition scil_instr_call_indirect (method_type : scil_type) : SM unit :=
  '(ret, arg_types) ← method_types method_type;
  parameters ← instr_pop_parameters arg_types;
  expr ← pop_convert (SPointer method_type);
  let expr := scil_fold (SExpr CALL_EXPR ret [expr; SList parameters; SNull]) in
  type ← scil_type_of expr;
  append_call type expr.

Definition scil_instr_ret : SM unit :=
  empty ← scil_stack_is_empty;
  result_expr ← (if (empty : bool) then mret SNull
                 else
                   f ← current_function;
                   results ← get sc_results;
                   result_decl ← lift "DECL_RESULT" (results !! sd_uid f);
                   value ← pop_convert (sd_type result_decl);
                   mret (SExpr MODIFY_EXPR (sd_type result_decl) [SDecl result_decl; value]));
  scil_append_stmt (SExpr RETURN_EXPR scil_void_type [result_expr]).

Definition scil_instr_newobj (constructor : scil_decl) : SM unit :=
  type ← lift "DECL_CONTEXT" (sd_context constructor);
  vtables ← get sc_vtables;
  vtable ← lift "BINFO_VTABLE" (match type with SRecord n => vtables !! n | _ => None end);
  object ← scil_rt_new_object type vtable;
  '(_, arg_types) ← method_types (sd_type constructor);
  match arg_types with
  | [] => fail (Undefined "TREE_CHAIN")
  | _ :: arg_types =>
      parameters ← instr_pop_parameters arg_types;
      append_stmt (scil_function_call constructor (object :: parameters));;
      scil_instr_push object
  end.

Definition scil_instr_new_static_delegate : SM unit :=
  function_ptr ← scil_stack_pop;
  _ ← scil_stack_pop;
  append_stmt (instr_push scil_ptr_type function_ptr).

Definition scil_instr_add : SM unit := append_binop PLUS_EXPR.
Definition scil_instr_sub : SM unit := append_binop MINUS_EXPR.
Definition scil_instr_mul : SM unit := append_binop MULT_EXPR.
Definition scil_instr_div : SM unit := append_binop_cases TRUNC_DIV_EXPR RDIV_EXPR.
Definition scil_instr_div_un : SM unit := append_binop_un TRUNC_DIV_EXPR.
Definition scil_instr_rem : SM unit := sorry;; scil_append_stmt SError.
Definition scil_instr_rem_un : SM unit := append_binop_un TRUNC_MOD_EXPR.
Definition scil_instr_and : SM unit := append_binop BIT_AND_EXPR.
Definition scil_instr_or : SM unit := append_binop BIT_IOR_EXPR.
Definition scil_instr_xor : SM unit := append_binop BIT_XOR_EXPR.
Definition scil_instr_shl : SM unit := append_binop LSHIFT_EXPR.
Definition scil_instr_shr : SM unit := append_binop RSHIFT_EXPR.
Definition scil_instr_shr_un : SM unit := append_binop_un RSHIFT_EXPR.
Definition scil_instr_neg : SM unit := append_unop NEGATE_EXPR.
Definition scil_instr_not : SM unit := append_unop BIT_NOT_EXPR.

Definition scil_instr_convert (type : scil_type) : SM unit :=
  append_stmt (v ← scil_stack_pop; instr_push type v).
End instr.
