(* ===== verification/ScilParse.v ===== *)
(** * ScilParse: reading the code of a method in the second front end

    Models the part of src/gcc/scil/scil-pnet.c that reads the instructions of a method:
    the operands, one function for each instruction, the two tables of
    scil-instructions.def and scil-extended-instructions.def, and the loop of
    [parse_method].  What tokens stand for is the interface [ScilReader]. *)
From S2P Require Import Prelude Values MethodCode Trees ScilTrees ScilStack ScilMethod ScilInstr.

(** What a method of a delegate does, as its name says. *)
Inductive delegate_method := Delegate_invoke | Delegate_begin_invoke | Delegate_end_invoke | Delegate_other.

(** Tokens are resolved by the metadata library, which also registers classes, fields and
    methods with the front end on the way. *)
Class ScilReader := {
  scil_method : Type;
  (** [read_field] and [read_method], behind the token *)
  scil_field_of_token : Z -> SM scil_decl;
  scil_method_of_token : Z -> SM scil_method;
  (** [get_tree (method)] *)
  scil_method_tree : scil_method -> SM scil_decl;
  (** [ILTypeIsDelegate] of the owner, and what the method does for a delegate *)
  scil_delegate : scil_method -> option delegate_method;
  (** [is_static_delegate] of the owner *)
  scil_static_delegate : scil_method -> bool;
  scil_is_virtual : scil_method -> bool;
  (** [parse_vtable] and [parse_instance_fields] of the owner; [method->index] *)
  scil_parse_vtable : scil_method -> SM unit;
  scil_parse_instance_fields : scil_method -> SM unit;
  scil_method_index : scil_method -> SM Z;
  (** [register_method_type (method, NULL_TREE)] *)
  scil_method_type : scil_method -> SM scil_type;
  (** [ILImageGetUserString]: the units and the length *)
  scil_user_string : Z -> SM (list Z * Z)
}.

Section parse.
Context `{ScilTarget, ScilMiddleEnd, ScilReader}.

(** ** Operands *)

(** [code[pc + i]] and [pc += n]; [sc_code] goes up to the end of the section. *)
Definition read_code {A} (read : list Z -> Z -> option A) (n : Z) : SM A :=
  s ← get (fun s => s);
  v ← lift "code" (read (sc_code s) (sc_pc s));
  modify (set_sc_pc (uint32 (sc_pc s + n)));;
  mret v.

Definition scil_read_byte : SM Z := read_code byte_at 1.
Definition scil_read_int8 : SM Z := v ← scil_read_byte; mret (schar v).
Definition scil_read_int16 : SM Z := read_code IL_READ_INT16 2.
Definition scil_read_int32 : SM Z := read_code IL_READ_INT32 4.
Definition scil_read_int64 : SM Z := read_code IL_READ_INT64 8.
Definition scil_read_uint8 : SM Z := scil_read_byte.
Definition scil_read_uint16 : SM Z := v ← read_code IL_READ_UINT16 2; mret (uint16 (to_signed 16 v)).
Definition scil_read_uint32 : SM Z := v ← read_code IL_READ_UINT32 4; mret (uint32 (int32 v)).
Definition scil_read_uint64 : SM Z := v ← read_code IL_READ_UINT64 8; mret (to_unsigned 64 (to_signed 64 v)).
Definition scil_read_token : SM Z := scil_read_uint32.
Definition scil_read_field : SM scil_decl := token ← scil_read_token; scil_field_of_token token.
Definition scil_read_method : SM scil_method := token ← scil_read_token; scil_method_of_token token.

Definition read_target_short : SM Z :=
  offset ← scil_read_int8; pc ← get sc_pc; mret (uint32 (offset + pc)).
Definition read_target_long : SM Z :=
  offset ← scil_read_int32; pc ← get sc_pc; mret (uint32 (offset + pc)).

(** [parameters[i]] and [locals[i]]. *)
Definition parameter (i : Z) : SM stree :=
  l ← get sc_parameters; v ← array_get "parameters" l i; lift "parameters" v.
Definition local (i : Z) : SM stree :=
  l ← get sc_locals; v ← array_get "locals" l i; lift "locals" v.

(** ** Instruction functions *)

Definition not_implemented : SM unit := sorry.
Definition instr_nop : SM unit := mret tt.
(** The notice about breakpoints is given once. *)
Definition instr_break : SM unit := mret tt.

Definition instr_ldarg_n (num : Z) : SM unit := v ← parameter num; scil_instr_push v.
Definition instr_ldloc_n (num : Z) : SM unit := v ← local num; scil_instr_push v.
Definition instr_stloc_n (num : Z) : SM unit := v ← local num; scil_instr_pop_into v.
Definition instr_ldarg_s : SM unit := i ← scil_read_byte; v ← parameter i; scil_instr_push v.
Definition instr_ldarga_s : SM unit := i ← scil_read_byte; v ← parameter i; scil_instr_push_address v.
Definition instr_starg_s : SM unit := i ← scil_read_byte; v ← parameter i; scil_instr_pop_into v.
Definition instr_ldloc_s : SM unit := i ← scil_read_byte; v ← local i; scil_instr_push v.
Definition instr_ldloca_s : SM unit := i ← scil_read_byte; v ← local i; scil_instr_push_address v.
Definition instr_stloc_s : SM unit := i ← scil_read_byte; v ← local i; scil_instr_pop_into v.

Definition instr_ldnull : SM unit := scil_instr_push scil_null_pointer.
Definition instr_ldc_i4_m1 : SM unit := scil_instr_push_integer (-1) scil_int8_type.
Definition instr_ldc_i4_n (num : Z) : SM unit := scil_instr_push_integer num scil_int8_type.
Definition instr_ldc_i4_s : SM unit := i ← scil_read_byte; scil_instr_push_integer i scil_int8_type.

(** The narrowest type for a constant. *)
Definition ldc_i4_type (i : Z) : scil_type :=
  if (-128 <=? i) && (i <=? 127) then scil_int8_type
  else if (-32768 <=? i) && (i <=? 32767) then scil_int16_type
  else scil_int32_type.
(** The literal [0x80000000] has type [unsigned int], and so has its negation:
    the lower bound of the 32-bit type is 2147483648, and the type is never
    chosen. *)
Definition ldc_i8_type (i : Z) : scil_type :=
  if (- 0x80 <=? i) && (i <=? 0x7f) then scil_int8_type
  else if (- 0x8000 <=? i) && (i <=? 0x7fff) then scil_int16_type
  else if (uint32 (- 0x80000000) <=? i) && (i <=? 0x7fffffff) then scil_int32_type
  else scil_int64_type.
Definition instr_ldc_i4 : SM unit := i ← scil_read_int32; scil_instr_push_integer i (ldc_i4_type i).
(** A [HOST_WIDE_INT] of 64 bits. *)
Definition instr_ldc_i8 : SM unit := i ← scil_read_int64; scil_instr_push_integer i (ldc_i8_type i).

Definition call_delegate (d : delegate_method) (method : scil_method) : SM unit :=
  match d with
  | Delegate_invoke =>
      if scil_static_delegate method then
        type ← scil_method_type method; scil_instr_call_indirect type
      else sorry
  | Delegate_begin_invoke | Delegate_end_invoke => sorry
  | Delegate_other => internal_error "gcc_unreachable"
  end.

(** The call of a delegate is not an [else]: the instruction goes on after it. *)
Definition instr_call : SM unit :=
  method ← scil_read_method;
  (match scil_delegate method with Some d => call_delegate d method | None => mret tt end);;
  t ← scil_method_tree method;
  scil_instr_call t.

Definition instr_callvirt : SM unit :=
  method ← scil_read_method;
  match scil_delegate method with
  | Some d => call_delegate d method
  | None =>
      if scil_is_virtual method then
        scil_parse_vtable method;;
        t ← scil_method_tree method;
        index ← scil_method_index method;
        scil_instr_callvirt t index
      else t ← scil_method_tree method; scil_instr_call t
  end.

Definition instr_newobj : SM unit :=
  ctor ← scil_read_method;
  if (match scil_delegate ctor with Some _ => true | None => false end) && scil_static_delegate ctor then
    scil_instr_new_static_delegate
  else
    scil_parse_instance_fields ctor;;
    scil_parse_vtable ctor;;
    t ← scil_method_tree ctor;
    scil_instr_newobj t.

(** The macros for branches: a comparison, then a branch on its result. *)
Definition instr_branch_s (compare : SM unit) : SM unit :=
  compare;; target ← read_target_short; scil_instr_branch_true target.
Definition instr_branch (compare : SM unit) : SM unit :=
  compare;; target ← read_target_long; scil_instr_branch_true target.

Definition instr_ldstr : SM unit :=
  token ← scil_read_token;
  '(str, length) ← scil_user_string (Z.land token 0x00FFFFFF);
  scil_instr_push_string str (uint32 length).

Definition instr_ldfld : SM unit := f ← scil_read_field; scil_instr_push_field f.
Definition instr_ldflda : SM unit := f ← scil_read_field; scil_instr_push_field_address f.
Definition instr_stfld : SM unit := f ← scil_read_field; scil_instr_pop_into_field f.
Definition instr_ldsfld : SM unit := f ← scil_read_field; scil_instr_push (SDecl f).
Definition instr_ldsflda : SM unit := f ← scil_read_field; scil_instr_push_address (SDecl f).
Definition instr_stsfld : SM unit := f ← scil_read_field; scil_instr_pop_into (SDecl f).

Definition instr_ldftn : SM unit :=
  m ← scil_read_method; t ← scil_method_tree m; scil_instr_push_address (SDecl t).
Definition instr_ldvirtftn : SM unit :=
  m ← scil_read_method; scil_parse_vtable m;; i ← scil_method_index m; scil_instr_push_virtual_method i.
Definition instr_ldarg : SM unit := i ← scil_read_uint16; v ← parameter i; scil_instr_push v.
Definition instr_ldarga : SM unit := i ← scil_read_uint16; v ← parameter i; scil_instr_push_address v.
Definition instr_starg : SM unit := i ← scil_read_uint16; v ← parameter i; scil_instr_pop_into v.
Definition instr_ldloc : SM unit := i ← scil_read_uint16; v ← local i; scil_instr_push v.
Definition instr_ldloca : SM unit := i ← scil_read_uint16; v ← local i; scil_instr_push_address v.
Definition instr_stloc : SM unit := i ← scil_read_uint16; v ← local i; scil_instr_pop_into v.

(** ** The tables *)

(** The rows of scil-extended-instructions.def in their order; the table has no entries
    for the codes that the file leaves out. *)
Definition extended_instructions : list (SM unit) :=
  [not_implemented; scil_instr_compare_eq; scil_instr_compare_gt; scil_instr_compare_gt_un;
   scil_instr_compare_lt; scil_instr_compare_lt_un; instr_ldftn; instr_ldvirtftn;
   instr_ldarg; instr_ldarga; instr_starg; instr_ldloc; instr_ldloca; instr_stloc;
   not_implemented; not_implemented; not_implemented; not_implemented; not_implemented;
   not_implemented; not_implemented; not_implemented; not_implemented; not_implemented;
   not_implemented].

Definition instr_extended : SM unit :=
  i ← scil_read_byte;
  f ← array_get "extended_instructions" extended_instructions i;
  f.

(** The 256 rows of scil-instructions.def; the instructions that are missing here report
    an error, [not_implemented] or invalid, and read no operand. *)
Definition instructions (b : Z) : SM unit :=
  match b with
  | 0x00 => instr_nop
  | 0x01 => instr_break
  | 0x02 => instr_ldarg_n 0
  | 0x03 => instr_ldarg_n 1
  | 0x04 => instr_ldarg_n 2
  | 0x05 => instr_ldarg_n 3
  | 0x06 => instr_ldloc_n 0
  | 0x07 => instr_ldloc_n 1
  | 0x08 => instr_ldloc_n 2
  | 0x09 => instr_ldloc_n 3
  | 0x0A => instr_stloc_n 0
  | 0x0B => instr_stloc_n 1
  | 0x0C => instr_stloc_n 2
  | 0x0D => instr_stloc_n 3
  | 0x0E => instr_ldarg_s
  | 0x0F => instr_ldarga_s
  | 0x10 => instr_starg_s
  | 0x11 => instr_ldloc_s
  | 0x12 => instr_ldloca_s
  | 0x13 => instr_stloc_s
  | 0x14 => instr_ldnull
  | 0x15 => instr_ldc_i4_m1
  | 0x16 => instr_ldc_i4_n 0
  | 0x17 => instr_ldc_i4_n 1
  | 0x18 => instr_ldc_i4_n 2
  | 0x19 => instr_ldc_i4_n 3
  | 0x1A => instr_ldc_i4_n 4
  | 0x1B => instr_ldc_i4_n 5
  | 0x1C => instr_ldc_i4_n 6
  | 0x1D => instr_ldc_i4_n 7
  | 0x1E => instr_ldc_i4_n 8
  | 0x1F => instr_ldc_i4_s
  | 0x20 => instr_ldc_i4
  | 0x21 => instr_ldc_i8
  | 0x25 => scil_instr_dup
  | 0x26 => scil_instr_pop
  | 0x28 => instr_call
  | 0x2A => scil_instr_ret
  | 0x2B => target ← read_target_short; scil_instr_branch target
  | 0x2C => target ← read_target_short; scil_instr_branch_false target
  | 0x2D => target ← read_target_short; scil_instr_branch_true target
  | 0x2E => instr_branch_s scil_instr_compare_eq
  | 0x2F => instr_branch_s scil_instr_compare_ge
  | 0x30 => instr_branch_s scil_instr_compare_gt
  | 0x31 => instr_branch_s scil_instr_compare_le
  | 0x32 => instr_branch_s scil_instr_compare_lt
  | 0x33 => instr_branch_s scil_instr_compare_ne_un
  | 0x34 => instr_branch_s scil_instr_compare_ge_un
  | 0x35 => instr_branch_s scil_instr_compare_gt_un
  | 0x36 => instr_branch_s scil_instr_compare_le_un
  | 0x37 => instr_branch_s scil_instr_compare_lt_un
  | 0x38 => target ← read_target_long; scil_instr_branch target
  | 0x39 => target ← read_target_long; scil_instr_branch_false target
  | 0x3A => target ← read_target_long; scil_instr_branch_true target
  | 0x3B => instr_branch scil_instr_compare_eq
  | 0x3C => instr_branch scil_instr_compare_ge
  | 0x3D => instr_branch scil_instr_compare_gt
  | 0x3E => instr_branch scil_instr_compare_le
  | 0x3F => instr_branch scil_instr_compare_lt
  | 0x40 => instr_branch scil_instr_compare_ne_un
  | 0x41 => instr_branch scil_instr_compare_ge_un
  | 0x42 => instr_branch scil_instr_compare_gt_un
  | 0x43 => instr_branch scil_instr_compare_le_un
  | 0x44 => instr_branch scil_instr_compare_lt_un
  | 0x58 => scil_instr_add
  | 0x59 => scil_instr_sub
  | 0x5A => scil_instr_mul
  | 0x5B => scil_instr_div
  | 0x5C => scil_instr_div_un
  | 0x5D => scil_instr_rem
  | 0x5E => scil_instr_rem_un
  | 0x5F => scil_instr_and
  | 0x60 => scil_instr_or
  | 0x61 => scil_instr_xor
  | 0x62 => scil_instr_shl
  | 0x63 => scil_instr_shr
  | 0x64 => scil_instr_shr_un
  | 0x65 => scil_instr_neg
  | 0x66 => scil_instr_not
  | 0x67 => scil_instr_convert scil_int8_type
  | 0x68 => scil_instr_convert scil_int16_type
  | 0x69 => scil_instr_convert scil_int32_type
  | 0x6A => scil_instr_convert scil_int64_type
  | 0x6B => scil_instr_convert scil_float32_type
  | 0x6C => scil_instr_convert scil_float64_type
  | 0x6D => scil_instr_convert scil_uint32_type
  | 0x6E => scil_instr_convert scil_uint64_type
  | 0x6F => instr_callvirt
  | 0x72 => instr_ldstr
  | 0x73 => instr_newobj
  | 0x7B => instr_ldfld
  | 0x7C => instr_ldflda
  | 0x7D => instr_stfld
  | 0x7E => instr_ldsfld
  | 0x7F => instr_ldsflda
  | 0x80 => instr_stsfld
  | 0xD1 => scil_instr_convert scil_uint16_type
  | 0xD2 => scil_instr_convert scil_uint8_type
  | 0xD3 => scil_instr_convert scil_native_int_type
  | 0xE0 => scil_instr_convert scil_native_uint_type
  | 0xFE => instr_extended
  | _ => not_implemented
  end.

(** ** Methods *)

(** One turn of the loop of [parse_method]. *)
Definition parse_one : SM unit :=
  pc ← get sc_pc;
  scil_set_label pc;;
  b ← scil_read_byte;
  instructions b.

(** The loop; the offset grows with every instruction, so one unit of fuel for each byte
    is enough. *)
Fixpoint parse_code (fuel : nat) (code_length : Z) : SM unit :=
  pc ← get sc_pc;
  if pc <? code_length then
    match fuel with
    | O => fail Out_of_fuel
    | S fuel => parse_one;; parse_code fuel code_length
    end
  else mret tt.

(** The parameters; writing behind the array is undefined. *)
Fixpoint add_parameters (names : list string) (p : Z) : SM unit :=
  match names with
  | [] => mret tt
  | name :: names =>
      decl ← scil_add_method_parameter name;
      l ← get sc_parameters;
      if p <? Z.of_nat (length l) then
        modify (set_sc_parameters (put p (Some decl) l));; add_parameters names (p + 1)
      else fail (Undefined "parameters")
  end.

Fixpoint add_locals (types : list (SM scil_type)) : SM unit :=
  match types with
  | [] => mret tt
  | ltype :: types =>
      type ← ltype;
      decl ← scil_add_method_variable type;
      modify (fun s => set_sc_locals (sc_locals s ++ [Some decl]) s);;
      add_locals types
  end.

(** The parameters, the locals and the instructions: [body] is what [ILMethodGetCode] gives,
    with the bytes from the header to the end of the section; [names] those of the
    [ILParameter]s; [local_types] is [get_var_type_tree] of the locals. *)
Definition parse_body (body : ILMethodCode) (addr : list Z) (static_p : bool) (num_params : Z)
    (names : list string) (local_types : list (SM scil_type)) : SM unit :=
  let num_parameters := if static_p then num_params else num_params + 1 in
  modify (set_sc_parameters (replicate (Z.to_nat num_parameters) None));;
  add_parameters ((if static_p then [] else ["this$"%string]) ++ names) 0;;
  add_locals (match localVarSig body with Some _ => local_types | None => [] end);;
  modify (set_sc_code (drop (Z.to_nat (code body)) addr));;
  modify (set_sc_pc 0);;
  parse_code (Z.to_nat (codeLen body)) (codeLen body).

(** [parse_method]; the attributes for the hardware are not modelled. *)
Definition parse_method (method : scil_decl) (body : option (ILMethodCode * list Z)) (static_p : bool)
    (num_params : Z) (names : list string) (local_types : list (SM scil_type)) : SM unit :=
  match body with
  | None =>
      started ← scil_start_method_def method 0;
      if (started : bool) then sorry else mret tt
  | Some (body, addr) =>
      started ← scil_start_method_def method (maxStack body);
      if negb started then mret tt
      else
        parse_body body addr static_p num_params names local_types;;
        scil_complete_method_def;;
        modify (set_sc_parameters []);;
        modify (set_sc_locals [])
  end.
End parse.
