(* ===== verification/ScilSlots.v ===== *)
(** * ScilSlots: the variables of the stack never clash

    The variables that scil-evalstack.c makes belong to one depth each, and an item of the
    stack is a variable of its own depth, in the current stack and in those that labels
    carry.  So the variable that an instruction assigns to is not on the stack.  At the end
    are concrete instances of the interfaces, and a method, for the examples. *)
From S2P Require Import Prelude Values ILTypes MethodCode Trees ScilTrees ScilStack ScilMethod ScilInstr ScilParse.

(** ** The invariant *)

(** The variable [d] was made for the depth [i]. *)
Definition slot_at (s : scil_state) (i : nat) (d : scil_decl) : Prop :=
  (exists k, sc_typed s k !! i = Some (Some (SDecl d)) /\ sd_type d = slot_type k) \/
  (exists l t, sc_valuetypes s !! i = Some l /\ (t, SDecl d) ∈ l).

(** Every item is a variable of its depth. *)
Definition stack_in (s : scil_state) (st : stack_t) : Prop :=
  top_index st = Z.of_nat (length (entries st)) /\
  forall j e, entries st !! j = Some e -> exists d, e = SDecl d /\ slot_at s (length (entries st) - 1 - j) d.

(** The labels of the current function. *)
Definition own_label (s : scil_state) (pc : Z) : option label :=
  f ← sc_function s; sc_labels s !! (sd_uid f, pc).

Record slots_ok (s : scil_state) : Prop := {
  slots_typed k i v : sc_typed s k !! i = Some (Some v) -> exists d, v = SDecl d /\ sd_type d = slot_type k;
  slots_value i l t v : sc_valuetypes s !! i = Some l -> (t, v) ∈ l -> exists d, v = SDecl d;
  slots_fresh i d : slot_at s i d -> (sd_uid d < sc_next_uid s)%N;
  slots_distinct i j d e : slot_at s i d -> slot_at s j e -> sd_uid d = sd_uid e -> i = j /\ d = e;
  slots_stack : stack_in s (sc_stack s);
  slots_labels pc l st : own_label s pc = Some l -> SCIL_DECL_DATA l = Saved st -> stack_in s st
}.

(** What the invariant is about is the same. *)
Record same_stack (s s' : scil_state) : Prop := {
  same_st : sc_stack s' = sc_stack s;
  same_typed k : sc_typed s' k = sc_typed s k;
  same_value : sc_valuetypes s' = sc_valuetypes s;
  same_own pc : own_label s' pc = own_label s pc;
  same_next : (sc_next_uid s <= sc_next_uid s')%N
}.

Lemma slot_at_same s s' i d : same_stack s s' -> slot_at s' i d <-> slot_at s i d.
Proof.
  intros [_ Ht Hv _ _]. unfold slot_at. rewrite Hv. split; (intros [(k & E) | E]; [left; exists k | by right]).
  - by rewrite <- Ht.
  - by rewrite Ht.
Qed.

Lemma stack_in_mono s s' st :
  (forall i d, slot_at s i d -> slot_at s' i d) -> stack_in s st -> stack_in s' st.
Proof. intros Hm [Hl He]. split; [done |]. intros j e Hj. destruct (He j e Hj) as (d & -> & Hd). exists d. auto. Qed.

Lemma slots_ok_same s s' : same_stack s s' -> slots_ok s -> slots_ok s'.
Proof.
  intros Hs [H1 H2 H3 H4 H5 H6]. pose proof (slot_at_same s s') as Hsl.
  assert (forall st, stack_in s st -> stack_in s' st) as Hst
    by (intros st; apply stack_in_mono; intros i d; by rewrite (Hsl i d Hs)).
  split.
  - intros k i v. rewrite (same_typed _ _ Hs). apply H1.
  - intros i l t v. rewrite (same_value _ _ Hs). apply H2.
  - intros i d. rewrite (Hsl i d Hs). intros Hd. pose proof (same_next _ _ Hs). specialize (H3 i d Hd). lia.
  - intros i j d e. rewrite (Hsl i d Hs), (Hsl j e Hs). apply H4.
  - rewrite (same_st _ _ Hs). auto.
  - intros pc l st. rewrite (same_own _ _ Hs). eauto.
Qed.

(** ** Computations that keep the invariant *)

Abbreviation any := (fun _ : failure => True).

Definition keeps_slots {A} (m : SM A) : Prop :=
  forall s, slots_ok s -> wp any m (fun _ s' => slots_ok s' /\ sc_function s' = sc_function s) s.

(** A computation that does not touch the stack. *)
Definition off_stack {A} (m : SM A) : Prop :=
  forall s, wp any m (fun _ s' => same_stack s s' /\ sc_function s' = sc_function s) s.

Lemma off_stack_keeps {A} (m : SM A) : off_stack m -> keeps_slots m.
Proof.
  intros Hm s Hs. eapply wp_mono; [| apply Hm]. intros a s' [H1 H2].
  split; [by eapply slots_ok_same | done].
Qed.

Lemma keeps_ret {A} (a : A) : keeps_slots (mret a).
Proof. intros s Hs. by apply wp_ret. Qed.
Lemma keeps_fail {A} f : keeps_slots (fail f : SM A).
Proof. done. Qed.
Lemma keeps_get {A} (f : scil_state -> A) : keeps_slots (get f).
Proof. intros s Hs. by apply wp_get. Qed.
Lemma keeps_lift {A} w (o : option A) : keeps_slots (lift w o).
Proof. destruct o; [apply keeps_ret | apply keeps_fail]. Qed.
Lemma keeps_bind {A B} (m : SM A) (f : A -> SM B) :
  keeps_slots m -> (forall a, keeps_slots (f a)) -> keeps_slots (m ≫= f).
Proof.
  intros Hm Hf s Hs. apply wp_bind. eapply wp_mono; [| apply (Hm s Hs)].
  intros a s' [Hs' Hfn]. eapply wp_mono; [| apply (Hf a s' Hs')]. cbn. intros b t [? ?]. split; [done | congruence].
Qed.
Lemma keeps_array {A} w (l : list A) i : keeps_slots (array_get w l i).
Proof. unfold array_get. case_match; [apply keeps_ret | apply keeps_fail]. Qed.

Lemma same_stack_refl s : same_stack s s.
Proof. by split. Qed.

Lemma keeps_modify f :
  (forall s, same_stack s (f s)) -> (forall s, sc_function (f s) = sc_function s) -> keeps_slots (modify f).
Proof. intros Hf Hg. apply off_stack_keeps. intros s. apply wp_modify. auto. Qed.

Create HintDb slots.
#[export] Hint Resolve keeps_ret keeps_fail keeps_get keeps_lift keeps_array : slots.

(** One step through a computation; the parts that are named are looked up. *)
Ltac keeps_step :=
  lazymatch goal with
  | |- keeps_slots (_ ≫= _) => apply keeps_bind; [| intros ?]
  | |- keeps_slots (match ?x with _ => _ end) => destruct x
  | |- keeps_slots (if ?x then _ else _) => destruct x
  | |- keeps_slots (let _ := _ in _) => cbv zeta
  | |- keeps_slots ((fun _ => _) _) => cbv beta
  | |- keeps_slots (modify _) =>
      first [solve [eauto 2 with slots]
            | apply keeps_modify; [intros ?; split; cbn; try done; lia | done]]
  | |- _ => solve [eauto 3 with slots]
  end.
Ltac keeps := intros; repeat keeps_step.

(** ** The stack *)

Lemma array_get_run {S A} w (l : list A) i (Q : A -> S -> Prop) s :
  (forall x, 0 <= i -> l !! Z.to_nat i = Some x -> Q x s) -> wp any (array_get w l i) Q s.
Proof.
  intros HQ. unfold array_get. destruct (Z.leb_spec 0 i); [| done].
  destruct (l !! Z.to_nat i) as [x |] eqn:E; [| done]. apply wp_ret. by apply HQ.
Qed.

(** A new variable. *)
Definition new_decl (s : scil_state) (type : scil_type) : scil_decl :=
  mkScilDecl VAR_DECL (sc_next_uid s) (Stack_var_id (sc_stack_index s)) type None.
Definition added (s : scil_state) (type : scil_type) : scil_state :=
  set_sc_vars (new_decl s type :: sc_vars s)
    (set_sc_next_uid (sc_next_uid s + 1)%N (set_sc_stack_index (sc_stack_index s + 1) s)).

Lemma add_stack_variable_run s type : scil_add_stack_variable type s = Done (SDecl (new_decl s type)) (added s type).
Proof. reflexivity. Qed.

(** Giving a depth one more variable. *)
Lemma slots_ok_add s s' i d :
  slots_ok s -> sc_stack s' = sc_stack s -> (forall pc, own_label s' pc = own_label s pc) ->
  (sc_next_uid s <= sd_uid d < sc_next_uid s')%N ->
  (forall k j v, sc_typed s' k !! j = Some (Some v) ->
     sc_typed s k !! j = Some (Some v) \/ (j = i /\ v = SDecl d /\ sd_type d = slot_type k)) ->
  (forall j l t v, sc_valuetypes s' !! j = Some l -> (t, v) ∈ l ->
     (exists l0, sc_valuetypes s !! j = Some l0 /\ (t, v) ∈ l0) \/ (j = i /\ v = SDecl d)) ->
  (forall j e, slot_at s j e -> slot_at s' j e) ->
  slots_ok s'.
Proof.
  intros [H1 H2 H3 H4 H5 H6] Hst Hown Huid Ht Hv Hm.
  assert (forall j e, slot_at s' j e -> slot_at s j e \/ (j = i /\ e = d)) as Hs.
  { intros j e [(k & E & Ek) | (l & t & E & Hin)].
    - destruct (Ht k j _ E) as [E' | (-> & [= ->] & _)]; [left; left; by exists k | by right].
    - destruct (Hv j l t _ E Hin) as [(l0 & E' & Hin') | (-> & [= ->])]; [left; right; eauto | by right]. }
  split.
  - intros k j v E. destruct (Ht k j v E) as [E' | (-> & -> & Hd)]; [by eapply H1 | by exists d].
  - intros j l t v E Hin. destruct (Hv j l t v E Hin) as [(l0 & E' & Hin') | (-> & ->)]; [by eapply H2 | by exists d].
  - intros j e He. destruct (Hs j e He) as [He' | [-> ->]]; [specialize (H3 j e He'); lia | lia].
  - intros j j' e e' He He' E. destruct (Hs j e He) as [Hj | [-> ->]], (Hs j' e' He') as [Hj' | [-> ->]]; try done.
    + by apply (H4 j j').
    + specialize (H3 j e Hj). lia.
    + specialize (H3 j' e' Hj'). lia.
  - rewrite Hst. eapply stack_in_mono; eauto.
  - intros pc l st El Ed. rewrite Hown in El. eapply stack_in_mono; [exact Hm |]. eauto.
Qed.

Lemma put_lookup {A} i (x : A) l j y :
  put i x l !! j = Some y -> l !! j = Some y \/ (j = Z.to_nat i /\ y = x).
Proof.
  unfold put. destruct (decide (j = Z.to_nat i)) as [-> | Hne].
  - intros E. destruct (decide (Z.to_nat i < length l)%nat).
    + rewrite list_lookup_insert_eq in E by done. right. split; congruence.
    + rewrite list_insert_ge in E by lia. by left.
  - rewrite list_lookup_insert_ne by done. by left.
Qed.

Lemma put_eq {A} i (x y : A) l : l !! Z.to_nat i = Some y -> put i x l !! Z.to_nat i = Some x.
Proof. intros E. apply list_lookup_insert_eq. by apply lookup_lt_Some in E. Qed.

Lemma find_valuetype_in type l v : find_valuetype type l = Some v -> (type, v) ∈ l.
Proof.
  induction l as [| [t w] l IH]; [done |]. cbn. case_decide as E; [intros [= ->]; subst; by left | intros H; right; by apply IH].
Qed.

(** The variable that is given out is one of the depth of the stack. *)
Lemma get_stack_variable_ok type s :
  slots_ok s ->
  wp any (scil_get_stack_variable type) (fun v s' =>
    slots_ok s' /\ sc_function s' = sc_function s /\ sc_stack s' = sc_stack s /\
    exists d, v = SDecl d /\ slot_at s' (Z.to_nat (top_index (sc_stack s))) d) s.
Proof.
  intros Hs. unfold scil_get_stack_variable. apply wp_bind, wp_get.
  set (i := top_index (sc_stack s)). destruct (get_stack type) as [k |].
  - apply wp_bind, wp_get, wp_bind, array_get_run. intros var Hi E. destruct var as [v |].
    { destruct (slots_typed s Hs k _ v E) as (d & -> & Hd). apply wp_ret. split_and!; try done.
      exists d. split; [done |]. left. by exists k. }
    apply wp_bind. unfold wp. rewrite add_stack_variable_run.
    match goal with |- match (modify ?f ;; mret ?a) ?s0 with _ => _ end => set (s' := f s0); change (match (mret a : SM stree) s' with Done a' t => slots_ok t /\ sc_function t = sc_function s /\ sc_stack t = sc_stack s /\ exists d, a' = SDecl d /\ slot_at t (Z.to_nat i) d | Failed _ => True end) end.
    cbn [mret comp_ret]. set (d := new_decl s (slot_type k)) in *.
    assert (forall j e, slot_at s j e -> slot_at s' j e) as Hm.
    { intros j e [(k' & E' & Hk) | H]; [| by right]. left. exists k'. split; [| done]. cbn.
      destruct (decide (k' = k)) as [-> |]; [| done]. destruct (decide (j = Z.to_nat i)) as [-> | Hne]; [congruence |].
      unfold put. by rewrite list_lookup_insert_ne. }
    split_and!; [| done | done |].
    + apply (slots_ok_add s s' (Z.to_nat i) d); try done; [cbn; lia | |].
      * intros k' j v. cbn. destruct (decide (k' = k)) as [-> |]; [| by left]. intros Ep.
        destruct (put_lookup _ _ _ _ _ Ep) as [? | [-> [= ->]]]; [by left | right; done].
      * intros j l t v El Hin. left. by exists l.
    + exists d. split; [done |]. left. exists k. split; [| done]. cbn. rewrite decide_True by done. by eapply put_eq.
  - apply wp_bind, wp_get, wp_bind, array_get_run. intros var Hi E.
    destruct (find_valuetype type var) as [v |] eqn:Ef.
    { apply find_valuetype_in in Ef. destruct (slots_value s Hs _ var type v E Ef) as [d ->]. apply wp_ret.
      split_and!; try done. exists d. split; [done |]. right. eauto. }
    apply wp_bind. unfold wp. rewrite add_stack_variable_run.
    match goal with |- match (modify ?f ;; mret ?a) ?s0 with _ => _ end => set (s' := f s0); change (match (mret a : SM stree) s' with Done a' t => slots_ok t /\ sc_function t = sc_function s /\ sc_stack t = sc_stack s /\ exists d, a' = SDecl d /\ slot_at t (Z.to_nat i) d | Failed _ => True end) end.
    cbn [mret comp_ret]. set (d := new_decl s type) in *.
    assert (forall j e, slot_at s j e -> slot_at s' j e) as Hm.
    { intros j e [H | (l & t & El & Hin)]; [by left |]. right. cbn.
      destruct (decide (j = Z.to_nat i)) as [-> | Hne].
      - exists ((type, SDecl d) :: l), t. assert (l = var) as -> by congruence. split; [by eapply put_eq | by right].
      - exists l, t. split; [| done]. unfold put. by rewrite list_lookup_insert_ne. }
    split_and!; [| done | done |].
    + apply (slots_ok_add s s' (Z.to_nat i) d); try done; [cbn; lia | |].
      * intros k j v. by left.
      * intros j l t v. cbn. intros Ep Hin. destruct (put_lookup _ _ _ _ _ Ep) as [? | [-> ->]]; [left; eauto |].
        apply elem_of_cons in Hin as [[= -> ->] | Hin]; [by right |]. left. by exists var.
    + exists d. split; [done |]. right. exists ((type, SDecl d) :: var), type. split; [by eapply put_eq | by left].
Qed.

Lemma slots_ok_stack s st : slots_ok s -> stack_in s st -> slots_ok (set_sc_stack st s).
Proof. by intros [H1 H2 H3 H4 H5 H6] Hst. Qed.

Lemma keeps_pop : keeps_slots scil_stack_pop.
Proof.
  intros s Hs. unfold scil_stack_pop. apply wp_bind, wp_get.
  destruct (sc_stack s) as [top [| r rest]] eqn:E; [done |]. cbn [entries top_index]. apply wp_bind, wp_modify, wp_ret.
  split; [| done]. apply slots_ok_stack; [done |]. destruct (slots_stack s Hs) as [Hl He]. rewrite E in Hl, He.
  cbn [entries top_index length] in *. split; [cbn; lia |]. intros j e Hj. cbn in *.
  destruct (He (S j) e Hj) as (d & -> & Hd). exists d. split; [done |].
  replace (length rest - 1 - j)%nat with (S (length rest) - 1 - S j)%nat by lia. done.
Qed.

Lemma keeps_top : keeps_slots scil_stack_top.
Proof. intros s Hs. unfold scil_stack_top. apply wp_bind, wp_get. case_match; [done | by apply wp_ret]. Qed.

Lemma keeps_clear : keeps_slots scil_clear_stack.
Proof. intros s Hs. apply wp_modify. split; [| done]. apply slots_ok_stack; [done |]. by split. Qed.

(** The variable of the depth of the stack can be pushed. *)
Lemma stack_in_push s st d :
  stack_in s st -> slot_at s (Z.to_nat (top_index st)) d ->
  stack_in s (mkStack (top_index st + 1) (SDecl d :: entries st)).
Proof.
  intros [Hl He] Hd. split; [cbn; lia |]. intros [| j] e Hj; cbn in Hj |- *.
  - injection Hj as <-. exists d. split; [done |]. by replace (length (entries st) - 0 - 0)%nat with (Z.to_nat (top_index st)) by lia.
  - destruct (He j e Hj) as (d' & -> & Hd'). exists d'. split; [done |].
    apply lookup_lt_Some in Hj. by replace (length (entries st) - 0 - S j)%nat with (length (entries st) - 1 - j)%nat by lia.
Qed.

Lemma keeps_alias expr : keeps_slots (use_alias_if_any expr).
Proof. unfold use_alias_if_any. keeps. Qed.

Section keeps.
Context `{ScilTarget, ScilMiddleEnd}.

Lemma keeps_push type expr : keeps_slots (instr_push type expr).
Proof.
  intros s Hs. unfold instr_push. apply wp_bind. eapply wp_mono; [| by apply keeps_alias].
  intros e s1 [Hs1 Hf1]. apply wp_bind. eapply wp_mono; [| by apply get_stack_variable_ok].
  intros v s2 (Hs2 & Hf2 & Hst & d & -> & Hd). apply wp_bind, wp_ret, wp_bind. unfold scil_stack_push.
  apply wp_modify, wp_ret. split; [| cbn; congruence]. apply slots_ok_stack; [done |].
  apply stack_in_push; [by apply slots_stack | by rewrite Hst].
Qed.

(** ** Labels *)

Lemma own_label_insert s f pc l pc' :
  sc_function s = Some f ->
  own_label (set_sc_labels (<[(sd_uid f, pc) := l]> (sc_labels s)) s) pc'
  = if decide (pc' = pc) then Some l else own_label s pc'.
Proof.
  intros Hf. unfold own_label. cbn. rewrite Hf. cbn. case_decide as E.
  - subst. by rewrite lookup_insert_eq.
  - rewrite lookup_insert_ne; [done | congruence].
Qed.

(** A label that carries no stack, or one that is good. *)
Lemma slots_ok_label s f pc l :
  slots_ok s -> sc_function s = Some f -> (forall st, SCIL_DECL_DATA l = Saved st -> stack_in s st) ->
  slots_ok (set_sc_labels (<[(sd_uid f, pc) := l]> (sc_labels s)) s).
Proof.
  intros Hs Hf Hl. destruct Hs as [H1 H2 H3 H4 H5 H6]. split; [exact H1 | exact H2 | exact H3 | exact H4 | exact H5 |].
  intros pc' l' st. rewrite own_label_insert by done. case_decide; [intros [= <-]; apply Hl | apply H6].
Qed.

Lemma keeps_get_label_data pc s :
  slots_ok s ->
  wp any (scil_get_label pc) (fun l s' => slots_ok s' /\ sc_function s' = sc_function s /\ sc_stack s' = sc_stack s /\
    (forall st, SCIL_DECL_DATA l = Saved st -> stack_in s' st)) s.
Proof.
  intros Hs. unfold scil_get_label, label_key, current_function. apply wp_bind, wp_bind, wp_bind, wp_get.
  destruct (sc_function s) as [f |] eqn:Hf; [| done]. apply wp_ret, wp_ret, wp_bind, wp_get.
  destruct (sc_labels s !! (sd_uid f, pc)) as [l |] eqn:El.
  - apply wp_ret. split_and!; try done. intros st E. eapply slots_labels; [done | | done]. unfold own_label. by rewrite Hf.
  - unfold scil_build_decl, scil_fresh. repeat wp_step. split_and!; try done.
    set (s1 := set_sc_next_uid (sc_next_uid s + 1)%N s).
    assert (slots_ok s1) as Hs1 by (apply (slots_ok_same s); [split; try done; cbn; lia | done]).
    match goal with |- slots_ok ?s' => apply (slots_ok_same (set_sc_labels (<[(sd_uid f, pc) :=
      mkLabel (mkScilDecl LABEL_DECL (sc_next_uid s) (Label_id pc) scil_void_type None) No_data]> (sc_labels s1)) s1) s') end;
      [by split | by apply slots_ok_label].
Qed.

Lemma keeps_label_data pc l data s :
  slots_ok s -> (forall st, data = Saved st -> stack_in s st) ->
  wp any (set_label_data pc l data) (fun _ s' => slots_ok s' /\ sc_function s' = sc_function s) s.
Proof.
  intros Hs Hd. unfold set_label_data, label_key, current_function. apply wp_bind, wp_bind, wp_bind, wp_get.
  destruct (sc_function s) as [f |] eqn:Hf; [| done]. apply wp_ret, wp_ret, wp_modify. split; [| done].
  by apply slots_ok_label.
Qed.

Lemma scil_keeps_append stmt : keeps_slots (scil_append_stmt stmt).
Proof. unfold scil_append_stmt. keeps. Qed.

Lemma keeps_set_label pc : keeps_slots (scil_set_label pc).
Proof.
  intros s Hs. unfold scil_set_label. apply wp_bind. eapply wp_mono; [| by apply keeps_get_label_data].
  intros l s1 (Hs1 & Hf1 & _ & Hd). apply wp_bind.
  assert (forall s2, slots_ok s2 /\ sc_function s2 = sc_function s1 ->
    wp any (scil_append_stmt (SExpr LABEL_EXPR scil_void_type [SDecl (lb_decl l)]))
      (fun _ s' => slots_ok s' /\ sc_function s' = sc_function s) s2) as Hend.
  { intros s2 [Hs2 Hf2]. eapply wp_mono; [| by apply scil_keeps_append]. cbn. intros _ s3 [? ?]. split; [done | congruence]. }
  destruct (SCIL_DECL_DATA l) eqn:E.
  - eapply wp_mono; [intros ? ?; apply Hend | by apply keeps_label_data].
  - apply wp_ret, Hend. done.
  - apply wp_modify, Hend. split; [| done]. apply slots_ok_stack; auto.
Qed.

Lemma keeps_goto target : keeps_slots (instr_goto target).
Proof.
  intros s Hs. unfold instr_goto. apply wp_bind. eapply wp_mono; [| by apply keeps_get_label_data].
  intros l s1 (Hs1 & Hf1 & _ & Hd). apply wp_bind, wp_modify, wp_bind.
  set (s2 := set_sc_forced _ s1). assert (slots_ok s2) as Hs2 by (eapply slots_ok_same; [| exact Hs1]; by split).
  destruct (SCIL_DECL_DATA l) eqn:E; [| by repeat wp_step | by repeat wp_step].
  unfold scil_copy_stack. apply wp_bind, wp_get.
  eapply wp_mono; [| apply keeps_label_data; [done |]].
  - cbn. intros _ s3 [? ?]. split; [done | congruence].
  - intros st [= <-]. exact (slots_stack s2 Hs2).
Qed.
End keeps.

#[export] Hint Resolve keeps_pop keeps_top keeps_clear keeps_alias keeps_push scil_keeps_append keeps_set_label keeps_goto : slots.

(** ** The instructions *)

Ltac head_of t := lazymatch t with ?f _ => head_of f | _ => t end.
(** A part that has no lemma of its own is unfolded. *)
Ltac keeps_unfold :=
  lazymatch goal with |- keeps_slots ?m => let h := head_of m in unfold h end.
Ltac keeps_all := intros; repeat first [keeps_step | progress keeps_unfold].

(** Resolving tokens leaves the stack, the labels and the current function alone. *)
Class ScilReaderOk `{ScilReader} : Prop := {
  field_of_token_off t : off_stack (scil_field_of_token t);
  method_of_token_off t : off_stack (scil_method_of_token t);
  method_tree_off m : off_stack (scil_method_tree m);
  parse_vtable_off m : off_stack (scil_parse_vtable m);
  parse_instance_fields_off m : off_stack (scil_parse_instance_fields m);
  method_index_off m : off_stack (scil_method_index m);
  method_type_off m : off_stack (scil_method_type m);
  user_string_off t : off_stack (scil_user_string t)
}.

Section instructions.
Context `{ScilTarget, ScilMiddleEnd, ScilReaderOk}.

Lemma keeps_field_of_token t : keeps_slots (scil_field_of_token t).
Proof. apply off_stack_keeps, field_of_token_off. Qed.
Lemma keeps_method_of_token t : keeps_slots (scil_method_of_token t).
Proof. apply off_stack_keeps, method_of_token_off. Qed.
Lemma keeps_method_tree m : keeps_slots (scil_method_tree m).
Proof. apply off_stack_keeps, method_tree_off. Qed.
Lemma keeps_parse_vtable m : keeps_slots (scil_parse_vtable m).
Proof. apply off_stack_keeps, parse_vtable_off. Qed.
Lemma keeps_parse_instance_fields m : keeps_slots (scil_parse_instance_fields m).
Proof. apply off_stack_keeps, parse_instance_fields_off. Qed.
Lemma keeps_method_index m : keeps_slots (scil_method_index m).
Proof. apply off_stack_keeps, method_index_off. Qed.
Lemma keeps_method_type m : keeps_slots (scil_method_type m).
Proof. apply off_stack_keeps, method_type_off. Qed.
Lemma keeps_user_string t : keeps_slots (scil_user_string t).
Proof. apply off_stack_keeps, user_string_off. Qed.
#[local] Hint Resolve keeps_field_of_token keeps_method_of_token keeps_method_tree keeps_parse_vtable
  keeps_parse_instance_fields keeps_method_index keeps_method_type keeps_user_string : slots.

Lemma keeps_fresh : keeps_slots scil_fresh.
Proof. intros s Hs. unfold scil_fresh. repeat wp_step. split; [| done]. apply (slots_ok_same s); [| done]. split; try done. cbn. lia. Qed.
Lemma keeps_pop_parameters types p : keeps_slots (pop_parameters types p).
Proof. revert p. induction types as [| t types IH]; intros p; cbn [pop_parameters]; keeps_all; auto with slots. Qed.
Lemma keeps_sorry : keeps_slots sorry.
Proof. unfold sorry. keeps. Qed.
#[local] Hint Resolve keeps_fresh keeps_pop_parameters keeps_sorry : slots.

(** An entry of a table. *)
Lemma keeps_table {A} w (l : list (SM A)) i : Forall keeps_slots l -> keeps_slots (f ← array_get w l i; f).
Proof.
  intros Hl s Hs. apply wp_bind, array_get_run. intros f _ E. by apply (proj1 (Forall_lookup _ _) Hl _ _ E).
Qed.

Lemma keeps_extended : keeps_slots instr_extended.
Proof.
  unfold instr_extended. apply keeps_bind; [keeps_all | intros i]. apply keeps_table. unfold extended_instructions.
  repeat (apply Forall_cons; split; [keeps_all |]). by apply Forall_nil.
Qed.
#[local] Hint Resolve keeps_extended : slots.

Lemma keeps_instructions b : keeps_slots (instructions b).
Proof. unfold instructions. keeps_all. Qed.
#[local] Hint Resolve keeps_instructions : slots.

Lemma keeps_parse_code fuel n : keeps_slots (parse_code fuel n).
Proof. induction fuel as [| fuel IH]; cbn [parse_code]; keeps_all; auto. Qed.

(** ** A method *)

Lemma keeps_add_parameters names p : keeps_slots (add_parameters names p).
Proof.
  revert p. induction names as [| name names IH]; intros p; cbn [add_parameters]; [auto with slots |].
  apply keeps_bind; [| intros; keeps_all; auto].
  unfold scil_add_method_parameter, scil_TYPE_FIELDS, scil_build_decl. keeps_all.
Qed.

Lemma keeps_add_locals types : Forall off_stack types -> keeps_slots (add_locals types).
Proof.
  induction 1 as [| t types Ht _ IH]; cbn [add_locals]; [auto with slots |].
  apply keeps_bind; [by apply off_stack_keeps | intros type]. apply keeps_bind; [| intros; keeps_all].
  unfold scil_add_method_variable, add_local, scil_build_decl. keeps_all.
Qed.

(** Before the first instruction there are no variables and no labels. *)
Lemma start_slots_ok method max s :
  (forall pc, sc_labels s !! (sd_uid method, pc) = None) ->
  wp any (scil_start_method_def method max) (fun b s' => b = true -> slots_ok s') s.
Proof.
  intros Hl. unfold scil_start_method_def, scil_init_stacks. apply wp_bind, wp_get.
  repeat wp_step; intros; try done.
  assert (forall A (n : nat) (x : A) i y, replicate n x !! i = Some y -> y = x) as Hrep
    by (intros A n x i y Hy; by apply lookup_replicate in Hy as [-> _]).
  split; cbn.
  - intros k i v Hv. unfold make_stack in Hv. by apply Hrep in Hv.
  - intros i l t v Hv Hin. unfold make_stack in Hv. apply Hrep in Hv as ->. by apply elem_of_nil in Hin.
  - intros i d [(k & Hv & _) | (l & t & Hv & Hin)]; cbn in Hv; unfold make_stack in Hv; apply Hrep in Hv; subst;
      [done | by apply elem_of_nil in Hin].
  - intros i j d e [(k & Hv & _) | (l & t & Hv & Hin)]; cbn in Hv; unfold make_stack in Hv; apply Hrep in Hv; subst;
      [done | by apply elem_of_nil in Hin].
  - by split.
  - intros pc l st. unfold own_label. cbn. by rewrite Hl.
Qed.

Lemma stack_nodup s : slots_ok s -> NoDup (entries (sc_stack s)).
Proof.
  intros Hs. apply NoDup_alt. intros i j e Hi Hj. destruct (slots_stack s Hs) as [_ He].
  destruct (He i e Hi) as (d & -> & Hd), (He j _ Hj) as (d' & [= <-] & Hd').
  destruct (slots_distinct s Hs _ _ _ _ Hd Hd' eq_refl) as [E _].
  apply lookup_lt_Some in Hi, Hj. lia.
Qed.

(** C22: At the end of any piece of code, whatever its instructions are, the variable that
    the next item of a type would get is no item of the stack, and no two items share a
    variable: an assignment to the new item changes no other one.  The labels of branches
    put back the stack of the branch, and the claim holds after them too. *)
Theorem scil_slots_apart method max body addr static_p n names types s s1 s2 type v s3 :
  (forall pc, sc_labels s !! (sd_uid method, pc) = None) -> Forall off_stack types ->
  scil_start_method_def method max s = Done true s1 ->
  parse_body body addr static_p n names types s1 = Done tt s2 ->
  scil_get_stack_variable type s2 = Done v s3 ->
  (v ∉ entries (sc_stack s3)) /\ entries (sc_stack s3) = entries (sc_stack s2) /\ NoDup (entries (sc_stack s2)).
Proof.
  intros Hl Ht E1 E2 E3. pose proof (outcome_done _ _ _ _ _ _ E1 (start_slots_ok method max s Hl) eq_refl) as Hs1.
  assert (keeps_slots (parse_body body addr static_p n names types)) as Hk.
  { unfold parse_body. pose proof keeps_add_parameters. pose proof keeps_parse_code.
    assert (Forall off_stack (match localVarSig body with Some _ => types | None => [] end)) as Ht'
      by (case_match; [done | constructor]).
    pose proof (keeps_add_locals _ Ht'). keeps_all; auto. }
  destruct (outcome_done _ _ _ _ _ _ E2 (Hk s1 Hs1)) as [Hs2 _].
  destruct (outcome_done _ _ _ _ _ _ E3 (get_stack_variable_ok type s2 Hs2)) as (Hs3 & _ & Hst & d & -> & Hd).
  split_and!; [| by rewrite Hst | by apply stack_nodup]. intros Hin. apply list_elem_of_lookup in Hin as [j Hj].
  destruct (slots_stack s3 Hs3) as [Hlen He]. destruct (He j _ Hj) as (d' & [= <-] & Hd').
  destruct (slots_distinct s3 Hs3 _ _ _ _ Hd Hd' eq_refl) as [E _]. rewrite <- Hst, Hlen in E.
  apply lookup_lt_Some in Hj. lia.
Qed.
End instructions.

(** ** A target, a middle end, an assembly and a method for the examples *)

#[local] Instance scil_ilp32 : ScilTarget := {| scil_int_size := 32; scil_pointer_size := 32 |}.

#[local] Instance scil_plain_middle_end : ScilMiddleEnd := {|
  scil_fold := fun t => t;
  scil_size_unit := fun _ _ => SInt scil_size_type 4
|}.

(** A class with a static [int32] field and a static method of an [int32]. *)
Definition scil_sample_field : scil_decl :=
  mkScilDecl VAR_DECL 3 (Name_id "field") scil_int32_type (Some (SRecord 2)).
Definition scil_sample_callee : scil_decl :=
  mkScilDecl FUNCTION_DECL 4 (Name_id "callee") (SFunction scil_int32_type [scil_int32_type; scil_void_type]) (Some (SRecord 2)).

#[local] Instance scil_sample_reader : ScilReader := {|
  scil_method := unit;
  scil_field_of_token := fun t => if t =? 0x04000001 then mret scil_sample_field else fail (Undefined "ILField_FromToken");
  scil_method_of_token := fun t => if t =? 0x06000001 then mret tt else fail (Undefined "ILMethod_FromToken");
  scil_method_tree := fun _ => mret scil_sample_callee;
  scil_delegate := fun _ => None;
  scil_static_delegate := fun _ => false;
  scil_is_virtual := fun _ => false;
  scil_parse_vtable := fun _ => mret tt;
  scil_parse_instance_fields := fun _ => mret tt;
  scil_method_index := fun _ => mret 0;
  scil_method_type := fun _ => mret (sd_type scil_sample_callee);
  scil_user_string := fun _ => mret ([104; 105], 2)
|}.

(** [static int sample (int a, int b)]. *)
Definition scil_sample_method : scil_decl :=
  mkScilDecl FUNCTION_DECL 1 (Name_id "sample")
    (SFunction scil_int32_type [scil_int32_type; scil_int32_type; scil_void_type]) (Some (SRecord 2)).
Definition scil_sample_result : scil_decl := mkScilDecl RESULT_DECL 2 (Name_id "result") scil_int32_type None.

(** Before the method, with the declarations up to 9 made. *)
Definition scil_sample : scil_state :=
  mkScil (mkStack 0 []) (fun _ => []) [] [] [] [] [] None ∅ {[ 1%N := scil_sample_result ]} ∅ ∅ ∅ [] ∅ ∅ ∅ ∅ ∅ ∅ ∅
    10 0 0 0 0 [] 0 [] [].

(** The header of a method with locals and a stack of two, followed by the code. *)
Definition scil_sample_body (code : list Z) : ILMethodCode * list Z :=
  (mkCode 12 2 12 (Z.of_nat (length code)) (Some (Primitive 8)) true false 0, replicate 12 0 ++ code).

Definition scil_compile_sample (nlocals : nat) (code : list Z) : option scil_function :=
  match parse_method scil_sample_method (Some (scil_sample_body code)) true 2 ["a"; "b"]%string
          (replicate nlocals (mret scil_int32_type)) scil_sample with
  | Done _ s => sc_finished s !! 1%N
  | Failed _ => None
  end.

Section witness.
#[local] Existing Instances scil_ilp32 scil_plain_middle_end scil_sample_reader.

#[local] Instance scil_sample_reader_ok : ScilReaderOk.
Proof.
  assert (forall A (a : A), off_stack (mret a : SM A)) as Hret by (intros A a s; split; [apply same_stack_refl | done]).
  split; intros; cbn; try apply Hret; by case_match.
Qed.

(** With an item on the stack, its variable is not that of the next item. *)
Lemma scil_slots_apart_witness :
  match scil_start_method_def scil_sample_method 2 scil_sample with
  | Done _ s1 =>
      match parse_body (scil_sample_body [0x02]).1 (scil_sample_body [0x02]).2 true 2 ["a"; "b"]%string [] s1 with
      | Done _ s2 =>
          match scil_get_stack_variable scil_int32_type s2 with
          | Done v s3 => (v ∉ entries (sc_stack s3)) /\ entries (sc_stack s3) = entries (sc_stack s2)
          | Failed _ => False
          end
      | Failed _ => False
      end
  | Failed _ => False
  end.
Proof.
  destruct (scil_start_method_def scil_sample_method 2 scil_sample) as [started s1 |] eqn:E1;
    [| vm_compute in E1; discriminate E1].
  assert (started = true) as -> by (vm_compute in E1; by injection E1 as <- _).
  destruct (parse_body _ _ true 2 _ [] s1) as [[] s2 |] eqn:E2.
  - destruct (scil_get_stack_variable scil_int32_type s2) as [v s3 |] eqn:E3.
    + destruct (scil_slots_apart scil_sample_method 2 (scil_sample_body [0x02]).1 (scil_sample_body [0x02]).2 true 2
        ["a"; "b"]%string [] scil_sample s1 s2 scil_int32_type v s3) as (Hv & Hs & _); done.
    + vm_compute in E1. injection E1 as <-. vm_compute in E2. injection E2 as <-. vm_compute in E3. discriminate E3.
  - vm_compute in E1. injection E1 as <-. vm_compute in E2. discriminate E2.
Defined.
End witness.
