(* ===== verification/ScilSemantics.v ===== *)
(** * ScilSemantics: what the statements of the second front end compute

    A reference semantics of the nodes that scil-instructions.c builds for the instructions
    on integers: like Semantics, which does the same for the first front end, over the
    types and nodes of ScilTrees. *)
From S2P Require Import Prelude Trees ScilTrees.

(** The values of the variables, by [sd_uid]. *)
Abbreviation senv := (gmap N Z).

Section eval.
Context `{ScilTarget} (wrapv : bool).

(** Conversion to a type; only 0 and 1 are values of [bool]. *)
Definition sconvert (ty : scil_type) (z : Z) : option Z :=
  match scil_type_code ty with
  | Some INTEGER_TYPE_ =>
      Some (if scil_unsigned ty then to_unsigned (scil_precision ty) z
            else to_signed (scil_precision ty) z)
  | Some BOOLEAN_TYPE_ => if in_range 0 2 z then Some z else None
  | _ => None
  end.

(** The result [z] of an arithmetic operation; signed overflow is undefined without
    [-fwrapv]. *)
Definition sarith (ty : scil_type) (z : Z) : option Z :=
  match scil_type_code ty with
  | Some INTEGER_TYPE_ =>
      let p := scil_precision ty in
      if scil_unsigned ty || wrapv || in_range (- 2 ^ (p - 1)) (2 ^ (p - 1)) z
      then sconvert ty z else None
  | _ => None
  end.

Definition sunary (c : tree_code) (ty : scil_type) (x : Z) : option Z :=
  match c with
  | NEGATE_EXPR => sarith ty (- x)
  | BIT_NOT_EXPR => sconvert ty (Z.lnot x)
  | CONVERT_EXPR | NOP_EXPR => sconvert ty x
  | _ => None
  end.

Definition sbinary (c : tree_code) (ty : scil_type) (x y : Z) : option Z :=
  match c with
  | PLUS_EXPR => sarith ty (x + y)
  | MINUS_EXPR => sarith ty (x - y)
  | MULT_EXPR => sarith ty (x * y)
  | TRUNC_DIV_EXPR => if y =? 0 then None else sarith ty (Z.quot x y)
  | TRUNC_MOD_EXPR => if y =? 0 then None else sarith ty (Z.rem x y)
  | LSHIFT_EXPR => if in_range 0 (scil_precision ty) y then sconvert ty (Z.shiftl x y) else None
  | RSHIFT_EXPR => if in_range 0 (scil_precision ty) y then sconvert ty (Z.shiftr x y) else None
  | BIT_AND_EXPR => sconvert ty (Z.land x y)
  | BIT_IOR_EXPR => sconvert ty (Z.lor x y)
  | BIT_XOR_EXPR => sconvert ty (Z.lxor x y)
  | EQ_EXPR => Some (Z.b2z (x =? y))
  | NE_EXPR => Some (Z.b2z (negb (x =? y)))
  | LT_EXPR => Some (Z.b2z (x <? y))
  | LE_EXPR => Some (Z.b2z (x <=? y))
  | GT_EXPR => Some (Z.b2z (y <? x))
  | GE_EXPR => Some (Z.b2z (y <=? x))
  | _ => None
  end.

(** [None]: undefined, or an expression outside the fragment. *)
Fixpoint seval (rho : senv) (t : stree) : option Z :=
  match t with
  | SInt _ v => Some v
  | SDecl d => rho !! sd_uid d
  | SExpr c ty [a] => x ← seval rho a; sunary c ty x
  | SExpr c ty [a; b] => x ← seval rho a; y ← seval rho b; sbinary c ty x y
  | _ => None
  end.

(** ** Statements *)

Definition label_of_stmt (t : stree) : option scil_decl :=
  match t with SExpr LABEL_EXPR _ [SDecl d] => Some d | _ => None end.

(** The statements after the label. *)
Fixpoint sfind_label (l : N) (body : list stree) : option (list stree) :=
  match body with
  | [] => None
  | t :: k =>
      match label_of_stmt t with
      | Some d => if decide (sd_uid d = l) then Some k else sfind_label l k
      | None => sfind_label l k
      end
  end.

(** A running function, or its result. *)
Inductive sconfig :=
| SRunning (rho : senv) (k : list stree)
| SReturned (v : option Z).

Definition sgoto (body : list stree) (rho : senv) (label : stree) : option sconfig :=
  match label with
  | SDecl d => SRunning rho <$> sfind_label (sd_uid d) body
  | _ => None
  end.

(** The first statement, [k] being the rest. *)
Definition sstatement (body : list stree) (rho : senv) (t : stree) (k : list stree) : option sconfig :=
  match t with
  | SExpr LABEL_EXPR _ [SDecl _] => Some (SRunning rho k)
  | SExpr GOTO_EXPR _ [label] => sgoto body rho label
  | SExpr COND_EXPR _ [c; SExpr GOTO_EXPR _ [label]; SExpr NOP_EXPR _ _] =>
      v ← seval rho c; if v =? 0 then Some (SRunning rho k) else sgoto body rho label
  | SExpr COND_EXPR _ [c; SExpr NOP_EXPR _ _; SExpr GOTO_EXPR _ [label]] =>
      v ← seval rho c; if v =? 0 then sgoto body rho label else Some (SRunning rho k)
  | SExpr MODIFY_EXPR _ [SDecl d; e] =>
      v ← seval rho e; Some (SRunning (<[sd_uid d := v]> rho) k)
  | SExpr RETURN_EXPR _ [SNull] => Some (SReturned None)
  | SExpr RETURN_EXPR _ [SExpr MODIFY_EXPR _ [SDecl d; e]] =>
      if bool_decide (sd_code d = RESULT_DECL) then v ← seval rho e; Some (SReturned (Some v))
      else None
  | _ => None
  end.

Definition sstep (body : list stree) (c : sconfig) : option sconfig :=
  match c with
  | SRunning rho (t :: k) => sstatement body rho t k
  | _ => None
  end.

(** At most [fuel] statements. *)
Fixpoint srun (fuel : nat) (body : list stree) (c : sconfig) : option (option Z) :=
  match c with
  | SReturned v => Some v
  | SRunning _ _ =>
      match fuel with
      | O => None
      | S fuel => c ← sstep body c; srun fuel body c
      end
  end.

Definition sstepped (body : list stree) (c c' : sconfig) : Prop := sstep body c = Some c'.

Lemma srun_steps body c c' :
  rtc (sstepped body) c c' -> forall fuel v, srun fuel body c' = Some v -> exists fuel', srun fuel' body c = Some v.
Proof.
  induction 1 as [c | c1 c2 c3 Hs _ IH]; intros fuel v Hr; [by exists fuel |].
  destruct (IH fuel v Hr) as [n Hn]. exists (S n).
  destruct c1 as [rho k |]; [| done]. cbn [srun]. unfold sstepped in Hs. by rewrite Hs.
Qed.

(** A label that no statement of the first part is. *)
Lemma sfind_label_skip l b k :
  (forall t d, t ∈ b -> label_of_stmt t = Some d -> sd_uid d <> l) -> sfind_label l (b ++ k) = sfind_label l k.
Proof.
  induction b as [| t b IH]; intros Hb; [done |]. cbn [app sfind_label].
  rewrite IH by (intros t' d Hin; apply Hb; by right). destruct (label_of_stmt t) as [d |] eqn:E; [| done].
  rewrite decide_False; [done |]. apply (Hb t d); [by left | done].
Qed.
End eval.
