(* ===== verification/ScilInt32.v ===== *)
(** * ScilInt32: compiling integer code in the second front end

    The bytes that the machine of CilMachine decodes are read by scil-pnet.c in the same
    way: each instruction calls its function of scil-instructions.c with the operand of
    the machine.

    What the instructions of the machine of CilMachine are compiled to: each appends one or
    two statements, over the variables of the depths of its operands.  The variables are as
    wide as the value that was pushed needs, and an operation is done in the width of the
    wider operand; [type_step] asks for what makes that agree with [int32]. *)
From S2P Require Import Prelude Values CilMachine Trees ScilTrees ScilStack ScilMethod ScilInstr ScilParse ScilSlots.

(** ** Reading the instructions *)

(** The type of the variables for a constant. *)
Inductive item := I_bool | I_int8 | I_int16 | I_int32.

#[export] Instance item_eq_dec : EqDecision item.
Proof. solve_decision. Defined.

Definition item_slot (it : item) : slot_kind :=
  match it with I_bool | I_int8 => int8_stack | I_int16 => int16_stack | I_int32 => int32_stack end.

(** The values of an item. *)
Definition item_ok (it : item) (v : Z) : Prop :=
  match it with
  | I_bool => 0 <= v < 2
  | I_int8 => - 2 ^ 7 <= v < 2 ^ 7
  | I_int16 => - 2 ^ 15 <= v < 2 ^ 15
  | I_int32 => - 2 ^ 31 <= v < 2 ^ 31
  end.

Definition const_item (v : Z) : item :=
  if (v =? 0) || (v =? 1) then I_bool
  else if in_range (- 2 ^ 7) (2 ^ 7) v then I_int8
  else if in_range (- 2 ^ 15) (2 ^ 15) v then I_int16
  else I_int32.

Definition slot_width (k : slot_kind) : Z :=
  match k with int8_stack => 8 | int16_stack => 16 | int32_stack => 32 | int64_stack | float_stack | address_stack => 64 end.

(** A constant as the code gives it, with more than the bits of its type. *)
Definition const_as (v c : Z) : Prop := to_signed (slot_width (item_slot (const_item v))) c = v.

(** The opcodes of the machine. *)
Definition int32_opcodes : list Z :=
  [0x00; 0x02; 0x03; 0x04; 0x05; 0x06; 0x07; 0x08; 0x09; 0x0A; 0x0B; 0x0C; 0x0D; 0x0E; 0x10; 0x11; 0x13;
   0x15; 0x16; 0x17; 0x18; 0x19; 0x1A; 0x1B; 0x1C; 0x1D; 0x1E; 0x1F; 0x20; 0x26; 0x2A; 0x2B; 0x2C; 0x2D;
   0x2E; 0x2F; 0x30; 0x31; 0x32; 0x33; 0x34; 0x35; 0x36; 0x37; 0x38; 0x39; 0x3A;
   0x3B; 0x3C; 0x3D; 0x3E; 0x3F; 0x40; 0x41; 0x42; 0x43; 0x44; 0x58; 0x59; 0x5A; 0x5B; 0x5F; 0x60; 0x61; 0x65; 0x66].

Lemma opcode_form_in b f : is_byte b -> opcode_form b = Some f -> b ∈ int32_opcodes.
Proof.
  intros Hb E. eapply bool_decide_eq_true_1.
  pose proof (byte_forall (fun b => match opcode_form b with Some _ => bool_decide (b ∈ int32_opcodes) | None => true end) b) as Hall.
  cbv beta in Hall. rewrite E in Hall. apply Hall; [by vm_compute | done].
Qed.

(** Try the opcodes one by one. *)
Ltac by_opcode b Hf Hin :=
  unfold int32_opcodes in Hin;
  repeat (apply elem_of_cons in Hin as [-> | Hin]; [vm_compute in Hf; try discriminate Hf; injection Hf as <- |]);
  [.. | by apply elem_of_nil in Hin].

Lemma READ_INT32_range l i v : IL_READ_INT32 l i = Some v -> - 2 ^ 31 <= v < 2 ^ 31.
Proof.
  unfold IL_READ_INT32. intros E. apply bind_Some in E as (b0 & _ & E). apply bind_Some in E as (b1 & _ & E).
  apply bind_Some in E as (b2 & _ & E). apply bind_Some in E as (b3 & _ & [= <-]). apply (to_signed_range 32). lia.
Qed.

(** Decoding looks at the instruction alone. *)
Lemma byte_at_app l k i b : byte_at l i = Some b -> byte_at (l ++ k) i = Some b.
Proof. unfold byte_at. destruct (0 <=? i); [| done]. apply lookup_app_l_Some. Qed.

Lemma decode_app l k r : decode l = Some r -> decode (l ++ k) = Some r.
Proof.
  unfold decode, IL_READ_INT32, _IL_READ_BYTE, _IL_READ_BYTE_SHIFT. intros Hd. apply bind_Some in Hd as (b & Hb & Hd).
  rewrite (byte_at_app _ _ _ _ Hb). cbn [mbind option_bind]. destruct (b =? 0xFE).
  - apply bind_Some in Hd as (c & Hc & Hd). by rewrite (byte_at_app _ _ _ _ Hc).
  - destruct (opcode_form b) as [[]|]; cbn [mbind option_bind] in *; try done.
    1, 2: apply bind_Some in Hd as (c & Hc & Hd); by rewrite (byte_at_app _ _ _ _ Hc).
    destruct (byte_at l 1) as [b1 |] eqn:E1; [| done]. destruct (byte_at l (1 + 1)) as [b2 |] eqn:E2; [| done].
    destruct (byte_at l (1 + 2)) as [b3 |] eqn:E3; [| done]. destruct (byte_at l (1 + 3)) as [b4 |] eqn:E4; [| done].
    by rewrite (byte_at_app _ k _ _ E1), (byte_at_app _ k _ _ E2), (byte_at_app _ k _ _ E3), (byte_at_app _ k _ _ E4).
Qed.

(** Constants are in the range of [int32]. *)
Lemma decode_const code v n : Forall is_byte code -> decode code = Some (Const v, n) -> - 2 ^ 31 <= v < 2 ^ 31.
Proof.
  intros Hc. unfold decode. destruct (byte_at code 0) as [b |] eqn:Eb; [| done]. cbn [mbind option_bind]. intros Hd.
  assert (is_byte b) as Hb by (apply byte_at_Some in Eb as [_ Eb]; auto).
  destruct (b =? 0xFE).
  { destruct (byte_at code 1) as [c |]; [| done]. cbn [mbind option_bind] in Hd. unfold prefixed_form in Hd.
    by repeat case_match. }
  destruct (opcode_form b) as [g |] eqn:Eg; [| done]. cbn [mbind option_bind] in Hd.
  pose proof (opcode_form_in b g Hb Eg) as Hin. by_opcode b Eg Hin; cbn [mbind option_bind] in Hd;
    first [discriminate Hd | injection Hd as <- _; zlia | idtac];
    match goal with
    | _ => destruct (byte_at code 1) as [c |]; [| done]; cbn [mbind option_bind] in Hd;
        first [discriminate Hd | injection Hd as <- _; pose proof (to_signed_range 8 c ltac:(lia)); unfold schar; zlia]
    | _ => destruct (IL_READ_INT32 code 1) as [c |] eqn:Ec; [| done]; cbn [mbind option_bind] in Hd;
        first [discriminate Hd | injection Hd as <- _; by apply READ_INT32_range in Ec]
    end.
Qed.

Section dispatch.
Context `{ScilTarget, ScilMiddleEnd, ScilReader}.

Definition variable (x : var) : SM stree :=
  match x with Arg n => parameter (Z.of_nat n) | Local n => local (Z.of_nat n) end.

Definition binop_action (o : cil_binop) : SM unit :=
  match o with
  | Add => scil_instr_add | Sub => scil_instr_sub | Mul => scil_instr_mul | Div => scil_instr_div
  | And => scil_instr_and | Or => scil_instr_or | Xor => scil_instr_xor
  | Ceq => scil_instr_compare_eq | Cgt => scil_instr_compare_gt | Clt => scil_instr_compare_lt
  end.
Definition unop_action (o : cil_unop) : SM unit :=
  match o with Neg => scil_instr_neg | Not => scil_instr_not end.
Definition compare (c : cil_cond) : SM unit :=
  match c with
  | Beq => scil_instr_compare_eq | Bge => scil_instr_compare_ge | Bgt => scil_instr_compare_gt
  | Ble => scil_instr_compare_le | Blt => scil_instr_compare_lt | Bne_un => scil_instr_compare_ne_un
  | Bge_un => scil_instr_compare_ge_un | Bgt_un => scil_instr_compare_gt_un
  | Ble_un => scil_instr_compare_le_un | Blt_un => scil_instr_compare_lt_un
  end.

(** What an instruction does once its operand was read; [target] is that of a branch.  A
    conditional branch compares before it reads. *)
Definition action (i : cil_instr) (c target : Z) : SM unit :=
  match i with
  | Nop => mret tt
  | Load x => v ← variable x; scil_instr_push v
  | Store x => v ← variable x; scil_instr_pop_into v
  | Const v => scil_instr_push_integer c (slot_type (item_slot (const_item v)))
  | Binop o => binop_action o
  | Unop o => unop_action o
  | Pop => scil_instr_pop
  | Ret => scil_instr_ret
  | Br _ => scil_instr_branch target
  | Brfalse _ => scil_instr_branch_false target
  | Brtrue _ => scil_instr_branch_true target
  | Bcond _ _ => scil_instr_branch_true target
  end.

Definition parse_instr : SM unit := b ← scil_read_byte; instructions b.

Lemma read_code_run {A} (read : list Z -> Z -> option A) n s v :
  read (sc_code s) (sc_pc s) = Some v -> 0 <= sc_pc s < 2 ^ 31 -> 0 <= n <= 8 ->
  read_code read n s = Done v (set_sc_pc (sc_pc s + n) s).
Proof.
  intros E Hp Hn. unfold read_code, mbind, comp_bind, get. rewrite E. cbn -[uint32].
  rewrite uint32_small by zlia. reflexivity.
Qed.

(** The operand of a branch is read after the comparison. *)
Definition runs (m : SM unit) (i : cil_instr) (s : scil_state) (size : Z) (target : Z) : Prop :=
  match i with
  | Bcond c _ =>
      forall s1, compare c s = Done tt s1 -> sc_code s1 = sc_code s -> sc_pc s1 = sc_pc s ->
      m s = scil_instr_branch_true target (set_sc_pc (sc_pc s + size) s1)
  | Const v => exists c, const_as v c /\ m s = action i c target (set_sc_pc (sc_pc s + size) s)
  | _ => m s = action i 0 target (set_sc_pc (sc_pc s + size) s)
  end.

Lemma set_pc_same s : set_sc_pc (sc_pc s + 0) s = s.
Proof. rewrite Z.add_0_r. by destruct s. Qed.

Lemma const_as_small v : item_ok (const_item v) v -> const_as v v.
Proof.
  intros Hv. unfold const_as. assert (forall k, 0 < slot_width k) as Hw by (by intros []).
  apply to_signed_small; [done |]. destruct (const_item v); cbn in *; lia.
Qed.

Lemma const_item_ok v : - 2 ^ 31 <= v < 2 ^ 31 -> item_ok (const_item v) v.
Proof.
  intros Hv. unfold const_item. destruct (Z.eqb_spec v 0); [cbn; lia |]. destruct (Z.eqb_spec v 1); [cbn; lia |].
  cbn [orb]. destruct (in_range (- 2 ^ 7) (2 ^ 7) v) eqn:E; [by apply in_range_spec in E |].
  destruct (in_range (- 2 ^ 15) (2 ^ 15) v) eqn:E'; [by apply in_range_spec in E' | done].
Qed.

Lemma plain_runs b i s target :
  is_byte b -> opcode_form b = Some (Plain i) -> runs (instructions b) i s 0 target.
Proof.
  intros Hb Hf. pose proof (opcode_form_in b _ Hb Hf) as Hin. unfold runs. rewrite set_pc_same.
  by_opcode b Hf Hin; try reflexivity.
  all: eexists; split; [apply const_as_small, const_item_ok; lia | reflexivity].
Qed.

Lemma uint8_runs b f n s target :
  is_byte b -> opcode_form b = Some (With_uint8 f) -> byte_at (sc_code s) (sc_pc s) = Some n ->
  0 <= n -> 0 <= sc_pc s < 2 ^ 31 -> runs (instructions b) (f (Z.to_nat n)) s 1 target.
Proof.
  intros Hb Hf Hn Hpos Hp. pose proof (opcode_form_in b _ Hb Hf) as Hin. unfold runs.
  pose proof (read_code_run byte_at 1 s n Hn Hp ltac:(lia)) as Er. fold scil_read_byte in Er.
  by_opcode b Hf Hin; cbn [action variable]; rewrite Z2Nat.id by done; cbn [instructions];
    unfold instr_ldarg_s, instr_starg_s, instr_ldloc_s, instr_stloc_s; by rewrite (bind_done _ _ _ _ _ Er).
Qed.

Lemma schar_const n : is_byte n -> const_as (schar n) n.
Proof.
  intros Hn. unfold const_as. assert (item_slot (const_item (schar n)) = int8_stack) as ->; [| done].
  unfold const_item. pose proof (to_signed_range 8 n ltac:(lia)) as Hr. fold (schar n) in Hr.
  destruct ((schar n =? 0) || (schar n =? 1)); [done |].
  by rewrite (proj2 (in_range_spec (- 2 ^ 7) (2 ^ 7) (schar n)) Hr).
Qed.

(** Reading a displacement after something that leaves the code alone. *)
Lemma target_run (read : SM Z) d size s s1 (k : Z -> SM unit) :
  (forall s', sc_code s' = sc_code s -> sc_pc s' = sc_pc s ->
     read s' = Done (uint32 (d + (sc_pc s + size))) (set_sc_pc (sc_pc s + size) s')) ->
  sc_code s1 = sc_code s -> sc_pc s1 = sc_pc s ->
  (target ← read; k target) s1 = k (uint32 (d + (sc_pc s + size))) (set_sc_pc (sc_pc s + size) s1).
Proof. intros Hr Hc Hp. by rewrite (bind_done _ _ _ _ _ (Hr s1 Hc Hp)). Qed.

Lemma int8_runs b f n s :
  is_byte b -> opcode_form b = Some (With_int8 f) -> byte_at (sc_code s) (sc_pc s) = Some n -> is_byte n ->
  0 <= sc_pc s < 2 ^ 31 ->
  runs (instructions b) (f (schar n)) s 1 (uint32 (schar n + (sc_pc s + 1))).
Proof.
  intros Hb Hf Hn Hbn Hp. pose proof (opcode_form_in b _ Hb Hf) as Hin.
  assert (forall s', sc_code s' = sc_code s -> sc_pc s' = sc_pc s ->
    read_target_short s' = Done (uint32 (schar n + (sc_pc s + 1))) (set_sc_pc (sc_pc s + 1) s')) as Hr.
  { intros s' Ec Ep. unfold read_target_short, scil_read_int8, scil_read_byte.
    rewrite bind_assoc, (bind_done _ _ _ _ _ (read_code_run byte_at 1 s' n ltac:(by rewrite Ec, Ep) ltac:(by rewrite Ep) ltac:(lia))).
    by rewrite Ep. }
  pose proof (fun k => target_run read_target_short (schar n) 1 s s k Hr eq_refl eq_refl) as Ht.
  unfold runs. by_opcode b Hf Hin; cbn [instructions action]; try apply Ht.
  { exists n. split; [by apply schar_const |]. unfold instr_ldc_i4_s.
    pose proof (read_code_run byte_at 1 s n Hn Hp ltac:(lia)) as Er. fold scil_read_byte in Er.
    rewrite (bind_done _ _ _ _ _ Er).
    assert (item_slot (const_item (schar n)) = int8_stack) as ->; [| done].
    unfold const_item. pose proof (to_signed_range 8 n ltac:(lia)) as Hrng. fold (schar n) in Hrng.
    destruct ((schar n =? 0) || (schar n =? 1)); [done |].
    by rewrite (proj2 (in_range_spec (- 2 ^ 7) (2 ^ 7) (schar n)) Hrng). }
  all: intros s1 Hc Ec Ep; unfold instr_branch_s; rewrite (bind_done _ _ _ _ _ Hc); by apply (target_run _ _ _ s).
Qed.

Lemma ldc_i4_slot v : ldc_i4_type v = slot_type (item_slot (const_item v)).
Proof.
  unfold ldc_i4_type, const_item, in_range.
  destruct (Z.eqb_spec v 0) as [-> |]; [done |]. destruct (Z.eqb_spec v 1) as [-> |]; [done |]. cbn [orb].
  change (2 ^ 7) with 128. change (2 ^ 15) with 32768.
  replace (v <? 128) with (v <=? 127) by lia. replace (v <? 32768) with (v <=? 32767) by lia. change (- (128)) with (-128).
  change (- (32768)) with (-32768). by repeat case_match.
Qed.

Lemma int32_runs b f v s :
  is_byte b -> opcode_form b = Some (With_int32 f) -> IL_READ_INT32 (sc_code s) (sc_pc s) = Some v ->
  - 2 ^ 31 <= v < 2 ^ 31 -> 0 <= sc_pc s < 2 ^ 31 ->
  runs (instructions b) (f v) s 4 (uint32 (v + (sc_pc s + 4))).
Proof.
  intros Hb Hf Hn Hv Hp. pose proof (opcode_form_in b _ Hb Hf) as Hin.
  assert (forall s', sc_code s' = sc_code s -> sc_pc s' = sc_pc s ->
    read_target_long s' = Done (uint32 (v + (sc_pc s + 4))) (set_sc_pc (sc_pc s + 4) s')) as Hr.
  { intros s' Ec Ep. unfold read_target_long, scil_read_int32.
    rewrite (bind_done _ _ _ _ _ (read_code_run IL_READ_INT32 4 s' v ltac:(by rewrite Ec, Ep) ltac:(by rewrite Ep) ltac:(lia))).
    by rewrite <- Ep. }
  pose proof (fun k => target_run read_target_long v 4 s s k Hr eq_refl eq_refl) as Ht.
  unfold runs. by_opcode b Hf Hin; cbn [instructions action]; try apply Ht.
  { exists v. split; [by apply const_as_small, const_item_ok |]. unfold instr_ldc_i4, scil_read_int32.
    rewrite (bind_done _ _ _ _ _ (read_code_run IL_READ_INT32 4 s v Hn Hp ltac:(lia))). by rewrite ldc_i4_slot. }
  all: intros s1 Hc Ec Ep; unfold instr_branch; rewrite (bind_done _ _ _ _ _ Hc); by apply (target_run _ _ _ s).
Qed.

(** ** Decoding *)

Lemma byte_at_drop k l i : 0 <= i -> byte_at (drop k l) i = byte_at l (Z.of_nat k + i).
Proof.
  intros Hi. unfold byte_at. rewrite (proj2 (Z.leb_le 0 i)), (proj2 (Z.leb_le 0 (_ + i))) by lia.
  rewrite lookup_drop. f_equal. lia.
Qed.

Lemma READ_INT32_drop k l i : 0 <= i -> IL_READ_INT32 (drop k l) i = IL_READ_INT32 l (Z.of_nat k + i).
Proof.
  intros Hi. unfold IL_READ_INT32, _IL_READ_BYTE, _IL_READ_BYTE_SHIFT. rewrite !byte_at_drop by lia.
  by rewrite !Z.add_assoc.
Qed.

Lemma prefixed_runs c i s target :
  is_byte c -> prefixed_form c = Some i -> byte_at (sc_code s) (sc_pc s) = Some c -> 0 <= sc_pc s < 2 ^ 31 ->
  runs (instructions 0xFE) i s 1 target.
Proof.
  intros Hb Hf Hc Hp. pose proof (read_code_run byte_at 1 s c Hc Hp ltac:(lia)) as Er. fold scil_read_byte in Er.
  cbn [instructions]. unfold instr_extended.
  assert (c = 1 \/ c = 2 \/ c = 4) as Hcase by (unfold prefixed_form in Hf; repeat case_match; try discriminate; lia).
  destruct Hcase as [-> | [-> | ->]]; vm_compute in Hf; injection Hf as <-; unfold runs;
    by rewrite (bind_done _ _ _ _ _ Er).
Qed.

(** The first byte selects the function, which does what the machine's instruction asks for. *)
Lemma decode_runs i n s :
  Forall is_byte (sc_code s) -> 0 <= sc_pc s -> sc_pc s + 8 < 2 ^ 31 ->
  decode (drop (Z.to_nat (sc_pc s)) (sc_code s)) = Some (i, n) ->
  exists m, parse_instr s = m (set_sc_pc (sc_pc s + 1) s) /\
    runs m i (set_sc_pc (sc_pc s + 1) s) (n - 1) (uint32 (default 0 (displacement i) + (sc_pc s + n))).
Proof.
  intros Hb Hp Hbig Hd. unfold decode in Hd. rewrite (byte_at_drop _ _ 0), Z2Nat.id in Hd by lia.
  rewrite Z.add_0_r in Hd. destruct (byte_at (sc_code s) (sc_pc s)) as [b |] eqn:Eb; [| done].
  assert (is_byte b) as Hbb by by apply byte_at_Some in Eb as [_ ?]; auto.
  cbn [mbind option_bind] in Hd. exists (instructions b). split.
  { unfold parse_instr, scil_read_byte.
    by rewrite (bind_done _ _ _ _ _ (read_code_run byte_at 1 s b Eb ltac:(lia) ltac:(lia))). }
  set (s1 := set_sc_pc (sc_pc s + 1) s).
  assert (forall c, byte_at (drop (Z.to_nat (sc_pc s)) (sc_code s)) 1 = Some c -> byte_at (sc_code s1) (sc_pc s1) = Some c /\ is_byte c) as Hnext.
  { intros c Ec. rewrite byte_at_drop, Z2Nat.id in Ec by lia. split; [done |]. apply byte_at_Some in Ec as [_ ?]; auto. }
  assert (0 <= sc_pc s1 < 2 ^ 31) as Hp1 by (cbn; lia).
  destruct (Z.eqb_spec b 0xFE) as [-> | Hne].
  - destruct (byte_at _ 1) as [c |] eqn:Ec; [| done]. destruct (Hnext c eq_refl) as [Ec' Hc]. cbn [mbind option_bind] in Hd.
    destruct (prefixed_form c) as [i' |] eqn:Ef; [| done]. injection Hd as <- <-. by eapply prefixed_runs.
  - destruct (opcode_form b) as [f |] eqn:Ef; [| done]. cbn [mbind option_bind] in Hd. destruct f as [i' | f | f | f].
    + injection Hd as <- <-. by apply plain_runs.
    + destruct (byte_at _ 1) as [c |] eqn:Ec; [| done]. destruct (Hnext c eq_refl) as [Ec' Hc]. cbn [mbind option_bind] in Hd.
      injection Hd as <- <-. apply (uint8_runs b f c); try done. unfold is_byte in Hc. lia.
    + destruct (byte_at _ 1) as [c |] eqn:Ec; [| done]. destruct (Hnext c eq_refl) as [Ec' Hc]. cbn [mbind option_bind] in Hd.
      injection Hd as <- <-. pose proof (int8_runs b f c s1 Hbb Ef Ec' Hc Hp1) as Hr. revert Hr.
      change (sc_pc s1) with (sc_pc s + 1). change (2 - 1) with 1. rewrite <- Z.add_assoc. change (1 + 1) with 2.
      pose proof (opcode_form_in b _ Hbb Ef) as Hin. by_opcode b Ef Hin; intros Hr; exact Hr.
    + rewrite READ_INT32_drop, Z2Nat.id in Hd by lia.
      destruct (IL_READ_INT32 (sc_code s) (sc_pc s + 1)) as [v |] eqn:Ev; [| done]. cbn [mbind option_bind] in Hd. injection Hd as <- <-.
      pose proof (int32_runs b f v s1 Hbb Ef Ev (READ_INT32_range _ _ _ Ev) Hp1) as Hr. revert Hr.
      change (sc_pc s1) with (sc_pc s + 1). change (5 - 1) with 4. rewrite <- Z.add_assoc. change (1 + 4) with 5.
      pose proof (opcode_form_in b _ Hbb Ef) as Hin. by_opcode b Ef Hin; intros Hr; exact Hr.
Qed.
End dispatch.

(** ** Typing *)

(** The wider of two operands. *)
Definition joined (i1 i2 : item) : item :=
  match i1, i2 with
  | I_int32, _ | _, I_int32 => I_int32
  | I_int16, _ | _, I_int16 => I_int16
  | I_bool, I_bool => I_bool
  | _, _ => I_int8
  end.

(** Arithmetic on two narrow operands would be done in few bits, and is refused. *)
Definition binop_item (o : cil_binop) (i1 i2 : item) : option item :=
  match o with
  | Add | Sub | Mul | Div => if decide (joined i1 i2 = I_int32) then Some I_int32 else None
  | And | Or | Xor => Some (joined i1 i2)
  | Ceq | Cgt | Clt => Some I_bool
  end.

Definition unop_item (o : cil_unop) (it : item) : option item :=
  match o with
  | Neg => if decide (it = I_int32) then Some I_int32 else None
  | Not => Some (match it with I_bool => I_int8 | _ => it end)
  end.

Definition is_unsigned (c : cil_cond) : bool :=
  match c with Bne_un | Bge_un | Bgt_un | Ble_un | Blt_un => true | _ => false end.

(** An unsigned comparison takes the width of the operand on the top. *)
Definition cond_item (c : cil_cond) (top : item) : bool :=
  negb (is_unsigned c) || bool_decide (top = I_int32).

Section typing.
Context (nargs nlocals : nat).

(** The items after an instruction; a branch on an item needs a [bool]. *)
Definition type_step (i : cil_instr) (a : list item) : option (list item) :=
  match i, a with
  | Nop, _ => Some a
  | Load x, _ => if declared nargs nlocals x then Some (I_int32 :: a) else None
  | Store x, _ :: a => if declared nargs nlocals x then Some a else None
  | Const v, _ => Some (const_item v :: a)
  | Binop o, i2 :: i1 :: a => it ← binop_item o i1 i2; Some (it :: a)
  | Unop o, it :: a => it ← unop_item o it; Some (it :: a)
  | Pop, _ :: a => Some a
  | Ret, [] => Some []
  | Ret, _ :: a => Some a
  | Br _, _ => Some []
  | (Brfalse _ | Brtrue _), I_bool :: a => Some a
  | Bcond c _, i2 :: _ :: a => if cond_item c i2 then Some a else None
  | _, _ => None
  end.

(** The items that a branch leaves for its target. *)
Definition branch_items (i : cil_instr) (a : list item) : list item :=
  match i with
  | Brfalse _ | Brtrue _ => drop 1 a
  | Bcond _ _ => drop 2 a
  | _ => a
  end.

Fixpoint lookup_saved (o : Z) (saved : list (Z * list item)) : option (list item) :=
  match saved with
  | [] => None
  | (o', a) :: saved => if decide (o' = o) then Some a else lookup_saved o saved
  end.

(** The stack that the first branch to an offset carries; none for one that was passed. *)
Definition save_branch (offset target : Z) (b : list item) (saved : list (Z * list item)) : list (Z * list item) :=
  if target <=? offset then saved
  else match lookup_saved target saved with Some _ => saved | None => (target, b) :: saved end.

(** The offsets of the instructions and the items before them. *)
Fixpoint scil_scan (fuel : nat) (code : list Z) (offset : Z) (saved : list (Z * list item)) (a : list item)
    : option (list (Z * list item)) :=
  match fuel, code with
  | _, [] => Some []
  | O, _ => None
  | S fuel, _ =>
      let a := default a (lookup_saved offset saved) in
      '(i, n) ← decode code;
      a' ← type_step i a;
      let saved := match displacement i with
        | Some d => save_branch offset (offset + n + d) (branch_items i a) saved
        | None => saved
        end in
      rest ← scil_scan fuel (drop (Z.to_nat n) code) (offset + n) saved a';
      Some ((offset, a) :: rest)
  end.

(** Whether the next instruction follows. *)
Definition falls_through (i : cil_instr) : bool := match i with Br _ | Ret => false | _ => true end.

(** An instruction follows, and branches lead to one, with the items that are there, and the
    stack is never deeper than the method says. *)
Definition points_ok (max : nat) (code : list Z) (points : list (Z * list item)) : bool :=
  forallb (fun '(o, a) =>
    match decode (drop (Z.to_nat o) code) with
    | Some (i, n) =>
        match type_step i a with
        | Some a' => (length a <=? max)%nat && (length a' <=? max)%nat &&
            (negb (falls_through i) || bool_decide ((o + n, a') ∈ points))
        | None => false
        end &&
        match displacement i with
        | Some d => bool_decide ((o + n + d, branch_items i a) ∈ points)
        | None => true
        end
    | None => false
    end) points.

Definition scil_verify (max : nat) (code : list Z) : bool :=
  match scil_scan (length code) code 0 [] [] with
  | Some points => points_ok max code points
  | None => false
  end.
End typing.

(** ** The statements *)

(** The variable of a depth. *)
Definition sl (s : scil_state) (k : slot_kind) (i : nat) (d : scil_decl) : Prop :=
  sc_typed s k !! i = Some (Some (SDecl d)).

Definition assign (k : slot_kind) (d : scil_decl) (e : stree) : stree :=
  SExpr MODIFY_EXPR (slot_type k) [SDecl d; SExpr CONVERT_EXPR (slot_type k) [e]].

Definition convert_to (ty : scil_type) (d : scil_decl) : stree := SExpr CONVERT_EXPR ty [SDecl d].

Definition binop_tree (o : cil_binop) : tree_code :=
  match o with
  | Add => PLUS_EXPR | Sub => MINUS_EXPR | Mul => MULT_EXPR | Div => TRUNC_DIV_EXPR
  | And => BIT_AND_EXPR | Or => BIT_IOR_EXPR | Xor => BIT_XOR_EXPR
  | Ceq => EQ_EXPR | Cgt => GT_EXPR | Clt => LT_EXPR
  end.
Definition unop_tree (o : cil_unop) : tree_code := match o with Neg => NEGATE_EXPR | Not => BIT_NOT_EXPR end.
Definition cond_tree (c : cil_cond) : tree_code :=
  match c with
  | Beq => EQ_EXPR | Bge | Bge_un => GE_EXPR | Bgt | Bgt_un => GT_EXPR | Ble | Ble_un => LE_EXPR
  | Blt | Blt_un => LT_EXPR | Bne_un => NE_EXPR
  end.
Definition is_compare (o : cil_binop) : bool := match o with Ceq | Cgt | Clt => true | _ => false end.

Section translates.
Context `{ScilTarget} (D : var -> scil_decl) (result : scil_decl).

(** The operands in the type of the wider one. *)
Definition operands (i1 i2 : item) (d1 d2 : scil_decl) : stree * stree * scil_type :=
  balance (SDecl d1) (SDecl d2) (slot_type (item_slot i1)) (slot_type (item_slot i2)).

Definition signed_compare (code : tree_code) (i1 i2 : item) (d1 d2 : scil_decl) : stree :=
  let '(op1, op2, _) := operands i1 i2 d1 d2 in SExpr code scil_bool_type [op1; op2].

Definition binop_expr (o : cil_binop) (i1 i2 : item) (d1 d2 : scil_decl) : stree :=
  if is_compare o then signed_compare (binop_tree o) i1 i2 d1 d2
  else let '(op1, op2, ty) := operands i1 i2 d1 d2 in SExpr (binop_tree o) ty [op1; op2].

Definition cond_expr (c : cil_cond) (i1 i2 : item) (d1 d2 : scil_decl) : stree :=
  if is_unsigned c then
    SExpr (cond_tree c) scil_bool_type [convert_to scil_uint32_type d1; convert_to scil_uint32_type d2]
  else signed_compare (cond_tree c) i1 i2 d1 d2.

(** The label of the offset, which is not removed. *)
Definition label_at (s : scil_state) (target : Z) (d : scil_decl) : Prop :=
  exists l, own_label s target = Some l /\ lb_decl l = d /\ sd_uid d ∈ sc_forced s.

Definition goto_stmt (d : scil_decl) : stree := SExpr GOTO_EXPR scil_void_type [SDecl d].
Definition branch_if (e : stree) (d : scil_decl) : stree :=
  SExpr COND_EXPR scil_void_type [e; goto_stmt d; scil_empty_stmt].
Definition branch_unless (e : stree) (d : scil_decl) : stree :=
  SExpr COND_EXPR scil_void_type [e; scil_empty_stmt; goto_stmt d].

(** The statements of an instruction before which the items are [a]. *)
Inductive translates (s : scil_state) (target : Z) : cil_instr -> list item -> list stree -> Prop :=
| tr_nop a : translates s target Nop a []
| tr_load x a d : sl s int32_stack (length a) d ->
    translates s target (Load x) a [assign int32_stack d (SDecl (D x))]
| tr_store x it a d : sl s (item_slot it) (length a) d ->
    translates s target (Store x) (it :: a)
      [SExpr MODIFY_EXPR scil_int32_type [SDecl (D x); convert_to scil_int32_type d]]
| tr_const v c a d : const_as v c -> sl s (item_slot (const_item v)) (length a) d ->
    translates s target (Const v) a
      [assign (item_slot (const_item v)) d (SInt (slot_type (item_slot (const_item v))) c)]
| tr_binop o i1 i2 it a d1 d2 d : binop_item o i1 i2 = Some it ->
    sl s (item_slot i1) (length a) d1 -> sl s (item_slot i2) (S (length a)) d2 -> sl s (item_slot it) (length a) d ->
    translates s target (Binop o) (i2 :: i1 :: a) [assign (item_slot it) d (binop_expr o i1 i2 d1 d2)]
| tr_unop o it it' a d d' : unop_item o it = Some it' ->
    sl s (item_slot it) (length a) d -> sl s (item_slot it') (length a) d' ->
    translates s target (Unop o) (it :: a)
      [assign (item_slot it') d' (SExpr (unop_tree o) (slot_type (item_slot it)) [SDecl d])]
| tr_pop it a : translates s target Pop (it :: a) []
| tr_return : translates s target Ret [] [SExpr RETURN_EXPR scil_void_type [SNull]]
| tr_return_value it a d : sl s (item_slot it) (length a) d ->
    translates s target Ret (it :: a)
      [SExpr RETURN_EXPR scil_void_type
         [SExpr MODIFY_EXPR scil_int32_type [SDecl result; convert_to scil_int32_type d]]]
| tr_br disp a l : label_at s target l -> translates s target (Br disp) a [goto_stmt l]
| tr_brtrue disp a d l : sl s int8_stack (length a) d -> label_at s target l ->
    translates s target (Brtrue disp) (I_bool :: a) [branch_if (convert_to scil_bool_type d) l]
| tr_brfalse disp a d l : sl s int8_stack (length a) d -> label_at s target l ->
    translates s target (Brfalse disp) (I_bool :: a) [branch_unless (convert_to scil_bool_type d) l]
| tr_bcond c disp i1 i2 a d1 d2 d l : cond_item c i2 = true ->
    sl s (item_slot i1) (length a) d1 -> sl s (item_slot i2) (S (length a)) d2 -> sl s int8_stack (length a) d ->
    label_at s target l ->
    translates s target (Bcond c disp) (i2 :: i1 :: a)
      [assign int8_stack d (cond_expr c i1 i2 d1 d2); branch_if (convert_to scil_bool_type d) l].
End translates.
