(* ===== verification/ScilCompile.v ===== *)
(** * ScilCompile: the statements of an instruction

    The functions of scil-instructions.c, run on a stack whose items are known, append the
    statements that [ScilInt32.translates] describes, and leave the items that
    [ScilInt32.type_step] computes. *)
From S2P Require Import Prelude Values CilMachine Trees ScilTrees ScilStack ScilMethod ScilInstr ScilParse.
From S2P Require Import ScilSlots ScilInt32.

Section compile.
Context `{ScilTarget, ScilMiddleEnd, ScilReader}.
Context (nargs nlocals max : nat) (D : var -> scil_decl) (f result : scil_decl).
Context (D_type : forall x, sd_type (D x) = scil_int32_type) (result_type : sd_type result = scil_int32_type).

#[local] Abbreviation declared := (declared nargs nlocals).

(** A method in the middle of its definition: its variables, which are not those of the
    stack, and its labels.  Aliases are for fields. *)
Record compiling (s : scil_state) : Prop := {
  c_slots : slots_ok s;
  c_size k : length (sc_typed s k) = max;
  c_function : sc_function s = Some f;
  c_result : sc_results s !! sd_uid f = Some result;
  c_arg n : (n < nargs)%nat -> sc_parameters s !! n = Some (Some (SDecl (D (Arg n))));
  c_local n : (n < nlocals)%nat -> sc_locals s !! n = Some (Some (SDecl (D (Local n))));
  c_var x : declared x = true -> (sd_uid (D x) < sc_next_uid s)%N;
  c_var_slot x i d : declared x = true -> slot_at s i d -> sd_uid d <> sd_uid (D x);
  c_alias u t : sc_alias s !! u = Some t ->
    (u < sc_next_uid s)%N /\ (forall x, declared x = true -> u <> sd_uid (D x)) /\ (forall i d, slot_at s i d -> u <> sd_uid d);
  c_label pc l : own_label s pc = Some l -> SCIL_DECL_DATA l <> No_data /\ (sd_uid (lb_decl l) < sc_next_uid s)%N;
  c_label_inj pc pc' l l' : own_label s pc = Some l -> own_label s pc' = Some l' ->
    sd_uid (lb_decl l) = sd_uid (lb_decl l') -> pc = pc';
  c_forced u : u ∈ sc_forced s -> (u < sc_next_uid s)%N
}.

(** What a computation adds: variables, and labels; it reads no code. *)
Record grows (s s' : scil_state) : Prop := {
  g_ok : compiling s -> compiling s';
  g_sl k i d : sl s k i d -> sl s' k i d;
  g_label pc l : own_label s pc = Some l -> own_label s' pc = Some l;
  g_forced : sc_forced s ⊆ sc_forced s';
  g_code : sc_code s' = sc_code s;
  g_arguments : sc_arguments s' = sc_arguments s;
  g_vars : sc_vars s `suffix_of` sc_vars s'
}.

#[export] Instance grows_preorder : PreOrder grows.
Proof using Type.
  clear D_type result_type.
  split.
  - intros s. by split.
  - intros s1 s2 s3 [A1 A2 A3 A4 A5 A6 A7] [B1 B2 B3 B4 B5 B6 B7]. split; eauto; [set_solver | congruence | congruence | by etrans].
Qed.

(** The items of a list of variables. *)
Fixpoint items_in (s : scil_state) (a : list item) (es : list stree) : Prop :=
  match a, es with
  | [], [] => True
  | it :: a, e :: es => (exists d, e = SDecl d /\ sl s (item_slot it) (length a) d) /\ items_in s a es
  | _, _ => False
  end.
Definition repr (s : scil_state) (a : list item) (st : stack_t) : Prop :=
  top_index st = Z.of_nat (length a) /\ items_in s a (entries st).

Lemma items_in_grows s s' a es : grows s s' -> items_in s a es -> items_in s' a es.
Proof.
  intros Hg. revert es. induction a as [| it a IH]; intros [| e es]; try done. cbn.
  intros [(d & -> & Hd) Ha]. split; [| by apply IH]. exists d. split; [done | by eapply g_sl].
Qed.
Lemma repr_grows s s' a st : grows s s' -> repr s a st -> repr s' a st.
Proof. intros Hg [? ?]. split; [done | by eapply items_in_grows]. Qed.

Lemma translates_grows s s' t i a stmts :
  grows s s' -> translates D result s t i a stmts -> translates D result s' t i a stmts.
Proof.
  intros Hg Htr. assert (forall d, label_at s t d -> label_at s' t d) as Hlab.
  { intros d (l & El & Ed & Hf). exists l. split_and!; [by eapply g_label | done |]. by apply (g_forced _ _ Hg). }
  destruct Htr; econstructor; eauto; by eapply g_sl.
Qed.

(** ** Elementary steps *)

Lemma sl_slot_at s k i d : slots_ok s -> sl s k i d -> slot_at s i d /\ sd_type d = slot_type k.
Proof.
  intros Hs Hd. destruct (slots_typed s Hs k i _ Hd) as (d' & [= <-] & Ht). split; [| done]. left. by exists k.
Qed.

(** No alias stands for a variable. *)
Lemma alias_slot s i d : compiling s -> slot_at s i d -> scil_alias_of s (SDecl d) = None.
Proof.
  intros Hc Hd. cbn. destruct (sc_alias s !! sd_uid d) as [t |] eqn:E; [| done].
  by destruct (c_alias s Hc _ t E) as (_ & _ & Hn); destruct (Hn i d Hd).
Qed.
Lemma alias_var s x : compiling s -> declared x = true -> scil_alias_of s (SDecl (D x)) = None.
Proof.
  intros Hc Hx. cbn. destruct (sc_alias s !! sd_uid (D x)) as [t |] eqn:E; [| done].
  by destruct (c_alias s Hc _ t E) as (_ & Hn & _); destruct (Hn x Hx).
Qed.

(** Changes that [compiling] does not look at, but for the stack. *)
Lemma grows_same s s' :
  (compiling s -> slots_ok s') -> (forall k, sc_typed s' k = sc_typed s k) -> sc_valuetypes s' = sc_valuetypes s ->
  sc_function s' = sc_function s -> sc_results s' = sc_results s -> sc_parameters s' = sc_parameters s ->
  sc_locals s' = sc_locals s -> sc_next_uid s' = sc_next_uid s -> sc_alias s' = sc_alias s ->
  sc_labels s' = sc_labels s -> sc_forced s' = sc_forced s -> sc_code s' = sc_code s ->
  sc_arguments s' = sc_arguments s -> sc_vars s' = sc_vars s -> grows s s'.
Proof.
  intros Hs Ht Hv Hf Hr Hp Hl Hu Ha Hlab Hfo Hc Harg Hvars.
  assert (forall pc, own_label s' pc = own_label s pc) as Hown by (intros pc; unfold own_label; by rewrite Hf, Hlab).
  assert (forall i d, slot_at s' i d -> slot_at s i d) as Hsl.
  { intros i d. unfold slot_at. rewrite Hv. intros [(k & E) | E]; [left; exists k; by rewrite <- Ht | by right]. }
  split; [| | | by rewrite Hfo | done | done | by rewrite Hvars].
  - intros C. split.
    + by apply Hs.
    + intros k. rewrite Ht. apply (c_size s C).
    + rewrite Hf. apply (c_function s C).
    + rewrite Hr. apply (c_result s C).
    + rewrite Hp. apply (c_arg s C).
    + rewrite Hl. apply (c_local s C).
    + rewrite Hu. apply (c_var s C).
    + intros x i d Hx Hd. by apply (c_var_slot s C x i d Hx), Hsl.
    + intros u t. rewrite Ha, Hu. intros E. destruct (c_alias s C u t E) as (? & ? & Hn).
      split_and!; [done | done |]. intros i d Hd. by apply (Hn i d), Hsl.
    + intros pc l. rewrite Hown, Hu. apply (c_label s C).
    + intros pc pc' l l'. rewrite !Hown. apply (c_label_inj s C).
    + intros u. rewrite Hfo, Hu. apply (c_forced s C).
  - intros k i d. unfold sl. by rewrite Ht.
  - intros pc l. by rewrite Hown.
Qed.

(** Appending a statement. *)
Lemma append_run stmt s :
  scil_append_stmt stmt s = Done tt (set_sc_body (sc_body s ++ [stmt]) s) /\ grows s (set_sc_body (sc_body s ++ [stmt]) s).
Proof.
  split; [done |]. apply grows_same; try done. intros C. eapply slots_ok_same; [| exact (c_slots s C)]. by split.
Qed.

(** The stack changed to one that is good. *)
Lemma grows_stack s st : (compiling s -> stack_in s st) -> grows s (set_sc_stack st s).
Proof. intros Hst. apply grows_same; try done. intros C. apply slots_ok_stack; [exact (c_slots s C) | auto]. Qed.

Lemma items_in_length s a es : items_in s a es -> length es = length a.
Proof. revert es. induction a as [| it a IH]; intros [| e es]; try done. cbn. intros [_ Ha]. by rewrite (IH es Ha). Qed.

Lemma items_in_lookup s a es j e :
  items_in s a es -> es !! j = Some e -> exists k d, e = SDecl d /\ sl s k (length es - 1 - j) d.
Proof.
  revert es j. induction a as [| it a IH]; intros [| e' es] j Ha Hj; try done. destruct Ha as [(d & -> & Hd) Ha].
  pose proof (items_in_length _ _ _ Ha) as Hl. destruct j as [| j]; cbn in Hj.
  - injection Hj as <-. exists (item_slot it), d. split; [done |]. cbn. by replace (length es - 0 - 0)%nat with (length a) by lia.
  - destruct (IH es j Ha Hj) as (k & d' & -> & Hd'). exists k, d'. split; [done |]. cbn.
    by replace (length es - 0 - S j)%nat with (length es - 1 - j)%nat by lia.
Qed.

Lemma repr_stack_in s a st : compiling s -> repr s a st -> stack_in s st.
Proof.
  intros C [Ht Ha]. pose proof (items_in_length _ _ _ Ha) as Hl. split; [congruence |]. intros j e Hj.
  destruct (items_in_lookup _ _ _ _ _ Ha Hj) as (k & d & -> & Hd). exists d. split; [done |].
  by apply (sl_slot_at s k) in Hd as [? _]; [| apply c_slots].
Qed.

(** Popping an item. *)
Lemma pop_run it a s :
  compiling s -> repr s (it :: a) (sc_stack s) ->
  exists d s', scil_stack_pop s = Done (SDecl d) s' /\ grows s s' /\ sl s (item_slot it) (length a) d /\
    repr s' a (sc_stack s') /\ sc_pc s' = sc_pc s /\ sc_body s' = sc_body s /\ (forall pc, own_label s' pc = own_label s pc).
Proof.
  intros C [Ht Ha]. unfold scil_stack_pop, mbind, comp_bind, get. destruct (sc_stack s) as [top es] eqn:E.
  cbn [entries top_index] in *. destruct es as [| e es]; [done |]. destruct Ha as [(d & -> & Hd) Ha].
  exists d. eexists. split; [reflexivity |].
  assert (repr s a (mkStack (top - 1) es)) as Hr by (split; [cbn in *; lia | done]).
  assert (grows s (set_sc_stack (mkStack (top - 1) es) s)) as Hg by (apply grows_stack; intros; by eapply repr_stack_in).
  split_and!; try done. by eapply repr_grows.
Qed.

(** The state with a new variable of the typed stack [k]. *)
Definition with_slot (s : scil_state) (k : slot_kind) (i : Z) : scil_state :=
  let s1 := added s (slot_type k) in
  set_sc_typed (fun k' => if decide (k' = k) then put i (Some (SDecl (new_decl s (slot_type k)))) (sc_typed s1 k)
                          else sc_typed s1 k') s1.

Lemma with_slot_sl s k n : (n < length (sc_typed s k))%nat -> sc_typed s k !! n = Some None ->
  sl (with_slot s k (Z.of_nat n)) k n (new_decl s (slot_type k)) /\
  (forall k' i d, sl s k' i d -> sl (with_slot s k (Z.of_nat n)) k' i d).
Proof.
  intros Hn E. unfold sl, put. cbn. rewrite decide_True by done. unfold put. rewrite Nat2Z.id. split; [by apply list_lookup_insert_eq |].
  intros k' i d Hd. destruct (decide (k' = k)) as [-> |]; [| done].
  destruct (decide (i = n)) as [-> | Hne]; [congruence | by rewrite list_lookup_insert_ne].
Qed.

Lemma grows_with_slot s k n :
  compiling s -> (compiling s -> slots_ok (with_slot s k (Z.of_nat n))) -> sc_typed s k !! n = Some None ->
  grows s (with_slot s k (Z.of_nat n)).
Proof.
  intros C Hok E. pose proof (lookup_lt_Some _ _ _ E) as Hn. destruct (with_slot_sl s k n Hn E) as [_ Hm].
  set (s' := with_slot s k (Z.of_nat n)) in *.
  assert (forall i d, slot_at s' i d -> slot_at s i d \/ sd_uid d = sc_next_uid s) as Hsl.
  { intros i d [(k' & Ed & Et) | Hv]; [| by left; right]. cbn in Ed.
    destruct (decide (k' = k)) as [-> |]; [| left; left; by exists k'].
    destruct (put_lookup _ _ _ _ _ Ed) as [Ed' | [_ [= ->]]]; [left; left; by exists k | by right]. }
  split; [| exact Hm | done | done | done | done | by exists [new_decl s (slot_type k)]]. intros _. split.
  - by apply Hok.
  - intros k'. cbn. destruct (decide (k' = k)) as [-> |]; [unfold put; rewrite length_insert |]; apply (c_size s C).
  - apply (c_function s C).
  - apply (c_result s C).
  - apply (c_arg s C).
  - apply (c_local s C).
  - intros x Hx. pose proof (c_var s C x Hx). cbn. lia.
  - intros x i d Hx Hd. destruct (Hsl i d Hd) as [Hd' | ->]; [by apply (c_var_slot s C x i) |].
    pose proof (c_var s C x Hx). lia.
  - intros u t Eu. destruct (c_alias s C u t Eu) as (Hu & Hx & Hs). split_and!; [cbn; lia | done |].
    intros i d Hd. destruct (Hsl i d Hd) as [Hd' | ->]; [by apply (Hs i) | lia].
  - intros pc l El. destruct (c_label s C pc l El) as [? ?]. split; [done | cbn; lia].
  - apply (c_label_inj s C).
  - intros u Hu. pose proof (c_forced s C u Hu). cbn. lia.
Qed.

Lemma get_variable_run type k n s :
  compiling s -> get_stack type = Some k -> top_index (sc_stack s) = Z.of_nat n -> (n < max)%nat ->
  exists d s', scil_get_stack_variable type s = Done (SDecl d) s' /\ grows s s' /\ sl s' k n d /\
    sc_stack s' = sc_stack s /\ sc_pc s' = sc_pc s /\ sc_body s' = sc_body s /\ (forall pc, own_label s' pc = own_label s pc).
Proof.
  intros C Hk Ht Hn. pose proof (get_stack_variable_ok type s (c_slots s C)) as Hok. unfold wp in Hok.
  assert (exists v, sc_typed s k !! n = Some v) as [v E] by (apply lookup_lt_is_Some_2; by rewrite (c_size s C)).
  assert (scil_get_stack_variable type s = match v with
    | Some var => Done var s
    | None => Done (SDecl (new_decl s (slot_type k))) (with_slot s k (Z.of_nat n)) end) as Er.
  { unfold scil_get_stack_variable, mbind, comp_bind, get, array_get. rewrite Ht, Hk, Nat2Z.id, E.
    rewrite (proj2 (Z.leb_le 0 _)) by lia. by destruct v. }
  rewrite Er in Hok. rewrite Er. destruct v as [var |].
  - destruct (slots_typed s (c_slots s C) k n var E) as (d & -> & _). exists d, s. by split_and!.
  - destruct Hok as (Hok & _). eexists _, _. split; [reflexivity |].
    pose proof (lookup_lt_Some _ _ _ E) as Hlt. destruct (with_slot_sl s k n Hlt E) as [Hs _].
    split_and!; try done. by apply grows_with_slot.
Qed.

(** Pushing an expression that has no alias. *)
Lemma push_run type k a e s :
  compiling s -> get_stack type = Some k -> repr s a (sc_stack s) -> (length a < max)%nat -> scil_alias_of s e = None ->
  exists d s', instr_push type e s = Done (assign k d e) s' /\ grows s s' /\ sl s' k (length a) d /\
    (forall it, item_slot it = k -> repr s' (it :: a) (sc_stack s')) /\
    sc_pc s' = sc_pc s /\ sc_body s' = sc_body s /\ (forall pc, own_label s' pc = own_label s pc).
Proof.
  intros C Hk Hr Hn He. destruct (get_variable_run type k (length a) s C Hk (proj1 Hr) Hn)
    as (d & s1 & Er & Hg & Hd & Hst & Hpc & Hb & Hl).
  assert (compiling s1) as C1 by by apply (g_ok _ _ Hg).
  destruct (sl_slot_at s1 k _ d (c_slots _ C1) Hd) as [Hat Hty].
  set (st := mkStack (top_index (sc_stack s1) + 1) (SDecl d :: entries (sc_stack s1))).
  assert (forall it, item_slot it = k -> repr s1 (it :: a) st) as Hr'.
  { intros it <-. destruct (repr_grows _ _ _ _ Hg Hr) as [Ht Ha]. rewrite <- Hst in Ht, Ha. unfold st.
    split; [cbn; lia |]. split; [| done]. by exists d. }
  assert (grows s1 (set_sc_stack st s1)) as Hg2.
  { apply grows_stack. intros _. destruct (repr_grows _ _ _ _ Hg Hr) as [Ht Ha].
    apply stack_in_push; [apply (slots_stack _ (c_slots _ C1)) |]. rewrite Hst, Ht, Nat2Z.id. exact Hat. }
  exists d, (set_sc_stack st s1). split.
  { unfold instr_push, use_alias_if_any, mbind, comp_bind, get. rewrite He. cbn [default mret comp_ret].
    rewrite Er. cbn. by rewrite Hty. }
  split_and!; [by etrans | by apply Hg2 | | done | done | done].
  intros it Hit. apply (repr_grows _ _ _ _ Hg2), (Hr' it Hit).
Qed.

(** ** Labels *)

(** A label that was not there before. *)
Lemma grows_new_label s s' o d data :
  compiling s -> own_label s o = None -> same_stack s (set_sc_labels (sc_labels s) s') ->
  sc_function s' = sc_function s -> sc_results s' = sc_results s -> sc_parameters s' = sc_parameters s ->
  sc_locals s' = sc_locals s -> sc_alias s' = sc_alias s -> sc_code s' = sc_code s ->
  sc_arguments s' = sc_arguments s -> sc_vars s' = sc_vars s ->
  sc_next_uid s' = (sc_next_uid s + 1)%N -> sd_uid d = sc_next_uid s ->
  own_label s' o = Some (mkLabel d data) -> (forall o', o' <> o -> own_label s' o' = own_label s o') ->
  data <> No_data -> (forall st, data = Saved st -> stack_in s st) ->
  sc_forced s ⊆ sc_forced s' -> (forall u, u ∈ sc_forced s' -> (u < sc_next_uid s')%N) -> grows s s'.
Proof.
  intros C Hnone Hsame Hf Hr Hp Hl Ha Hcode Harg Hvars Hnext Hd Ho Hother Hdata Hst Hfo Hfresh.
  assert (forall i d, slot_at s' i d <-> slot_at s i d) as Hsl by exact (fun i d => slot_at_same _ _ i d Hsame).
  assert (forall o' l, own_label s' o' = Some l -> (o' = o /\ l = mkLabel d data) \/ own_label s o' = Some l) as Hown.
  { intros o' l El. destruct (decide (o' = o)) as [-> | Hne]; [left; split; congruence | right; by rewrite <- Hother]. }
  assert (forall st, stack_in s st -> stack_in s' st) as Hin by (intros st; apply stack_in_mono; intros i e; by rewrite Hsl).
  split; [| | | done | done | done | by rewrite Hvars].
  - intros _. split.
    + destruct (slots_ok_same _ _ Hsame (c_slots s C)) as [H1' H2' H3' H4' H5' _]. split; [exact H1' | exact H2' | exact H3' | exact H4' | exact H5' |].
      intros o' l st El Ed. destruct (Hown o' l El) as [[-> ->] | El']; [by apply Hin, Hst |].
      apply Hin. by apply (slots_labels s (c_slots s C) o' l).
    + intros k. rewrite <- (c_size s C k). f_equal. exact (same_typed _ _ Hsame k).
    + rewrite Hf. apply (c_function s C).
    + rewrite Hr. apply (c_result s C).
    + rewrite Hp. apply (c_arg s C).
    + rewrite Hl. apply (c_local s C).
    + intros x Hx. pose proof (c_var s C x Hx). lia.
    + intros x i e Hx He. apply (c_var_slot s C x i e Hx). by apply Hsl.
    + intros u t. rewrite Ha. intros E. destruct (c_alias s C u t E) as (? & ? & Hn). split_and!; [lia | done |].
      intros i e He. apply (Hn i e). by apply Hsl.
    + intros o' l El. destruct (Hown o' l El) as [[-> ->] | El']; [split; [done | cbn; lia] |].
      destruct (c_label s C o' l El'). split; [done | lia].
    + intros o1 o2 l1 l2 E1 E2 Eu. destruct (Hown o1 l1 E1) as [[-> ->] | E1'], (Hown o2 l2 E2) as [[-> ->] | E2']; try done.
      * destruct (c_label s C o2 l2 E2'). cbn in Eu. lia.
      * destruct (c_label s C o1 l1 E1'). cbn in Eu. lia.
      * by apply (c_label_inj s C o1 o2 l1 l2).
    + done.
  - intros k i e. unfold sl. by rewrite <- (same_typed _ _ Hsame k).
  - intros o' l El. rewrite Hother; [done |]. intros ->. congruence.
Qed.

Definition new_label (s : scil_state) (o : Z) : scil_decl :=
  mkScilDecl LABEL_DECL (sc_next_uid s) (Label_id o) scil_void_type None.
(** The state with the label, which carries [data]. *)
Definition with_label (s : scil_state) (o : Z) (data : label_data) (forced : gset N) : scil_state :=
  set_sc_labels (<[(sd_uid f, o) := mkLabel (new_label s o) data]>
      (<[(sd_uid f, o) := mkLabel (new_label s o) No_data]> (sc_labels s)))
    (set_sc_forced forced (set_sc_next_uid (sc_next_uid s + 1)%N s)).

Lemma with_label_own s o data forced o' : sc_function s = Some f ->
  own_label (with_label s o data forced) o' = if decide (o' = o) then Some (mkLabel (new_label s o) data) else own_label s o'.
Proof.
  intros Hf. unfold own_label. cbn. rewrite Hf. cbn. case_decide as E; [subst; by rewrite lookup_insert_eq |].
  by rewrite !lookup_insert_ne by congruence.
Qed.

Lemma grows_with_label s o data forced :
  compiling s -> own_label s o = None -> data <> No_data -> (forall st, data = Saved st -> stack_in s st) ->
  sc_forced s ⊆ forced -> (forall u, u ∈ forced -> (u < sc_next_uid s + 1)%N) -> grows s (with_label s o data forced).
Proof.
  intros C Ho Hd Hst Hf Hu. pose proof (c_function s C) as Hfn.
  apply (grows_new_label s _ o (new_label s o) data); try done.
  - split; try done. cbn. lia.
  - rewrite with_label_own by done. by rewrite decide_True.
  - intros o' Hne. rewrite with_label_own by done. by rewrite decide_False.
Qed.

Lemma get_label_run s o :
  compiling s ->
  scil_get_label o s = match own_label s o with
    | Some l => Done l s
    | None => Done (mkLabel (new_label s o) No_data)
        (set_sc_forced (sc_forced s ∖ {[sc_next_uid s]})
          (set_sc_labels (<[(sd_uid f, o) := mkLabel (new_label s o) No_data]> (sc_labels s))
            (set_sc_next_uid (sc_next_uid s + 1)%N s)))
    end.
Proof.
  intros C. pose proof (c_function s C) as Hf. unfold scil_get_label, label_key, current_function, mbind, comp_bind, get, own_label.
  rewrite Hf. cbn. by destruct (sc_labels s !! (sd_uid f, o)).
Qed.

Lemma label_data_run s o l data :
  sc_function s = Some f ->
  set_label_data o l data s = Done tt (set_sc_labels (<[(sd_uid f, o) := mkLabel (lb_decl l) data]> (sc_labels s)) s).
Proof. intros Hf. unfold set_label_data, label_key, current_function, mbind, comp_bind, get. by rewrite Hf. Qed.

Lemma forced_fresh s : compiling s -> sc_forced s ∖ {[sc_next_uid s]} = sc_forced s.
Proof.
  intros C. apply leibniz_equiv. intros u. split; [by intros [? _]%elem_of_difference |]. intros Hu. apply elem_of_difference. split; [done |].
  rewrite elem_of_singleton. intros E. rewrite E in Hu. pose proof (c_forced s C _ Hu). lia.
Qed.

(** The label of an instruction: the stack that it carries is put back. *)
Lemma set_label_run s o :
  compiling s ->
  exists l s', scil_set_label o s = Done tt s' /\ grows s s' /\ own_label s' o = Some l /\
    (forall o', o' <> o -> own_label s' o' = own_label s o') /\ sc_pc s' = sc_pc s /\
    sc_body s' = sc_body s ++ [SExpr LABEL_EXPR scil_void_type [SDecl (lb_decl l)]] /\
    sc_stack s' = match own_label s o with Some (mkLabel _ (Saved st)) => st | _ => sc_stack s end.
Proof.
  intros C. pose proof (c_function s C) as Hf. unfold scil_set_label.
  unfold mbind at 1, comp_bind at 1. rewrite (get_label_run s o C).
  destruct (own_label s o) as [l |] eqn:El.
  - destruct (c_label s C o l El) as [Hne _]. destruct l as [d data]. cbn [lb_decl SCIL_DECL_DATA] in *.
    destruct data as [| | st]; [done | |]; cbn.
    + destruct (append_run (SExpr LABEL_EXPR scil_void_type [SDecl d]) s) as [_ Hg].
      eexists (mkLabel d Passed), _. split; [reflexivity |]. split_and!; try done.
    + assert (grows s (set_sc_stack st s)) as Hg1.
      { apply grows_stack. intros _. by apply (slots_labels s (c_slots s C) o (mkLabel d (Saved st))). }
      destruct (append_run (SExpr LABEL_EXPR scil_void_type [SDecl d]) (set_sc_stack st s)) as [_ Hg2].
      eexists (mkLabel d (Saved st)), _. split; [reflexivity |]. split_and!; try done. by etrans.
  - cbn -[set_label_data scil_append_stmt]. unfold mbind, comp_bind. rewrite label_data_run by done.
    cbn. rewrite (forced_fresh s C).
    set (s1 := with_label s o Passed (sc_forced s)).
    assert (grows s s1) as Hg1.
    { apply grows_with_label; try done. intros u Hu. pose proof (c_forced s C u Hu). lia. }
    destruct (append_run (SExpr LABEL_EXPR scil_void_type [SDecl (new_label s o)]) s1) as [_ Hg2].
    eexists (mkLabel (new_label s o) Passed), _. split; [reflexivity |].
    split_and!; try done; [by etrans | |].
    + pose proof (with_label_own s o Passed (sc_forced s) o Hf) as E. rewrite decide_True in E by done. exact E.
    + intros o' Hne. pose proof (with_label_own s o Passed (sc_forced s) o' Hf) as E. rewrite decide_False in E by done. exact E.
Qed.

(** A jump: the label stays, and the first jump to it leaves the stack there. *)
Lemma goto_run s t b :
  compiling s -> repr s b (sc_stack s) ->
  exists d s', instr_goto t s = Done (goto_stmt d) s' /\ grows s s' /\ label_at s' t d /\
    (forall o, o <> t -> own_label s' o = own_label s o) /\
    (own_label s t = None -> exists st, own_label s' t = Some (mkLabel d (Saved st)) /\ repr s' b st) /\
    sc_pc s' = sc_pc s /\ sc_body s' = sc_body s /\ sc_stack s' = sc_stack s.
Proof.
  intros C Hr. pose proof (c_function s C) as Hf. unfold instr_goto.
  unfold mbind at 1, comp_bind at 1. rewrite (get_label_run s t C).
  destruct (own_label s t) as [l |] eqn:El.
  - destruct (c_label s C t l El) as [Hne Hu]. set (s1 := set_sc_forced ({[sd_uid (lb_decl l)]} ∪ sc_forced s) s).
    assert (grows s s1) as Hg.
    { split; try done; [| set_solver]. intros _. destruct C as [C1 C2 C3 C4 C5 C6 C7 C8 C9 C10 C11 C12]. split;
        [by eapply slots_ok_same; [| exact C1] | exact C2 | exact C3 | exact C4 | exact C5 | exact C6 | exact C7
        | exact C8 | exact C9 | exact C10 | exact C11 |].
      cbn. intros u Hin. apply elem_of_union in Hin as [->%elem_of_singleton | Hin]; auto. }
    exists (lb_decl l), s1. split; [cbn; by destruct (SCIL_DECL_DATA l) |]. split_and!; try done.
    exists l. split_and!; try done. cbn. set_solver.
  - unfold scil_copy_stack, mbind, comp_bind, get, modify. cbn -[set_label_data]. rewrite label_data_run by done.
    cbn. rewrite (forced_fresh s C).
    set (s1 := with_label s t (Saved (sc_stack s)) ({[sc_next_uid s]} ∪ sc_forced s)).
    assert (own_label s1 t = Some (mkLabel (new_label s t) (Saved (sc_stack s)))) as Hown
      by (unfold s1; rewrite with_label_own by done; by rewrite decide_True).
    assert (grows s s1) as Hg.
    { apply grows_with_label; [done | done | done | | set_solver |].
      { intros st E. injection E as <-. by apply (slots_stack s (c_slots s C)). }
      intros u Hu. apply elem_of_union in Hu as [->%elem_of_singleton | Hu]; [lia |]. pose proof (c_forced s C u Hu). lia. }
    exists (new_label s t), s1. split; [reflexivity |]. split_and!; try done.
    + exists (mkLabel (new_label s t) (Saved (sc_stack s))). split_and!; [exact Hown | done |]. cbn. set_solver.
    + intros o Hne. unfold s1. rewrite with_label_own by done. by rewrite decide_False.
    + intros _. exists (sc_stack s). split; [exact Hown | by eapply repr_grows].
Qed.

(** ** Statements *)

(** The computation appended these statements and made no label. *)
Definition emits (s s' : scil_state) (stmts : list stree) : Prop :=
  grows s s' /\ sc_pc s' = sc_pc s /\ sc_body s' = sc_body s ++ stmts /\ (forall o, own_label s' o = own_label s o).

Lemma scil_emits_trans s1 s2 s3 l1 l2 : emits s1 s2 l1 -> emits s2 s3 l2 -> emits s1 s3 (l1 ++ l2).
Proof.
  intros (A1 & A2 & A3 & A4) (B1 & B2 & B3 & B4). split_and!; [by etrans | congruence | |].
  - by rewrite B3, A3, app_assoc.
  - intros o. by rewrite B4.
Qed.

Lemma emits_nil s s' : grows s s' -> sc_pc s' = sc_pc s -> sc_body s' = sc_body s ->
  (forall o, own_label s' o = own_label s o) -> emits s s' [].
Proof. intros ? ? E ?. split_and!; try done. by rewrite E, app_nil_r. Qed.

Lemma append_emits stmt s :
  scil_append_stmt stmt s = Done tt (set_sc_body (sc_body s ++ [stmt]) s) /\ emits s (set_sc_body (sc_body s ++ [stmt]) s) [stmt].
Proof. split; [done |]. split_and!; try done. apply append_run. Qed.

Lemma get_stack_slot k : get_stack (slot_type k) = Some k.
Proof. by destruct k. Qed.

(** Pushing and appending the assignment. *)
Lemma push_emits type it a e s :
  compiling s -> get_stack type = Some (item_slot it) -> repr s a (sc_stack s) -> (length a < max)%nat ->
  scil_alias_of s e = None ->
  exists d s', append_stmt (instr_push type e) s = Done tt s' /\ emits s s' [assign (item_slot it) d e] /\
    sl s' (item_slot it) (length a) d /\ repr s' (it :: a) (sc_stack s').
Proof.
  intros C Hk Hr Hn He. destruct (push_run type _ a e s C Hk Hr Hn He) as (d & s1 & Er & Hg & Hd & Hr1 & Hpc & Hb & Hl).
  destruct (append_emits (assign (item_slot it) d e) s1) as [Ea Hea].
  exists d. eexists. split; [unfold append_stmt; rewrite (bind_done _ _ _ _ _ Er); exact Ea |].
  split_and!; try done.
  - apply (scil_emits_trans s s1 _ [] _); [by apply emits_nil | done].
  - exact (repr_grows s1 _ _ _ (proj1 Hea) (Hr1 it eq_refl)).
Qed.

Lemma type_of_slot s k i d : compiling s -> sl s k i d -> forall s', scil_type_of (SDecl d) s' = Done (slot_type k) s'.
Proof. intros C Hd s'. destruct (sl_slot_at s k i d (c_slots s C) Hd) as [_ Ht]. unfold scil_type_of. cbn. by rewrite Ht. Qed.

Lemma pop_emits it a s :
  compiling s -> repr s (it :: a) (sc_stack s) ->
  exists d s', scil_stack_pop s = Done (SDecl d) s' /\ emits s s' [] /\ sl s' (item_slot it) (length a) d /\
    repr s' a (sc_stack s').
Proof.
  intros C Hr. destruct (pop_run it a s C Hr) as (d & s1 & Er & Hg & Hd & Hr1 & Hpc & Hb & Hl).
  exists d, s1. split_and!; [done | by apply emits_nil | by eapply g_sl | done].
Qed.

Lemma pop_convert_emits type it a s :
  compiling s -> repr s (it :: a) (sc_stack s) ->
  exists d s', pop_convert type s = Done (convert_to type d) s' /\ emits s s' [] /\ sl s' (item_slot it) (length a) d /\
    repr s' a (sc_stack s').
Proof.
  intros C Hr. destruct (pop_emits it a s C Hr) as (d & s1 & Er & ? & ? & ?). exists d, s1.
  split_and!; try done. unfold pop_convert. by rewrite (bind_done _ _ _ _ _ Er).
Qed.

Lemma emits_ok s s' l : emits s s' l -> compiling s -> compiling s'.
Proof. intros (Hg & _). apply (g_ok _ _ Hg). Qed.
Lemma emits_sl s s' l k i d : emits s s' l -> sl s k i d -> sl s' k i d.
Proof. intros (Hg & _). apply (g_sl _ _ Hg). Qed.
Lemma emits_repr s s' l a st : emits s s' l -> repr s a st -> repr s' a st.
Proof. intros (Hg & _). by apply repr_grows. Qed.

Lemma pop_balanced_emits i1 i2 a s :
  compiling s -> repr s (i2 :: i1 :: a) (sc_stack s) ->
  exists d1 d2 s', pop_balanced s = Done (operands i1 i2 d1 d2) s' /\ emits s s' [] /\
    sl s' (item_slot i1) (length a) d1 /\ sl s' (item_slot i2) (S (length a)) d2 /\ repr s' a (sc_stack s').
Proof.
  intros C Hr. destruct (pop_emits i2 (i1 :: a) s C Hr) as (d2 & s1 & E1 & He1 & Hd2 & Hr1).
  assert (compiling s1) as C1 by by eapply emits_ok.
  destruct (pop_emits i1 a s1 C1 Hr1) as (d1 & s2 & E2 & He2 & Hd1 & Hr2).
  assert (compiling s2) as C2 by by eapply emits_ok.
  assert (sl s2 (item_slot i2) (S (length a)) d2) as Hd2' by by eapply emits_sl.
  exists d1, d2, s2. split_and!; try done; [| by apply (scil_emits_trans s s1 s2 [] [])].
  unfold pop_balanced. rewrite (bind_done _ _ _ _ _ E1), (bind_done _ _ _ _ _ E2).
  rewrite (bind_done _ _ _ _ _ (type_of_slot s2 _ _ d1 C2 Hd1 s2)), (bind_done _ _ _ _ _ (type_of_slot s2 _ _ d2 C2 Hd2' s2)).
  done.
Qed.

Lemma operands_type i1 i2 d1 d2 : (operands i1 i2 d1 d2).2 = slot_type (item_slot (joined i1 i2)).
Proof. by destruct i1, i2. Qed.

(** An expression has no alias. *)
Lemma alias_expr s code ty ops : scil_alias_of s (SExpr code ty ops) = None.
Proof. done. Qed.

Lemma binop_emits code i1 i2 a s :
  compiling s -> repr s (i2 :: i1 :: a) (sc_stack s) -> (length a < max)%nat ->
  exists d1 d2 d s', append_binop code s = Done tt s' /\
    emits s s' [assign (item_slot (joined i1 i2)) d
      (let '(op1, op2, ty) := operands i1 i2 d1 d2 in SExpr code ty [op1; op2])] /\
    sl s' (item_slot i1) (length a) d1 /\ sl s' (item_slot i2) (S (length a)) d2 /\
    sl s' (item_slot (joined i1 i2)) (length a) d /\ repr s' (joined i1 i2 :: a) (sc_stack s').
Proof.
  intros C Hr Hn. destruct (pop_balanced_emits i1 i2 a s C Hr) as (d1 & d2 & s1 & E1 & He1 & Hd1 & Hd2 & Hr1).
  assert (compiling s1) as C1 by by eapply emits_ok. pose proof (operands_type i1 i2 d1 d2) as Hty.
  destruct (operands i1 i2 d1 d2) as [[op1 op2] ty] eqn:Eo. cbn in Hty. subst ty.
  destruct (push_emits (slot_type (item_slot (joined i1 i2))) (joined i1 i2) a
    (SExpr code (slot_type (item_slot (joined i1 i2))) [op1; op2]) s1 C1 (get_stack_slot _) Hr1 Hn eq_refl)
    as (d & s2 & E2 & He2 & Hd & Hr2).
  exists d1, d2, d, s2. split_and!; try done; [| | by eapply emits_sl | by eapply emits_sl].
  - unfold append_binop, append_stmt, instr_binop in *. rewrite bind_assoc, (bind_done _ _ _ _ _ E1). exact E2.
  - rewrite Eo. by apply (scil_emits_trans s s1 s2 []).
Qed.

Lemma compare_emits code i1 i2 a s :
  compiling s -> repr s (i2 :: i1 :: a) (sc_stack s) -> (length a < max)%nat ->
  exists d1 d2 d s', append_stmt (instr_binop_typed code scil_bool_type) s = Done tt s' /\
    emits s s' [assign int8_stack d (signed_compare code i1 i2 d1 d2)] /\
    sl s' (item_slot i1) (length a) d1 /\ sl s' (item_slot i2) (S (length a)) d2 /\
    sl s' int8_stack (length a) d /\ repr s' (I_bool :: a) (sc_stack s').
Proof.
  intros C Hr Hn. destruct (pop_balanced_emits i1 i2 a s C Hr) as (d1 & d2 & s1 & E1 & He1 & Hd1 & Hd2 & Hr1).
  assert (compiling s1) as C1 by by eapply emits_ok. unfold signed_compare.
  destruct (operands i1 i2 d1 d2) as [[op1 op2] ty] eqn:Eo.
  destruct (push_emits scil_bool_type I_bool a (SExpr code scil_bool_type [op1; op2]) s1 C1 eq_refl Hr1 Hn eq_refl)
    as (d & s2 & E2 & He2 & Hd & Hr2).
  exists d1, d2, d, s2. rewrite Eo. split_and!; try done; [| | by eapply emits_sl | by eapply emits_sl].
  - unfold append_stmt, instr_binop_typed in *. rewrite bind_assoc, (bind_done _ _ _ _ _ E1). exact E2.
  - by apply (scil_emits_trans s s1 s2 []).
Qed.

Lemma top_run it a s :
  compiling s -> repr s (it :: a) (sc_stack s) ->
  exists d, scil_stack_top s = Done (SDecl d) s /\ sl s (item_slot it) (length a) d.
Proof.
  intros C [Ht Ha]. unfold scil_stack_top, mbind, comp_bind, get. destruct (entries (sc_stack s)) as [| e es]; [done |].
  destruct Ha as [(d & -> & Hd) _]. by exists d.
Qed.

Lemma integer_on_top_run it a s : compiling s -> repr s (it :: a) (sc_stack s) -> integer_on_top s = Done true s.
Proof.
  intros C Hr. destruct (top_run it a s C Hr) as (d & E & Hd). unfold integer_on_top.
  rewrite (bind_done _ _ _ _ _ E), (bind_done _ _ _ _ _ (type_of_slot s _ _ d C Hd s)). by destruct it.
Qed.

(** A comparison of the bits, the operand on the top having all of them. *)
Lemma compare_un_emits code real_code i1 a s :
  compiling s -> repr s (I_int32 :: i1 :: a) (sc_stack s) -> (length a < max)%nat ->
  exists d1 d2 d s', append_compare_un code real_code s = Done tt s' /\
    emits s s' [assign int8_stack d (SExpr code scil_bool_type [convert_to scil_uint32_type d1; convert_to scil_uint32_type d2])] /\
    sl s' (item_slot i1) (length a) d1 /\ sl s' int32_stack (S (length a)) d2 /\
    sl s' int8_stack (length a) d /\ repr s' (I_bool :: a) (sc_stack s').
Proof.
  intros C Hr Hn. destruct (top_run _ _ s C Hr) as (d0 & E0 & Hd0).
  destruct (pop_convert_emits scil_uint32_type I_int32 (i1 :: a) s C Hr) as (d2 & s1 & E1 & He1 & Hd2 & Hr1).
  assert (compiling s1) as C1 by by eapply emits_ok.
  destruct (pop_convert_emits scil_uint32_type i1 a s1 C1 Hr1) as (d1 & s2 & E2 & He2 & Hd1 & Hr2).
  assert (compiling s2) as C2 by by eapply emits_ok.
  destruct (push_emits scil_bool_type I_bool a
    (SExpr code scil_bool_type [convert_to scil_uint32_type d1; convert_to scil_uint32_type d2]) s2 C2 eq_refl Hr2 Hn eq_refl)
    as (d & s3 & E3 & He3 & Hd & Hr3).
  exists d1, d2, d, s3. split_and!; try done; [| | by eapply emits_sl | by eapply emits_sl, emits_sl].
  - unfold append_compare_un. rewrite (bind_done _ _ _ _ _ (integer_on_top_run _ _ s C Hr)).
    unfold append_stmt, instr_binop_un_typed, pop_unsigned in *. rewrite bind_assoc, bind_assoc, (bind_done _ _ _ _ _ E0).
    rewrite bind_assoc, (bind_done _ _ _ _ _ (type_of_slot s _ _ d0 C Hd0 s)).
    unfold scil_hook_unsigned_type. cbn [slot_type item_slot]. cbn [Z.eqb Pos.eqb scil_precision scil_int32_type].
    rewrite bind_assoc, bind_ret, bind_assoc, (bind_done _ _ _ _ _ E1), bind_assoc, (bind_done _ _ _ _ _ E2), bind_ret. exact E3.
  - by apply (scil_emits_trans s s2 s3 []); [apply (scil_emits_trans s s1 s2 [] []) |].
Qed.

(** ** Instructions *)

(** The labels after a branch to [t] that leaves the items [b]. *)
Definition labels_after (s s' : scil_state) (t : Z) (b : list item) : Prop :=
  (forall o, o <> t -> own_label s' o = own_label s o) /\
  (own_label s t = None -> exists d st, own_label s' t = Some (mkLabel d (Saved st)) /\ repr s' b st).

(** The instruction [i] was compiled between [s] and [s'], the items being [a] and [a']. *)
Definition compiled (s s' : scil_state) (t : Z) (i : cil_instr) (a a' : list item) : Prop :=
  exists stmts, grows s s' /\ sc_pc s' = sc_pc s /\ sc_body s' = sc_body s ++ stmts /\
    translates D result s' t i a stmts /\ repr s' a' (sc_stack s') /\
    match displacement i with
    | Some _ => labels_after s s' t (branch_items i a)
    | None => forall o, own_label s' o = own_label s o
    end.

Lemma emits_compiled s s' t i a a' stmts :
  displacement i = None -> emits s s' stmts -> translates D result s' t i a stmts -> repr s' a' (sc_stack s') ->
  compiled s s' t i a a'.
Proof. intros Hd (? & ? & ? & ?) ? ?. exists stmts. rewrite Hd. by split_and!. Qed.

Lemma variable_run x s : compiling s -> declared x = true -> variable x s = Done (SDecl (D x)) s.
Proof.
  intros C Hx. unfold variable, parameter, local, mbind, comp_bind, get, array_get. destruct x as [n | n]; cbn in Hx;
    apply Nat.ltb_lt in Hx; rewrite (proj2 (Z.leb_le 0 _)) by lia; rewrite Nat2Z.id.
  - by rewrite (c_arg s C n Hx).
  - by rewrite (c_local s C n Hx).
Qed.

Lemma load_run x t a s :
  compiling s -> repr s a (sc_stack s) -> declared x = true -> (length a < max)%nat ->
  exists s', (v ← variable x; scil_instr_push v) s = Done tt s' /\ compiled s s' t (Load x) a (I_int32 :: a).
Proof.
  intros C Hr Hx Hn.
  destruct (push_emits scil_int32_type I_int32 a (SDecl (D x)) s C eq_refl Hr Hn (alias_var s x C Hx)) as (d & s1 & E1 & He1 & Hd & Hr1).
  exists s1. split.
  - rewrite (bind_done _ _ _ _ _ (variable_run x s C Hx)). unfold scil_instr_push, scil_type_of.
    cbn [scil_TREE_TYPE]. by rewrite D_type.
  - eapply emits_compiled; [done | exact He1 | by constructor | done].
Qed.

Lemma use_alias_run e s : scil_alias_of s e = None -> use_alias_if_any e s = Done e s.
Proof. intros E. unfold use_alias_if_any, mbind, comp_bind, get. by rewrite E. Qed.

Lemma store_run x t it a s :
  compiling s -> repr s (it :: a) (sc_stack s) -> declared x = true ->
  exists s', (v ← variable x; scil_instr_pop_into v) s = Done tt s' /\ compiled s s' t (Store x) (it :: a) a.
Proof.
  intros C Hr Hx. destruct (pop_convert_emits scil_int32_type it a s C Hr) as (d & s1 & E1 & He1 & Hd & Hr1).
  destruct (append_emits (SExpr MODIFY_EXPR scil_int32_type [SDecl (D x); convert_to scil_int32_type d]) s1) as [E2 He2].
  eexists. split.
  - rewrite (bind_done _ _ _ _ _ (variable_run x s C Hx)). unfold scil_instr_pop_into.
    rewrite (bind_done _ _ _ _ _ (use_alias_run _ s (alias_var s x C Hx))).
    unfold scil_type_of. cbn [scil_TREE_TYPE]. rewrite D_type. cbn [lift]. rewrite bind_ret, (bind_done _ _ _ _ _ E1). exact E2.
  - eapply emits_compiled; [done | exact (scil_emits_trans _ _ _ _ _ He1 He2) | constructor; by eapply emits_sl |].
    by eapply emits_repr.
Qed.

Lemma binop_run o t i1 i2 it a s :
  compiling s -> repr s (i2 :: i1 :: a) (sc_stack s) -> (length a < max)%nat -> binop_item o i1 i2 = Some it ->
  exists s', binop_action o s = Done tt s' /\ compiled s s' t (Binop o) (i2 :: i1 :: a) (it :: a).
Proof.
  intros C Hr Hn Hit.
  assert (is_compare o = false -> it = joined i1 i2 /\ exists s', append_binop (binop_tree o) s = Done tt s' /\
    compiled s s' t (Binop o) (i2 :: i1 :: a) (it :: a)) as Harith.
  { intros Ho. assert (it = joined i1 i2) as -> by (destruct o; try discriminate Ho; cbn in Hit; try case_decide; congruence). split; [done |].
    destruct (binop_emits (binop_tree o) i1 i2 a s C Hr Hn) as (d1 & d2 & d & s' & E & He & Hd1 & Hd2 & Hd & Hr').
    exists s'. split; [done |]. eapply emits_compiled; [done | exact He | | done].
    match goal with |- translates _ _ _ _ _ _ [assign _ _ ?e] => replace e with (binop_expr o i1 i2 d1 d2) end; [by econstructor |].
    unfold binop_expr. by rewrite Ho. }
  assert (is_compare o = true -> exists s', append_compare (binop_tree o) s = Done tt s' /\
    compiled s s' t (Binop o) (i2 :: i1 :: a) (it :: a)) as Hcomp.
  { intros Ho. assert (it = I_bool) as -> by (destruct o; try discriminate Ho; cbn in Hit; congruence).
    destruct (compare_emits (binop_tree o) i1 i2 a s C Hr Hn) as (d1 & d2 & d & s' & E & He & Hd1 & Hd2 & Hd & Hr').
    exists s'. split; [exact E |]. eapply emits_compiled; [done | exact He | | done].
    replace (signed_compare (binop_tree o) i1 i2 d1 d2) with (binop_expr o i1 i2 d1 d2) by (unfold binop_expr; by rewrite Ho).
    by apply (tr_binop D result s' t o i1 i2 I_bool a d1 d2 d). }
  destruct o; try exact (Hcomp eq_refl); try exact (proj2 (Harith eq_refl)).
  cbn [binop_action]. unfold scil_instr_div, append_binop_cases.
  rewrite (bind_done _ _ _ _ _ (integer_on_top_run _ _ s C Hr)). exact (proj2 (Harith eq_refl)).
Qed.

Lemma unop_run o t it it' a s :
  compiling s -> repr s (it :: a) (sc_stack s) -> (length a < max)%nat -> unop_item o it = Some it' ->
  exists s', unop_action o s = Done tt s' /\ compiled s s' t (Unop o) (it :: a) (it' :: a).
Proof.
  intros C Hr Hn Hit. destruct (pop_emits it a s C Hr) as (d & s1 & E1 & He1 & Hd & Hr1).
  assert (compiling s1) as C1 by by eapply emits_ok.
  assert (item_slot it' = item_slot it) as Hsl by (destruct o; [|destruct it]; unfold unop_item in Hit; try case_decide; try discriminate Hit; by simplify_eq).
  destruct (push_emits (slot_type (item_slot it)) it' a (SExpr (unop_tree o) (slot_type (item_slot it)) [SDecl d]) s1 C1
    ltac:(rewrite Hsl; apply get_stack_slot) Hr1 Hn eq_refl) as (d' & s2 & E2 & He2 & Hd' & Hr2).
  exists s2. split.
  - assert (unop_action o = append_unop (unop_tree o)) as -> by by destruct o.
    unfold append_unop, append_stmt, instr_unop in *. rewrite bind_assoc, (bind_done _ _ _ _ _ E1).
    rewrite bind_assoc, (bind_done _ _ _ _ _ (type_of_slot s1 _ _ d C1 Hd s1)). exact E2.
  - eapply emits_compiled; [done | exact (scil_emits_trans _ _ _ _ _ He1 He2) | | done].
    econstructor; [exact Hit | by eapply emits_sl | exact Hd'].
Qed.

Lemma ret_run t a s :
  compiling s -> repr s a (sc_stack s) ->
  exists s', scil_instr_ret s = Done tt s' /\ compiled s s' t Ret a (drop 1 a).
Proof.
  intros C Hr. unfold scil_instr_ret.
  assert (forall b, (0 <? top_index (sc_stack s)) = negb b -> scil_stack_is_empty s = Done b s) as Hempty.
  { intros b E. unfold scil_stack_is_empty, mbind, comp_bind, get. rewrite Z.leb_antisym, E, negb_involutive. done. }
  rewrite (proj1 Hr) in Hempty. destruct a as [| it a].
  - rewrite (bind_done _ _ _ _ _ (Hempty true eq_refl)), bind_ret.
    destruct (append_emits (SExpr RETURN_EXPR scil_void_type [SNull]) s) as [E He].
    eexists. split; [exact E |]. eapply emits_compiled; [done | exact He | constructor | by eapply emits_repr].
  - rewrite (bind_done _ _ _ _ _ (Hempty false ltac:(apply Z.ltb_lt; cbn [length]; lia))).
    destruct (pop_convert_emits scil_int32_type it a s C Hr) as (d & s1 & E1 & He1 & Hd & Hr1).
    destruct (append_emits (SExpr RETURN_EXPR scil_void_type
      [SExpr MODIFY_EXPR scil_int32_type [SDecl result; convert_to scil_int32_type d]]) s1) as [E2 He2].
    eexists. split.
    + assert (current_function s = Done f s) as Ef
        by (unfold current_function, mbind, comp_bind, get; by rewrite (c_function s C)).
      rewrite bind_assoc, (bind_done _ _ _ _ _ Ef), bind_assoc.
      rewrite (bind_done (get sc_results) _ s (sc_results s) s eq_refl), (c_result s C).
      cbn [lift]. rewrite bind_assoc, bind_ret, result_type, bind_assoc, (bind_done _ _ _ _ _ E1), bind_ret. exact E2.
    + eapply emits_compiled; [done | exact (scil_emits_trans _ _ _ _ _ He1 He2) | | by eapply emits_repr].
      constructor. by eapply emits_sl.
Qed.

(** A branch on an item. *)
Lemma branch_run (b : bool) t it a s :
  compiling s -> repr s (it :: a) (sc_stack s) ->
  exists d l s', (if b then scil_instr_branch_true t else scil_instr_branch_false t) s = Done tt s' /\
    grows s s' /\ sc_pc s' = sc_pc s /\
    sc_body s' = sc_body s ++ [(if b then branch_if else branch_unless) (convert_to scil_bool_type d) l] /\
    sl s' (item_slot it) (length a) d /\ label_at s' t l /\ repr s' a (sc_stack s') /\ labels_after s s' t a.
Proof.
  intros C Hr. destruct (pop_convert_emits scil_bool_type it a s C Hr) as (d & s1 & E1 & (Hg1 & Hp1 & Hb1 & Hl1) & Hd & Hr1).
  assert (compiling s1) as C1 by by apply (g_ok _ _ Hg1).
  destruct (goto_run s1 t a C1 Hr1) as (l & s2 & E2 & Hg2 & Hlab & Hoth & Hsave & Hp2 & Hb2 & Hst2).
  set (stmt := (if b then branch_if else branch_unless) (convert_to scil_bool_type d) l).
  destruct (append_emits stmt s2) as [E3 (Hg3 & Hp3 & Hb3 & Hl3)]. set (s3 := set_sc_body _ s2) in *.
  exists d, l, s3. split.
  { destruct b; [unfold scil_instr_branch_true | unfold scil_instr_branch_false];
      rewrite (bind_done _ _ _ _ _ E1), (bind_done _ _ _ _ _ E2); exact E3. }
  assert (grows s s3) as Hg by (etrans; [exact Hg1 | by etrans]).
  split_and!; [done | by rewrite Hp3, Hp2, Hp1 | | | | |].
  - rewrite Hb3, Hb2, Hb1. by rewrite app_nil_r.
  - by apply (g_sl _ _ Hg3), (g_sl _ _ Hg2).
  - destruct Hlab as (l' & El & Ed & Hf). exists l'. split_and!; [by rewrite Hl3 | done | done].
  - change (sc_stack s3) with (sc_stack s2). rewrite Hst2. by apply (repr_grows s1); [etrans |].
  - split.
    + intros o Ho. by rewrite Hl3, Hoth, Hl1.
    + intros Hn. rewrite <- Hl1 in Hn. destruct (Hsave Hn) as (st & El & Hrs). exists l, st. split; [by rewrite Hl3 |].
      by apply (repr_grows s2).
Qed.

Lemma grows_pc p s : grows s (set_sc_pc p s).
Proof. apply grows_same; try done. intros C. eapply slots_ok_same; [| exact (c_slots s C)]. by split. Qed.

Lemma repr_pc p s a st : repr s a st -> repr (set_sc_pc p s) a st.
Proof. apply repr_grows, grows_pc. Qed.

Lemma const_run c v t a s :
  compiling s -> repr s a (sc_stack s) -> (length a < max)%nat -> const_as v c ->
  exists s', scil_instr_push_integer c (slot_type (item_slot (const_item v))) s = Done tt s' /\
    compiled s s' t (Const v) a (const_item v :: a).
Proof.
  intros C Hr Hn Hc. destruct (push_emits (slot_type (item_slot (const_item v))) (const_item v) a
    (SInt (slot_type (item_slot (const_item v))) c) s C (get_stack_slot _) Hr Hn eq_refl) as (d & s1 & E & He & Hd & Hr1).
  exists s1. split; [exact E |]. eapply emits_compiled; [done | exact He | by constructor | done].
Qed.

Lemma branch_always_run t disp a s :
  compiling s -> repr s a (sc_stack s) ->
  exists s', scil_instr_branch t s = Done tt s' /\ compiled s s' t (Br disp) a [].
Proof.
  intros C Hr. destruct (goto_run s t a C Hr) as (l & s1 & E1 & Hg1 & Hlab & Hoth & Hsave & Hp1 & Hb1 & Hst1).
  destruct (append_emits (goto_stmt l) s1) as [E2 (Hg2 & Hp2 & Hb2 & Hl2)]. set (s2 := set_sc_body _ s1) in *.
  set (s3 := set_sc_stack (mkStack 0 []) s2).
  assert (grows s2 s3) as Hg3 by (apply grows_stack; intros _; split; [done | by intros j e Hj]).
  assert (grows s s3) as Hg by (etrans; [exact Hg1 | by etrans]).
  exists s3. split.
  { unfold scil_instr_branch, append_stmt. unfold mbind at 1, comp_bind at 1. rewrite (bind_done _ _ _ _ _ E1), E2. done. }
  exists [goto_stmt l]. split_and!; [done | (change (sc_pc s3) with (sc_pc s2); congruence) | by change (sc_body s3) with (sc_body s2); rewrite Hb2, Hb1 | | done | split].
  - constructor. destruct Hlab as (l' & El & Ed & Hf). exists l'. by split_and!.
  - intros o Ho. by apply Hoth.
  - intros Hn. destruct (Hsave Hn) as (st & El & Hrs). exists l, st. split; [done |]. apply (repr_grows s1); [by etrans | done].
Qed.

(** An instruction after which [branch_run] applies. *)
Lemma branch_compiled (b : bool) t disp a s :
  compiling s -> repr s (I_bool :: a) (sc_stack s) ->
  exists s', (if b then scil_instr_branch_true t else scil_instr_branch_false t) s = Done tt s' /\
    compiled s s' t (if b then Brtrue disp else Brfalse disp) (I_bool :: a) a.
Proof.
  intros C Hr. destruct (branch_run b t I_bool a s C Hr) as (d & l & s' & E & Hg & Hp & Hb & Hd & Hl & Hr' & Hlab).
  exists s'. split; [done |]. eexists. split_and!; [done | done | exact Hb | | done | by destruct b].
  destruct b; by constructor.
Qed.

(** Comparing two items. *)
Lemma compare_run c i1 i2 a s :
  compiling s -> repr s (i2 :: i1 :: a) (sc_stack s) -> (length a < max)%nat -> cond_item c i2 = true ->
  exists d1 d2 d s', compare c s = Done tt s' /\ emits s s' [assign int8_stack d (cond_expr c i1 i2 d1 d2)] /\
    sl s' (item_slot i1) (length a) d1 /\ sl s' (item_slot i2) (S (length a)) d2 /\
    sl s' int8_stack (length a) d /\ repr s' (I_bool :: a) (sc_stack s').
Proof.
  intros C Hr Hn Hc. destruct (is_unsigned c) eqn:Hu; unfold cond_item in Hc; rewrite Hu in Hc; cbn [negb orb] in Hc.
  - apply bool_decide_eq_true in Hc as ->. unfold cond_expr. rewrite Hu.
    destruct c; try discriminate Hu; by eapply compare_un_emits.
  - unfold cond_expr. rewrite Hu. destruct c; try discriminate Hu; by eapply compare_emits.
Qed.

(** All but a comparison with a branch. *)
Lemma action_run i c t a a' s :
  compiling s -> repr s a (sc_stack s) -> type_step nargs nlocals i a = Some a' -> (length a <= max)%nat -> (length a' <= max)%nat ->
  (forall v, i = Const v -> const_as v c) -> (forall o d, i <> Bcond o d) ->
  exists s', action i c t s = Done tt s' /\ compiled s s' t i a a'.
Proof.
  intros C Hr Ht Hn Hn' Hc Hb. destruct i; cbn [type_step action] in *.
  - injection Ht as <-. exists s. split; [done |]. exists []. rewrite app_nil_r. split_and!; try done. constructor.
  - destruct (declared x) eqn:Hx; [| done]. injection Ht as <-. by apply (load_run x t a s C Hr Hx Hn').
  - destruct a as [| it a]; [done |]. destruct (declared x) eqn:Hx; [| done]. injection Ht as <-. by apply (store_run x t it a s C Hr Hx).
  - injection Ht as <-. by apply (const_run c v t a s C Hr Hn'), Hc.
  - destruct a as [| i2 [| i1 a]]; try done. destruct (binop_item o i1 i2) as [it |] eqn:Ho; [| done]. injection Ht as <-.
    apply binop_run; try done.
  - destruct a as [| it a]; try done. destruct (unop_item o it) as [it' |] eqn:Ho; [| done]. injection Ht as <-.
    by apply (unop_run o t it it' a s C Hr Hn).
  - destruct a as [| it a]; try done. injection Ht as <-. destruct (pop_emits it a s C Hr) as (d & s1 & E & He & Hd & Hr1).
    exists s1. split; [unfold scil_instr_pop; by rewrite (bind_done _ _ _ _ _ E) |].
    eapply emits_compiled; [done | exact He | constructor | done].
  - assert (a' = drop 1 a) as -> by (destruct a; by injection Ht as <-). by apply ret_run.
  - injection Ht as <-. by apply branch_always_run.
  - destruct a as [| [] a]; try done. injection Ht as <-. by apply (branch_compiled false).
  - destruct a as [| [] a]; try done. injection Ht as <-. by apply (branch_compiled true).
  - by destruct (Hb c0 d).
Qed.
End compile.
