(* ===== verification/ScilLayout.v ===== *)
(** * ScilLayout: the statements of a method body in the second front end

    One turn of the loop of [parse_method] appends the label of the offset and the statements
    of the instruction, and keeps the stacks that [ScilInt32.scil_scan] computes for the
    labels; so the loop lays out the code. *)
From S2P Require Import Prelude Values CilMachine Trees ScilTrees ScilStack ScilMethod ScilInstr ScilParse.
From S2P Require Import ScilSlots ScilInt32 ScilCompile.

Section layout.
Context `{ScilTarget, ScilMiddleEnd, ScilReader}.
Context (nargs nlocals max : nat) (D : var -> scil_decl) (f result : scil_decl).
Context (D_type : forall x, sd_type (D x) = scil_int32_type) (result_type : sd_type result = scil_int32_type).

#[local] Abbreviation compiling := (compiling nargs nlocals max D f result).
#[local] Abbreviation grows := (grows nargs nlocals max D f result).
#[local] Abbreviation compiled := (compiled nargs nlocals max D f result).
#[local] Abbreviation type_step := (type_step nargs nlocals).
#[local] Abbreviation translates := (translates D result).

(** ** One instruction *)

(** From another offset. *)
Lemma compiled_pc p s s' t i a a' :
  sc_pc s' = p -> grows (set_sc_pc p s) s' -> compiled s s' t i a a' -> compiled (set_sc_pc p s) s' t i a a'.
Proof. intros Hp Hg (stmts & _ & _ & Hb & Htr & Hr & Hl). by exists stmts; split_and!. Qed.

Lemma compiled_emits s1 s2 s' stmts c disp i1 i2 a d1 d2 d t l :
  grows s1 s' -> sc_pc s' = sc_pc s1 ->
  sc_body s2 = sc_body s1 ++ [assign int8_stack d (cond_expr c i1 i2 d1 d2)] ->
  (forall o, own_label s2 o = own_label s1 o) ->
  cond_item c i2 = true -> sl s' (item_slot i1) (length a) d1 -> sl s' (item_slot i2) (S (length a)) d2 ->
  sl s' int8_stack (length a) d -> label_at s' t l ->
  stmts = [branch_if (convert_to scil_bool_type d) l] -> sc_body s' = sc_body s2 ++ stmts ->
  repr s' a (sc_stack s') -> labels_after s2 s' t a ->
  compiled s1 s' t (Bcond c disp) (i2 :: i1 :: a) a.
Proof.
  intros Hg Hp Hb2 Hl2 Hc Hd1 Hd2 Hd Hl -> Hb Hr [Hoth Hsave].
  eexists. split_and!; [done | done | by rewrite Hb, Hb2, <- app_assoc | by eapply tr_bcond | done |].
  split; [intros o Ho; rewrite <- Hl2; by apply Hoth |]. intros Hn. apply Hsave. by rewrite Hl2.
Qed.

(** The instruction at the offset. *)
Lemma instr_run i n s a a' :
  compiling s -> repr s a (sc_stack s) -> Forall is_byte (sc_code s) -> 0 <= sc_pc s -> sc_pc s + 8 < 2 ^ 31 ->
  decode (drop (Z.to_nat (sc_pc s)) (sc_code s)) = Some (i, n) ->
  type_step i a = Some a' -> (length a <= max)%nat -> (length a' <= max)%nat ->
  exists s', parse_instr s = Done tt s' /\
    compiled (set_sc_pc (sc_pc s + n) s) s' (uint32 (default 0 (displacement i) + (sc_pc s + n))) i a a'.
Proof.
  intros C Hr Hby Hp Hbig Hd Ht Hn Hn'. set (t := uint32 _).
  destruct (decode_runs i n s Hby Hp Hbig Hd) as (m & -> & Hm). fold t in Hm. set (s1 := set_sc_pc (sc_pc s + 1) s) in *.
  assert (set_sc_pc (sc_pc s1 + (n - 1)) s1 = set_sc_pc (sc_pc s + n) s) as E1 
    by (replace (sc_pc s1 + (n - 1)) with (sc_pc s + n) by (cbn; lia); done).
  set (s2 := set_sc_pc (sc_pc s + n) s) in *.
  assert (compiling s2) as C2 by (by apply (g_ok _ _ _ _ _ _ _ _ (grows_pc nargs nlocals max D f result (sc_pc s + n) s))).
  assert (repr s2 a (sc_stack s2)) as Hr2 by (by apply (repr_pc nargs nlocals max D f result)).
  destruct (match i with Bcond _ _ => true | _ => false end) eqn:Hb.
  - destruct i as [| | | | | | | | | | | c d]; try discriminate Hb. cbn [type_step ScilInt32.type_step] in Ht.
    destruct a as [| i2 [| i1 a]]; try done. destruct (cond_item c i2) eqn:Hc; [| done]. injection Ht as <-.
    assert (grows s2 s1) as Hg21 by exact (grows_pc nargs nlocals max D f result _ s2).
    destruct (compare_run nargs nlocals max D f result c i1 i2 a s1) as (d1 & d2 & d' & s3 & E3 & He & Hd1 & Hd2 & Hd' & Hr3);
      [by apply Hg21 | by apply (repr_pc nargs nlocals max D f result) | cbn in Hn; lia | done |].
    destruct He as (Hg3 & Hp3 & Hb3 & Hl3). cbn [runs] in Hm. rewrite (Hm s3 E3 (g_code _ _ _ _ _ _ _ _ Hg3) Hp3).
    set (s4 := set_sc_pc _ s3). assert (grows s3 s4) as Hg4 by apply grows_pc.
    assert (compiling s4) as C4 by (apply Hg4, Hg3, Hg21, C2).
    destruct (branch_run nargs nlocals max D f result D_type result_type true t I_bool a s4 C4) as (d0 & l & s5 & E5 & Hg5 & Hp5 & Hb5 & Hd5 & Hlab & Hr5 & Haft);
      [by apply (repr_pc nargs nlocals max D f result) |].
    assert (d0 = d') as ->.
    { apply (g_sl _ _ _ _ _ _ _ _ Hg4), (g_sl _ _ _ _ _ _ _ _ Hg5) in Hd'. unfold sl in *. cbn [item_slot] in Hd5. congruence. }
    exists s5. split; [exact E5 |]. assert (grows s3 s5) as Hg35 by (by etrans).
    eapply (compiled_emits s2 s4); try done.
    + etrans; [exact Hg21 |]. by etrans.
    + rewrite Hp5. cbn. lia.
    + by apply (g_sl _ _ _ _ _ _ _ _ Hg35).
    + by apply (g_sl _ _ _ _ _ _ _ _ Hg35).
  - assert (forall o d, i <> Bcond o d) as Hnb by (intros o d ->; done).
    assert (exists c, (forall v, i = Const v -> const_as v c) /\ m s1 = action i c t s2) as (c & Hc & ->).
    { destruct i; cbn [runs] in Hm; rewrite <- E1; try (exists 0; split; [done | exact Hm]); [| done].
      destruct Hm as (c & Hc & Hm). exists c. split; [| exact Hm]. by intros v' [= <-]. }
    by apply (action_run nargs nlocals max D f result D_type result_type).
Qed.

(** ** One turn of the loop *)

#[local] Abbreviation lookup_saved := ScilInt32.lookup_saved.

(** The labels ahead carry the stacks that were saved for them, and there are no others. *)
Definition saved_ok (s : scil_state) (o : Z) (saved : list (Z * list item)) : Prop :=
  forall o', o <= o' -> match lookup_saved o' saved with
    | Some b => exists d st, own_label s o' = Some (mkLabel d (Saved st)) /\ repr s b st
    | None => own_label s o' = None
    end.

Lemma saved_ok_grows s s' o o1 saved :
  grows s s' -> o <= o1 -> (forall o', o1 <= o' -> own_label s' o' = own_label s o') ->
  saved_ok s o saved -> saved_ok s' o1 saved.
Proof.
  intros Hg Ho Hl Hs o' Ho'. specialize (Hs o' ltac:(lia)). rewrite Hl by done.
  destruct (lookup_saved o' saved) as [b |]; [| done]. destruct Hs as (d & st & El & Hr).
  exists d, st. split; [done |]. by apply (repr_grows nargs nlocals max D f result s).
Qed.

(** After a jump. *)
Lemma saved_ok_branch s s' o n t b saved :
  grows s s' -> labels_after s s' t b -> 0 < n ->
  saved_ok s (o + n) saved -> (t <= o -> own_label s t <> None) -> saved_ok s' (o + n) (save_branch o t b saved).
Proof.
  intros Hg [Hoth Hsave] Hn Hs Ht o' Ho'. specialize (Hs o' Ho').
  assert (match lookup_saved o' saved with
    | Some b => exists d st, own_label s o' = Some (mkLabel d (Saved st)) /\ repr s' b st
    | None => own_label s o' = None end) as Hs'.
  { destruct (lookup_saved o' saved) as [b' |]; [| done]. destruct Hs as (d & st & El & Hr). exists d, st. split; [done |].
    by apply (repr_grows nargs nlocals max D f result s). }
  assert (forall l, own_label s o' = Some l -> own_label s' o' = Some l) as Hkeep by apply (g_label _ _ _ _ _ _ _ _ Hg).
  unfold save_branch. destruct (Z.leb_spec t o).
  - rewrite Hoth by lia. done.
  - destruct (decide (o' = t)) as [-> | Hne].
    + destruct (lookup_saved t saved) as [b' |] eqn:El.
      * rewrite El. destruct Hs' as (d & st & E & Hr). exists d, st. split; [by apply Hkeep | done].
      * cbn [ScilInt32.lookup_saved]. rewrite decide_True by done. by apply Hsave.
    + rewrite Hoth by done. destruct (lookup_saved t saved) as [b' |] eqn:El; [done |].
      cbn [ScilInt32.lookup_saved]. by rewrite decide_False by done.
Qed.

(** What the label of the offset leaves on the stack. *)
Lemma label_run s o a saved :
  compiling s -> repr s a (sc_stack s) -> saved_ok s o saved ->
  exists l s', scil_set_label o s = Done tt s' /\ grows s s' /\ own_label s' o = Some l /\ sc_pc s' = sc_pc s /\
    sc_body s' = sc_body s ++ [SExpr LABEL_EXPR scil_void_type [SDecl (lb_decl l)]] /\
    repr s' (default a (lookup_saved o saved)) (sc_stack s') /\ saved_ok s' (o + 1) saved.
Proof.
  intros C Hr Hs. destruct (set_label_run nargs nlocals max D f result s o C) as (l & s' & E & Hg & Hl & Hoth & Hp & Hb & Hst).
  exists l, s'. split_and!; try done.
  - apply (repr_grows nargs nlocals max D f result s); [done |]. rewrite Hst. specialize (Hs o ltac:(lia)).
    destruct (lookup_saved o saved) as [b |]; cbn [default].
    + by destruct Hs as (d & st & -> & Hrs).
    + by rewrite Hs.
  - apply (saved_ok_grows s s' o); try done; [lia |]. intros o' Ho. apply Hoth. lia.
Qed.

(** Where the instruction goes to. *)
Definition branch_target (i : cil_instr) (next : Z) : Z := default 0 (displacement i) + next.

Definition saved_after (o : Z) (i : cil_instr) (n : Z) (a : list item) (saved : list (Z * list item)) : list (Z * list item) :=
  match displacement i with
  | Some d => save_branch o (o + n + d) (branch_items i a) saved
  | None => saved
  end.

Lemma parse_one_run i n s a a' saved :
  compiling s -> repr s a (sc_stack s) -> Forall is_byte (sc_code s) -> 0 <= sc_pc s -> sc_pc s + 8 < 2 ^ 31 ->
  saved_ok s (sc_pc s) saved -> decode (drop (Z.to_nat (sc_pc s)) (sc_code s)) = Some (i, n) -> 1 <= n ->
  type_step i (default a (lookup_saved (sc_pc s) saved)) = Some a' ->
  (length (default a (lookup_saved (sc_pc s) saved)) <= max)%nat -> (length a' <= max)%nat ->
  (displacement i <> None -> 0 <= branch_target i (sc_pc s + n) < 2 ^ 31) ->
  (displacement i <> None -> forall t, t = branch_target i (sc_pc s + n) -> t < sc_pc s -> own_label s t <> None) ->
  exists s' l stmts, parse_one s = Done tt s' /\ grows s s' /\ sc_pc s' = sc_pc s + n /\
    sc_body s' = sc_body s ++ SExpr LABEL_EXPR scil_void_type [SDecl (lb_decl l)] :: stmts /\
    own_label s' (sc_pc s) = Some l /\
    translates s' (branch_target i (sc_pc s + n)) i (default a (lookup_saved (sc_pc s) saved)) stmts /\
    repr s' a' (sc_stack s') /\
    saved_ok s' (sc_pc s + n) (saved_after (sc_pc s) i n (default a (lookup_saved (sc_pc s) saved)) saved).
Proof.
  intros C Hr Hby Hp Hbig Hs Hd Hn1 Ht Hlen Hlen' Htgt Hback. set (o := sc_pc s) in *. set (a0 := default a _) in *.
  destruct (label_run s o a saved C Hr Hs) as (l & s1 & E1 & Hg1 & Hl1 & Hp1 & Hb1 & Hr1 & Hs1). fold a0 in Hr1.
  assert (compiling s1) as C1 by by apply Hg1. pose proof (g_code _ _ _ _ _ _ _ _ Hg1) as Hc1.
  destruct (instr_run i n s1 a0 a') as (s2 & E2 & stmts & Hg2 & Hp2 & Hb2 & Htr & Hr2 & Hlab);
    rewrite ?Hp1, ?Hc1; try done.
  set (s1' := set_sc_pc _ s1) in *. rewrite Hp1 in *. fold o in Htr, Hlab.
  assert (grows s1 s1') as Hg1' by apply grows_pc.
  exists s2, l, stmts. split_and!.
  - unfold parse_one. fold o. rewrite (bind_done (get sc_pc) _ s (sc_pc s) s eq_refl). fold o. by rewrite (bind_done _ _ _ _ _ E1).
  - etrans; [exact Hg1 |]. by etrans.
  - rewrite Hp2. change (sc_pc s1') with (sc_pc s1 + n). by rewrite Hp1.
  - rewrite Hb2. change (sc_body s1') with (sc_body s1). by rewrite Hb1, <- app_assoc.
  - by apply (g_label _ _ _ _ _ _ _ _ Hg2), (g_label _ _ _ _ _ _ _ _ Hg1').
  - destruct (displacement i) as [d |] eqn:Ed; cycle 1.
    { destruct i; try discriminate Ed; inversion Htr; subst; by econstructor. }
    replace (branch_target i (o + n)) with (uint32 (default 0 (Some d) + (o + n))); [done |].
    unfold branch_target. rewrite Ed. apply uint32_small. specialize (Htgt ltac:(done)). unfold branch_target in Htgt. rewrite Ed in Htgt.
    zlia.
  - done.
  - assert (saved_ok s1' (o + n) saved) as Hs1'.
    { apply (saved_ok_grows s1 s1' (o + 1)); [exact Hg1' | lia | done | exact Hs1]. }
    unfold saved_after. destruct (displacement i) as [d |] eqn:Ed.
    + specialize (Htgt ltac:(done)). specialize (Hback ltac:(done)). unfold branch_target in Htgt, Hback. rewrite Ed in Htgt, Hback. cbn [default] in *.
      replace (o + n + d) with (d + (o + n)) by lia. rewrite uint32_small in Hlab by zlia.
      apply (saved_ok_branch s1'); try done; [lia |]. intros Hle.
      destruct (decide (d + (o + n) = o)) as [-> | Hne]; [change (own_label s1' o) with (own_label s1 o); congruence |].
      specialize (Hback (d + (o + n)) eq_refl ltac:(lia)). destruct (own_label s (d + (o + n))) as [l' |] eqn:El; [| done].
      change (own_label s1' (d + (o + n))) with (own_label s1 (d + (o + n))). rewrite (g_label _ _ _ _ _ _ _ _ Hg1 _ _ El). done.
    + apply (saved_ok_grows s1' s2 (o + n)); try done.
Qed.

(** ** The loop *)

(** Other code may follow in the section. *)
Context (code0 tail : list Z) (code_bytes : Forall is_byte (code0 ++ tail)) (code_length : Z.of_nat (length code0) + 8 < 2 ^ 31).

Definition code_at (offset : Z) : list Z := drop (Z.to_nat offset) code0.

Lemma scil_code_at_next offset i n :
  0 <= offset -> decode (code_at offset) = Some (i, n) -> drop (Z.to_nat n) (code_at offset) = code_at (offset + n).
Proof. intros Ho Hd. apply decode_size in Hd. unfold code_at. rewrite drop_drop. f_equal. lia. Qed.

Lemma code_at_tail offset i n : decode (code_at offset) = Some (i, n) -> decode (drop (Z.to_nat offset) (code0 ++ tail)) = Some (i, n).
Proof.
  intros Hd. pose proof (decode_size _ _ _ Hd) as Hn. unfold code_at in *. rewrite length_drop in Hn.
  rewrite drop_app_le by lia. by apply decode_app.
Qed.

Lemma code_at_bound offset i n : decode (code_at offset) = Some (i, n) -> 0 <= offset -> offset + n <= Z.of_nat (length code0).
Proof. intros Hd Ho. apply decode_size in Hd. unfold code_at in Hd. rewrite length_drop in Hd. lia. Qed.

(** The statements from an offset on, [sf] being the state at the end. *)
Inductive laid (sf : scil_state) : Z -> list stree -> list (Z * list item) -> Prop :=
| laid_end o : code_at o = [] -> laid sf o [] []
| laid_instr o i n a a' l stmts rest points :
    0 <= o -> decode (code_at o) = Some (i, n) -> type_step i a = Some a' -> own_label sf o = Some l ->
    translates sf (branch_target i (o + n)) i a stmts -> laid sf (o + n) rest points ->
    laid sf o (SExpr LABEL_EXPR scil_void_type [SDecl (lb_decl l)] :: stmts ++ rest) ((o, a) :: points).

(** What the compilation needs of a point among [all]. *)
Definition point_ok (all : list (Z * list item)) (p : Z * list item) : Prop :=
  forall i n, decode (code_at p.1) = Some (i, n) ->
  exists a', type_step i p.2 = Some a' /\ (length p.2 <= max)%nat /\ (length a' <= max)%nat /\
    (falls_through i = true -> (p.1 + n, a') ∈ all) /\
    (displacement i <> None -> (branch_target i (p.1 + n), branch_items i p.2) ∈ all).

(** The turns of [scil_scan]. *)
Lemma scan_turn fuel o saved a points :
  0 <= o -> scil_scan nargs nlocals (S fuel) (code_at o) o saved a = Some points -> code_at o <> [] ->
  exists i n a' rest, decode (code_at o) = Some (i, n) /\
    type_step i (default a (lookup_saved o saved)) = Some a' /\
    scil_scan nargs nlocals fuel (code_at (o + n)) (o + n)
      (saved_after o i n (default a (lookup_saved o saved)) saved) a' = Some rest /\
    points = (o, default a (lookup_saved o saved)) :: rest.
Proof.
  intros Ho Hscan Hne. cbn [scil_scan] in Hscan. destruct (code_at o) as [| b0 l] eqn:Ecode; [done |].
  rewrite <- Ecode in *. destruct (decode (code_at o)) as [[i n] |] eqn:Hd; [| done]. cbn [mbind option_bind] in Hscan.
  destruct (type_step i _) as [a' |] eqn:Ha; [| done]. cbn [mbind option_bind] in Hscan.
  rewrite (scil_code_at_next _ _ _ Ho Hd) in Hscan. destruct (scil_scan _ _ _ _ _ _ a') as [rest |] eqn:Hr; [| done].
  injection Hscan as <-. by exists i, n, a', rest.
Qed.

Lemma scil_scan_range fuel o saved a points p :
  0 <= o -> scil_scan nargs nlocals fuel (code_at o) o saved a = Some points -> p ∈ points ->
  o <= p.1 < Z.of_nat (length code0).
Proof.
  revert o saved a points. induction fuel as [| fuel IH]; intros o saved a points Ho Hscan Hp.
  - cbn in Hscan. destruct (code_at o); [| done]. injection Hscan as <-. by apply elem_of_nil in Hp.
  - destruct (decide (code_at o = [])) as [E | E].
    { rewrite E in Hscan. injection Hscan as <-. by apply elem_of_nil in Hp. }
    destruct (scan_turn _ _ _ _ _ Ho Hscan E) as (i & n & a' & rest & Hd & Ha & Hr & ->).
    pose proof (code_at_bound _ _ _ Hd Ho). pose proof (decode_size _ _ _ Hd).
    apply elem_of_cons in Hp as [-> | Hp]; [cbn; lia |].
    specialize (IH (o + n) _ _ _ ltac:(lia) Hr Hp). lia.
Qed.

Lemma parse_code_layout fuel fuel' o saved a points all s :
  compiling s -> sc_code s = code0 ++ tail -> sc_pc s = o -> repr s a (sc_stack s) -> saved_ok s o saved -> 0 <= o ->
  scil_scan nargs nlocals fuel (code_at o) o saved a = Some points ->
  (length (code_at o) <= fuel')%nat -> Forall (point_ok all) points ->
  (forall p, p ∈ all -> 0 <= p.1 < Z.of_nat (length code0) /\ (p ∈ points \/ own_label s p.1 <> None)) ->
  exists sf rest, parse_code fuel' (Z.of_nat (length code0)) s = Done tt sf /\ grows s sf /\
    sc_body sf = sc_body s ++ rest /\ laid sf o rest points.
Proof.
  revert fuel' o saved a points s. induction fuel as [| fuel IH]; intros fuel' o saved a points s C Hcode Hpc Hr Hs Ho Hscan Hf Hok Hall.
  - destruct (code_at o) eqn:E; [| done]. injection Hscan as <-. exists s, []. rewrite app_nil_r. split_and!; try done.
    + apply (f_equal length) in E. unfold code_at in E. rewrite length_drop in E. cbn in E.
      destruct fuel'; cbn [parse_code]; rewrite (bind_done (get sc_pc) _ s (sc_pc s) s eq_refl), Hpc,
        (proj2 (Z.ltb_ge _ _)) by lia; done.
    + by constructor.
  - destruct (decide (code_at o = [])) as [E | E].
    { rewrite E in Hscan. injection Hscan as <-. exists s, []. rewrite app_nil_r. split_and!; try done; [| by constructor].
      apply (f_equal length) in E. unfold code_at in E. rewrite length_drop in E. cbn in E.
      destruct fuel'; cbn [parse_code]; rewrite (bind_done (get sc_pc) _ s (sc_pc s) s eq_refl), Hpc,
        (proj2 (Z.ltb_ge _ _)) by lia; done. }
    destruct (scan_turn _ _ _ _ _ Ho Hscan E) as (i & n & a' & points' & Hd & Ha & Hscan' & ->).
    set (a0 := default a _) in *. pose proof (decode_size _ _ _ Hd) as Hn. pose proof (code_at_bound _ _ _ Hd Ho) as Hbd.
    inversion Hok as [| ? ? Hp1 Hok']; subst. destruct (Hp1 i n Hd) as (a'' & Ha' & Hl & Hl' & _ & Htgt). cbn [fst snd] in *.
    assert (a'' = a') as -> by congruence.
    destruct (parse_one_run i n s a a' saved) as (s1 & l & stmts & E1 & Hg1 & Hp & Hb1 & Hl1 & Htr & Hr1 & Hs1);
      rewrite ?Hcode; try done; try lia; [by apply code_at_tail |..].
    { intros Hdis. destruct (Hall _ (Htgt Hdis)) as [Hrng _]. cbn [fst] in Hrng. lia. }
    { intros Hdis t -> Hlt. destruct (Hall _ (Htgt Hdis)) as [_ [Hin | Hlab]]; [| done]. exfalso.
      apply elem_of_cons in Hin as [[= Heq _] | Hin]; [lia |].
      pose proof (scil_scan_range fuel (sc_pc s + n) _ _ _ _ ltac:(lia) Hscan' Hin) as Hrng. cbn [fst] in Hrng. lia. }
    destruct (IH (pred fuel') (sc_pc s + n) (saved_after (sc_pc s) i n a0 saved) a' points' s1)
      as (sf & rest & Erest & Hg & Hb & Hlay); try done; [by apply Hg1 | by rewrite (g_code _ _ _ _ _ _ _ _ Hg1) | lia | | |].
    { rewrite <- (scil_code_at_next _ _ _ Ho Hd), length_drop. lia. }
    { intros p Hp'. destruct (Hall p Hp') as [Hrng Hor]. split; [done |].
      destruct Hor as [[-> | Hin]%elem_of_cons | Hlab]; [right; cbn; congruence | by left | right].
      destruct (own_label s p.1) as [l' |] eqn:El; [| done]. rewrite (g_label _ _ _ _ _ _ _ _ Hg1 _ _ El). done. }
    exists sf, (SExpr LABEL_EXPR scil_void_type [SDecl (lb_decl l)] :: stmts ++ rest). split_and!.
    + destruct fuel' as [| fuel']; [destruct (code_at (sc_pc s)); cbn in Hf; [done | lia] |].
      cbn [parse_code]. rewrite (bind_done (get sc_pc) _ s (sc_pc s) s eq_refl), (proj2 (Z.ltb_lt _ _)) by lia.
      rewrite (bind_done _ _ _ _ _ E1). exact Erest.
    + by etrans.
    + rewrite Hb, Hb1, <- app_assoc. done.
    + econstructor; try done; [by apply (g_label _ _ _ _ _ _ _ _ Hg) |].
      by apply (translates_grows nargs nlocals max D f result s1).
Qed.
End layout.
