(* ===== verification/ScilCorrect.v ===== *)
(** * ScilCorrect: the statements of the second front end compute what the machine computes

    The translation of ScilInt32 preserves the meaning of each instruction, and so does the
    loop of [parse_method] with the removal of labels, for code that
    [ScilInt32.scil_verify] accepts. *)
From S2P Require Import Prelude Values CilMachine Trees ScilTrees ScilStack ScilMethod ScilInstr ScilParse.
From S2P Require Import ScilSemantics ScilSlots ScilInt32 ScilCompile ScilLayout.

(** ** Values of items *)

(** The bits above those of an item are copies of its sign. *)
Definition sign_bits (it : item) (x : Z) : Prop :=
  match it with
  | I_bool => Z.shiftr x 1 = 0
  | I_int8 => Z.shiftr x 7 = 0 \/ Z.shiftr x 7 = -1
  | I_int16 => Z.shiftr x 15 = 0 \/ Z.shiftr x 15 = -1
  | I_int32 => Z.shiftr x 31 = 0 \/ Z.shiftr x 31 = -1
  end.

Lemma item_ok_bits it x : item_ok it x <-> sign_bits it x.
Proof. destruct it; cbn; rewrite Z.shiftr_div_pow2 by lia; zlia. Qed.

Lemma item_ok_bitwise (op : Z -> Z -> Z) it x y :
  (forall n, 0 <= n -> Z.shiftr (op x y) n = op (Z.shiftr x n) (Z.shiftr y n)) ->
  op 0 0 = 0 -> (forall u v, (u = 0 \/ u = -1) -> (v = 0 \/ v = -1) -> op u v = 0 \/ op u v = -1) ->
  item_ok it x -> item_ok it y -> item_ok it (op x y).
Proof.
  intros Hs H0 H1. rewrite !item_ok_bits. destruct it; cbn; rewrite Hs by lia; auto. by intros -> ->.
Qed.

Lemma item_ok_land it x y : item_ok it x -> item_ok it y -> item_ok it (Z.land x y).
Proof.
  apply item_ok_bitwise; [intros; apply Z.shiftr_land | done |]. intros u v [-> | ->] [-> | ->]; vm_compute; auto.
Qed.
Lemma item_ok_lor it x y : item_ok it x -> item_ok it y -> item_ok it (Z.lor x y).
Proof.
  apply item_ok_bitwise; [intros; apply Z.shiftr_lor | done |]. intros u v [-> | ->] [-> | ->]; vm_compute; auto.
Qed.
Lemma item_ok_lxor it x y : item_ok it x -> item_ok it y -> item_ok it (Z.lxor x y).
Proof.
  apply item_ok_bitwise; [intros; apply Z.shiftr_lxor | done |]. intros u v [-> | ->] [-> | ->]; vm_compute; auto.
Qed.

Lemma item_ok_joined_l i1 i2 x : item_ok i1 x -> item_ok (joined i1 i2) x.
Proof. destruct i1, i2; cbn; zlia. Qed.
Lemma item_ok_joined_r i1 i2 x : item_ok i2 x -> item_ok (joined i1 i2) x.
Proof. destruct i1, i2; cbn; zlia. Qed.

Lemma item_ok_int32 it x : item_ok it x -> - 2 ^ 31 <= x < 2 ^ 31.
Proof. destruct it; cbn; zlia. Qed.
Lemma int32_item it x : item_ok it x -> int32 x = x.
Proof. intros Hx%item_ok_int32. by apply to_signed_small. Qed.
Lemma item_ok_b2z (b : bool) : item_ok I_bool (Z.b2z b).
Proof. destruct b; cbn; lia. Qed.

Section values.
Context `{ScilTarget} (wrapv : bool).

#[local] Abbreviation seval := (seval wrapv).
#[local] Abbreviation sarith := (sarith wrapv).
#[local] Abbreviation binop := (binop wrapv).
#[local] Abbreviation unop := (unop wrapv).

(** The type of an item holds its values. *)
Lemma sconvert_item it v : item_ok it v -> sconvert (slot_type (item_slot it)) v = Some v.
Proof. intros Hv. destruct it; cbn in *; f_equal; apply to_signed_small; zlia. Qed.

Lemma sconvert_wider i1 i2 v : item_ok i1 v -> sconvert (slot_type (item_slot (joined i1 i2))) v = Some v.
Proof. intros Hv. by apply sconvert_item, item_ok_joined_l. Qed.

Lemma sarith_int32 z : sarith scil_int32_type z = int32_result wrapv z.
Proof. reflexivity. Qed.

Lemma int32_result_range z v : int32_result wrapv z = Some v -> - 2 ^ 31 <= v < 2 ^ 31.
Proof. unfold int32_result. case_match; [|done]. intros [= <-]. by apply (to_signed_range 32). Qed.

Lemma seval_convert rho ty d v w : rho !! sd_uid d = Some v -> sconvert ty v = Some w -> seval rho (convert_to ty d) = Some w.
Proof. intros Hv Hw. cbn. by rewrite Hv. Qed.

Lemma seval_operands rho i1 i2 d1 d2 x y :
  item_ok i1 x -> item_ok i2 y -> rho !! sd_uid d1 = Some x -> rho !! sd_uid d2 = Some y ->
  seval rho (operands i1 i2 d1 d2).1.1 = Some x /\ seval rho (operands i1 i2 d1 d2).1.2 = Some y.
Proof.
  intros Hx Hy Ex Ey. pose proof (sconvert_wider i1 i2 x Hx) as Cx.
  pose proof (sconvert_item _ y (item_ok_joined_r i1 i2 y Hy)) as Cy.
  destruct i1, i2; cbn in *; rewrite ?Ex, ?Ey; split; try reflexivity; cbn; assumption.
Qed.

Lemma seval_binary rho code ty e1 e2 x y :
  seval rho e1 = Some x -> seval rho e2 = Some y -> seval rho (SExpr code ty [e1; e2]) = sbinary wrapv code ty x y.
Proof. intros E1 E2. cbn. by rewrite E1, E2. Qed.

Lemma binop_item_ok o i1 i2 it x y v :
  binop_item o i1 i2 = Some it -> item_ok i1 x -> item_ok i2 y -> binop o x y = Some v -> item_ok it v.
Proof.
  intros Hit Hx Hy Hv.
  assert (forall f : Z -> Z -> Z, (item_ok (joined i1 i2) x -> item_ok (joined i1 i2) y -> item_ok (joined i1 i2) (f x y)) ->
    Some (joined i1 i2) = Some it -> Some (int32 (f x y)) = Some v -> item_ok it v) as Hbits.
  { intros g Hg [= <-] [= <-]. assert (item_ok (joined i1 i2) (g x y)) as Hr by eauto using item_ok_joined_l, item_ok_joined_r.
    by rewrite (int32_item _ _ Hr). }
  destruct o; cbn [binop_item CilMachine.binop] in *;
    try (case_decide; [| done]; injection Hit as <-; by apply (int32_result_range _ _ Hv)).
  - case_decide; [| done]. injection Hit as <-. destruct (y =? 0); [done |]. case_match eqn:E; [| done].
    injection Hv as <-. by apply in_range_spec in E.
  - by apply (Hbits Z.land (item_ok_land _ _ _)).
  - by apply (Hbits Z.lor (item_ok_lor _ _ _)).
  - by apply (Hbits Z.lxor (item_ok_lxor _ _ _)).
  - injection Hit as <-. injection Hv as <-. apply item_ok_b2z.
  - injection Hit as <-. injection Hv as <-. apply item_ok_b2z.
  - injection Hit as <-. injection Hv as <-. apply item_ok_b2z.
Qed.

Lemma seval_binop rho o i1 i2 it d1 d2 x y v :
  binop_item o i1 i2 = Some it -> item_ok i1 x -> item_ok i2 y -> rho !! sd_uid d1 = Some x -> rho !! sd_uid d2 = Some y ->
  binop o x y = Some v -> seval rho (binop_expr o i1 i2 d1 d2) = Some v.
Proof.
  intros Hit Hx Hy Ex Ey Hv. pose proof (binop_item_ok _ _ _ _ _ _ _ Hit Hx Hy Hv) as Hr.
  destruct (seval_operands rho i1 i2 d1 d2 x y Hx Hy Ex Ey) as [E1 E2].
  pose proof (operands_type i1 i2 d1 d2) as Hty. unfold binop_expr, signed_compare.
  destruct (operands i1 i2 d1 d2) as [[op1 op2] ty]. cbn in E1, E2, Hty. subst ty.
  assert (forall f : Z -> Z -> Z, Some (joined i1 i2) = Some it ->
    (item_ok (joined i1 i2) x -> item_ok (joined i1 i2) y -> item_ok (joined i1 i2) (f x y)) ->
    Some (int32 (f x y)) = Some v -> sconvert (slot_type (item_slot (joined i1 i2))) (f x y) = Some v) as Hbits.
  { intros g [= <-] Hg [= <-]. assert (item_ok (joined i1 i2) (g x y)) as Hg' by eauto using item_ok_joined_l, item_ok_joined_r.
    by rewrite (int32_item _ _ Hg'), sconvert_item. }
  destruct o; cbn [binop_item CilMachine.binop is_compare binop_tree] in *; rewrite (seval_binary _ _ _ _ _ x y E1 E2);
    cbn [sbinary]; try exact Hv.
  1-4: case_decide as Ej; [| done]; rewrite Ej; cbn [slot_type item_slot]; rewrite sarith_int32; try exact Hv.
  - destruct (y =? 0); [done |]. case_match eqn:E; [| done]. injection Hv as <-. unfold int32_result. rewrite E, orb_true_r.
    apply in_range_spec in E. f_equal. apply to_signed_small; zlia.
  - by apply (Hbits Z.land Hit (item_ok_land _ _ _)).
  - by apply (Hbits Z.lor Hit (item_ok_lor _ _ _)).
  - by apply (Hbits Z.lxor Hit (item_ok_lxor _ _ _)).
Qed.

Lemma seval_unop rho o it it' d x v :
  unop_item o it = Some it' -> item_ok it x -> rho !! sd_uid d = Some x -> unop o x = Some v ->
  item_ok it' v /\ seval rho (SExpr (unop_tree o) (slot_type (item_slot it)) [SDecl d]) = Some v.
Proof.
  intros Hit Hx Ex Hv. cbn. rewrite Ex. cbn [mbind option_bind]. destruct o; cbn [unop_item unop_tree sunary CilMachine.unop] in *.
  - case_decide as E; [| done]. subst. injection Hit as <-. split; [by apply (int32_result_range _ _ Hv) | exact Hv].
  - injection Hv as <-. pose proof (item_ok_int32 _ _ Hx) as Hr.
    assert (int32 (Z.lnot x) = Z.lnot x) as -> by (apply to_signed_small; unfold Z.lnot; zlia).
    assert (item_ok it' (Z.lnot x)) as Hi by (destruct it; injection Hit as <-; cbn in *; unfold Z.lnot; zlia).
    split; [done |]. assert (slot_type (item_slot it) = slot_type (item_slot it')) as -> by (destruct it; by injection Hit as <-).
    by apply sconvert_item.
Qed.

Lemma seval_cond rho c i1 i2 d1 d2 x y :
  item_ok i1 x -> item_ok i2 y -> rho !! sd_uid d1 = Some x -> rho !! sd_uid d2 = Some y ->
  seval rho (cond_expr c i1 i2 d1 d2) = Some (Z.b2z (cond c x y)).
Proof.
  intros Hx Hy Ex Ey. destruct (seval_operands rho i1 i2 d1 d2 x y Hx Hy Ex Ey) as [E1 E2]. unfold cond_expr, signed_compare.
  destruct (operands i1 i2 d1 d2) as [[op1 op2] ty]. cbn in E1, E2.
  assert (seval rho (convert_to scil_uint32_type d1) = Some (uint32 x)) as U1 by by eapply seval_convert.
  assert (seval rho (convert_to scil_uint32_type d2) = Some (uint32 y)) as U2 by by eapply seval_convert.
  destruct c; cbn [is_unsigned cond_tree]; first [rewrite (seval_binary _ _ _ _ _ _ _ E1 E2) | rewrite (seval_binary _ _ _ _ _ _ _ U1 U2)]; reflexivity.
Qed.
End values.

Section correct.
Context `{ScilTarget, ScilMiddleEnd, ScilReader} (wrapv : bool).
Context (nargs nlocals max : nat) (D : var -> scil_decl) (f result : scil_decl).
Context (result_code : sd_code result = RESULT_DECL).
Context (D_inj : forall x y, declared nargs nlocals x = true -> declared nargs nlocals y = true ->
  sd_uid (D x) = sd_uid (D y) -> x = y).

#[local] Abbreviation compiling := (compiling nargs nlocals max D f result).
#[local] Abbreviation declared := (declared nargs nlocals).
#[local] Abbreviation type_step := (type_step nargs nlocals).
#[local] Abbreviation translates := (translates D result).
#[local] Abbreviation stepped := (sstepped wrapv).

(** ** Variables and the stack *)

(** The variables have the values of the store, which are those of [int32]. *)
Record env_rel (rho : senv) (st : store) : Prop := {
  env_value x v : declared x = true -> lookup_var st x = Some v -> rho !! sd_uid (D x) = Some v;
  env_range x v : lookup_var st x = Some v -> - 2 ^ 31 <= v < 2 ^ 31
}.

(** The state at the end of the compilation. *)
Context (sf : scil_state) (sf_ok : compiling sf).

Fixpoint stack_rel (rho : senv) (a : list item) (vs : list Z) : Prop :=
  match a, vs with
  | [], [] => True
  | it :: a, v :: vs =>
      item_ok it v /\ (exists d, sl sf (item_slot it) (length a) d /\ rho !! sd_uid d = Some v) /\ stack_rel rho a vs
  | _, _ => False
  end.

Lemma sl_value (rho : senv) k n d d' v : sl sf k n d -> sl sf k n d' -> rho !! sd_uid d = Some v -> rho !! sd_uid d' = Some v.
Proof. unfold sl. congruence. Qed.

Lemma slot_uid k n d k' n' d' : sl sf k n d -> sl sf k' n' d' -> n <> n' -> sd_uid d <> sd_uid d'.
Proof.
  intros Hd Hd' Hn E. apply (sl_slot_at sf) in Hd as [Hd _]; [| apply (c_slots _ _ _ _ _ _ sf sf_ok)].
  apply (sl_slot_at sf) in Hd' as [Hd' _]; [| apply (c_slots _ _ _ _ _ _ sf sf_ok)].
  by destruct (slots_distinct sf (c_slots _ _ _ _ _ _ sf sf_ok) n n' d d' Hd Hd' E).
Qed.

Lemma var_slot_uid x k n d : declared x = true -> sl sf k n d -> sd_uid d <> sd_uid (D x).
Proof.
  intros Hx Hd. apply (sl_slot_at sf) in Hd as [Hd _]; [| apply (c_slots _ _ _ _ _ _ sf sf_ok)].
  by apply (c_var_slot _ _ _ _ _ _ sf sf_ok x n).
Qed.

(** The variables of smaller depths stay. *)
Lemma stack_rel_insert rho a vs k n d v :
  sl sf k n d -> (length a <= n)%nat -> stack_rel rho a vs -> stack_rel (<[sd_uid d := v]> rho) a vs.
Proof.
  intros Hd. revert vs. induction a as [| it a IH]; intros [| w vs] Hn; try done. cbn in *.
  intros (Hw & (e & He & Ee) & Ha). split_and!; [done | | apply IH; [lia | done]].
  exists e. split; [done |]. rewrite lookup_insert_ne; [done |]. eapply slot_uid; [exact Hd | exact He | lia].
Qed.

Lemma stack_rel_var rho a vs x v : declared x = true -> stack_rel rho a vs -> stack_rel (<[sd_uid (D x) := v]> rho) a vs.
Proof.
  intros Hx. revert vs. induction a as [| it a IH]; intros [| w vs]; try done. cbn.
  intros (Hw & (e & He & Ee) & Ha). split_and!; [done | | by apply IH].
  exists e. split; [done |]. rewrite lookup_insert_ne; [done |]. symmetry in |- *. intros E. symmetry in E.
  by apply (var_slot_uid x _ _ e Hx He).
Qed.

Lemma env_rel_slot rho st k n d v : sl sf k n d -> env_rel rho st -> env_rel (<[sd_uid d := v]> rho) st.
Proof.
  intros Hd [Hv Hr]. split; [| done]. intros x w Hx Hw. rewrite lookup_insert_ne; [by apply Hv |]. by eapply var_slot_uid.
Qed.

(** Assigning to the variable of a new item. *)
Lemma assign_run body rho st a vs it d e u v rest :
  env_rel rho st -> stack_rel rho a vs -> sl sf (item_slot it) (length a) d -> item_ok it v ->
  seval wrapv rho e = Some u -> sconvert (slot_type (item_slot it)) u = Some v ->
  exists rho', stepped body (SRunning rho (assign (item_slot it) d e :: rest)) (SRunning rho' rest) /\
    env_rel rho' st /\ stack_rel rho' (it :: a) (v :: vs).
Proof.
  intros He Ha Hd Hv Ev Hc. exists (<[sd_uid d := v]> rho). split_and!.
  - unfold sstepped, sstep, assign. cbn. rewrite Ev. cbn. by rewrite Hc.
  - by eapply env_rel_slot.
  - cbn. split_and!; [done | | by eapply stack_rel_insert]. exists d. split; [done | apply lookup_insert_eq].
Qed.

Lemma scil_lookup_update st x y v w :
  lookup_var st x = Some w -> lookup_var (update_var st x v) y = if decide (y = x) then Some v else lookup_var st y.
Proof.
  intros Hx. destruct x as [n | n], y as [m | m]; cbn in *;
    (destruct (decide _) as [E | E]; try done); [injection E as -> | | injection E as -> |].
  1, 3: apply list_lookup_insert_eq; by apply lookup_lt_Some in Hx.
  all: apply list_lookup_insert_ne; congruence.
Qed.

Lemma scil_env_rel_update rho st x v w :
  env_rel rho st -> declared x = true -> lookup_var st x = Some w -> - 2 ^ 31 <= v < 2 ^ 31 ->
  env_rel (<[sd_uid (D x) := v]> rho) (update_var st x v).
Proof.
  intros [He Hrange] Hx Hw Hv. split.
  - intros y u Hy Hu. rewrite (scil_lookup_update _ _ _ _ _ Hw) in Hu. destruct (decide (y = x)) as [-> | Hne].
    + injection Hu as <-. by rewrite lookup_insert_eq.
    + rewrite lookup_insert_ne; [by apply He |]. intros E. by apply D_inj in E.
  - intros y u Hu. rewrite (scil_lookup_update _ _ _ _ _ Hw) in Hu. destruct (decide (y = x)); [congruence | by eapply Hrange].
Qed.

(** ** One instruction *)

(** Where the statements are when the machine is at [m]: after those of the instruction, after
    the label that it branches to, or the value is returned. *)
Inductive lands (body rest : list stree) (i : cil_instr) (a a' : list item) (next : Z) : sconfig -> machine -> Prop :=
| lands_next rho st vs :
    falls_through i = true -> env_rel rho st -> stack_rel rho a' vs ->
    lands body rest i a a' next (SRunning rho rest) (At next st vs)
| lands_jump rho st vs l k pc :
    displacement i <> None -> pc = branch_target i next -> env_rel rho st -> stack_rel rho (branch_items i a) vs ->
    label_at sf pc l -> sfind_label (sd_uid l) body = Some k ->
    lands body rest i a a' next (SRunning rho k) (At pc st vs)
| lands_result v : lands body rest i a a' next (SReturned v) (Result v).

Lemma rtc_two body c1 c2 c3 : stepped body c1 c2 -> stepped body c2 c3 -> rtc (stepped body) c1 c3.
Proof. intros. eapply rtc_l; [done |]. by apply rtc_once. Qed.

(** A conditional jump on a [bool]. *)
Lemma branch_step body rho (b taken : bool) d l k rest :
  rho !! sd_uid d = Some (Z.b2z b) -> sfind_label (sd_uid l) body = Some k ->
  stepped body (SRunning rho ((if taken then branch_if else branch_unless) (convert_to scil_bool_type d) l :: rest))
    (SRunning rho (if Bool.eqb b taken then k else rest)).
Proof.
  intros Hd Hl. unfold sstepped, sstep. destruct taken, b; cbn; rewrite Hd; cbn; by rewrite ?Hl.
Qed.

Lemma scil_branch_lands body rest i a' next disp a rho st vs l k (b : bool) :
  displacement i = Some disp -> falls_through i = true -> env_rel rho st -> stack_rel rho a' vs -> branch_items i a = a' ->
  label_at sf (branch_target i next) l -> sfind_label (sd_uid l) body = Some k ->
  lands body rest i a a' next (SRunning rho (if b then k else rest)) (At (if b then next + disp else next) st vs).
Proof.
  intros Hd Hf He Ha <- Hl Hk. destruct b; [| by apply lands_next].
  assert (next + disp = branch_target i next) as -> by (unfold branch_target; rewrite Hd; cbn; lia).
  eapply (lands_jump _ _ _ _ _ _ rho st vs l k); try done. by rewrite Hd.
Qed.

Lemma item_bool v : item_ok I_bool v -> exists b : bool, v = Z.b2z b.
Proof. cbn. intros Hv. destruct (Z.eq_dec v 0) as [-> | ?]; [by exists false | exists true; cbn; lia]. Qed.

(** The variable of an item that the statements read. *)
Ltac same_slot :=
  cbn [length item_slot] in *;
  repeat match goal with
  | Hd : sl _ ?k ?n ?d, He : sl _ ?k ?n ?e |- _ =>
      assert_fails (constr_eq d e); assert (d = e) as -> by (unfold sl in Hd, He; congruence)
  end.

Lemma scil_translation_correct i next a a' stmts body rest rho st vs m :
  translates sf (branch_target i next) i a stmts -> type_step i a = Some a' ->
  env_rel rho st -> stack_rel rho a vs -> cil_exec wrapv i next st vs = Some m ->
  (forall v, i = Const v -> - 2 ^ 31 <= v < 2 ^ 31) ->
  (forall l, displacement i <> None -> label_at sf (branch_target i next) l -> exists k, sfind_label (sd_uid l) body = Some k) ->
  exists c, rtc (stepped body) (SRunning rho (stmts ++ rest)) c /\ lands body rest i a a' next c m.
Proof.
  intros Htr Ha He Hs Hm Hconst Hlab. remember (branch_target i next) as t eqn:Et. destruct Htr as [a | x a d Hd | x it a d Hd | v c a d Hc Hd | o i1 i2 it a d1 d2 d Ho Hd1 Hd2 Hd
    | o it it' a d d' Ho Hd Hd' | it a | | it a d Hd | disp a l Hl | disp a d l Hd Hl | disp a d l Hd Hl
    | c disp i1 i2 a d1 d2 d l Hc Hd1 Hd2 Hd Hl];
    subst t; cbn [ScilInt32.type_step cil_exec app] in *.
  - (* Nop *) simplify_eq. eexists. split; [done | by apply lands_next].
  - (* Load *) destruct (declared x) eqn:Hx; [| done]. destruct (lookup_var st x) as [v |] eqn:Hv; [| done].
    cbn in Hm. simplify_eq. pose proof (env_range _ _ He x v Hv) as Hrng.
    destruct (assign_run body rho st a vs I_int32 d (SDecl (D x)) v v rest He Hs) as (rho' & Hstep & He' & Hs'); try done.
    { by apply (env_value _ _ He). }
    { by apply (sconvert_item I_int32). }
    eexists. split; [by apply rtc_once | by apply lands_next].
  - (* Store *) destruct (declared x) eqn:Hx; [| done]. destruct vs as [| v vs]; [done |]. destruct Hs as (Hv & (e & He1 & Ev) & Hs).
    destruct (lookup_var st x) as [w |] eqn:Hw; [| done]. cbn in Hm. simplify_eq. same_slot.
    pose proof (item_ok_int32 _ _ Hv) as Hrng.
    exists (SRunning (<[sd_uid (D x) := v]> rho) rest). split; [| apply lands_next; [done | by eapply scil_env_rel_update | by apply stack_rel_var]].
    apply rtc_once. unfold sstepped, sstep. cbn. rewrite Ev. cbn. by rewrite (to_signed_small 32) by zlia.
  - (* Const *) specialize (Hconst v eq_refl). simplify_eq. pose proof (const_item_ok v Hconst) as Hv.
    destruct (assign_run body rho st a vs (const_item v) d (SInt (slot_type (item_slot (const_item v))) c) c v rest He Hs)
      as (rho' & Hstep & He' & Hs'); try done.
    { revert Hc. unfold const_as. destruct (const_item v); cbn; by intros ->. }
    eexists. split; [by apply rtc_once | by apply lands_next].
  - (* Binop *) destruct vs as [| y [| x vs]]; try done.
    destruct Hs as (Hy & (e2 & He2 & Ey) & Hx & (e1 & He1 & Ex) & Hs). same_slot.
    destruct (binop wrapv o x y) as [v |] eqn:Hv; [| done]. cbn in Hm. rewrite Ho in Ha. cbn in Ha. simplify_eq.
    pose proof (binop_item_ok wrapv o i1 i2 it x y v Ho Hx Hy Hv) as Hvi.
    destruct (assign_run body rho st a vs it d (binop_expr o i1 i2 e1 e2) v v rest He Hs) as (rho' & Hstep & He' & Hs'); try done.
    { by eapply seval_binop. }
    { by apply sconvert_item. }
    eexists. split; [by apply rtc_once | by apply lands_next].
  - (* Unop *) destruct vs as [| x vs]; [done |]. destruct Hs as (Hx & (e1 & He1 & Ex) & Hs). same_slot.
    destruct (unop wrapv o x) as [v |] eqn:Hv; [| done]. cbn in Hm. rewrite Ho in Ha. cbn in Ha. simplify_eq.
    destruct (seval_unop wrapv rho o it it' e1 x v Ho Hx Ex Hv) as [Hvi Ev].
    destruct (assign_run body rho st a vs it' d' (SExpr (unop_tree o) (slot_type (item_slot it)) [SDecl e1]) v v rest He Hs)
      as (rho' & Hstep & He' & Hs'); try done.
    { by apply sconvert_item. }
    eexists. split; [by apply rtc_once | by apply lands_next].
  - (* Pop *) destruct vs as [| x vs]; [done |]. destruct Hs as (_ & _ & Hs). simplify_eq.
    eexists. split; [done | by apply lands_next].
  - (* Ret, void *) destruct vs; [| done]. simplify_eq. eexists. split; [by apply rtc_once | constructor].
  - (* Ret *) destruct vs as [| v vs]; [done |]. destruct Hs as (Hv & (e & He1 & Ev) & Hs). simplify_eq. same_slot.
    pose proof (item_ok_int32 _ _ Hv) as Hrng.
    eexists. split; [| constructor]. apply rtc_once. unfold sstepped, sstep. cbn.
    rewrite bool_decide_eq_true_2, Ev by done. cbn. by rewrite (to_signed_small 32) by zlia.
  - (* Br *) simplify_eq. destruct (Hlab l) as [k Hk]; [done | done |].
    exists (SRunning rho k). split; [apply rtc_once; cbn; unfold sstepped; cbn; by rewrite Hk |].
    assert (next + disp = branch_target (Br disp) next) as -> by (unfold branch_target; cbn; lia).
    by eapply (lands_jump _ _ _ _ _ _ rho st vs l k).
  - (* Brtrue *) destruct vs as [| v vs]; [done |]. destruct Hs as (Hv & (e & He1 & Ev) & Hs). simplify_eq. same_slot.
    destruct (Hlab l) as [k Hk]; [done | done |]. destruct (item_bool v Hv) as [b ->].
    exists (SRunning rho (if b then k else rest)). split.
    + apply rtc_once. pose proof (branch_step body rho b true e l k rest Ev Hk) as Hstep. destruct b; exact Hstep.
    + assert (negb (Z.b2z b =? 0) = b) as Eb by by destruct b. rewrite Eb. by eapply scil_branch_lands.
  - (* Brfalse *) destruct vs as [| v vs]; [done |]. destruct Hs as (Hv & (e & He1 & Ev) & Hs). simplify_eq. same_slot.
    destruct (Hlab l) as [k Hk]; [done | done |]. destruct (item_bool v Hv) as [b ->].
    exists (SRunning rho (if negb b then k else rest)). split.
    + apply rtc_once. pose proof (branch_step body rho b false e l k rest Ev Hk) as Hstep. destruct b; exact Hstep.
    + assert ((Z.b2z b =? 0) = negb b) as Eb by by destruct b. rewrite Eb. by eapply scil_branch_lands.
  - (* Bcond *) destruct vs as [| y [| x vs]]; try done.
    destruct Hs as (Hy & (e2 & He2 & Ey) & Hx & (e1 & He1 & Ex) & Hs). same_slot. rewrite Hc in Ha. simplify_eq.
    destruct (Hlab l) as [k Hk]; [done | done |].
    destruct (assign_run body rho st a' vs I_bool d (cond_expr c i1 i2 e1 e2) (Z.b2z (cond c x y)) (Z.b2z (cond c x y))
      (branch_if (convert_to scil_bool_type d) l :: rest) He Hs) as (rho' & Hstep & He' & Hs'); try done.
    { apply item_ok_b2z. }
    { by apply seval_cond. }
    { apply (sconvert_item I_bool), item_ok_b2z. }
    destruct Hs' as (_ & (e & He3 & Ev) & Hs'). same_slot.
    exists (SRunning rho' (if cond c x y then k else rest)). split.
    + eapply rtc_two; [exact Hstep |]. pose proof (branch_step body rho' (cond c x y) true e l k rest Ev Hk) as Hstep'.
      destruct (cond c x y); exact Hstep'.
    + by eapply scil_branch_lands.
Qed.

(** ** A method body *)

Context (code0 : list Z) (code_bytes : Forall is_byte code0).

#[local] Abbreviation code_at := (code_at code0).
#[local] Abbreviation laid := (laid nargs nlocals D result code0 sf).
#[local] Abbreviation point_ok := (point_ok nargs nlocals max code0).

(** What [scil_complete_method_def] leaves of the statements. *)
Definition kept (l : list stree) : list stree := filter (fun stmt => unreferenced_label (sc_forced sf) stmt = false) l.

Definition not_label (t : stree) : Prop :=
  label_of_stmt t = None /\ unreferenced_label (sc_forced sf) t = false.

Lemma translates_not_label t i a stmts : translates sf t i a stmts -> Forall not_label stmts.
Proof. intros Htr. destruct Htr; repeat constructor. Qed.

Lemma kept_app l k : kept (l ++ k) = kept l ++ kept k.
Proof. apply filter_app. Qed.

Lemma kept_not_label stmts : Forall not_label stmts -> kept stmts = stmts.
Proof.
  induction 1 as [| t l [_ Ht] _ IH]; [done |]. unfold kept. rewrite filter_cons_True by done. by f_equal.
Qed.

Definition label_stmt (l : label) : stree := SExpr LABEL_EXPR scil_void_type [SDecl (lb_decl l)].

Lemma kept_label l k :
  kept (label_stmt l :: k) = if decide (sd_uid (lb_decl l) ∈ sc_forced sf) then label_stmt l :: kept k else kept k.
Proof.
  unfold kept. destruct (decide _) as [Hf | Hf].
  - rewrite filter_cons_True; [done |]. cbn. apply bool_decide_eq_false_2. intros Hn. by apply Hn.
  - rewrite filter_cons_False; [done |]. cbn. by rewrite bool_decide_eq_true_2.
Qed.

(** Past a label. *)
Lemma enter_label body rho l k : rtc (stepped body) (SRunning rho (kept (label_stmt l :: k))) (SRunning rho (kept k)).
Proof. rewrite kept_label. case_decide; [by apply rtc_once, eq_refl | done]. Qed.

Context (all : list (Z * list item)) (all_ok : Forall (point_ok all) all).

(** The points from an offset on are those of [all]. *)
Definition suffix_points (o : Z) (points : list (Z * list item)) : Prop := forall p, p ∈ all -> o <= p.1 -> p ∈ points.

(** The statements after the label of an offset before which the items are [a]. *)
Definition at_point (o : Z) (a : list item) (k : list stree) : Prop :=
  exists i n a' stmts rest points, 0 <= o /\ decode (code_at o) = Some (i, n) /\ type_step i a = Some a' /\
    translates sf (branch_target i (o + n)) i a stmts /\ laid (o + n) rest points /\
    suffix_points (o + n) points /\ k = stmts ++ kept rest.

Lemma laid_from o rest points p : laid o rest points -> p ∈ points -> o <= p.1.
Proof.
  induction 1 as [o Ho | o i n a a' l stmts rest points Ho Hd _ _ _ _ IH]; intros Hp; [by apply elem_of_nil in Hp |].
  apply elem_of_cons in Hp as [-> | Hp]; [done |]. specialize (IH Hp). pose proof (decode_size _ _ _ Hd). lia.
Qed.

Lemma suffix_next o n a points : 1 <= n -> suffix_points o ((o, a) :: points) -> suffix_points (o + n) points.
Proof. intros Hn Hs p Hp Ho. specialize (Hs p Hp ltac:(lia)).
  apply elem_of_cons in Hs as [-> | Hin]; [cbn in Ho; lia | done]. Qed.

(** The point at the beginning. *)
Lemma laid_head body o a rest points rho :
  laid o rest points -> suffix_points o points -> (o, a) ∈ points ->
  exists k, at_point o a k /\ rtc (stepped body) (SRunning rho (kept rest)) (SRunning rho k).
Proof.
  intros Hlay Hs Hin. inversion Hlay as [| ? i n a0 a' l stmts rest' points' Ho Hd Ht Hl Htr Hlay']; subst;
    [by apply elem_of_nil in Hin |]. pose proof (decode_size _ _ _ Hd) as Hn.
  assert (a0 = a) as ->.
  { apply elem_of_cons in Hin as [[= ->] | Hin]; [done |]. apply (laid_from _ _ _ _ Hlay') in Hin. cbn in Hin. lia. }
  exists (stmts ++ kept rest'). split.
  - exists i, n, a', stmts, rest', points'. split_and!; try done. eapply suffix_next; [| exact Hs]. lia.
  - assert (kept (stmts ++ rest') = stmts ++ kept rest') as <-
      by (rewrite kept_app, kept_not_label; [done | by eapply translates_not_label]).
    apply enter_label.
Qed.

Lemma label_uid_inj o o' l l' : own_label sf o = Some l -> own_label sf o' = Some l' ->
  sd_uid (lb_decl l) = sd_uid (lb_decl l') -> o = o'.
Proof. apply (c_label_inj _ _ _ _ _ _ sf sf_ok). Qed.

Lemma sfind_not_label u stmts k : Forall not_label stmts -> sfind_label u (stmts ++ k) = sfind_label u k.
Proof.
  intros Hs. apply sfind_label_skip. intros t d Ht Hd. rewrite Forall_forall in Hs. destruct (Hs t Ht) as [E _]. congruence.
Qed.

(** The label of a point is found, and the statements after it are those of the point. *)
Lemma laid_find o rest points t b lt :
  laid o rest points -> suffix_points o points -> (t, b) ∈ points -> own_label sf t = Some lt ->
  sd_uid (lb_decl lt) ∈ sc_forced sf ->
  exists k, sfind_label (sd_uid (lb_decl lt)) (kept rest) = Some k /\ at_point t b k.
Proof.
  induction 1 as [o Ho | o i n a a' l stmts rest points Ho Hd Ht Hl Htr Hlay IH]; intros Hs Hin Hlt Hf; [by apply elem_of_nil in Hin |].
  pose proof (decode_size _ _ _ Hd) as Hn. pose proof (suffix_next o n a points ltac:(lia) Hs) as Hs'.
  change (SExpr LABEL_EXPR scil_void_type [SDecl (lb_decl l)]) with (label_stmt l).
  pose proof (translates_not_label _ _ _ _ Htr) as Hnl.
  rewrite kept_label, kept_app, (kept_not_label _ Hnl). destruct (decide (o = t)) as [-> | Hne].
  - assert (lt = l) as -> by congruence. rewrite decide_True by done. cbn [sfind_label label_stmt label_of_stmt].
    rewrite decide_True by done. eexists. split; [reflexivity |].
    assert (a = b) as ->.
    { apply elem_of_cons in Hin as [[= ->] | Hin]; [done |]. apply (laid_from _ _ _ _ Hlay) in Hin. cbn in Hin. lia. }
    by exists i, n, a', stmts, rest, points.
  - destruct IH as (k & Hk & Hat); [done | by apply elem_of_cons in Hin as [[= ->] | Hin] | done | done |].
    exists k. split; [| done]. rewrite <- Hk. case_decide; cbn [sfind_label label_stmt label_of_stmt]; [rewrite decide_False |];
      [by apply sfind_not_label | | by apply sfind_not_label].
    intros E. by apply Hne, (label_uid_inj o t l lt).
Qed.

Context (rest0 : list stree) (all_laid : laid 0 rest0 all).
#[local] Abbreviation body := (kept rest0).

Lemma suffix_all : suffix_points 0 all.
Proof. by intros p Hp _. Qed.

(** A jump to a point. *)
Lemma find_point t b l :
  (t, b) ∈ all -> label_at sf t l -> exists k, sfind_label (sd_uid l) body = Some k /\ at_point t b k.
Proof. intros Hin (lt & Hlt & <- & Hf). exact (laid_find 0 rest0 all t b lt all_laid suffix_all Hin Hlt Hf). Qed.

Lemma cil_run_result fuel v w : cil_run wrapv fuel code0 (Result v) = Some w -> v = w.
Proof. destruct fuel; by intros [= ->]. Qed.

Lemma scil_simulate fuel o a k rho st vs v :
  at_point o a k -> (o, a) ∈ all -> env_rel rho st -> stack_rel rho a vs ->
  cil_run wrapv fuel code0 (At o st vs) = Some v -> rtc (stepped body) (SRunning rho k) (SReturned v).
Proof.
  revert o a k rho st vs. induction fuel as [| fuel IH]; intros o a k rho st vs Hat Hin He Hs Hrun; [done |].
  destruct Hat as (i & n & a' & stmts & rest & points & Ho & Hd & Ht & Htr & Hlay & Hsuf & ->).
  rewrite Forall_forall in all_ok. destruct (all_ok _ Hin i n Hd) as (a'' & Ht' & _ & _ & Hnext & Htgt). cbn [fst snd] in *.
  assert (a'' = a') as -> by congruence. cbn [cil_run cil_step] in Hrun. case_match eqn:Er; [| done].
  change (drop (Z.to_nat o) code0) with (code_at o) in Hrun. rewrite Hd in Hrun. cbn [mbind option_bind] in Hrun.
  destruct (cil_exec wrapv i (o + n) st vs) as [m |] eqn:Hm; [| done]. cbn [mbind option_bind] in Hrun.
  destruct (scil_translation_correct i (o + n) a a' stmts body (kept rest) rho st vs m Htr Ht He Hs Hm) as (c & Hsteps & Hland).
  { intros w ->. eapply decode_const; [| exact Hd]. by apply Forall_drop. }
  { intros l Hdis Hl. destruct (find_point _ _ l (Htgt Hdis) Hl) as (k & Hk & _). by exists k. }
  etrans; [exact Hsteps |]. destruct Hland as [rho' st' vs' Hf He' Hs' | rho' st' vs' l k pc Hdis -> He' Hs' Hl Hk | w].
  - pose proof (decode_size _ _ _ Hd) as Hn. specialize (Hnext Hf).
    destruct (laid_head body (o + n) a' rest points rho' Hlay Hsuf) as (k & Hat & Hpass); [by apply Hsuf; [| cbn; lia] |].
    etrans; [exact Hpass |]. by eapply IH.
  - destruct (find_point _ _ l (Htgt Hdis) Hl) as (k' & Hk' & Hat). assert (k' = k) as -> by congruence.
    eapply IH; [exact Hat | by apply Htgt | exact He' | exact Hs' | exact Hrun].
  - apply cil_run_result in Hrun as ->. done.
Qed.
End correct.
