(* ===== verification/ScilMethodCorrect.v ===== *)
(** * ScilMethodCorrect: a method compiled by the second front end

    [parse_method] on a static method with [int32] parameters, variables and result: the
    function that it hands to the middle end computes what the machine of CilMachine
    computes on the bytes of the method.  The last examples are methods outside the theorem. *)
From S2P Require Import Prelude Values MethodCode CilMachine Trees ScilTrees ScilStack ScilMethod ScilInstr ScilParse.
From S2P Require Import ScilSemantics ScilSlots ScilInt32 ScilCompile ScilLayout ScilCorrect.

(** ** The statements *)

Section body.
Context `{ScilTarget, ScilMiddleEnd, ScilReader} (wrapv : bool).
Context (nargs nlocals max : nat) (D : var -> scil_decl) (f result : scil_decl).
Context (D_type : forall x, sd_type (D x) = scil_int32_type) (result_type : sd_type result = scil_int32_type).
Context (result_code : sd_code result = RESULT_DECL).
Context (D_inj : forall x y, declared nargs nlocals x = true -> declared nargs nlocals y = true ->
  sd_uid (D x) = sd_uid (D y) -> x = y).
Context (code tail : list Z) (code_bytes : Forall is_byte (code ++ tail)) (code_length : Z.of_nat (length code) + 8 < 2 ^ 31).

#[local] Abbreviation compiling := (compiling nargs nlocals max D f result).
#[local] Abbreviation grows := (grows nargs nlocals max D f result).

(** What [scil_verify] checks of a point. *)
Lemma points_ok_spec all : points_ok nargs nlocals max code all = true -> Forall (point_ok nargs nlocals max code all) all.
Proof.
  unfold points_ok. rewrite forallb_forall. intros Hok. apply Forall_forall. intros [o a] Hin i n Hd. cbn [fst snd] in *.
  apply list_elem_of_In in Hin. specialize (Hok _ Hin). cbn beta iota in Hok.
  change (drop (Z.to_nat o) code) with (code_at code o) in Hok. rewrite Hd in Hok. apply andb_true_iff in Hok as [Ha Hb].
  destruct (type_step nargs nlocals i a) as [a' |]; [| done]. exists a'.
  apply andb_true_iff in Ha as [Ha Hf]. apply andb_true_iff in Ha as [Hl Hl'].
  apply Nat.leb_le in Hl, Hl'. split_and!; try done.
  - intros Hfall. rewrite Hfall in Hf. by apply bool_decide_eq_true in Hf.
  - unfold branch_target. destruct (displacement i) as [d |]; [| done]. intros _. apply bool_decide_eq_true in Hb.
    unfold default, id. by replace (d + (o + n)) with (o + n + d) by lia.
Qed.

(** [scil_complete_method_def] does this to the statements. *)
Definition finished_body (s : scil_state) : list stree :=
  filter (fun stmt => unreferenced_label (sc_forced s) stmt = false) (sc_body s).

Lemma body_correct s :
  scil_verify nargs nlocals max code = true -> code <> [] -> compiling s -> sc_code s = code ++ tail -> sc_pc s = 0 ->
  sc_stack s = mkStack 0 [] -> sc_body s = [] -> (forall o, own_label s o = None) ->
  exists sf, parse_code (length code) (Z.of_nat (length code)) s = Done tt sf /\ grows s sf /\ sc_body sf <> [] /\
    forall rho st fuel v, env_rel nargs nlocals D rho st -> cil_run wrapv fuel code (At 0 st []) = Some v ->
      exists fuel', srun wrapv fuel' (finished_body sf) (SRunning rho (finished_body sf)) = Some v.
Proof.
  intros Hv Hne C Hcode Hpc Hst Hb Hl. unfold scil_verify in Hv.
  destruct (scil_scan nargs nlocals (length code) code 0 [] []) as [all |] eqn:Hscan; [| done].
  pose proof (points_ok_spec all Hv) as Hok. change code with (code_at code 0) in Hscan at 2.
  destruct (parse_code_layout nargs nlocals max D f result D_type result_type code tail code_bytes code_length
    (length code) (length code) 0 [] [] all all s) as (sf & rest & Hrun & Hg & Hbody & Hlay); try done.
  { by rewrite Hst. }
  { intros o _. apply Hl. }
  { intros p Hp. pose proof (scil_scan_range nargs nlocals code (length code) 0 [] [] all p ltac:(lia) Hscan Hp). split; [lia | by left]. }
  exists sf. rewrite Hb in Hbody. cbn in Hbody.
  assert ((0, []) ∈ all) as Hin0.
  { inversion Hlay as [? He | ? i n a a' l stmts rest' points Ho Hd Ht Hl' Htr Hlay' E1 E2 E3]; subst.
    - by unfold code_at in He.
    - destruct (length code) as [| fuel] eqn:El; [by destruct code|].
      destruct (scan_turn nargs nlocals code fuel 0 [] [] _ ltac:(lia) Hscan Hne) as (? & ? & ? & ? & _ & _ & _ & E).
      rewrite E. apply elem_of_cons. by left. }
  split_and!; [done | done | |].
  - rewrite Hbody. intros ->. inversion Hlay; subst. by apply elem_of_nil in Hin0.
  - intros rho st fuel v He Hrun'. unfold finished_body. rewrite Hbody.
    assert (compiling sf) as Cf by by apply Hg.
    assert (suffix_points all 0 all) as Hsuf by (by intros p Hp _).
    destruct (laid_head wrapv nargs nlocals D result sf code all (kept sf rest) 0 [] rest all rho Hlay Hsuf Hin0) as (k & Hat & Hpass).
    assert (Forall is_byte code) as Hby by by apply Forall_app in code_bytes as [? _].
    pose proof (scil_simulate wrapv nargs nlocals max D f result result_code D_inj sf Cf code Hby all Hok rest Hlay fuel 0 [] k rho st [] v
      Hat Hin0 He I Hrun') as Hsim.
    eapply (srun_steps wrapv (kept sf rest) _ (SReturned v)); [by etrans | by instantiate (1 := 0%nat)].
Qed.
End body.

(** ** Parameters and variables *)

Section method.
Context `{ScilTarget, ScilMiddleEnd, ScilReader}.

(** The declarations of the parameters, from an identifier on. *)
Fixpoint parms (uid : N) (names : list string) : list scil_decl :=
  match names with
  | [] => []
  | name :: names => mkScilDecl PARM_DECL uid (Name_id name) scil_int32_type None :: parms (uid + 1) names
  end.
(** Those of the local variables. *)
Fixpoint vars (uid : N) (index : Z) (n : nat) : list scil_decl :=
  match n with
  | O => []
  | S n => mkScilDecl VAR_DECL uid (Method_var_id index) scil_int32_type None :: vars (uid + 1) (index + 1) n
  end.

Lemma length_parms uid names : length (parms uid names) = length names.
Proof. revert uid. induction names as [| x names IH]; intros uid; cbn; congruence. Qed.
Lemma length_vars uid index n : length (vars uid index n) = n.
Proof. revert uid index. induction n as [| n IH]; intros uid index; cbn; congruence. Qed.

Lemma parms_lookup uid names n d :
  parms uid names !! n = Some d -> sd_uid d = (uid + N.of_nat n)%N /\ sd_type d = scil_int32_type.
Proof.
  revert uid n. induction names as [| x names IH]; intros uid [| n]; cbn; try done.
  - intros [= <-]. cbn. split; [lia | done].
  - intros [E Et]%IH. split; [lia | done].
Qed.
Lemma vars_lookup uid index k n d :
  vars uid index k !! n = Some d -> sd_uid d = (uid + N.of_nat n)%N /\ sd_type d = scil_int32_type.
Proof.
  revert uid index n. induction k as [| k IH]; intros uid index [| n]; cbn; try done.
  - intros [= <-]. cbn. split; [lia | done].
  - intros [E Et]%IH. split; [lia | done].
Qed.

Definition entries_of (ds : list scil_decl) : list (option stree) := (fun d => Some (SDecl d)) <$> ds.

Definition with_parameters (names : list string) (before : list (option stree)) (rest : list scil_type) (s : scil_state)
    : scil_state :=
  let ds := parms (sc_next_uid s) names in
  set_sc_param_types rest (set_sc_next_uid (sc_next_uid s + N.of_nat (length names))%N
    (set_sc_arguments (rev ds ++ sc_arguments s) (set_sc_parameters (before ++ entries_of ds) s))).

Lemma add_parameters_run names before rest s :
  sc_param_types s = replicate (length names) scil_int32_type ++ rest ->
  sc_parameters s = before ++ replicate (length names) None ->
  add_parameters names (Z.of_nat (length before)) s = Done tt (with_parameters names before rest s).
Proof.
  revert before s. induction names as [| name names IH]; intros before s Ht Hp.
  - cbn in *. unfold with_parameters. cbn. rewrite N.add_0_r, <- Hp, <- Ht. by destruct s.
  - cbn [add_parameters length replicate app] in *. unfold scil_add_method_parameter.
    rewrite bind_assoc, (bind_done (get sc_param_types) _ s (sc_param_types s) s eq_refl), Ht.
    set (d := mkScilDecl PARM_DECL (sc_next_uid s) (Name_id name) scil_int32_type None).
    set (s1 := set_sc_arguments (d :: sc_arguments s) (set_sc_next_uid (sc_next_uid s + 1)%N
      (set_sc_param_types (replicate (length names) scil_int32_type ++ rest) s))).
    match goal with |- ?lhs = _ => change lhs with ((l ← get sc_parameters;
      if Z.of_nat (length before) <? Z.of_nat (length l) then
        modify (set_sc_parameters (put (Z.of_nat (length before)) (Some (SDecl d)) l));;
        add_parameters names (Z.of_nat (length before) + 1)
      else fail (Undefined "parameters")) s1) end.
    rewrite (bind_done (get sc_parameters) _ s1 (sc_parameters s) s1 eq_refl), Hp.
    rewrite (proj2 (Z.ltb_lt _ _)) by (rewrite length_app; cbn [length]; lia).
    set (s2 := set_sc_parameters ((before ++ [Some (SDecl d)]) ++ replicate (length names) None) s1).
    assert (put (Z.of_nat (length before)) (Some (SDecl d)) (before ++ None :: replicate (length names) None)
      = (before ++ [Some (SDecl d)]) ++ replicate (length names) None) as ->.
    { unfold put. rewrite Nat2Z.id, <- (Nat.add_0_r (length before)), insert_app_r, <- app_assoc. done. }
    rewrite (bind_done (modify _) _ s1 tt s2 eq_refl).
    replace (Z.of_nat (length before) + 1) with (Z.of_nat (length (before ++ [Some (SDecl d)]))) by (rewrite length_app; cbn; lia).
    rewrite IH by done. f_equal. unfold with_parameters, s2, s1. cbn -[parms].
    assert (parms (sc_next_uid s) (name :: names) = d :: parms (sc_next_uid s + 1) names) as -> by done.
    cbn [rev entries_of fmap list_fmap]. rewrite <- !app_assoc. cbn [app].
    by replace (sc_next_uid s + 1 + N.of_nat (length names))%N with (sc_next_uid s + N.of_nat (S (length names)))%N by lia.
Qed.

Definition with_locals (n : nat) (s : scil_state) : scil_state :=
  let ds := vars (sc_next_uid s) (sc_var_index s) n in
  set_sc_var_index (sc_var_index s + Z.of_nat n) (set_sc_next_uid (sc_next_uid s + N.of_nat n)%N
    (set_sc_vars (rev ds ++ sc_vars s) (set_sc_locals (sc_locals s ++ entries_of ds) s))).

Lemma add_locals_run n s : add_locals (replicate n (mret scil_int32_type)) s = Done tt (with_locals n s).
Proof.
  revert s. induction n as [| n IH]; intros s.
  - unfold with_locals. cbn. rewrite N.add_0_r, Z.add_0_r, app_nil_r. by destruct s.
  - cbn [replicate add_locals]. rewrite bind_ret.
    set (d := mkScilDecl VAR_DECL (sc_next_uid s) (Method_var_id (sc_var_index s)) scil_int32_type None).
    set (s1 := set_sc_locals (sc_locals s ++ [Some (SDecl d)]) (set_sc_vars (d :: sc_vars s)
      (set_sc_next_uid (sc_next_uid s + 1)%N (set_sc_var_index (sc_var_index s + 1) s)))).
    match goal with |- ?lhs = _ => change lhs with (add_locals (replicate n (mret scil_int32_type)) s1) end. rewrite IH. f_equal.
    unfold with_locals, s1. cbn -[vars].
    assert (vars (sc_next_uid s) (sc_var_index s) (S n) = d :: vars (sc_next_uid s + 1) (sc_var_index s + 1) n) as -> by done.
    cbn [rev entries_of fmap list_fmap]. rewrite <- !app_assoc. cbn [app].
    replace (sc_next_uid s + 1 + N.of_nat n)%N with (sc_next_uid s + N.of_nat (S n))%N by lia.
    by replace (sc_var_index s + 1 + Z.of_nat n) with (sc_var_index s + Z.of_nat (S n)) by lia.
Qed.

(** ** The state before the first instruction *)

(** A static method that can be compiled: it and its result are declared, nothing refers to a
    declaration that is still to be made, and it has no labels yet. *)
Record ready (m result : scil_decl) (n : nat) (s : scil_state) : Prop := {
  r_new : (sd_uid m ∉ sc_external s) /\ (sd_uid m ∉ sc_started s);
  r_type : exists rest, sd_type m = SFunction scil_int32_type (replicate n scil_int32_type ++ rest);
  r_result : sc_results s !! sd_uid m = Some result;
  r_result_decl : sd_type result = scil_int32_type /\ sd_code result = RESULT_DECL;
  r_labels pc : sc_labels s !! (sd_uid m, pc) = None;
  r_alias u t : sc_alias s !! u = Some t -> (u < sc_next_uid s)%N;
  r_forced u : u ∈ sc_forced s -> (u < sc_next_uid s)%N;
  r_locals : sc_locals s = []
}.

Definition started (m : scil_decl) (max : Z) (types : list scil_type) (s : scil_state) : scil_state :=
  set_sc_valuetypes (make_stack max []) (set_sc_typed (fun _ => make_stack max None) (set_sc_stack (mkStack 0 [])
    (set_sc_param_types types (set_sc_function (Some m) (set_sc_arguments [] (set_sc_body [] (set_sc_vars []
      (set_sc_started ({[sd_uid m]} ∪ sc_started s) (set_sc_addressable (sc_addressable s ∖ {[sd_uid m]}) s))))))))).

Lemma start_run m max types s :
  sd_uid m ∉ sc_external s -> sd_uid m ∉ sc_started s -> sd_type m = SFunction scil_int32_type types -> 0 <= max ->
  scil_start_method_def m max s = Done true (started m max types s).
Proof.
  intros He Hs Ht Hm. unfold scil_start_method_def.
  rewrite (bind_done (get (fun s => s)) _ s s s eq_refl), bool_decide_eq_false_2, bool_decide_eq_false_2, Ht by done.
  unfold scil_init_stacks. rewrite (proj2 (Z.leb_le 0 max) Hm). reflexivity.
Qed.

Definition entered (m : scil_decl) (max : Z) (names : list string) (nlocals : nat) (rest : list scil_type) (code : list Z)
    (s : scil_state) : scil_state :=
  set_sc_pc 0 (set_sc_code code (with_locals nlocals (with_parameters names [] rest
    (set_sc_parameters (replicate (length names) None)
      (started m max (replicate (length names) scil_int32_type ++ rest) s))))).

(** The declarations of the variables. *)
Definition method_var (uid : N) (index : Z) (names : list string) (nlocals : nat) (x : var) : scil_decl :=
  default (mkScilDecl VAR_DECL 0 (Name_id "") scil_int32_type None)
    match x with
    | Arg n => parms uid names !! n
    | Local n => vars (uid + N.of_nat (length names)) index nlocals !! n
    end.

Lemma method_var_type uid index names nlocals x : sd_type (method_var uid index names nlocals x) = scil_int32_type.
Proof.
  unfold method_var. destruct x as [n | n]; cbn.
  - destruct (parms uid names !! n) eqn:E; [by apply parms_lookup in E as [_ E] | done].
  - destruct (vars _ index nlocals !! n) eqn:E; [by apply vars_lookup in E as [_ E] | done].
Qed.

Lemma method_var_uid uid index names nlocals x :
  declared (length names) nlocals x = true ->
  sd_uid (method_var uid index names nlocals x)
  = (uid + match x with Arg n => N.of_nat n | Local n => N.of_nat (length names) + N.of_nat n end)%N.
Proof.
  unfold method_var. destruct x as [n | n]; cbn; intros Hn%Nat.ltb_lt.
  - destruct (lookup_lt_is_Some_2 (parms uid names) n) as [d E]; [by rewrite length_parms |]. rewrite E.
    by apply parms_lookup in E as [E _].
  - destruct (lookup_lt_is_Some_2 (vars (uid + N.of_nat (length names)) index nlocals) n) as [d E]; [by rewrite length_vars |].
    rewrite E. apply vars_lookup in E as [E _]. cbn. lia.
Qed.

Lemma method_var_inj uid index names nlocals x y :
  declared (length names) nlocals x = true -> declared (length names) nlocals y = true ->
  sd_uid (method_var uid index names nlocals x) = sd_uid (method_var uid index names nlocals y) -> x = y.
Proof.
  intros Hx Hy. rewrite !method_var_uid by done.
  destruct x as [n | n], y as [k | k]; cbn in Hx, Hy; apply Nat.ltb_lt in Hx, Hy; intros E; try (f_equal; lia); lia.
Qed.

(** There is no variable of the stack yet. *)
Lemma started_slots s s' i d :
  (forall k, sc_typed s' k = sc_typed s k) -> sc_valuetypes s' = sc_valuetypes s ->
  (exists max, (forall k, sc_typed s k = make_stack max None) /\ sc_valuetypes s = make_stack max []) -> slot_at s' i d -> False.
Proof.
  intros Ht Hv (max & Et & Ev) [(k & E & _) | (l & t & E & Hl)].
  - rewrite Ht, Et in E. apply lookup_replicate in E as [E _]. done.
  - rewrite Hv, Ev in E. apply lookup_replicate in E as [-> _]. by apply elem_of_nil in Hl.
Qed.

Lemma entered_compiling m result max names nlocals rest code s :
  ready m result (length names) s ->
  compiling (length names) nlocals (Z.to_nat max)
    (method_var (sc_next_uid s) (sc_var_index s) names nlocals) m result (entered m max names nlocals rest code s).
Proof.
  intros [[Hext Hnew] [rest' Htype] Hres Hdecl Hlab Halias Hforced Hloc]. set (s' := entered _ _ _ _ _ _ _).
  assert (forall k, sc_typed s' k = make_stack max None) as Et by done.
  assert (sc_valuetypes s' = make_stack max []) as Ev by done.
  assert (forall i d, slot_at s' i d -> False) as Hno.
  { intros i d. apply (started_slots s' s'); try done. by exists max. }
  assert (forall pc, own_label s' pc = None) as Hown by (intros pc; apply Hlab).
  split.
  - split.
    + intros k i v. rewrite Et. by intros [? _]%lookup_replicate.
    + intros i l t v. rewrite Ev. intros [-> _]%lookup_replicate Hin. by apply elem_of_nil in Hin.
    + intros i d Hd. by destruct (Hno i d).
    + intros i j d e Hd. by destruct (Hno i d).
    + split; [done | by intros j e Hj].
    + intros pc l st. by rewrite Hown.
  - intros k. rewrite Et. apply length_replicate.
  - done.
  - exact Hres.
  - intros n Hn. destruct (lookup_lt_is_Some_2 (parms (sc_next_uid s) names) n) as [d E]; [by rewrite length_parms |].
    cbn -[parms]. unfold entries_of. by rewrite list_lookup_fmap, E.
  - intros n Hn. destruct (lookup_lt_is_Some_2 (vars (sc_next_uid s + N.of_nat (length names)) (sc_var_index s) nlocals) n)
      as [d E]; [by rewrite length_vars |].
    cbn -[parms vars]. rewrite Hloc. cbn -[parms vars]. unfold entries_of. by rewrite list_lookup_fmap, E.
  - intros x Hx. rewrite method_var_uid by done. cbn. destruct x as [n | n]; cbn in Hx; apply Nat.ltb_lt in Hx; lia.
  - intros x i d _ Hd. by destruct (Hno i d).
  - intros u t Hu. apply Halias in Hu as Hlt. split_and!.
    + cbn. lia.
    + intros x Hx. rewrite method_var_uid by done. lia.
    + intros i d Hd. by destruct (Hno i d).
  - intros pc l. by rewrite Hown.
  - intros pc pc' l l'. by rewrite Hown.
  - intros u Hu. apply Hforced in Hu. cbn. lia.
Qed.

(** The values of declarations. *)
Definition holds (rho : senv) (ds : list scil_decl) (vs : list Z) : Prop := Forall2 (fun d v => rho !! sd_uid d = Some v) ds vs.

Definition int32_values (vs : list Z) : Prop := Forall (fun v => - 2 ^ 31 <= v < 2 ^ 31) vs.

Lemma holds_env rho uid index names nlocals st :
  holds rho (parms uid names) (args st) -> holds rho (vars (uid + N.of_nat (length names)) index nlocals) (locals st) ->
  int32_values (args st) -> int32_values (locals st) ->
  env_rel (length names) nlocals (method_var uid index names nlocals) rho st.
Proof.
  intros Ha Hl Hra Hrl. split.
  - intros [n | n] v _ Hv; cbn [lookup_var] in Hv; unfold method_var;
      [destruct (Forall2_lookup_r _ _ _ _ _ Ha Hv) as (d & -> & Hd) | destruct (Forall2_lookup_r _ _ _ _ _ Hl Hv) as (d & -> & Hd)];
      exact Hd.
  - intros [n | n] v Hv; cbn in Hv; [exact (Forall_lookup_1 _ _ _ _ Hra Hv) | exact (Forall_lookup_1 _ _ _ _ Hrl Hv)].
Qed.

Lemma complete_run f s : sc_function s = Some f -> sc_body s <> [] ->
  exists s', scil_complete_method_def s = Done tt s' /\
    sc_finished s' !! sd_uid f = Some (mkFunction (rev (sc_arguments s)) (rev (sc_vars s)) (finished_body s)).
Proof.
  intros Hf Hb. unfold scil_complete_method_def.
  assert (current_function s = Done f s) as Ef by (unfold current_function, mbind, comp_bind, get; by rewrite Hf).
  rewrite (bind_done _ _ _ _ _ Ef), (bind_done (get sc_body) _ s (sc_body s) s eq_refl).
  destruct (sc_body s) eqn:E; [done |]. rewrite bind_ret. eexists. split; [reflexivity |].
  cbn -[filter]. unfold finished_body. rewrite E. apply lookup_insert_eq.
Qed.
End method.

Section theorem.
Context `{ScilTarget, ScilMiddleEnd, ScilReader} (wrapv : bool).

(** Up to the first instruction. *)
Lemma parse_body_entered m result max names nlocals rest body addr s :
  ready m result (length names) s -> (localVarSig body = None -> nlocals = 0%nat) ->
  parse_body body addr true (Z.of_nat (length names)) names (replicate nlocals (mret scil_int32_type))
    (started m max (replicate (length names) scil_int32_type ++ rest) s)
  = parse_code (Z.to_nat (codeLen body)) (codeLen body)
      (entered m max names nlocals rest (drop (Z.to_nat (code body)) addr) s).
Proof.
  intros Hready Hlocals. unfold parse_body. cbn [app]. rewrite Nat2Z.id.
  set (s1 := started _ _ _ s). set (s2 := set_sc_parameters (replicate (length names) None) s1).
  rewrite (bind_done (modify _) _ s1 tt s2 eq_refl).
  pose proof (add_parameters_run names [] rest s2 eq_refl eq_refl) as Ep. cbn [length Z.of_nat] in Ep.
  rewrite (bind_done _ _ _ _ _ Ep). set (s3 := with_parameters _ _ _ s2).
  assert (match localVarSig body with Some _ => replicate nlocals (mret scil_int32_type) | None => [] end
    = replicate nlocals (mret scil_int32_type : SM scil_type)) as ->
    by (destruct (localVarSig body); [done | by rewrite Hlocals]).
  rewrite (bind_done _ _ _ _ _ (add_locals_run nlocals s3)).
  by rewrite (bind_done (modify _) _ _ tt _ eq_refl), (bind_done (modify _) _ _ tt _ eq_refl).
Qed.

(** C2: For a static method with [int32] parameters, variables and result, whose code
    [scil_verify] accepts, the second front end ([parse_method]: labels and their saved
    stacks, stack variables as wide as what was pushed, branches, the removal of unused
    labels) builds a function; and when the CIL machine returns from the bytes, with any
    fuel, so do the statements of the function, with the same value. *)
Theorem scil_compile_int32_correct nlocals m result body addr names code tail s :
  ready m result (length names) s -> 0 <= maxStack body -> (localVarSig body = None -> nlocals = 0%nat) ->
  drop (Z.to_nat (MethodCode.code body)) addr = code ++ tail -> codeLen body = Z.of_nat (length code) ->
  Forall is_byte (code ++ tail) -> Z.of_nat (length code) + 8 < 2 ^ 31 -> code <> [] ->
  scil_verify (length names) nlocals (Z.to_nat (maxStack body)) code = true ->
  exists s' fn,
    parse_method m (Some (body, addr)) true (Z.of_nat (length names)) names (replicate nlocals (mret scil_int32_type)) s
      = Done tt s' /\
    sc_finished s' !! sd_uid m = Some fn /\
    forall rho st fuel v,
      holds rho (fn_arguments fn) (args st) -> holds rho (take nlocals (fn_vars fn)) (locals st) ->
      int32_values (args st) -> int32_values (locals st) ->
      cil_run wrapv fuel code (At 0 st []) = Some v ->
      exists fuel', srun wrapv fuel' (fn_body fn) (SRunning rho (fn_body fn)) = Some v.
Proof.
  intros Hready Hmax Hlocals Hcode Hlen Hbytes Hlong Hne Hv. pose proof Hready as [[Hext Hnew] [rest Htype] _ [Hrt Hrc] _ _ _ _].
  pose proof (entered_compiling m result (maxStack body) names nlocals rest (code ++ tail) s Hready) as C.
  destruct (body_correct wrapv (length names) nlocals (Z.to_nat (maxStack body))
    (method_var (sc_next_uid s) (sc_var_index s) names nlocals) m result (method_var_type _ _ _ _) Hrt Hrc
    (method_var_inj _ _ _ _) code tail Hbytes Hlong _ Hv Hne C) as (sf & Hrun & Hg & Hnil & Hsim); try done.
  { intros o. apply (r_labels _ _ _ _ Hready). }
  destruct (complete_run m sf) as (s1 & Hdone & Hfin); [|done|].
  { apply (c_function _ _ _ _ _ _ _ (g_ok _ _ _ _ _ _ _ _ Hg C)). }
  eexists (set_sc_locals [] (set_sc_parameters [] s1)), _. split; [| split; [exact Hfin |]].
  - unfold parse_method. rewrite (bind_done _ _ _ _ _ (start_run m (maxStack body) _ s Hext Hnew Htype Hmax)). cbn [negb].
    pose proof (parse_body_entered m result (maxStack body) names nlocals rest body addr s Hready Hlocals) as Eb.
    rewrite Hcode, Hlen, Nat2Z.id, Hrun in Eb. rewrite (bind_done _ _ _ _ _ Eb), (bind_done _ _ _ _ _ Hdone). reflexivity.
  - intros rho st fuel v Ha Hl Hra Hrl. apply Hsim. pose proof (g_arguments _ _ _ _ _ _ _ _ Hg) as Eargs.
    destruct (g_vars _ _ _ _ _ _ _ _ Hg) as [more Evars]. cbn [fn_arguments fn_vars] in Ha, Hl.
    rewrite Eargs in Ha. rewrite Evars, rev_app_distr in Hl. cbn -[parms vars] in Ha, Hl.
    rewrite app_nil_r, rev_involutive in Ha. rewrite app_nil_r, rev_involutive in Hl.
    rewrite take_app_le, take_ge in Hl by (rewrite length_vars; lia). by apply holds_env.
Qed.
End theorem.

(** ** A loop compiled and run *)

Section witness.
#[local] Existing Instances scil_ilp32 scil_plain_middle_end scil_sample_reader.

(** [x = 0; while (a != 0) { x = x + b; a = a - 1; } return x;] *)
Definition scil_loop : list Z :=
  [0x16; 0x0A; 0x02; 0x16; 0x2E; 0x0B; 0x06; 0x03; 0x58; 0x0A; 0x02; 0x17; 0x59; 0x10; 0x00; 0x2B; 0xF1; 0x06; 0x2A].

Lemma scil_sample_ready : ready scil_sample_method scil_sample_result 2 scil_sample.
Proof.
  split; try done. by exists [scil_void_type].
Qed.

(** The parameters are numbered from 10 on, the local variable after them. *)
Definition scil_env (a b : Z) : senv := <[10%N := a]> (<[11%N := b]> {[12%N := 0]}).

(** 3 * 14, by the loop. *)
Lemma scil_compile_int32_correct_witness :
  match scil_compile_sample 1 scil_loop with
  | Some fn => exists fuel, srun true fuel (fn_body fn) (SRunning (scil_env 3 14) (fn_body fn)) = Some (Some 42)
  | None => False
  end.
Proof.
  destruct (scil_compile_int32_correct true 1 scil_sample_method scil_sample_result (scil_sample_body scil_loop).1
    (scil_sample_body scil_loop).2 ["a"; "b"]%string scil_loop [] scil_sample) as (s' & fn & Hs' & Hfn & Hrun).
  - exact scil_sample_ready.
  - cbn. lia.
  - done.
  - reflexivity.
  - reflexivity.
  - repeat constructor; unfold is_byte; lia.
  - cbn. lia.
  - done.
  - vm_compute. reflexivity.
  - assert (scil_compile_sample 1 scil_loop = Some fn) as E.
    { match type of Hs' with ?run = _ =>
        change (scil_compile_sample 1 scil_loop) with (match run with Done _ s => sc_finished s !! 1%N | Failed _ => None end) end.
      by rewrite Hs'. }
    rewrite E. assert (fn_arguments <$> scil_compile_sample 1 scil_loop
      = Some [mkScilDecl PARM_DECL 10 (Name_id "a") scil_int32_type None; mkScilDecl PARM_DECL 11 (Name_id "b") scil_int32_type None])
      as Ea by (vm_compute; reflexivity).
    assert ((take 1 ∘ fn_vars) <$> scil_compile_sample 1 scil_loop
      = Some [mkScilDecl VAR_DECL 12 (Method_var_id 0) scil_int32_type None]) as Ev by (vm_compute; reflexivity).
    rewrite E in Ea, Ev. injection Ea as Ea. injection Ev as Ev.
    apply (Hrun (scil_env 3 14) (mkStore [3; 14] [0]) 100%nat).
    + rewrite Ea. repeat constructor; vm_compute; reflexivity.
    + rewrite Ev. repeat constructor; vm_compute; reflexivity.
    + repeat constructor; lia.
    + repeat constructor; lia.
    + vm_compute. reflexivity.
Defined.
End witness.

(** ** Where the front end is wrong about integers

    Small methods that [ScilInt32.scil_verify] refuses, and what becomes of them. *)

Section findings.
#[local] Existing Instances scil_ilp32 scil_plain_middle_end scil_sample_reader.

(** The value that the statements of a method return, with [-fwrapv]. *)
Definition scil_value (code : list Z) (a b : Z) : option (option Z) :=
  fn ← scil_compile_sample 1 code; srun true 100 (fn_body fn) (SRunning (scil_env a b) (fn_body fn)).

(** [return 100 + 100;] adds in eight bits, as the constants are narrow. *)
Definition narrow_add : list Z := [0x1F; 100; 0x1F; 100; 0x58; 0x2A].

Lemma narrow_add_wraps :
  scil_value narrow_add 0 0 = Some (Some (-56)) /\
  cil_run true 100 narrow_add (At 0 (mkStore [0; 0] [0]) []) = Some (Some 200) /\
  scil_verify 2 1 2 narrow_add = false.
Proof. by vm_compute. Qed.

(** [if (a) return 1; return 0;]: the condition is converted to a type of one bit. *)
Definition int_condition : list Z := [0x02; 0x2C; 2; 0x17; 0x2A; 0x16; 0x2A].

Lemma int_condition_undefined :
  scil_value int_condition 1 0 = Some (Some 1) /\ scil_value int_condition 2 0 = None /\
  cil_run true 100 int_condition (At 0 (mkStore [2; 0] [0]) []) = Some (Some 1) /\
  scil_verify 2 1 2 int_condition = false.
Proof. by vm_compute. Qed.

(** [ble.un] on an operand of eight bits, on the top: the other one loses its upper bits. *)
Definition narrow_unsigned : list Z := [0x02; 0x1B; 0x36; 2; 0x16; 0x2A; 0x17; 0x2A].

Lemma narrow_unsigned_wrong :
  scil_value narrow_unsigned 256 0 = Some (Some 1) /\
  cil_run true 100 narrow_unsigned (At 0 (mkStore [256; 0] [0]) []) = Some (Some 0) /\
  scil_verify 2 1 2 narrow_unsigned = false.
Proof. by vm_compute. Qed.

(** [ldloc], 0xFE 0x0C, calls the function of [ldloca]: the table has no entries for the
    codes that scil-extended-instructions.def leaves out. *)
Lemma prefixed_ldloc : extended_instructions !! 0x0C%nat = Some instr_ldloca /\ extended_instructions !! 0x0B%nat = Some instr_ldloc.
Proof. done. Qed.
End findings.
